(* ===== verification/_CoqProject ===== *)
-Q . S2P
Prelude.v
MemoryMap.v
Pmm.v
PageAlloc.v
Slice.v
DList.v
KAlloc.v
Task.v
IList.v
Timer.v
Vmm.v
AddressSpace.v
Bytes.v
Heap.v
Allocator.v
KMem.v
VfsBase.v
Ramfs.v
Vfs.v
Keyboard.v
ProcTable.v
ProcTree.v
Process.v
Elf.v
Syscall.v
SysTree.v
SysSpec.v
Pool.v
Scenario.v
Sync.v
Block.v
Fat.v
FatSpec.v
FatDir.v
FatFs.v
FatDemo.v
Overlay.v
OverlaySpec.v
OverlayRoot.v
OverlayDemo.v
Text.v
Demangle.v
DemangleParse.v
DemangleSpec.v
Stacktrace.v
StackSpec.v
Log.v
LogSpec.v
Console.v
ConsoleSpec.v
RuntimeMem.v
Acpi.v
AcpiSpec.v
Gdt.v
Devices.v
Idt.v
IdtSpec.v
IdtDemo.v
Boot.v
KernelMain.v
KernelMainSpec.v
MainDemo.v
