(* ===== verification/Prelude.v ===== *)
(** * Verification of the Tori kernel

    Tori is a small x86-64 kernel written in C++.  It manages physical pages,
    virtual memory and a kernel heap, schedules tasks, keeps a process tree
    with copy-on-write address spaces, offers a virtual filesystem with an
    in-memory one behind it, reads FAT volumes and overlays, reads lines from a
    keyboard, loads and runs user programs through system calls, and logs to a
    serial port and a framebuffer, with stack traces of its own.

    This library models those parts as executable definitions and proves what
    each promises.  Paths below are relative to [src/kernel/src] unless they
    say otherwise.

    ** How the code is represented

    - A [w]-bit integer is a [Z]; arithmetic the code does at width [w] is
      wrapped ([wrap], [+64], [-64] ...).
    - Memory that a component owns is an array ([arr]) from addresses to
      values: words for page tables and free-list links, bytes for the heap
      and for files.  The null pointer is 0.
    - The globals of a source file are a record; an operation takes and
      returns it.  Locks that an operation takes and releases on every path
      are not part of the state: the operation is one critical section.
    - [option] stands for a kernel panic, for following a pointer to nothing
      or for a loop that has used up its fuel; each file says which.
      Theorems about loops show that the fuel is enough.
    - What a component promises to its clients is a class ([PageAlloc],
      [PageRefs], [KernelAlloc], [KMem], [VnodeFs],
      [BlockDev], [LayerLaws]); clients are verified
      against the class and the implementation is an instance.

    ** Files, sources and results

    - [Prelude]: machine integers, arrays, bounded loops, tactics and hints.
    - [MemoryMap]: [memory/memory_map.cpp], [boot_info.hpp].
    - [Pmm]: the page allocator [memory/pmm.cpp].  [init] makes exactly the
      usable pages of the boot map free; [alloc_pages] finds a free run
      whenever there is one; counters and bitmap never drift apart.
    - [PageAlloc]: the allocator's interface and [memory/address.cpp].
    - [Slice], [KAlloc]: [memory/slice_allocator.cpp] and its interface.
    - [Bytes], [Heap]: the boundary-tag heap [memory/heap.cpp] on raw bytes:
      allocation (of even sizes) gives an aligned block disjoint from all live
      ones or fails for a reason, freeing merges with exactly the free
      neighbours; both end within the stated fuel.
    - [Allocator], [KMem]: [memory/allocator.cpp] and its interface.
    - [DList], [IList]: the null-terminated and the circular intrusive lists
      ([container/intrusive_list.hpp]), each refining a sequence.
    - [Task]: tasks and the scheduler [kernel/task.cpp] (queue invariant,
      round robin, blocking and waking), with the per-CPU entry stack of
      [arch/x86_64/gdt.cpp].
    - [Timer]: the timer wheel [kernel/timer.cpp] and [kernel/time.cpp].
    - [Vmm], [AddressSpace]: four-level page tables [memory/vmm.cpp]:
      mapping and unmapping change the translation of one page only, page
      tables stay a tree of allocated frames, the ones that became empty leave
      it; copy-on-write faults.
    - [VfsBase], [Ramfs], [Vfs]: [fs/vfs.cpp], [fs/ramfs.cpp], [string.hpp]:
      directories bind names, writes are read back, paths are resolved
      component by component, descriptors are isolated.
    - [Keyboard]: [arch/x86_64/ps2.cpp], [terminal/terminal.cpp]: the ring is
      a bounded queue, line editing is the function of the keys it should be.
    - [ProcTable], [ProcTree], [Process]: [process/process.cpp]: identifiers,
      the list of all processes and the tree of children, creation, reaping,
      threads.
    - [Elf]: [process/elf.cpp]: a loaded program is in memory byte by byte.
    - [Syscall]: the system calls [process/syscall.cpp] over all of the above,
      with the page-fault path of [arch/x86_64/idt.cpp].  [SysTree]: every
      call keeps the process table and tree well formed.  [SysSpec]: what
      wait, exit, brk and fork do on every path.
      Both hold for every allocator with the laws [KernelAlloc], [KMem] and
      [SharedPages] and every filesystem whose lookups keep the objects of the
      kernel ([LookupMemory]); the slice allocator and the memory filesystem,
      FAT and the overlay have them.  A process descriptor is larger than the
      largest slice, and the heap behind [kalloc] is sound for even sizes only,
      so runs that create processes use [Pool], a second allocator.
    - [Pool], [Scenario]: that allocator, and concrete worlds at which the
      theorems about system calls are applied.
    - [Sync]: [sync/*.hpp]: locks, reader-writer lock, semaphore, sequence
      lock under every interleaving of their atomic instructions; waiting with
      a deadline; lock guards.
    - [Block], [Fat], [FatSpec], [FatDir], [FatFs]: [block/memblock.cpp] and
      [fs/fat.cpp]: the boot sector, the allocation table, files as chains of
      clusters and directories as sequences of entries.  [FatDemo]: a volume
      on which the theorems are applied.
    - [Overlay], [OverlaySpec], [OverlayDemo]: [fs/overlayfs.cpp]: a merged
      directory shows and lists the union of its layers less the whiteouts.
      [OverlayRoot]: lookups of FAT and the overlay keep the objects of the
      kernel; a program is started from an overlay.

    - [Text]: characters, C strings and numerals.
    - [Demangle], [DemangleParse], [DemangleSpec]: the symbol demangler
      [arch/x86_64/demangle.cpp]: it ends on every input, never writes outside
      its buffer, and prints back names whose encoding in the C++ ABI has no
      back reference; back references it gets wrong.
    - [Stacktrace], [StackSpec]: the unwinder and symbol table
      [arch/x86_64/stacktrace.cpp]: LEB128 numbers, call-frame programs, the
      search for a symbol, the frames of a stack.
    - [Log], [LogSpec]: [log/log.cpp]: rings of entries per processor; nothing
      is lost, repeated or reordered, and a panic prints what is pending.
      [Console], [ConsoleSpec]: [log/framebuffer_console.cpp].
    - [RuntimeMem]: [runtime/memory.cpp].
    - [Acpi], [AcpiSpec]: [platform/uefi_pc/acpi.cpp], [madt.cpp]: checksums,
      the search for a table, the records of the interrupt table.
    - [Gdt]: descriptors, task state segments and per-CPU blocks as bytes
      ([arch/x86_64/gdt.cpp]), with what the processor reads back.
    - [Devices]: serial port, interval timer, local APIC and legacy interrupt
      controller ([serial.cpp], [lapic.cpp], part of [idt.cpp]) over a board
      that answers anything its history allows.
    - [Idt], [IdtSpec], [IdtDemo]: gates, the handler of every interrupt and the
      path around it ([idt.cpp], [interrupts_asm.S]): a timer interrupt is one
      tick of the scheduler, device interrupts are acknowledged once, an
      exception resolves a copy-on-write fault or is reported.
    - [Boot]: the boot adapter [boot/limine/entry.cpp].
    - [KernelMain], [KernelMainSpec], [MainDemo]: the start-up code of
      [kernel/main.cpp]: memory map, processors, root filesystem.

    ** Bounds and fuel

    Sizes are the source's constants (1 Mi managed pages, 32768 process
    identifiers, 256 descriptors ...).  Walks over linked lists take as fuel
    a bound on the length that the invariant gives; the heap's loops take
    fuel from the caller and the theorems state how much is enough.  The
    demangler recurses at most four times per character, a LEB128 number has
    at most ten bytes, a call-frame program at most as many steps as bytes, an
    interrupt table at most as many records as bytes, a ring fewer entries
    than its capacity, a calibration at most one poll per tick; a file is
    copied in one chunk more than its pages.  Loops that wait for a device
    take the number of polls as a parameter, and the theorems about them say
    what the device has to do within it.

    ** Not modelled

    Assembly (saving registers, context switch, entry to user mode), the
    instructions behind ports and model-specific registers, the order of the
    initialisers in [kernel_main] and its log lines, the C library and the user
    programs, which are C code above the system-call interface.  Memory
    orderings weaker than sequential consistency are not modelled.  Outside
    [Sync] theorems speak about one operation at a time; interleavings are
    covered where an operation's critical section is left, as in the
    scheduler. *)

From stdpp Require Export base numbers gmap list strings.
From Stdlib Require Export ZArith Lia.

#[export] Set Default Goal Selector "!".
Global Open Scope Z_scope.

(** * Machine integers

    A [w]-bit unsigned integer is a [Z]; arithmetic that the C++ code does at
    width [w] is followed by [wrap w]. *)

Definition wrap (w x : Z) : Z := x mod 2 ^ w.

Declare Scope word_scope.
Delimit Scope word_scope with word.
Notation "a '+64' b" := (wrap 64 (a + b)) (at level 50, left associativity) : word_scope.
Notation "a '-64' b" := (wrap 64 (a - b)) (at level 50, left associativity) : word_scope.
Notation "a '*64' b" := (wrap 64 (a * b)) (at level 40, left associativity) : word_scope.
Notation "a '+32' b" := (wrap 32 (a + b)) (at level 50, left associativity) : word_scope.
Notation "a '-32' b" := (wrap 32 (a - b)) (at level 50, left associativity) : word_scope.
Notation "a '*32' b" := (wrap 32 (a * b)) (at level 40, left associativity) : word_scope.
Global Open Scope word_scope.

(** The bitwise complement of a 64-bit word. *)
Definition lnot64 (x : Z) : Z := wrap 64 (Z.lnot x).

(** [1ull << n] *)
Definition bit64 (n : Z) : Z := wrap 64 (Z.shiftl 1 n).

Definition UINT64_MAX : Z := 2 ^ 64 - 1.
Definition UINT16_MAX : Z := 2 ^ 16 - 1.

Lemma wrap_range w x : 0 <= w -> 0 <= wrap w x < 2 ^ w.
Proof. intros. unfold wrap. apply Z.mod_pos_bound. lia. Qed.

Lemma wrap_small w x : 0 <= x < 2 ^ w -> wrap w x = x.
Proof. apply Z.mod_small. Qed.

Lemma wrap64_range x : 0 <= wrap 64 x < 2 ^ 64.
Proof. by apply wrap_range. Qed.

(** Destructs the boolean integer comparisons of hypotheses and goal and turns
    them into propositions for [lia]. *)
Ltac bool_to_prop :=
  repeat match goal with
  | H : _ && _ = true |- _ => apply andb_true_iff in H; destruct H
  | H : _ || _ = false |- _ => apply orb_false_iff in H; destruct H
  | H : negb _ = true |- _ => apply negb_true_iff in H
  | H : negb _ = false |- _ => apply negb_false_iff in H
  | H : (_ =? _) = true |- _ => apply Z.eqb_eq in H
  | H : (_ =? _) = false |- _ => apply Z.eqb_neq in H
  | H : (_ <? _) = true |- _ => apply Z.ltb_lt in H
  | H : (_ <? _) = false |- _ => apply Z.ltb_ge in H
  | H : (_ <=? _) = true |- _ => apply Z.leb_le in H
  | H : (_ <=? _) = false |- _ => apply Z.leb_gt in H
  | H : (_ >=? _) = true |- _ => rewrite Z.geb_leb in H
  | H : (_ >=? _) = false |- _ => rewrite Z.geb_leb in H
  | H : (_ >? _) = true |- _ => rewrite Z.gtb_ltb in H
  | H : (_ >? _) = false |- _ => rewrite Z.gtb_ltb in H
  end.

(** [lia] on goals with constant divisors. *)
Ltac zlia := Z.to_euclidean_division_equations; lia.

(** Case analysis on the first boolean test of the goal. *)
Ltac case_bool :=
  match goal with
  | |- context [if ?b then _ else _] =>
      let E := fresh "Hb" in destruct b eqn:E; bool_to_prop
  end.

Ltac case_bool_in H :=
  match type of H with
  | context [if ?b then _ else _] =>
      let E := fresh "Hb" in destruct b eqn:E; bool_to_prop
  end.

(** * Bits *)

Lemma testbit_bit64 n i :
  0 <= n < 64 -> 0 <= i -> Z.testbit (bit64 n) i = (n =? i).
Proof.
  intros Hn Hi. unfold bit64.
  rewrite Z.shiftl_1_l, wrap_small by
    (split; [lia | apply Z.pow_lt_mono_r; lia]).
  apply Z.pow2_bits_eqb. lia.
Qed.

Lemma testbit_high x i : 0 <= x < 2 ^ 64 -> 64 <= i -> Z.testbit x i = false.
Proof.
  intros Hx Hi. rewrite <- (Z.mod_small x (2 ^ 64)) by done.
  by apply Z.mod_pow2_bits_high.
Qed.

(** [(word & (1ull << n)) != 0] is the [n]-th bit. *)
Lemma land_bit64_nonzero x n :
  0 <= n < 64 -> negb (Z.land x (bit64 n) =? 0) = Z.testbit x n.
Proof.
  intros Hn. destruct (Z.testbit x n) eqn:Hx.
  - apply negb_true_iff, Z.eqb_neq. intros E.
    assert (Z.testbit (Z.land x (bit64 n)) n = false) as H
      by (rewrite E; apply Z.bits_0).
    rewrite Z.land_spec, Hx, testbit_bit64, Z.eqb_refl in H by lia. done.
  - apply negb_false_iff, Z.eqb_eq, Z.bits_inj'. intros i Hi.
    rewrite Z.land_spec, testbit_bit64, Z.bits_0 by lia.
    destruct (n =? i) eqn:E; bool_to_prop; subst; by rewrite ?Hx, ?andb_false_r.
Qed.

Lemma testbit_set x n i :
  0 <= n < 64 -> 0 <= i ->
  Z.testbit (Z.lor x (bit64 n)) i = (n =? i) || Z.testbit x i.
Proof. intros. rewrite Z.lor_spec, testbit_bit64 by lia. apply orb_comm. Qed.

Lemma testbit_clear x n i :
  0 <= n < 64 -> 0 <= i < 64 ->
  Z.testbit (Z.land x (lnot64 (bit64 n))) i = negb (n =? i) && Z.testbit x i.
Proof.
  intros. unfold lnot64, wrap.
  rewrite Z.land_spec, Z.mod_pow2_bits_low, Z.lnot_spec, testbit_bit64 by lia.
  apply andb_comm.
Qed.

Lemma range64_bits x :
  0 <= x -> (forall i, 64 <= i -> Z.testbit x i = false) -> x < 2 ^ 64.
Proof.
  intros Hx H. destruct (Z.eq_dec x 0) as [->|Hne]; [done|].
  apply Z.log2_lt_pow2; [lia|].
  destruct (Z.lt_ge_cases (Z.log2 x) 64) as [|Hge]; [done|].
  pose proof (Z.bit_log2 x ltac:(lia)) as Hb. by rewrite H in Hb.
Qed.

Lemma lor_range64 x y :
  0 <= x < 2 ^ 64 -> 0 <= y < 2 ^ 64 -> 0 <= Z.lor x y < 2 ^ 64.
Proof.
  intros Hx Hy. assert (0 <= Z.lor x y) by (apply Z.lor_nonneg; lia).
  split; [done|]. apply range64_bits; [done|]. intros i Hi.
  by rewrite Z.lor_spec, !testbit_high.
Qed.

Lemma land_range64 x y : 0 <= x < 2 ^ 64 -> 0 <= Z.land x y < 2 ^ 64.
Proof.
  intros Hx. assert (0 <= Z.land x y) by (apply Z.land_nonneg; lia).
  split; [done|]. apply range64_bits; [done|]. intros i Hi.
  by rewrite Z.land_spec, (testbit_high x).
Qed.

Lemma bit64_range n : 0 <= bit64 n < 2 ^ 64.
Proof. apply wrap64_range. Qed.

(** Masking off the low [k] bits rounds down to a multiple of [2^k]. *)
Lemma land_mask_down x k :
  0 <= x < 2 ^ 64 -> 0 <= k <= 64 ->
  Z.land x (lnot64 (2 ^ k - 1)) = x / 2 ^ k * 2 ^ k.
Proof.
  intros Hx Hk. apply Z.bits_inj'. intros i Hi.
  rewrite Z.land_spec, Z.mul_pow2_bits by lia.
  destruct (Z.lt_ge_cases i k) as [Hik|Hik].
  - unfold lnot64, wrap.
    rewrite (Z.testbit_neg_r _ (i - k)), Z.mod_pow2_bits_low, Z.lnot_spec by lia.
    replace (2 ^ k - 1) with (Z.ones k) by (rewrite Z.ones_equiv; lia).
    rewrite Z.ones_spec_low by lia. apply andb_false_r.
  - rewrite Z.div_pow2_bits by lia. replace (i - k + k) with i by lia.
    destruct (Z.lt_ge_cases i 64) as [H64|H64].
    + unfold lnot64, wrap. rewrite Z.mod_pow2_bits_low, Z.lnot_spec by lia.
      replace (2 ^ k - 1) with (Z.ones k) by (rewrite Z.ones_equiv; lia).
      rewrite Z.ones_spec_high by lia. apply andb_true_r.
    + by rewrite testbit_high.
Qed.

(** * Arrays

    A C array: a default value (what the elements hold that were never
    assigned one by one) and the assigned elements. *)

Record arr (A : Type) := Arr { dflt : A; over : gmap Z A }.
Arguments Arr {A} _ _.
Arguments dflt {A} _.
Arguments over {A} _.

Definition aget {A} (a : arr A) (i : Z) : A := default (dflt a) (over a !! i).
Definition aset {A} (a : arr A) (i : Z) (v : A) : arr A := Arr (dflt a) (<[i := v]> (over a)).
(** A loop that assigns [v] to every element. *)
Definition afill {A} (v : A) : arr A := Arr v ∅.

Lemma aget_aset {A} (a : arr A) i j v :
  aget (aset a i v) j = if decide (i = j) then v else aget a j.
Proof. unfold aget, aset; cbn. rewrite lookup_insert. by case_decide. Qed.

Lemma aget_aset_eq {A} (a : arr A) i v : aget (aset a i v) i = v.
Proof. rewrite aget_aset. by case_decide. Qed.

Lemma aget_aset_ne {A} (a : arr A) i j v : i <> j -> aget (aset a i v) j = aget a j.
Proof. intros. rewrite aget_aset. by case_decide. Qed.

Lemma aset_aset {A} (a : arr A) i v w : aset (aset a i v) i w = aset a i w.
Proof. unfold aset; cbn. by rewrite insert_insert_eq. Qed.

Lemma aget_afill {A} (v : A) i : aget (afill v) i = v.
Proof. unfold aget, afill; cbn. by rewrite lookup_empty. Qed.

(** Goals on reads after writes of arrays. *)
Ltac aget_solve :=
  repeat (rewrite aget_aset; case_decide); subst; try done; naive_solver.

Create HintDb tori discriminated.
Create Rewrite HintDb tori.
#[export] Hint Rewrite @aget_aset_eq @aget_afill : tori.
#[export] Hint Resolve wrap64_range bit64_range : tori.

(** * Loops *)

(** [for (i = i0; n times; ++i) s = body(i, s)] *)
Fixpoint for_loop {S : Type} (n : nat) (i : Z) (body : Z -> S -> S) (s : S) : S :=
  match n with
  | O => s
  | Datatypes.S n => for_loop n (i + 1) body (body i s)
  end.

(** [for (i = lo; i < hi; ++i) s = body(i, s)] *)
Definition for_z {S : Type} (lo hi : Z) (body : Z -> S -> S) (s : S) : S :=
  for_loop (Z.to_nat (hi - lo)) lo body s.

Lemma for_loop_inv {S} (P : Z -> S -> Prop) body n : forall i (s : S),
  P i s ->
  (forall j t, i <= j < i + Z.of_nat n -> P j t -> P (j + 1) (body j t)) ->
  P (i + Z.of_nat n) (for_loop n i body s).
Proof.
  induction n as [|n IH]; intros i s H0 Hstep; cbn [for_loop].
  - by rewrite Z.add_0_r.
  - replace (i + Z.of_nat (Datatypes.S n)) with (i + 1 + Z.of_nat n) by lia.
    apply IH; [apply Hstep; [lia|done]|]. intros j t Hj. apply Hstep. lia.
Qed.

(** The invariant rule of a counting loop. *)
Lemma for_z_inv {S} (P : Z -> S -> Prop) lo hi body (s : S) :
  lo <= hi -> P lo s ->
  (forall i t, lo <= i < hi -> P i t -> P (i + 1) (body i t)) ->
  P hi (for_z lo hi body s).
Proof.
  intros Hle H0 Hstep. unfold for_z.
  replace hi with (lo + Z.of_nat (Z.to_nat (hi - lo))) at 1 by lia.
  apply for_loop_inv; [done|]. intros j t Hj. apply Hstep. lia.
Qed.

(** A loop whose bounds are crossed does nothing. *)
Lemma for_z_empty {S} lo hi body (s : S) : hi <= lo -> for_z lo hi body s = s.
Proof. intros. unfold for_z. by replace (Z.to_nat (hi - lo)) with O by lia. Qed.

(** A property that every iteration preserves. *)
Lemma for_z_pres {S} (P : S -> Prop) lo hi body (s : S) :
  P s -> (forall i t, lo <= i < hi -> P t -> P (body i t)) -> P (for_z lo hi body s).
Proof.
  intros H0 Hstep. destruct (Z.le_gt_cases lo hi).
  - by apply (for_z_inv (fun _ => P)).
  - by rewrite for_z_empty by lia.
Qed.

(** [for (i = i0; n times; ++i) if (p(i)) return i;] *)
Fixpoint first_z (n : nat) (i : Z) (p : Z -> bool) : option Z :=
  match n with
  | O => None
  | S n => if p i then Some i else first_z n (i + 1) p
  end.

Lemma first_z_Some n i p k :
  first_z n i p = Some k ->
  i <= k < i + Z.of_nat n /\ p k = true /\ (forall j, i <= j < k -> p j = false).
Proof.
  revert i. induction n as [|n IH]; intros i H; cbn in H; [done|].
  destruct (p i) eqn:Hp.
  - injection H as <-. split; [lia|]. split; [done|]. intros; lia.
  - apply IH in H as (Hk & Hpk & Hlt). split; [lia|]. split; [done|].
    intros j Hj. destruct (Z.eq_dec j i) as [->|]; [done|]. apply Hlt. lia.
Qed.

Lemma first_z_None n i p :
  first_z n i p = None -> forall j, i <= j < i + Z.of_nat n -> p j = false.
Proof.
  revert i. induction n as [|n IH]; intros i H j Hj; [lia|]. cbn in H.
  destruct (p i) eqn:Hp; [done|].
  destruct (Z.eq_dec j i) as [->|]; [done|]. apply (IH (i + 1)); [done|lia].
Qed.

(** [for (i = i0; n times; ++i) if (!p(i)) return false; return true;] *)
Fixpoint all_z (n : nat) (i : Z) (p : Z -> bool) : bool :=
  match n with
  | O => true
  | S n => if p i then all_z n (i + 1) p else false
  end.

Lemma all_z_spec n i p :
  all_z n i p = true <-> (forall j, i <= j < i + Z.of_nat n -> p j = true).
Proof.
  revert i. induction n as [|n IH]; intros i; cbn.
  - split; [intros; lia|done].
  - destruct (p i) eqn:Hp.
    + rewrite IH. split; intros H j Hj; [|apply H; lia].
      destruct (Z.eq_dec j i) as [->|]; [done|]. apply H. lia.
    + split; [done|]. intros H. rewrite <- Hp. apply H. lia.
Qed.

(** How many indices of [i .. i+n) satisfy [p]. *)
Fixpoint count_z (n : nat) (i : Z) (p : Z -> bool) : Z :=
  match n with
  | O => 0
  | S n => (if p i then 1 else 0) + count_z n (i + 1) p
  end.

Lemma count_z_ext n i p q :
  (forall j, i <= j < i + Z.of_nat n -> p j = q j) -> count_z n i p = count_z n i q.
Proof.
  revert i. induction n as [|n IH]; intros i H; cbn; [done|].
  rewrite (H i) by lia. f_equal. apply IH. intros. apply H. lia.
Qed.

Lemma count_z_bounds n i p : 0 <= count_z n i p <= Z.of_nat n.
Proof.
  revert i. induction n as [|n IH]; intros i; cbn; [lia|].
  specialize (IH (i + 1)). destruct (p i); lia.
Qed.

(** Changing the predicate at one index changes the count by one. *)
Lemma count_z_flip n i p q k :
  i <= k < i + Z.of_nat n -> p k = false -> q k = true ->
  (forall j, j <> k -> p j = q j) ->
  count_z n i q = count_z n i p + 1.
Proof.
  revert i. induction n as [|n IH]; intros i Hk Hpk Hqk Hext; [lia|]. cbn.
  destruct (Z.eq_dec i k) as [->|Hne].
  - rewrite Hpk, Hqk, (count_z_ext n (k + 1) q p); [lia|].
    intros j Hj. symmetry. apply Hext. lia.
  - rewrite (Hext i Hne), (IH (i + 1)) by (done || lia). lia.
Qed.

Lemma count_z_true n i : count_z n i (fun _ => true) = Z.of_nat n.
Proof. revert i. induction n; intros; cbn [count_z]; [done|]. rewrite IHn. lia. Qed.

(** * Lists *)

(** Reading a list after an update at an existing index. *)
Lemma list_insert_cases {A} (l : list A) i j x y :
  is_Some (l !! i) -> <[i := x]> l !! j = Some y ->
  (j = i /\ y = x) \/ (j <> i /\ l !! j = Some y).
Proof.
  intros Hi%lookup_lt_is_Some Hj. destruct (decide (j = i)) as [->|Hne].
  - rewrite list_lookup_insert_eq in Hj by done. left. split; congruence.
  - rewrite list_lookup_insert_ne in Hj by congruence. by right.
Qed.

Lemma filter_none {A} (P : A -> Prop) `{forall x, Decision (P x)} (l : list A) :
  (forall x, x ∈ l -> ~ P x) -> filter P l = [].
Proof.
  induction l as [|x l IH]; intros Hl; [done|]. rewrite filter_cons_False by (apply Hl; set_solver).
  apply IH. intros y Hy. apply Hl. set_solver.
Qed.
