(* ===== verification/MemoryMap.v ===== *)
(** The boot memory map: [boot_info.hpp] and [memory_map.cpp].

    The data the boot adapter hands to the kernel, the accessor
    [memory_region_at] through which every consumer reads the map, and the
    byte summary that the kernel logs at boot. *)

From S2P Require Import Prelude.

(** enum class MemoryKind *)
Inductive MemoryKind :=
| Usable | Reserved | AcpiReclaimable | AcpiNvs | BadMemory
| BootloaderReclaimable | KernelAndModules | Framebuffer | ReservedMapped | Unknown.

#[export] Instance MemoryKind_eq_dec : EqDecision MemoryKind.
Proof. solve_decision. Defined.

Record MemoryRegion := Region { region_base : Z; region_length : Z; region_kind : MemoryKind }.

(** [regions] is the kernel-owned array when it is not null;
    [source_region_at] the boot adapter's accessor with its context. *)
Record MemoryMap := {
  regions : option (list MemoryRegion);
  region_count : Z;
  source_region_at : option (Z -> MemoryRegion);
}.

(** The zero-initialised region that [return {}] yields: kind 0 is [Usable]. *)
Definition zero_region : MemoryRegion := Region 0 0 Usable.

Definition memory_region_at (m : MemoryMap) (index : Z) : MemoryRegion :=
  match regions m with
  | Some rs => nth (Z.to_nat index) rs zero_region
  | None =>
      match source_region_at m with
      | Some f => f index
      | None => zero_region
      end
  end.

Record KernelAddress := { physical_base : Z; virtual_base : Z }.

(** The fields of [BootInfo] that the modelled code reads. *)
Record BootInfo := {
  kernel_address : KernelAddress;
  hhdm_offset : Z;
  memory_map : MemoryMap;
}.

Definition memory_kind_name (k : MemoryKind) : string :=
  match k with
  | Usable => "usable"
  | Reserved => "reserved"
  | AcpiReclaimable => "acpi-reclaimable"
  | AcpiNvs => "acpi-nvs"
  | BadMemory => "bad-memory"
  | BootloaderReclaimable => "bootloader-reclaimable"
  | KernelAndModules => "kernel-and-modules"
  | Framebuffer => "framebuffer"
  | ReservedMapped => "reserved-mapped"
  | Unknown => "unknown"
  end.

Definition is_initially_allocatable (k : MemoryKind) : bool :=
  bool_decide (k = Usable) || bool_decide (k = BootloaderReclaimable).

Record MemorySummary := {
  total_bytes : Z;
  usable_bytes : Z;
  reclaimable_bytes : Z;
  reserved_bytes : Z;
  framebuffer_bytes : Z;
  invalid_regions : Z;
}.

Definition zero_summary : MemorySummary := Build_MemorySummary 0 0 0 0 0 0.

(** [region.length == 0 || region.base + region.length < region.base] *)
Definition region_invalid (r : MemoryRegion) : bool :=
  (region_length r =? 0) || (region_base r +64 region_length r <? region_base r).

(** One iteration of the loop of [summarize]. *)
Definition summarize_region (r : MemoryRegion) (s : MemorySummary) : MemorySummary :=
  let '(Build_MemorySummary t u rc rs fb inv) := s in
  if region_invalid r then Build_MemorySummary t u rc rs fb (inv +64 1)
  else
    let t := t +64 region_length r in
    match region_kind r with
    | Usable => Build_MemorySummary t (u +64 region_length r) rc rs fb inv
    | BootloaderReclaimable => Build_MemorySummary t u (rc +64 region_length r) rs fb inv
    | Framebuffer => Build_MemorySummary t u rc rs (fb +64 region_length r) inv
    | _ => Build_MemorySummary t u rc (rs +64 region_length r) fb inv
    end.

Definition summarize (m : MemoryMap) : MemorySummary :=
  for_z 0 (region_count m) (fun i s => summarize_region (memory_region_at m i) s) zero_summary.

(** * What the summary means *)

(** The names are distinct, so a log line identifies its kind. *)
Lemma memory_kind_name_inj k1 k2 : memory_kind_name k1 = memory_kind_name k2 -> k1 = k2.
Proof. by destruct k1, k2. Qed.

Definition summary_sum (s : MemorySummary) : Z :=
  usable_bytes s + reclaimable_bytes s + reserved_bytes s + framebuffer_bytes s.

Lemma summarize_region_balance r s :
  wrap 64 (summary_sum s) = wrap 64 (total_bytes s) ->
  wrap 64 (summary_sum (summarize_region r s))
  = wrap 64 (total_bytes (summarize_region r s)).
Proof.
  destruct s as [t u rc rs fb inv]. unfold summary_sum. cbn. intros H.
  unfold summarize_region. destruct (region_invalid r); [done|].
  assert (wrap 64 (u + rc + rs + fb + region_length r) = wrap 64 (t + region_length r)) as Hl.
  { unfold wrap in *. rewrite Z.add_mod, H, <- Z.add_mod by lia. done. }
  assert (forall a b, wrap 64 (a + wrap 64 b) = wrap 64 (a + b)) as Hw.
  { intros. unfold wrap. by rewrite Z.add_mod_idemp_r by lia. }
  assert (wrap 64 (wrap 64 (t + region_length r)) = wrap 64 (t + region_length r)) as Ht
    by (unfold wrap; by rewrite Z.mod_mod by lia).
  destruct (region_kind r); cbn; rewrite Ht, <- Hl;
    match goal with
    | |- wrap 64 (wrap 64 ?b + ?x + ?y + ?z) = _ =>
        replace (wrap 64 b + x + y + z) with (x + y + z + wrap 64 b) by lia
    | |- wrap 64 (?x + wrap 64 ?b + ?y + ?z) = _ =>
        replace (x + wrap 64 b + y + z) with (x + y + z + wrap 64 b) by lia
    | |- wrap 64 (?x + ?y + wrap 64 ?b + ?z) = _ =>
        replace (x + y + wrap 64 b + z) with (x + y + z + wrap 64 b) by lia
    | |- _ => idtac
    end; rewrite Hw; f_equal; lia.
Qed.

(** The four byte classes of the boot memory summary partition the total:
    whatever the map, the usable, reclaimable, reserved and framebuffer bytes
    that [summarize] reports add up to its total, modulo the 64-bit width of
    the counters. *)
Theorem summarize_partitions (m : MemoryMap) :
  wrap 64 (summary_sum (summarize m)) = wrap 64 (total_bytes (summarize m)).
Proof.
  unfold summarize. apply (for_z_pres (fun s => wrap 64 (summary_sum s) = wrap 64 (total_bytes s)));
    [done|]. intros. by apply summarize_region_balance.
Qed.
