(* ===== verification/Pmm.v ===== *)
(** The physical page allocator: [pmm.cpp] and [pmm.hpp].

    The allocator's globals are the record [pmm]: the bitmap (one bit per
    4 KiB page, packed in 64-bit words), the reference counts, the statistics
    and the search hint.  The spinlock that serialises the operations is not
    part of the state: each operation is one critical section. *)

From S2P Require Import Prelude MemoryMap.

Definition page_size : Z := 4096.
Definition invalid_physical_address : Z := UINT64_MAX.
Definition max_managed_pages : Z := 1024 * 1024.
Definition bitmap_words : Z := max_managed_pages / 64.

Record Stats := {
  managed_pages : Z;
  free_pages_count : Z;
  used_pages : Z;
  reclaimed_bootloader_pages : Z;
  skipped_pages : Z;
}.

Record pmm := {
  page_bitmap : arr Z;
  page_refcounts : arr Z;
  allocator_stats : Stats;
  next_search_page : Z;
}.

(** The zero-initialised globals at load time. *)
Definition pmm_zero : pmm := {|
  page_bitmap := afill 0;
  page_refcounts := afill 0;
  allocator_stats := Build_Stats 0 0 0 0 0;
  next_search_page := 0;
|}.

Definition align_up (value alignment : Z) : Z :=
  Z.land (value +64 alignment -64 1) (lnot64 (alignment -64 1)).

Definition align_down (value alignment : Z) : Z :=
  Z.land value (lnot64 (alignment -64 1)).

Definition page_index_valid (page_index : Z) : bool := page_index <? max_managed_pages.

Definition is_page_used (s : pmm) (page_index : Z) : bool :=
  negb (Z.land (aget (page_bitmap s) (page_index / 64)) (bit64 (page_index mod 64)) =? 0).

Definition page_range_free (s : pmm) (start_page page_count : Z) : bool :=
  if (page_count =? 0) || (max_managed_pages <=? start_page)
     || (start_page +64 page_count <? start_page) then false
  else if max_managed_pages <? start_page +64 page_count then false
  else all_z (Z.to_nat ((start_page +64 page_count) - start_page)) start_page
         (fun page => negb (is_page_used s page)).

Definition stats_use (st : Stats) : Stats :=
  {| managed_pages := managed_pages st;
     free_pages_count := free_pages_count st -64 1;
     used_pages := used_pages st +64 1;
     reclaimed_bootloader_pages := reclaimed_bootloader_pages st;
     skipped_pages := skipped_pages st |}.

Definition stats_release (st : Stats) : Stats :=
  {| managed_pages := managed_pages st;
     free_pages_count := free_pages_count st +64 1;
     used_pages := used_pages st -64 1;
     reclaimed_bootloader_pages := reclaimed_bootloader_pages st;
     skipped_pages := skipped_pages st |}.

Definition stats_reclaim (st : Stats) : Stats :=
  {| managed_pages := managed_pages st;
     free_pages_count := free_pages_count st;
     used_pages := used_pages st;
     reclaimed_bootloader_pages := reclaimed_bootloader_pages st +64 1;
     skipped_pages := skipped_pages st |}.

Definition stats_skip (n : Z) (st : Stats) : Stats :=
  {| managed_pages := managed_pages st;
     free_pages_count := free_pages_count st;
     used_pages := used_pages st;
     reclaimed_bootloader_pages := reclaimed_bootloader_pages st;
     skipped_pages := skipped_pages st +64 n |}.

Definition with_stats (f : Stats -> Stats) (s : pmm) : pmm :=
  {| page_bitmap := page_bitmap s;
     page_refcounts := page_refcounts s;
     allocator_stats := f (allocator_stats s);
     next_search_page := next_search_page s |}.

Definition with_next (page : Z) (s : pmm) : pmm :=
  {| page_bitmap := page_bitmap s;
     page_refcounts := page_refcounts s;
     allocator_stats := allocator_stats s;
     next_search_page := page |}.

Definition with_refcount (page count : Z) (s : pmm) : pmm :=
  {| page_bitmap := page_bitmap s;
     page_refcounts := aset (page_refcounts s) page count;
     allocator_stats := allocator_stats s;
     next_search_page := next_search_page s |}.

Definition mark_page_used (s : pmm) (page_index : Z) : pmm :=
  if negb (page_index_valid page_index) || is_page_used s page_index then s
  else
    let w := aget (page_bitmap s) (page_index / 64) in
    {| page_bitmap := aset (page_bitmap s) (page_index / 64)
                        (Z.lor w (bit64 (page_index mod 64)));
       page_refcounts := aset (page_refcounts s) page_index 1;
       allocator_stats := stats_use (allocator_stats s);
       next_search_page := next_search_page s |}.

Definition mark_page_free (s : pmm) (page_index : Z) : pmm :=
  if negb (page_index_valid page_index) || negb (is_page_used s page_index) then s
  else
    let w := aget (page_bitmap s) (page_index / 64) in
    {| page_bitmap := aset (page_bitmap s) (page_index / 64)
                        (Z.land w (lnot64 (bit64 (page_index mod 64))));
       page_refcounts := aset (page_refcounts s) page_index 0;
       allocator_stats := stats_release (allocator_stats s);
       next_search_page := next_search_page s |}.

(** Every word of the bitmap is set, every reference count cleared. *)
Definition reserve_all_pages : pmm := {|
  page_bitmap := afill UINT64_MAX;
  page_refcounts := afill 0;
  allocator_stats := Build_Stats max_managed_pages 0 max_managed_pages 0 0;
  next_search_page := 0;
|}.

(** The loop of [free_range]: free a page and count it when reclaimed. *)
Definition free_range_page (bootloader_reclaimable : bool) (page : Z) (s : pmm) : pmm :=
  if is_page_used s page then
    let s := mark_page_free s page in
    if bootloader_reclaimable then with_stats stats_reclaim s else s
  else s.

Definition free_range (s : pmm) (base length : Z) (bootloader_reclaimable : bool) : pmm :=
  if (length =? 0) || (base +64 length <? base) then s
  else
    let start := align_up base page_size in
    let end_ := align_down (base +64 length) page_size in
    if end_ <=? start then s
    else
      let start_page := start / page_size in
      let end_page := end_ / page_size in
      if max_managed_pages <=? start_page then
        with_stats (stats_skip (end_page -64 start_page)) s
      else
        let '(s, end_page) :=
          if max_managed_pages <? end_page
          then (with_stats (stats_skip (end_page -64 max_managed_pages)) s, max_managed_pages)
          else (s, end_page) in
        for_z start_page end_page (free_range_page bootloader_reclaimable) s.

Definition reserve_range (s : pmm) (base length : Z) : pmm :=
  if (length =? 0) || (base +64 length <? base) then s
  else
    let start := align_down base page_size in
    let end_ := align_up (base +64 length) page_size in
    let start_page := start / page_size in
    let end_page := end_ / page_size in
    if max_managed_pages <=? start_page then s
    else
      let end_page := if max_managed_pages <? end_page then max_managed_pages else end_page in
      for_z start_page end_page (fun page s => mark_page_used s page) s.

(** The linker symbols [__kernel_virtual_start] and [__kernel_virtual_end]. *)
Definition kernel_physical_size (kernel_virtual_start kernel_virtual_end : Z) : Z :=
  if kernel_virtual_start <? kernel_virtual_end
  then kernel_virtual_end -64 kernel_virtual_start else 0.

Definition init_region (region : MemoryRegion) (s : pmm) : pmm :=
  if negb (is_initially_allocatable (region_kind region)) then s
  else free_range s (region_base region) (region_length region)
         (bool_decide (region_kind region = BootloaderReclaimable)).

Definition init (kernel_virtual_start kernel_virtual_end : Z) (boot_info : BootInfo) : pmm :=
  let s := reserve_all_pages in
  let s := for_z 0 (region_count (memory_map boot_info))
             (fun index s => init_region (memory_region_at (memory_map boot_info) index) s) s in
  let s := reserve_range s 0 page_size in
  reserve_range s (physical_base (kernel_address boot_info))
    (kernel_physical_size kernel_virtual_start kernel_virtual_end).

Definition alloc_pages (s : pmm) (page_count : Z) : Z * pmm :=
  if (page_count =? 0) || (max_managed_pages <? page_count)
  then (invalid_physical_address, s)
  else
    match first_z (Z.to_nat max_managed_pages) 0
            (fun offset =>
               page_range_free s ((next_search_page s +64 offset) mod max_managed_pages)
                 page_count) with
    | Some offset =>
        let page := (next_search_page s +64 offset) mod max_managed_pages in
        let s := for_z 0 page_count (fun index s => mark_page_used s (page +64 index)) s in
        let s := with_next ((page +64 page_count) mod max_managed_pages) s in
        (page *64 page_size, s)
    | None => (invalid_physical_address, s)
    end.

Definition alloc_page (s : pmm) : Z * pmm := alloc_pages s 1.

Definition retain_page (s : pmm) (physical_address : Z) : pmm :=
  if negb (physical_address mod page_size =? 0) then s
  else
    let page := physical_address / page_size in
    if negb (page_index_valid page) || negb (is_page_used s page) then s
    else if negb (aget (page_refcounts s) page =? UINT16_MAX)
         then with_refcount page (wrap 16 (aget (page_refcounts s) page + 1)) s
         else s.

Definition page_ref_count (s : pmm) (physical_address : Z) : Z :=
  if negb (physical_address mod page_size =? 0) then 0
  else
    let page := physical_address / page_size in
    if negb (page_index_valid page) || negb (is_page_used s page) then 0
    else aget (page_refcounts s) page.

(** One iteration of the loop of [free_pages]. *)
Definition free_pages_step (index : Z) (s : pmm) : pmm :=
  if negb (is_page_used s index) then s
  else if 1 <? aget (page_refcounts s) index
       then with_refcount index (wrap 16 (aget (page_refcounts s) index - 1)) s
       else mark_page_free s index.

Definition free_pages (s : pmm) (physical_address page_count : Z) : pmm :=
  if negb (physical_address mod page_size =? 0) then s
  else if page_count =? 0 then s
  else
    let page := physical_address / page_size in
    if negb (page_index_valid page) || (page +64 page_count <? page) then s
    else
      let end_page := page +64 page_count in
      let end_page := if max_managed_pages <? end_page then max_managed_pages else end_page in
      let s := for_z page end_page free_pages_step s in
      if page <? next_search_page s then with_next page s else s.

Definition free_page (s : pmm) (physical_address : Z) : pmm := free_pages s physical_address 1.

Definition owns_page (physical_address : Z) : bool :=
  if negb (physical_address mod page_size =? 0) then false
  else page_index_valid (physical_address / page_size).

Definition stats (s : pmm) : Stats := allocator_stats s.

(** One region of [free_acpi_reclaimable]. *)
Definition free_acpi_region (region : MemoryRegion) (s : pmm) : pmm :=
  if negb (bool_decide (region_kind region = AcpiReclaimable)) then s
  else if (region_length region =? 0) || (region_base region +64 region_length region <? region_base region) then s
  else
    let start := align_up (region_base region) page_size in
    let end_ := align_down (region_base region +64 region_length region) page_size in
    if end_ <=? start then s
    else
      let start_page := start / page_size in
      let end_page := end_ / page_size in
      if max_managed_pages <=? start_page then s
      else
        let end_page := if max_managed_pages <? end_page then max_managed_pages else end_page in
        for_z start_page end_page (fun page s => mark_page_free s page) s.

(** The new state and the number of pages that the log line reports. *)
Definition free_acpi_reclaimable (s : pmm) (m : MemoryMap) : Z * pmm :=
  let before := allocator_stats s in
  let s := for_z 0 (region_count m) (fun i s => free_acpi_region (memory_region_at m i) s) s in
  (free_pages_count (allocator_stats s) -64 free_pages_count before, s).

(** * Pages as bits *)

(** Is page [p] one of the [n] pages from [start]? *)
Definition in_run (start n p : Z) : bool := (start <=? p) && (p <? start + n).

Lemma in_run_true start n p : in_run start n p = true <-> start <= p < start + n.
Proof. unfold in_run. rewrite andb_true_iff, Z.leb_le, Z.ltb_lt. done. Qed.

Lemma in_run_snoc start n p :
  0 <= n -> in_run start (n + 1) p = in_run start n p || (start + n =? p).
Proof.
  intros. apply eq_true_iff_eq. rewrite orb_true_iff, !in_run_true, Z.eqb_eq. lia.
Qed.

Section Bits.
Implicit Types (s : pmm) (p q : Z).

Lemma is_page_used_testbit s p :
  is_page_used s p = Z.testbit (aget (page_bitmap s) (p / 64)) (p mod 64).
Proof. apply land_bit64_nonzero. zlia. Qed.

Lemma mark_page_used_used s p q :
  is_page_used (mark_page_used s p) q
  = is_page_used s q || (page_index_valid p && (p =? q)).
Proof.
  unfold mark_page_used.
  destruct (page_index_valid p); cbn [negb orb andb]; [|by rewrite orb_false_r].
  destruct (is_page_used s p) eqn:Hu.
  - destruct (p =? q) eqn:E; bool_to_prop; subst; by rewrite ?Hu, ?orb_false_r.
  - rewrite !is_page_used_testbit. cbn [page_bitmap].
    rewrite aget_aset. case_decide as Hd.
    + rewrite <- Hd, testbit_set, orb_comm by zlia. f_equal.
      destruct (p =? q) eqn:E; bool_to_prop; [subst; apply Z.eqb_refl|].
      apply Z.eqb_neq. zlia.
    + destruct (p =? q) eqn:E; bool_to_prop; [by subst|]. by rewrite orb_false_r.
Qed.

Lemma mark_page_free_used s p q :
  is_page_used (mark_page_free s p) q
  = is_page_used s q && negb (page_index_valid p && (p =? q)).
Proof.
  unfold mark_page_free.
  destruct (page_index_valid p); cbn [negb orb andb]; [|by rewrite andb_true_r].
  destruct (is_page_used s p) eqn:Hu; cbn [negb].
  - rewrite !is_page_used_testbit. cbn [page_bitmap].
    rewrite aget_aset. case_decide as Hd.
    + rewrite <- Hd, testbit_clear, andb_comm by zlia.
      f_equal. apply (f_equal negb).
      destruct (p =? q) eqn:E; bool_to_prop; [subst; apply Z.eqb_refl|].
      apply Z.eqb_neq. zlia.
    + destruct (p =? q) eqn:E; bool_to_prop; [by subst|]. by rewrite andb_true_r.
  - destruct (p =? q) eqn:E; bool_to_prop; subst; by rewrite ?Hu, ?andb_true_r.
Qed.

Lemma mark_page_used_ref s p q :
  aget (page_refcounts (mark_page_used s p)) q
  = if page_index_valid p && negb (is_page_used s p) && (p =? q) then 1
    else aget (page_refcounts s) q.
Proof.
  unfold mark_page_used.
  destruct (page_index_valid p), (is_page_used s p); cbn [negb orb andb]; try done.
  cbn. rewrite aget_aset. case_decide; subst; [by rewrite Z.eqb_refl|].
  destruct (p =? q) eqn:E; bool_to_prop; done.
Qed.

Lemma mark_page_free_ref s p q :
  aget (page_refcounts (mark_page_free s p)) q
  = if page_index_valid p && is_page_used s p && (p =? q) then 0
    else aget (page_refcounts s) q.
Proof.
  unfold mark_page_free.
  destruct (page_index_valid p), (is_page_used s p); cbn [negb orb andb]; try done.
  cbn. rewrite aget_aset. case_decide; subst; [by rewrite Z.eqb_refl|].
  destruct (p =? q) eqn:E; bool_to_prop; done.
Qed.
End Bits.

(** * The invariant of the allocator *)

Definition count_used (s : pmm) : Z :=
  count_z (Z.to_nat max_managed_pages) 0 (is_page_used s).
Arguments count_used : simpl never.

Record pmm_wf (s : pmm) : Prop := {
  wf_words : forall i, 0 <= aget (page_bitmap s) i < 2 ^ 64;
  wf_refs : forall i, 0 <= aget (page_refcounts s) i < 2 ^ 16;
  wf_free_ref : forall p, 0 <= p < max_managed_pages ->
    is_page_used s p = false -> aget (page_refcounts s) p = 0;
  wf_next : 0 <= next_search_page s < max_managed_pages;
  wf_managed : managed_pages (allocator_stats s) = max_managed_pages;
  wf_used : used_pages (allocator_stats s) = count_used s;
  wf_free : free_pages_count (allocator_stats s) = max_managed_pages - count_used s;
}.

Lemma count_used_bounds s : 0 <= count_used s <= max_managed_pages.
Proof.
  unfold count_used. pose proof (count_z_bounds (Z.to_nat max_managed_pages) 0 (is_page_used s)).
  unfold max_managed_pages in *. lia.
Qed.

Lemma count_used_mark s p :
  0 <= p < max_managed_pages -> is_page_used s p = false ->
  count_used (mark_page_used s p) = count_used s + 1.
Proof.
  intros Hp Hu. unfold count_used.
  rewrite (count_z_ext _ _ (is_page_used (mark_page_used s p))
             (fun q => is_page_used s q || (p =? q))).
  - apply (count_z_flip _ _ _ _ p); [lia|done|by rewrite Z.eqb_refl, orb_true_r|].
    intros j Hj. apply not_eq_sym, Z.eqb_neq in Hj. by rewrite Hj, orb_false_r.
  - intros j Hj. rewrite mark_page_used_used.
    replace (page_index_valid p) with true; [done|]. symmetry. apply Z.ltb_lt. lia.
Qed.

Lemma count_used_free s p :
  0 <= p < max_managed_pages -> is_page_used s p = true ->
  count_used (mark_page_free s p) = count_used s - 1.
Proof.
  intros Hp Hu. unfold count_used.
  rewrite (count_z_ext _ _ (is_page_used (mark_page_free s p))
             (fun q => is_page_used s q && negb (p =? q))).
  - rewrite (count_z_flip _ _ (fun q => is_page_used s q && negb (p =? q)) (is_page_used s) p);
      [lia|lia|by rewrite Z.eqb_refl, andb_false_r|done|].
    intros j Hj. apply not_eq_sym, Z.eqb_neq in Hj. by rewrite Hj, andb_true_r.
  - intros j Hj. rewrite mark_page_free_used.
    replace (page_index_valid p) with true; [done|]. symmetry. apply Z.ltb_lt. lia.
Qed.

Lemma count_used_ext s t :
  (forall p, is_page_used s p = is_page_used t p) -> count_used s = count_used t.
Proof. intros H. apply count_z_ext. done. Qed.

Lemma reserve_all_pages_wf : pmm_wf reserve_all_pages.
Proof.
  assert (forall p, is_page_used reserve_all_pages p = true) as Hu.
  { intros p. rewrite is_page_used_testbit. cbn. rewrite aget_afill.
    change UINT64_MAX with (Z.ones 64). apply Z.ones_spec_low. zlia. }
  assert (count_used reserve_all_pages = max_managed_pages) as Hc.
  { unfold count_used. rewrite (count_z_ext _ _ _ (fun _ => true)) by done.
    rewrite count_z_true. apply Z2Nat.id. done. }
  split.
  - intros i. cbn [page_bitmap reserve_all_pages]. rewrite aget_afill. unfold UINT64_MAX. lia.
  - intros i. cbn [page_refcounts reserve_all_pages]. rewrite aget_afill. lia.
  - intros p _ Hp. rewrite Hu in Hp. congruence.
  - unfold max_managed_pages. cbn. lia.
  - reflexivity.
  - rewrite Hc. reflexivity.
  - rewrite Hc. cbn. lia.
Qed.

(** Keeps the kernel from unfolding a count over a million pages. *)
#[global] Opaque count_used.

Lemma mark_page_used_wf s p : 0 <= p -> pmm_wf s -> pmm_wf (mark_page_used s p).
Proof.
  intros Hp Hwf.
  destruct (negb (page_index_valid p) || is_page_used s p) eqn:E.
  { unfold mark_page_used. by rewrite E. }
  assert (p < max_managed_pages /\ is_page_used s p = false) as [Hlt Hu].
  { clear Hwf. unfold page_index_valid in E. by bool_to_prop. }
  pose proof (count_used_mark s p ltac:(lia) ltac:(done)) as Hc.
  pose proof (count_used_bounds s). pose proof (count_used_bounds (mark_page_used s p)).
  destruct Hwf. split.
  - unfold mark_page_used. rewrite E. cbn. intros i. rewrite aget_aset.
    case_decide; [|done]. by apply lor_range64; auto with tori.
  - intros i. rewrite mark_page_used_ref. case_match; [done|auto].
  - intros q Hq. rewrite mark_page_used_used, mark_page_used_ref.
    intros [Hq1 Hq2]%orb_false_iff. unfold page_index_valid in *.
    replace (p <? max_managed_pages) with true in * by (symmetry; apply Z.ltb_lt; lia).
    cbn in Hq2. rewrite Hq2, andb_false_r. auto.
  - unfold mark_page_used. by rewrite E.
  - unfold mark_page_used. by rewrite E.
  - rewrite Hc. unfold mark_page_used. rewrite E. cbn. rewrite wf_used0.
    apply wrap_small. unfold max_managed_pages in *. lia.
  - rewrite Hc. unfold mark_page_used. rewrite E. cbn. rewrite wf_free0.
    rewrite wrap_small; unfold max_managed_pages in *; lia.
Qed.

Lemma mark_page_free_wf s p : 0 <= p -> pmm_wf s -> pmm_wf (mark_page_free s p).
Proof.
  intros Hp Hwf.
  destruct (negb (page_index_valid p) || negb (is_page_used s p)) eqn:E.
  { unfold mark_page_free. by rewrite E. }
  assert (p < max_managed_pages /\ is_page_used s p = true) as [Hlt Hu].
  { clear Hwf. unfold page_index_valid in E. by bool_to_prop. }
  pose proof (count_used_free s p ltac:(lia) ltac:(done)) as Hc.
  pose proof (count_used_bounds s). pose proof (count_used_bounds (mark_page_free s p)).
  destruct Hwf. split.
  - unfold mark_page_free. rewrite E. cbn. intros i. rewrite aget_aset.
    case_decide; [|done]. by apply land_range64.
  - intros i. rewrite mark_page_free_ref. case_match; [done|auto].
  - intros q Hq. rewrite mark_page_free_used, mark_page_free_ref.
    case_match; [done|]. unfold page_index_valid in *.
    replace (p <? max_managed_pages) with true in * by (symmetry; apply Z.ltb_lt; lia).
    intros [Hq1|Hq1]%andb_false_iff; [auto|].
    apply negb_false_iff in Hq1. rewrite Hu in *. cbn in *. congruence.
  - unfold mark_page_free. by rewrite E.
  - unfold mark_page_free. by rewrite E.
  - rewrite Hc. unfold mark_page_free. rewrite E. cbn. rewrite wf_used0.
    apply wrap_small. unfold max_managed_pages in *. lia.
  - rewrite Hc. unfold mark_page_free. rewrite E. cbn. rewrite wf_free0.
    rewrite wrap_small; unfold max_managed_pages in *; lia.
Qed.

(** * Loops over runs of pages *)

Section Runs.
Implicit Types (s : pmm) (p q : Z).

(** The state [t] is [s] with the [n] pages from [start] marked used. *)
Definition run_marked (start n : Z) (s t : pmm) : Prop :=
  pmm_wf t
  /\ next_search_page t = next_search_page s
  /\ (forall q, is_page_used t q = is_page_used s q || in_run start n q)
  /\ (forall q, aget (page_refcounts t) q
                = if in_run start n q then 1 else aget (page_refcounts s) q).

Lemma mark_page_used_next s p : next_search_page (mark_page_used s p) = next_search_page s.
Proof. unfold mark_page_used. by case_match. Qed.

Lemma mark_page_free_next s p : next_search_page (mark_page_free s p) = next_search_page s.
Proof. unfold mark_page_free. by case_match. Qed.

Lemma in_run_empty start q : in_run start 0 q = false.
Proof. apply not_true_iff_false. rewrite in_run_true. lia. Qed.

Lemma valid_lt p : p < max_managed_pages -> page_index_valid p = true.
Proof. intros. by apply Z.ltb_lt. Qed.

Lemma mark_run start n s :
  pmm_wf s -> 0 <= start -> 0 <= n -> start + n <= max_managed_pages ->
  (forall q, start <= q < start + n -> is_page_used s q = false) ->
  run_marked start n s
    (for_z 0 n (fun index s => mark_page_used s (start +64 index)) s).
Proof.
  intros Hwf Hs Hn Hm Hfree.
  apply (for_z_inv (fun k t => 0 <= k <= n -> run_marked start k s t)); [lia| |..|lia].
  { intros _. split; [done|]. split; [done|]. split; intros q; rewrite in_run_empty;
      [by rewrite orb_false_r|done]. }
  intros k t Hk IH _. destruct (IH ltac:(lia)) as (Ht & Hnx & Hu & Hr).
  rewrite wrap_small by (unfold max_managed_pages in *; lia).
  assert (is_page_used t (start + k) = false) as Hfk.
  { rewrite Hu, Hfree by lia. apply not_true_iff_false. rewrite orb_false_l, in_run_true. lia. }
  split; [by apply mark_page_used_wf; [lia|]|].
  split; [by rewrite mark_page_used_next|]. split; intros q.
  - rewrite mark_page_used_used, Hu, valid_lt, in_run_snoc by lia.
    cbn [andb]. by rewrite orb_assoc.
  - rewrite mark_page_used_ref, Hr, valid_lt, Hfk, in_run_snoc by lia. cbn [andb negb].
    destruct (start + k =? q); by rewrite ?orb_true_r, ?orb_false_r.
Qed.

(** What [free_pages] does to one page: drop a reference, or release it. *)
Definition ref_after_free (used : bool) (r : Z) : Z :=
  if used then (if 1 <? r then r - 1 else 0) else r.
Definition used_after_free (used : bool) (r : Z) : bool := used && (1 <? r).

Definition run_freed (start n : Z) (s t : pmm) : Prop :=
  pmm_wf t
  /\ next_search_page t = next_search_page s
  /\ (forall q, is_page_used t q =
        if in_run start n q
        then used_after_free (is_page_used s q) (aget (page_refcounts s) q)
        else is_page_used s q)
  /\ (forall q, aget (page_refcounts t) q =
        if in_run start n q
        then ref_after_free (is_page_used s q) (aget (page_refcounts s) q)
        else aget (page_refcounts s) q).

Lemma with_refcount_wf s p r :
  0 <= r < 2 ^ 16 -> is_page_used s p = true -> pmm_wf s -> pmm_wf (with_refcount p r s).
Proof.
  intros Hr Hu Hwf. destruct Hwf.
  assert (count_used (with_refcount p r s) = count_used s) as Hc by by apply count_used_ext.
  split; rewrite ?Hc; try done.
  - cbn. intros i. rewrite aget_aset. by case_decide.
  - cbn. intros q Hq Hf. change (is_page_used s q = false) in Hf.
    rewrite aget_aset_ne by congruence. auto.
Qed.

(** One page: [free_pages_step] at [p] in terms of the state before. *)
Lemma free_pages_step_spec s p q :
  pmm_wf s -> 0 <= p < max_managed_pages ->
  let t := free_pages_step p s in
  pmm_wf t /\ next_search_page t = next_search_page s
  /\ is_page_used t q =
     (if p =? q then used_after_free (is_page_used s q) (aget (page_refcounts s) q)
      else is_page_used s q)
  /\ aget (page_refcounts t) q =
     (if p =? q then ref_after_free (is_page_used s q) (aget (page_refcounts s) q)
      else aget (page_refcounts s) q).
Proof.
  intros Hwf Hp t. subst t. unfold free_pages_step, used_after_free, ref_after_free.
  pose proof (wf_refs s Hwf p) as Hrp.
  destruct (is_page_used s p) eqn:Hu; cbn [negb].
  - destruct (1 <? aget (page_refcounts s) p) eqn:H1; bool_to_prop.
    + rewrite wrap_small by lia.
      split; [by apply with_refcount_wf; [lia|..]|]. split; [done|].
      change (is_page_used (with_refcount p (aget (page_refcounts s) p - 1) s) q)
        with (is_page_used s q).
      cbn [with_refcount page_refcounts]. rewrite aget_aset.
      destruct (p =? q) eqn:E; bool_to_prop; [subst q|by rewrite decide_False].
      rewrite Hu, decide_True by done. apply Z.ltb_lt in H1. by rewrite H1.
    + split; [by apply mark_page_free_wf; [lia|]|]. split; [apply mark_page_free_next|].
      rewrite mark_page_free_used, mark_page_free_ref, Hu, valid_lt by lia. cbn [andb].
      destruct (p =? q) eqn:E; bool_to_prop; [subst q|by rewrite andb_true_r].
      rewrite Hu. apply Z.ltb_ge in H1. by rewrite H1.
  - split; [done|]. split; [done|].
    destruct (p =? q) eqn:E; bool_to_prop; [subst q; by rewrite Hu|done].
Qed.

Lemma free_run start n s :
  pmm_wf s -> 0 <= start -> 0 <= n -> start + n <= max_managed_pages ->
  run_freed start n s (for_z start (start + n) free_pages_step s).
Proof.
  intros Hwf Hs Hn Hm.
  pose proof (for_z_inv
    (fun k t => start <= k <= start + n -> run_freed start (k - start) s t)
    start (start + n) free_pages_step s) as Hinv.
  cbn beta in Hinv. replace (start + n - start) with n in Hinv by lia. apply Hinv; [lia| |..|lia].
  { intros _. rewrite Z.sub_diag. split; [done|]. split; [done|].
    split; intros q; by rewrite in_run_empty. }
  intros k t Hk IH _. destruct (IH ltac:(lia)) as (Ht & Hnx & Hu & Hr).
  replace (k + 1 - start) with (k - start + 1) by lia.
  pose proof (fun q => free_pages_step_spec t k q Ht ltac:(lia)) as Hst.
  cbn zeta in Hst. destruct (Hst 0) as (Hw & Hnx' & _).
  split; [done|]. split; [congruence|].
  split; intros q; destruct (Hst q) as (_ & _ & Hu' & Hr');
    rewrite in_run_snoc by lia; replace (start + (k - start)) with k by lia;
    rewrite ?Hu', ?Hr', Hu, Hr by done.
  - destruct (k =? q) eqn:E; bool_to_prop; [subst q|by rewrite orb_false_r].
    replace (in_run start (k - start) k) with false; [done|].
    symmetry. apply not_true_iff_false. rewrite in_run_true. lia.
  - destruct (k =? q) eqn:E; bool_to_prop; [subst q|by rewrite orb_false_r].
    replace (in_run start (k - start) k) with false; [done|].
    symmetry. apply not_true_iff_false. rewrite in_run_true. lia.
Qed.
End Runs.

(** * Allocation *)

(** The [n] pages from [start] are managed and free. *)
Definition run_free (s : pmm) (start n : Z) : Prop :=
  0 <= start /\ start + n <= max_managed_pages
  /\ forall q, start <= q < start + n -> is_page_used s q = false.

Lemma page_range_free_spec s start n :
  0 <= start < max_managed_pages -> 0 < n <= max_managed_pages ->
  page_range_free s start n = true <-> run_free s start n.
Proof.
  intros Hs Hn. unfold page_range_free, run_free.
  rewrite !wrap_small by (unfold max_managed_pages in *; lia).
  replace ((n =? 0) || (max_managed_pages <=? start) || (start + n <? start)) with false by lia.
  destruct (max_managed_pages <? start + n) eqn:E; bool_to_prop; [split; [done|lia]|].
  rewrite all_z_spec. replace (start + n - start) with n by lia.
  split.
  - intros H. split_and!; [lia..|]. intros q Hq. apply negb_true_iff, H. lia.
  - intros (_ & _ & H) q Hq. apply negb_true_iff, H. lia.
Qed.

(** The rotating search visits every page index. *)
Lemma rotate_surj next page :
  0 <= next < max_managed_pages -> 0 <= page < max_managed_pages ->
  exists offset, 0 <= offset < max_managed_pages
    /\ (next +64 offset) mod max_managed_pages = page.
Proof.
  intros Hn Hp. exists ((page - next) mod max_managed_pages).
  pose proof (Z.mod_pos_bound (page - next) max_managed_pages ltac:(done)) as Hb.
  split; [done|]. rewrite wrap_small by (unfold max_managed_pages in *; lia).
  rewrite Z.add_mod_idemp_r by done.
  replace (next + (page - next)) with page by lia. by apply Z.mod_small.
Qed.

(** What a successful allocation of [n] pages at [r] means. *)
Definition allocated (s : pmm) (n r : Z) (t : pmm) : Prop :=
  exists page, r = page * page_size /\ run_free s page n
    /\ run_marked page n (with_next (next_search_page t) s) t.

Lemma with_next_wf s p : 0 <= p < max_managed_pages -> pmm_wf s -> pmm_wf (with_next p s).
Proof.
  intros Hp Hwf. destruct Hwf.
  assert (count_used (with_next p s) = count_used s) as Hc by by apply count_used_ext.
  split; rewrite ?Hc; done.
Qed.

Lemma run_marked_with_next p page n s t :
  0 <= p < max_managed_pages ->
  run_marked page n s t -> run_marked page n (with_next p s) (with_next p t).
Proof.
  intros Hp (Hw & Hn & Hu & Hr). split; [by apply with_next_wf|]. by split.
Qed.

Lemma mod_max_range x : 0 <= x mod max_managed_pages < max_managed_pages.
Proof. by apply Z.mod_pos_bound. Qed.

Lemma alloc_pages_cases (s : pmm) (n : Z) :
  pmm_wf s -> 0 < n <= max_managed_pages ->
  (allocated s n (alloc_pages s n).1 (alloc_pages s n).2
   /\ (alloc_pages s n).1 <> invalid_physical_address)
  \/ (alloc_pages s n = (invalid_physical_address, s)
      /\ forall start, ~ run_free s start n).
Proof.
  intros Hwf Hn. unfold alloc_pages.
  replace ((n =? 0) || (max_managed_pages <? n)) with false by lia.
  pose proof (wf_next s Hwf) as Hnext.
  destruct (first_z _ _ _) as [offset|] eqn:E.
  - left. apply first_z_Some in E as (Ho & Hfree & _). cbn [fst snd].
    set (page := (next_search_page s +64 offset) mod max_managed_pages) in *.
    pose proof (mod_max_range (next_search_page s +64 offset)) as Hpage. fold page in Hpage.
    apply page_range_free_spec in Hfree; [|done..]. pose proof Hfree as (H0 & Hm & Hall).
    rewrite (wrap_small 64 (page * page_size)) by (unfold max_managed_pages, page_size in *; lia).
    split.
    + exists page. split; [done|]. split; [done|]. cbn [next_search_page with_next].
      apply run_marked_with_next; [apply mod_max_range|]. apply mark_run; (done || lia).
    + unfold invalid_physical_address, UINT64_MAX, page_size, max_managed_pages in *. lia.
  - right. split; [done|]. intros start Hf. pose proof Hf as (H0 & Hm & _).
    destruct (rotate_surj (next_search_page s) start) as (o & Ho & Heq); [done|lia|].
    pose proof (first_z_None _ _ _ E o) as Hff. rewrite Z2Nat.id in Hff by done.
    specialize (Hff ltac:(lia)). cbn beta in Hff. rewrite Heq in Hff.
    apply not_true_iff_false in Hff. apply Hff, page_range_free_spec; (done || lia).
Qed.

(** Outside the accepted sizes nothing is allocated. *)
Lemma alloc_pages_reject s n :
  n = 0 \/ max_managed_pages < n -> alloc_pages s n = (invalid_physical_address, s).
Proof.
  intros H. unfold alloc_pages.
  by replace ((n =? 0) || (max_managed_pages <? n)) with true by lia.
Qed.

Lemma alloc_pages_wf s n : 0 <= n -> pmm_wf s -> pmm_wf (alloc_pages s n).2.
Proof.
  intros Hn Hwf.
  destruct (decide (0 < n <= max_managed_pages)) as [H|H].
  - destruct (alloc_pages_cases s n Hwf H) as [[(p & _ & _ & Hw & _) _]|[-> _]]; done.
  - by rewrite alloc_pages_reject by lia.
Qed.

(** C2. [alloc_pages] is sound and complete.  On a well-formed allocator a
    request for [1 .. max_managed_pages] pages either returns the address of a
    run of that many managed pages that were all free, marks exactly those
    used with reference count 1 and leaves every other page as it was; or no
    such run exists anywhere and the allocator is unchanged. *)
Theorem alloc_pages_spec (s : pmm) (n : Z) :
  pmm_wf s -> 0 < n <= max_managed_pages ->
  (allocated s n (alloc_pages s n).1 (alloc_pages s n).2
   /\ (alloc_pages s n).1 <> invalid_physical_address)
  \/ (alloc_pages s n = (invalid_physical_address, s)
      /\ forall start, ~ run_free s start n).
Proof. apply alloc_pages_cases. Qed.

(** * Release *)

(** Allocator states that differ only in the search hint and in how the
    arrays are represented. *)
Record pmm_equiv (s t : pmm) : Prop := {
  equiv_used : forall p, is_page_used s p = is_page_used t p;
  equiv_refs : forall p, aget (page_refcounts s) p = aget (page_refcounts t) p;
  equiv_free_count : free_pages_count (allocator_stats s) = free_pages_count (allocator_stats t);
  equiv_used_count : used_pages (allocator_stats s) = used_pages (allocator_stats t);
}.

#[export] Instance pmm_equiv_equivalence : Equivalence pmm_equiv.
Proof.
  split.
  - intros s. by split.
  - intros s t []. by split.
  - intros s t u [] []. split; congruence.
Qed.

#[export] Instance page_ref_count_proper : Proper (pmm_equiv ==> eq ==> eq) page_ref_count.
Proof.
  intros s t Hst p ? <-. unfold page_ref_count.
  by rewrite (equiv_used s t Hst), (equiv_refs s t Hst).
Qed.

#[export] Instance page_range_free_proper : Proper (pmm_equiv ==> eq ==> eq ==> eq) page_range_free.
Proof.
  intros s t Hst p ? <- n ? <-. unfold page_range_free. do 2 (case_match; [done|]).
  apply eq_true_iff_eq. rewrite !all_z_spec.
  by setoid_rewrite (equiv_used s t Hst).
Qed.

(** Well-formed states with the same used pages and counts are equivalent. *)
Lemma pmm_equiv_wf s t :
  pmm_wf s -> pmm_wf t ->
  (forall p, is_page_used s p = is_page_used t p) ->
  (forall p, aget (page_refcounts s) p = aget (page_refcounts t) p) ->
  pmm_equiv s t.
Proof.
  intros Hs Ht Hu Hr. apply count_used_ext in Hu as Hc. split; [done..| |].
  - rewrite (wf_free s Hs), (wf_free t Ht). by rewrite Hc.
  - rewrite (wf_used s Hs), (wf_used t Ht). done.
Qed.

(** The pages that a [free_pages] call covers. *)
Definition freed_count (page n : Z) : Z := Z.min n (max_managed_pages - page).

Lemma free_pages_cases s page n :
  pmm_wf s -> 0 <= page < max_managed_pages -> 0 < n -> page + n < 2 ^ 64 ->
  exists next, 0 <= next < max_managed_pages /\
    run_freed page (freed_count page n) (with_next next s) (free_pages s (page * page_size) n).
Proof.
  intros Hwf Hp Hn Hov. unfold free_pages.
  rewrite Z.mod_mul, Z.div_mul, Z.eqb_refl by done. cbn [negb].
  replace (n =? 0) with false by lia. rewrite valid_lt, wrap_small by lia. cbn [negb orb].
  replace (page + n <? page) with false by lia.
  replace (if max_managed_pages <? page + n then max_managed_pages else page + n)
    with (page + freed_count page n) by (unfold freed_count; case_bool; lia).
  assert (run_freed page (freed_count page n) s
           (for_z page (page + freed_count page n) free_pages_step s)) as Hrun
    by (apply free_run; unfold freed_count; (done || lia)).
  destruct Hrun as (Hw & Hnx & Hu & Hr). pose proof (wf_next s Hwf).
  case_match; bool_to_prop.
  - exists page. split; [done|]. split; [by apply with_next_wf|]. by split.
  - exists (next_search_page s). split; [done|]. split; [done|]. by split.
Qed.

(** [free_pages] drops exactly one reference of every used page of the run
    it names: a page with more than one reference stays used with one
    reference less, a page with at most one becomes free, and no page outside
    the run (or past the managed range) changes. *)
Theorem free_pages_spec (s : pmm) (page n q : Z) :
  pmm_wf s -> 0 <= page < max_managed_pages -> 0 < n -> page + n < 2 ^ 64 ->
  let t := free_pages s (page * page_size) n in
  let r := aget (page_refcounts s) q in
  pmm_wf t
  /\ (in_run page (freed_count page n) q = false ->
      is_page_used t q = is_page_used s q /\ aget (page_refcounts t) q = r)
  /\ (in_run page (freed_count page n) q = true -> is_page_used s q = true ->
      if 1 <? r then is_page_used t q = true /\ aget (page_refcounts t) q = r - 1
      else is_page_used t q = false /\ aget (page_refcounts t) q = 0)
  /\ (in_run page (freed_count page n) q = true -> is_page_used s q = false ->
      is_page_used t q = false).
Proof.
  intros Hwf Hp Hn Hov t r.
  destruct (free_pages_cases s page n Hwf Hp Hn Hov) as (nx & Hnx & Hw & _ & Hu & Hr).
  fold t in Hw, Hu, Hr. split; [done|]. rewrite Hu, Hr.
  change (is_page_used (with_next nx s) q) with (is_page_used s q).
  change (aget (page_refcounts (with_next nx s)) q) with r.
  unfold used_after_free, ref_after_free.
  split_and!; intros Hin; rewrite Hin; [done|..]; intros Hq; rewrite Hq; [|done].
  by destruct (1 <? r).
Qed.

(** Allocating a run and freeing it again restores the allocator: the same
    pages are used, with the same reference counts and the same statistics. *)
Theorem alloc_free_roundtrip (s : pmm) (n : Z) :
  pmm_wf s -> 0 < n <= max_managed_pages ->
  (alloc_pages s n).1 <> invalid_physical_address ->
  pmm_equiv (free_pages (alloc_pages s n).2 (alloc_pages s n).1 n) s.
Proof.
  intros Hwf Hn Hok.
  destruct (alloc_pages_cases s n Hwf Hn) as [[Hal _]|[E _]]; [|by rewrite E in Hok].
  destruct Hal as (page & -> & (H0 & Hm & Hfree) & Hw & _ & Hu & Hr).
  destruct (free_pages_cases (alloc_pages s n).2 page n Hw) as (nx & _ & Hw' & _ & Hu' & Hr');
    [lia|lia|unfold max_managed_pages in *; lia|].
  assert (freed_count page n = n) as Hfc by (unfold freed_count; lia). rewrite Hfc in *.
  apply pmm_equiv_wf; [done|done|..]; intros q; rewrite ?Hu', ?Hr'; cbn [with_next page_refcounts];
    change (is_page_used (with_next nx (alloc_pages s n).2) q)
      with (is_page_used (alloc_pages s n).2 q);
    rewrite Hu, Hr; cbn [with_next page_refcounts];
    change (is_page_used (with_next _ s) q) with (is_page_used s q).
  - destruct (in_run page n q) eqn:E; [|by rewrite orb_false_r].
    apply in_run_true in E. rewrite Hfree by done. done.
  - destruct (in_run page n q) eqn:E; [|done].
    apply in_run_true in E. rewrite orb_true_r. cbn.
    symmetry. apply (wf_free_ref s Hwf); [lia|auto].
Qed.

(** * Boot-time setup *)

Lemma page_mask : 2 ^ 12 - 1 = page_size -64 1.
Proof. reflexivity. Qed.

Lemma align_down_spec x :
  0 <= x < 2 ^ 64 -> align_down x page_size = x / page_size * page_size.
Proof. intros. unfold align_down. rewrite <- page_mask. by apply land_mask_down. Qed.

Lemma align_up_spec x :
  0 <= x -> x + page_size <= 2 ^ 64 ->
  align_up x page_size = (x + (page_size - 1)) / page_size * page_size.
Proof.
  intros. unfold align_up. rewrite <- page_mask.
  replace (x +64 page_size -64 1) with (x + (page_size - 1)).
  - apply land_mask_down; unfold page_size in *; lia.
  - unfold wrap. rewrite Zminus_mod_idemp_l. symmetry.
    rewrite Z.mod_small; unfold page_size in *; lia.
Qed.

(** The page [q] lies inside the byte range, or meets it. *)
Definition page_inside (base length q : Z) : bool :=
  (base <=? q * page_size) && ((q + 1) * page_size <=? base + length).
Definition page_touches (base length q : Z) : bool :=
  (base <? (q + 1) * page_size) && (q * page_size <? base + length).

Lemma with_stats_wf f s :
  (forall st, managed_pages (f st) = managed_pages st
              /\ free_pages_count (f st) = free_pages_count st
              /\ used_pages (f st) = used_pages st) ->
  pmm_wf s -> pmm_wf (with_stats f s).
Proof.
  intros Hf Hwf. destruct (Hf (allocator_stats s)) as (H1 & H2 & H3). destruct Hwf.
  assert (count_used (with_stats f s) = count_used s) as Hc by by apply count_used_ext.
  split; rewrite ?Hc; try done; cbn [with_stats allocator_stats]; congruence.
Qed.

Lemma free_range_page_spec b p s :
  0 <= p < max_managed_pages -> pmm_wf s ->
  pmm_wf (free_range_page b p s)
  /\ forall q, is_page_used (free_range_page b p s) q = is_page_used s q && negb (p =? q).
Proof.
  intros Hp Hwf. unfold free_range_page. destruct (is_page_used s p) eqn:Hu.
  - assert (pmm_wf (mark_page_free s p)
      /\ forall q, is_page_used (mark_page_free s p) q = is_page_used s q && negb (p =? q))
      as [Hw Hq].
    { split; [apply mark_page_free_wf; (done || lia)|]. intros q.
      rewrite mark_page_free_used, valid_lt by lia. done. }
    destruct b; [|done]. split; [by apply with_stats_wf|]. intros q. apply Hq.
  - split; [done|]. intros q. destruct (p =? q) eqn:E; bool_to_prop; subst;
      by rewrite ?Hu, ?andb_true_r.
Qed.

(** A loop that frees (with [v = false]) or marks (with [v = true]) one page
    per iteration over [lo, hi). *)
Lemma page_loop (body : Z -> pmm -> pmm) (v : bool) lo hi s :
  0 <= lo <= hi -> hi <= max_managed_pages -> pmm_wf s ->
  (forall p t, 0 <= p < max_managed_pages -> pmm_wf t ->
     pmm_wf (body p t) /\ forall q, is_page_used (body p t) q
        = if p =? q then v else is_page_used t q) ->
  pmm_wf (for_z lo hi body s)
  /\ forall q, is_page_used (for_z lo hi body s) q
     = if in_run lo (hi - lo) q then v else is_page_used s q.
Proof.
  intros Hlo Hhi Hwf Hbody.
  apply (for_z_inv (fun k t => lo <= k <= hi -> pmm_wf t /\ forall q, is_page_used t q
     = if in_run lo (k - lo) q then v else is_page_used s q)); [lia| |..|lia].
  { intros _. split; [done|]. intros q. by rewrite Z.sub_diag, in_run_empty. }
  intros k t Hk IH _. destruct (IH ltac:(lia)) as [Hw Hu].
  destruct (Hbody k t ltac:(lia) Hw) as [Hw' Hu']. split; [done|]. intros q.
  replace (k + 1 - lo) with (k - lo + 1) by lia.
  rewrite Hu', Hu, in_run_snoc by lia. replace (lo + (k - lo)) with k by lia.
  by destruct (k =? q), (in_run lo (k - lo) q).
Qed.

Lemma free_range_loop b lo hi s :
  0 <= lo <= hi -> hi <= max_managed_pages -> pmm_wf s ->
  pmm_wf (for_z lo hi (free_range_page b) s)
  /\ forall q, is_page_used (for_z lo hi (free_range_page b) s) q
     = if in_run lo (hi - lo) q then false else is_page_used s q.
Proof.
  intros Hlo Hhi Hwf. apply page_loop; [done..|]. intros p t Hp Ht.
  destruct (free_range_page_spec b p t Hp Ht) as [Hw Hu]. split; [done|].
  intros q. rewrite Hu. destruct (p =? q); by rewrite ?andb_true_r, ?andb_false_r.
Qed.

Lemma reserve_loop lo hi s :
  0 <= lo <= hi -> hi <= max_managed_pages -> pmm_wf s ->
  pmm_wf (for_z lo hi (fun p s => mark_page_used s p) s)
  /\ forall q, is_page_used (for_z lo hi (fun p s => mark_page_used s p) s) q
     = if in_run lo (hi - lo) q then true else is_page_used s q.
Proof.
  intros Hlo Hhi Hwf. apply page_loop; [done..|]. intros p t Hp Ht.
  split; [apply mark_page_used_wf; (done || lia)|]. intros q.
  rewrite mark_page_used_used, valid_lt by lia.
  destruct (p =? q); by rewrite ?orb_true_r, ?orb_false_r.
Qed.

Lemma release_loop lo hi s :
  0 <= lo <= hi -> hi <= max_managed_pages -> pmm_wf s ->
  pmm_wf (for_z lo hi (fun p s => mark_page_free s p) s)
  /\ forall q, is_page_used (for_z lo hi (fun p s => mark_page_free s p) s) q
     = if in_run lo (hi - lo) q then false else is_page_used s q.
Proof.
  intros Hlo Hhi Hwf. apply page_loop; [done..|]. intros p t Hp Ht.
  split; [apply mark_page_free_wf; (done || lia)|]. intros q.
  rewrite mark_page_free_used, valid_lt by lia.
  destruct (p =? q); by rewrite ?andb_true_r, ?andb_false_r.
Qed.

Lemma page_inside_run base length q :
  page_inside base length q
  = in_run ((base + (page_size - 1)) / page_size)
      ((base + length) / page_size - (base + (page_size - 1)) / page_size) q.
Proof.
  apply eq_true_iff_eq. rewrite in_run_true. unfold page_inside, page_size.
  rewrite andb_true_iff, !Z.leb_le. zlia.
Qed.

Lemma page_touches_run base length q :
  page_touches base length q
  = in_run (base / page_size)
      ((base + length + (page_size - 1)) / page_size - base / page_size) q.
Proof.
  apply eq_true_iff_eq. rewrite in_run_true. unfold page_touches, page_size.
  rewrite andb_true_iff, !Z.ltb_lt. zlia.
Qed.

(** Clipping a run at the end of the managed range keeps its managed pages. *)
Lemma in_run_clip lo hi q :
  q < max_managed_pages ->
  in_run lo ((if max_managed_pages <? hi then max_managed_pages else hi) - lo) q
  = in_run lo (hi - lo) q.
Proof.
  intros. apply eq_true_iff_eq. rewrite !in_run_true. case_bool; lia.
Qed.

Lemma range_valid base length :
  0 <= base < 2 ^ 64 -> 0 <= length < 2 ^ 64 ->
  (length =? 0) || (base +64 length <? base) = false ->
  0 < length /\ base + length < 2 ^ 64 /\ base +64 length = base + length.
Proof.
  intros Hb Hl H. apply orb_false_iff in H as [H1 H2]. bool_to_prop.
  assert (base + length < 2 ^ 64) as Hlt.
  { destruct (Z.lt_ge_cases (base + length) (2 ^ 64)); [done|exfalso].
    unfold wrap in H2. rewrite <- (Z.mod_unique (base + length) (2 ^ 64) 1 (base + length - 2 ^ 64))
      in H2; lia. }
  split; [lia|]. split; [done|]. apply wrap_small. lia.
Qed.

Lemma free_range_spec s base length b :
  pmm_wf s -> 0 <= base -> base + page_size <= 2 ^ 64 -> 0 <= length < 2 ^ 64 ->
  pmm_wf (free_range s base length b)
  /\ forall q, 0 <= q < max_managed_pages ->
     is_page_used (free_range s base length b) q
     = is_page_used s q
       && (((length =? 0) || (base +64 length <? base)) || negb (page_inside base length q)).
Proof.
  intros Hwf Hb Hb' Hl. unfold free_range.
  destruct ((length =? 0) || (base +64 length <? base)) eqn:E.
  { split; [done|]. intros. by rewrite andb_true_r. }
  apply range_valid in E as (Hlen & Hov & ->); [|unfold page_size in *; lia|done].
  rewrite align_up_spec, align_down_spec by lia. rewrite !Z.div_mul by done.
  set (a := (base + (page_size - 1)) / page_size). set (e := (base + length) / page_size).
  assert (forall q, page_inside base length q = in_run a (e - a) q) as Hin
    by (intros; apply page_inside_run).
  assert (0 <= a) by (subst a; unfold page_size in *; zlia).
  destruct (e * page_size <=? a * page_size) eqn:E; bool_to_prop.
  { split; [done|]. intros q Hq. rewrite Hin.
    replace (in_run a (e - a) q) with false; [by rewrite andb_true_r|].
    symmetry. apply not_true_iff_false. rewrite in_run_true. unfold page_size in *. lia. }
  destruct (max_managed_pages <=? a) eqn:Ea; bool_to_prop.
  { split; [by apply with_stats_wf|]. intros q Hq. rewrite Hin.
    replace (in_run a (e - a) q) with false; [by rewrite andb_true_r|].
    symmetry. apply not_true_iff_false. rewrite in_run_true. lia. }
  set (s' := if max_managed_pages <? e
             then with_stats (stats_skip (e -64 max_managed_pages)) s else s).
  assert (pmm_wf s') as Hw'.
  { subst s'. case_match; [by apply with_stats_wf|done]. }
  assert (forall q, is_page_used s' q = is_page_used s q) as Hu'
    by (subst s'; by case_match).
  replace (let '(s0, end_page) := _ in _) with
    (for_z a (if max_managed_pages <? e then max_managed_pages else e) (free_range_page b) s')
    by (subst s'; by case_match).
  assert (a < e) by (unfold page_size in *; lia).
  destruct (free_range_loop b a (if max_managed_pages <? e then max_managed_pages else e) s')
    as [Hw Hu]; [case_bool; lia|case_bool; lia|done|].
  split; [done|]. intros q Hq. rewrite Hu, Hu', Hin, in_run_clip by lia.
  by destruct (in_run a (e - a) q), (is_page_used s q).
Qed.

Lemma reserve_range_spec s base length :
  pmm_wf s -> 0 <= base -> 0 <= length -> base + length + page_size <= 2 ^ 64 ->
  pmm_wf (reserve_range s base length)
  /\ forall q, 0 <= q < max_managed_pages ->
     is_page_used (reserve_range s base length) q
     = is_page_used s q || ((0 <? length) && page_touches base length q).
Proof.
  intros Hwf Hb Hl Hov. unfold reserve_range.
  destruct ((length =? 0) || (base +64 length <? base)) eqn:E.
  { split; [done|]. intros. replace (0 <? length) with false; [by rewrite orb_false_r|].
    apply orb_true_iff in E as [E|E]; bool_to_prop; [lia|].
    rewrite wrap_small in E by (unfold page_size in *; lia). lia. }
  apply range_valid in E as (Hlen & _ & ->); [|unfold page_size in *; lia..].
  replace (0 <? length) with true by lia. cbn [andb].
  rewrite align_up_spec, align_down_spec by (unfold page_size in *; lia).
  rewrite !Z.div_mul by done.
  set (a := base / page_size). set (e := (base + length + (page_size - 1)) / page_size).
  assert (forall q, page_touches base length q = in_run a (e - a) q) as Hin
    by (intros; apply page_touches_run).
  assert (0 <= a < e) by (subst a e; unfold page_size in *; zlia).
  destruct (max_managed_pages <=? a) eqn:Ea; bool_to_prop.
  { split; [done|]. intros q Hq. rewrite Hin.
    replace (in_run a (e - a) q) with false; [by rewrite orb_false_r|].
    symmetry. apply not_true_iff_false. rewrite in_run_true. lia. }
  destruct (reserve_loop a (if max_managed_pages <? e then max_managed_pages else e) s)
    as [Hw Hu]; [case_bool; lia|case_bool; lia|done|].
  split; [done|]. intros q Hq. rewrite Hu, Hin, in_run_clip by lia.
  by destruct (in_run a (e - a) q), (is_page_used s q).
Qed.

(** A memory-map entry whose first page boundary does not wrap around. *)
Definition region_ok (r : MemoryRegion) : Prop :=
  0 <= region_base r /\ region_base r + page_size <= 2 ^ 64
  /\ 0 <= region_length r < 2 ^ 64.

(** The region makes page [q] available at boot. *)
Definition region_frees (r : MemoryRegion) (q : Z) : bool :=
  is_initially_allocatable (region_kind r) && negb (region_invalid r)
  && page_inside (region_base r) (region_length r) q.

Lemma init_region_spec r s :
  region_ok r -> pmm_wf s ->
  pmm_wf (init_region r s)
  /\ forall q, 0 <= q < max_managed_pages ->
     is_page_used (init_region r s) q = is_page_used s q && negb (region_frees r q).
Proof.
  intros (Hb & Hb' & Hl) Hwf. unfold init_region, region_frees.
  destruct (is_initially_allocatable (region_kind r)); cbn [negb andb].
  - destruct (free_range_spec s (region_base r) (region_length r)
      (bool_decide (region_kind r = BootloaderReclaimable)) Hwf Hb Hb' Hl) as [Hw Hu].
    split; [done|]. intros q Hq. rewrite Hu by done. unfold region_invalid.
    by rewrite negb_andb, negb_involutive.
  - split; [done|]. intros. by rewrite andb_true_r.
Qed.

Definition init_regions (m : MemoryMap) : pmm :=
  for_z 0 (region_count m) (fun i s => init_region (memory_region_at m i) s) reserve_all_pages.

Lemma init_regions_spec m :
  0 <= region_count m ->
  (forall i, 0 <= i < region_count m -> region_ok (memory_region_at m i)) ->
  pmm_wf (init_regions m)
  /\ forall q, 0 <= q < max_managed_pages ->
     is_page_used (init_regions m) q = false
     <-> exists i, 0 <= i < region_count m /\ region_frees (memory_region_at m i) q = true.
Proof.
  intros Hc Hok. unfold init_regions.
  apply (for_z_inv (fun k t => 0 <= k <= region_count m ->
    pmm_wf t /\ forall q, 0 <= q < max_managed_pages ->
     is_page_used t q = false
     <-> exists i, 0 <= i < k /\ region_frees (memory_region_at m i) q = true));
    [done| |..|lia].
  { intros _. split; [apply reserve_all_pages_wf|]. intros q Hq.
    rewrite is_page_used_testbit. cbn [reserve_all_pages page_bitmap]. rewrite aget_afill.
    change UINT64_MAX with (Z.ones 64). rewrite Z.ones_spec_low by zlia.
    split; [done|]. intros (i & Hi & _). lia. }
  intros k t Hk IH _. destruct (IH ltac:(lia)) as [Hw Hu].
  destruct (init_region_spec (memory_region_at m k) t (Hok k Hk) Hw) as [Hw' Hu'].
  split; [done|]. intros q Hq. rewrite Hu', andb_false_iff, negb_false_iff, Hu by done.
  split.
  - intros [(i & Hi & H)|H]; [exists i|exists k]; (split; [lia|done]).
  - intros (i & Hi & H). destruct (Z.eq_dec i k) as [->|]; [by right|].
    left. exists i. split; [lia|done].
Qed.

Lemma init_cases (kvs kve : Z) (bi : BootInfo) (q : Z) :
  0 <= region_count (memory_map bi) ->
  (forall i, 0 <= i < region_count (memory_map bi) ->
     region_ok (memory_region_at (memory_map bi) i)) ->
  0 <= physical_base (kernel_address bi) ->
  physical_base (kernel_address bi) + kernel_physical_size kvs kve + page_size <= 2 ^ 64 ->
  0 <= q < max_managed_pages ->
  pmm_wf (init kvs kve bi)
  /\ (is_page_used (init kvs kve bi) q = false
      <-> (exists i, 0 <= i < region_count (memory_map bi)
             /\ region_frees (memory_region_at (memory_map bi) i) q = true)
          /\ q <> 0
          /\ ~ (0 < kernel_physical_size kvs kve
                /\ page_touches (physical_base (kernel_address bi))
                     (kernel_physical_size kvs kve) q = true)).
Proof.
  intros Hc Hok Hb Hov Hq.
  assert (0 <= kernel_physical_size kvs kve) as Hks.
  { unfold kernel_physical_size. case_match; [apply wrap64_range|done]. }
  unfold init. fold (init_regions (memory_map bi)).
  destruct (init_regions_spec (memory_map bi) Hc Hok) as [Hw Hu].
  destruct (reserve_range_spec (init_regions (memory_map bi)) 0 page_size Hw) as [Hw1 Hu1];
    [done..|].
  destruct (reserve_range_spec _ _ _ Hw1 Hb Hks Hov) as [Hw2 Hu2].
  split; [done|]. rewrite Hu2, Hu1, !orb_false_iff, Hu by done.
  rewrite !andb_false_iff, !Z.ltb_ge.
  assert (page_touches 0 page_size q = false <-> q <> 0) as Hz.
  { rewrite <- not_true_iff_false, page_touches_run, in_run_true.
    unfold page_size. zlia. }
  rewrite Hz.
  split.
  - intros [[He [?|Hz']] Hk]; [done|]. split; [done|]. split; [done|].
    intros [Hk1 Hk2]. rewrite Hk2 in Hk. destruct Hk; [lia|done].
  - intros (He & Hz' & Hk). split; [split; [done|by right]|].
    destruct (Z.le_gt_cases (kernel_physical_size kvs kve) 0) as [|Hpos]; [by left|right].
    apply not_true_iff_false. intros Ht. by apply Hk.
Qed.

(** C3. [init] frees exactly the right pages.  For a memory map whose regions
    do not wrap around the address space, a managed page is free after boot if
    and only if some valid usable or bootloader-reclaimable region contains it
    whole, it is not page zero and it meets no byte of the kernel image; and
    the allocator starts in a well-formed state. *)
Theorem init_exact (kvs kve : Z) (bi : BootInfo) (q : Z) :
  0 <= region_count (memory_map bi) ->
  (forall i, 0 <= i < region_count (memory_map bi) ->
     region_ok (memory_region_at (memory_map bi) i)) ->
  0 <= physical_base (kernel_address bi) ->
  physical_base (kernel_address bi) + kernel_physical_size kvs kve + page_size <= 2 ^ 64 ->
  0 <= q < max_managed_pages ->
  pmm_wf (init kvs kve bi)
  /\ (is_page_used (init kvs kve bi) q = false
      <-> (exists i, 0 <= i < region_count (memory_map bi)
             /\ region_frees (memory_region_at (memory_map bi) i) q = true)
          /\ q <> 0
          /\ ~ (0 < kernel_physical_size kvs kve
                /\ page_touches (physical_base (kernel_address bi))
                     (kernel_physical_size kvs kve) q = true)).
Proof. apply init_cases. Qed.

(** The hypothesis [region_ok] of [init_exact] is needed: [align_up] wraps to 0
    for a region in the last page of the address space, and the whole managed
    range is then freed, page zero included. *)
Theorem free_range_wraps (s : pmm) (q : Z) :
  pmm_wf s -> 0 <= q < max_managed_pages ->
  is_page_used (free_range s (2 ^ 64 - 2048) 1024 false) q = false.
Proof.
  intros Hwf Hq. unfold free_range.
  change (align_up (2 ^ 64 - 2048) page_size) with 0.
  change (align_down ((2 ^ 64 - 2048) +64 1024) page_size) with (2 ^ 64 - 4096).
  change ((1024 =? 0) || ((2 ^ 64 - 2048) +64 1024 <? 2 ^ 64 - 2048)) with false.
  change (2 ^ 64 - 4096 <=? 0) with false.
  change (max_managed_pages <=? 0 / page_size) with false.
  change (max_managed_pages <? (2 ^ 64 - 4096) / page_size) with true.
  cbn beta iota.
  destruct (free_range_loop false 0 max_managed_pages
    (with_stats (stats_skip (((2 ^ 64 - 4096) / page_size) -64 max_managed_pages)) s))
    as [_ Hu]; [done|done|by apply with_stats_wf|].
  change (0 / page_size) with 0. rewrite Hu.
  replace (in_run 0 (max_managed_pages - 0) q) with true; [done|].
  symmetry. apply in_run_true. lia.
Qed.

(** * Reference counts *)

Lemma retain_page_wf s pa : pmm_wf s -> pmm_wf (retain_page s pa).
Proof.
  intros Hwf. unfold retain_page. case_match; [done|].
  destruct (is_page_used s (pa / page_size)) eqn:Hu;
    destruct (page_index_valid (pa / page_size)); cbn [negb orb]; try done.
  case_match; [|done]. apply with_refcount_wf; [apply wrap_range; lia|done..].
Qed.

(** A shared page survives the release of one of its owners: a [free_page]
    after a [retain_page] gives back the same allocator, for every used page
    whose count is below the saturation value. *)
Lemma retain_free_page s page :
  pmm_wf s -> 0 <= page < max_managed_pages -> is_page_used s page = true ->
  1 <= aget (page_refcounts s) page < UINT16_MAX ->
  pmm_equiv (free_page (retain_page s (page * page_size)) (page * page_size)) s.
Proof.
  intros Hwf Hp Hu Hr. pose proof (retain_page_wf s (page * page_size) Hwf) as Hw.
  destruct (free_pages_cases (retain_page s (page * page_size)) page 1 Hw Hp)
    as (nx & _ & Hwf' & _ & Hu' & Hr'); [lia|unfold max_managed_pages in *; lia|].
  assert (retain_page s (page * page_size)
          = with_refcount page (aget (page_refcounts s) page + 1) s) as E.
  { unfold retain_page. rewrite Z.mod_mul, Z.div_mul, valid_lt, Hu by (done || lia).
    cbn [negb orb]. replace (aget (page_refcounts s) page =? UINT16_MAX) with false by lia.
    cbn [negb]. rewrite wrap_small by (unfold UINT16_MAX in *; lia). done. }
  assert (freed_count page 1 = 1) as Hf by (unfold freed_count; lia). rewrite Hf in *.
  apply pmm_equiv_wf; [done|done|..]; intros q; unfold free_page; rewrite ?Hu', ?Hr', E;
    change (is_page_used (with_next nx (with_refcount page (aget (page_refcounts s) page + 1) s)) q)
      with (is_page_used s q);
    cbn [with_next with_refcount page_refcounts]; rewrite aget_aset;
    (destruct (in_run page 1 q) eqn:Hin; [apply in_run_true in Hin|apply not_true_iff_false in Hin;
      rewrite in_run_true in Hin]).
  - replace q with page by lia. rewrite decide_True, Hu by done. cbn. lia.
  - done.
  - replace q with page by lia. rewrite decide_True, Hu by done. cbn. case_bool; lia.
  - by rewrite decide_False by lia.
Qed.

(** * Runs of the allocator *)

Lemma free_pages_wf s pa n : 0 <= pa < 2 ^ 64 -> 0 <= n < 2 ^ 64 -> pmm_wf s ->
  pmm_wf (free_pages s pa n).
Proof.
  intros Hpa Hn Hwf. unfold free_pages.
  do 2 (case_match; [done|]). bool_to_prop.
  destruct (negb _ || _) eqn:E; [done|]. apply orb_false_iff in E as [Hv E].
  unfold page_index_valid in Hv. bool_to_prop.
  assert (0 <= pa / page_size) by (unfold page_size; zlia).
  set (e := if max_managed_pages <? _ then _ else _).
  assert (pa / page_size <= e <= max_managed_pages) as He.
  { subst e. case_bool; lia. }
  assert (pmm_wf (for_z (pa / page_size) e free_pages_step s)) as Hw.
  { replace e with (pa / page_size + (e - pa / page_size)) by lia.
    by apply free_run; [|lia..]. }
  case_match; [|done]. by apply with_next_wf.
Qed.

Lemma free_acpi_region_wf r s : region_ok r -> pmm_wf s -> pmm_wf (free_acpi_region r s).
Proof.
  intros (Hb & Hb' & Hl) Hwf. unfold free_acpi_region. case_match; [done|].
  destruct ((region_length r =? 0) || _) eqn:E; [done|].
  apply range_valid in E as (Hlen & Hov & ->); [|unfold page_size in *; lia|done].
  rewrite align_up_spec, align_down_spec by lia. rewrite !Z.div_mul by done.
  case_bool; [done|]. case_bool; [done|].
  apply release_loop; [|case_bool; lia|done].
  assert (0 <= (region_base r + (page_size - 1)) / page_size) by (unfold page_size in *; zlia).
  unfold page_size in *. case_bool; lia.
Qed.

Lemma free_acpi_wf m s :
  (forall i, 0 <= i < region_count m -> region_ok (memory_region_at m i)) ->
  pmm_wf s -> pmm_wf (free_acpi_reclaimable s m).2.
Proof.
  intros Hok Hwf. cbn. apply (for_z_pres pmm_wf); [done|].
  intros i t Hi Ht. apply free_acpi_region_wf; auto.
Qed.

(** The operations a client can issue, and the arguments they are called with. *)
Inductive op :=
| OpAlloc (page_count : Z)
| OpFree (physical_address page_count : Z)
| OpRetain (physical_address : Z)
| OpFreeAcpi (m : MemoryMap).

Definition run_op (s : pmm) (o : op) : pmm :=
  match o with
  | OpAlloc n => (alloc_pages s n).2
  | OpFree pa n => free_pages s pa n
  | OpRetain pa => retain_page s pa
  | OpFreeAcpi m => (free_acpi_reclaimable s m).2
  end.

Definition op_ok (o : op) : Prop :=
  match o with
  | OpAlloc n => 0 <= n
  | OpFree pa n => 0 <= pa < 2 ^ 64 /\ 0 <= n < 2 ^ 64
  | OpRetain _ => True
  | OpFreeAcpi m => forall i, 0 <= i < region_count m -> region_ok (memory_region_at m i)
  end.

Lemma run_op_wf s o : op_ok o -> pmm_wf s -> pmm_wf (run_op s o).
Proof.
  destruct o; cbn [op_ok run_op]; intros Hok Hwf.
  - by apply alloc_pages_wf.
  - destruct Hok. by apply free_pages_wf.
  - by apply retain_page_wf.
  - by apply free_acpi_wf.
Qed.

(** C11. The statistics never drift.  After any sequence of allocations,
    releases, retains and ACPI reclaims, whatever their arguments, the used
    and free page counters still count the bitmap exactly, every reference
    count fits its 16 bits, free pages have count 0 and the search hint is in
    range. *)
Theorem pmm_invariant (ops : list op) (s : pmm) :
  pmm_wf s -> Forall op_ok ops -> pmm_wf (foldl run_op s ops).
Proof.
  intros Hwf Hok. revert s Hwf. induction Hok as [|o ops Ho _ IH]; intros s Hwf; [done|].
  apply IH, run_op_wf; done.
Qed.

(** * Concrete instances *)

(** Sixteen usable pages at 1 MiB, two of them under the kernel image. *)
Definition demo_boot : BootInfo := {|
  kernel_address := {| physical_base := 0x104000; virtual_base := 0xffffffff80000000 |};
  hhdm_offset := 0xffff800000000000;
  memory_map := {|
    regions := Some [Region 0 0x9f000 Reserved; Region 0x100000 0x10000 Usable];
    region_count := 2;
    source_region_at := None |};
|}.

Definition demo_pmm : pmm := init 0xffffffff80000000 0xffffffff80002000 demo_boot.

Lemma demo_regions_ok i :
  0 <= i < region_count (memory_map demo_boot) ->
  region_ok (memory_region_at (memory_map demo_boot) i).
Proof.
  cbn. intros Hi. assert (i = 0 \/ i = 1) as [-> | ->] by lia;
    split_and!; vm_compute; first [reflexivity|discriminate].
Qed.

Lemma demo_pmm_wf : pmm_wf demo_pmm.
Proof.
  apply (init_cases _ _ demo_boot 0); [done|apply demo_regions_ok|done|done|done].
Qed.

Lemma init_exact_witness :
  pmm_wf demo_pmm /\ is_page_used demo_pmm 0x100 = false /\ is_page_used demo_pmm 0x104 = true.
Proof.
  destruct (init_exact 0xffffffff80000000 0xffffffff80002000 demo_boot 0x100) as [Hw _];
    [done|apply demo_regions_ok|done|done|done|].
  split; [exact Hw|]. split; vm_compute; reflexivity.
Defined.

Lemma alloc_pages_spec_witness :
  (alloc_pages demo_pmm 3).1 = 0x100000
  /\ allocated demo_pmm 3 (alloc_pages demo_pmm 3).1 (alloc_pages demo_pmm 3).2.
Proof.
  assert ((alloc_pages demo_pmm 3).1 = 0x100000) as E by (vm_compute; reflexivity).
  destruct (alloc_pages_spec demo_pmm 3 demo_pmm_wf) as [[H _]|[H _]];
    [unfold max_managed_pages; lia|exact (conj E H)|].
  exfalso. rewrite H in E. unfold invalid_physical_address, UINT64_MAX in E. cbn in E. lia.
Defined.

Lemma free_pages_spec_witness :
  is_page_used demo_pmm 0x104 = true
  /\ is_page_used (free_pages demo_pmm (0x104 * page_size) 1) 0x104 = false.
Proof.
  destruct (free_pages_spec demo_pmm 0x104 1 0x104 demo_pmm_wf) as (_ & _ & H & _);
    [unfold max_managed_pages; lia..|].
  assert (is_page_used demo_pmm 0x104 = true) as Hu by (vm_compute; reflexivity).
  split; [exact Hu|].
  assert (in_run 0x104 (freed_count 0x104 1) 0x104 = true) as Hin by reflexivity.
  specialize (H Hin Hu).
  assert ((1 <? aget (page_refcounts demo_pmm) 0x104) = false) as Hr by (vm_compute; reflexivity).
  rewrite Hr in H. exact (proj1 H).
Defined.

Lemma alloc_free_roundtrip_witness :
  pmm_equiv (free_pages (alloc_pages demo_pmm 4).2 (alloc_pages demo_pmm 4).1 4) demo_pmm.
Proof.
  apply (alloc_free_roundtrip demo_pmm 4 demo_pmm_wf); [unfold max_managed_pages; lia|].
  vm_compute. discriminate.
Defined.

Lemma pmm_invariant_witness :
  pmm_wf (foldl run_op demo_pmm
    [OpAlloc 4; OpRetain 0x100000; OpFree 0x100000 4; OpFreeAcpi (memory_map demo_boot)]).
Proof.
  apply (pmm_invariant _ demo_pmm demo_pmm_wf).
  repeat apply Forall_cons_2; [cbn; lia|exact I|cbn; lia|exact demo_regions_ok|constructor].
Defined.

Lemma free_range_wraps_witness :
  is_page_used (free_range reserve_all_pages (2 ^ 64 - 2048) 1024 false) 0 = false.
Proof. apply (free_range_wraps reserve_all_pages 0 reserve_all_pages_wf). done. Defined.
