(* ===== verification/PageAlloc.v ===== *)
(** What the page allocator promises to the rest of the kernel, and the
    direct-map address translation ([address.cpp]).

    The slice allocator, the heap, the page tables, the scheduler and the
    filesystems only rely on the operations and laws of the class
    [PageAlloc]; [Pmm.v] discharges them. *)

From S2P Require Import Prelude MemoryMap Pmm.

(** * The interface *)

Class PageAlloc (S : Type) := {
  pa_wf : S -> Prop;
  pa_used : S -> Z -> bool;
  pa_alloc : S -> Z -> Z * S;
  pa_free : S -> Z -> Z -> S;
  (** Either a run of free pages is handed out and marked, or nothing happens. *)
  pa_alloc_law : forall s n, pa_wf s -> 0 < n <= max_managed_pages ->
    (exists page,
        (pa_alloc s n).1 = page * page_size
        /\ 0 <= page /\ page + n <= max_managed_pages
        /\ (forall q, page <= q < page + n -> pa_used s q = false)
        /\ pa_wf (pa_alloc s n).2
        /\ (forall q, pa_used (pa_alloc s n).2 q = pa_used s q || in_run page n q))
    \/ pa_alloc s n = (invalid_physical_address, s);
  (** Freeing never makes a page used, and touches no page outside its run. *)
  pa_free_law : forall s page n, pa_wf s ->
    0 <= page < max_managed_pages -> 0 < n -> page + n < 2 ^ 64 ->
    pa_wf (pa_free s (page * page_size) n)
    /\ forall q, (pa_used (pa_free s (page * page_size) n) q = true -> pa_used s q = true)
       /\ (in_run page n q = false ->
           pa_used (pa_free s (page * page_size) n) q = pa_used s q);
}.

#[export, refine] Instance pmm_page_alloc : PageAlloc pmm := {|
  pa_wf := pmm_wf;
  pa_used := is_page_used;
  pa_alloc := alloc_pages;
  pa_free := free_pages;
|}.
Proof.
  - intros s n Hwf Hn.
    destruct (alloc_pages_cases s n Hwf Hn) as [[(page & Hr & (H0 & Hm & Hf) & Hw & _ & Hu & _) _]
      |[E _]]; [left; exists page|by right].
    split_and!; try done.
  - intros s page n Hwf Hp Hn Hov.
    destruct (free_pages_cases s page n Hwf Hp Hn Hov) as (nx & _ & Hw & _ & Hu & _).
    split; [done|]. intros q. rewrite Hu.
    change (is_page_used (with_next nx s) q) with (is_page_used s q).
    unfold used_after_free. split.
    + case_match; [|done]. by intros [? _]%andb_true_iff.
    + intros Hin. replace (in_run page (freed_count page n) q) with false; [done|].
      symmetry. apply not_true_iff_false. apply not_true_iff_false in Hin.
      rewrite in_run_true in *. unfold freed_count. lia.
Defined.

(** Reference counts of pages, for shared (copy-on-write) mappings. *)
Class PageRefs (S : Type) `{PageAlloc S} := {
  pa_retain : S -> Z -> S;
  pa_refs : S -> Z -> Z;
  pa_retain_law : forall s a, pa_wf s ->
    pa_wf (pa_retain s a) /\ forall q, pa_used (pa_retain s a) q = pa_used s q;
  (** Allocating does not touch the references of pages in use. *)
  pa_alloc_refs_law : forall s page, pa_wf s -> 0 <= page < max_managed_pages ->
    pa_used s page = true ->
    pa_refs (pa_alloc s 1).2 (page * page_size) = pa_refs s (page * page_size);
  (** A page with more than one reference survives being freed once. *)
  pa_shared_law : forall s a, pa_wf s -> 0 <= a -> 1 < pa_refs s a ->
    exists page, a = page * page_size /\ 0 <= page < max_managed_pages
      /\ pa_used s page = true /\ pa_used (pa_free s a 1) page = true;
}.

Lemma retain_page_used s a q : is_page_used (retain_page s a) q = is_page_used s q.
Proof. unfold retain_page. by repeat case_match. Qed.

#[export, refine] Instance pmm_page_refs : PageRefs pmm := {|
  pa_retain := retain_page;
  pa_refs := page_ref_count;
|}.
Proof.
  - intros s a Hwf. split; [by apply retain_page_wf|]. intros q. apply retain_page_used.
  - intros s page Hwf Hp Hu. cbn in Hu |- *. unfold page_ref_count.
    rewrite Z.mod_mul, Z.div_mul, Z.eqb_refl by done. cbn [negb]. rewrite valid_lt, Hu by lia. cbn [negb orb].
    destruct (alloc_pages_cases s 1 Hwf ltac:(unfold max_managed_pages; lia))
      as [[(start & _ & (_ & _ & Hfree) & _ & _ & Hu' & Hr') _]|[E _]]; [|rewrite E; cbn [fst snd]; by rewrite Hu].
    rewrite Hu', Hr'. change (is_page_used (with_next _ s) page) with (is_page_used s page).
    rewrite Hu. cbn [orb negb].
    replace (in_run start 1 page) with false; [done|]. symmetry. apply not_true_iff_false.
    rewrite in_run_true. intros Hin. rewrite (Hfree page) in Hu by lia. done.
  - intros s a Hwf Ha. cbn. unfold page_ref_count.
    destruct (a mod page_size =? 0) eqn:Em; cbn [negb]; [|lia]. bool_to_prop.
    destruct (page_index_valid (a / page_size)) eqn:Hv; cbn [negb orb]; [|lia].
    destruct (is_page_used s (a / page_size)) eqn:Hu; cbn [negb]; [|lia]. intros Hr.
    exists (a / page_size). set (page := a / page_size) in *.
    assert (a = page * page_size) as Ea by (subst page; unfold page_size in *; zlia).
    assert (0 <= page < max_managed_pages) as Hp.
    { unfold page_index_valid in Hv. unfold page_size in *. lia. }
    split_and!; [done|lia|lia|done|]. rewrite Ea.
    destruct (free_pages_cases s page 1 Hwf Hp) as (nx & _ & _ & _ & Hfree & _);
      [lia|unfold max_managed_pages in *; lia|].
    rewrite Hfree. change (is_page_used (with_next nx s) page) with (is_page_used s page).
    change (page_refcounts (with_next nx s)) with (page_refcounts s).
    replace (in_run page (freed_count page 1) page) with true
      by (symmetry; apply in_run_true; unfold freed_count; lia).
    unfold used_after_free. rewrite Hu. cbn. lia.
Defined.

(** * Direct map *)

(** [active_hhdm_offset] is the only state of [address.cpp]; [init_hhdm] sets it. *)
Definition init_hhdm (hhdm_offset : Z) : Z := hhdm_offset.

Definition physical_to_virtual (active_hhdm_offset physical_address : Z) : Z :=
  physical_address +64 active_hhdm_offset.

Definition virtual_to_physical (active_hhdm_offset virtual_address : Z) : Z :=
  virtual_address -64 active_hhdm_offset.

(** The two translations are inverse to each other at every offset, also when
    the sum wraps around. *)
Theorem hhdm_roundtrip (offset phys : Z) :
  0 <= phys < 2 ^ 64 ->
  virtual_to_physical offset (physical_to_virtual offset phys) = phys.
Proof.
  intros. unfold virtual_to_physical, physical_to_virtual, wrap.
  rewrite Zminus_mod_idemp_l. replace (phys + offset - offset) with phys by lia.
  by apply Z.mod_small.
Qed.

Lemma hhdm_roundtrip_witness :
  virtual_to_physical 0xffff800000000000 (physical_to_virtual 0xffff800000000000 0x100000)
  = 0x100000.
Proof. apply (hhdm_roundtrip 0xffff800000000000 0x100000). lia. Defined.

(** A direct map that is page aligned and covers the managed memory without
    wrapping around, as the boot loader sets it up. *)
Record hhdm_ok (offset : Z) : Prop := {
  hhdm_pos : 0 < offset;
  hhdm_aligned : offset mod page_size = 0;
  hhdm_fits : offset + max_managed_pages * page_size <= 2 ^ 64;
}.

Lemma hhdm_page offset page i :
  hhdm_ok offset -> 0 <= page < max_managed_pages -> 0 <= i < page_size ->
  physical_to_virtual offset (page * page_size) + i = offset + page * page_size + i
  /\ 0 < offset + page * page_size + i < 2 ^ 64
  /\ (offset + page * page_size + i - offset) / page_size = page.
Proof.
  intros [] Hp Hi. unfold physical_to_virtual.
  assert (page * page_size + page_size <= max_managed_pages * page_size)
    by (unfold page_size, max_managed_pages in *; lia).
  rewrite wrap_small by (unfold page_size, max_managed_pages in *; lia).
  split; [lia|]. split; [unfold page_size in *; lia|].
  replace (offset + page * page_size + i - offset) with (i + page * page_size) by lia.
  rewrite Z.div_add, Z.div_small by (done || lia). lia.
Qed.
