(* ===== verification/Slice.v ===== *)
(** The slice allocator: [slice_allocator.cpp].

    Fixed-size objects are carved out of whole pages; the free slices of a
    size class form a singly linked list whose links are stored in the free
    slices themselves.  Memory is a word-addressed array that holds those
    links; the null pointer is 0. *)

From S2P Require Import Prelude MemoryMap Pmm PageAlloc.

Record SizeClass := {
  sc_size : Z;
  sc_alignment : Z;
  sc_free_list : Z;
  sc_total_slices : Z;
  sc_free_slices : Z;
  sc_backing_pages : Z;
}.

Record SliceStats := {
  st_backing_pages : Z;
  st_total_slices : Z;
  st_free_slices : Z;
  st_failed_allocations : Z;
}.

Definition class_sizes : list Z := [16; 32; 64; 128; 256; 512; 1024; 2048].

(** The static table [classes]. *)
Definition classes0 : list SizeClass :=
  (fun n => Build_SizeClass n 16 0 0 0 0) <$> class_sizes.

Record slice (S : Type) := Slice {
  mem : arr Z;
  classes : list SizeClass;
  slice_stats : SliceStats;
  hhdm : Z;
  pages : S;
}.
Arguments Slice {S}.
Arguments mem {S}.
Arguments classes {S}.
Arguments slice_stats {S}.
Arguments hhdm {S}.
Arguments pages {S}.

Definition is_power_of_two (value : Z) : bool :=
  negb (value =? 0) && (Z.land value (value - 1) =? 0).

(** sizeof(FreeSlice) *)
Definition sizeof_FreeSlice : Z := 8.

(** The index of the first class whose slices are large and aligned enough. *)
Fixpoint find_class (required alignment : Z) (cs : list SizeClass) (i : nat) : option nat :=
  match cs with
  | [] => None
  | c :: cs =>
      if (required <=? sc_size c) && (alignment <=? sc_alignment c) then Some i
      else find_class required alignment cs (S i)
  end.

Definition class_for (cs : list SizeClass) (size alignment : Z) : option nat :=
  if (size =? 0) || negb (is_power_of_two alignment) then None
  else
    let required := if sizeof_FreeSlice <? size then size else sizeof_FreeSlice in
    find_class required alignment cs 0.

Section Operations.
Context {S : Type} `{PageAlloc S}.
Implicit Types (s : slice S) (c : SizeClass).

Definition count_failure s : slice S :=
  Slice (mem s) (classes s)
    {| st_backing_pages := st_backing_pages (slice_stats s);
       st_total_slices := st_total_slices (slice_stats s);
       st_free_slices := st_free_slices (slice_stats s);
       st_failed_allocations := st_failed_allocations (slice_stats s) +64 1 |}
    (hhdm s) (pages s).

(** The loop of [grow_class] that threads the slices of a page onto the list. *)
Definition thread_page (page size slice_count : Z) (m : arr Z) (head : Z) : arr Z * Z :=
  for_z 0 slice_count
    (fun index '(m, head) =>
       let node := page +64 index *64 size in (aset m node head, node))
    (m, head).

Definition grow_class (i : nat) c s : bool * slice S :=
  let '(physical_page, ps) := pa_alloc (pages s) 1 in
  if physical_page =? invalid_physical_address then
    (false, count_failure (Slice (mem s) (classes s) (slice_stats s) (hhdm s) ps))
  else
    let page := physical_to_virtual (hhdm s) physical_page in
    let slice_count := page_size / sc_size c in
    let '(m, head) := thread_page page (sc_size c) slice_count (mem s) (sc_free_list c) in
    let c' := {| sc_size := sc_size c;
                 sc_alignment := sc_alignment c;
                 sc_free_list := head;
                 sc_total_slices := sc_total_slices c +64 slice_count;
                 sc_free_slices := sc_free_slices c +64 slice_count;
                 sc_backing_pages := sc_backing_pages c +64 1 |} in
    let st := slice_stats s in
    (true,
     Slice m (<[i := c']> (classes s))
       {| st_backing_pages := st_backing_pages st +64 1;
          st_total_slices := st_total_slices st +64 slice_count;
          st_free_slices := st_free_slices st +64 slice_count;
          st_failed_allocations := st_failed_allocations st |}
       (hhdm s) ps).

Definition init (hhdm_offset : Z) s : slice S :=
  Slice (mem s)
    ((fun c => Build_SizeClass (sc_size c) (sc_alignment c) 0 0 0 0) <$> classes s)
    (Build_SliceStats 0 0 0 0) (init_hhdm hhdm_offset) (pages s).

Definition adjust_free (st : SliceStats) (d : Z) : SliceStats :=
  {| st_backing_pages := st_backing_pages st;
     st_total_slices := st_total_slices st;
     st_free_slices := st_free_slices st +64 d;
     st_failed_allocations := st_failed_allocations st |}.

Definition set_free_list (head d : Z) c : SizeClass :=
  {| sc_size := sc_size c;
     sc_alignment := sc_alignment c;
     sc_free_list := head;
     sc_total_slices := sc_total_slices c;
     sc_free_slices := sc_free_slices c +64 d;
     sc_backing_pages := sc_backing_pages c |}.

(** Unlink the first free slice of class [i]. *)
Definition pop_slice (i : nat) c s : Z * slice S :=
  let node := sc_free_list c in
  (node,
   Slice (mem s) (<[i := set_free_list (aget (mem s) node) (-1) c]> (classes s))
     (adjust_free (slice_stats s) (-1)) (hhdm s) (pages s)).

Definition alloc (size alignment : Z) s : Z * slice S :=
  match class_for (classes s) size alignment with
  | None => (0, count_failure s)
  | Some i =>
      match classes s !! i with
      | None => (0, s)
      | Some c =>
          if sc_free_list c =? 0 then
            let '(ok, s) := grow_class i c s in
            if negb ok then (0, s)
            else match classes s !! i with
                 | Some c => pop_slice i c s
                 | None => (0, s)
                 end
          else pop_slice i c s
      end
  end.

(** alignof(uint64_t) is 8. *)
Definition free (pointer size : Z) s : slice S :=
  if pointer =? 0 then s
  else
    match class_for (classes s) size 8 with
    | None => s
    | Some i =>
        match classes s !! i with
        | None => s
        | Some c =>
            Slice (aset (mem s) pointer (sc_free_list c))
              (<[i := set_free_list pointer 1 c]> (classes s))
              (adjust_free (slice_stats s) 1) (hhdm s) (pages s)
        end
    end.

Definition stats s : SliceStats := slice_stats s.

End Operations.

(** * Choice of the size class *)

Lemma find_class_spec required alignment cs i k :
  find_class required alignment cs i = Some k ->
  exists j c, k = (i + j)%nat /\ cs !! j = Some c
    /\ required <= sc_size c /\ alignment <= sc_alignment c
    /\ forall j' c', (j' < j)%nat -> cs !! j' = Some c' ->
         sc_size c' < required \/ sc_alignment c' < alignment.
Proof.
  revert i. induction cs as [|c cs IH]; intros i; cbn; [done|].
  destruct ((required <=? sc_size c) && (alignment <=? sc_alignment c)) eqn:E.
  - intros [= <-]. bool_to_prop. exists 0%nat, c. split_and!; [lia|done|done|done|lia].
  - intros (j & c0 & -> & Hc & Hr & Ha & Hmin)%IH. exists (S j), c0.
    split_and!; [lia|done|done|done|]. intros [|j'] c' Hj; cbn; [|intros; eapply Hmin; [|done]; lia].
    intros [= <-]. apply andb_false_iff in E as [E|E]; bool_to_prop; lia.
Qed.

(** A request is served from the smallest sufficient class: the size class
    that [class_for] selects in the static table holds the request and its
    alignment, and every class with smaller slices is too small for the
    request or for the link of a free slice. *)
Theorem class_for_smallest (size alignment : Z) (k : nat) :
  class_for classes0 size alignment = Some k ->
  exists n, class_sizes !! k = Some n /\ size <= n /\ alignment <= 16
    /\ forall k' n', (k' < k)%nat -> class_sizes !! k' = Some n' -> n' < Z.max size 8.
Proof.
  unfold class_for. case_match; [done|].
  intros (j & c & -> & Hc & Hr & Ha & Hmin)%find_class_spec.
  unfold classes0 in Hc. apply list_lookup_fmap_Some in Hc as (n & -> & Hn). cbn in Hr, Ha.
  exists n. unfold sizeof_FreeSlice in *. split_and!; [done|case_bool_in Hr; lia|done|].
  intros k' n' Hk' Hn'. cbn in Hk'.
  destruct (Hmin k' (Build_SizeClass n' 16 0 0 0 0)) as [Hlt|Hlt]; [lia| |..].
  - unfold classes0. apply list_lookup_fmap_Some. eauto.
  - cbn in Hlt. case_bool_in Hlt; lia.
  - cbn in Hlt. lia.
Qed.

Lemma class_for_smallest_witness :
  exists n, class_sizes !! 2%nat = Some n /\ 40 <= n.
Proof.
  destruct (class_for_smallest 40 8 2) as (n & Hn & Hle & _); [reflexivity|].
  exists n. exact (conj Hn Hle).
Defined.

(** * Free lists *)

(** The links in [m] from [p] run through exactly the addresses [l]. *)
Fixpoint chain (m : arr Z) (p : Z) (l : list Z) : Prop :=
  match l with
  | [] => p = 0
  | x :: l => p = x /\ x <> 0 /\ chain m (aget m x) l
  end.

Lemma chain_aset m p l x v : x ∉ l -> chain m p l -> chain (aset m x v) p l.
Proof.
  revert p. induction l as [|y l IH]; intros p Hx; cbn; [done|].
  apply not_elem_of_cons in Hx as [Hxy Hx]. intros (-> & Hy & Hc). split_and!; [done|done|].
  rewrite aget_aset_ne by done. by apply IH.
Qed.

Lemma chain_push m p l x : x <> 0 -> x ∉ l -> chain m p l -> chain (aset m x p) x (x :: l).
Proof.
  intros Hx Hl Hc. cbn. split_and!; [done..|]. rewrite aget_aset_eq. by apply chain_aset.
Qed.

Lemma chain_nonempty m p l : chain m p l -> p <> 0 -> exists l', l = p :: l' /\ chain m (aget m p) l'.
Proof. destruct l as [|x l]; cbn; [done|]. intros (-> & _ & Hc) _. by exists l. Qed.

(** The addresses of the slices of a page, as [grow_class] pushes them. *)
Fixpoint page_slices (page size : Z) (n : nat) : list Z :=
  match n with
  | O => []
  | S n => (page + Z.of_nat n * size) :: page_slices page size n
  end.

Lemma elem_of_page_slices page size n x :
  x ∈ page_slices page size n <-> exists k, 0 <= k < Z.of_nat n /\ x = page + k * size.
Proof.
  induction n as [|n IH]; cbn [page_slices].
  - split; [by intros ?%elem_of_nil|]. intros (k & Hk & _). lia.
  - rewrite elem_of_cons, IH. split.
    + intros [-> | (k & Hk & ->)]; [exists (Z.of_nat n)|exists k]; (split; [lia|done]).
    + intros (k & Hk & ->). destruct (Z.eq_dec k (Z.of_nat n)) as [->|]; [by left|right].
      exists k. split; [lia|done].
Qed.

Lemma NoDup_page_slices page size n : 0 < size -> NoDup (page_slices page size n).
Proof.
  intros Hs. induction n as [|n IH]; cbn [page_slices]; constructor; [|done].
  rewrite elem_of_page_slices. intros (k & Hk & E). nia.
Qed.

Lemma length_page_slices page size n : length (page_slices page size n) = n.
Proof. induction n; cbn [page_slices length]; congruence. Qed.

(** Threading a page puts its slices in front of the list. *)
Lemma thread_page_chain page size n m head l :
  0 < page -> 0 < size -> page + Z.of_nat n * size <= 2 ^ 64 ->
  chain m head l ->
  (forall x, x ∈ l -> ~ (page <= x < page + Z.of_nat n * size)) ->
  let r := thread_page page size (Z.of_nat n) m head in
  chain r.1 r.2 (page_slices page size n ++ l)
  /\ (forall p k, chain m p k -> (forall x, x ∈ k -> ~ (page <= x < page + Z.of_nat n * size)) ->
      chain r.1 p k).
Proof.
  intros Hp Hs Hfit Hc Hl r. subst r. unfold thread_page.
  pose proof (for_z_inv (fun i (t : arr Z * Z) => 0 <= i <= Z.of_nat n ->
    chain t.1 t.2 (page_slices page size (Z.to_nat i) ++ l)
    /\ (forall p k, chain m p k -> (forall x, x ∈ k -> ~ (page <= x < page + Z.of_nat n * size)) ->
        chain t.1 p k))) as Hinv.
  specialize (Hinv 0 (Z.of_nat n)). cbn beta in Hinv. rewrite Nat2Z.id in Hinv.
  apply Hinv; [lia|intros _; cbn; split; [done|auto]| |lia].
  clear Hinv. intros i [m' h'] Hi IH _. destruct (IH ltac:(lia)) as [Hc' Hk]. cbn [fst snd] in *.
  rewrite (wrap_small 64 (i * size)), wrap_small by nia.
  replace (Z.to_nat (i + 1)) with (S (Z.to_nat i)) by lia. cbn [page_slices app].
  rewrite Z2Nat.id by lia. split.
  - apply chain_push; [nia| |done]. rewrite elem_of_app, elem_of_page_slices.
    intros [(k & Hk' & E)|Hx]; [nia|]. apply (Hl _ Hx). nia.
  - intros p k Hpk Hx. apply chain_aset; [|by apply Hk]. intros Hin. apply (Hx _ Hin). nia.
Qed.

(** * The abstract state: which slices are live *)

(** [x] is the address of a slice of class [i] on a page that class owns. *)
Definition slice_ptr (off : Z) (own : gmap Z nat) (x : Z) (i : nat) : Prop :=
  exists n page k, class_sizes !! i = Some n /\ own !! page = Some i
    /\ 0 <= page < max_managed_pages /\ 0 <= k < page_size / n
    /\ x = off + page * page_size + k * n.

Definition class_shape (c : SizeClass) : Z * Z := (sc_size c, sc_alignment c).

(** [own] maps the pages the allocator took to their classes, [frees i] lists
    the free slices of class [i], and [live] is the set of slices handed out. *)
Record slice_wf {S} `{PageAlloc S} (s : slice S) (own : gmap Z nat)
    (frees : nat -> list Z) (live : gset Z) : Prop := {
  w_pages : pa_wf (pages s);
  w_hhdm : hhdm_ok (hhdm s);
  w_own : forall page i, own !! page = Some i -> pa_used (pages s) page = true;
  w_shape : class_shape <$> classes s = (fun n => (n, 16)) <$> class_sizes;
  w_chain : forall i c, classes s !! i = Some c ->
    chain (mem s) (sc_free_list c) (frees i)
    /\ sc_free_slices c = wrap 64 (Z.of_nat (length (frees i)));
  w_free : forall i x, x ∈ frees i -> slice_ptr (hhdm s) own x i /\ x ∉ live;
  w_nodup : forall i, NoDup (frees i);
  w_live : forall x, x ∈ live -> exists i, slice_ptr (hhdm s) own x i;
}.

Definition upd_frees (frees : nat -> list Z) (i : nat) (l : list Z) : nat -> list Z :=
  fun j => if decide (j = i) then l else frees j.

Lemma class_sizes_range i n :
  class_sizes !! i = Some n -> 16 <= n <= 2048 /\ page_size mod n = 0 /\ n mod 16 = 0.
Proof.
  intros Hi. assert (n ∈ class_sizes) as Hn by by eapply list_elem_of_lookup_2.
  unfold class_sizes in Hn.
  repeat (apply elem_of_cons in Hn as [-> | Hn]; [vm_compute; repeat split; discriminate|]).
  by apply elem_of_nil in Hn.
Qed.

Lemma slice_ptr_page off own x i :
  slice_ptr off own x i ->
  exists n, class_sizes !! i = Some n /\ own !! ((x - off) / page_size) = Some i
    /\ 0 <= (x - off) / page_size < max_managed_pages
    /\ ((x - off) mod page_size) mod n = 0
    /\ (x - off) mod page_size + n <= page_size.
Proof.
  intros (n & page & k & Hn & Ho & Hp & Hk & ->). exists n.
  destruct (class_sizes_range i n Hn) as (Hr & Hmod & _).
  assert (k * n + n <= page_size) as Hkn.
  { pose proof (Z.div_mod page_size n ltac:(lia)). nia. }
  replace (off + page * page_size + k * n - off) with (k * n + page * page_size) by lia.
  assert (0 <= k * n < page_size) as Hb by nia.
  rewrite Z.div_add, Z.mod_add, (Z.div_small _ _ Hb), (Z.mod_small _ _ Hb), Z.add_0_l by done.
  split_and!; [done|done|lia|lia|apply Z.mod_mul; lia|done].
Qed.

(** Two different slices never overlap. *)
Lemma slice_ptr_disjoint off own x y i j n m :
  slice_ptr off own x i -> slice_ptr off own y j -> x <> y ->
  class_sizes !! i = Some n -> class_sizes !! j = Some m ->
  x + n <= y \/ y + m <= x.
Proof.
  intros (n' & Hn & Hx1 & _ & Hx2 & Hx3)%slice_ptr_page
         (m' & Hm & Hy1 & _ & Hy2 & Hy3)%slice_ptr_page Hne Hin Hjm.
  assert (n' = n) as -> by congruence. assert (m' = m) as -> by congruence.
  destruct (class_sizes_range i n Hin) as (Hr & _).
  pose proof (Z.div_mod (x - off) page_size ltac:(done)).
  pose proof (Z.div_mod (y - off) page_size ltac:(done)).
  pose proof (Z.mod_pos_bound (x - off) page_size ltac:(done)).
  pose proof (Z.mod_pos_bound (y - off) page_size ltac:(done)).
  destruct (Z.eq_dec ((x - off) / page_size) ((y - off) / page_size)) as [E|E];
    [|unfold page_size in *; lia].
  rewrite E in Hx1. assert (m = n) as -> by congruence.
  pose proof (Z.div_mod ((x - off) mod page_size) n ltac:(lia)) as Dx.
  pose proof (Z.div_mod ((y - off) mod page_size) n ltac:(lia)) as Dy.
  rewrite Hx2 in Dx. rewrite Hy2 in Dy.
  generalize dependent (((x - off) mod page_size) / n). intros a Dx.
  generalize dependent (((y - off) mod page_size) / n). intros b Dy.
  destruct (Z.lt_trichotomy a b) as [Hab|[->|Hab]]; [left|lia|right].
  - assert (n * a + n <= n * b) by nia. lia.
  - assert (n * b + n <= n * a) by nia. lia.
Qed.

Lemma slice_ptr_align off own x i :
  off mod page_size = 0 -> slice_ptr off own x i -> x mod 16 = 0.
Proof.
  intros Ho (n & page & k & Hn & _ & _ & _ & ->).
  destruct (class_sizes_range i n Hn) as (_ & _ & Hm). unfold page_size in *.
  apply Z.mod_divide in Hm; [|done]. destruct Hm as [c ->].
  replace (k * (c * 16)) with (k * c * 16) by lia.
  Z.to_euclidean_division_equations. lia.
Qed.

Lemma slice_ptr_pos off own x i : hhdm_ok off -> slice_ptr off own x i -> 0 < x < 2 ^ 64.
Proof.
  intros [] (n & Hn & Ho & Hp & Hm & Hf)%slice_ptr_page.
  destruct (class_sizes_range i n Hn) as (Hr & _).
  pose proof (Z.div_mod (x - off) page_size ltac:(done)).
  pose proof (Z.mod_pos_bound (x - off) page_size ltac:(done)).
  unfold page_size, max_managed_pages in *. lia.
Qed.

Lemma slice_ptr_mono off own own' x i : own ⊆ own' -> slice_ptr off own x i -> slice_ptr off own' x i.
Proof.
  intros Hs (n & page & k & ? & Ho & ?). exists n, page, k. split_and!; try tauto.
  by eapply lookup_weaken.
Qed.

Section Refinement.
Context {S : Type} `{PageAlloc S}.
Implicit Types (s : slice S) (own : gmap Z nat) (live : gset Z).

Lemma wf_class_size s own frees live i c :
  slice_wf s own frees live -> classes s !! i = Some c -> class_sizes !! i = Some (sc_size c).
Proof.
  intros Hwf Hc. pose proof (w_shape _ _ _ _ Hwf) as Hs.
  apply (f_equal (.!! i)) in Hs. rewrite !list_lookup_fmap, Hc in Hs. cbn in Hs.
  unfold class_shape in Hs. destruct (class_sizes !! i); cbn in Hs; congruence.
Qed.

Lemma find_class_shape required alignment cs cs' i :
  class_shape <$> cs = class_shape <$> cs' ->
  find_class required alignment cs i = find_class required alignment cs' i.
Proof.
  revert cs' i. induction cs as [|c cs IH]; intros [|c' cs'] i; cbn; try done.
  intros [= -> -> E]. case_match; [done|]. by apply IH.
Qed.

Lemma wf_class_for s own frees live size alignment :
  slice_wf s own frees live -> class_for (classes s) size alignment = class_for classes0 size alignment.
Proof.
  intros Hwf. unfold class_for. case_match; [done|]. apply find_class_shape.
  rewrite (w_shape _ _ _ _ Hwf). reflexivity.
Qed.

Lemma shape_insert s own frees live i c c' :
  slice_wf s own frees live -> classes s !! i = Some c -> class_shape c' = class_shape c ->
  class_shape <$> <[i := c']> (classes s) = (fun n => (n, 16)) <$> class_sizes.
Proof.
  intros Hwf Hc E. rewrite <- (w_shape _ _ _ _ Hwf), list_fmap_insert.
  apply list_insert_id. by rewrite list_lookup_fmap, Hc, E.
Qed.

(** Taking the head of a free list makes it live. *)
Lemma pop_slice_wf s own frees live i c p l :
  slice_wf s own frees live -> classes s !! i = Some c -> frees i = p :: l ->
  (pop_slice i c s).1 = p
  /\ slice_wf (pop_slice i c s).2 own (upd_frees frees i l) ({[p]} ∪ live)
  /\ (p ∉ live) /\ slice_ptr (hhdm s) own p i.
Proof.
  intros Hwf Hc Hf. destruct (w_chain _ _ _ _ Hwf i c Hc) as [Hch Hn]. rewrite Hf in Hch, Hn.
  destruct Hch as (Hp & Hp0 & Hch).
  destruct (w_free _ _ _ _ Hwf i p) as [Hsp Hpl]; [rewrite Hf; by apply elem_of_cons; left|].
  pose proof (w_nodup _ _ _ _ Hwf i) as Hnd. rewrite Hf in Hnd.
  apply NoDup_cons in Hnd as [Hpn Hnd].
  unfold pop_slice. cbn [fst snd]. rewrite Hp. split_and!; [done| |done|done].
  split; cbn; try apply Hwf.
  - by eapply shape_insert.
  - intros j c' Hj. unfold upd_frees.
    apply list_insert_cases in Hj; [|by eexists]. destruct Hj as [[-> ->]|[Hne Hj]].
    + rewrite decide_True by done. cbn. split; [done|]. rewrite Hn.
      cbn [length]. unfold wrap. rewrite Zplus_mod_idemp_l. f_equal. lia.
    + rewrite decide_False by done. by apply Hwf.
  - intros j x. unfold upd_frees. case_decide as Hd.
    + subst j. intros Hx. destruct (w_free _ _ _ _ Hwf i x) as [??];
        [rewrite Hf; by apply elem_of_cons; right|]. split; [done|].
      rewrite elem_of_union, elem_of_singleton. intros [->|]; done.
    + intros Hx. destruct (w_free _ _ _ _ Hwf j x Hx) as [Hxj ?]. split; [done|].
      rewrite elem_of_union, elem_of_singleton. intros [->|]; [|done].
      apply slice_ptr_page in Hsp as (? & ? & Ho1 & _).
      apply slice_ptr_page in Hxj as (? & ? & Ho2 & _). congruence.
  - intros j. unfold upd_frees. case_decide; [done|]. apply Hwf.
  - intros x. rewrite elem_of_union, elem_of_singleton. intros [->|Hx]; [by exists i|].
    by eapply w_live.
Qed.

Lemma count_failure_wf s own frees live :
  slice_wf s own frees live -> slice_wf (count_failure s) own frees live.
Proof. intros []. by split. Qed.

(** A page the allocator did not own holds no slice it knows of. *)
Lemma slice_not_on_page s own frees live x i page :
  slice_wf s own frees live -> slice_ptr (hhdm s) own x i -> own !! page = None ->
  ~ (hhdm s + page * page_size <= x < hhdm s + page * page_size + page_size).
Proof.
  intros Hwf (n & Hn & Ho & _)%slice_ptr_page Hp Hx.
  replace ((x - hhdm s) / page_size) with page in Ho; [congruence|].
  apply Z.div_unique with (x - hhdm s - page * page_size); unfold page_size in *; lia.
Qed.

(** [grow_class] adds the slices of one fresh page to an empty class. *)
Lemma grow_class_wf s own frees live i c :
  slice_wf s own frees live -> classes s !! i = Some c -> frees i = [] ->
  ((grow_class i c s).1 = false /\ slice_wf (grow_class i c s).2 own frees live)
  \/ ((grow_class i c s).1 = true /\ exists own' l c', l <> [] /\ own ⊆ own'
      /\ classes (grow_class i c s).2 !! i = Some c'
      /\ hhdm (grow_class i c s).2 = hhdm s
      /\ slice_wf (grow_class i c s).2 own' (upd_frees frees i l) live).
Proof.
  intros Hwf Hc Hf. pose proof (wf_class_size _ _ _ _ _ _ Hwf Hc) as Hsz.
  destruct (class_sizes_range _ _ Hsz) as (Hr & Hmod & _).
  destruct (w_chain _ _ _ _ Hwf i c Hc) as [Hch Hcnt]. rewrite Hf in Hch, Hcnt.
  unfold grow_class. pose proof (pa_alloc_law (pages s) 1 (w_pages _ _ _ _ Hwf)) as Hlaw.
  destruct (pa_alloc (pages s) 1) as [phys ps]. cbn [fst snd] in Hlaw.
  destruct Hlaw as [(page & -> & Hp0 & Hpm & Hfree & Hps & Hused)|[= -> ->]];
    [unfold max_managed_pages; lia| |].
  2:{ left. rewrite Z.eqb_refl. cbn. split; [done|]. apply count_failure_wf.
      by destruct s. }
  right. pose proof (w_hhdm _ _ _ _ Hwf) as Hh.
  replace (page * page_size =? invalid_physical_address) with false
    by (unfold page_size, invalid_physical_address, UINT64_MAX, max_managed_pages in *; lia).
  destruct (hhdm_page (hhdm s) page 0 Hh) as (Ev & Hpos & _); [lia|done|].
  assert (physical_to_virtual (hhdm s) (page * page_size) = hhdm s + page * page_size) as ->
    by lia. clear Ev.
  set (base := hhdm s + page * page_size) in *.
  set (k := Z.to_nat (page_size / sc_size c)).
  assert (0 < page_size / sc_size c) as Hkpos by (apply Z.div_str_pos; unfold page_size in *; lia).
  assert (Z.of_nat k * sc_size c = page_size) as Hks.
  { subst k. rewrite Z2Nat.id by lia. pose proof (Z.div_mod page_size (sc_size c) ltac:(lia)). lia. }
  assert (own !! page = None) as Hown.
  { destruct (own !! page) eqn:E; [|done]. apply (w_own _ _ _ _ Hwf) in E.
    rewrite Hfree in E by lia. done. }
  replace (page_size / sc_size c) with (Z.of_nat k) by (subst k; lia).
  assert (base + page_size <= 2 ^ 64) as Hfit.
  { destruct Hh. subst base. unfold page_size, max_managed_pages in *. lia. }
  destruct (thread_page_chain base (sc_size c) k (mem s) (sc_free_list c) []) as [Hch' Hframe];
    [lia|lia|lia|done|by intros x ?%elem_of_nil|]. rewrite app_nil_r in Hch'.
  destruct (thread_page base (sc_size c) (Z.of_nat k) (mem s) (sc_free_list c)) as [m head].
  cbn [fst snd] in *. split; [done|].
  exists (<[page := i]> own), (page_slices base (sc_size c) k). eexists.
  split_and!.
  - intros E%(f_equal length). rewrite length_page_slices in E. cbn in E. lia.
  - by apply insert_subseteq.
  - cbn. apply list_lookup_insert_eq. by eapply lookup_lt_Some.
  - done.
  - assert (forall x j, slice_ptr (hhdm s) own x j -> slice_ptr (hhdm s) (<[page:=i]> own) x j) as Hmono.
    { intros x j. apply slice_ptr_mono. by apply insert_subseteq. }
    split; cbn; try apply Hwf; try done.
    + intros q j. rewrite lookup_insert. case_decide as Hd; [intros _; subst q|].
      * rewrite Hused. replace (in_run page 1 page) with true; [by rewrite orb_true_r|].
        symmetry. apply in_run_true. lia.
      * intros Hq. rewrite Hused. by rewrite (w_own _ _ _ _ Hwf q j Hq).
    + by eapply shape_insert.
    + intros j c' Hj. unfold upd_frees. apply list_insert_cases in Hj; [|by eexists].
      destruct Hj as [[-> ->]|[Hne Hj]]; cbn.
      * rewrite decide_True by done. split; [done|]. rewrite Hcnt, length_page_slices. done.
      * rewrite decide_False by done. destruct (w_chain _ _ _ _ Hwf j c' Hj) as [Hcj ?].
        split; [|done]. apply Hframe; [done|]. intros x Hx. rewrite Hks.
        eapply slice_not_on_page; [done|by eapply w_free|done].
    + intros j x. unfold upd_frees. case_decide as Hd.
      * subst j. rewrite elem_of_page_slices. intros (q & Hq & ->). split.
        -- exists (sc_size c), page, q. split_and!; [done|apply lookup_insert_eq|lia|lia|lia|subst k; lia|subst base; lia].
        -- intros Hl. apply (w_live _ _ _ _ Hwf) in Hl as [j Hl].
           pose proof (slice_not_on_page _ _ _ _ _ _ _ Hwf Hl Hown) as Hnot. fold base in Hnot. nia.
      * intros Hx. destruct (w_free _ _ _ _ Hwf j x Hx). split; auto.
    + intros j. unfold upd_frees. case_decide; [apply NoDup_page_slices; lia|apply Hwf].
    + intros x Hx. destruct (w_live _ _ _ _ Hwf x Hx) as [j ?]. exists j. auto.
Qed.
End Refinement.

Section Contract.
Context {S : Type} `{PageAlloc S}.
Implicit Types (s : slice S) (own : gmap Z nat) (live : gset Z).

(** The allocator starts empty whatever pages it will draw from. *)
Lemma init_wf s off :
  pa_wf (pages s) -> hhdm_ok off -> class_shape <$> classes s = (fun n => (n, 16)) <$> class_sizes ->
  slice_wf (init off s) ∅ (fun _ => []) ∅.
Proof.
  intros Hp Hh Hs. split; try done.
  - cbn [init classes]. rewrite <- list_fmap_compose. exact Hs.
  - cbn [init classes]. intros i c Hc. apply list_lookup_fmap_Some in Hc as (c' & -> & _). done.
  - intros i x Hx. by apply elem_of_nil in Hx.
  - intros. constructor.
Qed.

Lemma class_lookup s own frees live i n :
  slice_wf s own frees live -> class_sizes !! i = Some n -> exists c, classes s !! i = Some c.
Proof.
  intros Hwf Hi. pose proof (w_shape _ _ _ _ Hwf) as Hs.
  apply (f_equal (.!! i)) in Hs. rewrite !list_lookup_fmap, Hi in Hs.
  destruct (classes s !! i); [by eexists|done].
Qed.

Lemma slice_alloc_cases s own frees live size alignment i n :
  slice_wf s own frees live ->
  class_for classes0 size alignment = Some i -> class_sizes !! i = Some n ->
  let r := alloc size alignment s in
  (r.1 = 0 /\ slice_wf r.2 own frees live)
  \/ (exists own' frees', slice_wf r.2 own' frees' ({[r.1]} ∪ live) /\ own ⊆ own'
      /\ slice_ptr (hhdm s) own' r.1 i
      /\ 0 < r.1 /\ r.1 mod 16 = 0 /\ size <= n
      /\ forall y j m, y ∈ live -> slice_ptr (hhdm s) own' y j -> class_sizes !! j = Some m ->
           r.1 + n <= y \/ y + m <= r.1).
Proof.
  intros Hwf Hcf Hn r. subst r. unfold alloc.
  rewrite (wf_class_for _ _ _ _ size alignment Hwf), Hcf.
  destruct (class_lookup _ _ _ _ _ _ Hwf Hn) as [c Hc]. rewrite Hc.
  assert (size <= n) as Hsize.
  { unfold class_for in Hcf. case_match; [done|].
    apply find_class_spec in Hcf as (j & c0 & -> & Hj & Hr & _).
    unfold classes0 in Hj. apply list_lookup_fmap_Some in Hj as (n0 & -> & Hn0).
    cbn in Hn, Hr. simplify_eq. unfold sizeof_FreeSlice in *. case_bool_in Hr; lia. }
  assert (forall s' own' frees' c' p l,
    slice_wf s' own' frees' live -> classes s' !! i = Some c' -> frees' i = p :: l ->
    own ⊆ own' -> hhdm s' = hhdm s ->
    exists own'' frees'', slice_wf (pop_slice i c' s').2 own'' frees''
        ({[(pop_slice i c' s').1]} ∪ live) /\ own ⊆ own''
      /\ slice_ptr (hhdm s) own'' (pop_slice i c' s').1 i
      /\ 0 < (pop_slice i c' s').1 /\ (pop_slice i c' s').1 mod 16 = 0 /\ size <= n
      /\ forall y j m, y ∈ live -> slice_ptr (hhdm s) own'' y j -> class_sizes !! j = Some m ->
           (pop_slice i c' s').1 + n <= y \/ y + m <= (pop_slice i c' s').1) as Hpop.
  { intros s' own' frees' c' p l Hwf' Hc' Hf' Hsub Hhh.
    destruct (pop_slice_wf s' own' frees' live i c' p l Hwf' Hc' Hf') as (-> & Hw & Hpl & Hsp).
    rewrite Hhh in Hsp. exists own', (upd_frees frees' i l).
    pose proof (w_hhdm _ _ _ _ Hwf) as Hh.
    split_and!; [done..| | | |].
    - by eapply slice_ptr_pos.
    - eapply slice_ptr_align; [|done]. by destruct Hh.
    - done.
    - intros y j m Hy Hyj Hm. eapply slice_ptr_disjoint; [done|done| |done|done].
      intros ->. done. }
  destruct (w_chain _ _ _ _ Hwf i c Hc) as [Hch _].
  destruct (sc_free_list c =? 0) eqn:E; bool_to_prop.
  - assert (frees i = []) as Hf.
    { destruct (frees i); [done|]. destruct Hch as (? & ? & _). congruence. }
    destruct (grow_class_wf s own frees live i c Hwf Hc Hf) as [[E1 Hw]|[E1 Hg]];
      destruct (grow_class i c s) as [ok s']; cbn [fst snd] in *; subst ok; cbn [negb].
    + by left.
    + right. destruct Hg as (own' & l & c' & Hl & Hsub & Hc' & Hhh & Hw). rewrite Hc'.
      destruct l as [|p l]; [done|]. eapply Hpop; [done|done| |done|done].
      unfold upd_frees. by rewrite decide_True.
  - right. destruct (chain_nonempty _ _ _ Hch E) as (l & Hf & _). by eapply Hpop.
Qed.

(** C23. Slices handed out never overlap.  On a well-formed slice allocator, a
    request that fits a class is either refused because no page is left, with
    the same slices free and live as before; or it returns a fresh slice that
    is 16-byte aligned, at least as large as the request, becomes live, and
    shares no byte with any slice that was live. *)
Theorem slice_alloc_spec s own frees live size alignment i n :
  slice_wf s own frees live ->
  class_for classes0 size alignment = Some i -> class_sizes !! i = Some n ->
  let r := alloc size alignment s in
  (r.1 = 0 /\ slice_wf r.2 own frees live)
  \/ (exists own' frees', slice_wf r.2 own' frees' ({[r.1]} ∪ live) /\ own ⊆ own'
      /\ slice_ptr (hhdm s) own' r.1 i
      /\ 0 < r.1 /\ r.1 mod 16 = 0 /\ size <= n
      /\ forall y j m, y ∈ live -> slice_ptr (hhdm s) own' y j -> class_sizes !! j = Some m ->
           r.1 + n <= y \/ y + m <= r.1).
Proof. apply slice_alloc_cases. Qed.

Lemma slice_free_cases s own frees live p size i :
  slice_wf s own frees live -> p ∈ live -> slice_ptr (hhdm s) own p i ->
  class_for classes0 size 8 = Some i ->
  slice_wf (free p size s) own (upd_frees frees i (p :: frees i)) (live ∖ {[p]}).
Proof.
  intros Hwf Hp Hsp Hcf. pose proof (slice_ptr_pos _ _ _ _ (w_hhdm _ _ _ _ Hwf) Hsp) as Hpos.
  pose proof Hsp as (n & _ & _ & Hn & _).
  destruct (class_lookup _ _ _ _ _ _ Hwf Hn) as [c Hc].
  destruct (w_chain _ _ _ _ Hwf i c Hc) as [Hch Hcnt].
  assert (forall j, p ∉ frees j) as Hpf.
  { intros j Hj. by apply (w_free _ _ _ _ Hwf) in Hj as [_ ?]. }
  unfold free. replace (p =? 0) with false by lia.
  rewrite (wf_class_for _ _ _ _ size 8 Hwf), Hcf, Hc.
  split; cbn; try apply Hwf.
  - by eapply shape_insert.
  - intros j c' Hj. unfold upd_frees. apply list_insert_cases in Hj; [|by eexists].
    destruct Hj as [[-> ->]|[Hne Hj]]; cbn [set_free_list sc_free_list sc_free_slices].
    + rewrite decide_True by done. split; [apply chain_push; [lia|done|done]|].
      rewrite Hcnt. cbn [length]. unfold wrap. rewrite Zplus_mod_idemp_l. f_equal. lia.
    + rewrite decide_False by done. destruct (w_chain _ _ _ _ Hwf j c' Hj).
      split; [by apply chain_aset|done].
  - intros j x. unfold upd_frees. case_decide as Hd.
    + subst j. rewrite elem_of_cons. intros [->|Hx].
      * split; [done|]. set_solver.
      * destruct (w_free _ _ _ _ Hwf i x Hx). split; [done|]. set_solver.
    + intros Hx. destruct (w_free _ _ _ _ Hwf j x Hx). split; [done|]. set_solver.
  - intros j. unfold upd_frees. case_decide; [|apply Hwf].
    apply NoDup_cons. split; [done|apply Hwf].
  - intros x Hx. apply (w_live _ _ _ _ Hwf). set_solver.
Qed.

(** Freeing a live slice with a size of its class makes it free again and
    keeps the allocator well-formed; no other slice is affected. *)
Theorem slice_free_spec s own frees live p size i :
  slice_wf s own frees live -> p ∈ live -> slice_ptr (hhdm s) own p i ->
  class_for classes0 size 8 = Some i ->
  slice_wf (free p size s) own (upd_frees frees i (p :: frees i)) (live ∖ {[p]}).
Proof. apply slice_free_cases. Qed.
End Contract.

(** * Concrete instances *)

Definition demo_slice : slice pmm :=
  init 0xffff800000000000 (Slice (afill 0) classes0 (Build_SliceStats 0 0 0 0) 0 demo_pmm).

Lemma demo_hhdm_ok : hhdm_ok 0xffff800000000000.
Proof. split; [done|reflexivity|]. vm_compute. discriminate. Qed.

Lemma demo_slice_wf : slice_wf demo_slice ∅ (fun _ => []) ∅.
Proof. apply init_wf; [apply demo_pmm_wf|apply demo_hhdm_ok|reflexivity]. Qed.

Lemma slice_alloc_spec_witness :
  (alloc 40 8 demo_slice).1 <> 0
  /\ exists own frees, slice_wf (alloc 40 8 demo_slice).2 own frees ({[(alloc 40 8 demo_slice).1]} ∪ ∅).
Proof.
  assert ((alloc 40 8 demo_slice).1 <> 0) as E by (vm_compute; discriminate).
  destruct (slice_alloc_spec demo_slice ∅ (fun _ => []) ∅ 40 8 2 64 demo_slice_wf)
    as [[H _]|(own & frees & Hw & _)]; [reflexivity|reflexivity|exfalso; exact (E H)|].
  split; [exact E|]. exists own, frees. exact Hw.
Defined.

Lemma slice_free_spec_witness :
  exists own frees,
    slice_wf (free (alloc 40 8 demo_slice).1 40 (alloc 40 8 demo_slice).2) own frees
      (({[(alloc 40 8 demo_slice).1]} ∪ ∅) ∖ {[(alloc 40 8 demo_slice).1]}).
Proof.
  assert ((alloc 40 8 demo_slice).1 <> 0) as E by (vm_compute; discriminate).
  destruct (slice_alloc_cases demo_slice ∅ (fun _ => []) ∅ 40 8 2 64 demo_slice_wf)
    as [[H _]|(own & frees & Hw & _ & Hsp & _)]; [reflexivity|reflexivity|exfalso; exact (E H)|].
  assert (hhdm (alloc 40 8 demo_slice).2 = hhdm demo_slice) as Hh by (vm_compute; reflexivity).
  eexists own, _. apply (slice_free_spec _ own frees _ _ 40 2 Hw); [set_solver| |reflexivity].
  rewrite Hh. exact Hsp.
Defined.
