(* ===== verification/DList.v ===== *)
(** Null-terminated doubly linked lists with a head and a tail pointer.

    The kernel links its structures this way four times: the list of all
    tasks and the ready queue ([task.cpp]), the children of a process and the
    list of all processes ([process.cpp]).  The [next] and [prev] fields of
    the structures are two arrays indexed by the structure's address; 0 is
    the null pointer.  The operations below are those code sequences, and
    each is shown to implement its list counterpart. *)

From S2P Require Import Prelude.

Record dlist := DL { head : Z; tail : Z; nxt : arr Z; prv : arr Z }.

Definition dl_empty (d : dlist) : dlist := DL 0 0 (nxt d) (prv d).

(** Append: the new node's links, then the old tail's [next] or the head. *)
Definition dl_push_back (d : dlist) (t : Z) : dlist :=
  let nx := aset (nxt d) t 0 in
  let pv := aset (prv d) t (tail d) in
  if negb (tail d =? 0)
  then DL (head d) t (aset nx (tail d) t) pv
  else DL t t nx pv.

(** Detach the head and clear its links; 0 when the list is empty. *)
Definition dl_pop_front (d : dlist) : Z * dlist :=
  let t := head d in
  if t =? 0 then (0, d)
  else
    let h := aget (nxt d) t in
    let '(tl, pv) :=
      if negb (h =? 0) then (tail d, aset (prv d) h 0) else (0, prv d) in
    (t, DL h tl (aset (nxt d) t 0) (aset pv t 0)).

(** Unlink a node wherever it is and clear its links. *)
Definition dl_remove (d : dlist) (t : Z) : dlist :=
  let p := aget (prv d) t in
  let '(hd, nx) :=
    if negb (p =? 0) then (head d, aset (nxt d) p (aget (nxt d) t))
    else (aget (nxt d) t, nxt d) in
  let n := aget nx t in
  let '(tl, pv) :=
    if negb (n =? 0) then (tail d, aset (prv d) n (aget (prv d) t))
    else (aget (prv d) t, prv d) in
  DL hd tl (aset nx t 0) (aset pv t 0).

(** * Representation *)

Definition hd_or (l : list Z) (d : Z) : Z := match l with [] => d | x :: _ => x end.
Fixpoint last_or (l : list Z) (d : Z) : Z := match l with [] => d | x :: l => last_or l x end.

(** The links of the segment [l], between [before] and [after]. *)
Fixpoint dseg (nx pv : arr Z) (before : Z) (l : list Z) (after : Z) : Prop :=
  match l with
  | [] => True
  | x :: l => aget pv x = before /\ aget nx x = hd_or l after /\ dseg nx pv x l after
  end.

Record dl_rep (d : dlist) (l : list Z) : Prop := {
  rep_head : head d = hd_or l 0;
  rep_tail : tail d = last_or l 0;
  rep_nodup : NoDup l;
  rep_nonnull : 0 ∉ l;
  rep_links : dseg (nxt d) (prv d) 0 l 0;
}.

Lemma hd_or_app l k d : hd_or (l ++ k) d = hd_or l (hd_or k d).
Proof. by destruct l. Qed.

Lemma last_or_app l k d : last_or (l ++ k) d = last_or k (last_or l d).
Proof. revert d. induction l; cbn; auto. Qed.

Lemma dseg_app nx pv b l k a :
  dseg nx pv b (l ++ k) a <-> dseg nx pv b l (hd_or k a) /\ dseg nx pv (last_or l b) k a.
Proof.
  revert b. induction l as [|x l IH]; intros b; cbn; [tauto|].
  rewrite IH, hd_or_app. tauto.
Qed.

Lemma dseg_set_next nx pv b l a x v : x ∉ l -> dseg nx pv b l a -> dseg (aset nx x v) pv b l a.
Proof.
  revert b. induction l as [|y l IH]; intros b Hx; cbn; [done|].
  apply not_elem_of_cons in Hx as [Hxy Hx]. intros (? & ? & ?).
  rewrite aget_aset_ne by done. auto.
Qed.

Lemma dseg_set_prev nx pv b l a x v : x ∉ l -> dseg nx pv b l a -> dseg nx (aset pv x v) b l a.
Proof.
  revert b. induction l as [|y l IH]; intros b Hx; cbn; [done|].
  apply not_elem_of_cons in Hx as [Hxy Hx]. intros (? & ? & ?).
  rewrite aget_aset_ne by done. auto.
Qed.

#[export] Hint Resolve dseg_set_next dseg_set_prev : tori.

Lemma dseg_ext nx pv nx' pv' b l a :
  (forall x, x ∈ l -> aget nx' x = aget nx x /\ aget pv' x = aget pv x) ->
  dseg nx pv b l a -> dseg nx' pv' b l a.
Proof.
  revert b. induction l as [|x l IH]; intros b Hext; cbn; [done|].
  intros (Hp & Hn & Hl). destruct (Hext x) as [-> ->]; [by apply elem_of_cons; left|].
  split_and!; [done|done|]. apply IH; [|done]. intros y Hy. apply Hext. by apply elem_of_cons; right.
Qed.

Lemma dl_rep_empty d : dl_rep (dl_empty d) [].
Proof. split; cbn; [done..|constructor|by intros ?%elem_of_nil|done]. Qed.

Lemma last_or_nonnull l : 0 ∉ l -> l <> [] -> last_or l 0 <> 0.
Proof.
  intros Hl Hne. destruct l as [|x l] using rev_ind; [done|].
  rewrite last_or_app. cbn. intros ->. apply Hl, elem_of_app. right. by apply list_elem_of_singleton.
Qed.

(** Appending to the list. *)
Lemma dl_push_back_rep d l t :
  dl_rep d l -> t <> 0 -> t ∉ l -> dl_rep (dl_push_back d t) (l ++ [t]).
Proof.
  intros [Hh Ht Hnd Hn0 Hl] Ht0 Htl. unfold dl_push_back.
  assert (NoDup (l ++ [t])) as Hnd'.
  { apply NoDup_app. split_and!; [done| |apply NoDup_singleton].
    intros x Hx ->%list_elem_of_singleton. done. }
  assert (0 ∉ l ++ [t]) as H0'.
  { rewrite elem_of_app, list_elem_of_singleton. intros [?|?]; congruence. }
  destruct (tail d =? 0) eqn:E; bool_to_prop; cbn [negb].
  - destruct (decide (l = [])) as [->|Hne].
    + split; cbn; try done. by rewrite !aget_aset_eq.
    + exfalso. apply (last_or_nonnull l Hn0 Hne). congruence.
  - destruct l as [|y l _] using rev_ind; [by rewrite Ht in E|].
    rewrite last_or_app in Ht. cbn in Ht. rewrite Ht in *.
    apply dseg_app in Hl as [Hl1 Hl2]. cbn in Hl1, Hl2.
    apply NoDup_app in Hnd as (_ & Hyl & _).
    assert (y ∉ l) as Hy by (intros Hy; apply (Hyl y Hy); by apply list_elem_of_singleton).
    rewrite elem_of_app, list_elem_of_singleton in Htl.
    split; cbn [head tail nxt prv]; try done.
    + rewrite Hh, !hd_or_app. by destruct l.
    + by rewrite last_or_app.
    + rewrite !dseg_app. cbn. split_and!; try done.
      * repeat apply dseg_set_next; [naive_solver..|]. apply dseg_set_prev; naive_solver.
      * aget_solve.
      * aget_solve.
      * rewrite last_or_app. aget_solve.
      * aget_solve.
Qed.

(** Taking the first element; the empty list yields the null pointer. *)
Lemma dl_pop_front_nil d : dl_rep d [] -> dl_pop_front d = (0, d).
Proof. intros [Hh _ _ _ _]. unfold dl_pop_front. by rewrite Hh. Qed.

Lemma dl_pop_front_rep d t l :
  dl_rep d (t :: l) ->
  (dl_pop_front d).1 = t /\ dl_rep (dl_pop_front d).2 l.
Proof.
  intros [Hh Ht Hnd Hn0 Hl]. cbn in Hh, Ht, Hl. destruct Hl as (Hp & Hn & Hl).
  apply not_elem_of_cons in Hn0 as [Ht0 Hn0]. apply NoDup_cons in Hnd as [Htl Hnd].
  unfold dl_pop_front. rewrite Hh. replace (t =? 0) with false by lia. rewrite Hn.
  destruct l as [|y l]; cbn [hd_or] in *.
  - split; [done|]. split; cbn; done.
  - apply not_elem_of_cons in Hn0 as [Hy0 Hn0]. apply NoDup_cons in Hnd as [Hyl Hnd].
    apply not_elem_of_cons in Htl as [Hty Htl].
    replace (y =? 0) with false by lia. cbn [negb]. split; [done|].
    cbn in Hl. destruct Hl as (Hyp & Hyn & Hl).
    split; cbn [fst snd head tail nxt prv]; try done.
    + by apply NoDup_cons.
    + by apply not_elem_of_cons.
    + cbn. split_and!; [aget_solve|aget_solve|]. auto with tori.
Qed.

(** Unlinking an element from the middle, the front or the back. *)
Lemma dl_remove_rep d l k t :
  dl_rep d (l ++ t :: k) -> dl_rep (dl_remove d t) (l ++ k).
Proof.
  intros [Hh Ht Hnd Hn0 Hl]. apply dseg_app in Hl as [Hl Hk]. cbn in Hl, Hk.
  destruct Hk as (Hp & Hn & Hk). rewrite last_or_app in Ht. cbn in Ht.
  apply NoDup_app in Hnd as (Hndl & Hlk & Hndk). apply NoDup_cons in Hndk as [Htk Hndk].
  assert (t ∉ l) as Htl by (intros Hin; apply (Hlk t Hin); by apply elem_of_cons; left).
  assert (forall x, x ∈ l -> x ∉ k) as Hdis
    by (intros x Hx ?; apply (Hlk x Hx); by apply elem_of_cons; right).
  rewrite elem_of_app, elem_of_cons in Hn0.
  assert (NoDup (l ++ k)) as Hnd' by (apply NoDup_app; auto).
  assert (0 ∉ l ++ k) as H0' by (rewrite elem_of_app; tauto).
  unfold dl_remove. rewrite Hp.
  assert ((last_or l 0 =? 0) = true /\ l = [] \/
          (last_or l 0 =? 0) = false /\ exists l' y, l = l' ++ [y]) as Hcase.
  { destruct l as [|y l' _] using rev_ind; [by left|right]. rewrite last_or_app. cbn.
    split; [|by eauto]. apply Z.eqb_neq. intros ->. apply Hn0. left.
    apply elem_of_app. right. by apply list_elem_of_singleton. }
  destruct Hcase as [[-> ->]|[-> (l' & y & ->)]]; cbn [negb].
  - cbn [app hd_or last_or] in *. rewrite Hn.
    destruct k as [|z k]; cbn [hd_or] in *.
    + split; cbn; done.
    + replace (z =? 0) with false by (symmetry; apply Z.eqb_neq; set_solver). cbn [negb].
      cbn in Hk. destruct Hk as (Hz1 & Hz2 & Hk).
      apply not_elem_of_cons in Htk as [Htz Htk]. apply NoDup_cons in Hndk as [Hzk Hndk].
      split; cbn [head tail nxt prv]; try done.
      cbn. split_and!; [aget_solve|aget_solve|auto with tori].
  - rewrite last_or_app in *. cbn [last_or] in *. rewrite hd_or_app in Hh.
    apply dseg_app in Hl as [Hl' Hy]. cbn in Hy, Hl'.
    assert (y <> t) as Hyt by set_solver.
    assert (y ∉ l') as Hyl'.
    { apply NoDup_app in Hndl as (_ & H & _). intros Hin. apply (H y Hin). set_solver. }
    assert (forall x, x ∈ l' -> x <> t) as Hl't by set_solver.
    rewrite aget_aset_ne by congruence. rewrite Hn.
    destruct k as [|z k]; cbn [hd_or] in *.
    + cbn [negb Z.eqb]. split; cbn [head tail nxt prv]; try done.
      * rewrite Hh, app_nil_r, hd_or_app. by destruct l'.
      * by rewrite app_nil_r, last_or_app.
      * rewrite app_nil_r, dseg_app. cbn. split_and!; [|aget_solve..|done].
        apply dseg_set_next; [set_solver|]. apply dseg_set_next; [done|].
        apply dseg_set_prev; [set_solver|done].
    + replace (z =? 0) with false by (symmetry; apply Z.eqb_neq; set_solver). cbn [negb].
      cbn in Hk. destruct Hk as (Hz1 & Hz2 & Hk).
      apply not_elem_of_cons in Htk as [Htz Htk]. apply NoDup_cons in Hndk as [Hzk Hndk].
      assert (z <> y /\ z ∉ l' /\ y ∉ k) as (Hzy & Hzl' & Hyk) by set_solver.
      split; cbn [head tail nxt prv]; try done.
      * rewrite Hh, !hd_or_app. by destruct l'.
      * by rewrite !last_or_app.
      * rewrite !dseg_app. cbn [dseg hd_or last_or]. rewrite !last_or_app. cbn [last_or].
        split_and!; [|aget_solve|aget_solve|done|aget_solve|aget_solve|].
        -- apply dseg_set_next; [set_solver|]. apply dseg_set_next; [done|].
           apply dseg_set_prev; [set_solver|]. by apply dseg_set_prev.
        -- auto 6 with tori.
Qed.

(** Nodes outside the list keep their links. *)
Lemma dl_push_back_frame d t x :
  x <> t -> x <> tail d ->
  aget (nxt (dl_push_back d t)) x = aget (nxt d) x
  /\ aget (prv (dl_push_back d t)) x = aget (prv d) x.
Proof. intros. unfold dl_push_back. by case_match; cbn; split; aget_solve. Qed.

Lemma last_or_mem l d : l = [] /\ last_or l d = d \/ last_or l d ∈ l.
Proof.
  destruct l as [|x l _] using rev_ind; [by left|right]. rewrite last_or_app. cbn.
  apply elem_of_app. right. by apply list_elem_of_singleton.
Qed.

Lemma hd_or_mem l d : l = [] /\ hd_or l d = d \/ hd_or l d ∈ l.
Proof. destruct l; [by left|right]. apply elem_of_cons. by left. Qed.

Lemma dl_push_back_rep_frame d l t x :
  dl_rep d l -> x <> t -> x ∉ l ->
  aget (nxt (dl_push_back d t)) x = aget (nxt d) x
  /\ aget (prv (dl_push_back d t)) x = aget (prv d) x.
Proof.
  intros [_ Ht _ H0 _] Hxt Hx. unfold dl_push_back. destruct (Z.eqb_spec (tail d) 0) as [|Hne]; cbn; [split; aget_solve|].
  destruct (last_or_mem l 0) as [[_ Hl]|Hl]; [congruence|]. rewrite <- Ht in Hl.
  assert (x <> tail d) by congruence. split; aget_solve.
Qed.

Lemma dl_remove_frame d l t k x :
  dl_rep d (l ++ t :: k) -> x ∉ l ++ t :: k ->
  aget (nxt (dl_remove d t)) x = aget (nxt d) x
  /\ aget (prv (dl_remove d t)) x = aget (prv d) x.
Proof.
  intros [_ _ _ H0 Hl] Hx. apply dseg_app in Hl as [_ Hk]. cbn in Hk. destruct Hk as (Hp & Hn & _).
  rewrite elem_of_app, elem_of_cons in Hx, H0.
  unfold dl_remove. rewrite Hp.
  destruct (Z.eqb_spec (last_or l 0) 0) as [E|E]; cbn [negb].
  - rewrite Hn. destruct (Z.eqb_spec (hd_or k 0) 0) as [E'|E']; cbn; [split; aget_solve|].
    destruct (hd_or_mem k 0) as [[_ ?]|?]; [congruence|]. assert (x <> hd_or k 0) by naive_solver. split; aget_solve.
  - destruct (last_or_mem l 0) as [[_ ?]|Hlast]; [congruence|].
    assert (x <> last_or l 0) by naive_solver.
    set (n := aget (aset (nxt d) (last_or l 0) (aget (nxt d) t)) t).
    assert (n = 0 \/ n <> x) as Hnx.
    { subst n. rewrite aget_aset, Hn. case_decide; destruct (hd_or_mem k 0) as [[_ ?]|?]; [by left| |by left|]; right; naive_solver. }
    destruct (Z.eqb_spec n 0) as [E'|E']; cbn; [split; aget_solve|]. destruct Hnx as [?|Hnx]; [done|]. split; aget_solve.
Qed.

(** Following [next] from a node of the list: the elements after it. *)
Fixpoint walk (fuel : nat) (nx : arr Z) (p : Z) : list Z :=
  match fuel with
  | O => []
  | S fuel => if p =? 0 then [] else p :: walk fuel nx (aget nx p)
  end.

Lemma walk_dseg nx pv b l fuel :
  dseg nx pv b l 0 -> 0 ∉ l -> (length l < fuel)%nat -> walk fuel nx (hd_or l 0) = l.
Proof.
  revert b fuel. induction l as [|x l IH]; intros b [|fuel] Hl H0 Hf; cbn in *; try lia; try done.
  apply not_elem_of_cons in H0 as [Hx0 H0]. destruct Hl as (_ & Hn & Hl).
  replace (x =? 0) with false by lia. f_equal. rewrite Hn. eapply IH; [done|done|lia].
Qed.

(** The list a structure represents is unique. *)
Lemma dl_rep_fun d l l' : dl_rep d l -> dl_rep d l' -> l = l'.
Proof.
  intros [Hh _ _ H0 Hl] [Hh' _ _ H0' Hl'].
  rewrite <- (walk_dseg _ _ _ _ (S (length l + length l')) Hl H0) by lia.
  rewrite <- Hh, Hh'. apply (walk_dseg _ _ _ _ _ Hl' H0'). lia.
Qed.
