(* ===== verification/KAlloc.v ===== *)
(** What the kernel allocator ([kalloc], [kfree] and the page allocator behind
    them) promises to its clients, and the slice allocator as an instance.

    A client sees the set of objects it holds, each with the size it asked
    for: an allocation returns null or an address that is not held, and
    freeing an object with its size releases exactly that object. *)

From S2P Require Import Prelude MemoryMap Pmm PageAlloc Slice.

Class KernelAlloc (A : Type) := {
  (** [ka_wf a live]: the clients of [a] hold the objects [live]. *)
  ka_wf : A -> gmap Z Z -> Prop;
  kalloc : A -> Z -> Z -> Z * A;
  kfree : A -> Z -> Z -> A;
  ka_alloc_pages : A -> Z -> Z * A;
  kalloc_law : forall a live size alignment, ka_wf a live -> 0 < size ->
    let r := kalloc a size alignment in
    (r.1 = 0 /\ ka_wf r.2 live)
    \/ (0 < r.1 < 2 ^ 64 /\ live !! r.1 = None /\ ka_wf r.2 (<[r.1 := size]> live));
  kfree_law : forall a live p size, ka_wf a live -> live !! p = Some size ->
    ka_wf (kfree a p size) (delete p live);
  ka_pages_law : forall a live n, ka_wf a live -> 0 < n <= max_managed_pages ->
    ka_wf (ka_alloc_pages a n).2 live;
}.

(** * The slice allocator behind the interface *)

Definition slice_ka_wf {S} `{PageAlloc S} (s : slice S) (live : gmap Z Z) : Prop :=
  exists own frees, slice_wf s own frees (dom live)
    /\ forall p size, live !! p = Some size ->
         exists i, slice_ptr (hhdm s) own p i /\ class_for classes0 size 8 = Some i.

Definition slice_alloc_pages {S} `{PageAlloc S} (s : slice S) (n : Z) : Z * slice S :=
  let '(r, ps) := pa_alloc (pages s) n in
  (r, Slice.Slice (mem s) (classes s) (slice_stats s) (hhdm s) ps).

(** Every class is 16-byte aligned: the class only depends on the size. *)
Lemma find_class_align required alignment l k :
  alignment <= 16 ->
  find_class required alignment ((fun n => Build_SizeClass n 16 0 0 0 0) <$> l) k
  = find_class required 8 ((fun n => Build_SizeClass n 16 0 0 0 0) <$> l) k.
Proof.
  intros Ha. revert k. induction l as [|n l IH]; intros k; cbn; [done|].
  replace (alignment <=? 16) with true by lia. by rewrite IH.
Qed.

Lemma class_for_align size alignment i :
  class_for classes0 size alignment = Some i -> class_for classes0 size 8 = Some i.
Proof.
  unfold class_for. destruct (size =? 0); cbn [orb]; [done|].
  destruct (is_power_of_two alignment); cbn [negb]; [|done].
  change (is_power_of_two 8) with true. cbn [negb]. intros Hf.
  pose proof Hf as (j & c & _ & Hc & _ & Ha & _)%find_class_spec.
  unfold classes0 in *. apply list_lookup_fmap_Some in Hc as (n & -> & _). cbn in Ha.
  by rewrite find_class_align in Hf.
Qed.

Lemma class_for_lookup size alignment i :
  class_for classes0 size alignment = Some i -> exists n, class_sizes !! i = Some n.
Proof.
  unfold class_for. case_match; [done|]. intros (j & c & -> & Hc & _)%find_class_spec.
  unfold classes0 in Hc. apply list_lookup_fmap_Some in Hc as (n & -> & ?). by exists n.
Qed.

Lemma alloc_none {S} `{PageAlloc S} (s : slice S) own frees live size alignment :
  slice_wf s own frees live -> class_for classes0 size alignment = None ->
  alloc size alignment s = (0, count_failure s).
Proof.
  intros Hwf Hc. unfold alloc. by rewrite (wf_class_for _ _ _ _ size alignment Hwf), Hc.
Qed.

Lemma hhdm_grow_class {S} `{PageAlloc S} (s : slice S) i c :
  hhdm (grow_class i c s).2 = hhdm s.
Proof. unfold grow_class. by repeat case_match. Qed.

Lemma hhdm_alloc {S} `{PageAlloc S} (s : slice S) size alignment :
  hhdm (alloc size alignment s).2 = hhdm s.
Proof.
  unfold alloc. destruct (class_for _ _ _) as [i|]; [|done].
  destruct (classes s !! i) as [c|]; [|done]. destruct (_ =? 0); [|done].
  pose proof (hhdm_grow_class s i c). destruct (grow_class i c s) as [[] s']; [|done].
  cbn. by destruct (classes s' !! i).
Qed.

#[export, refine] Instance slice_kernel_alloc {S} `{PageAlloc S} : KernelAlloc (slice S) := {|
  ka_wf := slice_ka_wf;
  kalloc a size alignment := alloc size alignment a;
  kfree a p size := free p size a;
  ka_alloc_pages := slice_alloc_pages;
|}.
Proof.
  - intros s live size alignment (own & frees & Hwf & Hlive) Hs r. subst r.
    destruct (class_for classes0 size alignment) as [i|] eqn:Hc.
    + destruct (class_for_lookup _ _ _ Hc) as [n Hn].
      destruct (slice_alloc_cases s own frees (dom live) size alignment i n Hwf Hc Hn)
        as [[H1 H2]|(own' & frees' & Hw & Hsub & Hsp & Hpos & _ & _ & Hdis)].
      * left. split; [done|]. exists own, frees. split; [done|]. intros p sz Hp.
        rewrite hhdm_alloc. auto.
      * right. set (p := (alloc size alignment s).1) in *.
        assert (live !! p = None) as Hnone.
        { apply not_elem_of_dom. intros Hin.
          destruct (Hdis p i n Hin Hsp Hn); destruct (class_sizes_range i n Hn) as ((? & ?) & _); lia. }
        split; [pose proof (slice_ptr_pos _ _ _ _ (w_hhdm _ _ _ _ Hwf) Hsp); lia|].
        split; [done|]. exists own', frees'. rewrite dom_insert_L. split; [done|].
        intros q sz. rewrite hhdm_alloc, lookup_insert. case_decide as Hd.
        -- intros [= <-]. subst q. exists i. split; [done|]. by eapply class_for_align.
        -- intros Hq. destruct (Hlive q sz Hq) as (j & Hj & ?). exists j.
           split; [by eapply slice_ptr_mono|done].
    + left. rewrite (alloc_none _ own frees (dom live)) by done. split; [done|].
      exists own, frees. split; [by apply count_failure_wf|done].
  - intros s live p size (own & frees & Hwf & Hlive) Hp.
    destruct (Hlive p size Hp) as (i & Hsp & Hc).
    exists own, (upd_frees frees i (p :: frees i)). rewrite dom_delete_L.
    assert (hhdm (free p size s) = hhdm s) as Hh by (unfold free; repeat (case_match; try done)).
    split; [apply slice_free_cases; [done|by apply elem_of_dom|done|done]|].
    intros q sz [Hne Hq]%lookup_delete_Some. rewrite Hh. auto.
  - intros s live n (own & frees & Hwf & Hlive) Hn. unfold slice_alloc_pages.
    pose proof (pa_alloc_law (pages s) n (w_pages _ _ _ _ Hwf) Hn) as Hlaw.
    destruct (pa_alloc (pages s) n) as [r ps]. cbn [fst snd] in *.
    exists own, frees. split; [|done].
    destruct Hlaw as [(page & _ & _ & _ & _ & Hps & Hu)|[= -> ->]]; [|by destruct s].
    destruct Hwf. split; cbn; try done. intros q i Hq. rewrite Hu. by rewrite (w_own q i Hq).
Defined.
