(* ===== verification/Task.v ===== *)
(** Tasks and the scheduler: [task.cpp], [task.hpp], [sched.hpp], and the
    per-CPU entry stack of [gdt.cpp].

    A task is identified by the address of its [Task]; the list of all tasks
    and the ready queue are the linked lists of [DList.v] over the link
    fields of the tasks.  The code runs with the identifier of the executing
    CPU, the clock, the kernel page table and the stack pointer as inputs
    ([env]).  A context switch is the value an operation returns: control
    leaves the operation and the caller of the model chooses what the next
    task does. *)

From S2P Require Import Prelude MemoryMap Pmm PageAlloc Slice KAlloc DList.

Definition CONFIG_MAX_CPUS : Z := 128.
Definition CONFIG_KERNEL_STACK_SIZE : Z := 16384.

Inductive TaskState := Ready | Running | Blocked | Dead.

#[export] Instance TaskState_eq_dec : EqDecision TaskState.
Proof. solve_decision. Defined.

Record KernelStack := {
  stk_base : Z;
  stk_top : Z;
  stk_physical_page : Z;
  stk_page_count : Z;
}.

(** The link fields [next], [prev], [ready_next] and [ready_prev] are the
    arrays of the two lists below. *)
Record Task := {
  t_id : Z;
  t_name : list Z;
  t_state : TaskState;
  t_stack : KernelStack;
  t_context : Z;
  t_entry : Z;
  t_arg : Z;
  t_creation_time : Z;
  t_thread : Z;
  t_cr3 : Z;
}.

(** sizeof(Task), alignof(Task), sizeof(Task::name) *)
Definition sizeof_Task : Z := 160.
Definition alignof_Task : Z := 8.
Definition name_len : nat := 32.

Record PerCPU := {
  cpu_stack : Z;
  syscall_rsp : Z;
  tss_rsp0 : Z;
}.

(** The inputs of the code that are not its own state: [lapic::id()],
    [time::uptime_ms()], [vmm::kernel_pml4()], the address of
    [task_trampoline] and of [idle_entry], and the stack pointer that
    [context_switch] saves. *)
Record Env := {
  lapic_id : Z;
  uptime_ms : Z;
  kernel_pml4 : Z;
  task_trampoline : Z;
  idle_entry : Z;
  rsp : Z;
}.

(** How an operation that may reschedule ends: it returns to its caller, or
    loads the context and page table of another task, after saving the
    current one when there is one. *)
Inductive Switch :=
| Returns
| Jump (context cr3 : Z)
| SwitchTo (prev context cr3 : Z).

Record sched (A : Type) := Sched {
  tasks : arr Task;
  current_tasks : arr Z;
  all_tasks : dlist;
  next_task_id : Z;
  total_task_count : Z;
  idle_task : Z;
  need_reschedule : arr bool;
  scheduler_active : bool;
  global_ready_queue : dlist;
  percpu : arr PerCPU;
  stack_mem : arr Z;
  hhdm_offset : Z;
  kernel_heap : A;
}.
Arguments Sched {A}.
Arguments tasks {A}.
Arguments current_tasks {A}.
Arguments all_tasks {A}.
Arguments next_task_id {A}.
Arguments total_task_count {A}.
Arguments idle_task {A}.
Arguments need_reschedule {A}.
Arguments scheduler_active {A}.
Arguments global_ready_queue {A}.
Arguments percpu {A}.
Arguments stack_mem {A}.
Arguments hhdm_offset {A}.
Arguments kernel_heap {A}.

(** ** Assignments to single variables *)

Definition set_tasks {A} (f : arr Task -> arr Task) (s : sched A) : sched A :=
  Sched (f (tasks s)) (current_tasks s) (all_tasks s) (next_task_id s) (total_task_count s)
    (idle_task s) (need_reschedule s) (scheduler_active s) (global_ready_queue s)
    (percpu s) (stack_mem s) (hhdm_offset s) (kernel_heap s).
Definition set_current {A} (f : arr Z -> arr Z) (s : sched A) : sched A :=
  Sched (tasks s) (f (current_tasks s)) (all_tasks s) (next_task_id s) (total_task_count s)
    (idle_task s) (need_reschedule s) (scheduler_active s) (global_ready_queue s)
    (percpu s) (stack_mem s) (hhdm_offset s) (kernel_heap s).
Definition set_all {A} (d : dlist) (s : sched A) : sched A :=
  Sched (tasks s) (current_tasks s) d (next_task_id s) (total_task_count s)
    (idle_task s) (need_reschedule s) (scheduler_active s) (global_ready_queue s)
    (percpu s) (stack_mem s) (hhdm_offset s) (kernel_heap s).
Definition set_counters {A} (next_id count : Z) (s : sched A) : sched A :=
  Sched (tasks s) (current_tasks s) (all_tasks s) next_id count
    (idle_task s) (need_reschedule s) (scheduler_active s) (global_ready_queue s)
    (percpu s) (stack_mem s) (hhdm_offset s) (kernel_heap s).
Definition set_idle {A} (t : Z) (s : sched A) : sched A :=
  Sched (tasks s) (current_tasks s) (all_tasks s) (next_task_id s) (total_task_count s)
    t (need_reschedule s) (scheduler_active s) (global_ready_queue s)
    (percpu s) (stack_mem s) (hhdm_offset s) (kernel_heap s).
Definition set_need {A} (f : arr bool -> arr bool) (s : sched A) : sched A :=
  Sched (tasks s) (current_tasks s) (all_tasks s) (next_task_id s) (total_task_count s)
    (idle_task s) (f (need_reschedule s)) (scheduler_active s) (global_ready_queue s)
    (percpu s) (stack_mem s) (hhdm_offset s) (kernel_heap s).
Definition set_active {A} (b : bool) (s : sched A) : sched A :=
  Sched (tasks s) (current_tasks s) (all_tasks s) (next_task_id s) (total_task_count s)
    (idle_task s) (need_reschedule s) b (global_ready_queue s)
    (percpu s) (stack_mem s) (hhdm_offset s) (kernel_heap s).
Definition set_rq {A} (d : dlist) (s : sched A) : sched A :=
  Sched (tasks s) (current_tasks s) (all_tasks s) (next_task_id s) (total_task_count s)
    (idle_task s) (need_reschedule s) (scheduler_active s) d
    (percpu s) (stack_mem s) (hhdm_offset s) (kernel_heap s).
Definition set_percpu {A} (f : arr PerCPU -> arr PerCPU) (s : sched A) : sched A :=
  Sched (tasks s) (current_tasks s) (all_tasks s) (next_task_id s) (total_task_count s)
    (idle_task s) (need_reschedule s) (scheduler_active s) (global_ready_queue s)
    (f (percpu s)) (stack_mem s) (hhdm_offset s) (kernel_heap s).
Definition set_stack_mem {A} (f : arr Z -> arr Z) (s : sched A) : sched A :=
  Sched (tasks s) (current_tasks s) (all_tasks s) (next_task_id s) (total_task_count s)
    (idle_task s) (need_reschedule s) (scheduler_active s) (global_ready_queue s)
    (percpu s) (f (stack_mem s)) (hhdm_offset s) (kernel_heap s).
Definition set_heap {A} (a : A) (s : sched A) : sched A :=
  Sched (tasks s) (current_tasks s) (all_tasks s) (next_task_id s) (total_task_count s)
    (idle_task s) (need_reschedule s) (scheduler_active s) (global_ready_queue s)
    (percpu s) (stack_mem s) (hhdm_offset s) a.

Definition with_state (st : TaskState) (t : Task) : Task :=
  {| t_id := t_id t; t_name := t_name t; t_state := st; t_stack := t_stack t;
     t_context := t_context t; t_entry := t_entry t; t_arg := t_arg t;
     t_creation_time := t_creation_time t; t_thread := t_thread t; t_cr3 := t_cr3 t |}.
Definition with_context (c : Z) (t : Task) : Task :=
  {| t_id := t_id t; t_name := t_name t; t_state := t_state t; t_stack := t_stack t;
     t_context := c; t_entry := t_entry t; t_arg := t_arg t;
     t_creation_time := t_creation_time t; t_thread := t_thread t; t_cr3 := t_cr3 t |}.
Definition with_id (i : Z) (t : Task) : Task :=
  {| t_id := i; t_name := t_name t; t_state := t_state t; t_stack := t_stack t;
     t_context := t_context t; t_entry := t_entry t; t_arg := t_arg t;
     t_creation_time := t_creation_time t; t_thread := t_thread t; t_cr3 := t_cr3 t |}.

Definition task_at {A} (s : sched A) (t : Z) : Task := aget (tasks s) t.
Definition state_of {A} (s : sched A) (t : Z) : TaskState := t_state (task_at s t).
Definition update_task {A} (t : Z) (f : Task -> Task) (s : sched A) : sched A :=
  set_tasks (fun ts => aset ts t (f (aget ts t))) s.
Definition set_state {A} (t : Z) (st : TaskState) (s : sched A) : sched A :=
  update_task t (with_state st) s.

(** ** Names *)

Definition stack_pages : Z := 4.
Definition stack_size : Z := stack_pages * 4096.

(** The copying loop; reading past the characters of [src] gives its NUL. *)
Fixpoint copy_loop (n i : nat) (dest src : list Z) : list Z :=
  match n with
  | O => dest
  | S n =>
      let c := default 0 (src !! i) in
      let dest := <[i := c]> dest in
      if c =? 0 then dest else copy_loop n (S i) dest src
  end.

Definition copy_name (dest : list Z) (src : option (list Z)) (max_len : nat) : list Z :=
  match src with
  | None => <[0%nat := 0]> dest
  | Some src => <[(max_len - 1)%nat := 0]> (copy_loop (max_len - 1) 0 dest src)
  end.

(** ** Ready queue and task list *)

Definition list_add {A} (t : Z) (s : sched A) : sched A :=
  set_all (dl_push_back (all_tasks s) t) s.

Definition ready_queue_init {A} (s : sched A) : sched A :=
  set_rq (dl_empty (global_ready_queue s)) s.

Definition ready_queue_push {A} (t : Z) (s : sched A) : sched A :=
  set_rq (dl_push_back (global_ready_queue s) t) s.

Definition ready_queue_pop {A} (s : sched A) : Z * sched A :=
  let '(t, d) := dl_pop_front (global_ready_queue s) in (t, set_rq d s).

Definition ready_queue_remove {A} (t : Z) (s : sched A) : sched A :=
  set_rq (dl_remove (global_ready_queue s) t) s.

(** ** Current task *)

Definition current_task {A} (e : Env) (s : sched A) : Z :=
  if CONFIG_MAX_CPUS <=? lapic_id e then 0 else aget (current_tasks s) (lapic_id e).

Definition set_kernel_entry_stack {A} (cpu_index stack_top : Z) (s : sched A) : sched A :=
  if CONFIG_MAX_CPUS <=? cpu_index then s
  else
    let cpu := aget (percpu s) cpu_index in
    let stack_top :=
      if stack_top =? 0 then cpu_stack cpu +64 CONFIG_KERNEL_STACK_SIZE else stack_top in
    set_percpu (fun p => aset p cpu_index
      {| cpu_stack := cpu_stack cpu; syscall_rsp := stack_top; tss_rsp0 := stack_top |}) s.

Definition set_current_task {A} (e : Env) (t : Z) (s : sched A) : sched A :=
  if lapic_id e <? CONFIG_MAX_CPUS then
    let s := set_current (fun c => aset c (lapic_id e) t) s in
    let stack_top :=
      if negb (t =? 0) && negb (stk_top (t_stack (task_at s t)) =? 0)
      then stk_top (t_stack (task_at s t)) else 0 in
    set_kernel_entry_stack (lapic_id e) stack_top s
  else s.

(** ** Scheduling *)

(** The tail of [schedule_internal] and [start_scheduler]: make [next] the
    running task. *)
Definition run_task {A} (e : Env) (next : Z) (s : sched A) : sched A :=
  set_current_task e next (set_state next Running s).

(** [context_switch] saves the stack pointer in the task that is left. *)
Definition switch_to {A} (e : Env) (current next : Z) (s : sched A) : Switch * sched A :=
  if next =? current then
    (Returns, if negb (current =? 0) then set_state current Running s else s)
  else
    let s := run_task e next s in
    let ctx := t_context (task_at s next) in
    let next_cr3 := t_cr3 (task_at s next) in
    if current =? 0 then (Jump ctx next_cr3, s)
    else (SwitchTo current ctx next_cr3, update_task current (with_context (rsp e)) s).

Definition schedule_internal {A} (e : Env) (s : sched A) : Switch * sched A :=
  let current := current_task e s in
  let '(next, s) := ready_queue_pop s in
  if next =? 0 then
    if negb (current =? 0) && bool_decide (state_of s current = Running) then (Returns, s)
    else if idle_task s =? 0 then (Returns, s)
    else switch_to e current (idle_task s) s
  else switch_to e current next s.

Definition yield {A} (e : Env) (s : sched A) : Switch * sched A :=
  let current := current_task e s in
  let s := if negb (current =? 0) then ready_queue_push current s else s in
  schedule_internal e s.

Definition block {A} (e : Env) (s : sched A) : Switch * sched A :=
  let current := current_task e s in
  let s := if negb (current =? 0) then set_state current Blocked s else s in
  schedule_internal e s.

Definition wake {A} (t : Z) (s : sched A) : sched A :=
  if bool_decide (state_of s t = Blocked)
  then ready_queue_push t (set_state t Ready s)
  else s.

(** [None]: no task to start, the kernel panics. *)
Definition start_scheduler {A} (e : Env) (s : sched A) : option (Switch * sched A) :=
  let '(next, s) := ready_queue_pop s in
  if next =? 0 then None
  else
    let s := run_task e next (set_active true s) in
    Some (Jump (t_context (task_at s next)) (t_cr3 (task_at s next)), s).

Definition flag_preempt {A} (e : Env) (s : sched A) : sched A :=
  if lapic_id e <? CONFIG_MAX_CPUS then set_need (fun n => aset n (lapic_id e) true) s else s.

Definition sched_needs_preempt {A} (e : Env) (s : sched A) : bool :=
  (lapic_id e <? CONFIG_MAX_CPUS) && aget (need_reschedule s) (lapic_id e).

Definition sched_do_preempt {A} (e : Env) (s : sched A) : Switch * sched A :=
  if CONFIG_MAX_CPUS <=? lapic_id e then (Returns, s)
  else
    let s := set_need (fun n => aset n (lapic_id e) false) s in
    if negb (scheduler_active s) then (Returns, s)
    else
      let current := current_task e s in
      if current =? 0 then (Returns, s)
      else
        let s :=
          if bool_decide (state_of s current = Running)
          then ready_queue_push current (set_state current Ready s)
          else s in
        schedule_internal e s.

(** The end of [tori_sched_task_entry], after the entry function returned. *)
Definition task_exit {A} (e : Env) (s : sched A) : Switch * sched A :=
  let task := current_task e s in
  if task =? 0 then (Returns, s)
  else schedule_internal e (set_state task Dead s).

Definition sched_enqueue {A} (t : Z) (s : sched A) : sched A :=
  let s :=
    if t_id (task_at s t) =? 0
    then set_counters (next_task_id s +64 1) (total_task_count s)
           (update_task t (with_id (next_task_id s)) s)
    else s in
  let s := ready_queue_push t (set_state t Ready s) in
  let s := list_add t s in
  set_counters (next_task_id s) (total_task_count s +64 1) s.

Definition task_count {A} (s : sched A) : Z := total_task_count s.

(** ** Creating tasks *)

Section Creation.
Context {A : Type} `{KernelAlloc A}.
Implicit Types (s : sched A) (e : Env).

(** Seven words from the top of the stack downwards: the return address of
    the first switch and six zero registers. *)
Definition setup_task_stack (t trampoline_addr : Z) s : sched A :=
  let sp := stk_top (t_stack (task_at s t)) in
  let s := set_stack_mem (fun m => aset m (sp -64 8) trampoline_addr) s in
  let s := set_stack_mem (fun m => aset m (sp -64 16) 0) s in
  let s := set_stack_mem (fun m => aset m (sp -64 24) 0) s in
  let s := set_stack_mem (fun m => aset m (sp -64 32) 0) s in
  let s := set_stack_mem (fun m => aset m (sp -64 40) 0) s in
  let s := set_stack_mem (fun m => aset m (sp -64 48) 0) s in
  let s := set_stack_mem (fun m => aset m (sp -64 56) 0) s in
  update_task t (with_context (sp -64 56)) s.

Definition allocate_task s : Z * sched A :=
  let '(t, h) := kalloc (kernel_heap s) sizeof_Task alignof_Task in (t, set_heap h s).

Definition create_task_internal e (entry arg : Z) (name : option (list Z)) s : Z * sched A :=
  let '(t, s) := allocate_task s in
  if t =? 0 then (0, s)
  else
    let '(stack_phys, h) := ka_alloc_pages (kernel_heap s) stack_pages in
    let s := set_heap h s in
    if stack_phys =? invalid_physical_address then
      (0, set_heap (kfree (kernel_heap s) t sizeof_Task) s)
    else
      let stack_virt := physical_to_virtual (hhdm_offset s) stack_phys in
      let s := update_task t (fun task =>
        {| t_id := next_task_id s;
           t_name := copy_name (t_name task) name name_len;
           t_state := Ready;
           t_stack := {| stk_base := stack_virt;
                         stk_top := stack_virt +64 stack_size;
                         stk_physical_page := stack_phys;
                         stk_page_count := stack_pages |};
           t_context := t_context task;
           t_entry := entry;
           t_arg := arg;
           t_creation_time := uptime_ms e;
           t_thread := 0;
           t_cr3 := kernel_pml4 e |}) s in
      let s := set_counters (next_task_id s +64 1) (total_task_count s) s in
      let s := setup_task_stack t (task_trampoline e) s in
      let s := ready_queue_push t s in
      let s := list_add t s in
      (t, set_counters (next_task_id s) (total_task_count s +64 1) s).

Definition create_task e entry arg name s : Z * sched A :=
  create_task_internal e entry arg name s.

Definition bsp_name : list Z := [98; 115; 112; 45; 109; 97; 105; 110].
Definition idle_name : list Z := [99; 112; 117; 48; 45; 105; 100; 108; 101].

(** [None]: the first task cannot be allocated, the kernel panics. *)
Definition init_task_system e (bsp_lapic_id : Z) s : option (sched A) :=
  let s := set_counters 1 0 s in
  let s := set_all (dl_empty (all_tasks s)) s in
  let s := set_current (fun c => for_z 0 CONFIG_MAX_CPUS (fun i c => aset c i 0) c) s in
  let s := ready_queue_init s in
  let '(bsp, s) := allocate_task s in
  if bsp =? 0 then None
  else
    let s := update_task bsp (fun task =>
      {| t_id := next_task_id s;
         t_name := copy_name (t_name task) (Some bsp_name) name_len;
         t_state := Running;
         t_stack := Build_KernelStack 0 0 0 0;
         t_context := 0;
         t_entry := 0;
         t_arg := 0;
         t_creation_time := uptime_ms e;
         t_thread := 0;
         t_cr3 := kernel_pml4 e |}) s in
    let s := set_counters (next_task_id s +64 1) (total_task_count s) s in
    let s :=
      if bsp_lapic_id <? CONFIG_MAX_CPUS
      then set_current (fun c => aset c bsp_lapic_id bsp) s else s in
    let s := list_add bsp s in
    let s := set_counters (next_task_id s) (total_task_count s +64 1) s in
    let '(idle, s) := create_task_internal e (idle_entry e) 0 (Some idle_name) s in
    Some (set_idle idle s).

End Creation.

(** * Frame facts of the assignments *)

Lemma state_of_set_state {A} (s : sched A) t st x :
  state_of (set_state t st s) x = if decide (t = x) then st else state_of s x.
Proof.
  unfold state_of, task_at, set_state, update_task; cbn. rewrite aget_aset. by case_decide.
Qed.

Lemma state_of_context {A} (s : sched A) t c x :
  state_of (update_task t (with_context c) s) x = state_of s x.
Proof.
  unfold state_of, task_at, update_task; cbn. rewrite aget_aset. case_decide; by subst.
Qed.

Lemma set_current_task_unfold {A} e t (s : sched A) :
  0 <= lapic_id e < CONFIG_MAX_CPUS ->
  exists f, set_current_task e t s
    = set_percpu f (set_current (fun c => aset c (lapic_id e) t) s).
Proof.
  intros He. unfold set_current_task, set_kernel_entry_stack.
  replace (lapic_id e <? CONFIG_MAX_CPUS) with true by lia.
  replace (CONFIG_MAX_CPUS <=? lapic_id e) with false by lia. by eexists.
Qed.

Lemma current_task_get {A} e (s : sched A) :
  0 <= lapic_id e < CONFIG_MAX_CPUS -> current_task e s = aget (current_tasks s) (lapic_id e).
Proof. intros. unfold current_task. by replace (CONFIG_MAX_CPUS <=? lapic_id e) with false by lia. Qed.

(** Everything [run_task] does to the state the invariant speaks of. *)
Lemma run_task_spec {A} e t (s : sched A) :
  0 <= lapic_id e < CONFIG_MAX_CPUS ->
  let s' := run_task e t s in
  current_task e s' = t
  /\ (forall x, state_of s' x = if decide (t = x) then Running else state_of s x)
  /\ (forall x, t_context (task_at s' x) = t_context (task_at s x)
      /\ t_cr3 (task_at s' x) = t_cr3 (task_at s x))
  /\ global_ready_queue s' = global_ready_queue s /\ all_tasks s' = all_tasks s
  /\ idle_task s' = idle_task s /\ kernel_heap s' = kernel_heap s
  /\ total_task_count s' = total_task_count s
  /\ scheduler_active s' = scheduler_active s.
Proof.
  intros He. cbn. unfold run_task.
  destruct (set_current_task_unfold e t (set_state t Running s) He) as [f ->].
  split_and!; try done.
  - rewrite current_task_get by done. cbn. by rewrite aget_aset_eq.
  - intros x. apply (state_of_set_state s t Running x).
  - intros x. unfold task_at; cbn. rewrite aget_aset. case_decide; by subst.
Qed.

(** * The scheduler invariant *)

Section Invariant.
Context {A : Type} `{KernelAlloc A}.
Implicit Types (s : sched A) (q l : list Z) (e : Env).

(** [q]: the ready queue; [l]: all tasks; [live]: the objects held from the
    kernel allocator.  The running task is in the list, marked running and
    not queued; the queue holds runnable tasks of the list; every task marked
    ready is queued. *)
Record sched_inv e s q l (live : gmap Z Z) : Prop := {
  i_cpu : 0 <= lapic_id e < CONFIG_MAX_CPUS;
  i_heap : ka_wf (kernel_heap s) live;
  i_rq : dl_rep (global_ready_queue s) q;
  i_all : dl_rep (all_tasks s) l;
  i_live : forall t, t ∈ l -> t ∈ dom live;
  i_cur : current_task e s ∈ l;
  i_running : state_of s (current_task e s) = Running;
  i_cur_q : current_task e s ∉ q;
  i_queued : forall t, t ∈ q -> t ∈ l /\ (state_of s t = Ready \/ state_of s t = Running);
  i_ready : forall t, t ∈ l -> state_of s t = Ready -> t ∈ q;
  i_idle : idle_task s ∈ l;
  i_count : total_task_count s = wrap 64 (Z.of_nat (length l));
}.

(** What holds when [schedule_internal] is entered: the current task has been
    queued, or has stopped being runnable. *)
Record sched_pre e s q l (live : gmap Z Z) : Prop := {
  p_cpu : 0 <= lapic_id e < CONFIG_MAX_CPUS;
  p_heap : ka_wf (kernel_heap s) live;
  p_rq : dl_rep (global_ready_queue s) q;
  p_all : dl_rep (all_tasks s) l;
  p_live : forall t, t ∈ l -> t ∈ dom live;
  p_cur : current_task e s ∈ l;
  p_cur_q : current_task e s ∈ q
    \/ state_of s (current_task e s) = Blocked \/ state_of s (current_task e s) = Dead;
  p_queued : forall t, t ∈ q -> t ∈ l /\ (state_of s t = Ready \/ state_of s t = Running);
  p_ready : forall t, t ∈ l -> state_of s t = Ready -> t ∈ q;
  p_idle : idle_task s ∈ l;
  p_count : total_task_count s = wrap 64 (Z.of_nat (length l));
}.

Lemma in_list_nonnull d l t : dl_rep d l -> t ∈ l -> t <> 0.
Proof. intros [_ _ _ H0 _] Ht ->. done. Qed.

Lemma ready_queue_pop_rep s q :
  dl_rep (global_ready_queue s) q ->
  exists d, ready_queue_pop s = (hd_or q 0, set_rq d s) /\ dl_rep d (tl q).
Proof.
  intros Hq. unfold ready_queue_pop. destruct q as [|t q].
  - rewrite dl_pop_front_nil by done. eauto.
  - destruct (dl_pop_front_rep _ _ _ Hq) as [Ht Hd].
    destruct (dl_pop_front _) as [t' d]. cbn in *. subst. eauto.
Qed.

(** What changing over to [next] does, whichever way it is done. *)
Definition switched e s next (r : Switch * sched A) : Prop :=
  let cur := current_task e s in
  current_task e r.2 = next
  /\ r.1 = (if next =? cur then Returns
            else SwitchTo cur (t_context (task_at s next)) (t_cr3 (task_at s next)))
  /\ (forall t, state_of r.2 t = if decide (next = t) then Running else state_of s t)
  /\ idle_task r.2 = idle_task s /\ scheduler_active r.2 = scheduler_active s.

Lemma switch_to_spec e s next :
  0 <= lapic_id e < CONFIG_MAX_CPUS -> current_task e s <> 0 ->
  let r := switch_to e (current_task e s) next s in
  switched e s next r
  /\ global_ready_queue r.2 = global_ready_queue s /\ all_tasks r.2 = all_tasks s
  /\ kernel_heap r.2 = kernel_heap s /\ total_task_count r.2 = total_task_count s.
Proof.
  intros He Hc0. unfold switch_to, switched.
  destruct (next =? current_task e s) eqn:E; bool_to_prop.
  - subst next. replace (current_task e s =? 0) with false by lia. cbn.
    split_and!; try done. intros t. apply (state_of_set_state s).
  - replace (current_task e s =? 0) with false by lia.
    destruct (run_task_spec e next s He) as (H1 & H2 & H3 & H4 & H5 & H6 & H7 & H8 & H9).
    destruct (H3 next) as [-> ->]. cbn. split_and!; try done.
    intros t. rewrite <- H2. apply state_of_context.
Qed.

(** [schedule_internal] runs the head of the queue, or the idle task when the
    queue is empty, and restores the invariant. *)
Lemma schedule_internal_spec e s q l live :
  sched_pre e s q l live ->
  let next := hd_or q (idle_task s) in
  let r := schedule_internal e s in
  sched_inv e r.2 (tl q) l live /\ switched e s next r.
Proof.
  intros [Hcpu Hheap Hrq Hall Hlive Hcur Hcq Hqd Hrd Hidle Hcnt] next r.
  assert (current_task e s <> 0) as Hc0 by by apply (in_list_nonnull _ _ _ Hall).
  assert (next ∈ l) as Hnl.
  { subst next. destruct q as [|t q]; [done|]. cbn. by apply Hqd, elem_of_cons; left. }
  assert (next ∉ tl q) as Hnt.
  { destruct q as [|t q]; cbn; [by apply not_elem_of_nil|].
    pose proof (rep_nodup _ _ Hrq) as Hnd. by apply NoDup_cons in Hnd as []. }
  destruct (ready_queue_pop_rep s q Hrq) as (d & Hpop & Hd).
  assert (r = switch_to e (current_task e (set_rq d s)) next (set_rq d s)) as ->.
  { subst r. unfold schedule_internal. rewrite Hpop.
    change (current_task e (set_rq d s)) with (current_task e s).
    change (state_of (set_rq d s)) with (state_of s). cbn [idle_task set_rq].
    assert (idle_task s <> 0) by by apply (in_list_nonnull _ _ _ Hall).
    subst next. destruct q as [|t q]; cbn [hd_or].
    - replace (0 =? 0) with true by done. replace (current_task e s =? 0) with false by lia.
      rewrite bool_decide_false; [by replace (idle_task s =? 0) with false by lia|].
      destruct Hcq as [Hc|[Hc|Hc]]; [by apply elem_of_nil in Hc|congruence..].
    - cbn in Hnl. assert (t <> 0) by by apply (in_list_nonnull _ _ _ Hall).
      by replace (t =? 0) with false by lia. }
  destruct (switch_to_spec e (set_rq d s) next Hcpu Hc0) as ((E1 & E2 & E3 & E4 & E5) & E6 & E7 & E8 & E9).
  set (r' := switch_to _ _ _ _) in *. clearbody r'. split; [|done].
  change (state_of (set_rq d s)) with (state_of s) in E3.
  change (idle_task (set_rq d s)) with (idle_task s) in E4.
  cbn [global_ready_queue all_tasks kernel_heap total_task_count set_rq] in *.
  split; rewrite ?E1, ?E3, ?E4, ?E6, ?E7, ?E8, ?E9; try done.
  - by case_decide.
  - intros t Ht. rewrite E3. case_decide; [subst; auto|].
    apply Hqd. destruct q; [by apply elem_of_nil in Ht|]. by apply elem_of_cons; right.
  - intros t Ht. rewrite E3. case_decide; [done|]. intros Hr%Hrd; [|done].
    subst next. destruct q as [|x q]; [by apply elem_of_nil in Hr|].
    cbn in *. apply elem_of_cons in Hr as [->|]; done.
Qed.

(** ** The operations of the running task *)

Lemma push_current_pre e s q l live st :
  sched_inv e s q l live -> st = Ready \/ st = Running ->
  sched_pre e (ready_queue_push (current_task e s) (set_state (current_task e s) st s))
    (q ++ [current_task e s]) l live.
Proof.
  intros [] Hst. set (cur := current_task e s) in *.
  assert (cur <> 0) as Hc0 by by apply (in_list_nonnull _ _ _ i_all0).
  assert (forall t, state_of (ready_queue_push cur (set_state cur st s)) t
            = if decide (cur = t) then st else state_of s t) as Hs
    by (intros; apply (state_of_set_state s)).
  split; try done.
  - by apply dl_push_back_rep.
  - left. apply elem_of_app. right. by apply list_elem_of_singleton.
  - intros t [Ht| ->%list_elem_of_singleton]%elem_of_app; rewrite Hs.
    + rewrite decide_False by congruence. auto.
    + by rewrite decide_True.
  - intros t Ht. rewrite Hs. case_decide; intros; apply elem_of_app;
      [right; by apply list_elem_of_singleton|left; auto].
Qed.

(** The state of a task that already is in it: nothing changes. *)
Lemma set_state_same_pre e s q l live :
  sched_inv e s q l live ->
  sched_pre e (ready_queue_push (current_task e s) s) (q ++ [current_task e s]) l live.
Proof.
  intros Hinv. destruct (push_current_pre e s q l live Running Hinv) as []; [by right|].
  assert (forall t, state_of (set_state (current_task e s) Running s) t = state_of s t) as Hs.
  { intros t. rewrite state_of_set_state. case_decide; [|done]. subst. by rewrite (i_running _ _ _ _ _ Hinv). }
  split; try done.
  - destruct p_cur_q0 as [|[E|E]]; [by left|..]; right; [left|right]; (etrans; [|exact E]); symmetry; apply Hs.
  - intros t Ht. destruct (p_queued0 t Ht) as [? Hst]. split; [done|].
    change (state_of (ready_queue_push (current_task e s) s) t) with (state_of s t).
    rewrite <- Hs. exact Hst.
  - intros t Ht Hst. apply p_ready0; [done|]. etrans; [apply Hs|exact Hst].
Qed.

Lemma stop_current_pre e s q l live st :
  sched_inv e s q l live -> st = Blocked \/ st = Dead ->
  sched_pre e (set_state (current_task e s) st s) q l live.
Proof.
  intros [] Hst. split; try done.
  - right. change (current_task e (set_state (current_task e s) st s)) with (current_task e s).
    rewrite state_of_set_state. by rewrite decide_True.
  - intros t Ht. rewrite state_of_set_state, decide_False by congruence. auto.
  - intros t Ht. rewrite state_of_set_state. case_decide; [|auto]. destruct Hst; congruence.
Qed.

Lemma hd_or_snoc q c d : hd_or (q ++ [c]) d = hd_or q c.
Proof. by destruct q. Qed.

(** Yielding: the head of the queue runs, or the task itself when it is alone. *)
Lemma yield_cases e s q l live :
  sched_inv e s q l live ->
  let cur := current_task e s in
  let r := yield e s in
  sched_inv e r.2 (tl (q ++ [cur])) l live
  /\ switched e s (hd_or q cur) r.
Proof.
  intros Hinv. cbn. unfold yield.
  assert (current_task e s <> 0) as Hc0 by by apply (in_list_nonnull _ _ _ (i_all _ _ _ _ _ Hinv)), Hinv.
  replace (current_task e s =? 0) with false by lia. cbn [negb].
  destruct (schedule_internal_spec _ _ _ _ _ (set_state_same_pre _ _ _ _ _ Hinv)) as [H1 H2].
  rewrite hd_or_snoc in H2. split; [exact H1|exact H2].
Qed.

(** Blocking: the head of the queue runs, or the idle task. *)
Lemma block_cases e s q l live :
  sched_inv e s q l live ->
  let cur := current_task e s in
  let r := block e s in
  sched_inv e r.2 (tl q) l live
  /\ switched e (set_state cur Blocked s) (hd_or q (idle_task s)) r.
Proof.
  intros Hinv. cbn. unfold block.
  assert (current_task e s <> 0) as Hc0 by by apply (in_list_nonnull _ _ _ (i_all _ _ _ _ _ Hinv)), Hinv.
  replace (current_task e s =? 0) with false by lia. cbn [negb].
  exact (schedule_internal_spec _ _ _ _ _
    (stop_current_pre _ _ _ _ _ Blocked Hinv (or_introl eq_refl))).
Qed.

Lemma task_exit_cases e s q l live :
  sched_inv e s q l live ->
  let cur := current_task e s in
  let r := task_exit e s in
  sched_inv e r.2 (tl q) l live
  /\ switched e (set_state cur Dead s) (hd_or q (idle_task s)) r.
Proof.
  intros Hinv. cbn. unfold task_exit.
  assert (current_task e s <> 0) as Hc0 by by apply (in_list_nonnull _ _ _ (i_all _ _ _ _ _ Hinv)), Hinv.
  replace (current_task e s =? 0) with false by lia.
  exact (schedule_internal_spec _ _ _ _ _
    (stop_current_pre _ _ _ _ _ Dead Hinv (or_intror eq_refl))).
Qed.

(** A flag of the timer interrupt does not concern the invariant. *)
Lemma set_need_inv e s q l live f :
  sched_inv e s q l live -> sched_inv e (set_need f s) q l live.
Proof. by intros []. Qed.

(** The timer tick: as a yield once the scheduler is active, nothing before. *)
Lemma preempt_cases e s q l live :
  sched_inv e s q l live ->
  let cur := current_task e s in
  let r := sched_do_preempt e s in
  if scheduler_active s
  then sched_inv e r.2 (tl (q ++ [cur])) l live
       /\ switched e (set_state cur Ready s) (hd_or q cur) r
  else sched_inv e r.2 q l live
       /\ r = (Returns, set_need (fun n => aset n (lapic_id e) false) s).
Proof.
  intros Hinv. cbn. unfold sched_do_preempt. pose proof (i_cpu _ _ _ _ _ Hinv).
  replace (CONFIG_MAX_CPUS <=? lapic_id e) with false by lia.
  apply (set_need_inv _ _ _ _ _ (fun n => aset n (lapic_id e) false)) in Hinv.
  set (s1 := set_need _ s) in *.
  change (scheduler_active s) with (scheduler_active s1).
  change (current_task e s) with (current_task e s1).
  destruct (scheduler_active s1) eqn:Ha; cbn [negb]; [|done].
  assert (current_task e s1 <> 0) as Hc0 by by apply (in_list_nonnull _ _ _ (i_all _ _ _ _ _ Hinv)), Hinv.
  replace (current_task e s1 =? 0) with false by lia.
  rewrite bool_decide_true by apply Hinv.
  destruct (schedule_internal_spec _ _ _ _ _
    (push_current_pre _ _ _ _ _ Ready Hinv (or_introl eq_refl))) as [H1 H2].
  rewrite hd_or_snoc in H2. split; [exact H1|exact H2].
Qed.

(** ** Operations on other tasks *)

(** Linking a task that is not queued at the end of the queue, and possibly
    of the task list, marked ready. *)
Lemma enqueue_inv e s s' q l l' live live' t :
  sched_inv e s q l live ->
  t <> 0 -> t <> current_task e s -> (t ∉ q) ->
  (l' = l /\ t ∈ l /\ all_tasks s' = all_tasks s /\ total_task_count s' = total_task_count s
   \/ l' = l ++ [t] /\ t ∉ l /\ all_tasks s' = dl_push_back (all_tasks s) t
      /\ total_task_count s' = total_task_count s +64 1) ->
  ka_wf (kernel_heap s') live' -> (forall x, x ∈ l' -> x ∈ dom live') ->
  current_tasks s' = current_tasks s -> idle_task s' = idle_task s ->
  global_ready_queue s' = dl_push_back (global_ready_queue s) t ->
  (forall x, state_of s' x = if decide (t = x) then Ready else state_of s x) ->
  sched_inv e s' (q ++ [t]) l' live'.
Proof.
  intros [] Ht0 Htc Htq Hl Hheap Hlive Ecur Eidle Erq Est.
  assert (current_task e s' = current_task e s) as Ec by (unfold current_task; by rewrite Ecur).
  assert (forall x, x ∈ l -> x ∈ l') as Hll.
  { intros x Hx. destruct Hl as [(-> & _)|(-> & _)]; [done|]. by apply elem_of_app; left. }
  assert (t ∈ l') as Htl.
  { destruct Hl as [(-> & ? & _)|(-> & _)]; [done|]. apply elem_of_app; right.
    by apply list_elem_of_singleton. }
  split; rewrite ?Ec, ?Eidle, ?Erq; auto.
  - by apply dl_push_back_rep.
  - destruct Hl as [(-> & _ & -> & _)|(-> & ? & -> & _)]; [done|by apply dl_push_back_rep].
  - rewrite Est, decide_False by done. done.
  - rewrite elem_of_app, list_elem_of_singleton. naive_solver.
  - intros x [Hx| ->%list_elem_of_singleton]%elem_of_app; rewrite Est.
    + destruct (i_queued0 x Hx). rewrite decide_False by congruence. auto.
    + rewrite decide_True by done. auto.
  - intros x Hx. rewrite Est, elem_of_app, list_elem_of_singleton. case_decide; [by right|].
    intros Hr. left. apply i_ready0; [|done].
    destruct Hl as [(-> & _)|(-> & _)]; [done|].
    apply elem_of_app in Hx as [Hx| ->%list_elem_of_singleton]; [done|]. congruence.
  - destruct Hl as [(-> & _ & _ & ->)|(-> & _ & _ & ->)]; [done|].
    rewrite i_count0, length_app. cbn. unfold wrap. rewrite Zplus_mod_idemp_l. f_equal. lia.
Qed.

Lemma wake_cases e s q l live t :
  sched_inv e s q l live -> t ∈ l ->
  if decide (state_of s t = Blocked)
  then sched_inv e (wake t s) (q ++ [t]) l live
       /\ forall x, state_of (wake t s) x = if decide (t = x) then Ready else state_of s x
  else wake t s = s.
Proof.
  intros Hinv Ht. unfold wake. case_decide as Hb; [|by rewrite bool_decide_false].
  rewrite bool_decide_true by done.
  assert (forall x, state_of (ready_queue_push t (set_state t Ready s)) x
    = if decide (t = x) then Ready else state_of s x) as Hs by (intros; apply (state_of_set_state s)).
  split; [|done]. eapply (enqueue_inv e s); try done.
  - by apply (in_list_nonnull _ _ _ (i_all _ _ _ _ _ Hinv)).
  - intros ->. by rewrite (i_running _ _ _ _ _ Hinv) in Hb.
  - intros Hq. destruct (i_queued _ _ _ _ _ Hinv t Hq) as [_ [?|?]]; congruence.
  - left. done.
  - apply Hinv.
  - apply Hinv.
Qed.

(** The identifier [sched_enqueue] gives to a task that has none. *)
Definition enqueued_id s t : Z :=
  if t_id (task_at s t) =? 0 then next_task_id s else t_id (task_at s t).

Lemma sched_enqueue_cases e s q l live t :
  sched_inv e s q l live -> t <> 0 -> (t ∉ l) -> t ∈ dom live ->
  let s' := sched_enqueue t s in
  sched_inv e s' (q ++ [t]) (l ++ [t]) live
  /\ t_id (task_at s' t) = enqueued_id s t
  /\ forall x, state_of s' x = if decide (t = x) then Ready else state_of s x.
Proof.
  intros Hinv Ht0 Htl Hlive s'.
  assert (forall x, task_at s' x =
    if decide (t = x) then with_state Ready (with_id (enqueued_id s t) (task_at s t))
    else task_at s x) as Ht.
  { intros x. subst s'. unfold sched_enqueue, enqueued_id, task_at.
    case_match; cbn; rewrite !aget_aset; by repeat case_decide; subst. }
  assert (forall x, state_of s' x = if decide (t = x) then Ready else state_of s x) as Hs.
  { intros x. unfold state_of. rewrite Ht. by case_decide. }
  split_and!; [|by rewrite Ht, decide_True|done].
  assert (current_tasks s' = current_tasks s /\ idle_task s' = idle_task s
    /\ global_ready_queue s' = dl_push_back (global_ready_queue s) t
    /\ all_tasks s' = dl_push_back (all_tasks s) t
    /\ total_task_count s' = total_task_count s +64 1
    /\ kernel_heap s' = kernel_heap s) as (E1 & E2 & E3 & E4 & E5 & E6)
    by (subst s'; unfold sched_enqueue; by case_match).
  eapply (enqueue_inv e s); try done.
  - intros ->. apply Htl, Hinv.
  - intros Hq. by apply Htl, (i_queued _ _ _ _ _ Hinv).
  - by right.
  - rewrite E6. apply Hinv.
  - intros x [Hx| ->%list_elem_of_singleton]%elem_of_app; [by apply Hinv|done].
Qed.

(** ** Creating a task *)

(** The new task as [create_task] leaves it: its fields, and on its stack the
    words [context_switch] will pop: six registers and the trampoline. *)
Definition fresh_task e s s' (t entry arg : Z) (name : option (list Z)) : Prop :=
  exists phys, let task := task_at s' t in
  let virt := physical_to_virtual (hhdm_offset s) phys in
  t_id task = next_task_id s
  /\ t_name task = copy_name (t_name (task_at s t)) name name_len
  /\ t_state task = Ready
  /\ t_stack task = Build_KernelStack virt (virt +64 stack_size) phys stack_pages
  /\ t_context task = virt +64 stack_size -64 56
  /\ t_entry task = entry /\ t_arg task = arg /\ t_thread task = 0
  /\ t_cr3 task = kernel_pml4 e
  /\ aget (stack_mem s') (t_context task +64 48) = task_trampoline e
  /\ forall k, 0 <= k < 6 -> aget (stack_mem s') (t_context task +64 8 * k) = 0.

Lemma wrap_shift top a b : (top -64 a) +64 b = top -64 (a - b).
Proof. unfold wrap. rewrite Zplus_mod_idemp_l. f_equal. lia. Qed.

(** Two offsets below the same stack top are different words. *)
Lemma wrap_sub_inj top a b :
  0 <= a < 2 ^ 64 -> 0 <= b < 2 ^ 64 -> top -64 a = top -64 b -> a = b.
Proof. unfold wrap. intros Ha Hb E. zlia. Qed.

Lemma setup_task_stack_spec t tramp s :
  let s' := setup_task_stack t tramp s in
  let top := stk_top (t_stack (task_at s t)) in
  aget (stack_mem s') (top -64 8) = tramp
  /\ forall k, 0 <= k < 6 -> aget (stack_mem s') (top -64 (56 - 8 * k)) = 0.
Proof.
  cbn. set (top := stk_top _). split.
  - repeat (rewrite aget_aset_ne; [|intros E; apply wrap_sub_inj in E; lia]).
    by rewrite aget_aset_eq.
  - intros k Hk.
    assert (k = 0 \/ k = 1 \/ k = 2 \/ k = 3 \/ k = 4 \/ k = 5) as Hcases by lia.
    destruct_or! Hcases; subst k; repeat (rewrite aget_aset; case_decide; [done|]);
      exfalso; match goal with E : ?a <> ?b |- _ => apply E; f_equal; lia end.
Qed.

(** Linking a task leaves the stacks alone. *)
Lemma stack_mem_linked t s i n :
  stack_mem (set_counters i n (list_add t (ready_queue_push t s))) = stack_mem s.
Proof. done. Qed.

Lemma stack_pages_ok : 0 < stack_pages <= max_managed_pages.
Proof. unfold stack_pages, max_managed_pages. lia. Qed.

Lemma create_task_internal_cases e s q l live entry arg name :
  sched_inv e s q l live ->
  let r := create_task_internal e entry arg name s in
  (r.1 = 0 /\ sched_inv e r.2 q l live /\ tasks r.2 = tasks s)
  \/ ((r.1 ∉ l) /\ live !! r.1 = None
     /\ sched_inv e r.2 (q ++ [r.1]) (l ++ [r.1]) (<[r.1 := sizeof_Task]> live)
     /\ fresh_task e s r.2 r.1 entry arg name
     /\ forall x, x <> r.1 -> task_at r.2 x = task_at s x).
Proof.
  intros Hinv r. subst r. unfold create_task_internal, allocate_task.
  pose proof (kalloc_law (kernel_heap s) live sizeof_Task alignof_Task (i_heap _ _ _ _ _ Hinv)) as Hk.
  destruct (kalloc (kernel_heap s) sizeof_Task alignof_Task) as [t h]. cbn [fst snd] in Hk.
  specialize (Hk eq_refl).
  destruct Hk as [[-> Hh]|(Ht & Hnone & Hh)].
  { left. split_and!; try done. by destruct Hinv. }
  replace (t =? 0) with false by lia.
  change (kernel_heap (set_heap h s)) with h.
  pose proof (ka_pages_law h _ stack_pages Hh stack_pages_ok) as Hp.
  destruct (ka_alloc_pages h stack_pages) as [phys h']. cbn [fst snd] in Hp.
  destruct (phys =? invalid_physical_address).
  { left. split_and!; try done. apply (kfree_law _ _ t sizeof_Task) in Hp; [|by rewrite lookup_insert_eq].
    rewrite delete_insert_id in Hp by done. by destruct Hinv. }
  right.
  assert (t ∉ l) as Htl by (intros Hin%Hinv; by apply elem_of_dom in Hin as [? ?]; congruence).
  match goal with |- context [setup_task_stack t _ ?x] => set (s2 := x) end.
  match goal with |- context [(t, ?x).1] => set (s' := x); cbn [fst snd] end.
  assert (forall x, x <> t -> task_at s' x = task_at s x) as Hne.
  { intros x Hx. unfold task_at. cbn. rewrite !aget_aset_ne by congruence. done. }
  assert (fresh_task e s s' t entry arg name) as Hfresh.
  { destruct (setup_task_stack_spec t (task_trampoline e) s2) as [H1 H2].
    set (virt := physical_to_virtual (hhdm_offset s) phys).
    assert (stk_top (t_stack (task_at s2 t)) = virt +64 stack_size) as Htop
      by (unfold task_at; cbn; by rewrite aget_aset_eq).
    assert (t_context (task_at s' t) = (virt +64 stack_size) -64 56) as Hctx.
    { unfold task_at; cbn. rewrite aget_aset_eq. cbn. by rewrite <- Htop. }
    assert (stack_mem s' = stack_mem (setup_task_stack t (task_trampoline e) s2)) as Hmem
      by apply stack_mem_linked.
    rewrite Htop in *. exists phys. fold virt. cbv zeta. rewrite Hctx. split_and!.
    all: try (unfold task_at; cbn; by rewrite !aget_aset_eq).
    - done.
    - rewrite wrap_shift, Hmem. exact H1.
    - intros k Hk%H2. rewrite wrap_shift, Hmem. exact Hk. }
  assert (forall x, state_of s' x = if decide (t = x) then Ready else state_of s x) as Hst.
  { intros x. unfold state_of. case_decide as Hd; [subst; by destruct Hfresh as (? & _ & _ & ? & _)|].
    by rewrite Hne by congruence. }
  split_and!; try done. eapply (enqueue_inv e s); try done.
  - lia.
  - intros ->. apply Htl, Hinv.
  - intros Hq. by apply Htl, (i_queued _ _ _ _ _ Hinv).
  - by right.
  - intros x. rewrite dom_insert_L, elem_of_app, list_elem_of_singleton, elem_of_union, elem_of_singleton.
    intros [Hx%Hinv|Hx]; auto.
Qed.

(** Leaving the boot code for the first queued task. *)
Lemma start_scheduler_cases e s t q l live :
  sched_inv e s (t :: q) l live ->
  exists s', start_scheduler e s = Some (Jump (t_context (task_at s t)) (t_cr3 (task_at s t)), s')
    /\ sched_inv e s' q l live /\ current_task e s' = t /\ scheduler_active s' = true
    /\ forall x, state_of s' x = if decide (t = x) then Running else state_of s x.
Proof.
  intros []. unfold start_scheduler.
  destruct (ready_queue_pop_rep s _ i_rq0) as (d & -> & Hd). cbn [hd_or tl] in *.
  destruct (i_queued0 t) as [Htl _]; [by apply elem_of_cons; left|].
  assert (t <> 0) as Ht0 by by apply (in_list_nonnull _ _ _ i_all0).
  replace (t =? 0) with false by lia.
  destruct (run_task_spec e t (set_active true (set_rq d s)) i_cpu0)
    as (H1 & H2 & H3 & H4 & H5 & H6 & H7 & H8 & H9).
  set (s' := run_task _ _ _) in *. clearbody s'. exists s'.
  destruct (H3 t) as [-> ->]. split_and!; try done.
  split; rewrite ?H1, ?H4, ?H5, ?H6, ?H7, ?H8; try done.
  - by rewrite H2, decide_True.
  - pose proof (rep_nodup _ _ i_rq0) as Hnd. by apply NoDup_cons in Hnd as [].
  - intros x Hx. rewrite H2. case_decide; [subst; auto|]. apply i_queued0.
    by apply elem_of_cons; right.
  - intros x Hx. rewrite H2. case_decide; [done|]. intros Hr%i_ready0; [|done].
    apply elem_of_cons in Hr as [->|]; done.
Qed.

(** * Sequences of operations *)

(** [OSpawn]: a task structure is allocated inside an object of [size] bytes,
    filled in as [init], and handed to [sched_enqueue], as user threads are. *)
Inductive op :=
| OYield | OBlock | OExit | OFlag | OPreempt | OStart
| OWake (t : Z)
| OSpawn (size : Z) (init : Task)
| OCreate (entry arg : Z) (name : option (list Z)).

Definition spawn (size : Z) (init : Task) s : sched A :=
  let '(t, h) := kalloc (kernel_heap s) size alignof_Task in
  let s := set_heap h s in
  if t =? 0 then s else sched_enqueue t (update_task t (fun _ => init) s).

(** Running an operation to the point where control leaves it. *)
Definition run_op e (o : op) s : sched A :=
  match o with
  | OYield => (yield e s).2
  | OBlock => (block e s).2
  | OExit => (task_exit e s).2
  | OFlag => flag_preempt e s
  | OPreempt => (sched_do_preempt e s).2
  | OStart => match start_scheduler e s with Some (_, s') => s' | None => s end
  | OWake t => wake t s
  | OSpawn size init => spawn size init s
  | OCreate entry arg name => (create_task e entry arg name s).2
  end.

(** What a caller guarantees: a task is woken while it is in the list. *)
Definition op_ok s (o : op) : Prop :=
  match o with
  | OWake t => exists l, dl_rep (all_tasks s) l /\ t ∈ l
  | OSpawn size _ => 0 < size
  | _ => True
  end.

(** Reachability.  The clock and the stack pointer may differ at each step;
    the CPU is the same. *)
Inductive steps (cpu : Z) : sched A -> sched A -> Prop :=
| steps_refl s : steps cpu s s
| steps_op e s o s' :
    lapic_id e = cpu -> op_ok s o -> steps cpu (run_op e o s) s' -> steps cpu s s'.

Lemma spawn_cases e s q l live size init :
  sched_inv e s q l live -> 0 < size ->
  let s' := spawn size init s in
  (sched_inv e s' q l live /\ tasks s' = tasks s)
  \/ exists t, (t ∉ l) /\ sched_inv e s' (q ++ [t]) (l ++ [t]) (<[t := size]> live)
     /\ forall x, x <> t -> state_of s' x = state_of s x.
Proof.
  intros Hinv Hs. cbn. unfold spawn.
  pose proof (kalloc_law (kernel_heap s) live size alignof_Task (i_heap _ _ _ _ _ Hinv) Hs) as Hk.
  destruct (kalloc (kernel_heap s) size alignof_Task) as [t h]. cbn [fst snd] in Hk.
  destruct Hk as [[-> Hh]|(Ht & Hnone & Hh)]; [left; by destruct Hinv|right; exists t].
  replace (t =? 0) with false by lia.
  assert (t ∉ l) as Htl by (intros Hin%Hinv; by apply elem_of_dom in Hin as [? ?]; congruence).
  assert (forall x, x <> t -> task_at (update_task t (fun _ => init) (set_heap h s)) x = task_at s x) as Hne.
  { intros x Hx. unfold task_at; cbn. by rewrite aget_aset_ne. }
  assert (sched_inv e (update_task t (fun _ => init) (set_heap h s)) q l (<[t := size]> live)) as Hinv'.
  { destruct Hinv. split; try done.
    - intros x Hx%i_live0. rewrite dom_insert_L. set_solver.
    - change (current_task e (update_task _ _ _)) with (current_task e s).
      unfold state_of. rewrite Hne by congruence. done.
    - intros x Hx. destruct (i_queued0 x Hx). unfold state_of. rewrite Hne by congruence. done.
    - intros x Hx. unfold state_of. rewrite Hne by congruence. auto. }
  destruct (sched_enqueue_cases _ _ _ _ _ t Hinv') as (H1 & _ & H2);
    [lia|done|rewrite dom_insert_L; set_solver|].
  split_and!; [done|done|]. intros x Hx. rewrite H2, decide_False by congruence.
  unfold state_of. by rewrite Hne.
Qed.

Lemma start_scheduler_idle e s sw s' :
  start_scheduler e s = Some (sw, s') -> idle_task s' = idle_task s.
Proof.
  unfold start_scheduler, ready_queue_pop. destruct (dl_pop_front _) as [t d].
  case_match; [done|]. intros [= _ <-]. unfold run_task, set_current_task, set_kernel_entry_stack.
  by repeat case_match.
Qed.

Lemma create_task_idle e entry arg name s :
  idle_task (create_task_internal e entry arg name s).2 = idle_task s.
Proof.
  unfold create_task_internal, allocate_task.
  destruct (kalloc _ _ _) as [t h]. case_match; [done|].
  destruct (ka_alloc_pages _ _) as [phys h']. by case_match.
Qed.

(** An operation preserves the invariant, only lengthens the task list, and
    keeps a dead task that does not run and is not the idle task dead. *)
Lemma run_op_spec e s q l live o :
  sched_inv e s q l live -> op_ok s o ->
  exists q' l' live', sched_inv e (run_op e o s) q' (l ++ l') live'
    /\ idle_task (run_op e o s) = idle_task s
    /\ forall t, t ∈ l -> t <> idle_task s -> state_of s t = Dead ->
         state_of (run_op e o s) t = Dead.
Proof.
  intros Hinv Hok.
  assert (forall s1 next r, switched e s1 next r -> idle_task s1 = idle_task s ->
    (next = idle_task s \/ next ∈ q \/ next = current_task e s) ->
    (forall t, state_of s t = Dead -> state_of s1 t = Dead) ->
    idle_task r.2 = idle_task s /\
    forall t, t ∈ l -> t <> idle_task s -> state_of s t = Dead -> state_of r.2 t = Dead) as Hsw.
  { intros s1 next r (_ & _ & E3 & E4 & _) Hid Hn Hd. split; [congruence|]. intros t Ht Hti Hdt.
    rewrite E3. case_decide; [subst next|auto]. exfalso.
    destruct Hn as [|[Hq| ->]]; [done| |].
    - destruct (i_queued _ _ _ _ _ Hinv t Hq) as [_ [|]]; congruence.
    - rewrite (i_running _ _ _ _ _ Hinv) in Hdt. done. }
  assert (forall st t, state_of s t = Dead ->
    state_of (set_state (current_task e s) st s) t = Dead) as Hcur.
  { intros st t Ht. rewrite state_of_set_state. case_decide; [|done]. subst.
    by rewrite (i_running _ _ _ _ _ Hinv) in Ht. }
  assert (forall d, hd_or q d = d \/ hd_or q d ∈ q) as Hhd.
  { intros d. destruct q; [by left|right]. by apply elem_of_cons; left. }
  assert (forall s' q' , sched_inv e s' q' l live -> sched_inv e s' q' (l ++ []) live) as Hnil
    by (intros; by rewrite app_nil_r).
  destruct o as [| | | | | |t|size init|entry arg name]; cbn [run_op op_ok] in *.
  - destruct (yield_cases _ _ _ _ _ Hinv) as [H1 H2]. eexists _, [], _.
    split; [by apply Hnil|]. eapply Hsw; [done|done| |done].
    destruct (Hhd (current_task e s)) as [-> | ?]; auto.
  - destruct (block_cases _ _ _ _ _ Hinv) as [H1 H2]. eexists _, [], _.
    split; [by apply Hnil|]. eapply Hsw; [done|done| |auto].
    destruct (Hhd (idle_task s)) as [-> | ?]; auto.
  - destruct (task_exit_cases _ _ _ _ _ Hinv) as [H1 H2]. eexists _, [], _.
    split; [by apply Hnil|]. eapply Hsw; [done|done| |auto].
    destruct (Hhd (idle_task s)) as [-> | ?]; auto.
  - exists q, [], live. unfold flag_preempt. case_match; (split; [|done]); apply Hnil; [|done].
    by apply set_need_inv.
  - pose proof (preempt_cases _ _ _ _ _ Hinv) as Hp. cbn in Hp. destruct (scheduler_active s).
    + destruct Hp as [H1 H2]. eexists _, [], _. split; [by apply Hnil|].
      eapply Hsw; [done|done| |auto]. destruct (Hhd (current_task e s)) as [-> | ?]; auto.
    + destruct Hp as [H1 E]. rewrite E in *. eexists _, [], _. split; [by apply Hnil|done].
  - destruct q as [|t q].
    + exists [], [], live. unfold start_scheduler.
      destruct (ready_queue_pop_rep s [] (i_rq _ _ _ _ _ Hinv)) as (d & -> & Hd).
      cbn. split; [by apply Hnil|done].
    + destruct (start_scheduler_cases _ _ _ _ _ _ Hinv) as (s' & E & H1 & _ & _ & H2).
      rewrite E. exists q, [], live. split; [by apply Hnil|].
      split; [by apply start_scheduler_idle in E|]. intros x Hx _ Hdx. rewrite H2.
      case_decide; [subst|done]. destruct (i_queued _ _ _ _ _ Hinv x) as [_ [|]];
        [by apply elem_of_cons; left|congruence..].
  - destruct Hok as (l' & Hl' & Ht). rewrite (dl_rep_fun _ _ _ Hl' (i_all _ _ _ _ _ Hinv)) in Ht.
    pose proof (wake_cases _ _ _ _ _ _ Hinv Ht) as Hw. case_decide.
    + destruct Hw as [H1 H2]. eexists _, [], _. split; [by apply Hnil|].
      split; [unfold wake; by case_match|]. intros x _ _ Hx. rewrite H2. case_decide; congruence.
    + rewrite Hw. exists q, [], live. split; [by apply Hnil|done].
  - assert (idle_task (spawn size init s) = idle_task s) as Hid.
    { unfold spawn. destruct (kalloc _ _ _) as [t h]. case_match; [done|].
      unfold sched_enqueue. by case_match. }
    destruct (spawn_cases _ _ _ _ _ size init Hinv Hok) as [[H1 H2]|(t & Htl & H1 & H2)].
    + eexists _, [], _. split; [by apply Hnil|]. split; [done|].
      intros x. unfold state_of, task_at. by rewrite H2.
    + eexists _, [t], _. split; [done|]. split; [done|]. intros x Hx _ Hdx.
      rewrite H2; congruence.
  - unfold create_task. pose proof (create_task_idle e entry arg name s) as Hid.
    destruct (create_task_internal_cases _ _ _ _ _ entry arg name Hinv)
      as [(_ & H1 & H2)|(Hnl & _ & H1 & _ & H2)].
    + eexists _, [], _. split; [by apply Hnil|]. split; [done|].
      intros x. unfold state_of, task_at. by rewrite H2.
    + eexists _, [_], _. split; [done|]. split; [done|]. intros x Hx _ Hdx.
      unfold state_of. rewrite H2; [done|]. congruence.
Qed.

Lemma sched_inv_env e e' s q l live :
  lapic_id e' = lapic_id e -> sched_inv e s q l live -> sched_inv e' s q l live.
Proof.
  intros Hid []. assert (current_task e' s = current_task e s) as Hc
    by (unfold current_task; by rewrite Hid).
  split; rewrite ?Hc, ?Hid; done.
Qed.

(** What every reachable state satisfies. *)
Lemma steps_inv e s s' q l live :
  sched_inv e s q l live -> steps (lapic_id e) s s' ->
  exists q' l' live', sched_inv e s' q' (l ++ l') live' /\ idle_task s' = idle_task s
    /\ forall t, t ∈ l -> t <> idle_task s -> state_of s t = Dead -> state_of s' t = Dead.
Proof.
  intros Hinv Hsteps. remember (lapic_id e) as cpu eqn:Hcpu. revert q l live Hinv.
  induction Hsteps as [s|e' s o s' He Hok _ IH]; intros q l live Hinv.
  - exists q, [], live. by rewrite app_nil_r.
  - destruct (run_op_spec e' s q l live o) as (q1 & l1 & live1 & H1 & Hid & Hd);
      [eapply sched_inv_env; [|done]; congruence|done|].
    apply (sched_inv_env _ e) in H1; [|congruence].
    destruct (IH _ _ _ H1) as (q2 & l2 & live2 & H2 & Hid2 & Hd2).
    exists q2, (l1 ++ l2), live2. rewrite app_assoc. split_and!; [done|congruence|].
    intros t Ht Hti Hdt. apply Hd2; [by apply elem_of_app; left|congruence|auto].
Qed.

(** C27. Whatever sequence of scheduler operations runs on a CPU (yields, timer
    ticks, blocking, exits, wake-ups of known tasks, creation and enqueueing
    of tasks, the start of the scheduler), the scheduler stays consistent:
    both linked lists are well formed, the current task is marked running and
    is not queued, every queued task is a runnable task of the task list,
    every ready task is queued, and no task leaves the task list. *)
Theorem sched_invariant e s s' q l live :
  sched_inv e s q l live -> steps (lapic_id e) s s' ->
  exists q' l' live', sched_inv e s' q' (l ++ l') live'.
Proof. intros Hinv Hs. destruct (steps_inv _ _ _ _ _ _ Hinv Hs) as (q' & l' & live' & ? & _). eauto. Qed.

(** A task that has exited never runs again: in every later state it is still
    dead, it is not the current task and it is not in the ready queue. *)
Theorem dead_task_never_runs e s s' q l live t :
  sched_inv e s q l live -> t ∈ l -> t <> idle_task s -> state_of s t = Dead ->
  steps (lapic_id e) s s' ->
  state_of s' t = Dead /\ current_task e s' <> t
  /\ forall q', dl_rep (global_ready_queue s') q' -> t ∉ q'.
Proof.
  intros Hinv Ht Hti Hd Hs. destruct (steps_inv _ _ _ _ _ _ Hinv Hs) as (q' & l' & live' & Hinv' & _ & Hd').
  specialize (Hd' t Ht Hti Hd). split_and!; [done| |].
  - intros <-. rewrite (i_running _ _ _ _ _ Hinv') in Hd'. done.
  - intros q2 Hq2 Hin. rewrite (dl_rep_fun _ _ _ Hq2 (i_rq _ _ _ _ _ Hinv')) in Hin.
    destruct (i_queued _ _ _ _ _ Hinv' t Hin) as [_ [|]]; congruence.
Qed.

(** ** Round robin *)

(** Scheduling points: [true] a voluntary yield, [false] a timer tick. *)
Definition tick e (b : bool) s : sched A :=
  if b then (yield e s).2 else (sched_do_preempt e s).2.

Definition ticks e (bs : list bool) s : sched A := foldl (fun s b => tick e b s) s bs.

Lemma rotate_hd q (c : Z) : hd_or q c :: tl (q ++ [c]) = q ++ [c].
Proof. by destruct q. Qed.

Lemma tick_rotates e b s q l live :
  sched_inv e s q l live -> scheduler_active s = true ->
  exists q', sched_inv e (tick e b s) q' l live /\ scheduler_active (tick e b s) = true
    /\ current_task e (tick e b s) :: q' = q ++ [current_task e s].
Proof.
  intros Hinv Ha. unfold tick. destruct b.
  - destruct (yield_cases _ _ _ _ _ Hinv) as [H1 (H2 & _ & _ & _ & H3)].
    eexists. split_and!; [done|congruence|]. by rewrite H2, rotate_hd.
  - pose proof (preempt_cases _ _ _ _ _ Hinv) as Hp. cbn in Hp. rewrite Ha in Hp.
    destruct Hp as [H1 (H2 & _ & _ & _ & H3)].
    eexists. split_and!; [done|by rewrite H3|]. by rewrite H2, rotate_hd.
Qed.

(** C26. Round robin: at each yield or timer tick the head of the queue runs and
    the running task goes to its end.  So with [c :: q] the current task and
    the queue, after [k] scheduling points the task at position [k] runs, and
    no queued task waits for more scheduling points than its position. *)
Theorem round_robin e s q l live bs :
  sched_inv e s q l live -> scheduler_active s = true -> (length bs <= length q)%nat ->
  let c := current_task e s in
  let k := length bs in
  let s' := ticks e bs s in
  (c :: q) !! k = Some (current_task e s')
  /\ exists q', sched_inv e s' q' l live
       /\ current_task e s' :: q' = drop k (c :: q) ++ take k (c :: q).
Proof.
  intros Hinv Ha Hk c k s'. subst c k s'.
  assert (exists q', sched_inv e (ticks e bs s) q' l live /\ scheduler_active (ticks e bs s) = true
    /\ current_task e (ticks e bs s) :: q'
       = drop (length bs) (current_task e s :: q) ++ take (length bs) (current_task e s :: q))
    as (q' & H1 & _ & H2).
  { clear -Hinv Ha Hk. induction bs as [|b bs IH] using rev_ind.
    - exists q. by rewrite app_nil_r.
    - rewrite length_app in *. cbn [length] in *.
      destruct IH as (q1 & H1 & Ha1 & H2); [lia|].
      unfold ticks. rewrite foldl_app. cbn [foldl]. fold (ticks e bs s).
      destruct (tick_rotates e b _ _ _ _ H1 Ha1) as (q2 & H3 & Ha2 & H4).
      exists q2. split_and!; [done|done|]. rewrite H4.
      destruct (lookup_lt_is_Some_2 (current_task e s :: q) (length bs)) as [x Hx]; [cbn; lia|].
      rewrite (drop_S _ _ _ Hx) in H2. cbn in H2. injection H2 as -> ->.
      rewrite Nat.add_1_r, (take_S_r _ _ _ Hx). by rewrite app_assoc. }
  split; [|eauto]. rewrite <- (Nat.add_0_r (length bs)), <- lookup_drop.
  assert (0 < length (drop (length bs) (current_task e s :: q)))%nat by (rewrite length_drop; cbn; lia).
  rewrite <- (lookup_app_l _ (take (length bs) (current_task e s :: q))) by done.
  by rewrite <- H2.
Qed.

(** ** Blocking and waking *)

(** A task that blocks leaves the CPU to the head of the queue (or to the idle
    task), is not queued any more, and stays blocked until it is woken; the
    first wake-up queues it at the end, further ones change nothing. *)
Theorem block_wake e s q l live :
  sched_inv e s q l live -> current_task e s <> idle_task s ->
  let t := current_task e s in
  let s1 := (block e s).2 in
  let s2 := wake t s1 in
  state_of s1 t = Blocked /\ current_task e s1 = hd_or q (idle_task s)
  /\ sched_inv e s1 (tl q) l live
  /\ state_of s2 t = Ready /\ sched_inv e s2 (tl q ++ [t]) l live
  /\ wake t s2 = s2.
Proof.
  intros Hinv Hti t s1 s2. destruct (block_cases _ _ _ _ _ Hinv) as [H1 (H2 & _ & H3 & _)].
  fold s1 t in H1, H2, H3.
  assert (hd_or q (idle_task s) <> t) as Hne.
  { destruct q as [|x q]; [done|]. intros Hx. apply (i_cur_q _ _ _ _ _ Hinv).
    fold t. rewrite <- Hx. by apply elem_of_cons; left. }
  assert (state_of s1 t = Blocked) as Hb.
  { rewrite H3, decide_False by done. by rewrite state_of_set_state, decide_True. }
  pose proof (wake_cases _ _ _ _ _ t H1 (i_cur _ _ _ _ _ Hinv)) as Hw. rewrite decide_True in Hw by done.
  destruct Hw as [H4 H5]. fold s2 in H4, H5.
  assert (state_of s2 t = Ready) as Hr by (rewrite H5; by rewrite decide_True).
  split_and!; try done. unfold wake at 1. rewrite bool_decide_false; [done|]. congruence.
Qed.

(** ** Creation and start-up *)

(** Creating a task either fails and leaves the scheduler and the kernel heap
    as they were (a task structure allocated before the stack could not be is
    released), or links a new task at the end of the queue and of the task
    list whose first context switch enters the trampoline with zeroed
    callee-saved registers. *)
Theorem create_task_spec e s q l live entry arg name :
  sched_inv e s q l live ->
  let r := create_task e entry arg name s in
  (r.1 = 0 /\ sched_inv e r.2 q l live /\ tasks r.2 = tasks s)
  \/ ((r.1 ∉ l) /\ live !! r.1 = None
     /\ sched_inv e r.2 (q ++ [r.1]) (l ++ [r.1]) (<[r.1 := sizeof_Task]> live)
     /\ fresh_task e s r.2 r.1 entry arg name
     /\ forall x, x <> r.1 -> task_at r.2 x = task_at s x).
Proof. apply create_task_internal_cases. Qed.

Lemma create_set_idle e entry arg name s x :
  create_task_internal e entry arg name (set_idle x s)
  = let r := create_task_internal e entry arg name s in (r.1, set_idle x r.2).
Proof.
  unfold create_task_internal, allocate_task.
  change (kernel_heap (set_idle x s)) with (kernel_heap s).
  destruct (kalloc (kernel_heap s) sizeof_Task alignof_Task) as [t h].
  destruct (t =? 0); [done|].
  change (kernel_heap (set_heap h (set_idle x s))) with h.
  change (kernel_heap (set_heap h s)) with h.
  destruct (ka_alloc_pages h stack_pages) as [phys h']. by destruct (phys =? _).
Qed.

Lemma create_task_current e entry arg name s :
  current_tasks (create_task_internal e entry arg name s).2 = current_tasks s.
Proof.
  unfold create_task_internal, allocate_task.
  destruct (kalloc _ _ _) as [t h]. case_match; [done|].
  destruct (ka_alloc_pages _ _) as [phys h']. by case_match.
Qed.

Lemma set_idle_inv e s q l live x :
  sched_inv e s q l live -> x ∈ l -> sched_inv e (set_idle x s) q l live.
Proof. by intros [] ?. Qed.

Lemma init_task_system_cases e s s' live :
  0 <= lapic_id e < CONFIG_MAX_CPUS -> ka_wf (kernel_heap s) live ->
  init_task_system e (lapic_id e) s = Some s' -> idle_task s' <> 0 ->
  let bsp := current_task e s' in
  let idle := idle_task s' in
  sched_inv e s' [idle] [bsp; idle] (<[idle := sizeof_Task]> (<[bsp := sizeof_Task]> live))
  /\ live !! bsp = None /\ live !! idle = None /\ t_entry (task_at s' idle) = idle_entry e.
Proof.
  intros He Hheap. unfold init_task_system, allocate_task.
  match goal with |- context [kalloc (kernel_heap ?x) _ _] => set (s0 := x) end.
  pose proof (kalloc_law (kernel_heap s0) live sizeof_Task alignof_Task Hheap eq_refl) as Hk.
  destruct (kalloc (kernel_heap s0) sizeof_Task alignof_Task) as [bsp h]. cbn [fst snd] in Hk.
  destruct Hk as [[-> _]|(Hb & Hnone & Hh)]; [done|].
  replace (bsp =? 0) with false by lia.
  replace (lapic_id e <? CONFIG_MAX_CPUS) with true by lia.
  match goal with |- context [create_task_internal _ _ _ _ ?x] => set (s1 := x) end.
  assert (sched_inv e (set_idle bsp s1) [] [bsp] (<[bsp := sizeof_Task]> live)) as Hinv1.
  { assert (current_task e (set_idle bsp s1) = bsp) as Hc.
    { rewrite current_task_get by done. cbn. by rewrite aget_aset_eq. }
    split; rewrite ?Hc; try done.
    - apply dl_rep_empty.
    - apply (dl_push_back_rep (dl_empty _) []); [apply dl_rep_empty|lia|by apply not_elem_of_nil].
    - intros t ->%list_elem_of_singleton. rewrite dom_insert_L. set_solver.
    - by apply list_elem_of_singleton.
    - unfold state_of, task_at; cbn. by rewrite aget_aset_eq.
    - by apply not_elem_of_nil.
    - by intros t ?%elem_of_nil.
    - intros t ->%list_elem_of_singleton. unfold state_of, task_at; cbn. by rewrite aget_aset_eq.
    - by apply list_elem_of_singleton. }
  pose proof (create_task_internal_cases _ _ _ _ _ (idle_entry e) 0 (Some idle_name) Hinv1) as Hc.
  rewrite create_set_idle in Hc. cbn zeta in Hc.
  pose proof (create_task_current e (idle_entry e) 0 (Some idle_name) s1) as Hcur2.
  destruct (create_task_internal e (idle_entry e) 0 (Some idle_name) s1) as [idle s2].
  cbn [fst snd] in Hc, Hcur2. intros [= <-] Hi0.
  cbn in Hi0. destruct Hc as [[-> _]|(Hni & Hnone2 & Hinv2 & Hfresh & _)]; [done|].
  change (idle_task (set_idle idle s2)) with idle.
  assert (current_task e s2 = bsp) as Hcur.
  { unfold current_task. rewrite Hcur2. change (current_task e s1 = bsp).
    rewrite current_task_get by done. cbn. by rewrite aget_aset_eq. }
  change (current_task e (set_idle idle s2)) with (current_task e s2). rewrite Hcur.
  split_and!; [|done| |].
  - apply (set_idle_inv _ _ _ _ _ idle) in Hinv2; [exact Hinv2|]. set_solver.
  - apply lookup_insert_None in Hnone2. naive_solver.
  - by destruct Hfresh as (? & _ & _ & _ & _ & _ & ? & _).
Qed.

(** Start-up: unless memory runs out, [init_task_system] leaves the boot code
    running as a task of its own and the idle task alone in the queue,
    whatever the scheduler state was before. *)
Theorem init_task_system_spec e s s' live :
  0 <= lapic_id e < CONFIG_MAX_CPUS -> ka_wf (kernel_heap s) live ->
  init_task_system e (lapic_id e) s = Some s' -> idle_task s' <> 0 ->
  let bsp := current_task e s' in
  let idle := idle_task s' in
  sched_inv e s' [idle] [bsp; idle] (<[idle := sizeof_Task]> (<[bsp := sizeof_Task]> live))
  /\ live !! bsp = None /\ live !! idle = None /\ t_entry (task_at s' idle) = idle_entry e.
Proof. apply init_task_system_cases. Qed.

(** ** A timer tick inside a yield *)

(** [yield] with the timer interrupt taken between its two statements, after
    the current task was queued and before another one is chosen. *)
Definition yield_interrupted e s : Switch * sched A :=
  let current := current_task e s in
  let s := if negb (current =? 0) then ready_queue_push current s else s in
  sched_do_preempt e s.

Lemma dl_push_twice d l t :
  dl_rep d l -> t <> 0 -> (t ∉ l) ->
  let d' := dl_push_back (dl_push_back d t) t in
  head d' = hd_or l t /\ tail d' = t /\ aget (nxt d') t = t
  /\ forall x k, l = x :: k -> aget (nxt d') x = hd_or k t.
Proof.
  intros Hd Ht0 Htl. pose proof (dl_push_back_rep _ _ _ Hd Ht0 Htl) as [Hh Ht _ _ Hl].
  rewrite last_or_app in Ht. cbn in Ht. rewrite hd_or_snoc in Hh.
  set (d1 := dl_push_back d t) in *. clearbody d1. cbn. unfold dl_push_back. rewrite Ht. replace (t =? 0) with false by lia. cbn.
  split_and!; [done|done|aget_solve|]. intros x k ->. cbn in Hl.
  rewrite !aget_aset_ne by set_solver. rewrite (proj1 (proj2 Hl)). apply hd_or_snoc.
Qed.

(** A list whose last node points to itself is not a list. *)
Lemma dl_rep_self_loop d c q : c <> 0 -> tail d = c -> aget (nxt d) c = c -> ~ dl_rep d q.
Proof.
  intros Hc Ht Hn [_ Ht' _ _ Hl]. destruct q as [|x q _] using rev_ind; [cbn in *; congruence|].
  rewrite last_or_app in Ht'. cbn in Ht'. apply dseg_app in Hl as [_ (_ & Hx & _)]. cbn in Hx.
  congruence.
Qed.

(** Neither [yield] nor [block] disables interrupts or takes the task lock.
    A timer tick between the two statements of [yield] finds the current task
    still marked running and queues it a second time: its [ready_next] then
    points to itself, and the ready queue is no longer a list. *)
Theorem yield_interrupted_corrupts e s t q l live :
  sched_inv e s (t :: q) l live -> scheduler_active s = true ->
  let c := current_task e s in
  let s' := (yield_interrupted e s).2 in
  current_task e s' = t /\ aget (nxt (global_ready_queue s')) c = c
  /\ forall q', ~ dl_rep (global_ready_queue s') q'.
Proof.
  intros Hinv Ha c s'.
  assert (c <> 0) as Hc0 by by apply (in_list_nonnull _ _ _ (i_all _ _ _ _ _ Hinv)), Hinv.
  assert (c <> t) as Hct.
  { intros E. apply (i_cur_q _ _ _ _ _ Hinv). fold c. rewrite E. by apply elem_of_cons; left. }
  assert (t <> 0) as Ht0.
  { apply (in_list_nonnull _ _ _ (i_all _ _ _ _ _ Hinv)), Hinv. by apply elem_of_cons; left. }
  pose proof (i_cpu _ _ _ _ _ Hinv) as Hcpu.
  destruct (dl_push_twice _ _ c (i_rq _ _ _ _ _ Hinv) Hc0 (i_cur_q _ _ _ _ _ Hinv))
    as (Hh & Htl & Hn & Hnt). cbn [hd_or] in Hh.
  set (d2 := dl_push_back (dl_push_back (global_ready_queue s) c) c) in *.
  assert (exists s1, s' = (schedule_internal e s1).2 /\ global_ready_queue s1 = d2
    /\ current_task e s1 = c) as (s1 & Es & Erq & Ec).
  { subst s'. unfold yield_interrupted, sched_do_preempt. fold c.
    replace (c =? 0) with false by lia. cbn [negb].
    replace (CONFIG_MAX_CPUS <=? lapic_id e) with false by lia.
    cbn [scheduler_active set_need ready_queue_push set_rq]. rewrite Ha. cbn [negb].
    match goal with |- context [current_task e ?x] => change (current_task e x) with c;
      change (state_of x c) with (state_of s c) end.
    replace (c =? 0) with false by lia. rewrite bool_decide_true by apply Hinv.
    eexists. split; [reflexivity|]. done. }
  assert (exists d3, dl_pop_front d2 = (t, d3) /\ tail d3 = c /\ aget (nxt d3) c = c) as (d3 & Ep & Ht3 & Hn3).
  { unfold dl_pop_front. rewrite Hh. replace (t =? 0) with false by lia.
    rewrite (Hnt t q eq_refl).
    assert (hd_or q c <> 0) as Hq0.
    { destruct q as [|x q]; [done|]. cbn. pose proof (rep_nonnull _ _ (i_rq _ _ _ _ _ Hinv)). set_solver. }
    replace (hd_or q c =? 0) with false by lia. cbn [negb]. eexists. split; [reflexivity|].
    cbn. rewrite aget_aset_ne by congruence. done. }
  assert (s' = (switch_to e (current_task e (set_rq d3 s1)) t (set_rq d3 s1)).2) as Es2.
  { rewrite Es. unfold schedule_internal, ready_queue_pop. rewrite Erq, Ep.
    by replace (t =? 0) with false by lia. }
  destruct (switch_to_spec e (set_rq d3 s1) t Hcpu) as ((E1 & _) & E2 & _);
    [change (current_task e s1 <> 0); congruence|].
  rewrite <- Es2 in E1, E2. cbn in E2. rewrite E2. split_and!; [done|done|].
  intros q'. by apply (dl_rep_self_loop _ c).
Qed.

End Invariant.

(** * Concrete states *)

(** A bump allocator: the smallest implementation of the interface. *)
#[export, refine] Instance bump_alloc : KernelAlloc Z := {|
  ka_wf a live := 0 < a < 2 ^ 64 /\ forall p, p ∈ dom live -> p < a;
  kalloc a size _ := if a + size <? 2 ^ 64 then (a, a + size) else (0, a);
  kfree a _ _ := a;
  ka_alloc_pages a _ := (0x200000, a);
|}.
Proof.
  - intros a live size _ [Ha Hlive] Hs. cbn. destruct (a + size <? 2 ^ 64) eqn:E; bool_to_prop; cbn.
    + right. split_and!; try lia.
      * apply not_elem_of_dom. intros Hin%Hlive. lia.
      * intros p. rewrite dom_insert_L, elem_of_union, elem_of_singleton.
        intros [->|Hp%Hlive]; lia.
    + by left.
  - intros a live p size [Ha Hlive] _. split; [done|]. intros x. rewrite dom_delete_L. set_solver.
  - done.
Defined.

Definition no_task : Task :=
  Build_Task 0 (replicate name_len 0) Ready (Build_KernelStack 0 0 0 0) 0 0 0 0 0 0.

Definition boot_sched : sched Z :=
  Sched (afill no_task) (afill 0) (DL 0 0 (afill 0) (afill 0)) 0 0 0 (afill false) false
    (DL 0 0 (afill 0) (afill 0)) (afill (Build_PerCPU 0x5000 0 0)) (afill 0)
    0xffff800000000000 0x1000.

Definition demo_env : Env := Build_Env 0 17 0x9000 0xffffffff80001000 0xffffffff80002000 0x7000.

Definition demo_init : sched Z := default boot_sched (init_task_system demo_env 0 boot_sched).
Definition demo_sched : sched Z := run_op demo_env OStart
  (run_op demo_env (OCreate 0x4000 7 (Some [116; 49])) demo_init).

(** The addresses of the three tasks: boot code, idle task, first thread. *)
Definition demo_bsp : Z := 0x1000.
Definition demo_idle : Z := 0x1000 + sizeof_Task.
Definition demo_t1 : Z := 0x1000 + 2 * sizeof_Task.

Lemma init_task_system_spec_witness :
  sched_inv demo_env demo_init [demo_idle] [demo_bsp; demo_idle]
    (<[demo_idle := sizeof_Task]> (<[demo_bsp := sizeof_Task]> ∅)).
Proof.
  refine (proj1 (init_task_system_spec demo_env boot_sched demo_init ∅ _ _ _ _)).
  - split; [done|vm_compute; reflexivity].
  - split; [split; vm_compute; reflexivity|]. intros p. by rewrite dom_empty_L, elem_of_empty.
  - vm_compute. reflexivity.
  - vm_compute. discriminate.
Defined.

Lemma demo_init_inv :
  sched_inv demo_env demo_init [demo_idle] [demo_bsp; demo_idle]
    (<[demo_idle := sizeof_Task]> (<[demo_bsp := sizeof_Task]> ∅)).
Proof.
  refine (proj1 (init_task_system_cases demo_env boot_sched demo_init ∅ _ _ _ _)).
  - split; [done|vm_compute; reflexivity].
  - split; [split; vm_compute; reflexivity|]. intros p. by rewrite dom_empty_L, elem_of_empty.
  - vm_compute. reflexivity.
  - vm_compute. discriminate.
Qed.

Definition demo_live : gmap Z Z :=
  <[demo_t1 := sizeof_Task]> (<[demo_idle := sizeof_Task]> (<[demo_bsp := sizeof_Task]> ∅)).

(** The idle task runs and the thread waits. *)
Lemma demo_sched_inv :
  sched_inv demo_env demo_sched [demo_t1] [demo_bsp; demo_idle; demo_t1] demo_live.
Proof.
  destruct (create_task_internal_cases _ _ _ _ _ 0x4000 7 (Some [116; 49]) demo_init_inv)
    as [[H _]|(_ & _ & H & _)]; [vm_compute in H; discriminate|].
  replace ((create_task_internal demo_env 0x4000 7 (Some [116; 49]) demo_init).1) with demo_t1 in H
    by (vm_compute; reflexivity).
  destruct (start_scheduler_cases _ _ _ _ _ _ H) as (s' & E & Hinv & _).
  unfold demo_sched. cbn [run_op]. unfold create_task. rewrite E. exact Hinv.
Qed.

Lemma sched_invariant_witness :
  exists q' l' live', sched_inv demo_env (run_op demo_env OBlock (run_op demo_env OPreempt demo_sched))
    q' ([demo_bsp; demo_idle; demo_t1] ++ l') live'.
Proof.
  eapply sched_invariant; [exact demo_sched_inv|].
  apply (steps_op _ demo_env _ OPreempt); [reflexivity|exact I|].
  apply (steps_op _ demo_env _ OBlock); [reflexivity|exact I|]. apply steps_refl.
Defined.

(** The thread has run and exited. *)
Definition demo_exited : sched Z := run_op demo_env OExit (run_op demo_env OYield demo_sched).

Lemma demo_exited_inv :
  sched_inv demo_env demo_exited [] [demo_bsp; demo_idle; demo_t1] demo_live.
Proof.
  destruct (yield_cases _ _ _ _ _ demo_sched_inv) as [H _].
  destruct (task_exit_cases _ _ _ _ _ H) as [H' _]. exact H'.
Qed.

Lemma dead_task_never_runs_witness :
  state_of (run_op demo_env OYield demo_exited) demo_t1 = Dead
  /\ current_task demo_env (run_op demo_env OYield demo_exited) <> demo_t1.
Proof.
  destruct (dead_task_never_runs demo_env demo_exited (run_op demo_env OYield demo_exited)
    _ _ _ demo_t1 demo_exited_inv) as (H1 & H2 & _).
  - vm_compute. right. right. left.
  - vm_compute. discriminate.
  - vm_compute. reflexivity.
  - apply (steps_op _ demo_env _ OYield); [reflexivity|exact I|]. apply steps_refl.
  - exact (conj H1 H2).
Defined.

Lemma round_robin_witness :
  [demo_idle; demo_t1] !! 1%nat = Some (current_task demo_env (ticks demo_env [false] demo_sched)).
Proof.
  refine (proj1 (round_robin demo_env demo_sched [demo_t1] _ _ [false] demo_sched_inv _ _)).
  - vm_compute. reflexivity.
  - cbn. lia.
Defined.

Lemma block_wake_witness :
  sched_inv demo_env (wake demo_t1 (block demo_env (run_op demo_env OYield demo_sched)).2)
    [demo_t1] [demo_bsp; demo_idle; demo_t1] demo_live.
Proof.
  destruct (yield_cases _ _ _ _ _ demo_sched_inv) as [H _].
  destruct (block_wake _ _ _ _ _ H) as (_ & _ & _ & _ & Hw & _).
  - vm_compute. discriminate.
  - exact Hw.
Defined.

Lemma create_task_spec_witness :
  ((create_task demo_env 0x4000 7 None demo_init).1 ∉ [demo_bsp; demo_idle]).
Proof.
  destruct (create_task_spec _ _ _ _ _ 0x4000 7 None demo_init_inv) as [[H _]|(H & _)].
  - vm_compute in H. discriminate.
  - exact H.
Defined.

Lemma yield_interrupted_corrupts_witness :
  current_task demo_env (yield_interrupted demo_env demo_sched).2 = demo_t1
  /\ aget (nxt (global_ready_queue (yield_interrupted demo_env demo_sched).2)) demo_idle = demo_idle.
Proof.
  destruct (yield_interrupted_corrupts _ _ _ _ _ _ demo_sched_inv) as (H1 & H2 & _).
  - vm_compute. reflexivity.
  - exact (conj H1 H2).
Defined.
