(* ===== verification/IList.v ===== *)
(** Circular intrusive lists: [container/intrusive_list.hpp].

    All nodes, the heads of the lists included, live in one store of [next]
    and [prev] links; 0 is the null pointer.  A list whose head was never
    written (zero-initialised) is empty; every other list is a cycle through
    its head.  [NodeOffset] is 0 for every list of the kernel, so an item and
    its node have the same address. *)

From S2P Require Import Prelude DList.

Record ilinks := IL { next : arr Z; prev : arr Z }.

Definition il_set_next (n v : Z) (m : ilinks) : ilinks := IL (aset (next m) n v) (prev m).
Definition il_set_prev (n v : Z) (m : ilinks) : ilinks := IL (next m) (aset (prev m) n v).

Definition il_empty (m : ilinks) (h : Z) : bool :=
  (aget (next m) h =? 0) || (aget (next m) h =? h).

Definition il_push_back (h node : Z) (m : ilinks) : ilinks :=
  if aget (next m) h =? 0 then
    let m := il_set_next h node m in
    let m := il_set_prev h node m in
    let m := il_set_next node h m in
    il_set_prev node h m
  else
    let m := il_set_prev node (aget (prev m) h) m in
    let m := il_set_next node h m in
    let m := il_set_next (aget (prev m) h) node m in
    il_set_prev h node m.

Definition il_push_front (h node : Z) (m : ilinks) : ilinks :=
  if aget (next m) h =? 0 then
    let m := il_set_next h node m in
    let m := il_set_prev h node m in
    let m := il_set_next node h m in
    il_set_prev node h m
  else
    let m := il_set_next node (aget (next m) h) m in
    let m := il_set_prev node h m in
    let m := il_set_prev (aget (next m) h) node m in
    il_set_next h node m.

(** Unlink a node: the body of [remove], which [pop_front] repeats. *)
Definition il_remove (node : Z) (m : ilinks) : ilinks :=
  let m := il_set_next (aget (prev m) node) (aget (next m) node) m in
  il_set_prev (aget (next m) node) (aget (prev m) node) m.

Definition il_pop_front (h : Z) (m : ilinks) : Z * ilinks :=
  if il_empty m h then (0, m)
  else let node := aget (next m) h in (node, il_remove node m).

(** Iteration from [begin] to [end]. *)
Definition il_begin (m : ilinks) (h : Z) : Z :=
  if negb (aget (next m) h =? 0) then aget (next m) h else h.

Fixpoint il_iter (fuel : nat) (m : ilinks) (h pos : Z) : list Z :=
  match fuel with
  | O => []
  | S fuel => if pos =? h then [] else pos :: il_iter fuel m h (aget (next m) pos)
  end.

(** * Representation *)

(** The list with head [h] holds the nodes [l]. *)
Definition il_rep (m : ilinks) (h : Z) (l : list Z) : Prop :=
  (aget (next m) h = 0 /\ l = [])
  \/ (aget (next m) h = hd_or l h /\ aget (prev m) h = last_or l h
      /\ dseg (next m) (prev m) h l h).

(** Only the links of its own nodes matter to a list. *)
Lemma il_rep_ext m m' h l :
  (forall x, x ∈ h :: l -> aget (next m') x = aget (next m) x /\ aget (prev m') x = aget (prev m) x) ->
  il_rep m h l -> il_rep m' h l.
Proof.
  intros Hext. destruct (Hext h) as [Hn Hp]; [by apply elem_of_cons; left|].
  assert (forall x, x ∈ l -> aget (next m') x = aget (next m) x /\ aget (prev m') x = aget (prev m) x)
    as Hl by (intros; apply Hext; by apply elem_of_cons; right).
  intros [[? ->]|(? & ? & ?)]; [left; by rewrite Hn|right].
  rewrite Hn, Hp. split_and!; [done|done|]. by eapply dseg_ext.
Qed.

Definition il_ok (h : Z) (l : list Z) : Prop := h <> 0 /\ (0 ∉ l) /\ NoDup (h :: l).

Lemma il_empty_rep m h l : il_ok h l -> il_rep m h l -> il_empty m h = bool_decide (l = []).
Proof.
  intros (Hh & H0 & Hnd) Hr. unfold il_empty. apply NoDup_cons in Hnd as [Hhl _].
  destruct Hr as [[-> ->]|(Hn & _)]; [done|]. rewrite Hn. destruct l as [|x l]; cbn [hd_or].
  - rewrite Z.eqb_refl, orb_true_r. done.
  - apply not_elem_of_cons in H0 as [? _]. apply not_elem_of_cons in Hhl as [? _].
    rewrite bool_decide_false by done. apply orb_false_iff. split; lia.
Qed.

Lemma hd_nonnull h l : il_ok h l -> hd_or l h <> 0.
Proof. intros (Hh & H0 & _). destruct l; cbn; [done|]. set_solver. Qed.

Lemma il_push_back_rep m h l x :
  il_ok h l -> il_rep m h l -> x <> h -> (x ∉ l) -> il_rep (il_push_back h x m) h (l ++ [x]).
Proof.
  intros Hok Hr Hxh Hxl. pose proof Hok as (Hh & H0 & Hnd). apply NoDup_cons in Hnd as [Hhl Hnd].
  unfold il_push_back. right. destruct (aget (next m) h =? 0) eqn:E; bool_to_prop.
  - destruct Hr as [[_ ->]|(Hn & _)]; [|by pose proof (hd_nonnull h l Hok); congruence].
    cbn. split_and!; try done; aget_solve.
  - destruct Hr as [[? _]|(Hn & Hp & Hl)]; [done|]. cbn [il_set_next il_set_prev next prev].
    rewrite Hp, (aget_aset_ne (prev m) x h) by done. rewrite Hp.
    destruct l as [|y l _] using rev_ind; cbn [last_or app hd_or].
    + cbn. split_and!; try done; aget_solve.
    + rewrite last_or_app in *. cbn [last_or] in *. rewrite hd_or_app in Hn. cbn in Hn.
      apply dseg_app in Hl as [Hl1 (Hy1 & Hy2 & _)]. cbn in Hl1, Hy2.
      apply NoDup_app in Hnd as (Hndl & Hd & _).
      assert (y ∉ l) as Hyl by (intros ?; by apply (Hd y); [|apply list_elem_of_singleton]).
      rewrite elem_of_app, list_elem_of_singleton in Hxl, Hhl.
      assert (y <> h /\ y <> x) as [Hyh Hyx] by naive_solver.
      rewrite !last_or_app. cbn [last_or]. split_and!.
      * rewrite !aget_aset_ne by congruence. rewrite Hn. by destruct l.
      * aget_solve.
      * rewrite !dseg_app. cbn [dseg hd_or last_or]. rewrite last_or_app. cbn [last_or].
        split_and!; [|aget_solve|aget_solve|done|aget_solve|aget_solve|done].
        eapply dseg_ext; [|exact Hl1].
        intros z Hz. assert (z <> y /\ z <> x /\ z <> h) as (? & ? & ?) by set_solver.
        by rewrite !aget_aset_ne by congruence.
Qed.

(** The nodes [push_back] writes. *)
Lemma il_push_back_frame m h l x z :
  il_ok h l -> il_rep m h l -> z <> h -> z <> x -> (z ∉ l) ->
  aget (next (il_push_back h x m)) z = aget (next m) z
  /\ aget (prev (il_push_back h x m)) z = aget (prev m) z.
Proof.
  intros Hok Hr Hzh Hzx Hzl. unfold il_push_back.
  destruct (aget (next m) h =? 0) eqn:E; bool_to_prop; cbn.
  - by rewrite !aget_aset_ne by congruence.
  - destruct Hr as [[? _]|(Hn & Hp & Hl)]; [done|].
    assert (aget (aset (prev m) x (aget (prev m) h)) h = last_or l h) as ->.
    { rewrite aget_aset. case_decide; congruence. }
    assert (last_or l h <> z).
    { destruct l as [|y l _] using rev_ind; cbn; [congruence|]. rewrite last_or_app. cbn. set_solver. }
    by rewrite !aget_aset_ne by congruence.
Qed.

Lemma il_push_front_rep m h l x :
  il_ok h l -> il_rep m h l -> x <> h -> (x ∉ l) -> il_rep (il_push_front h x m) h (x :: l).
Proof.
  intros Hok Hr Hxh Hxl. pose proof Hok as (Hh & H0 & Hnd). apply NoDup_cons in Hnd as [Hhl Hnd].
  unfold il_push_front. right. destruct (aget (next m) h =? 0) eqn:E; bool_to_prop.
  - destruct Hr as [[_ ->]|(Hn & _)]; [|by pose proof (hd_nonnull h l Hok); congruence].
    cbn. split_and!; try done; aget_solve.
  - destruct Hr as [[? _]|(Hn & Hp & Hl)]; [done|]. unfold il_set_next, il_set_prev. cbn [next prev].
    rewrite Hn, (aget_aset_ne (next m) x h) by done. rewrite Hn.
    destruct l as [|y l]; cbn [hd_or last_or dseg] in *.
    + split_and!; try done; aget_solve.
    + destruct Hl as (Hy1 & Hy2 & Hl). apply NoDup_cons in Hnd as [Hyl Hnd].
      assert (y <> h /\ y <> x) as [Hyh Hyx] by set_solver.
      split_and!; [aget_solve|aget_solve|aget_solve|aget_solve|aget_solve|aget_solve|].
      eapply dseg_ext; [|exact Hl]. intros z Hz. by rewrite !aget_aset_ne by set_solver.
Qed.

Lemma il_push_front_frame m h l x z :
  il_ok h l -> il_rep m h l -> z <> h -> z <> x -> (z ∉ l) ->
  aget (next (il_push_front h x m)) z = aget (next m) z
  /\ aget (prev (il_push_front h x m)) z = aget (prev m) z.
Proof.
  intros Hok Hr Hzh Hzx Hzl. unfold il_push_front.
  destruct (aget (next m) h =? 0) eqn:E; bool_to_prop; cbn.
  - by rewrite !aget_aset_ne by congruence.
  - destruct Hr as [[? _]|(Hn & Hp & Hl)]; [done|].
    assert (aget (aset (next m) x (aget (next m) h)) h = hd_or l h) as ->.
    { rewrite aget_aset. case_decide; congruence. }
    assert (hd_or l h <> z) by (destruct l; cbn; set_solver).
    by rewrite !aget_aset_ne by congruence.
Qed.

(** Iterating from [begin] to [end] visits the nodes in order. *)
Lemma il_iter_dseg m h l b fuel :
  dseg (next m) (prev m) b l h -> (h ∉ l) -> (length l < fuel)%nat ->
  il_iter fuel m h (hd_or l h) = l.
Proof.
  revert b fuel. induction l as [|x l IH]; intros b [|fuel] Hl Hh Hf; cbn in *; try lia.
  - by rewrite Z.eqb_refl.
  - apply not_elem_of_cons in Hh as [Hx Hh]. destruct Hl as (_ & -> & Hl).
    replace (x =? h) with false by lia. f_equal. eapply IH; [done|done|lia].
Qed.

Lemma il_iter_rep m h l fuel :
  il_ok h l -> il_rep m h l -> (length l < fuel)%nat -> il_iter fuel m h (il_begin m h) = l.
Proof.
  intros Hok Hr Hf. unfold il_begin. pose proof Hok as (Hh & _ & Hnd). apply NoDup_cons in Hnd as [Hhl _].
  destruct Hr as [[-> ->]|(Hn & _ & Hl)]; cbn.
  - destruct fuel; cbn; [done|]. by rewrite Z.eqb_refl.
  - rewrite Hn. pose proof (hd_nonnull h l Hok).
    replace (hd_or l h =? 0) with false by lia. by eapply il_iter_dseg.
Qed.

(** The neighbours of a node are the only nodes that [remove] writes. *)
Lemma il_neighbours m h l x k :
  il_rep m h (l ++ x :: k) ->
  aget (prev m) x = last_or l h /\ aget (next m) x = hd_or k h.
Proof.
  intros [[_ E]|(_ & _ & Hl)]; [by destruct l|].
  apply dseg_app in Hl as [_ Hx]. cbn in Hx. naive_solver.
Qed.

Lemma last_or_in l h z : z <> h -> (z ∉ l) -> last_or l h <> z.
Proof.
  intros Hzh Hzl. destruct l as [|y l _] using rev_ind; cbn; [congruence|].
  rewrite last_or_app. cbn. set_solver.
Qed.

Lemma hd_or_in l h z : z <> h -> (z ∉ l) -> hd_or l h <> z.
Proof. destruct l; cbn; [congruence|]. set_solver. Qed.

Lemma il_remove_frame m h l x k z :
  il_rep m h (l ++ x :: k) -> z <> h -> (z ∉ l) -> (z ∉ k) ->
  aget (next (il_remove x m)) z = aget (next m) z
  /\ aget (prev (il_remove x m)) z = aget (prev m) z.
Proof.
  intros Hr Hzh Hzl Hzk. destruct (il_neighbours _ _ _ _ _ Hr) as [Hp Hn].
  unfold il_remove. cbn [il_set_next il_set_prev next prev].
  rewrite Hp. rewrite (aget_aset (next m) (last_or l h) x), Hn.
  pose proof (last_or_in l h z Hzh Hzl). pose proof (hd_or_in k h z Hzh Hzk).
  case_decide; by rewrite !aget_aset_ne by done.
Qed.

Lemma il_remove_rep m h l x k :
  il_ok h (l ++ x :: k) -> il_rep m h (l ++ x :: k) -> il_rep (il_remove x m) h (l ++ k).
Proof.
  intros (Hh & H0 & Hnd) Hr. destruct (il_neighbours _ _ _ _ _ Hr) as [Hp Hn].
  destruct Hr as [[_ E]|(Hhn & Hhp & Hl)]; [by destruct l|].
  apply dseg_app in Hl as [Hl Hk]. cbn in Hl, Hk. destruct Hk as (_ & _ & Hk).
  rewrite hd_or_app in Hhn. rewrite last_or_app in Hhp. cbn in Hhn, Hhp.
  apply NoDup_cons in Hnd as [Hhl Hnd]. apply NoDup_app in Hnd as (Hndl & Hlk & Hndk).
  apply NoDup_cons in Hndk as [Hxk Hndk].
  rewrite elem_of_app, elem_of_cons in Hhl.
  assert (x ∉ l) as Hxl by (intros Hin; apply (Hlk x Hin); by apply elem_of_cons; left).
  assert (x <> h) as Hxh by naive_solver.
  assert (forall y, y ∈ l -> y ∉ k) as Hdis
    by (intros y Hy ?; apply (Hlk y Hy); by apply elem_of_cons; right).
  assert (last_or l h <> x) as Hpx by by apply last_or_in.
  unfold il_remove. cbn [il_set_next il_set_prev next prev].
  rewrite Hp. rewrite (aget_aset_ne (next m) _ x) by done. rewrite Hn.
  right. unfold il_set_next, il_set_prev. cbn [next prev].
  rewrite hd_or_app, last_or_app, dseg_app.
  destruct l as [|y l _] using rev_ind; cbn [hd_or last_or dseg].
  - destruct k as [|z k]; cbn [hd_or last_or dseg] in *.
    + rewrite !aget_aset_eq. done.
    + destruct Hk as (Hz1 & Hz2 & Hk). apply NoDup_cons in Hndk as [Hzk _].
      assert (h <> z /\ z <> x) as [? ?] by set_solver.
      rewrite !aget_aset_eq, !aget_aset_ne by done. split_and!; try done.
      eapply dseg_ext; [|exact Hk]. intros w Hw.
      by rewrite !aget_aset_ne by set_solver.
  - rewrite hd_or_app, !last_or_app in *. cbn [hd_or last_or] in *.
    apply dseg_app in Hl as [Hl (Hy1 & Hy2 & _)]. cbn in Hl, Hy2.
    apply NoDup_app in Hndl as (_ & Hyl & _).
    assert (y <> h /\ y <> x /\ y ∉ l /\ y ∉ k) as (Hyh & Hyx & Hyl' & Hyk).
    { split_and!; [set_solver|set_solver| |set_solver]. intros ?. by apply (Hyl y); [|apply list_elem_of_singleton]. }
    assert (forall w, w ∈ l -> w <> y /\ w <> h /\ w ∉ k) as Hw by set_solver.
    rewrite dseg_app. cbn [dseg hd_or last_or].
    destruct k as [|z k]; cbn [hd_or last_or dseg] in *.
    + rewrite !aget_aset_eq. rewrite !aget_aset_ne by congruence. rewrite Hhn, Hy1. split_and!; try done.
      eapply dseg_ext; [|exact Hl]. intros w (? & ? & _)%Hw. by rewrite !aget_aset_ne by congruence.
    + destruct Hk as (Hz1 & Hz2 & Hk). apply NoDup_cons in Hndk as [Hzk _].
      assert (z <> h /\ z <> y /\ z <> x) as (Hzh & Hzy & Hzx) by set_solver.
      rewrite !aget_aset_eq. rewrite !aget_aset_ne by congruence. rewrite Hhn, Hy1. split_and!; try done.
      * eapply dseg_ext; [|exact Hl]. intros w Hwl. destruct (Hw w Hwl) as (? & ? & ?).
        by rewrite !aget_aset_ne by set_solver.
      * eapply dseg_ext; [|exact Hk]. intros w Hwk.
        assert (w <> y /\ w <> z) as [? ?] by set_solver. by rewrite !aget_aset_ne by congruence.
Qed.

Lemma il_pop_front_nil m h : il_ok h [] -> il_rep m h [] -> il_pop_front h m = (0, m).
Proof. intros Hok Hr. unfold il_pop_front. by rewrite (il_empty_rep _ _ [] Hok Hr). Qed.

Lemma il_pop_front_rep m h x l :
  il_ok h (x :: l) -> il_rep m h (x :: l) -> il_pop_front h m = (x, il_remove x m).
Proof.
  intros Hok Hr. unfold il_pop_front. rewrite (il_empty_rep _ _ _ Hok Hr).
  rewrite bool_decide_false by done. destruct Hr as [[_ ?]|(-> & _)]; done.
Qed.

(** * A family of lists in one store

    [L] maps the head of every list to its nodes. *)

Definition il_nodes (L : gmap Z (list Z)) (x : Z) : Prop :=
  is_Some (L !! x) \/ exists h l, L !! h = Some l /\ x ∈ l.

Record il_fam (m : ilinks) (L : gmap Z (list Z)) : Prop := {
  f_rep : forall h l, L !! h = Some l -> il_rep m h l;
  f_ok : forall h l, L !! h = Some l -> il_ok h l;
  f_heads : forall h l x, L !! h = Some l -> x ∈ l -> L !! x = None;
  f_disj : forall h l h' l' x, L !! h = Some l -> L !! h' = Some l' -> x ∈ l -> x ∈ l' -> h = h';
}.

Lemma fam_empty m L h l : il_fam m L -> L !! h = Some l -> il_empty m h = bool_decide (l = []).
Proof. intros Hf Hh. by apply il_empty_rep; eapply Hf. Qed.

(** Linking a node that is in no list, anywhere in the list. *)
Lemma fam_add m m' L h l l' x :
  il_fam m L -> L !! h = Some l -> x <> 0 -> ~ il_nodes L x ->
  l' ≡ₚ x :: l -> il_rep m' h l' ->
  (forall z, z <> h -> z <> x -> (z ∉ l) ->
     aget (next m') z = aget (next m) z /\ aget (prev m') z = aget (prev m) z) ->
  il_fam m' (<[h := l']> L).
Proof.
  intros [Hr Hok Hh Hd] Hl Hx0 Hx Hperm Hrep Hframe.
  assert (L !! x = None) as HLx by (apply eq_None_not_Some; intros ?; apply Hx; by left).
  assert (forall h' l', L !! h' = Some l' -> x ∉ l') as Hxl by (intros h' l1 ? ?; apply Hx; right; eauto).
  assert (x <> h) as Hxh by congruence.
  assert (forall z, z ∈ l' <-> z = x \/ z ∈ l) as Hin by (intros z; by rewrite Hperm, elem_of_cons).
  destruct (Hok h l Hl) as (Hh0 & H0 & Hnd). apply NoDup_cons in Hnd as [Hhl Hnd].
  split.
  - intros h' l1. rewrite lookup_insert. case_decide as E.
    + intros [= <-]. by subst h'.
    + intros Hl'. eapply il_rep_ext; [|by apply Hr]. intros z Hz. apply Hframe.
      * apply elem_of_cons in Hz as [->|Hz]; [done|]. intros ->. by rewrite (Hh h' l1 h) in Hl.
      * apply elem_of_cons in Hz as [->|Hz]; [congruence|]. intros ->. by eapply Hxl.
      * apply elem_of_cons in Hz as [->|Hz]; [|intros ?; by apply E, (Hd h l h' l1 z)].
        intros Hin'. by rewrite (Hh h l h' Hl Hin') in Hl'.
  - intros h' l1. rewrite lookup_insert. case_decide as E; [|eauto].
    intros [= <-]. subst h'. split_and!; [done|rewrite Hin; naive_solver|].
    apply NoDup_cons. rewrite Hin. split; [naive_solver|]. rewrite Hperm.
    apply NoDup_cons. split; [by eapply Hxl|done].
  - intros h' l1 z. rewrite !lookup_insert_None, lookup_insert. case_decide as E.
    + intros [= <-] [-> |Hz]%Hin; [done|].
      split; [by eapply Hh|]. intros ->. by rewrite (Hh z l z) in Hl.
    + intros Hl' Hz. split; [by eapply Hh|]. intros ->. by rewrite (Hh h' l1 z) in Hl.
  - intros h1 l1 h2 l2 z. rewrite !lookup_insert.
    do 2 case_decide; try (intros; congruence); intros E1 E2; simplify_eq; eauto;
      rewrite ?Hin; naive_solver.
Qed.

Lemma fam_push_back m L h l x :
  il_fam m L -> L !! h = Some l -> x <> 0 -> ~ il_nodes L x ->
  il_fam (il_push_back h x m) (<[h := l ++ [x]]> L).
Proof.
  intros Hf Hl Hx0 Hx. pose proof (f_ok _ _ Hf h l Hl) as Hok. pose proof (f_rep _ _ Hf h l Hl) as Hr.
  eapply (fam_add m _ L h l); eauto.
  - by rewrite Permutation_app_comm.
  - apply il_push_back_rep; [done|done| |].
    + intros ->. apply Hx. left. eauto.
    + intros ?. apply Hx. right. eauto.
  - intros z ? ? ?. by apply (il_push_back_frame m h l x z).
Qed.

Lemma fam_push_front m L h l x :
  il_fam m L -> L !! h = Some l -> x <> 0 -> ~ il_nodes L x ->
  il_fam (il_push_front h x m) (<[h := x :: l]> L).
Proof.
  intros Hf Hl Hx0 Hx. pose proof (f_ok _ _ Hf h l Hl) as Hok. pose proof (f_rep _ _ Hf h l Hl) as Hr.
  eapply (fam_add m _ L h l); eauto.
  - apply il_push_front_rep; [done|done| |].
    + intros ->. apply Hx. left. eauto.
    + intros ?. apply Hx. right. eauto.
  - intros z ? ? ?. by apply (il_push_front_frame m h l x z).
Qed.

(** Unlinking a node of a list; it is then in no list. *)
Lemma fam_remove m L h l x k :
  il_fam m L -> L !! h = Some (l ++ x :: k) ->
  il_fam (il_remove x m) (<[h := l ++ k]> L) /\ ~ il_nodes (<[h := l ++ k]> L) x /\ x <> 0.
Proof.
  intros [Hr Hok Hh Hd] Hl.
  assert (x ∈ l ++ x :: k) as Hx by set_solver.
  pose proof (Hok h _ Hl) as (Hh0 & H0 & Hnd). pose proof Hnd as Hnd2.
  apply NoDup_cons in Hnd as [Hhl Hnd]. apply NoDup_app in Hnd as (Hndl & Hlk & Hndk).
  apply NoDup_cons in Hndk as [Hxk Hndk].
  assert (forall y, y ∈ l ++ k -> y ∈ l ++ x :: k) as Hsub by set_solver.
  assert (x ∉ l ++ k) as Hxlk.
  { intros [Hin|Hin]%elem_of_app; [|done]. apply (Hlk x Hin). by apply elem_of_cons; left. }
  split_and!; [split| |set_solver].
  - intros h' l'. rewrite lookup_insert. case_decide as E.
    + intros [= <-]. subst h'. apply il_remove_rep; eauto.
    + intros Hl'. eapply il_rep_ext; [|by apply Hr]. intros z Hz.
      assert (z ∉ l ++ x :: k) as Hzl.
      { intros Hin. apply elem_of_cons in Hz as [->|Hz]; [by rewrite (Hh h _ h' Hl Hin) in Hl'|].
        by apply E, (Hd h _ h' l' z Hl Hl'). }
      apply (il_remove_frame m h l x k z); eauto; [|set_solver..].
      apply elem_of_cons in Hz as [->|Hz]; [done|]. intros ->. by rewrite (Hh h' l' h) in Hl.
  - intros h' l'. rewrite lookup_insert. case_decide as E; [|eauto].
    intros [= <-]. subst h'. split_and!; [done|set_solver|].
    apply NoDup_cons. split; [set_solver|]. apply NoDup_app. split_and!; [done| |done].
    intros z Hz ?. apply (Hlk z Hz). by apply elem_of_cons; right.
  - intros h' l' z. rewrite lookup_insert_None, lookup_insert. case_decide as E.
    + intros [= <-] Hz%Hsub. split; [by eapply Hh|]. intros ->. by rewrite (Hh z _ z Hl Hz) in Hl.
    + intros Hl' Hz. split; [by eapply Hh|]. intros ->. by rewrite (Hh h' l' z Hl' Hz) in Hl.
  - intros h1 l1 h2 l2 z. rewrite !lookup_insert.
    do 2 case_decide; intros E1 E2; simplify_eq; try done; eauto.
  - intros [[y Hy]|(h' & l' & Hl' & Hz)].
    + rewrite lookup_insert in Hy. case_decide; [subst; set_solver|]. by rewrite (Hh h _ x Hl Hx) in Hy.
    + rewrite lookup_insert in Hl'. case_decide; [simplify_eq; done|].
      by assert (h = h') by (eapply Hd; eauto).
Qed.

Lemma fam_pop_front m L h x l :
  il_fam m L -> L !! h = Some (x :: l) ->
  exists m', il_pop_front h m = (x, m') /\ il_fam m' (<[h := l]> L)
    /\ ~ il_nodes (<[h := l]> L) x /\ x <> 0.
Proof.
  intros Hf Hl. exists (il_remove x m).
  split; [apply (il_pop_front_rep m h x l); by eapply Hf|].
  by apply (fam_remove m L h [] x l).
Qed.

Lemma fam_pop_nil m L h : il_fam m L -> L !! h = Some [] -> il_pop_front h m = (0, m).
Proof. intros Hf Hl. apply il_pop_front_nil; by eapply Hf. Qed.

(** The intrusive list implements sequences: in a store where [h] heads the
    sequence [l] beside any other lists, emptiness and iteration show [l],
    and linking a node at either end, popping and removing change [l]
    accordingly, leave every other list of the store alone, and keep all
    lists well formed. *)
Theorem intrusive_list_refines m L h l :
  il_fam m L -> L !! h = Some l ->
  il_empty m h = bool_decide (l = [])
  /\ il_iter (S (length l)) m h (il_begin m h) = l
  /\ (forall x, x <> 0 -> ~ il_nodes L x ->
        il_fam (il_push_back h x m) (<[h := l ++ [x]]> L)
        /\ il_fam (il_push_front h x m) (<[h := x :: l]> L))
  /\ (l = [] -> il_pop_front h m = (0, m))
  /\ (forall x k, l = x :: k -> (il_pop_front h m).1 = x
        /\ il_fam (il_pop_front h m).2 (<[h := k]> L))
  /\ (forall k x k', l = k ++ x :: k' ->
        il_fam (il_remove x m) (<[h := k ++ k']> L) /\ ~ il_nodes (<[h := k ++ k']> L) x).
Proof.
  intros Hf Hl. split_and!.
  - by eapply fam_empty.
  - apply il_iter_rep; [by eapply Hf|by eapply Hf|lia].
  - intros x Hx0 Hx. split; [by apply fam_push_back|by apply fam_push_front].
  - intros ->. by eapply fam_pop_nil.
  - intros x k ->. destruct (fam_pop_front _ _ _ _ _ Hf Hl) as (m' & -> & ? & _). done.
  - intros k x k' ->. destruct (fam_remove _ _ _ _ _ _ Hf Hl) as (? & ? & _). done.
Qed.

Lemma intrusive_list_refines_witness :
  il_empty (IL (afill 0) (afill 0)) 8 = true
  /\ il_fam (il_push_back 8 64 (IL (afill 0) (afill 0))) (<[8 := [] ++ [64]]> {[ 8 := [] ]}).
Proof.
  destruct (intrusive_list_refines (IL (afill 0) (afill 0)) {[ 8 := [] ]} 8 []) as (H1 & _ & H2 & _).
  - split.
    + intros h l [<- <-]%lookup_singleton_Some. left. split; [reflexivity|reflexivity].
    + intros h l [<- <-]%lookup_singleton_Some.
      split_and!; [discriminate|apply not_elem_of_nil|apply NoDup_singleton].
    + intros h l x [_ <-]%lookup_singleton_Some Hx. by apply elem_of_nil in Hx.
    + intros h l h' l' x [<- _]%lookup_singleton_Some [<- _]%lookup_singleton_Some _ _. reflexivity.
  - reflexivity.
  - split; [exact H1|]. apply H2; [discriminate|].
    intros [[y Hy]|(h & l & Hl & Hx)].
    + vm_compute in Hy. discriminate.
    + apply lookup_singleton_Some in Hl as [_ <-]. by apply elem_of_nil in Hx.
Defined.
