(* ===== verification/Timer.v ===== *)
(** The timer wheel ([timer.cpp], [timer.hpp]) and the uptime clock
    ([time.cpp]).

    The buckets are the intrusive lists of [IList.v].  A callback is recorded
    in a log (tick, function, argument) instead of being run.  An operation
    returns a value, or never returns: it spins on the lock its own caller
    holds ([Deadlock]), or loops ([Diverge], when the fuel of its loops is
    used up). *)

From S2P Require Import Prelude DList IList.

(** * Uptime *)

Module Uptime.

Record clock := {
  designated_bsp_id : Z;
  timer_frequency_hz : Z;
  global_tick_count : Z;
}.

Definition init (bsp_lapic_id frequency_hz : Z) : clock :=
  {| designated_bsp_id := bsp_lapic_id;
     timer_frequency_hz := frequency_hz;
     global_tick_count := 0 |}.

Definition tick (current_lapic_id : Z) (k : clock) : clock :=
  if current_lapic_id =? designated_bsp_id k then
    {| designated_bsp_id := designated_bsp_id k;
       timer_frequency_hz := timer_frequency_hz k;
       global_tick_count := global_tick_count k +64 1 |}
  else k.

Definition uptime_ms (k : clock) : Z :=
  if timer_frequency_hz k =? 0 then 0
  else (global_tick_count k *64 1000) / timer_frequency_hz k.

End Uptime.

(** * The wheel *)

Definition kBucketCount : Z := 256.
Definition CONFIG_TIMER_MAX_ENTRIES : Z := 64.

Record TimerEntry := {
  deadline_ticks : Z;
  period_ticks : Z;
  callback : Z;
  user_data : Z;
  wheel_level : Z;
  wheel_slot : Z;
}.

(** The addresses of the static objects: the bucket heads (16 bytes each), the
    head of the free list and the pool of entries. *)
Definition level0 (slot : Z) : Z := 0x10000 + 16 * slot.
Definition level1 (slot : Z) : Z := 0x20000 + 16 * slot.
Definition free_entries : Z := 0x30000.
Definition pool (i : Z) : Z := 0x40000 + 56 * i.

Record timer := Timer {
  links : ilinks;
  entries : arr TimerEntry;
  cursor : Z;
  l1_cursor : Z;
  tick_count : Z;
  initialized : bool;
  bsp_lapic_id : Z;
  timer_lock : bool;
  fired : list (Z * Z * Z);
}.

Inductive outcome (A : Type) :=
| Ret (a : A)
| Deadlock
| Diverge.
Arguments Ret {A}.
Arguments Deadlock {A}.
Arguments Diverge {A}.

Definition M (A : Type) : Type := timer -> outcome (A * timer).

Definition ret {A} (a : A) : M A := fun s => Ret (a, s).
Definition bind {A B} (m : M A) (f : A -> M B) : M B := fun s =>
  match m s with
  | Ret (a, s') => f a s'
  | Deadlock => Deadlock
  | Diverge => Diverge
  end.
Definition modify (f : timer -> timer) : M unit := fun s => Ret (tt, f s).
Definition gets {A} (f : timer -> A) : M A := fun s => Ret (f s, s).

Declare Scope timer_scope.
Delimit Scope timer_scope with timer.
Notation "x <~ m ;; k" := (bind m (fun x => k))
  (at level 100, m at next level, right associativity) : timer_scope.
Notation "m ;;; k" := (bind m (fun _ => k)) (at level 100, right associativity) : timer_scope.
Open Scope timer_scope.

Definition set_links (f : ilinks -> ilinks) (s : timer) : timer :=
  Timer (f (links s)) (entries s) (cursor s) (l1_cursor s) (tick_count s) (initialized s)
    (bsp_lapic_id s) (timer_lock s) (fired s).
Definition set_entry (e : Z) (f : TimerEntry -> TimerEntry) (s : timer) : timer :=
  Timer (links s) (aset (entries s) e (f (aget (entries s) e))) (cursor s) (l1_cursor s)
    (tick_count s) (initialized s) (bsp_lapic_id s) (timer_lock s) (fired s).
Definition set_cursors (c c1 t : Z) (s : timer) : timer :=
  Timer (links s) (entries s) c c1 t (initialized s) (bsp_lapic_id s) (timer_lock s) (fired s).
Definition set_lock (b : bool) (s : timer) : timer :=
  Timer (links s) (entries s) (cursor s) (l1_cursor s) (tick_count s) (initialized s)
    (bsp_lapic_id s) b (fired s).
Definition log_call (cb ud : Z) (s : timer) : timer :=
  Timer (links s) (entries s) (cursor s) (l1_cursor s) (tick_count s) (initialized s)
    (bsp_lapic_id s) (timer_lock s) (fired s ++ [(tick_count s, cb, ud)]).
Definition set_init (b : bool) (id : Z) (s : timer) : timer :=
  Timer (links s) (entries s) (cursor s) (l1_cursor s) (tick_count s) b id (timer_lock s) (fired s).

Definition entry (s : timer) (e : Z) : TimerEntry := aget (entries s) e.

Definition with_deadline (d : Z) (e : TimerEntry) : TimerEntry :=
  Build_TimerEntry d (period_ticks e) (callback e) (user_data e) (wheel_level e) (wheel_slot e).
Definition with_position (level slot : Z) (e : TimerEntry) : TimerEntry :=
  Build_TimerEntry (deadline_ticks e) (period_ticks e) (callback e) (user_data e) level slot.
Definition with_request (d p cb ud : Z) (e : TimerEntry) : TimerEntry :=
  Build_TimerEntry d p cb ud (wheel_level e) (wheel_slot e).

(** An [IrqLockGuard] on [timer_lock]: interrupts are off while it is held,
    so a lock that is taken was taken by the code that called us. *)
Definition guarded {A} (m : M A) : M A := fun s =>
  if timer_lock s then Deadlock
  else match m (set_lock true s) with
       | Ret (a, s') => Ret (a, set_lock false s')
       | Deadlock => Deadlock
       | Diverge => Diverge
       end.

Definition pop_front (h : Z) : M Z := fun s =>
  let '(e, m) := il_pop_front h (links s) in Ret (e, set_links (fun _ => m) s).
Definition push_back (h e : Z) : M unit := modify (set_links (il_push_back h e)).

Definition alloc_entry : M Z := guarded (pop_front free_entries).

Definition free_entry (e : Z) : M unit :=
  modify (set_entry e (with_request 0 0 0 0)) ;;;
  guarded (push_back free_entries e).

Definition insert_level0 (e remaining : Z) : M unit :=
  c <~ gets cursor ;;
  let slot := (c +64 remaining) mod kBucketCount in
  modify (set_entry e (with_position 0 slot)) ;;;
  push_back (level0 slot) e.

Definition insert_level1 (e remaining : Z) : M unit :=
  let slot := remaining / kBucketCount -64 1 in
  let slot := if kBucketCount <=? slot then kBucketCount - 1 else slot in
  modify (set_entry e (with_position 1 slot)) ;;;
  push_back (level1 slot) e.

Definition call_entry (e : Z) : M unit := fun s =>
  Ret (tt, log_call (callback (entry s e)) (user_data (entry s e)) s).

(** The deadline minus the current tick, or 0 when it has passed. *)
Definition remaining_ticks (s : timer) (e : Z) : Z :=
  let now := tick_count s in
  if now <? deadline_ticks (entry s e) then deadline_ticks (entry s e) -64 now else 0.

Fixpoint insert_entry (fuel : nat) (e : Z) : M unit :=
  match fuel with
  | O => fun _ => Diverge
  | S fuel =>
      delta <~ gets (fun s => remaining_ticks s e) ;;
      if delta <? kBucketCount then
        insert_level0 e (if delta =? 0 then 1 else delta)
      else if delta <? kBucketCount * kBucketCount then
        insert_level1 e delta
      else
        call_entry e ;;;
        p <~ gets (fun s => period_ticks (entry s e)) ;;
        if 0 <? p then
          modify (fun s => set_entry e (with_deadline (tick_count s +64 p)) s) ;;;
          insert_entry fuel e
        else free_entry e
  end.

Definition fire_entry (fuel : nat) (e : Z) : M unit :=
  call_entry e ;;;
  p <~ gets (fun s => period_ticks (entry s e)) ;;
  if 0 <? p then
    modify (fun s => set_entry e (with_deadline (tick_count s +64 p)) s) ;;;
    insert_entry fuel e
  else free_entry e.

(** [while (!bucket.empty()) body(bucket.pop_front())] *)
Fixpoint drain (fuel : nat) (h : Z) (body : Z -> M unit) : M unit :=
  match fuel with
  | O => fun _ => Diverge
  | S fuel => fun s =>
      if il_empty (links s) h then Ret (tt, s)
      else (e <~ pop_front h ;; body e ;;; drain fuel h body) s
  end.

Definition cascade_entry (fuel : nat) (e : Z) : M unit :=
  remaining <~ gets (fun s => remaining_ticks s e) ;;
  if remaining =? 0 then fire_entry fuel e
  else if remaining <? kBucketCount then insert_level0 e remaining
  else insert_level1 e remaining.

Definition cascade (fuel : nat) : M unit :=
  c1 <~ gets l1_cursor ;;
  drain fuel (level1 c1) (cascade_entry fuel) ;;;
  modify (fun s => set_cursors (cursor s) ((l1_cursor s + 1) mod kBucketCount) (tick_count s) s).

(** The loop of [init] over the pool. *)
Definition fill_pool (s : timer) : timer :=
  for_z 0 CONFIG_TIMER_MAX_ENTRIES
    (fun i s => set_links (il_push_back free_entries (pool i)) s) s.

Definition init (lapic_id : Z) : M unit :=
  modify (fun s => set_init (initialized s) lapic_id s) ;;;
  modify fill_pool ;;;
  modify (fun s => set_init true (bsp_lapic_id s) s).

Definition create (fuel : nat) (deadline period cb ud : Z) : M Z :=
  e <~ alloc_entry ;;
  if e =? 0 then ret 0
  else
    modify (set_entry e (with_request deadline period cb ud)) ;;;
    guarded (insert_entry fuel e) ;;;
    ret e.

Definition create_oneshot (fuel : nat) (deadline cb ud : Z) : M Z := fun s =>
  if negb (initialized s) || (cb =? 0) then Ret (0, s)
  else create fuel deadline 0 cb ud s.

(** The deadline is computed after the entry was taken from the pool, which
    does not change the tick count. *)
Definition create_periodic (fuel : nat) (start_delta period cb ud : Z) : M Z := fun s =>
  if negb (initialized s) || (cb =? 0) || (period =? 0) then Ret (0, s)
  else create fuel (tick_count s +64 start_delta) period cb ud s.

Definition cancel (e : Z) : M unit := fun s =>
  if e =? 0 then Ret (tt, s)
  else guarded (
    modify (set_links (il_remove e)) ;;;
    free_entry e) s.

Definition tick (fuel : nat) (lapic_id : Z) : M unit := fun s =>
  if negb (initialized s) then Ret (tt, s)
  else if negb (lapic_id =? bsp_lapic_id s) then Ret (tt, s)
  else (
    modify (fun s => set_cursors (cursor s) (l1_cursor s) (tick_count s +64 1) s) ;;;
    c <~ gets cursor ;;
    drain fuel (level0 c) (fire_entry fuel) ;;;
    modify (fun s => set_cursors (cursor s +32 1) (l1_cursor s) (tick_count s) s) ;;;
    c <~ gets cursor ;;
    if c =? kBucketCount then
      modify (fun s => set_cursors 0 (l1_cursor s) (tick_count s) s) ;;;
      cascade fuel
    else ret tt) s.

Definition now (s : timer) : Z := tick_count s.

(** [k] ticks on the boot processor. *)
Fixpoint ticks (fuel k : nat) (s : timer) : outcome timer :=
  match k with
  | O => Ret s
  | S k => match tick fuel (bsp_lapic_id s) s with
           | Ret (_, s') => ticks fuel k s'
           | Deadlock => Deadlock
           | Diverge => Diverge
           end
  end.

(** * Operations that never return *)

(** [cancel] takes the lock and then calls [free_entry], which takes it again:
    cancelling any timer spins forever, whether the lock was free or not. *)
Theorem cancel_deadlocks (e : Z) (s : timer) :
  e <> 0 -> cancel e s = Deadlock.
Proof.
  intros He. unfold cancel. replace (e =? 0) with false by lia.
  unfold guarded, free_entry, bind, modify. by destruct (timer_lock s).
Qed.

Lemma cancel_deadlocks_witness :
  cancel (pool 0) (Timer (IL (afill 0) (afill 0)) (afill (Build_TimerEntry 0 0 0 0 0 0)) 0 0 0 true 0 false [])
  = Deadlock.
Proof. apply cancel_deadlocks. vm_compute. discriminate. Defined.

(** Scheduling a one-shot timer 65536 or more ticks ahead calls it at once and
    then frees the entry under the lock that is already held. *)
Lemma insert_entry_far fuel e s :
  period_ticks (entry s e) = 0 -> kBucketCount * kBucketCount <= remaining_ticks s e ->
  timer_lock s = true -> insert_entry (S fuel) e s = Deadlock.
Proof.
  intros Hp Hr Hl. cbn [insert_entry]. unfold bind, gets.
  replace (remaining_ticks s e <? kBucketCount) with false by (unfold kBucketCount in *; lia).
  replace (remaining_ticks s e <? kBucketCount * kBucketCount) with false by lia. cbn.
  change (entry (log_call _ _ s) e) with (entry s e). rewrite Hp. cbn.
  unfold guarded. cbn. by rewrite Hl.
Qed.

(** A periodic timer whose period is 65536 ticks or more is rescheduled at
    the same distance and called again, without end. *)
Lemma insert_entry_far_periodic fuel e s :
  0 <= tick_count s -> tick_count s + period_ticks (entry s e) < 2 ^ 64 ->
  kBucketCount * kBucketCount <= period_ticks (entry s e) ->
  kBucketCount * kBucketCount <= remaining_ticks s e ->
  insert_entry fuel e s = Diverge.
Proof.
  revert s. induction fuel as [|fuel IH]; intros s Ht Hov Hp Hr; [done|].
  cbn [insert_entry]. unfold bind, gets.
  replace (remaining_ticks s e <? kBucketCount) with false by (unfold kBucketCount in *; lia).
  replace (remaining_ticks s e <? kBucketCount * kBucketCount) with false by lia. cbn.
  change (entry (log_call _ _ s) e) with (entry s e).
  replace (0 <? period_ticks (entry s e)) with true by (unfold kBucketCount in *; lia). cbn.
  set (p := period_ticks (entry s e)) in *.
  match goal with |- insert_entry fuel e ?x = _ => set (s1 := x) end.
  assert (entry s1 e = with_deadline (tick_count s + p) (entry s e)) as He.
  { unfold entry. cbn. rewrite aget_aset_eq. unfold wrap. by rewrite Z.mod_small by (unfold kBucketCount in *; lia). }
  apply IH; change (tick_count s1) with (tick_count s); rewrite ?He; try done.
  unfold remaining_ticks. rewrite He. change (tick_count s1) with (tick_count s).
  cbn [deadline_ticks with_deadline].
  replace (tick_count s <? tick_count s + p) with true by (unfold kBucketCount in *; lia).
  unfold wrap. rewrite Z.mod_small by (unfold kBucketCount in *; lia). lia.
Qed.

(** A level-1 bucket is drained only when no entry goes back into it: the slot
    of a level-1 entry does not depend on the level-1 cursor, so an entry that
    is still 256 or more ticks away can land in the bucket being drained, and
    the loop never ends. *)
Lemma cascade_loop_diverges fuel fuel' e s :
  il_ok (level1 (l1_cursor s)) [e] -> il_rep (links s) (level1 (l1_cursor s)) [e] ->
  kBucketCount <= remaining_ticks s e < 2 ^ 64 ->
  remaining_ticks s e / kBucketCount - 1 = l1_cursor s -> l1_cursor s < kBucketCount ->
  drain fuel (level1 (l1_cursor s)) (cascade_entry fuel') s = Diverge.
Proof.
  revert s. induction fuel as [|fuel IH]; intros s Hok Hl Hr Hs Hc; [done|].
  cbn [drain]. rewrite (il_empty_rep _ _ _ Hok Hl), bool_decide_false by done.
  pose proof (il_remove_rep _ _ [] e [] Hok Hl) as Hm. cbn in Hm.
  unfold bind at 1, pop_front. rewrite (il_pop_front_rep _ _ _ _ Hok Hl).
  set (s1 := set_links (fun _ => il_remove e (links s)) s).
  unfold bind at 1, cascade_entry, bind at 1, gets.
  change (remaining_ticks s1 e) with (remaining_ticks s e).
  replace (remaining_ticks s e =? 0) with false by (unfold kBucketCount in *; lia).
  replace (remaining_ticks s e <? kBucketCount) with false by lia.
  assert (insert_level1 e (remaining_ticks s e) s1
    = Ret (tt, set_links (il_push_back (level1 (l1_cursor s)) e)
                 (set_entry e (with_position 1 (l1_cursor s)) s1))) as Hins.
  { unfold insert_level1, bind, modify, push_back.
    assert (remaining_ticks s e / kBucketCount -64 1 = l1_cursor s) as ->.
    { unfold wrap, kBucketCount in *. rewrite Z.mod_small; zlia. }
    by replace (kBucketCount <=? l1_cursor s) with false by lia. }
  rewrite Hins. set (s2 := set_links _ _).
  assert (remaining_ticks s2 e = remaining_ticks s e) as Er.
  { unfold remaining_ticks, entry. cbn. by rewrite aget_aset_eq. }
  destruct Hok as (Hh & H0 & Hnd). apply NoDup_cons in Hnd as [Hne Hnd].
  refine (IH s2 _ _ _ _ _); rewrite ?Er; try done.
  - split_and!; [done|done|by apply NoDup_cons].
  - apply (il_push_back_rep _ _ []); [|done|set_solver|apply not_elem_of_nil].
    split_and!; [done|apply not_elem_of_nil|apply NoDup_singleton].
Qed.

(** A timer between 256 and 65535 ticks ahead can hang the kernel in its timer
    interrupt: when the cascade reaches a level-1 bucket whose timer is still
    256 or more ticks away and whose distance maps to that same bucket, the
    tick moves the timer back into the bucket it is draining, forever. *)
Theorem level1_tick_hangs (s : timer) (e : Z) :
  initialized s = true -> cursor s = 255 ->
  il_ok (level0 255) [] -> il_rep (links s) (level0 255) [] ->
  il_ok (level1 (l1_cursor s)) [e] -> il_rep (links s) (level1 (l1_cursor s)) [e] ->
  0 <= tick_count s -> deadline_ticks (entry s e) < 2 ^ 64 -> l1_cursor s < kBucketCount ->
  kBucketCount <= deadline_ticks (entry s e) - (tick_count s + 1) ->
  (deadline_ticks (entry s e) - (tick_count s + 1)) / kBucketCount - 1 = l1_cursor s ->
  forall fuel, tick fuel (bsp_lapic_id s) s = Diverge.
Proof.
  intros Hi Hc Hok0 Hr0 Hok1 Hr1 Ht Hd Hl1 Hge Hslot [|fuel];
    unfold tick; rewrite Hi, Z.eqb_refl; cbn [negb]; unfold bind at 1, modify; unfold bind at 1, gets;
    cbn [cursor set_cursors]; rewrite Hc; [done|].
  unfold bind at 1. cbn [drain links set_cursors]. rewrite (il_empty_rep _ _ _ Hok0 Hr0).
  cbn -[cascade]. unfold bind at 1. cbn -[cascade].
  change (255 +32 1 =? kBucketCount) with true. cbv iota beta.
  unfold cascade, bind at 1, gets. unfold bind at 1.
  match goal with |- context [drain _ _ _ ?x] => set (s1 := x) end.
  match goal with |- context [level1 ?c] => change c with (l1_cursor s1) end.
  assert (tick_count s1 = tick_count s + 1) as Htc.
  { cbn. unfold wrap. apply Z.mod_small. unfold kBucketCount in *. lia. }
  assert (remaining_ticks s1 e = deadline_ticks (entry s e) - (tick_count s + 1)) as Hrem.
  { unfold remaining_ticks. rewrite Htc. change (entry s1 e) with (entry s e).
    case_match; bool_to_prop; [|unfold kBucketCount in *; lia].
    unfold wrap. apply Z.mod_small. lia. }
  rewrite (cascade_loop_diverges (S fuel) (S fuel) e s1); rewrite ?Hrem; try done. lia.
Qed.

(** Taking an entry from the pool. *)
Lemma alloc_entry_spec s L e fr :
  il_fam (links s) L -> L !! free_entries = Some (e :: fr) -> timer_lock s = false ->
  exists m, alloc_entry s = Ret (e, set_links (fun _ => m) s)
    /\ il_fam m (<[free_entries := fr]> L) /\ ~ il_nodes (<[free_entries := fr]> L) e /\ e <> 0.
Proof.
  intros Hf Hl Hlock. unfold alloc_entry, guarded. rewrite Hlock.
  destruct (fam_pop_front _ _ _ _ _ Hf Hl) as (m & Hpop & Hm & Hfresh & He0).
  exists m. split_and!; try done. unfold pop_front. cbn. rewrite Hpop. cbn.
  f_equal. f_equal. by destruct s; cbn in *; subst.
Qed.

(** Timers 65536 or more ticks ahead never come back from their creation: a
    one-shot timer blocks on the lock, a periodic one with such a period
    calls its function without end. *)
Theorem far_timers_never_return (fuel : nat) (s : timer) L e fr (delta cb ud : Z) :
  initialized s = true -> timer_lock s = false -> cb <> 0 ->
  il_fam (links s) L -> L !! free_entries = Some (e :: fr) ->
  0 <= tick_count s -> kBucketCount * kBucketCount <= delta -> tick_count s + delta < 2 ^ 64 ->
  create_oneshot (S fuel) (tick_count s + delta) cb ud s = Deadlock
  /\ create_periodic fuel delta delta cb ud s = Diverge.
Proof.
  intros Hi Hlock Hcb Hf Hl Ht Hd Hov.
  destruct (alloc_entry_spec _ _ _ _ Hf Hl Hlock) as (m & Ha & _ & _ & He0).
  assert (forall p, remaining_ticks (set_lock true (set_entry e
    (with_request (tick_count s + delta) p cb ud) (set_links (fun _ => m) s))) e = delta) as Hrem.
  { intros p. unfold remaining_ticks, entry. cbn. rewrite aget_aset_eq. cbn.
    replace (tick_count s <? tick_count s + delta) with true by (unfold kBucketCount in *; lia).
    unfold wrap. rewrite Z.mod_small; [lia|unfold kBucketCount in *; lia]. }
  unfold create_oneshot, create_periodic. rewrite Hi.
  replace (cb =? 0) with false by lia. replace (delta =? 0) with false by (unfold kBucketCount in *; lia).
  cbn [negb orb]. unfold wrap. rewrite Z.mod_small by (unfold kBucketCount in *; lia).
  unfold create, bind. rewrite Ha. replace (e =? 0) with false by lia.
  unfold modify, guarded at 1 2. cbn [timer_lock set_entry set_links]. rewrite Hlock. split.
  - rewrite insert_entry_far; [done| |by rewrite Hrem|done].
    unfold entry. cbn. by rewrite aget_aset_eq.
  - rewrite insert_entry_far_periodic; [done|done| | |by rewrite Hrem];
      unfold entry; cbn; rewrite aget_aset_eq; done.
Qed.

(** * The wheel within its first level *)

Definition pool_entries : list Z := pool <$> seqZ 0 CONFIG_TIMER_MAX_ENTRIES.

(** Every armed timer is less than 256 ticks ahead and every period is less
    than 256 ticks: the first level holds them all. *)
Record near_wf (s : timer) (L : gmap Z (list Z)) : Prop := {
  n_init : initialized s = true;
  n_lock : timer_lock s = false;
  n_fam : il_fam (links s) L;
  n_level0 : forall i, 0 <= i < kBucketCount -> is_Some (L !! level0 i);
  n_level1 : forall i, 0 <= i < kBucketCount -> L !! level1 i = Some [];
  n_free : is_Some (L !! free_entries);
  n_cursor : 0 <= cursor s < kBucketCount;
  n_l1_cursor : 0 <= l1_cursor s < kBucketCount;
  n_tick : 0 <= tick_count s;
  n_period : forall i l e, 0 <= i < kBucketCount -> L !! level0 i = Some l -> e ∈ l ->
    0 <= period_ticks (entry s e) < kBucketCount;
  n_pool : forall h l e, L !! h = Some l -> e ∈ l -> e ∈ pool_entries;
}.

(** Where an entry goes when it fires with the cursor at [c]: back to the free
    list, or a period ahead on the wheel. *)
Definition destination (E : arr TimerEntry) (c e : Z) : Z :=
  let p := period_ticks (aget E e) in
  if 0 <? p then level0 ((c + p) mod kBucketCount) else free_entries.

Definition send (E : arr TimerEntry) (c : Z) (L : gmap Z (list Z)) (e : Z) : gmap Z (list Z) :=
  alter (fun l => l ++ [e]) (destination E c e) L.

(** What firing leaves of an entry. *)
Definition after_firing (c t : Z) (x : TimerEntry) : TimerEntry :=
  let p := period_ticks x in
  if 0 <? p
  then Build_TimerEntry (t + p) p (callback x) (user_data x) 0 ((c + p) mod kBucketCount)
  else Build_TimerEntry 0 0 0 0 (wheel_level x) (wheel_slot x).

Lemma alter_insert_lookup (L : gmap Z (list Z)) h l f :
  L !! h = Some l -> alter f h L = <[h := f l]> L.
Proof.
  intros Hl. apply map_eq. intros k. rewrite lookup_alter, lookup_insert.
  case_decide; [subst; by rewrite Hl|done].
Qed.

(** Firing one entry that is in no list. *)
Lemma fire_entry_near fuel s L e :
  il_fam (links s) L -> ~ il_nodes L e -> e <> 0 -> timer_lock s = false ->
  0 <= cursor s < kBucketCount -> 0 <= tick_count s -> tick_count s + kBucketCount < 2 ^ 64 ->
  0 <= period_ticks (entry s e) < kBucketCount ->
  is_Some (L !! destination (entries s) (cursor s) e) ->
  exists m,
    fire_entry (S fuel) e s = Ret (tt, Timer m
      (aset (entries s) e (after_firing (cursor s) (tick_count s) (entry s e)))
      (cursor s) (l1_cursor s) (tick_count s) (initialized s) (bsp_lapic_id s) false
      (fired s ++ [(tick_count s, callback (entry s e), user_data (entry s e))]))
    /\ il_fam m (send (entries s) (cursor s) L e).
Proof.
  intros Hf Hfresh He0 Hlock Hc Ht Hov Hp [l Hl].
  exists (il_push_back (destination (entries s) (cursor s) e) e (links s)). split; cycle 1.
  { unfold send. rewrite (alter_insert_lookup _ _ l) by done. by apply fam_push_back. }
  unfold fire_entry, destination, after_firing, bind, call_entry, gets.
  change (entry (log_call _ _ s) e) with (entry s e). unfold entry in *.
  set (x := aget (entries s) e) in *. set (p := period_ticks x) in *.
  destruct (0 <? p) eqn:E; bool_to_prop; cbv beta iota.
  - cbn [insert_entry modify]. unfold bind, gets, modify.
    assert (remaining_ticks (set_entry e (with_deadline (tick_count (log_call (callback x) (user_data x) s) +64 p))
      (log_call (callback x) (user_data x) s)) e = p) as ->.
    { unfold remaining_ticks, entry. cbn. rewrite aget_aset_eq. cbn. unfold wrap.
      rewrite Z.mod_small by (unfold kBucketCount in *; lia).
      replace (tick_count s <? tick_count s + p) with true by lia.
      rewrite Z.mod_small; [lia|unfold kBucketCount in *; lia]. }
    replace (p <? kBucketCount) with true by lia.
    replace (p =? 0) with false by lia.
    unfold insert_level0, bind, gets, modify, push_back, modify. cbn [cursor set_entry log_call].
    assert (wrap 64 (cursor s + p) = cursor s + p) as ->
      by (unfold wrap; apply Z.mod_small; unfold kBucketCount in *; lia).
    unfold set_links. cbn. unfold set_entry. cbn. rewrite Hlock, aset_aset, aget_aset_eq.
    unfold with_position, with_deadline. cbn. fold x.
    unfold wrap. rewrite (Z.mod_small (tick_count s + p)) by (unfold kBucketCount in *; lia). done.
  - unfold free_entry, bind, modify, guarded, push_back, modify. cbn. rewrite Hlock. cbn.
    unfold set_lock. cbn. done.
Qed.

Lemma destination_ne E c e :
  0 <= c < kBucketCount -> 0 <= period_ticks (aget E e) < kBucketCount ->
  destination E c e <> level0 c.
Proof.
  intros Hc Hp. unfold destination, level0, free_entries, kBucketCount in *.
  destruct (0 <? _) eqn:H0; bool_to_prop; zlia.
Qed.

Lemma send_insert E c L h l e :
  destination E c e <> h -> send E c (<[h := l]> L) e = <[h := l]> (send E c L e).
Proof. intros Hne. unfold send. by rewrite alter_insert_ne. Qed.

Lemma send_is_Some E c L e h : is_Some (send E c L e !! h) <-> is_Some (L !! h).
Proof. unfold send. rewrite lookup_alter. case_decide; [subst|done]. by rewrite fmap_is_Some. Qed.

Lemma destination_ext E E' c e :
  aget E' e = aget E e -> destination E' c e = destination E c e.
Proof. unfold destination. by intros ->. Qed.

Lemma foldl_send_ext E E' c L l :
  (forall e, e ∈ l -> aget E' e = aget E e) -> foldl (send E' c) L l = foldl (send E c) L l.
Proof.
  revert L. induction l as [|e l IH]; intros L Hext; cbn; [done|].
  assert (send E' c L e = send E c L e) as ->.
  { unfold send. by rewrite (destination_ext E E') by (apply Hext; set_solver). }
  apply IH. intros x Hx. apply Hext. set_solver.
Qed.

(** Draining the bucket under the cursor fires its entries in order. *)
Lemma drain_near l : forall fuel f2 s L,
  let c := cursor s in
  let t := tick_count s in
  il_fam (links s) L -> L !! level0 c = Some l -> timer_lock s = false ->
  0 <= c < kBucketCount -> 0 <= t -> t + kBucketCount < 2 ^ 64 ->
  (forall e, e ∈ l -> 0 <= period_ticks (entry s e) < kBucketCount
     /\ is_Some (L !! destination (entries s) c e)) ->
  (length l < fuel)%nat ->
  exists m E,
    drain fuel (level0 c) (fire_entry (S f2)) s = Ret (tt, Timer m E c (l1_cursor s) t
      (initialized s) (bsp_lapic_id s) false
      (fired s ++ ((fun e => (t, callback (entry s e), user_data (entry s e))) <$> l)))
    /\ il_fam m (foldl (send (entries s) c) (<[level0 c := []]> L) l)
    /\ forall e, aget E e =
         if decide (e ∈ l) then after_firing c t (entry s e) else entry s e.
Proof.
  induction l as [|e l IH]; intros fuel f2 s L c t Hf Hl Hlock Hc Ht Hov Hper Hfuel;
    (destruct fuel as [|fuel]; [cbn in Hfuel; lia|]); cbn [drain];
    rewrite (fam_empty _ _ _ _ Hf Hl).
  - rewrite bool_decide_true by done. exists (links s), (entries s). split_and!.
    + rewrite app_nil_r. destruct s; cbn in *; by subst.
    + cbn. by rewrite insert_id.
    + intros e. rewrite decide_False by apply not_elem_of_nil. done.
  - rewrite bool_decide_false by done. unfold bind at 1, pop_front.
    destruct (fam_pop_front _ _ _ _ _ Hf Hl) as (m & -> & Hm & Hfresh & He0).
    destruct (Hper e) as [Hpe Hde]; [set_solver|].
    assert (destination (entries s) c e <> level0 c) as Hdc by by apply destination_ne.
    destruct (fire_entry_near f2 (set_links (fun _ => m) s) (<[level0 c := l]> L) e)
      as (m1 & Hfire & Hm1); try done.
    { cbn [entries cursor set_links]. by rewrite lookup_insert_ne by done. }
    unfold bind at 1. rewrite Hfire. cbn [entries cursor l1_cursor tick_count initialized bsp_lapic_id fired set_links] in *.
    change (entry (set_links (fun _ => m) s) e) with (entry s e) in *. fold c t in Hm1 |- *.
    match goal with |- context [drain fuel _ _ ?x] => set (s1 := x) end.
    assert (e ∉ l) as Hel.
    { destruct (f_ok _ _ Hf _ _ Hl) as (_ & _ & Hnd). apply NoDup_cons in Hnd as [_ Hnd].
      by apply NoDup_cons in Hnd as []. }
    assert (forall x, x ∈ l -> aget (entries s1) x = aget (entries s) x) as Hsame.
    { intros x Hx. cbn. rewrite aget_aset_ne; [done|]. intros ->. done. }
    destruct (IH fuel f2 s1 (send (entries s) c (<[level0 c := l]> L) e)) as (m2 & E2 & Hd & Hm2 & HE2); try done.
    { rewrite send_insert by done. apply lookup_insert_eq. }
    { intros x Hx. unfold entry. rewrite Hsame by done.
      rewrite (destination_ext (entries s)) by auto. rewrite send_is_Some.
      destruct (Hper x) as [? Hdx]; [set_solver|]. split; [done|].
      rewrite lookup_insert_ne; [done|]. intros Eq. symmetry in Eq. revert Eq. by apply destination_ne. }
    { cbn in Hfuel. lia. }
    exists m2, E2. split_and!.
    + etrans; [exact Hd|]. do 3 f_equal. cbn [fired s1]. rewrite <- app_assoc. f_equal. cbn. f_equal.
      apply list_fmap_ext. intros i x Hx%list_elem_of_lookup_2. unfold entry. by rewrite Hsame.
    + rewrite (foldl_send_ext (entries s)) in Hm2 by done.
      rewrite send_insert, insert_insert_eq in Hm2 by done. cbn [foldl].
      by rewrite send_insert by done.
    + intros x. rewrite HE2. unfold entry.
      destruct (decide (x = e)) as [->|Hne].
      * rewrite decide_False, decide_True by set_solver. cbn. by rewrite aget_aset_eq.
      * destruct (decide (x ∈ l)).
        -- rewrite decide_True by set_solver. by rewrite Hsame.
        -- rewrite decide_False by set_solver. cbn. by rewrite aget_aset_ne.
Qed.

Lemma foldl_send_lookup E c L l h :
  foldl (send E c) L l !! h
  = (fun l0 => l0 ++ filter (fun e => destination E c e = h) l) <$> L !! h.
Proof.
  revert L. induction l as [|e l IH]; intros L; cbn [foldl].
  - destruct (L !! h); cbn; [by rewrite app_nil_r|done].
  - rewrite IH, filter_cons. unfold send. rewrite lookup_alter.
    destruct (decide (destination E c e = h)) as [->|].
    + destruct (L !! h); cbn; [|done]. f_equal. by rewrite <- app_assoc.
    + done.
Qed.

Lemma bucket_length s L h l :
  near_wf s L -> L !! h = Some l -> (length l < 65)%nat.
Proof.
  intros Hwf Hl. assert (length l <= length pool_entries)%nat as Hle.
  { apply submseteq_length, NoDup_submseteq.
    - destruct (f_ok _ _ (n_fam _ _ Hwf) h l Hl) as (_ & _ & Hnd). by apply NoDup_cons in Hnd as [].
    - intros e He. by eapply n_pool. }
  assert (length pool_entries = 64%nat) as Hp by (vm_compute; reflexivity). lia.
Qed.

(** The lists after a tick with the bucket [l] under the cursor. *)
Definition tick_lists s (L : gmap Z (list Z)) (l : list Z) : gmap Z (list Z) :=
  foldl (send (entries s) (cursor s)) (<[level0 (cursor s) := []]> L) l.

Lemma cascade_empty fuel s L :
  il_fam (links s) L -> L !! level1 (l1_cursor s) = Some [] ->
  cascade (S fuel) s
  = Ret (tt, set_cursors (cursor s) ((l1_cursor s + 1) mod kBucketCount) (tick_count s) s).
Proof.
  intros Hf Hl. unfold cascade, bind, gets. cbn [drain]. by rewrite (fam_empty _ _ _ _ Hf Hl).
Qed.

(** A tick on the boot processor returns, fires the bucket under the cursor in
    order and sends each of its entries to its next place. *)
Lemma tick_cases fuel s L l :
  near_wf s L -> L !! level0 (cursor s) = Some l ->
  tick_count s + 1 + kBucketCount < 2 ^ 64 -> (65 <= fuel)%nat ->
  exists s', tick fuel (bsp_lapic_id s) s = Ret (tt, s')
    /\ near_wf s' (tick_lists s L l)
    /\ tick_count s' = tick_count s + 1
    /\ cursor s' = (cursor s + 1) mod kBucketCount
    /\ bsp_lapic_id s' = bsp_lapic_id s
    /\ fired s' = fired s ++ ((fun e => (tick_count s + 1, callback (entry s e), user_data (entry s e))) <$> l)
    /\ forall e, entry s' e =
         if decide (e ∈ l) then after_firing (cursor s) (tick_count s + 1) (entry s e) else entry s e.
Proof.
  intros Hwf Hl Hov Hfuel. pose proof (bucket_length _ _ _ _ Hwf Hl) as Hlen.
  pose proof Hwf as [Hi Hlock Hf H0 H1 Hfr Hc Hc1 Ht Hper Hpool].
  unfold tick. rewrite Hi, Z.eqb_refl. cbn [negb]. unfold bind at 1, modify.
  assert (tick_count s +64 1 = tick_count s + 1) as -> by (unfold wrap, kBucketCount in *; apply Z.mod_small; lia).
  set (s1 := set_cursors _ _ _ s).
  destruct fuel as [|fuel]; [lia|].
  destruct (drain_near l (S fuel) fuel s1 L) as (m & E & Hd & Hm & HE); try done.
  { cbn. lia. }
  { cbn. intros e He. assert (0 <= period_ticks (entry s e) < kBucketCount) as Hp
      by exact (Hper _ _ _ Hc Hl He). split; [exact Hp|]. unfold destination. unfold entry in Hp.
    case_match; [|done]. apply H0. apply Z.mod_pos_bound. done. }
  { lia. }
  unfold bind at 1, gets. unfold bind at 1.
  change (cursor s1) with (cursor s) in *. rewrite Hd. fold (tick_lists s L l) in Hm.
  cbn [cursor l1_cursor tick_count initialized bsp_lapic_id entries fired set_cursors s1] in *.
  assert (forall h, h <> level0 (cursor s) -> is_Some (L !! h) -> is_Some (tick_lists s L l !! h)) as Hsome.
  { intros h Hne [x Hx]. unfold tick_lists. rewrite foldl_send_lookup, lookup_insert_ne by congruence.
    rewrite Hx. by eexists. }
  assert (forall i, 0 <= i < kBucketCount -> tick_lists s L l !! level1 i = Some []) as Hl1.
  { intros i Hir. unfold tick_lists. rewrite foldl_send_lookup, lookup_insert_ne
      by (unfold level0, level1, kBucketCount in *; lia).
    rewrite H1 by done. cbn. f_equal. apply filter_none.
    intros e _. unfold destination, level0, level1, free_entries, kBucketCount in *.
    case_match; [|lia]. zlia. }
  (* the state before the cursor moves *)
  assert (forall s2, links s2 = m -> entries s2 = E -> initialized s2 = true -> timer_lock s2 = false ->
    0 <= cursor s2 < kBucketCount -> 0 <= l1_cursor s2 < kBucketCount -> tick_count s2 = tick_count s + 1 ->
    near_wf s2 (tick_lists s L l)) as Hnear.
  { intros s2 Em EE Ei El Ec Ec1 Et. split; try done; try congruence.
    - by rewrite Em.
    - intros i Hir. destruct (decide (i = cursor s)) as [->|Hne].
      + unfold tick_lists. rewrite foldl_send_lookup, lookup_insert_eq. by eexists.
      + apply Hsome; [unfold level0; lia|auto].
    - apply Hsome; [unfold level0, free_entries, kBucketCount in *; lia|done].
    - lia.
    - intros i l' e Hir Hl' He. unfold entry. rewrite EE, HE.
      assert (0 <= period_ticks (entry s e) < kBucketCount) as Hp.
      { unfold tick_lists in Hl'. rewrite foldl_send_lookup, lookup_insert in Hl'. case_decide as Hd'.
        - cbn in Hl'. injection Hl' as <-. cbn in He. apply list_elem_of_filter in He as [_ He].
          exact (Hper _ _ _ Hc Hl He).
        - destruct (L !! level0 i) as [l0|] eqn:E0; cbn in Hl'; [|done]. injection Hl' as <-.
          apply elem_of_app in He as [He|He]; [exact (Hper _ _ _ Hir E0 He)|].
          apply list_elem_of_filter in He as [_ He]. exact (Hper _ _ _ Hc Hl He). }
      change (entry s1 e) with (entry s e).
      case_decide; [|done]. unfold after_firing. case_match; cbn; lia.
    - intros h l' e Hl' He. unfold tick_lists in Hl'. rewrite foldl_send_lookup, lookup_insert in Hl'.
      case_decide as Hd'.
      + cbn in Hl'. injection Hl' as <-. cbn in He. apply list_elem_of_filter in He as [_ He]. exact (Hpool _ _ _ Hl He).
      + destruct (L !! h) as [l0|] eqn:E0; cbn in Hl'; [|done]. injection Hl' as <-.
        apply elem_of_app in He as [He|He]; [exact (Hpool _ _ _ E0 He)|].
        apply list_elem_of_filter in He as [_ He]. exact (Hpool _ _ _ Hl He). }
  assert (cursor s +32 1 = cursor s + 1) as Ecur by (unfold wrap, kBucketCount in *; apply Z.mod_small; lia).
  unfold bind. cbn -[cascade]. rewrite Ecur. destruct (cursor s + 1 =? kBucketCount) eqn:Ek; bool_to_prop.
  - rewrite (cascade_empty fuel _ (tick_lists s L l)); [|done|by apply Hl1].
    eexists. split; [reflexivity|]. cbn. split_and!; try done.
    + apply Hnear; cbn; try done; unfold kBucketCount in *; zlia.
    + rewrite Ek. by rewrite Z.mod_same.
  - eexists. split; [reflexivity|]. cbn. split_and!; try done.
    + apply Hnear; cbn; try done; unfold kBucketCount in *; lia.
    + rewrite Z.mod_small; unfold kBucketCount in *; lia.
Qed.

(** ** When a timer fires *)

(** The timer is in the bucket that the cursor reaches after [k] more ticks,
    so it is due at the tick after those. *)
Definition armed (s : timer) (L : gmap Z (list Z)) (e k : Z) : Prop :=
  0 <= k < kBucketCount
  /\ exists l, L !! level0 ((cursor s + k) mod kBucketCount) = Some l /\ e ∈ l.

Lemma level0_inj i j : level0 i = level0 j -> i = j.
Proof. unfold level0. lia. Qed.

Lemma mod_shift c k :
  0 <= c < kBucketCount -> 0 < k < kBucketCount ->
  ((c + 1) mod kBucketCount + (k - 1)) mod kBucketCount = (c + k) mod kBucketCount.
Proof. intros. unfold kBucketCount in *. zlia. Qed.

(** One tick brings a timer that is not due one step closer and does not
    touch its entry. *)
Lemma tick_armed fuel s L e k :
  near_wf s L -> armed s L e k -> 0 < k ->
  tick_count s + 1 + kBucketCount < 2 ^ 64 -> (65 <= fuel)%nat ->
  exists s' L', tick fuel (bsp_lapic_id s) s = Ret (tt, s') /\ near_wf s' L'
    /\ tick_count s' = tick_count s + 1 /\ bsp_lapic_id s' = bsp_lapic_id s
    /\ armed s' L' e (k - 1) /\ entry s' e = entry s e.
Proof.
  intros Hwf (Hk & le & Hle & He) Hk0 Hov Hfuel.
  pose proof (n_cursor _ _ Hwf) as Hc.
  destruct (n_level0 _ _ Hwf (cursor s) Hc) as [l Hl].
  destruct (tick_cases fuel s L l Hwf Hl Hov Hfuel) as (s' & Ht & Hwf' & Htc & Hcur & Hb & _ & Hent).
  assert ((cursor s + k) mod kBucketCount <> cursor s) as Hne by (unfold kBucketCount in *; zlia).
  assert (e ∉ l) as Hel.
  { intros Hin. apply Hne. apply level0_inj. exact (f_disj _ _ (n_fam _ _ Hwf) _ _ _ _ e Hle Hl He Hin). }
  exists s', (tick_lists s L l). split_and!; try done.
  - split; [lia|]. rewrite Hcur, mod_shift by lia.
    unfold tick_lists. rewrite foldl_send_lookup, lookup_insert_ne by (intros E%level0_inj; congruence).
    rewrite Hle. eexists. split; [done|]. by apply elem_of_app; left.
  - by rewrite Hent, decide_False.
Qed.

Lemma ticks_succ fuel s s' k :
  tick fuel (bsp_lapic_id s) s = Ret (tt, s') -> ticks fuel (S k) s = ticks fuel k s'.
Proof. intros H. cbn. by rewrite H. Qed.

(** Up to the tick at which it is due, an armed timer stays armed. *)
Lemma ticks_armed fuel j s L e k :
  near_wf s L -> armed s L e k -> Z.of_nat j <= k ->
  tick_count s + k + 1 + kBucketCount < 2 ^ 64 -> (65 <= fuel)%nat ->
  exists s' L', ticks fuel j s = Ret s' /\ near_wf s' L'
    /\ tick_count s' = tick_count s + Z.of_nat j /\ bsp_lapic_id s' = bsp_lapic_id s
    /\ armed s' L' e (k - Z.of_nat j) /\ entry s' e = entry s e.
Proof.
  revert s L k. induction j as [|j IH]; intros s L k Hwf Ha Hj Hov Hfuel.
  - exists s, L. rewrite Z.sub_0_r, Z.add_0_r. done.
  - assert (0 <= k < kBucketCount) as Hk by apply Ha.
    destruct (tick_armed fuel s L e k Hwf Ha) as (s1 & L1 & Ht & Hwf1 & Htc & Hb & Ha1 & He1); [lia..|].
    destruct (IH s1 L1 (k - 1) Hwf1 Ha1) as (s2 & L2 & Ht2 & Hwf2 & Htc2 & Hb2 & Ha2 & He2); [lia..|].
    exists s2, L2. rewrite (ticks_succ _ _ _ _ Ht). split_and!; try done; try congruence; [lia|].
    replace (k - Z.of_nat (S j)) with (k - 1 - Z.of_nat j) by lia. done.
Qed.

Lemma armed_timer_cases fuel s L e k :
  near_wf s L -> armed s L e k ->
  tick_count s + k + 2 + kBucketCount < 2 ^ 64 -> (65 <= fuel)%nat ->
  let x := entry s e in
  (forall j, Z.of_nat j <= k -> exists s1 L1, ticks fuel j s = Ret s1 /\ near_wf s1 L1
     /\ armed s1 L1 e (k - Z.of_nat j) /\ entry s1 e = x)
  /\ exists s2 L2, ticks fuel (Z.to_nat k + 1) s = Ret s2 /\ near_wf s2 L2
       /\ tick_count s2 = tick_count s + k + 1
       /\ (tick_count s + k + 1, callback x, user_data x) ∈ fired s2
       /\ (period_ticks x = 0 -> exists fr, L2 !! free_entries = Some fr /\ e ∈ fr)
       /\ (0 < period_ticks x -> armed s2 L2 e (period_ticks x - 1)
            /\ callback (entry s2 e) = callback x /\ user_data (entry s2 e) = user_data x).
Proof.
  intros Hwf Ha Hov Hfuel x. assert (0 <= k < kBucketCount) as Hk by apply Ha. split.
  { intros j Hj. destruct (ticks_armed fuel j s L e k) as (s1 & L1 & ? & ? & _ & _ & ? & ?); eauto; [lia|].
    exists s1, L1. done. }
  destruct (ticks_armed fuel (Z.to_nat k) s L e k) as (s1 & L1 & Ht1 & Hwf1 & Htc1 & Hb1 & Ha1 & He1);
    [done|done|lia|lia|done|].
  rewrite Z2Nat.id in * by lia. destruct Ha1 as (_ & l & Hl & He).
  rewrite Z.sub_diag, Z.add_0_r in Hl. pose proof (n_cursor _ _ Hwf1) as Hc1.
  rewrite Z.mod_small in Hl by done.
  assert (0 <= period_ticks x < kBucketCount) as Hp.
  { subst x. rewrite <- He1. exact (n_period _ _ Hwf1 _ _ _ Hc1 Hl He). }
  destruct (tick_cases fuel s1 L1 l Hwf1 Hl) as (s2 & Ht2 & Hwf2 & Htc2 & Hcur2 & _ & Hlog & Hent); [lia|done|].
  exists s2, (tick_lists s1 L1 l). split_and!; [|done|lia|..].
  - assert (forall a b u, ticks fuel a u = Ret s1 -> ticks fuel b s1 = Ret s2 -> ticks fuel (a + b) u = Ret s2) as Happ.
    { clear. induction a as [|a IH]; intros b u; cbn; [by intros [= ->]|].
      destruct (tick fuel (bsp_lapic_id u) u) as [[? u']| |]; try done. apply IH. }
    apply (Happ (Z.to_nat k) 1%nat s Ht1). cbn. by rewrite Ht2.
  - rewrite Hlog. apply elem_of_app. right. apply list_elem_of_fmap. exists e.
    rewrite He1, Htc1. done.
  - intros Hp0. unfold tick_lists. rewrite foldl_send_lookup, lookup_insert_ne
      by (unfold level0, free_entries, kBucketCount in *; lia).
    destruct (n_free _ _ Hwf1) as [fr ->]. eexists. split; [reflexivity|].
    apply elem_of_app. right. apply list_elem_of_filter. split; [|done].
    unfold destination. change (aget (entries s1) e) with (entry s1 e). rewrite He1. fold x. by rewrite Hp0.
  - intros Hp0. rewrite Hent, decide_True, He1 by done. fold x. unfold after_firing.
    replace (0 <? period_ticks x) with true by lia. split; [|done].
    split; [lia|]. rewrite Hcur2, mod_shift by lia. unfold tick_lists. rewrite foldl_send_lookup.
    assert ((cursor s1 + period_ticks x) mod kBucketCount <> cursor s1) as Hne by (unfold kBucketCount in *; zlia).
    rewrite lookup_insert_ne by (intros E%level0_inj; congruence).
    destruct (n_level0 _ _ Hwf1 ((cursor s1 + period_ticks x) mod kBucketCount)) as [l' ->];
      [by apply Z.mod_pos_bound|]. eexists. split; [reflexivity|].
    apply elem_of_app. right. apply list_elem_of_filter. split; [|done].
    unfold destination. change (aget (entries s1) e) with (entry s1 e). rewrite He1. fold x.
    by replace (0 <? period_ticks x) with true by lia.
Qed.

(** On a wheel within its first level, ticks always return, and a timer armed
    [k] ticks ahead fires at the tick [k + 1] from now and not before: until
    then it stays armed and keeps its entry; at that tick its callback is
    called, and it is back in the free list (one-shot) or armed so that it
    fires again exactly one period later (periodic). *)
Theorem armed_timer_fires fuel s L e k :
  near_wf s L -> armed s L e k ->
  tick_count s + k + 2 + kBucketCount < 2 ^ 64 -> (65 <= fuel)%nat ->
  let x := entry s e in
  (forall j, Z.of_nat j <= k -> exists s1 L1, ticks fuel j s = Ret s1 /\ near_wf s1 L1
     /\ armed s1 L1 e (k - Z.of_nat j) /\ entry s1 e = x)
  /\ exists s2 L2, ticks fuel (Z.to_nat k + 1) s = Ret s2 /\ near_wf s2 L2
       /\ tick_count s2 = tick_count s + k + 1
       /\ (tick_count s + k + 1, callback x, user_data x) ∈ fired s2
       /\ (period_ticks x = 0 -> exists fr, L2 !! free_entries = Some fr /\ e ∈ fr)
       /\ (0 < period_ticks x -> armed s2 L2 e (period_ticks x - 1)
            /\ callback (entry s2 e) = callback x /\ user_data (entry s2 e) = user_data x).
Proof. apply armed_timer_cases. Qed.

(** ** Creating timers *)

(** Creating a timer less than 256 ticks ahead arms it. *)
Lemma create_near fuel s L e fr delta p cb ud :
  near_wf s L -> L !! free_entries = Some (e :: fr) ->
  0 <= delta < kBucketCount -> 0 <= p < kBucketCount -> tick_count s + kBucketCount < 2 ^ 64 ->
  exists s' L', create (S fuel) (tick_count s + delta) p cb ud s = Ret (e, s')
    /\ near_wf s' L' /\ armed s' L' e (Z.max 1 delta)
    /\ tick_count s' = tick_count s /\ bsp_lapic_id s' = bsp_lapic_id s /\ fired s' = fired s
    /\ period_ticks (entry s' e) = p /\ callback (entry s' e) = cb /\ user_data (entry s' e) = ud
    /\ L' !! free_entries = Some fr.
Proof.
  intros Hwf Hfree Hd Hp Hov. pose proof Hwf as [Hi Hlock Hf H0 H1 _ Hc Hc1 Ht Hper Hpool].
  destruct (alloc_entry_spec _ _ _ _ Hf Hfree Hlock) as (m & Ha & Hm & Hfresh & He0).
  unfold create, bind at 1. rewrite Ha. replace (e =? 0) with false by lia.
  unfold bind at 1, modify. unfold bind at 1, guarded. cbn [timer_lock set_entry set_links]. rewrite Hlock.
  match goal with |- context [insert_entry _ e ?x] => set (s1 := x) end.
  assert (remaining_ticks s1 e = delta) as Hrem.
  { unfold remaining_ticks, entry. cbn. rewrite aget_aset_eq. cbn.
    case_match; bool_to_prop; [|lia]. unfold wrap. rewrite Z.mod_small; unfold kBucketCount in *; lia. }
  set (k := Z.max 1 delta).
  set (slot := (cursor s + k) mod kBucketCount).
  assert (0 <= slot < kBucketCount) as Hslot by by apply Z.mod_pos_bound.
  assert (insert_entry (S fuel) e s1 = insert_level0 e k s1) as ->.
  { cbn [insert_entry]. unfold bind, gets. rewrite Hrem. replace (delta <? kBucketCount) with true by lia.
    f_equal. subst k. case_match; bool_to_prop; lia. }
  unfold insert_level0, bind, gets, modify, push_back, modify.
  change (cursor s1) with (cursor s).
  assert (cursor s +64 k = cursor s + k) as -> by (unfold wrap; apply Z.mod_small; unfold kBucketCount in *; lia).
  fold slot. eexists _, (<[level0 slot := default [] (L !! level0 slot) ++ [e]]> (<[free_entries := fr]> L)).
  split; [reflexivity|].
  assert (level0 slot <> free_entries) as Hne by (unfold level0, free_entries, kBucketCount in *; lia).
  destruct (H0 slot Hslot) as [l Hl]. rewrite Hl. cbn [default].
  assert (forall x, x <> e -> aget (aset (aset (entries s) e (with_request (tick_count s + delta) p cb ud (aget (entries s) e)))
    e (with_position 0 slot (aget (aset (entries s) e (with_request (tick_count s + delta) p cb ud (aget (entries s) e))) e))) x
    = aget (entries s) x) as Hother by (intros x Hx; by rewrite !aget_aset_ne by congruence).
  assert (e ∈ pool_entries) as Hepool by (eapply Hpool; [exact Hfree|set_solver]).
  split_and!; try done.
  - split; cbn; try done.
    + apply fam_push_back; [done| |done|done]. by rewrite lookup_insert_ne.
    + intros i Hir. rewrite lookup_insert. case_decide; [by eexists|].
      rewrite lookup_insert_ne by (unfold level0, free_entries, kBucketCount in *; lia). auto.
    + intros i Hir. rewrite !lookup_insert_ne by (unfold level0, level1, free_entries, kBucketCount in *; lia). auto.
    + rewrite lookup_insert_ne, lookup_insert_eq by done. by eexists.
    + intros i l' x Hir. rewrite lookup_insert. case_decide as Hs.
      * intros [= <-] [Hx| ->%list_elem_of_singleton]%elem_of_app.
        -- unfold entry. cbn. rewrite Hother; [exact (Hper _ _ _ Hslot Hl Hx)|].
           intros ->. apply Hfresh. right. exists (level0 slot), l. by rewrite lookup_insert_ne.
        -- unfold entry. cbn. by rewrite !aget_aset_eq.
      * rewrite lookup_insert_ne by (unfold level0, free_entries, kBucketCount in *; lia). intros Hl' Hx.
        unfold entry. cbn. rewrite Hother; [exact (Hper _ _ _ Hir Hl' Hx)|].
        intros ->. apply Hfresh. right. exists (level0 i), l'.
        by rewrite lookup_insert_ne by (unfold level0, free_entries, kBucketCount in *; lia).
    + intros h l' x. rewrite lookup_insert. case_decide.
      * intros [= <-] [Hx| ->%list_elem_of_singleton]%elem_of_app; [exact (Hpool _ _ _ Hl Hx)|done].
      * rewrite lookup_insert. case_decide; [|apply Hpool].
        intros [= <-] Hx. eapply Hpool; [exact Hfree|set_solver].
  - split; [unfold kBucketCount in *; lia|]. cbn. fold slot. rewrite lookup_insert_eq.
    eexists. split; [done|]. set_solver.
  - unfold entry. cbn. by rewrite !aget_aset_eq.
  - unfold entry. cbn. by rewrite !aget_aset_eq.
  - unfold entry. cbn. by rewrite !aget_aset_eq.
  - by rewrite lookup_insert_ne, lookup_insert_eq.
Qed.

(** A one-shot timer set less than 256 ticks ahead: it is still armed when its
    deadline is reached, and its callback runs at the tick after that. *)
Theorem oneshot_fires fuel s L e fr delta cb ud :
  near_wf s L -> L !! free_entries = Some (e :: fr) -> cb <> 0 ->
  1 <= delta < kBucketCount -> tick_count s + delta + 2 + kBucketCount < 2 ^ 64 -> (65 <= fuel)%nat ->
  let deadline := tick_count s + delta in
  exists s0 s1 L1 s2 L2,
    create_oneshot fuel deadline cb ud s = Ret (e, s0)
    /\ ticks fuel (Z.to_nat delta) s0 = Ret s1 /\ tick_count s1 = deadline /\ armed s1 L1 e 0
    /\ ticks fuel (Z.to_nat delta + 1) s0 = Ret s2 /\ near_wf s2 L2
    /\ (deadline + 1, cb, ud) ∈ fired s2
    /\ exists fr', L2 !! free_entries = Some fr' /\ e ∈ fr'.
Proof.
  intros Hwf Hfree Hcb Hd Hov Hfuel deadline. destruct fuel as [|fuel]; [lia|].
  destruct (create_near fuel s L e fr delta 0 cb ud Hwf Hfree)
    as (s0 & L0 & Hcr & Hwf0 & Ha0 & Ht0 & _ & _ & Hp & Hcb0 & Hud0 & _); [lia|done|lia|].
  rewrite Z.max_r in Ha0 by lia.
  destruct (ticks_armed (S fuel) (Z.to_nat delta) s0 L0 e delta Hwf0 Ha0)
    as (s1 & L1 & Ht1 & _ & Htc1 & _ & Ha1 & _); [lia..|].
  rewrite Z2Nat.id, Z.sub_diag in Ha1 by lia.
  destruct (armed_timer_cases (S fuel) s0 L0 e delta Hwf0 Ha0) as (_ & s2 & L2 & Ht2 & Hwf2 & _ & Hf2 & Hfr & _); [lia|done|].
  rewrite Ht0, Hcb0, Hud0 in Hf2. exists s0, s1, L1, s2, L2.
  split_and!; try done; [|lia|by apply Hfr].
  unfold create_oneshot. rewrite (n_init _ _ Hwf). replace (cb =? 0) with false by lia. done.
Qed.

(** A periodic timer first fires one tick after its start delay and is then
    armed one period ahead of the tick at which it fired. *)
Theorem periodic_fires fuel s L e fr delta p cb ud :
  near_wf s L -> L !! free_entries = Some (e :: fr) -> cb <> 0 ->
  1 <= delta < kBucketCount -> 0 < p < kBucketCount ->
  tick_count s + delta + 2 + kBucketCount < 2 ^ 64 -> (65 <= fuel)%nat ->
  exists s0 s2 L2,
    create_periodic fuel delta p cb ud s = Ret (e, s0)
    /\ ticks fuel (Z.to_nat delta + 1) s0 = Ret s2 /\ near_wf s2 L2
    /\ (tick_count s + delta + 1, cb, ud) ∈ fired s2
    /\ armed s2 L2 e (p - 1) /\ callback (entry s2 e) = cb /\ user_data (entry s2 e) = ud.
Proof.
  intros Hwf Hfree Hcb Hd Hp Hov Hfuel. destruct fuel as [|fuel]; [lia|].
  destruct (create_near fuel s L e fr delta p cb ud Hwf Hfree)
    as (s0 & L0 & Hcr & Hwf0 & Ha0 & Ht0 & _ & _ & Hp0 & Hcb0 & Hud0 & _); [lia|lia|lia|].
  rewrite Z.max_r in Ha0 by lia.
  destruct (armed_timer_cases (S fuel) s0 L0 e delta Hwf0 Ha0) as (_ & s2 & L2 & Ht2 & Hwf2 & _ & Hf2 & _ & Hper); [lia|done|].
  rewrite Ht0, Hcb0, Hud0 in *. rewrite Hp0 in Hper. exists s0, s2, L2.
  pose proof (n_tick _ _ Hwf).
  split_and!; try done; try by apply Hper; try lia.
  unfold create_periodic. rewrite (n_init _ _ Hwf).
  replace (cb =? 0) with false by lia. replace (p =? 0) with false by lia. cbn [negb orb].
  unfold wrap. by rewrite Z.mod_small by lia.
Qed.

(** ** Start-up *)

Definition no_entry : TimerEntry := Build_TimerEntry 0 0 0 0 0 0.
(** The zero-initialised statics. *)
Definition timer0 : timer :=
  Timer (IL (afill 0) (afill 0)) (afill no_entry) 0 0 0 false 0 false [].

Definition all_heads : gset Z :=
  list_to_set ((level0 <$> seqZ 0 kBucketCount) ++ (level1 <$> seqZ 0 kBucketCount) ++ [free_entries]).

Definition lists0 : gmap Z (list Z) := gset_to_gmap [] all_heads.

Lemma all_heads_spec h :
  h ∈ all_heads <-> (exists i, 0 <= i < kBucketCount /\ (h = level0 i \/ h = level1 i)) \/ h = free_entries.
Proof.
  unfold all_heads. rewrite elem_of_list_to_set, !elem_of_app, !list_elem_of_fmap, list_elem_of_singleton.
  setoid_rewrite elem_of_seqZ. split.
  - intros [(i & -> & ?)|[(i & -> & ?)| ->]]; [left; exists i; split; [lia|auto]..|by right].
  - intros [(i & ? & [->| ->])| ->]; [left; exists i; split; [done|lia]|right; left; exists i; split; [done|lia]|by right; right].
Qed.

#[local] Opaque all_heads.

Lemma lists0_fam : il_fam (links timer0) lists0.
Proof.
  assert (forall h l, lists0 !! h = Some l -> h ∈ all_heads /\ l = []) as H.
  { intros h l. unfold lists0. rewrite lookup_gset_to_gmap_Some. intros [Hin <-]. exact (conj Hin eq_refl). }
  split.
  - intros h l [_ ->]%H. left. split; [reflexivity|done].
  - intros h l [Hh ->]%H. split_and!; [|apply not_elem_of_nil|apply NoDup_singleton].
    apply all_heads_spec in Hh as [(i & ? & [->| ->])| ->];
      unfold level0, level1, free_entries; lia.
  - intros h l x [_ ->]%H Hx. destruct (proj1 (elem_of_nil x) Hx).
  - intros h l h' l' x [_ ->]%H _ Hx. destruct (proj1 (elem_of_nil x) Hx).
Qed.

Definition pool_prefix (n : Z) : list Z := pool <$> seqZ 0 n.

Lemma init_links s :
  links s = links timer0 ->
  let s' := fill_pool s in
  il_fam (links s') (<[free_entries := pool_entries]> lists0)
  /\ s' = set_links (fun _ => links s') s.
Proof.
  intros Hs. cbv zeta. unfold fill_pool.
  apply (for_z_inv (fun i s' => il_fam (links s') (<[free_entries := pool_prefix i]> lists0)
    /\ s' = set_links (fun _ => links s') s)); [done| |].
  - split; [|by destruct s]. rewrite Hs. unfold pool_prefix. cbn. rewrite insert_id; [apply lists0_fam|].
    unfold lists0. apply lookup_gset_to_gmap_Some. split; [|done]. apply all_heads_spec. by right.
  - intros i t Hi [Hf Ht]. split; [|rewrite Ht; done]. cbn.
    assert (pool_prefix (i + 1) = pool_prefix i ++ [pool i]) as ->.
    { unfold pool_prefix. rewrite seqZ_app by lia. rewrite fmap_app. done. }
    pose proof (fam_push_back _ _ free_entries (pool_prefix i) (pool i) Hf (lookup_insert_eq _ _ _)) as Hp.
    rewrite insert_insert_eq in Hp. apply Hp; [unfold pool; lia|].
    intros [[l Hl]|(h & l & Hl & Hx)].
    + rewrite lookup_insert_ne in Hl by (unfold pool, free_entries; lia).
      apply lookup_gset_to_gmap_Some in Hl as [Hin _]. apply all_heads_spec in Hin as [(j & ? & ?)|?];
        unfold pool, level0, level1, free_entries, kBucketCount, CONFIG_TIMER_MAX_ENTRIES in *; lia.
    + rewrite lookup_insert in Hl. case_decide.
      * injection Hl as <-. apply list_elem_of_fmap in Hx as (j & Hj & Hin%elem_of_seqZ). unfold pool in Hj. lia.
      * apply lookup_gset_to_gmap_Some in Hl as [_ <-]. by apply elem_of_nil in Hx.
Qed.

#[local] Opaque lists0 pool_entries.

Lemma lists0_heads i : 0 <= i < kBucketCount ->
  lists0 !! level0 i = Some [] /\ lists0 !! level1 i = Some [].
Proof.
  intros Hi. Transparent lists0. unfold lists0.
  split; apply lookup_gset_to_gmap_Some; (split; [|reflexivity]); apply all_heads_spec; left; eauto.
Qed.

Lemma lists0_nil h l : lists0 !! h = Some l -> l = [].
Proof. unfold lists0. by intros [_ <-]%lookup_gset_to_gmap_Some. Qed.
#[local] Opaque lists0.

Lemma empty_wheel_near s :
  initialized s = true -> timer_lock s = false ->
  il_fam (links s) (<[free_entries := pool_entries]> lists0) ->
  cursor s = 0 -> l1_cursor s = 0 -> 0 <= tick_count s ->
  near_wf s (<[free_entries := pool_entries]> lists0).
Proof.
  intros Hi Hl Hf Hc Hc1 Ht.
  assert (forall i, 0 <= i < kBucketCount -> level0 i <> free_entries /\ level1 i <> free_entries) as Hne
    by (unfold level0, level1, free_entries, kBucketCount; lia).
  assert (0 <= 0 < kBucketCount) as H0 by (unfold kBucketCount; lia).
  split; [exact Hi|exact Hl|exact Hf| | | |by rewrite Hc|by rewrite Hc1|exact Ht| |].
  - intros i Hr. destruct (Hne i Hr). rewrite lookup_insert_ne by congruence.
    rewrite (proj1 (lists0_heads i Hr)). by eexists.
  - intros i Hr. destruct (Hne i Hr). rewrite lookup_insert_ne by congruence. apply (lists0_heads i Hr).
  - rewrite lookup_insert_eq. by eexists.
  - intros i l e Hr. destruct (Hne i Hr). rewrite lookup_insert_ne by congruence.
    intros ->%lists0_nil Hx. by apply elem_of_nil in Hx.
  - intros h l e. rewrite lookup_insert. case_decide; [intros [= <-]; exact id|].
    intros ->%lists0_nil Hx. by apply elem_of_nil in Hx.
Qed.

Lemma init_eq lapic_id s :
  let s1 := fill_pool (set_init (initialized s) lapic_id s) in
  init lapic_id s = Ret (tt, set_init true (bsp_lapic_id s1) s1).
Proof. reflexivity. Qed.

Lemma filled_pool_near lapic_id s1 :
  il_fam (links s1) (<[free_entries := pool_entries]> lists0) ->
  s1 = set_links (fun _ => links s1) (set_init false lapic_id timer0) ->
  let s := set_init true (bsp_lapic_id s1) s1 in
  near_wf s (<[free_entries := pool_entries]> lists0)
  /\ tick_count s = 0 /\ bsp_lapic_id s = lapic_id /\ fired s = [].
Proof.
  intros Hf Hs.
  assert (tick_count s1 = 0 /\ bsp_lapic_id s1 = lapic_id /\ fired s1 = [] /\ cursor s1 = 0
    /\ l1_cursor s1 = 0 /\ timer_lock s1 = false) as (E1 & E2 & E3 & E4 & E5 & E6)
    by (rewrite Hs; repeat split).
  split; [|exact (conj E1 (conj E2 E3))].
  apply empty_wheel_near; [reflexivity|exact E6|exact Hf|exact E4|exact E5|].
  cbn. rewrite E1. reflexivity.
Qed.

Lemma timer_init_cases (lapic_id : Z) :
  exists s, init lapic_id timer0 = Ret (tt, s)
    /\ near_wf s (<[free_entries := pool_entries]> lists0)
    /\ tick_count s = 0 /\ bsp_lapic_id s = lapic_id /\ fired s = [].
Proof.
  destruct (init_links (set_init false lapic_id timer0) eq_refl) as [Hf Hs].
  exact (ex_intro _ _ (conj (init_eq lapic_id timer0) (filled_pool_near lapic_id _ Hf Hs))).
Qed.

(** After [init] the wheel is empty and all 64 entries are free. *)
Theorem timer_init_spec (lapic_id : Z) :
  exists s, init lapic_id timer0 = Ret (tt, s)
    /\ near_wf s (<[free_entries := pool_entries]> lists0)
    /\ tick_count s = 0 /\ bsp_lapic_id s = lapic_id /\ fired s = [].
Proof. apply timer_init_cases. Qed.

(** * Concrete wheels *)

Definition demo_timer : timer :=
  match init 0 timer0 with Ret (_, s) => s | _ => timer0 end.

Definition free_tail : list Z := pool <$> seqZ 1 (CONFIG_TIMER_MAX_ENTRIES - 1).

Lemma demo_near :
  near_wf demo_timer (<[free_entries := pool 0 :: free_tail]> lists0)
  /\ tick_count demo_timer = 0 /\ bsp_lapic_id demo_timer = 0.
Proof.
  unfold demo_timer. destruct (timer_init_cases 0) as (s & E & Hwf & Ht & Hb & _). rewrite E.
  split; [|exact (conj Ht Hb)]. replace (pool 0 :: free_tail) with pool_entries; [exact Hwf|].
  vm_compute. reflexivity.
Qed.

(** A timer set 20 ticks ahead with period 5. *)
Definition demo_armed : timer :=
  match create_periodic 65 20 5 0x1234 7 demo_timer with Ret (_, s) => s | _ => timer0 end.

Lemma demo_armed_near :
  exists L, near_wf demo_armed L /\ armed demo_armed L (pool 0) 20
    /\ tick_count demo_armed = 0 /\ bsp_lapic_id demo_armed = 0
    /\ period_ticks (entry demo_armed (pool 0)) = 5.
Proof.
  destruct demo_near as (Hwf & Ht & Hb).
  destruct (create_near 64 demo_timer _ _ _ 20 5 0x1234 7 Hwf (lookup_insert_eq _ _ _))
    as (s & L & E & Hwf' & Ha & Ht' & Hb' & _ & Hp & _);
    [unfold kBucketCount; lia|unfold kBucketCount; lia|rewrite Ht; unfold kBucketCount; lia|].
  assert (create_periodic 65 20 5 0x1234 7 demo_timer
    = create 65 (tick_count demo_timer + 20) 5 0x1234 7 demo_timer) as Ec.
  { unfold create_periodic. rewrite (n_init _ _ Hwf), Ht. reflexivity. }
  unfold demo_armed. rewrite Ec, E. exists L.
  exact (conj Hwf' (conj Ha (conj (eq_trans Ht' Ht) (conj (eq_trans Hb' Hb) Hp)))).
Qed.

Lemma armed_timer_fires_witness :
  exists s2 L2, ticks 65 21 demo_armed = Ret s2 /\ near_wf s2 L2 /\ armed s2 L2 (pool 0) 4.
Proof.
  destruct demo_armed_near as (L & Hwf & Ha & Ht & _ & Hp).
  destruct (armed_timer_fires 65 demo_armed L (pool 0) 20 Hwf Ha) as (_ & s2 & L2 & H1 & H2 & _ & _ & _ & H3).
  - rewrite Ht. unfold kBucketCount. lia.
  - lia.
  - exists s2, L2. rewrite Hp in H3. destruct H3 as [H3 _]; [lia|].
    exact (conj H1 (conj H2 H3)).
Defined.

Lemma oneshot_fires_witness :
  exists s0 s2, create_oneshot 65 (tick_count demo_timer + 10) 0x1234 7 demo_timer = Ret (pool 0, s0)
    /\ ticks 65 11 s0 = Ret s2 /\ (tick_count demo_timer + 10 + 1, 0x1234, 7) ∈ fired s2.
Proof.
  destruct demo_near as (Hwf & Ht & _).
  destruct (oneshot_fires 65 demo_timer _ (pool 0) free_tail 10 0x1234 7 Hwf (lookup_insert_eq _ _ _))
    as (s0 & s1 & L1 & s2 & L2 & H1 & _ & _ & _ & H2 & _ & H3 & _).
  - lia.
  - unfold kBucketCount. lia.
  - rewrite Ht. unfold kBucketCount. lia.
  - lia.
  - exists s0, s2. exact (conj H1 (conj H2 H3)).
Defined.

Lemma periodic_fires_witness :
  exists s0 s2 L2, create_periodic 65 20 5 0x1234 7 demo_timer = Ret (pool 0, s0)
    /\ ticks 65 21 s0 = Ret s2 /\ armed s2 L2 (pool 0) 4.
Proof.
  destruct demo_near as (Hwf & Ht & _).
  destruct (periodic_fires 65 demo_timer _ (pool 0) free_tail 20 5 0x1234 7 Hwf (lookup_insert_eq _ _ _))
    as (s0 & s2 & L2 & H1 & H2 & _ & _ & H3 & _).
  - lia.
  - unfold kBucketCount. lia.
  - unfold kBucketCount. lia.
  - rewrite Ht. unfold kBucketCount. lia.
  - lia.
  - exists s0, s2, L2. exact (conj H1 (conj H2 H3)).
Defined.

Lemma far_timers_never_return_witness :
  create_oneshot 1 (tick_count demo_timer + 70000) 0x1234 7 demo_timer = Deadlock.
Proof.
  destruct demo_near as (Hwf & Ht & _).
  refine (proj1 (far_timers_never_return 0 demo_timer _ (pool 0) free_tail 70000 0x1234 7
    (n_init _ _ Hwf) (n_lock _ _ Hwf) _ (n_fam _ _ Hwf) (lookup_insert_eq _ _ _) (n_tick _ _ Hwf) _ _)).
  - lia.
  - unfold kBucketCount. lia.
  - rewrite Ht. lia.
Defined.

(** 200 ticks after start-up a timer is set 500 ticks ahead; 55 ticks later
    the next tick is a cascade. *)
Definition demo_hang : timer :=
  match ticks 65 200 demo_timer with
  | Ret s =>
      match create_oneshot 65 700 0x1234 7 s with
      | Ret (_, s) => match ticks 65 55 s with Ret s => s | _ => timer0 end
      | _ => timer0
      end
  | _ => timer0
  end.

Lemma level1_tick_hangs_witness :
  tick 1000000 (bsp_lapic_id demo_hang) demo_hang = Diverge.
Proof.
  apply (level1_tick_hangs demo_hang (pool 0)).
  - vm_compute. reflexivity.
  - vm_compute. reflexivity.
  - split_and!; [vm_compute; discriminate|apply not_elem_of_nil|apply NoDup_singleton].
  - left. vm_compute. split; reflexivity.
  - replace (l1_cursor demo_hang) with 0 by (vm_compute; reflexivity).
    split_and!; [vm_compute; discriminate| |].
    + apply not_elem_of_cons. split; [vm_compute; discriminate|apply not_elem_of_nil].
    + apply NoDup_cons. split; [|apply NoDup_singleton].
      apply not_elem_of_cons. split; [vm_compute; discriminate|apply not_elem_of_nil].
  - right. vm_compute. repeat split.
  - vm_compute. discriminate.
  - vm_compute. reflexivity.
  - vm_compute. reflexivity.
  - vm_compute. discriminate.
  - vm_compute. reflexivity.
Defined.

(** ** Uptime *)

Definition uptime_ticks (ids : list Z) (k : Uptime.clock) : Uptime.clock :=
  foldl (fun k id => Uptime.tick id k) k ids.

(** The uptime counts the ticks of the designated processor only, in
    milliseconds of the timer frequency, as long as a thousand times their
    number fits in 64 bits; at frequency 0 it is 0. *)
Theorem uptime_counts_bsp_ticks (bsp hz : Z) (ids : list Z) :
  0 <= hz -> 1000 * Z.of_nat (length (filter (fun i => i = bsp) ids)) < 2 ^ 64 ->
  Uptime.uptime_ms (uptime_ticks ids (Uptime.init bsp hz))
  = if hz =? 0 then 0 else (Z.of_nat (length (filter (fun i => i = bsp) ids)) * 1000) / hz.
Proof.
  intros Hhz Hb.
  assert (forall ids k, Uptime.designated_bsp_id k = bsp -> 0 <= Uptime.global_tick_count k ->
    Uptime.global_tick_count k + Z.of_nat (length (filter (fun i => i = bsp) ids)) < 2 ^ 64 ->
    Uptime.timer_frequency_hz (uptime_ticks ids k) = Uptime.timer_frequency_hz k
    /\ Uptime.global_tick_count (uptime_ticks ids k)
       = Uptime.global_tick_count k + Z.of_nat (length (filter (fun i => i = bsp) ids))) as Hind.
  { clear. induction ids as [|i ids IH]; intros k Hk H0 Hlt; [cbn; lia|].
    unfold uptime_ticks. cbn [foldl]. fold (uptime_ticks ids (Uptime.tick i k)).
    unfold Uptime.tick. rewrite Hk. rewrite filter_cons in *. case_decide as E.
    - subst i. rewrite Z.eqb_refl. cbn [length] in *.
      destruct (IH {| Uptime.designated_bsp_id := bsp; Uptime.timer_frequency_hz := Uptime.timer_frequency_hz k;
        Uptime.global_tick_count := Uptime.global_tick_count k +64 1 |}) as [H1 H2]; cbn [Uptime.designated_bsp_id
        Uptime.global_tick_count Uptime.timer_frequency_hz] in *; [done|unfold wrap; zlia|
        unfold wrap; rewrite Z.mod_small; lia|].
      rewrite H1, H2. split; [done|]. unfold wrap. rewrite Z.mod_small; lia.
    - replace (i =? bsp) with false by lia. by apply IH. }
  destruct (Hind ids (Uptime.init bsp hz)) as [H1 H2]; cbn [Uptime.designated_bsp_id Uptime.global_tick_count Uptime.init]; [done|lia|lia|].
  unfold Uptime.uptime_ms. rewrite H1, H2. cbn [Uptime.timer_frequency_hz Uptime.global_tick_count Uptime.init].
  case_match; [done|]. f_equal. unfold wrap. rewrite Z.mod_small; lia.
Qed.

Lemma uptime_counts_bsp_ticks_witness :
  Uptime.uptime_ms (uptime_ticks [0; 1; 0; 0] (Uptime.init 0 250)) = 12.
Proof.
  rewrite (uptime_counts_bsp_ticks 0 250 [0; 1; 0; 0]).
  - vm_compute. reflexivity.
  - lia.
  - vm_compute. reflexivity.
Defined.
