(* ===== verification/Vmm.v ===== *)
(** Page tables and kernel virtual ranges: [vmm.cpp], [vmm.hpp],
    [vmem_layout.hpp].

    Physical memory is a word-addressed array; a page table is 512 words from
    a page-aligned physical address.  The code reaches tables through the
    direct map, whose translation [PageAlloc.v] shows to be invertible, so a
    table is addressed physically here.  TLB invalidations have no effect on
    the tables.  [None] is a kernel panic. *)

From S2P Require Import Prelude MemoryMap Pmm PageAlloc.

Definition pte_present : Z := bit64 0.
Definition pte_writable : Z := bit64 1.
Definition pte_user : Z := bit64 2.
Definition pte_huge : Z := bit64 7.
Definition pte_cow : Z := bit64 9.
Definition pte_addr_mask : Z := 0x000ffffffffff000.

(** [enum class Flags]; a set of flags is the disjunction of their values. *)
Module Flags.
Definition None : Z := 0.
Definition Present : Z := bit64 0.
Definition Writable : Z := bit64 1.
Definition User : Z := bit64 2.
Definition WriteThrough : Z := bit64 3.
Definition CacheDisable : Z := bit64 4.
Definition Global : Z := bit64 8.
Definition CowPending : Z := bit64 9.
Definition NoExecute : Z := bit64 63.
End Flags.

Definition is_present (e : Z) : bool := negb (Z.land e pte_present =? 0).
Definition is_writable (e : Z) : bool := negb (Z.land e pte_writable =? 0).
Definition is_huge (e : Z) : bool := negb (Z.land e pte_huge =? 0).
Definition is_cow (e : Z) : bool := negb (Z.land e pte_cow =? 0).
Definition addr_of (e : Z) : Z := Z.land e pte_addr_mask.
(** What [ensure_table] and [split_huge] store for a new table. *)
Definition table_entry (phys : Z) : Z :=
  Z.lor (Z.lor (Z.lor phys pte_present) pte_writable) pte_user.

Record vmm (S : Type) := Vmm {
  pmem : arr Z;
  kernel_pml4_phys : Z;
  vmem_current : Z;
  vmem_end : Z;
  frames : S;
}.
Arguments Vmm {S}.
Arguments pmem {S}.
Arguments kernel_pml4_phys {S}.
Arguments vmem_current {S}.
Arguments vmem_end {S}.
Arguments frames {S}.

(** The address of an entry of a table, and its value. *)
Definition entry_addr (table i : Z) : Z := table + 8 * i.
Definition ent (m : arr Z) (table i : Z) : Z := aget m (entry_addr table i).

Definition pml4_index (va : Z) : Z := Z.land (Z.shiftr va 39) 0x1ff.
Definition pdpt_index (va : Z) : Z := Z.land (Z.shiftr va 30) 0x1ff.
Definition pd_index (va : Z) : Z := Z.land (Z.shiftr va 21) 0x1ff.
Definition pt_index (va : Z) : Z := Z.land (Z.shiftr va 12) 0x1ff.

Section Operations.
Context {S : Type} `{PageRefs S}.
Implicit Types (s : vmm S).

Definition set_pmem (f : arr Z -> arr Z) s : vmm S :=
  Vmm (f (pmem s)) (kernel_pml4_phys s) (vmem_current s) (vmem_end s) (frames s).
Definition set_frames (x : S) s : vmm S :=
  Vmm (pmem s) (kernel_pml4_phys s) (vmem_current s) (vmem_end s) x.
Definition set_vmem (c e : Z) s : vmm S :=
  Vmm (pmem s) (kernel_pml4_phys s) c e (frames s).
Definition write (a v : Z) s : vmm S := set_pmem (fun m => aset m a v) s.

Definition resolve_pml4 (pml4 : Z) s : Z :=
  if negb (pml4 =? 0) then pml4 else kernel_pml4_phys s.

(** [for (i = lo; i < hi; ++i) table->entries[i] = v(i)] *)
Definition fill_table (table lo hi : Z) (v : Z -> Z) (m : arr Z) : arr Z :=
  for_z lo hi (fun i m => aset m (entry_addr table i) (v i)) m.

(** [ea] is the address of the entry that the reference parameter denotes. *)
Definition ensure_table (ea : Z) s : option (Z * vmm S) :=
  if negb (is_present (aget (pmem s) ea)) then
    let '(new_table_phys, fr) := pa_alloc (frames s) 1 in
    if new_table_phys =? invalid_physical_address then None
    else
      let s := set_frames fr s in
      let s := set_pmem (fill_table new_table_phys 0 512 (fun _ => 0)) s in
      let s := write ea (table_entry new_table_phys) s in
      Some (addr_of (aget (pmem s) ea), s)
  else Some (addr_of (aget (pmem s) ea), s).

Definition split_flags (e : Z) : Z :=
  Z.land e (Z.lor (Z.lor (Z.lor (Z.lor pte_present pte_writable) pte_user) 0x18) (bit64 63)).

(** The entries of the table that replaces a 1 GiB ([level] 1) or 2 MiB page. *)
Definition split_base (e : Z) (level : Z) : Z :=
  Z.land (addr_of e) (lnot64 (bit64 (if level =? 1 then 30 else 21) - 1)).
Definition split_entry (e : Z) (level i : Z) : Z :=
  let sub_size := if level =? 1 then bit64 21 else bit64 12 in
  let sub := Z.lor (split_base e level +64 i * sub_size) (split_flags e) in
  if level =? 1 then Z.lor sub pte_huge else sub.

Definition split_huge (ea level : Z) s : option (vmm S) :=
  let e := aget (pmem s) ea in
  let '(new_table_phys, fr) := pa_alloc (frames s) 1 in
  if new_table_phys =? invalid_physical_address then None
  else
    let s := set_frames fr s in
    let s := set_pmem (fill_table new_table_phys 0 512 (split_entry e level)) s in
    Some (write ea (table_entry new_table_phys) s).

Definition table_is_empty (m : arr Z) (table : Z) : bool :=
  all_z 512 0 (fun i => negb (is_present (ent m table i))).

Definition cleanup_table_level (phys level : Z) s : bool * vmm S :=
  if level =? 0 then (false, s)
  else if negb (table_is_empty (pmem s) phys) then (false, s)
  else (true, set_frames (pa_free (frames s) phys 1) s).

Definition init (cr3 : Z) s : vmm S :=
  Vmm (pmem s) (Z.land cr3 pte_addr_mask) (vmem_current s) (vmem_end s) (frames s).

Definition kernel_pml4 s : Z := kernel_pml4_phys s.

(** Split the entry when it maps a huge page. *)
Definition split_if_huge (ea level : Z) s : option (vmm S) :=
  if is_present (aget (pmem s) ea) && is_huge (aget (pmem s) ea)
  then split_huge ea level s else Some s.

Definition map_page (va pa flags pml4_phys : Z) s : option (vmm S) :=
  let root := resolve_pml4 pml4_phys s in
  if root =? 0 then None
  else
    '(pdpt_phys, s) ← ensure_table (entry_addr root (pml4_index va)) s;
    s ← split_if_huge (entry_addr pdpt_phys (pdpt_index va)) 1 s;
    '(pd_phys, s) ← ensure_table (entry_addr pdpt_phys (pdpt_index va)) s;
    s ← split_if_huge (entry_addr pd_phys (pd_index va)) 2 s;
    '(pt_phys, s) ← ensure_table (entry_addr pd_phys (pd_index va)) s;
    Some (write (entry_addr pt_phys (pt_index va)) (Z.lor (Z.land pa pte_addr_mask) flags) s).

(** [if (cleanup_table_level(phys, level)) *parent = 0;] *)
Definition cleanup_step (phys level parent : Z) s : vmm S :=
  let '(freed, s) := cleanup_table_level phys level s in
  if freed then write parent 0 s else s.

Definition unmap_page (va pml4_phys : Z) s : option (vmm S) :=
  let root := resolve_pml4 pml4_phys s in
  if root =? 0 then None
  else
    let e4 := ent (pmem s) root (pml4_index va) in
    if negb (is_present e4) then Some s
    else
      let pdpt_phys := addr_of e4 in
      let e3 := ent (pmem s) pdpt_phys (pdpt_index va) in
      if negb (is_present e3) then Some s
      else
        let pd_phys := addr_of e3 in
        let e2 := ent (pmem s) pd_phys (pd_index va) in
        if negb (is_present e2) then Some s
        else
          let pt_phys := addr_of e2 in
          let e1 := ent (pmem s) pt_phys (pt_index va) in
          if negb (is_present e1) then Some s
          else
            let s := write (entry_addr pt_phys (pt_index va)) 0 s in
            let s := cleanup_step pt_phys 1 (entry_addr pd_phys (pd_index va)) s in
            let s := cleanup_step pd_phys 2 (entry_addr pdpt_phys (pdpt_index va)) s in
            Some (cleanup_step pdpt_phys 3 (entry_addr root (pml4_index va)) s).

(** ** Kernel virtual ranges *)

(** [kernel_base]: the linker symbol [__kernel_virtual_start]. *)
Definition init_vmem_ranges (kernel_base hhdm_top : Z) s : vmm S :=
  let hhdm_top := Z.land (hhdm_top +64 0xfff) (lnot64 0xfff) in
  if kernel_base <=? hhdm_top then set_vmem 0 0 s
  else set_vmem hhdm_top kernel_base s.

Definition alloc_vmem_range (size : Z) s : Z * vmm S :=
  if size =? 0 then (0, s)
  else if vmem_end s <=? vmem_current s then (0, s)
  else
    let size := Z.land (size +64 0xfff) (lnot64 0xfff) in
    if (vmem_end s <? vmem_current s +64 size) || (vmem_current s +64 size <? vmem_current s)
    then (0, s)
    else (vmem_current s, set_vmem (vmem_current s +64 size) (vmem_end s) s).

Definition free_vmem_range (base size : Z) s : vmm S := s.

(** ** Address spaces *)

Definition create_user_pml4 s : Z * vmm S :=
  if kernel_pml4_phys s =? 0 then (0, s)
  else
    let '(new_pml4_phys, fr) := pa_alloc (frames s) 1 in
    if new_pml4_phys =? invalid_physical_address then (0, set_frames fr s)
    else
      let s := set_frames fr s in
      let s := set_pmem (fill_table new_pml4_phys 0 512 (fun _ => 0)) s in
      (new_pml4_phys,
       set_pmem (fun m => for_z 256 512
         (fun i m => aset m (entry_addr new_pml4_phys i) (ent m (kernel_pml4_phys s) i)) m) s).

(** One leaf entry of [clone_table]: retain the page, mark a writable source
    entry copy-on-write, copy the entry. *)
Definition clone_leaf (src dst i : Z) s : vmm S :=
  let entry := ent (pmem s) src i in
  let s := set_frames (pa_retain (frames s) (addr_of entry)) s in
  let s := if is_writable entry
           then write (entry_addr src i) (Z.lor (Z.land entry (lnot64 pte_writable)) pte_cow) s
           else s in
  write (entry_addr dst i) (ent (pmem s) src i) s.

Definition table_entries : nat := 512.

(** [clone_table src_phys depth]; 0 when a page cannot be allocated.  The
    entries [i .. 512) remain to be cloned by the loop. *)
Fixpoint clone_table (depth : nat) (src_phys : Z) s : Z * vmm S :=
  let '(dst_phys, fr) := pa_alloc (frames s) 1 in
  let s := set_frames fr s in
  if dst_phys =? invalid_physical_address then (0, s)
  else
    (fix loop (n : nat) (i : Z) (s : vmm S) {struct n} : Z * vmm S :=
       match n with
       | O => (dst_phys, s)
       | Datatypes.S n =>
           let entry := ent (pmem s) src_phys i in
           if negb (is_present entry) then
             loop n (i + 1) (write (entry_addr dst_phys i) 0 s)
           else
             match depth with
             | O => loop n (i + 1) (clone_leaf src_phys dst_phys i s)
             | Datatypes.S depth =>
                 if is_huge entry then
                   loop n (i + 1) (write (entry_addr dst_phys i) entry s)
                 else
                   let '(sub_phys, s) := clone_table depth (addr_of entry) s in
                   if sub_phys =? 0 then (0, set_frames (pa_free (frames s) dst_phys 1) s)
                   else loop n (i + 1) (write (entry_addr dst_phys i) (table_entry sub_phys) s)
             end
       end) table_entries 0 s.

Fixpoint free_table (depth : nat) (phys : Z) s : vmm S :=
  let s := for_z 0 512 (fun i s =>
    let entry := ent (pmem s) phys i in
    if negb (is_present entry) then s
    else match depth with
         | O => set_frames (pa_free (frames s) (addr_of entry) 1) s
         | Datatypes.S depth =>
             if negb (is_huge entry) then free_table depth (addr_of entry) s else s
         end) s in
  set_frames (pa_free (frames s) phys 1) s.

(** The roll-back of [clone_address_space]: free the subtrees cloned so far. *)
Definition free_cloned (dst_pml4_phys i : Z) s : vmm S :=
  for_z 0 i (fun j s =>
    let e := ent (pmem s) dst_pml4_phys j in
    if is_present e then free_table 2 (addr_of e) s else s) s.

Fixpoint clone_user_half (n : nat) (i src_pml4_phys dst_pml4_phys : Z) s : Z * vmm S :=
  match n with
  | O => (dst_pml4_phys, s)
  | Datatypes.S n =>
      let entry := ent (pmem s) src_pml4_phys i in
      if negb (is_present entry) then
        clone_user_half n (i + 1) src_pml4_phys dst_pml4_phys (write (entry_addr dst_pml4_phys i) 0 s)
      else if is_huge entry then
        clone_user_half n (i + 1) src_pml4_phys dst_pml4_phys (write (entry_addr dst_pml4_phys i) entry s)
      else
        let '(sub_phys, s) := clone_table 2 (addr_of entry) s in
        if sub_phys =? 0 then
          let s := free_cloned dst_pml4_phys i s in
          (0, set_frames (pa_free (frames s) dst_pml4_phys 1) s)
        else
          clone_user_half n (i + 1) src_pml4_phys dst_pml4_phys
            (write (entry_addr dst_pml4_phys i) (table_entry sub_phys) s)
  end.

Definition clone_address_space (src_pml4_phys : Z) s : Z * vmm S :=
  if kernel_pml4_phys s =? 0 then (0, s)
  else
    let '(dst_pml4_phys, fr) := pa_alloc (frames s) 1 in
    let s := set_frames fr s in
    if dst_pml4_phys =? invalid_physical_address then (0, s)
    else
      let s := set_pmem (fun m => for_z 256 512
        (fun i m => aset m (entry_addr dst_pml4_phys i) (ent m src_pml4_phys i)) m) s in
      clone_user_half 256 0 src_pml4_phys dst_pml4_phys s.

(** [handle_cow_fault]; the copy of 4096 bytes is a copy of 512 words. *)
Definition copy_page (src dst : Z) (m : arr Z) : arr Z :=
  for_z 0 512 (fun i m => aset m (dst + 8 * i) (aget m (src + 8 * i))) m.

Definition handle_cow_fault (fault_address error_code pml4_phys : Z) s : bool * vmm S :=
  if negb (Z.land error_code 7 =? 7) || (pml4_phys =? 0) then (false, s)
  else
    let e4 := ent (pmem s) pml4_phys (pml4_index fault_address) in
    if negb (is_present e4) then (false, s)
    else
      let e3 := ent (pmem s) (addr_of e4) (pdpt_index fault_address) in
      if negb (is_present e3) then (false, s)
      else
        let e2 := ent (pmem s) (addr_of e3) (pd_index fault_address) in
        if negb (is_present e2) then (false, s)
        else if is_huge e2 then (false, s)
        else
          let pte_a := entry_addr (addr_of e2) (pt_index fault_address) in
          let pte := aget (pmem s) pte_a in
          if negb (is_present pte) || negb (is_cow pte) then (false, s)
          else
            let old_page_phys := addr_of pte in
            if pa_refs (frames s) old_page_phys <=? 1 then
              (true, write pte_a (Z.land (Z.lor pte pte_writable) (lnot64 pte_cow)) s)
            else
              let '(new_page_phys, fr) := pa_alloc (frames s) 1 in
              let s := set_frames fr s in
              if new_page_phys =? invalid_physical_address then (false, s)
              else
                let s := set_pmem (copy_page old_page_phys new_page_phys) s in
                let preserved := Z.land pte (lnot64 (Z.lor (Z.lor pte_addr_mask pte_writable) pte_cow)) in
                let s := write pte_a
                  (Z.lor (Z.lor (Z.land new_page_phys pte_addr_mask) preserved) pte_writable) s in
                (true, set_frames (pa_free (frames s) old_page_phys 1) s).

Definition free_address_space (pml4_phys : Z) s : vmm S :=
  if pml4_phys =? 0 then s
  else
    let s := for_z 0 256 (fun i s =>
      let entry := ent (pmem s) pml4_phys i in
      if negb (is_present entry) then s
      else if negb (is_huge entry) then free_table 2 (addr_of entry) s else s) s in
    set_frames (pa_free (frames s) pml4_phys 1) s.

End Operations.

(** ** Layout predicates of [vmem_layout.hpp] *)

Module Vmem.
Definition user_base : Z := 0x0000000000000000.
Definition user_limit : Z := 0x00007FFFFFFFFFFF.
Definition kernel_base : Z := 0xFFFF800000000000.
Definition kernel_limit : Z := 0xFFFFFFFFFFFFFFFF.

(** [vstart], [vend]: the linker symbols of the kernel image. *)
Definition kernel_image_size (vstart vend : Z) : Z :=
  if vstart <? vend then vend -64 vstart else 0.
Definition kernel_image_end (vstart vend : Z) : Z := vstart +64 kernel_image_size vstart vend.

Record Range := { base : Z; size : Z }.
Definition range_contains (r : Range) (address : Z) : bool :=
  (base r <=? address) && (address <? base r +64 size r).
Definition ranges_overlap (a b : Range) : bool :=
  (base a <? base b +64 size b) && (base b <? base a +64 size a).
Definition is_kernel_address (address : Z) : bool :=
  (kernel_base <=? address) && (address <=? kernel_limit).
Definition is_user_address (address : Z) : bool := address <=? user_limit.
End Vmem.

(** * Bits of entries *)

Lemma is_present_testbit e : is_present e = Z.testbit e 0.
Proof. unfold is_present, pte_present. by apply land_bit64_nonzero. Qed.
Lemma is_writable_testbit e : is_writable e = Z.testbit e 1.
Proof. unfold is_writable, pte_writable. by apply land_bit64_nonzero. Qed.
Lemma is_huge_testbit e : is_huge e = Z.testbit e 7.
Proof. unfold is_huge, pte_huge. by apply land_bit64_nonzero. Qed.
Lemma is_cow_testbit e : is_cow e = Z.testbit e 9.
Proof. unfold is_cow, pte_cow. by apply land_bit64_nonzero. Qed.

Lemma addr_mask_testbit n : 0 <= n -> Z.testbit pte_addr_mask n = (12 <=? n) && (n <? 52).
Proof.
  intros Hn. change pte_addr_mask with (Z.shiftl (Z.ones 40) 12).
  rewrite Z.shiftl_spec by done.
  destruct (Z.leb_spec 12 n); cbn [andb].
  - destruct (Z.ltb_spec n 52).
    + by rewrite Z.ones_spec_low by lia.
    + by rewrite Z.ones_spec_high by lia.
  - rewrite Z.testbit_neg_r by lia. done.
Qed.

Lemma addr_of_testbit e n :
  0 <= n -> Z.testbit (addr_of e) n = Z.testbit e n && (12 <=? n) && (n <? 52).
Proof. intros. unfold addr_of. by rewrite Z.land_spec, addr_mask_testbit, andb_assoc. Qed.

(** A page-aligned address below 2^52, and small flags, do not interfere. *)
Lemma page_testbit_low page n : 0 <= n < 12 -> Z.testbit (page * 4096) n = false.
Proof. intros. change 4096 with (2 ^ 12). apply Z.mul_pow2_bits_low. lia. Qed.

Lemma page_testbit_high page n :
  0 <= page < 2 ^ 40 -> 52 <= n -> Z.testbit (page * 4096) n = false.
Proof.
  intros Hp Hn. rewrite <- (Z.mod_small (page * 4096) (2 ^ 52)) by lia.
  apply Z.mod_pow2_bits_high. lia.
Qed.

Lemma addr_of_entry page f :
  0 <= page < 2 ^ 40 -> addr_of f = 0 -> addr_of (Z.lor (page * 4096) f) = page * 4096.
Proof.
  intros Hp Hf. unfold addr_of in *. rewrite Z.land_lor_distr_l, Hf, Z.lor_0_r.
  apply Z.bits_inj'. intros n Hn. rewrite Z.land_spec, addr_mask_testbit by done.
  destruct (Z.leb_spec 12 n); cbn [andb].
  - destruct (Z.ltb_spec n 52); [apply andb_true_r|]. by rewrite page_testbit_high.
  - rewrite page_testbit_low by lia. done.
Qed.

Lemma table_entry_eq phys : table_entry phys = Z.lor phys 7.
Proof. unfold table_entry. by rewrite <- !Z.lor_assoc. Qed.

Lemma table_entry_spec page :
  0 <= page < 2 ^ 40 ->
  addr_of (table_entry (page * 4096)) = page * 4096
  /\ is_present (table_entry (page * 4096)) = true
  /\ is_huge (table_entry (page * 4096)) = false.
Proof.
  intros Hp. rewrite table_entry_eq, is_present_testbit, is_huge_testbit.
  split_and!; [by apply addr_of_entry|..]; by rewrite Z.lor_spec, page_testbit_low by lia.
Qed.

(** * The hardware's view *)

(** The index of an address at each level of the tree (3 is the PML4). *)
Definition idx (lvl : nat) (va : Z) : Z := Z.land (Z.shiftr va (12 + 9 * Z.of_nat lvl)) 0x1ff.

Lemma idx_range lvl va : 0 <= idx lvl va < 512.
Proof.
  unfold idx. change 0x1ff with (Z.ones 9). rewrite Z.land_ones by done. by apply Z.mod_pos_bound.
Qed.

(** Size and base of the page an entry maps at a level. *)
Definition level_bits (lvl : nat) : Z := 12 + 9 * Z.of_nat lvl.
Definition level_base (lvl : nat) (e : Z) : Z := Z.land (addr_of e) (lnot64 (2 ^ level_bits lvl - 1)).

(** The translation of [va] from the table [t] of level [lvl]: the physical
    4 KiB page and the access flags of the leaf entry. *)
Fixpoint walk_at (m : arr Z) (lvl : nat) (t va : Z) : option (Z * Z) :=
  let e := ent m t (idx lvl va) in
  if is_present e then
    match lvl with
    | O => Some (addr_of e, split_flags e)
    | S l =>
        if (Z.of_nat lvl <=? 2) && is_huge e
        then Some (level_base lvl e + va mod 2 ^ level_bits lvl / 4096 * 4096, split_flags e)
        else walk_at m l (addr_of e) va
    end
  else None.

Definition translate {S} (s : vmm S) (root va : Z) : option (Z * Z) := walk_at (pmem s) 3 root va.

(** The indices of an address from the PML4 down. *)
Definition vpath (va : Z) : list Z := [idx 3 va; idx 2 va; idx 1 va; idx 0 va].

(** Two addresses in the same 4 KiB page of the 48-bit space. *)
Definition same_page (va va' : Z) : Prop := vpath va = vpath va'.

(** * Page-table trees

    [own] maps every table page of the tree to the indices that lead to it
    from the root: no table is reached twice.  A table may be empty, as
    one that was just made is; which tables [unmap_page] takes out is said by
    [cleaned]. *)
Record tree (m : arr Z) (used : Z -> bool) (root : Z) (own : gmap Z (list Z)) : Prop := {
  t_root : own !! root = Some [];
  t_child : forall t p i, own !! t = Some p -> (length p < 3)%nat -> 0 <= i < 512 ->
    is_present (ent m t i) = true -> is_huge (ent m t i) = false \/ p = [] ->
    own !! addr_of (ent m t i) = Some (p ++ [i]);
  t_parent : forall t p, own !! t = Some p ->
    (p = [] /\ t = root)
    \/ exists p' i t', p = p' ++ [i] /\ own !! t' = Some p' /\ 0 <= i < 512
       /\ is_present (ent m t' i) = true /\ (is_huge (ent m t' i) = false \/ p' = [])
       /\ addr_of (ent m t' i) = t;
  t_page : forall t p, own !! t = Some p ->
    (length p <= 3)%nat
    /\ exists page, t = page * 4096 /\ 0 <= page < max_managed_pages /\ used page = true;
}.

(** An entry that hangs a table into the tree. *)
Definition is_link (p : list Z) (e : Z) : bool :=
  is_present e && (negb (is_huge e) || bool_decide (p = [])).

Lemma is_link_true p e :
  is_link p e = true <-> is_present e = true /\ (is_huge e = false \/ p = []).
Proof.
  unfold is_link. rewrite andb_true_iff, orb_true_iff, negb_true_iff, bool_decide_eq_true. done.
Qed.

(** A path leads to one table only. *)
Lemma tree_path_inj m u root own p : forall t t',
  tree m u root own -> own !! t = Some p -> own !! t' = Some p -> t = t'.
Proof.
  induction p as [|i p IH] using rev_ind; intros t t' Htree Ht Ht'.
  - destruct (t_parent _ _ _ _ Htree _ _ Ht) as [[_ ->]|(q & ? & ? & E & _)]; [|by destruct q].
    destruct (t_parent _ _ _ _ Htree _ _ Ht') as [[_ ->]|(q & ? & ? & E & _)]; [done|by destruct q].
  - destruct (t_parent _ _ _ _ Htree _ _ Ht) as [[E _]|(p1 & i1 & t1 & E1 & H1 & _ & _ & _ & <-)]; [by destruct p|].
    destruct (t_parent _ _ _ _ Htree _ _ Ht') as [[E _]|(p2 & i2 & t2 & E2 & H2 & _ & _ & _ & <-)]; [by destruct p|].
    apply app_inj_tail in E1 as [-> ->]. apply app_inj_tail in E2 as [-> ->].
    by rewrite (IH t1 t2).
Qed.

(** A walk from the root reaches the table its path names. *)
Lemma walk_reach m u root own va lvl t :
  tree m u root own -> (lvl <= 3)%nat -> own !! t = Some (take (3 - lvl) (vpath va)) ->
  walk_at m 3 root va = walk_at m lvl t va.
Proof.
  intros Htree. remember (3 - lvl)%nat as k eqn:Ek. revert lvl t Ek.
  induction k as [|k IH]; intros lvl t Ek Hl Ht.
  - replace lvl with 3%nat by lia.
    destruct (t_parent _ _ _ _ Htree _ _ Ht) as [[_ ->]|(q & ? & ? & E & _)]; [done|by destruct q].
  - assert (take (S k) (vpath va) = take k (vpath va) ++ [idx (S lvl) va]) as Hpath.
    { destruct k as [|[|[|k]]]; [replace lvl with 2%nat by lia|replace lvl with 1%nat by lia
        |replace lvl with 0%nat by lia|lia]; reflexivity. }
    destruct (t_parent _ _ _ _ Htree _ _ Ht) as [[E _]|(p & i & t' & E & Ht' & _ & Hpr & Hh & <-)].
    { rewrite Hpath in E. by destruct (take k (vpath va)). }
    rewrite Hpath in E. apply app_inj_tail in E as [<- <-].
    rewrite (IH (S lvl) t') by (done || lia). cbn [walk_at]. rewrite Hpr.
    replace ((Z.of_nat (S lvl) <=? 2) && is_huge (ent m t' (idx (S lvl) va))) with false; [done|].
    symmetry. apply andb_false_iff. destruct Hh as [Hh|Hnil]; [by right|left].
    destruct k as [|k]; [|done]. apply Z.leb_gt. lia.
Qed.

(** Entries of different tables, or of different indices, are different words. *)
Lemma entry_addr_inj pg pg' i j :
  0 <= i < 512 -> 0 <= j < 512 ->
  entry_addr (pg * 4096) i = entry_addr (pg' * 4096) j -> pg = pg' /\ i = j.
Proof. unfold entry_addr. lia. Qed.

Lemma tree_entry_inj m u root own t t' p p' i j :
  tree m u root own -> own !! t = Some p -> own !! t' = Some p' ->
  0 <= i < 512 -> 0 <= j < 512 -> entry_addr t i = entry_addr t' j -> t = t' /\ i = j.
Proof.
  intros Ht H1 H2 Hi Hj E.
  destruct (t_page _ _ _ _ Ht t p H1) as (_ & pg & -> & _). destruct (t_page _ _ _ _ Ht t' p' H2) as (_ & pg' & -> & _).
  apply entry_addr_inj in E as [-> ->]; auto.
Qed.

(** A walk that does not go through entry [i] of [t], or through which the
    changed entry leads to the same result, does not change. *)
Lemma walk_frame m m' u root own t p i va :
  tree m u root own -> own !! t = Some p -> (length p <= 3)%nat ->
  (forall t' p' j, own !! t' = Some p' -> 0 <= j < 512 -> (t', j) <> (t, i) ->
     ent m' t' j = ent m t' j) ->
  (p ++ [i] = take (length p + 1) (vpath va) ->
     walk_at m' (3 - length p) t va = walk_at m (3 - length p) t va) ->
  walk_at m' 3 root va = walk_at m 3 root va.
Proof.
  intros Htree Ht Hp Hsame Hvia.
  assert (forall lvl t0, (lvl <= 3)%nat -> own !! t0 = Some (take (3 - lvl) (vpath va)) ->
    (t0, idx lvl va) = (t, i) -> walk_at m' lvl t0 va = walk_at m lvl t0 va) as Hhit.
  { intros lvl t0 Hl Ht0 [= -> Hi]. assert (p = take (3 - lvl) (vpath va)) as Hpath by congruence.
    assert (length p = (3 - lvl)%nat) as Hlen by (rewrite Hpath, length_take; cbn; lia).
    replace lvl with (3 - length p)%nat by lia. apply Hvia.
    rewrite Hlen. subst p. rewrite <- Hi. destruct lvl as [|[|[|[|lvl]]]]; try lia; reflexivity. }
  assert (forall lvl t0, (lvl <= 3)%nat -> own !! t0 = Some (take (3 - lvl) (vpath va)) ->
    walk_at m' lvl t0 va = walk_at m lvl t0 va) as Hgen.
  { induction lvl as [|lvl IH]; intros t0 Hl Ht0.
    - destruct (decide ((t0, idx 0 va) = (t, i))) as [Heq|Hne]; [by eapply Hhit|].
      pose proof (Hsame t0 _ _ Ht0 (idx_range _ va) Hne) as He. cbn [walk_at]. by rewrite He.
    - destruct (decide ((t0, idx (S lvl) va) = (t, i))) as [Heq|Hne]; [by eapply Hhit|].
      pose proof (Hsame t0 _ _ Ht0 (idx_range _ va) Hne) as He. cbn [walk_at]. rewrite He. destruct (is_present (ent m t0 (idx (S lvl) va))) eqn:Hpres; [|done].
      destruct ((Z.of_nat (S lvl) <=? 2) && is_huge (ent m t0 (idx (S lvl) va))) eqn:Hh; [done|].
      apply IH; [lia|].
      rewrite (t_child _ _ _ _ Htree t0 _ (idx (S lvl) va) Ht0).
      + f_equal. destruct lvl as [|[|[|lvl]]]; try lia; reflexivity.
      + rewrite length_take. cbn. lia.
      + apply idx_range.
      + done.
      + apply andb_false_iff in Hh as [Hh|Hh]; [|by left]. right. bool_to_prop.
        replace (3 - S lvl)%nat with O by lia. done. }
  apply Hgen; [done|]. apply Htree.
Qed.

(** * Installing a new table *)

Lemma entry_addr_eq c i j : entry_addr c i = entry_addr c j -> i = j.
Proof. unfold entry_addr. lia. Qed.

Lemma fill_table_spec c lo hi v m :
  lo <= hi ->
  (forall i, lo <= i < hi -> ent (fill_table c lo hi v m) c i = v i)
  /\ (forall a, (forall i, lo <= i < hi -> a <> entry_addr c i) ->
        aget (fill_table c lo hi v m) a = aget m a).
Proof.
  intros Hle. unfold fill_table.
  apply (for_z_inv (fun k m' => (forall i, lo <= i < k -> ent m' c i = v i)
    /\ (forall a, (forall i, lo <= i < hi -> a <> entry_addr c i) -> aget m' a = aget m a))); [done| |].
  - split; [lia|done].
  - intros k m' Hk [H1 H2]. split.
    + intros i Hi. unfold ent. destruct (decide (i = k)) as [->|Hne]; [by rewrite aget_aset_eq|].
      rewrite aget_aset_ne; [apply H1; lia|]. intros E%entry_addr_eq. lia.
    + intros a Ha. rewrite aget_aset_ne; [by apply H2|]. intros <-. by apply (Ha k).
Qed.

(** ** Arithmetic of huge pages *)

Lemma addr_of_range e : 0 <= addr_of e < 2 ^ 52.
Proof.
  unfold addr_of. assert (0 <= Z.land e pte_addr_mask) as Hn by (apply Z.land_nonneg; right; done).
  split; [done|]. rewrite <- (Z.mod_small (Z.land e pte_addr_mask) (2 ^ 64)).
  - replace (Z.land e pte_addr_mask mod 2 ^ 64) with (Z.land e pte_addr_mask mod 2 ^ 52);
      [by apply Z.mod_pos_bound|].
    apply Z.bits_inj'. intros n Hn0. destruct (Z.lt_ge_cases n 52).
    + by rewrite !Z.mod_pow2_bits_low by lia.
    + rewrite Z.mod_pow2_bits_high by lia. destruct (Z.lt_ge_cases n 64).
      * rewrite Z.mod_pow2_bits_low, Z.land_spec, addr_mask_testbit by lia.
        replace (n <? 52) with false by lia. by rewrite !andb_false_r.
      * by rewrite Z.mod_pow2_bits_high by lia.
  - rewrite Z.land_comm. apply land_range64. done.
Qed.

Lemma addr_of_mod e : addr_of e mod 4096 = 0.
Proof.
  change 4096 with (2 ^ 12). apply Z.bits_inj'. intros n Hn. rewrite Z.bits_0.
  destruct (Z.lt_ge_cases n 12).
  - rewrite Z.mod_pow2_bits_low, addr_of_testbit by lia.
    replace (12 <=? n) with false by lia. by rewrite andb_false_r.
  - by apply Z.mod_pow2_bits_high.
Qed.

Lemma level_base_eq lvl e :
  (lvl <= 2)%nat -> level_base lvl e = addr_of e / 2 ^ level_bits lvl * 2 ^ level_bits lvl.
Proof.
  intros Hl. unfold level_base. pose proof (addr_of_range e).
  apply land_mask_down; unfold level_bits; lia.
Qed.

Definition flag_mask : Z :=
  Z.lor (Z.lor (Z.lor (Z.lor pte_present pte_writable) pte_user) 0x18) (bit64 63).

Lemma split_flags_addr e : addr_of (split_flags e) = 0.
Proof.
  unfold addr_of, split_flags. fold flag_mask. rewrite <- Z.land_assoc.
  change (Z.land flag_mask pte_addr_mask) with 0. apply Z.land_0_r.
Qed.

Lemma split_flags_page page :
  0 <= page < 2 ^ 40 -> split_flags (page * 4096) = 0.
Proof.
  intros Hp. apply Z.bits_inj'. intros n Hn. unfold split_flags. fold flag_mask.
  rewrite Z.land_spec, Z.bits_0.
  destruct (Z.lt_ge_cases n 12); [by rewrite page_testbit_low by lia|].
  destruct (Z.lt_ge_cases n 52); [|by rewrite page_testbit_high by lia].
  assert (Z.testbit (Z.land flag_mask pte_addr_mask) n = false) as Hm.
  { change (Z.land flag_mask pte_addr_mask) with 0. apply Z.bits_0. }
  rewrite Z.land_spec, addr_mask_testbit in Hm by done.
  replace ((12 <=? n) && (n <? 52)) with true in Hm by lia. rewrite andb_true_r in Hm.
  rewrite Hm. apply andb_false_r.
Qed.

Lemma split_flags_idem e : split_flags (split_flags e) = split_flags e.
Proof. unfold split_flags. by rewrite <- Z.land_assoc, Z.land_diag. Qed.

(** A page address, the flags of an entry and possibly the huge bit. *)
Lemma flagged_page page e h :
  0 <= page < 2 ^ 40 -> h = 0 \/ h = pte_huge ->
  let x := Z.lor (Z.lor (page * 4096) (split_flags e)) h in
  addr_of x = page * 4096 /\ split_flags x = split_flags e
  /\ is_present x = is_present e /\ is_huge x = negb (h =? 0).
Proof.
  intros Hp Hh x. subst x.
  assert (addr_of h = 0 /\ split_flags h = 0) as [Ha Hs] by (by destruct Hh as [->| ->]).
  split_and!.
  - rewrite <- Z.lor_assoc. apply addr_of_entry; [done|]. unfold addr_of in *.
    rewrite Z.land_lor_distr_l. fold (addr_of (split_flags e)). by rewrite split_flags_addr, Ha.
  - unfold split_flags at 1. rewrite !Z.land_lor_distr_l.
    fold (split_flags (page * 4096)) (split_flags (split_flags e)) (split_flags h).
    rewrite split_flags_page, split_flags_idem, Hs by done. by rewrite Z.lor_0_l, Z.lor_0_r.
  - rewrite !is_present_testbit, !Z.lor_spec, page_testbit_low by lia.
    unfold split_flags. rewrite Z.land_spec.
    replace (Z.testbit h 0) with false by (by destruct Hh as [->| ->]).
    rewrite orb_false_r, orb_false_l. fold flag_mask.
    replace (Z.testbit flag_mask 0) with true by done. apply andb_true_r.
  - rewrite is_huge_testbit, !Z.lor_spec, page_testbit_low by lia.
    unfold split_flags. rewrite Z.land_spec. fold flag_mask.
    replace (Z.testbit flag_mask 7) with false by done. rewrite andb_false_r.
    by destruct Hh as [->| ->].
Qed.

Lemma idx_eq lvl va : idx lvl va = (va / 2 ^ level_bits lvl) mod 512.
Proof.
  unfold idx, level_bits. change 0x1ff with (Z.ones 9). rewrite Z.land_ones by done.
  by rewrite Z.shiftr_div_pow2 by lia.
Qed.

(** The offset within a page of level [lvl + 1] in terms of the next index. *)
Lemma offset_split lvl va :
  va mod 2 ^ level_bits (S lvl) / 4096 * 4096
  = idx lvl va * 2 ^ level_bits lvl + va mod 2 ^ level_bits lvl / 4096 * 4096.
Proof.
  rewrite idx_eq.
  assert (2 ^ level_bits (S lvl) = 2 ^ level_bits lvl * 512) as ->.
  { unfold level_bits. replace (12 + 9 * Z.of_nat (S lvl)) with (12 + 9 * Z.of_nat lvl + 9) by lia.
    by rewrite (Z.pow_add_r 2 _ 9) by lia. }
  assert (exists k, 2 ^ level_bits lvl = k * 4096 /\ 0 < k) as (k & -> & Hk).
  { exists (2 ^ (9 * Z.of_nat lvl)). unfold level_bits. rewrite Z.pow_add_r by lia. split; [|lia].
    apply Z.mul_comm. }
  rewrite Z.rem_mul_r by lia. set (j := (va / (k * 4096)) mod 512). set (r := va mod (k * 4096)).
  replace (r + k * 4096 * j) with (r + (k * j) * 4096) by lia.
  rewrite Z.div_add by done. lia.
Qed.

Section Trees.
Context {S : Type} `{PageRefs S}.
Implicit Types (s : vmm S).

(** The page [alloc_page] hands out. *)
Lemma alloc_frame (fr : S) :
  pa_wf fr -> (pa_alloc fr 1).1 <> invalid_physical_address ->
  exists page, (pa_alloc fr 1).1 = page * 4096 /\ 0 <= page < max_managed_pages
    /\ pa_used fr page = false /\ pa_wf (pa_alloc fr 1).2
    /\ forall q, pa_used (pa_alloc fr 1).2 q = pa_used fr q || (q =? page).
Proof.
  intros Hwf Hne.
  destruct (pa_alloc_law fr 1 Hwf ltac:(unfold max_managed_pages; lia))
    as [(page & Ha & Hp0 & Hm & Hf & Hw & Hu)|E]; [|by rewrite E in Hne].
  exists page. split_and!; [done|done|lia|apply Hf; lia|done|].
  intros q. rewrite Hu. f_equal. unfold in_run. lia.
Qed.

(** The state after a table at page [c] with contents [v] is hung into entry
    [i] of table [t]. *)
Definition installed (m : arr Z) (t i c : Z) (v : Z -> Z) : arr Z :=
  aset (fill_table c 0 512 v m) (entry_addr t i) (table_entry c).

Lemma install_spec m u root own t p i page v u' :
  tree m u root own -> own !! t = Some p -> (length p < 3)%nat -> 0 <= i < 512 ->
  0 <= page < max_managed_pages -> u page = false -> u' page = true ->
  (forall q, u q = true -> u' q = true) ->
  is_link p (ent m t i) = false ->
  (forall j, 0 <= j < 512 -> (length p < 2)%nat -> is_present (v j) = true -> is_huge (v j) = true) ->
  let c := page * 4096 in
  let m' := installed m t i c v in
  tree m' u' root (<[c := p ++ [i]]> own)
  /\ ent m' t i = table_entry c
  /\ (forall j, 0 <= j < 512 -> ent m' c j = v j)
  /\ (forall t' p' j, own !! t' = Some p' -> 0 <= j < 512 -> (t', j) <> (t, i) ->
        ent m' t' j = ent m t' j)
  /\ own !! c = None
  /\ (forall a, a <> entry_addr t i -> (forall j, 0 <= j < 512 -> a <> entry_addr c j) ->
        aget m' a = aget m a).
Proof.
  intros Htree Ht Hp Hi Hpage Hu Hu' Hmono Hold Hv c m'.
  destruct (fill_table_spec c 0 512 v m ltac:(lia)) as [Hfill Hkeep].
  assert (own !! c = None) as Hc.
  { apply eq_None_not_Some. intros [q Hq]. destruct (t_page _ _ _ _ Htree c q Hq) as (_ & pg & E & _ & Hused).
    assert (pg = page) as -> by (subst c; lia). congruence. }
  assert (forall t' p' j k, own !! t' = Some p' -> 0 <= j < 512 -> 0 <= k < 512 ->
    entry_addr t' j <> entry_addr c k) as Hdisj.
  { intros t' p' j k Ht' Hj Hk E. destruct (t_page _ _ _ _ Htree t' p' Ht') as (_ & pg & -> & _).
    apply entry_addr_inj in E as [-> _]; [|done..]. fold c in Ht'. congruence. }
  assert (ent m' t i = table_entry c) as Eti by (unfold ent, m', installed; apply aget_aset_eq).
  assert (forall j, 0 <= j < 512 -> ent m' c j = v j) as Ec.
  { intros j Hj. unfold ent, m', installed. rewrite aget_aset_ne by by eapply Hdisj. by apply Hfill. }
  assert (forall t' p' j, own !! t' = Some p' -> 0 <= j < 512 -> (t', j) <> (t, i) ->
    ent m' t' j = ent m t' j) as Eo.
  { intros t' p' j Ht' Hj Hne. unfold ent, m', installed. rewrite aget_aset_ne.
    - apply Hkeep. intros k Hk. by eapply Hdisj.
    - intros E. apply Hne. symmetry in E.
      by destruct (tree_entry_inj _ _ _ _ _ _ _ _ _ _ Htree Ht' Ht Hj Hi E) as [-> ->]. }
  destruct (table_entry_spec page) as (Ea & Epr & Eh); [unfold max_managed_pages in *; lia|].
  fold c in Ea, Epr, Eh.
  split_and!; try done.
  - split.
    + rewrite lookup_insert_ne; [apply Htree|]. intros <-. by rewrite (t_root _ _ _ _ Htree) in Hc.
    + intros t' p' j. rewrite lookup_insert. case_decide as Htc.
      * intros [= <-] Hlen Hj. rewrite length_app in Hlen. cbn in Hlen.
        subst t'. rewrite Ec by done. intros Hpr Hhuge.
        destruct Hhuge as [Hh|Hnil]; [|by destruct p]. by rewrite Hv in Hh by (done || lia).
      * intros Ht' Hlen Hj. destruct (decide ((t', j) = (t, i))) as [[= -> ->]|Hne].
        -- rewrite Eti, Ea. intros _ _. assert (p' = p) as -> by congruence. apply lookup_insert_eq.
        -- rewrite (Eo t' p' j Ht' Hj Hne). intros Hpr Hhuge.
           pose proof (t_child _ _ _ _ Htree t' p' j Ht' Hlen Hj Hpr Hhuge) as Hch.
           rewrite lookup_insert_ne; [done|]. intros E. rewrite <- E in Hch. congruence.
    + intros t' p'. rewrite lookup_insert. case_decide as Htc.
      * intros [= <-]. subst t'. right. exists p, i, t. rewrite Eti, Ea, lookup_insert_ne by congruence.
        split_and!; auto; lia.
      * intros Ht'. destruct (t_parent _ _ _ _ Htree t' p' Ht') as [?|(q & j & t2 & -> & Ht2 & Hj & Hpr & Hh & Hx)];
          [by left|right]. exists q, j, t2.
        assert ((t2, j) <> (t, i)) as Hne.
        { intros [= -> ->]. assert (q = p) as -> by congruence.
          assert (is_link p (ent m t i) = true) by (by apply is_link_true). congruence. }
        rewrite (Eo t2 q j Ht2 Hj Hne), lookup_insert_ne by congruence. done.
    + intros t' p'. rewrite lookup_insert. case_decide as Htc.
      * intros [= <-]. rewrite length_app. cbn. split; [lia|]. exists page. done.
      * intros Ht'. destruct (t_page _ _ _ _ Htree t' p' Ht') as (? & pg & ? & ? & ?). split; [done|].
        exists pg. auto.
  - intros a Ha Hac. unfold m', installed. rewrite aget_aset_ne by congruence. by apply Hkeep.
Qed.

(** ** [ensure_table] *)

(** What every step of [map_page] preserves: the tree grows, translations of
    all addresses stay, and no word outside the tree and the free pages is
    written. *)
Definition grows (root : Z) s s' (own own' : gmap Z (list Z)) : Prop :=
  pa_wf (frames s') /\ tree (pmem s') (pa_used (frames s')) root own' /\ own ⊆ own'
  /\ (forall va, translate s' root va = translate s root va)
  /\ kernel_pml4_phys s' = kernel_pml4_phys s
  /\ (forall page, pa_used (frames s) page = true -> pa_used (frames s') page = true)
  /\ (forall page, pa_used (frames s) page = true -> own !! (page * 4096) = None ->
        own' !! (page * 4096) = None /\
        forall k, 0 <= k < 512 -> aget (pmem s') (entry_addr (page * 4096) k)
                  = aget (pmem s) (entry_addr (page * 4096) k)).

Lemma grows_refl root s own :
  pa_wf (frames s) -> tree (pmem s) (pa_used (frames s)) root own -> grows root s s own own.
Proof. intros ? ?. split_and!; try done. Qed.

Lemma grows_trans root s1 s2 s3 own1 own2 own3 :
  grows root s1 s2 own1 own2 -> grows root s2 s3 own2 own3 -> grows root s1 s3 own1 own3.
Proof.
  intros (W1 & T1 & S1 & V1 & K1 & U1 & F1) (W2 & T2 & S2 & V2 & K2 & U2 & F2).
  split_and!; [done|done|by etrans|intros; by rewrite V2|congruence|auto|].
  intros page Hu Hn. destruct (F1 page Hu Hn) as [Hn1 E1].
  destruct (F2 page (U1 page Hu) Hn1) as [Hn2 E2]. split; [done|].
  intros k Hk. by rewrite E2, E1.
Qed.

(** Installing a table whose translations agree with the old entry. *)
Lemma install_grows s root own t p i v (fr : S) page :
  pa_wf (frames s) -> tree (pmem s) (pa_used (frames s)) root own ->
  own !! t = Some p -> (length p < 3)%nat -> 0 <= i < 512 ->
  0 <= page < max_managed_pages -> pa_used (frames s) page = false -> pa_wf fr ->
  (forall q, pa_used fr q = pa_used (frames s) q || (q =? page)) ->
  is_link p (ent (pmem s) t i) = false ->
  (forall j, 0 <= j < 512 -> (length p < 2)%nat -> is_present (v j) = true -> is_huge (v j) = true) ->
  (forall va, p ++ [i] = take (length p + 1) (vpath va) ->
     walk_at (installed (pmem s) t i (page * 4096) v) (3 - length p) t va
     = walk_at (pmem s) (3 - length p) t va) ->
  let c := page * 4096 in
  let s' := write (entry_addr t i) (table_entry c) (set_pmem (fill_table c 0 512 v) (set_frames fr s)) in
  grows root s s' own (<[c := p ++ [i]]> own).
Proof.
  intros Hwf Htree Ht Hp Hi Hpage Hfree Hwf' Hused Hold Hv Hwalk c s'.
  destruct (install_spec (pmem s) (pa_used (frames s)) root own t p i page v (pa_used fr))
    as (Htree' & Eti & Ec & Eo & Hc & Hrest); try done.
  { rewrite Hused, Z.eqb_refl. apply orb_true_r. }
  { intros q Hq. by rewrite Hused, Hq. }
  fold c in Htree', Eti, Ec, Eo, Hc, Hrest, Hwalk. split_and!; try done.
  - by apply insert_subseteq.
  - intros va. unfold translate. cbn. apply (walk_frame (pmem s) _ (pa_used (frames s)) root own t p i va); auto. lia.
  - cbn. intros q Hq. by rewrite Hused, Hq.
  - intros q Hq Hn. assert (q <> page) as Hqp by congruence. split.
    + rewrite lookup_insert_ne by (subst c; lia). done.
    + intros k Hk. apply Hrest.
      * intros E. destruct (t_page _ _ _ _ Htree t p Ht) as (_ & pg & -> & _).
        apply entry_addr_inj in E as [-> _]; [|done..]. congruence.
      * intros j Hj E. apply entry_addr_inj in E as [-> _]; done.
Qed.
Lemma ensure_table_spec root s own t p i c s' :
  pa_wf (frames s) -> tree (pmem s) (pa_used (frames s)) root own ->
  own !! t = Some p -> (length p < 3)%nat -> 0 <= i < 512 ->
  (is_present (ent (pmem s) t i) = true -> is_huge (ent (pmem s) t i) = false \/ p = []) ->
  ensure_table (entry_addr t i) s = Some (c, s') ->
  exists own', grows root s s' own own' /\ own' !! c = Some (p ++ [i])
    /\ is_present (ent (pmem s') t i) = true /\ addr_of (ent (pmem s') t i) = c
    /\ (is_huge (ent (pmem s') t i) = false \/ p = []).
Proof.
  intros Hwf Htree Ht Hp Hi Hhuge. unfold ensure_table. fold (ent (pmem s) t i).
  destruct (is_present (ent (pmem s) t i)) eqn:Hpr; cbn [negb].
  { intros [= <- <-]. exists own. split_and!; [by apply grows_refl| |done|done|by apply Hhuge].
    apply Htree; auto. }
  pose proof (alloc_frame (frames s) Hwf) as Ha.
  destruct (pa_alloc (frames s) 1) as [a fr]. cbn [fst snd] in Ha.
  destruct (a =? invalid_physical_address) eqn:E; bool_to_prop; [done|].
  destruct Ha as (page & -> & Hpage & Hfree & Hwf' & Hused); [done|].
  intros [= <- <-].
  destruct (table_entry_spec page) as (Ea & Epr & Eh); [unfold max_managed_pages in *; lia|].
  assert (is_link p (ent (pmem s) t i) = false) as Hold by (unfold is_link; by rewrite Hpr).
  exists (<[page * 4096 := p ++ [i]]> own). cbn. rewrite aget_aset_eq. unfold ent at 1 2 3.
  cbn. rewrite aget_aset_eq, Ea. split_and!; [|apply lookup_insert_eq|done|done|by left].
  apply install_grows; try done.
  intros va Hva. destruct (install_spec (pmem s) (pa_used (frames s)) root own t p i page (fun _ => 0) (pa_used fr))
    as (_ & Eti & Ec & _); try done.
  { rewrite Hused, Z.eqb_refl. apply orb_true_r. }
  { intros q Hq. by rewrite Hused, Hq. }
  assert (idx (3 - length p) va = i) as Hidx.
  { destruct p as [|x [|y [|z p]]]; cbn in Hp, Hva |- *; try lia; congruence. }
  destruct (3 - length p)%nat as [|l] eqn:El; [lia|].
  cbn [walk_at]. rewrite Hidx, Hpr, Eti, Epr, Eh, andb_false_r, Ea.
  destruct l; cbn [walk_at]; by rewrite Ec by apply idx_range.
Qed.

(** ** [split_huge] *)

(** The entries that replace a huge page, as a page and the old flags. *)
Lemma split_entry_eq e (l : nat) j :
  (l <= 1)%nat -> 0 <= j < 512 ->
  exists page h, split_entry e (2 - Z.of_nat l) j = Z.lor (Z.lor (page * 4096) (split_flags e)) h
    /\ 0 <= page < 2 ^ 40 /\ page * 4096 = level_base (Datatypes.S l) e + j * 2 ^ level_bits l
    /\ h = (if (l =? 1)%nat then pte_huge else 0)
    /\ page * 4096 / 2 ^ level_bits l * 2 ^ level_bits l = page * 4096.
Proof.
  intros Hl Hj. pose proof (level_base_eq (Datatypes.S l) e ltac:(lia)) as Hb.
  pose proof (addr_of_range e) as Hr. set (b := level_base (Datatypes.S l) e) in *.
  assert (0 <= b /\ b + 512 * 2 ^ level_bits l <= 2 ^ 52 /\ b mod 2 ^ level_bits l = 0
    /\ 2 ^ level_bits l mod 4096 = 0) as (Hb0 & Hb1 & Hb2 & Hb3).
  { destruct l as [|[|l]]; [| |lia].
    - change (2 ^ level_bits 1) with (2 ^ 21) in Hb. change (2 ^ level_bits 0) with (2 ^ 12). zlia.
    - change (2 ^ level_bits 2) with (2 ^ 30) in Hb. change (2 ^ level_bits 1) with (2 ^ 21). zlia. }
  assert (exists k, 2 ^ level_bits l = k * 4096 /\ 0 < k) as (k & Hk & Hk0).
  { destruct l as [|[|l]]; [exists 1|exists 512|lia]; done. }
  exists ((b + j * 2 ^ level_bits l) / 4096), (if (l =? 1)%nat then pte_huge else 0).
  assert ((b + j * 2 ^ level_bits l) mod 4096 = 0) as Hm.
  { rewrite Hk in *. zlia. }
  assert ((b + j * 2 ^ level_bits l) / 4096 * 4096 = b + j * 2 ^ level_bits l) as Hd by zlia.
  split_and!.
  - rewrite Hd. unfold split_entry, split_base.
    assert ((2 - Z.of_nat l =? 1) = (l =? 1)%nat) as -> by (destruct l as [|[|l]]; [done|done|lia]).
    assert (bit64 (if (l =? 1)%nat then 30 else 21) = 2 ^ level_bits (Datatypes.S l)) as ->
      by (destruct l as [|[|l]]; [done|done|lia]).
    assert ((if (l =? 1)%nat then bit64 21 else bit64 12) = 2 ^ level_bits l) as ->
      by (destruct l as [|[|l]]; [done|done|lia]).
    fold (level_base (Datatypes.S l) e). fold b.
    rewrite wrap_small by nia. destruct (l =? 1)%nat; [done|by rewrite Z.lor_0_r].
  - nia.
  - nia.
  - done.
  - done.
  - rewrite Hd. rewrite Z.mul_comm. symmetry. apply Z.div_exact; [lia|].
    rewrite Z.mod_add by lia. done.
Qed.

Lemma split_entry_spec e (l : nat) j :
  (l <= 1)%nat -> 0 <= j < 512 ->
  let x := split_entry e (2 - Z.of_nat l) j in
  is_present x = is_present e /\ is_huge x = (l =? 1)%nat /\ split_flags x = split_flags e
  /\ addr_of x = level_base (Datatypes.S l) e + j * 2 ^ level_bits l
  /\ level_base l x = addr_of x.
Proof.
  intros Hl Hj x. destruct (split_entry_eq e l j Hl Hj) as (page & h & Ex & Hp & Hpe & Hh & Hdiv).
  destruct (flagged_page page e h Hp) as (Fa & Fs & Fp & Fh).
  { rewrite Hh. destruct (l =? 1)%nat; auto. }
  rewrite <- Ex in Fa, Fs, Fp, Fh. fold x in Fa, Fs, Fp, Fh. split_and!; try done.
  - rewrite Fh, Hh. by destruct (l =? 1)%nat.
  - by rewrite Fa.
  - rewrite level_base_eq by lia. by rewrite Fa.
Qed.

Lemma split_if_huge_spec root s own t p i s' :
  pa_wf (frames s) -> tree (pmem s) (pa_used (frames s)) root own ->
  own !! t = Some p -> length p = 1%nat \/ length p = 2%nat -> 0 <= i < 512 ->
  split_if_huge (entry_addr t i) (Z.of_nat (length p)) s = Some s' ->
  exists own', grows root s s' own own'
    /\ (is_present (ent (pmem s') t i) = true -> is_huge (ent (pmem s') t i) = false).
Proof.
  intros Hwf Htree Ht Hp Hi. unfold split_if_huge. fold (ent (pmem s) t i). set (e := ent (pmem s) t i).
  destruct (is_present e) eqn:Hpr; cbn [andb].
  2:{ intros [= <-]. exists own. split; [by apply grows_refl|]. fold e. congruence. }
  destruct (is_huge e) eqn:Hhu.
  2:{ intros [= <-]. exists own. split; [by apply grows_refl|]. done. }
  unfold split_huge. fold (ent (pmem s) t i). fold e.
  pose proof (alloc_frame (frames s) Hwf) as Ha.
  destruct (pa_alloc (frames s) 1) as [a fr]. cbn [fst snd] in Ha.
  destruct (a =? invalid_physical_address) eqn:E; bool_to_prop; [done|].
  destruct Ha as (page & -> & Hpage & Hfree & Hwf' & Hused); [done|]. intros [= <-].
  destruct (table_entry_spec page) as (Ea & Epr & Eh); [unfold max_managed_pages in *; lia|].
  exists (<[page * 4096 := p ++ [i]]> own).
  split; [|unfold ent; cbn; by rewrite aget_aset_eq].
  set (l := (2 - length p)%nat).
  assert (Z.of_nat (length p) = 2 - Z.of_nat l) as Hlev by lia.
  assert (forall j, 0 <= j < 512 -> (length p < 2)%nat ->
    is_present (split_entry e (Z.of_nat (length p)) j) = true -> is_huge (split_entry e (Z.of_nat (length p)) j) = true) as Hv.
  { intros j Hj Hlt _. rewrite Hlev. destruct (split_entry_spec e l j) as (_ & -> & _); [lia|done|].
    by replace l with 1%nat by lia. }
  assert (is_link p (ent (pmem s) t i) = false) as Hold.
  { unfold is_link. fold e. rewrite Hpr, Hhu. cbn. apply bool_decide_eq_false. intros ->.
    cbn in Hp. lia. }
  apply install_grows; try done; [lia|].
  intros va Hva.
  destruct (install_spec (pmem s) (pa_used (frames s)) root own t p i page
    (split_entry e (Z.of_nat (length p))) (pa_used fr)) as (_ & Eti & Ec & _); try done; [lia| | |].
  { rewrite Hused, Z.eqb_refl. apply orb_true_r. }
  { intros q Hq. by rewrite Hused, Hq. }
  assert (idx (3 - length p) va = i) as Hidx.
  { destruct p as [|x [|y [|z p]]]; cbn in Hp, Hva |- *; try lia; congruence. }
  assert ((3 - length p)%nat = Datatypes.S l) as HSl by lia.
  assert (l <= 1)%nat as Hl1 by lia. rewrite HSl in *. clearbody l.
  cbn [walk_at]. rewrite Hidx, Eti, Epr, Eh, andb_false_r, Ea. fold e. rewrite Hpr, Hhu.
  assert ((Z.of_nat (Datatypes.S l) <=? 2) = true) as -> by (apply Z.leb_le; lia).
  cbn [andb]. rewrite offset_split.
  pose proof (idx_range l va) as Hr.
  destruct (split_entry_spec e l (idx l va)) as (Sp & Sh & Sf & Sa & Sb); [lia|done|].
  rewrite <- Hlev in *. rewrite <- (Ec _ Hr) in Sp, Sh, Sf, Sa, Sb.
  destruct l as [|[|l]]; [| |lia]; cbn [walk_at]; rewrite Sp, Hpr, ?Sh; cbn [andb Z.leb Z.of_nat].
  - rewrite Sf, Sa. do 2 f_equal. change (2 ^ level_bits 0) with 4096.
    pose proof (Z.mod_pos_bound va 4096). rewrite (Z.div_small (va mod 4096)) by lia. lia.
  - replace ((Z.of_nat 1 <=? 2) && (1 =? 1)%nat) with true by done.
    rewrite Sf, Sb, Sa. do 2 f_equal. lia.
Qed.

(** ** [map_page] *)

(** Writing a leaf entry changes the translation of its page only. *)
Lemma leaf_write s root own t va v :
  pa_wf (frames s) -> tree (pmem s) (pa_used (frames s)) root own ->
  own !! t = Some (take 3 (vpath va)) ->
  let s' := write (entry_addr t (idx 0 va)) v s in
  tree (pmem s') (pa_used (frames s')) root own
  /\ (forall va', ~ same_page va va' -> translate s' root va' = translate s root va')
  /\ (forall va', same_page va va' ->
        translate s' root va' = if is_present v then Some (addr_of v, split_flags v) else None).
Proof.
  intros Hwf Htree Ht s'.
  assert (forall t' p' j, own !! t' = Some p' -> 0 <= j < 512 -> (t', j) <> (t, idx 0 va) ->
    ent (pmem s') t' j = ent (pmem s) t' j) as Eo.
  { intros t' p' j Ht' Hj Hne. unfold ent. cbn. rewrite aget_aset_ne; [done|]. intros E.
    symmetry in E. apply Hne.
    by destruct (tree_entry_inj _ _ _ _ _ _ _ _ _ _ Htree Ht' Ht Hj (idx_range 0 va) E) as [-> ->]. }
  assert (tree (pmem s') (pa_used (frames s')) root own) as Htree'.
  { split.
    - apply Htree.
    - intros t' p' j Ht' Hlen Hj. rewrite (Eo t' p' j Ht' Hj); [by apply Htree|].
      intros [= -> _]. rewrite Ht in Ht'. injection Ht' as <-. cbn in Hlen. lia.
    - intros t' p' Ht'. destruct (t_parent _ _ _ _ Htree t' p' Ht') as [?|(q & j & t2 & -> & Ht2 & Hj & Hx)]; [by left|right].
      exists q, j, t2. rewrite (Eo t2 q j Ht2 Hj); [done|].
      intros [= -> _]. rewrite Ht in Ht2. injection Ht2 as <-.
      destruct (t_page _ _ _ _ Htree t' _ Ht') as [Hlen _]. rewrite length_app in Hlen. cbn in Hlen. lia.
    - apply Htree. }
  split_and!; [done| |].
  - intros va' Hne. unfold translate.
    apply (walk_frame (pmem s) _ (pa_used (frames s)) root own t (take 3 (vpath va)) (idx 0 va)); try done.
  - intros va' Hsame. unfold translate.
    rewrite (walk_reach _ _ _ own va' 0 t Htree' ltac:(lia)) by (cbn; rewrite Ht; unfold same_page, vpath in Hsame; cbn; congruence).
    assert (idx 0 va' = idx 0 va) as Hi by (unfold same_page, vpath in Hsame; congruence).
    cbn [walk_at]. rewrite Hi. unfold ent. cbn. by rewrite aget_aset_eq.
Qed.

Lemma mapped_entry pa flags :
  addr_of flags = 0 ->
  let e := Z.lor (Z.land pa pte_addr_mask) flags in
  addr_of e = addr_of pa /\ split_flags e = split_flags flags /\ is_present e = is_present flags.
Proof.
  intros Hf e. subst e. fold (addr_of pa).
  pose proof (addr_of_range pa) as Hr. pose proof (addr_of_mod pa) as Hm.
  assert (exists page, addr_of pa = page * 4096 /\ 0 <= page < 2 ^ 40) as (page & -> & Hp)
    by (exists (addr_of pa / 4096); zlia).
  split_and!.
  - by apply addr_of_entry.
  - unfold split_flags at 1. rewrite Z.land_lor_distr_l.
    fold (split_flags (page * 4096)) (split_flags flags). by rewrite split_flags_page.
  - by rewrite !is_present_testbit, Z.lor_spec, page_testbit_low.
Qed.

(** The words [map_page] may change: those of the tree and of free pages. *)
Definition outside_kept s s' (own own' : gmap Z (list Z)) : Prop :=
  forall page, pa_used (frames s) page = true -> own !! (page * 4096) = None ->
    own' !! (page * 4096) = None /\
    forall k, 0 <= k < 512 -> aget (pmem s') (entry_addr (page * 4096) k)
              = aget (pmem s) (entry_addr (page * 4096) k).

Lemma map_page_cases s s' own va pa flags pml4_phys :
  let root := resolve_pml4 pml4_phys s in
  pa_wf (frames s) -> tree (pmem s) (pa_used (frames s)) root own -> addr_of flags = 0 ->
  map_page va pa flags pml4_phys s = Some s' ->
  exists own', pa_wf (frames s') /\ tree (pmem s') (pa_used (frames s')) root own' /\ own ⊆ own'
    /\ outside_kept s s' own own'
    /\ kernel_pml4_phys s' = kernel_pml4_phys s
    /\ (forall page, pa_used (frames s) page = true -> pa_used (frames s') page = true)
    /\ forall va', translate s' root va' =
         if decide (vpath va = vpath va')
         then if is_present flags then Some (addr_of pa, split_flags flags) else None
         else translate s root va'.
Proof.
  intros root Hwf Htree Hfl Hmap. unfold map_page in Hmap. fold root in Hmap.
  destruct (root =? 0); [done|].
  change (pml4_index va) with (idx 3 va) in Hmap. change (pdpt_index va) with (idx 2 va) in Hmap.
  change (pd_index va) with (idx 1 va) in Hmap. change (pt_index va) with (idx 0 va) in Hmap.
  pose proof (idx_range 3 va) as R3. pose proof (idx_range 2 va) as R2. pose proof (idx_range 1 va) as R1.
  destruct (ensure_table (entry_addr root (idx 3 va)) s) as [[pdpt s1]|] eqn:E1; cbn [mbind option_bind] in Hmap; [|done].
  destruct (ensure_table_spec root s own root [] (idx 3 va) pdpt s1 Hwf Htree (t_root _ _ _ _ Htree))
    as (own1 & G1 & O1 & _); [cbn; lia|done|by right|done|].
  destruct (split_if_huge (entry_addr pdpt (idx 2 va)) 1 s1) as [s2|] eqn:E2; cbn [mbind option_bind] in Hmap; [|done].
  pose proof G1 as (W1 & T1 & _).
  destruct (split_if_huge_spec root s1 own1 pdpt [idx 3 va] (idx 2 va) s2 W1 T1 O1)
    as (own2 & G2 & H2); [by left|done|done|].
  destruct (ensure_table (entry_addr pdpt (idx 2 va)) s2) as [[pd s3]|] eqn:E3; cbn [mbind option_bind] in Hmap; [|done].
  pose proof G2 as (W2 & T2 & S2 & _).
  pose proof (lookup_weaken _ _ _ _ O1 S2) as O2.
  destruct (ensure_table_spec root s2 own2 pdpt [idx 3 va] (idx 2 va) pd s3 W2 T2 O2)
    as (own3 & G3 & O3 & _); [cbn; lia|done|intros; left; auto|done|].
  destruct (split_if_huge (entry_addr pd (idx 1 va)) 2 s3) as [s4|] eqn:E4; cbn [mbind option_bind] in Hmap; [|done].
  pose proof G3 as (W3 & T3 & _).
  destruct (split_if_huge_spec root s3 own3 pd [idx 3 va; idx 2 va] (idx 1 va) s4 W3 T3 O3)
    as (own4 & G4 & H4); [by right|done|done|].
  destruct (ensure_table (entry_addr pd (idx 1 va)) s4) as [[pt s5]|] eqn:E5; cbn [mbind option_bind] in Hmap; [|done].
  pose proof G4 as (W4 & T4 & S4 & _).
  pose proof (lookup_weaken _ _ _ _ O3 S4) as O4.
  destruct (ensure_table_spec root s4 own4 pd [idx 3 va; idx 2 va] (idx 1 va) pt s5 W4 T4 O4)
    as (own5 & G5 & O5 & _); [cbn; lia|done|intros; left; auto|done|].
  pose proof (grows_trans _ _ _ _ _ _ _ (grows_trans _ _ _ _ _ _ _ (grows_trans _ _ _ _ _ _ _
    (grows_trans _ _ _ _ _ _ _ G1 G2) G3) G4) G5) as (W & T & Sub & V & K & U & F).
  injection Hmap as <-.
  destruct (leaf_write s5 root own5 pt va (Z.lor (Z.land pa pte_addr_mask) flags) W T O5) as (T' & Hother & Hhit).
  destruct (mapped_entry pa flags Hfl) as (Ma & Ms & Mp). rewrite Ma, Ms, Mp in Hhit.
  exists own5. split_and!; try done.
  - intros page Hu Hn. destruct (F page Hu Hn) as [Hn5 E]. split; [done|].
    intros k Hk. cbn. rewrite aget_aset_ne; [by apply E|]. intros Ea.
    destruct (t_page _ _ _ _ T pt _ O5) as (_ & pg & Hpg & _). rewrite Hpg in Ea, O5.
    apply entry_addr_inj in Ea as [-> _]; [congruence|apply idx_range|done].
  - intros va'. case_decide as Hd; [by apply Hhit|]. rewrite Hother by done. apply V.
Qed.

(** C24. Mapping a page: unless the kernel panics for lack of memory, the mapped
    page translates to the given frame with the given flags, the translation
    of every other page of the address space is unchanged (huge pages on the
    way are split without changing what they map), the page-table tree stays
    well formed and only grows, and no page in use outside the tree is
    written. *)
Theorem map_page_spec s s' own va pa flags pml4_phys :
  let root := resolve_pml4 pml4_phys s in
  pa_wf (frames s) -> tree (pmem s) (pa_used (frames s)) root own -> addr_of flags = 0 ->
  map_page va pa flags pml4_phys s = Some s' ->
  exists own', pa_wf (frames s') /\ tree (pmem s') (pa_used (frames s')) root own' /\ own ⊆ own'
    /\ outside_kept s s' own own'
    /\ kernel_pml4_phys s' = kernel_pml4_phys s
    /\ (forall page, pa_used (frames s) page = true -> pa_used (frames s') page = true)
    /\ forall va', translate s' root va' =
         if decide (vpath va = vpath va')
         then if is_present flags then Some (addr_of pa, split_flags flags) else None
         else translate s root va'.
Proof. apply map_page_cases. Qed.

(** ** [unmap_page] *)

(** An empty table has no subtables. *)
Lemma table_is_empty_spec m t :
  table_is_empty m t = true <-> forall i, 0 <= i < 512 -> is_present (ent m t i) = false.
Proof.
  unfold table_is_empty. rewrite all_z_spec. split; intros Hall i Hi.
  - apply negb_true_iff, Hall. lia.
  - apply negb_true_iff, Hall. lia.
Qed.

(** Clearing an entry keeps an empty table empty. *)
Lemma table_is_empty_clear m t a : table_is_empty m t = true -> table_is_empty (aset m a 0) t = true.
Proof.
  rewrite !table_is_empty_spec. intros He i Hi. unfold ent in *. destruct (decide (entry_addr t i = a)) as [->|Hne].
  - by rewrite aget_aset_eq.
  - rewrite aget_aset_ne; [by apply He|congruence].
Qed.

Lemma tree_link m u root own t' p t i :
  tree m u root own -> own !! t' = Some p -> own !! t = Some (p ++ [i]) ->
  is_present (ent m t' i) = true /\ (is_huge (ent m t' i) = false \/ p = [])
  /\ addr_of (ent m t' i) = t /\ 0 <= i < 512.
Proof.
  intros Htree Ht' Ht.
  destruct (t_parent _ _ _ _ Htree _ _ Ht) as [[E _]|(q & j & t2 & E & Ht2 & Hj & Hpr & Hh & Ha)]; [by destruct p|].
  apply app_inj_tail in E as [<- <-].
  by rewrite (tree_path_inj _ _ _ _ _ _ _ Htree Ht' Ht2).
Qed.

(** A table that holds another one is not empty. *)
Lemma parent_not_empty m u root own t' p t i :
  tree m u root own -> own !! t' = Some p -> own !! t = Some (p ++ [i]) -> table_is_empty m t' = false.
Proof.
  intros Htree Ht' Ht. destruct (tree_link _ _ _ _ _ _ _ _ Htree Ht' Ht) as (Hpr & _ & _ & Hi).
  apply not_true_iff_false. rewrite table_is_empty_spec. intros He. by rewrite (He i Hi) in Hpr.
Qed.

(** Taking an empty table out of the tree. *)
Lemma prune_spec m u u' root own t' p t i :
  tree m u root own -> own !! t' = Some p -> own !! t = Some (p ++ [i]) ->
  table_is_empty m t = true ->
  (forall page, t <> page * 4096 -> u page = true -> u' page = true) ->
  let m' := aset m (entry_addr t' i) 0 in
  tree m' u' root (delete t own)
  /\ forall va, walk_at m' 3 root va = walk_at m 3 root va.
Proof.
  intros Htree Ht' Ht Hempty Hused m'. rewrite table_is_empty_spec in Hempty.
  destruct (tree_link _ _ _ _ _ _ _ _ Htree Ht' Ht) as (Hpr & Hh & Ha & Hi).
  destruct (t_page _ _ _ _ Htree t _ Ht) as [Hlen _]. rewrite length_app in Hlen. cbn in Hlen.
  assert (t <> t') as Htt by (intros ->; rewrite Ht in Ht'; injection Ht' as E; apply (f_equal length) in E;
    rewrite length_app in E; cbn in E; lia).
  assert (forall t2 p2 j, own !! t2 = Some p2 -> 0 <= j < 512 -> (t2, j) <> (t', i) ->
    ent m' t2 j = ent m t2 j) as Eo.
  { intros t2 p2 j Ht2 Hj Hne. unfold ent, m'. rewrite aget_aset_ne; [done|]. intros E. symmetry in E.
    apply Hne. by destruct (tree_entry_inj _ _ _ _ _ _ _ _ _ _ Htree Ht2 Ht' Hj Hi E) as [-> ->]. }
  assert (ent m' t' i = 0) as E0 by (unfold ent, m'; apply aget_aset_eq).
  split.
  - split.
    + rewrite lookup_delete_ne; [apply Htree|]. intros ->.
      rewrite (t_root _ _ _ _ Htree) in Ht. injection Ht as E. by destruct p.
    + intros t2 p2 j [Hne Ht2]%lookup_delete_Some Hl Hj.
      destruct (decide ((t2, j) = (t', i))) as [[= -> ->]|Hd]; [by rewrite E0|].
      rewrite (Eo t2 p2 j Ht2 Hj Hd). intros Hp2 Hh2.
      pose proof (t_child _ _ _ _ Htree t2 p2 j Ht2 Hl Hj Hp2 Hh2) as Hc.
      apply lookup_delete_Some. split; [|done]. intros E. rewrite <- E, Ht in Hc.
      injection Hc as Hc. apply app_inj_tail in Hc as [-> ->]. apply Hd.
      by rewrite (tree_path_inj _ _ _ _ _ _ _ Htree Ht2 Ht').
    + intros t2 p2 [Hne Ht2]%lookup_delete_Some.
      destruct (t_parent _ _ _ _ Htree t2 p2 Ht2) as [?|(q & j & t3 & -> & Ht3 & Hj & Hp3 & Hh3 & Ha3)]; [by left|right].
      exists q, j, t3.
      assert (t3 <> t) as H3 by (intros ->; by rewrite Hempty in Hp3).
      rewrite (Eo t3 q j Ht3 Hj) by congruence.
      rewrite lookup_delete_ne by congruence. done.
    + intros t2 p2 [Hne Ht2]%lookup_delete_Some.
      destruct (t_page _ _ _ _ Htree t2 p2 Ht2) as (? & pg & -> & ? & Hu). split; [done|].
      exists pg. split_and!; [done|lia|lia|]. by apply Hused.
  - intros va. apply (walk_frame m m' u root own t' p i va); try done; [lia|].
    intros Hva. assert (idx (3 - length p) va = i) as Hidx.
    { destruct p as [|x [|y [|z p]]]; cbn in Hlen, Hva |- *; try lia; congruence. }
    destruct (3 - length p)%nat as [|l] eqn:El; [lia|].
    cbn [walk_at]. rewrite Hidx, E0, Hpr. cbn [is_present].
    replace (is_present 0) with false by done.
    replace ((Z.of_nat (Datatypes.S l) <=? 2) && is_huge (ent m t' i)) with false.
    { rewrite Ha. destruct l; cbn [walk_at]; by rewrite Hempty by apply idx_range. }
    symmetry. apply andb_false_iff. destruct Hh as [Hh| ->]; [by right|left].
    apply Z.leb_gt. cbn in El. lia.
Qed.

(** The tree after some of its tables were given back. *)
Definition shrinks (root : Z) s s' (own own' : gmap Z (list Z)) (n : nat) : Prop :=
  pa_wf (frames s') /\ tree (pmem s') (pa_used (frames s')) root own' /\ own' ⊆ own
  /\ (forall va, translate s' root va = translate s root va)
  /\ (forall t p, own !! t = Some p -> (length p < n)%nat -> own' !! t = Some p)
  /\ (forall page, own !! (page * 4096) = None ->
        pa_used (frames s') page = pa_used (frames s) page /\
        forall k, 0 <= k < 512 -> aget (pmem s') (entry_addr (page * 4096) k)
                  = aget (pmem s) (entry_addr (page * 4096) k)).

(** What the cleanup of a table does: nothing when it has an entry, otherwise
    the table leaves the tree and the entry that led to it is cleared. *)
Definition pruned (t : Z) s s' (own own' : gmap Z (list Z)) : Prop :=
  (s' = s /\ own' = own /\ table_is_empty (pmem s) t = false)
  \/ (own' = delete t own /\ table_is_empty (pmem s) t = true /\ exists a, pmem s' = aset (pmem s) a 0).

Lemma pruned_empty t t2 s s' own own' :
  pruned t s s' own own' -> table_is_empty (pmem s) t2 = true -> table_is_empty (pmem s') t2 = true.
Proof. intros [(-> & _)|(_ & _ & a & ->)]; [done|apply table_is_empty_clear]. Qed.

Lemma pruned_keeps t s s' own own' : pruned t s s' own own' -> table_is_empty (pmem s) t = false -> s' = s /\ own' = own.
Proof. intros [(-> & -> & _)|(_ & He & _)]; [done|congruence]. Qed.

(** A table that is still there is not empty, one that is gone was. *)
Lemma pruned_kept t s s' own own' p :
  pruned t s s' own own' -> own' !! t = Some p -> table_is_empty (pmem s) t = false.
Proof. intros [(_ & _ & ?)|(-> & _)]; [done|]. by rewrite lookup_delete_eq. Qed.

Lemma pruned_gone t t2 s s' own own' p :
  pruned t s s' own own' -> own !! t2 = Some p ->
  own' !! t2 = Some p \/ (t2 = t /\ own' !! t2 = None /\ table_is_empty (pmem s') t2 = true).
Proof.
  intros Hp Ht. destruct Hp as [(-> & -> & _)|(-> & He & a & Ea)]; [by left|].
  destruct (decide (t2 = t)) as [->|Hne]; [|left; by rewrite lookup_delete_ne].
  right. split_and!; [done|by rewrite lookup_delete_eq|]. rewrite Ea. by apply table_is_empty_clear.
Qed.

Lemma cleanup_step_spec root s own t' p t i level :
  pa_wf (frames s) -> tree (pmem s) (pa_used (frames s)) root own ->
  own !! t' = Some p -> own !! t = Some (p ++ [i]) -> level <> 0 ->
  exists own', shrinks root s (cleanup_step t level (entry_addr t' i) s) own own' (length p + 1)
    /\ pruned t s (cleanup_step t level (entry_addr t' i) s) own own'.
Proof.
  intros Hwf Htree Ht' Ht Hlv. unfold cleanup_step, cleanup_table_level.
  replace (level =? 0) with false by lia.
  destruct (table_is_empty (pmem s) t) eqn:Hempty; cbn [negb].
  2:{ exists own. split; [by split_and!|by left]. }
  destruct (t_page _ _ _ _ Htree t _ Ht) as (_ & pg & Epg & Hpg & Hu).
  destruct (pa_free_law (frames s) pg 1 Hwf Hpg ltac:(lia) ltac:(unfold max_managed_pages in *; lia))
    as [Hwf' Hfree]. change page_size with 4096 in *. rewrite <- Epg in Hwf', Hfree.
  assert (forall q, q <> pg -> pa_used (pa_free (frames s) t 1) q = pa_used (frames s) q) as Hkeep.
  { intros q Hq. apply Hfree. unfold in_run. lia. }
  destruct (prune_spec (pmem s) (pa_used (frames s)) (pa_used (pa_free (frames s) t 1)) root own t' p t i)
    as [Htree' Hwalk]; try done.
  { intros q Hq Huq. rewrite Hkeep; [done|]. intros ->. congruence. }
  exists (delete t own). split; [|right; split_and!; [done|done|by eexists]]. split_and!; try done.
  - apply delete_subseteq.
  - intros t2 p2 Ht2 Hl. rewrite lookup_delete_ne; [done|]. intros <-.
    assert (p2 = p ++ [i]) as -> by congruence. rewrite length_app in Hl. cbn in Hl. lia.
  - intros q Hn. assert (q <> pg) as Hq by congruence. split; [by apply Hkeep|].
    intros k Hk. cbn. rewrite aget_aset_ne; [done|]. intros E.
    destruct (t_page _ _ _ _ Htree t' _ Ht') as (_ & pg' & Epg' & _). rewrite Epg' in E, Ht'.
    destruct (tree_link _ _ _ _ _ _ _ _ Htree Ht' ltac:(by rewrite Ht)) as (_ & _ & _ & Hi).
    apply entry_addr_inj in E as [-> _]; [congruence|done|done].
Qed.

Lemma shrinks_trans root s1 s2 s3 own1 own2 own3 n n' :
  (n' <= n)%nat ->
  shrinks root s1 s2 own1 own2 n -> shrinks root s2 s3 own2 own3 n' -> shrinks root s1 s3 own1 own3 n'.
Proof.
  intros Hn (W1 & T1 & S1 & V1 & L1 & F1) (W2 & T2 & S2 & V2 & L2 & F2).
  split_and!; [done|done|by etrans|intros; by rewrite V2|intros; apply L2; [apply L1; [done|lia]|done]|].
  intros page Hno. destruct (F1 page Hno) as [U1 M1].
  assert (own2 !! (page * 4096) = None) as Hno2.
  { destruct (own2 !! (page * 4096)) eqn:E; [|done]. by rewrite (lookup_weaken _ _ _ _ E S1) in Hno. }
  destruct (F2 page Hno2) as [U2 M2]. split; [congruence|]. intros k Hk. by rewrite M2, M1.
Qed.

(** The tables on the way of an address from the innermost one up: a table has
    left the tree exactly when it has no entry any more. *)
Definition cleaned (va : Z) s' (own own' : gmap Z (list Z)) : Prop :=
  (forall t p, own !! t = Some p -> own' !! t = Some p
     \/ (own' !! t = None /\ p <> [] /\ p `prefix_of` vpath va /\ table_is_empty (pmem s') t = true))
  /\ (forall t p, own' !! t = Some p -> p <> [] -> p `prefix_of` vpath va -> table_is_empty (pmem s') t = false).

Lemma vpath_prefix va p : p `prefix_of` vpath va -> p <> [] -> (length p <= 3)%nat ->
  p = [idx 3 va] \/ p = [idx 3 va; idx 2 va] \/ p = [idx 3 va; idx 2 va; idx 1 va].
Proof.
  intros [q E] Hne Hl. unfold vpath in E. destruct p as [|a [|b [|c [|d p]]]]; cbn in *; [done|injection E as <- _; tauto|
    injection E as <- <- _; tauto|injection E as <- <- <- _; tauto|lia].
Qed.

Lemma cleanup_all root s1 own va t3 t2 t1 :
  pa_wf (frames s1) -> tree (pmem s1) (pa_used (frames s1)) root own ->
  own !! t3 = Some [idx 3 va] -> own !! t2 = Some [idx 3 va; idx 2 va] -> own !! t1 = Some [idx 3 va; idx 2 va; idx 1 va] ->
  let s2 := cleanup_step t1 1 (entry_addr t2 (idx 1 va)) s1 in
  let s3 := cleanup_step t2 2 (entry_addr t3 (idx 2 va)) s2 in
  let s4 := cleanup_step t3 3 (entry_addr root (idx 3 va)) s3 in
  exists own', shrinks root s1 s4 own own' 1 /\ cleaned va s4 own own'.
Proof.
  intros Hwf T1 O3 O2 O1 s2 s3 s4.
  destruct (cleanup_step_spec root s1 own t2 [idx 3 va; idx 2 va] t1 (idx 1 va) 1 Hwf T1 O2 O1) as (own2 & G2 & P2); [done|].
  fold s2 in G2, P2. pose proof G2 as (W2 & T2 & S2 & _ & L2 & _).
  destruct (cleanup_step_spec root s2 own2 t3 [idx 3 va] t2 (idx 2 va) 2 W2 T2) as (own3 & G3 & P3);
    [apply L2; [done|cbn; lia]|apply L2; [done|cbn; lia]|done|].
  fold s3 in G3, P3. pose proof G3 as (W3 & T3 & S3 & _ & L3 & _).
  destruct (cleanup_step_spec root s3 own3 root [] t3 (idx 3 va) 3 W3 T3 (t_root _ _ _ _ T3)) as (own4 & G4 & P4);
    [apply L3; [apply L2; [done|cbn; lia]|cbn; lia]|done|].
  fold s4 in G4, P4. exists own4.
  split; [exact (shrinks_trans root s1 s3 s4 own own3 own4 2 1 ltac:(lia) (shrinks_trans root s1 s2 s3 own own2 own3 3 2 ltac:(lia) G2 G3) G4)|].
  destruct G4 as (_ & _ & S4 & _). clear G2 G3.
  assert (forall t p, own4 !! t = Some p -> own3 !! t = Some p /\ own2 !! t = Some p /\ own !! t = Some p) as Hsub.
  { intros t p Ht. pose proof (lookup_weaken _ _ _ _ Ht S4) as H3. pose proof (lookup_weaken _ _ _ _ H3 S3) as H2.
    split_and!; [done|done|by apply (lookup_weaken _ _ _ _ H2)]. }
  split.
  - intros t p Ht. destruct (pruned_gone _ t _ _ _ _ _ P2 Ht) as [Ht2|(-> & Hn & He)].
    2:{ right. assert (p = [idx 3 va; idx 2 va; idx 1 va]) as -> by congruence. split_and!; [|done|by eexists|].
        - destruct (own4 !! t1) as [q|] eqn:E; [|done]. destruct (Hsub _ _ E) as (_ & E2 & _). congruence.
        - by eapply pruned_empty, pruned_empty. }
    destruct (pruned_gone _ t _ _ _ _ _ P3 Ht2) as [Ht3|(-> & Hn & He)].
    2:{ right. assert (p = [idx 3 va; idx 2 va]) as -> by congruence. split_and!; [|done|by eexists|].
        - destruct (own4 !! t2) as [q|] eqn:E; [|done]. destruct (Hsub _ _ E) as (E3 & _). congruence.
        - by eapply pruned_empty. }
    destruct (pruned_gone _ t _ _ _ _ _ P4 Ht3) as [Ht4|(-> & Hn & He)]; [by left|].
    right. assert (p = [idx 3 va]) as -> by congruence. split_and!; [done|done|by eexists|done].
  - intros t p Ht Hne Hpre. destruct (Hsub t p Ht) as (Ht3 & Ht2 & Ht1).
    destruct (t_page _ _ _ _ T1 t p Ht1) as [Hlen _].
    destruct (vpath_prefix va p Hpre Hne Hlen) as [->|[->| ->]].
    + assert (t = t3) as -> by (eapply tree_path_inj; [exact T1|done|done]).
      pose proof (pruned_kept _ _ _ _ _ _ P4 Ht) as He. by destruct (pruned_keeps _ _ _ _ _ P4 He) as [-> _].
    + assert (t = t2) as -> by (eapply tree_path_inj; [exact T1|done|done]).
      pose proof (pruned_kept _ _ _ _ _ _ P3 Ht3) as He. destruct (pruned_keeps _ _ _ _ _ P3 He) as [E _].
      assert (own3 !! t3 = Some [idx 3 va]) as H3 by (apply L3; [apply L2; [done|cbn; lia]|cbn; lia]).
      pose proof (parent_not_empty _ _ _ _ t3 [idx 3 va] t2 (idx 2 va) T3 H3 Ht3) as He4.
      destruct (pruned_keeps _ _ _ _ _ P4 He4) as [-> _]. by rewrite E.
    + assert (t = t1) as -> by (eapply tree_path_inj; [exact T1|done|done]).
      pose proof (pruned_kept _ _ _ _ _ _ P2 Ht2) as He. destruct (pruned_keeps _ _ _ _ _ P2 He) as [E _].
      assert (own2 !! t2 = Some [idx 3 va; idx 2 va]) as H2 by (apply L2; [done|cbn; lia]).
      pose proof (parent_not_empty _ _ _ _ t2 [idx 3 va; idx 2 va] t1 (idx 1 va) T2 H2 Ht2) as He3.
      destruct (pruned_keeps _ _ _ _ _ P3 He3) as [E3 Eo3].
      assert (own3 !! t3 = Some [idx 3 va]) as H3 by (apply L3; [apply L2; [done|cbn; lia]|cbn; lia]).
      assert (own3 !! t2 = Some [idx 3 va; idx 2 va]) as H32 by (by rewrite Eo3).
      pose proof (parent_not_empty _ _ _ _ t3 [idx 3 va] t2 (idx 2 va) T3 H3 H32) as He4.
      destruct (pruned_keeps _ _ _ _ _ P4 He4) as [-> _]. by rewrite E3, E.
Qed.

(** No huge page on the way of an address. *)
Definition small_path (m : arr Z) (root va : Z) : Prop :=
  let e4 := ent m root (idx 3 va) in
  let e3 := ent m (addr_of e4) (idx 2 va) in
  let e2 := ent m (addr_of e3) (idx 1 va) in
  is_present e4 = true -> is_huge e3 = false /\ (is_present e3 = true -> is_huge e2 = false).

(** Following an address down the tree. *)
Lemma descend m u root own va :
  tree m u root own -> small_path m root va ->
  let e4 := ent m root (idx 3 va) in
  let e3 := ent m (addr_of e4) (idx 2 va) in
  let e2 := ent m (addr_of e3) (idx 1 va) in
  is_present e4 = true ->
  own !! addr_of e4 = Some [idx 3 va]
  /\ (is_present e3 = true -> own !! addr_of e3 = Some [idx 3 va; idx 2 va]
      /\ (is_present e2 = true -> own !! addr_of e2 = Some [idx 3 va; idx 2 va; idx 1 va])).
Proof.
  intros Htree Hsmall e4 e3 e2 H4. destruct (Hsmall H4) as [Hh3 Hh2].
  assert (own !! addr_of e4 = Some [idx 3 va]) as O4.
  { apply (t_child _ _ _ _ Htree root [] (idx 3 va)); [apply Htree|cbn; lia|apply idx_range|done|by right]. }
  split; [done|]. intros H3.
  assert (own !! addr_of e3 = Some [idx 3 va; idx 2 va]) as O3.
  { apply (t_child _ _ _ _ Htree (addr_of e4) [idx 3 va] (idx 2 va)); [done|cbn; lia|apply idx_range|done|by left]. }
  split; [done|]. intros H2.
  apply (t_child _ _ _ _ Htree (addr_of e3) [idx 3 va; idx 2 va] (idx 1 va)); [done|cbn; lia|apply idx_range|done|].
  left. by apply Hh2.
Qed.

(** The four entries a walk reads when no huge page is on its way. *)
Lemma walk_small m root va va' :
  small_path m root va -> vpath va = vpath va' ->
  let e4 := ent m root (idx 3 va) in
  let e3 := ent m (addr_of e4) (idx 2 va) in
  let e2 := ent m (addr_of e3) (idx 1 va) in
  let e1 := ent m (addr_of e2) (idx 0 va) in
  walk_at m 3 root va' =
    if is_present e4 && is_present e3 && is_present e2 && is_present e1
    then Some (addr_of e1, split_flags e1) else None.
Proof.
  intros Hsmall Hd e4 e3 e2 e1. cbn [walk_at].
  assert (idx 3 va' = idx 3 va /\ idx 2 va' = idx 2 va /\ idx 1 va' = idx 1 va /\ idx 0 va' = idx 0 va)
    as (-> & -> & -> & ->) by (unfold vpath in Hd; naive_solver).
  fold e4. destruct (is_present e4) eqn:H4; [|done]. cbn [andb].
  destruct (Hsmall H4) as [Hh3 Hh2]. fold e4 e3 in Hh3, Hh2 |- *. fold e2 in Hh2 |- *.
  replace ((Z.of_nat 3 <=? 2) && is_huge e4) with false by done.
  rewrite Hh3, andb_false_r. destruct (is_present e3) eqn:H3; [|done]. cbn [andb].
  rewrite (Hh2 eq_refl), andb_false_r. by destruct (is_present e2).
Qed.

(** C25. Unmapping a page on whose way there is no huge page (for a huge page the
    function goes astray: [unmap_huge_clobbers_data]): afterwards the page has no
    translation and every other page translates as before.  If the page was not
    mapped nothing changes; if it was, the tables on its way that have no entry
    any more have left the tree, and those that are still in the tree have an
    entry.  Used pages and words outside the tree are untouched. *)
Theorem unmap_page_spec s s' own va pml4_phys :
  let root := resolve_pml4 pml4_phys s in
  pa_wf (frames s) -> tree (pmem s) (pa_used (frames s)) root own -> small_path (pmem s) root va ->
  unmap_page va pml4_phys s = Some s' ->
  exists own', pa_wf (frames s') /\ tree (pmem s') (pa_used (frames s')) root own' /\ own' ⊆ own
    /\ (translate s root va = None -> s' = s) /\ (translate s root va <> None -> cleaned va s' own own')
    /\ (forall page, own !! (page * 4096) = None ->
          pa_used (frames s') page = pa_used (frames s) page /\
          forall k, 0 <= k < 512 -> aget (pmem s') (entry_addr (page * 4096) k)
                    = aget (pmem s) (entry_addr (page * 4096) k))
    /\ forall va', translate s' root va' =
         if decide (vpath va = vpath va') then None else translate s root va'.
Proof.
  intros root Hwf Htree Hsmall. unfold unmap_page. fold root.
  destruct (root =? 0); [done|].
  change (pml4_index va) with (idx 3 va). change (pdpt_index va) with (idx 2 va).
  change (pd_index va) with (idx 1 va). change (pt_index va) with (idx 0 va).
  pose proof (descend _ _ _ _ _ Htree Hsmall) as Hdesc. cbv zeta in Hdesc.
  set (e4 := ent (pmem s) root (idx 3 va)) in *. set (e3 := ent (pmem s) (addr_of e4) (idx 2 va)) in *.
  set (e2 := ent (pmem s) (addr_of e3) (idx 1 va)) in *. set (e1 := ent (pmem s) (addr_of e2) (idx 0 va)).
  pose proof (fun va' => walk_small _ _ _ va' Hsmall) as Hws. cbv zeta in Hws. fold e4 in Hws. fold e3 in Hws.
  fold e2 in Hws. fold e1 in Hws.
  assert (translate s root va = if is_present e4 && is_present e3 && is_present e2 && is_present e1
    then Some (addr_of e1, split_flags e1) else None) as Hva by (by apply Hws).
  assert (translate s root va = None ->
    exists own', pa_wf (frames s) /\ tree (pmem s) (pa_used (frames s)) root own' /\ own' ⊆ own
    /\ (translate s root va = None -> s = s) /\ (translate s root va <> None -> cleaned va s own own')
    /\ (forall page, own !! (page * 4096) = None ->
          pa_used (frames s) page = pa_used (frames s) page /\
          forall k, 0 <= k < 512 -> aget (pmem s) (entry_addr (page * 4096) k)
                    = aget (pmem s) (entry_addr (page * 4096) k))
    /\ forall va', translate s root va' =
         if decide (vpath va = vpath va') then None else translate s root va') as Hnone.
  { intros Hn. exists own. split_and!; try done. intros va'. case_decide as Hd; [|done].
    unfold translate in *. rewrite (Hws va' Hd). by rewrite Hva in Hn. }
  destruct (is_present e4) eqn:H4; cbn [negb andb] in *; [|intros [= <-]; by apply Hnone].
  destruct (is_present e3) eqn:H3; cbn [negb andb] in *; [|intros [= <-]; by apply Hnone].
  destruct (is_present e2) eqn:H2; cbn [negb andb] in *; [|intros [= <-]; by apply Hnone].
  destruct (is_present e1) eqn:H1; cbn [negb andb] in *; [|intros [= <-]; by apply Hnone].
  intros [= <-]. destruct (Hdesc eq_refl) as [O4 Hd3]. destruct (Hd3 eq_refl) as [O3 Hd2].
  pose proof (Hd2 eq_refl) as O2. clear Hws Hnone Hdesc Hd3 Hd2.
  destruct (leaf_write s root own (addr_of e2) va 0 Hwf Htree O2) as (T1 & Hother & Hhit).
  set (s1 := write (entry_addr (addr_of e2) (idx 0 va)) 0 s) in *.
  destruct (cleanup_all root s1 own va (addr_of e4) (addr_of e3) (addr_of e2) Hwf T1 O4 O3 O2) as (own4 & (W4 & T4 & Sub & V & _ & F) & Hcl).
  exists own4. split_and!; try done; [by rewrite Hva|..].
  - intros page Hn. destruct (F page Hn) as [HU HM]. split; [done|]. intros k Hk. rewrite HM by done.
    cbn. rewrite aget_aset_ne; [done|]. intros E.
    destruct (t_page _ _ _ _ Htree _ _ O2) as (_ & pg & Epg & _). rewrite Epg in E, O2.
    apply entry_addr_inj in E as [-> _]; [congruence|apply idx_range|done].
  - intros va'. rewrite V. case_decide as Hd; [by rewrite (Hhit va' Hd)|by apply Hother].
Qed.

End Trees.
