(* ===== verification/AddressSpace.v ===== *)
(** Address spaces: copy-on-write faults, new address spaces and kernel
    virtual ranges, over the page tables of [Vmm.v]. *)

From S2P Require Import Prelude MemoryMap Pmm PageAlloc Vmm.

(** * Bits of copy-on-write entries *)

Lemma lnot64_testbit x n : 0 <= n < 64 -> Z.testbit (lnot64 x) n = negb (Z.testbit x n).
Proof. intros. unfold lnot64, wrap. by rewrite Z.mod_pow2_bits_low, Z.lnot_spec by lia. Qed.

(** The bits of an entry that a translation shows. *)
Lemma flag_mask_bits n : 0 <= n -> Z.testbit flag_mask n = true -> n < 64 /\ n <> 9 /\ ~ (12 <= n < 52).
Proof.
  intros Hn Ht. split_and!.
  - destruct (Z.lt_ge_cases n 64) as [|Hge]; [done|]. by rewrite testbit_high in Ht.
  - intros ->. done.
  - intros Hr. assert (Z.testbit (Z.land flag_mask pte_addr_mask) n = false) as Hm.
    { change (Z.land flag_mask pte_addr_mask) with 0. apply Z.bits_0. }
    rewrite Z.land_spec, Ht, addr_mask_testbit in Hm by done. lia.
Qed.

(** Entries that agree with [pte] on the flag bits but for the writable bit. *)
Lemma cow_flags e pte :
  (forall n, 0 <= n < 64 -> n <> 9 -> ~ (12 <= n < 52) ->
     Z.testbit e n = Z.testbit pte n || (1 =? n)) ->
  split_flags e = Z.lor (split_flags pte) pte_writable /\ is_present e = is_present pte.
Proof.
  intros Hb. split.
  - apply Z.bits_inj'. intros n Hn. unfold split_flags. fold flag_mask.
    rewrite Z.lor_spec, !Z.land_spec. unfold pte_writable. rewrite testbit_bit64 by lia.
    destruct (Z.testbit flag_mask n) eqn:Hf.
    + destruct (flag_mask_bits n Hn Hf) as (? & ? & ?). rewrite Hb by (done || lia).
      by rewrite !andb_true_r.
    + rewrite !andb_false_r. symmetry. apply orb_false_iff. split; [done|].
      apply Z.eqb_neq. intros <-. done.
  - rewrite !is_present_testbit, Hb by lia. apply orb_false_r.
Qed.

Lemma cow_clear_entry pte :
  let e := Z.land (Z.lor pte pte_writable) (lnot64 pte_cow) in
  addr_of e = addr_of pte /\ split_flags e = Z.lor (split_flags pte) pte_writable
  /\ is_present e = is_present pte /\ is_cow e = false.
Proof.
  intros e.
  assert (forall n, 0 <= n < 64 -> Z.testbit e n = (Z.testbit pte n || (1 =? n)) && negb (9 =? n)) as Hb.
  { intros n Hn. subst e. unfold pte_cow, pte_writable.
    by rewrite Z.land_spec, Z.lor_spec, lnot64_testbit, !testbit_bit64 by lia. }
  assert (addr_of e = addr_of pte) as Ha.
  { apply Z.bits_inj'. intros n Hn. rewrite !addr_of_testbit by done.
    destruct ((12 <=? n) && (n <? 52)) eqn:Hr; [|by rewrite <- !andb_assoc, Hr, !andb_false_r].
    rewrite Hb by lia. replace (1 =? n) with false by lia. replace (9 =? n) with false by lia.
    by rewrite orb_false_r, andb_true_r. }
  split; [done|]. destruct (cow_flags e pte) as [Hs Hp].
  { intros n Hn H9 _. rewrite Hb by done. replace (9 =? n) with false by lia. apply andb_true_r. }
  split_and!; [done|done|]. rewrite is_cow_testbit, Hb by lia. by rewrite andb_false_r.
Qed.

Lemma cow_copy_entry pte page :
  0 <= page < 2 ^ 40 ->
  let preserved := Z.land pte (lnot64 (Z.lor (Z.lor pte_addr_mask pte_writable) pte_cow)) in
  let e := Z.lor (Z.lor (Z.land (page * 4096) pte_addr_mask) preserved) pte_writable in
  addr_of e = page * 4096 /\ split_flags e = Z.lor (split_flags pte) pte_writable
  /\ is_present e = is_present pte.
Proof.
  intros Hp preserved e.
  assert (Z.land (page * 4096) pte_addr_mask = page * 4096) as Hpage.
  { fold (addr_of (page * 4096)). rewrite <- (Z.lor_0_r (page * 4096)) at 1. by apply addr_of_entry. }
  assert (forall n, 0 <= n < 64 -> Z.testbit e n =
    Z.testbit (page * 4096) n
    || (Z.testbit pte n && negb (((12 <=? n) && (n <? 52)) || (1 =? n) || (9 =? n))) || (1 =? n)) as Hb.
  { intros n Hn. subst e preserved. rewrite Hpage. unfold pte_cow, pte_writable.
    by rewrite !Z.lor_spec, Z.land_spec, lnot64_testbit, !Z.lor_spec, addr_mask_testbit, !testbit_bit64 by lia. }
  split.
  - apply Z.bits_inj'. intros n Hn. rewrite addr_of_testbit by done.
    destruct (Z.leb_spec 12 n); [destruct (Z.ltb_spec n 52)|].
    + rewrite Hb by lia. replace ((12 <=? n) && (n <? 52)) with true by lia.
      replace (1 =? n) with false by lia.
      by destruct (Z.testbit (page * 4096) n), (Z.testbit pte n).
    + rewrite page_testbit_high by lia. apply andb_false_r.
    + rewrite page_testbit_low by lia. by rewrite andb_false_r.
  - apply cow_flags. intros n Hn H9 Hout. rewrite Hb by done.
    replace (Z.testbit (page * 4096) n) with false.
    2:{ destruct (Z.lt_ge_cases n 12); [by rewrite page_testbit_low by lia|].
        by rewrite page_testbit_high by lia. }
    replace ((12 <=? n) && (n <? 52)) with false by lia. replace (9 =? n) with false by lia.
    destruct (Z.testbit pte n), (1 =? n); done.
Qed.

Section Spaces.
Context {S : Type} `{PageRefs S}.
Implicit Types (s : vmm S).

(** A tree only depends on the words of its tables and on their pages being
    in use. *)
Lemma tree_ext m m' u u' root own :
  tree m u root own ->
  (forall t p j, own !! t = Some p -> 0 <= j < 512 -> ent m' t j = ent m t j) ->
  (forall page p, own !! (page * 4096) = Some p -> u page = true -> u' page = true) ->
  tree m' u' root own /\ forall va, walk_at m' 3 root va = walk_at m 3 root va.
Proof.
  intros Htree Hm Hu. split.
  - split.
    + apply Htree.
    + intros t p i Ht Hl Hi. rewrite (Hm t p i Ht Hi). by apply Htree.
    + intros t p Ht. destruct (t_parent _ _ _ _ Htree t p Ht) as [?|(q & i & t' & -> & Ht' & Hi & Hx)]; [by left|right].
      exists q, i, t'. by rewrite (Hm t' q i Ht' Hi).
    + intros t p Ht. destruct (t_page _ _ _ _ Htree t p Ht) as (? & pg & -> & ? & ?). split; [done|].
      exists pg. split_and!; [done|lia|lia|]. by eapply Hu.
  - intros va. apply (walk_frame m m' u root own root [] 0 va); [done|apply Htree|cbn; lia| |].
    + intros t p j Ht Hj _. by eapply Hm.
    + intros _. cbn [length Nat.sub].
      (* every entry agrees: the general frame argument with no exception *)
      apply (walk_frame m m' u root own root [] (-1) va); [done|apply Htree|cbn; lia| |].
      * intros t p j Ht Hj _. by eapply Hm.
      * intros E. cbn in E. pose proof (idx_range 3 va). injection E as E. lia.
Qed.

(** Copying a page to a different page. *)
Lemma copy_page_spec src dst m :
  src <> dst ->
  (forall k, 0 <= k < 512 -> aget (copy_page (src * 4096) (dst * 4096) m) (entry_addr (dst * 4096) k)
     = aget m (entry_addr (src * 4096) k))
  /\ (forall a, (forall k, 0 <= k < 512 -> a <> entry_addr (dst * 4096) k) ->
        aget (copy_page (src * 4096) (dst * 4096) m) a = aget m a).
Proof.
  intros Hne. unfold copy_page.
  apply (for_z_inv (fun i m' =>
    (forall k, 0 <= k < i -> aget m' (entry_addr (dst * 4096) k) = aget m (entry_addr (src * 4096) k))
    /\ (forall a, (forall k, 0 <= k < 512 -> a <> entry_addr (dst * 4096) k) -> aget m' a = aget m a)));
    [lia|split; [lia|done]|].
  intros i m' Hi [H1 H2]. fold (entry_addr (src * 4096) i) (entry_addr (dst * 4096) i). split.
  - intros k Hk. destruct (decide (k = i)) as [->|Hki].
    + rewrite aget_aset_eq. apply H2. intros j Hj E. by apply entry_addr_inj in E as [-> _].
    + rewrite aget_aset_ne; [apply H1; lia|]. intros E%entry_addr_eq. lia.
  - intros a Ha. rewrite aget_aset_ne; [by apply H2|]. intros <-. by apply (Ha i).
Qed.

#[local] Opaque copy_page.

(** * Copy-on-write faults *)

(** The leaf entry of an address. *)
Definition leaf_entry (m : arr Z) (root va : Z) : Z :=
  let e4 := ent m root (idx 3 va) in
  let e3 := ent m (addr_of e4) (idx 2 va) in
  let e2 := ent m (addr_of e3) (idx 1 va) in
  ent m (addr_of e2) (idx 0 va).

(** What resolving a fault achieves: the page becomes writable with the same
    contents, nothing else changes its translation, and the old page, when it
    was shared, keeps its contents and stays in use for the others. *)
Record cow_resolved s s' (own : gmap Z (list Z)) (root va old f new : Z) : Prop := {
  c_before : translate s root va = Some (old, f);
  c_after : translate s' root va = Some (new, Z.lor f pte_writable);
  c_frames : pa_wf (frames s');
  c_tree : tree (pmem s') (pa_used (frames s')) root own;
  c_others : forall va', ~ same_page va va' -> translate s' root va' = translate s root va';
  c_copy : forall k, 0 <= k < 512 ->
    aget (pmem s') (entry_addr new k) = aget (pmem s) (entry_addr old k);
  c_old : forall k, 0 <= k < 512 ->
    aget (pmem s') (entry_addr old k) = aget (pmem s) (entry_addr old k);
  c_share : (new = old /\ pa_refs (frames s) old <= 1)
    \/ (new <> old /\ 1 < pa_refs (frames s) old
        /\ exists o n, old = o * 4096 /\ new = n * 4096
           /\ pa_used (frames s) n = false /\ pa_used (frames s') n = true
           /\ pa_used (frames s') o = true);
}.

(** The pages of the tree are untouched by writes to other pages. *)
Lemma own_entry_ne m u root own t p j page k :
  tree m u root own -> own !! t = Some p -> own !! (page * 4096) = None ->
  0 <= j < 512 -> 0 <= k < 512 -> entry_addr t j <> entry_addr (page * 4096) k.
Proof.
  intros Htree Ht Hn Hj Hk E. destruct (t_page _ _ _ _ Htree t p Ht) as (_ & pg & -> & _).
  apply entry_addr_inj in E as [-> _]; [congruence|done|done].
Qed.

Lemma cow_share s m1 own root va pt pte old page fr :
  pa_wf (frames s) -> tree (pmem s) (pa_used (frames s)) root own ->
  own !! pt = Some (take 3 (vpath va)) -> is_present pte = true ->
  (forall va', vpath va = vpath va' -> translate s root va' = Some (addr_of pte, split_flags pte)) ->
  addr_of pte = old * 4096 -> own !! (old * 4096) = None ->
  0 <= old < max_managed_pages -> pa_used (frames s) old = true -> 1 < pa_refs (frames s) (old * 4096) ->
  0 <= page < max_managed_pages -> pa_used (frames s) page = false -> pa_wf fr ->
  (forall q, pa_used fr q = pa_used (frames s) q || (q =? page)) ->
  pa_used (pa_free fr (old * 4096) 1) old = true ->
  (forall k, 0 <= k < 512 -> aget m1 (entry_addr (page * 4096) k) = aget (pmem s) (entry_addr (old * 4096) k)) ->
  (forall a, (forall k, 0 <= k < 512 -> a <> entry_addr (page * 4096) k) -> aget m1 a = aget (pmem s) a) ->
  let preserved := Z.land pte (lnot64 (Z.lor (Z.lor pte_addr_mask pte_writable) pte_cow)) in
  let e := Z.lor (Z.lor (Z.land (page * 4096) pte_addr_mask) preserved) pte_writable in
  cow_resolved s (Vmm (aset m1 (entry_addr pt (idx 0 va)) e) (kernel_pml4_phys s) (vmem_current s) (vmem_end s)
                    (pa_free fr (old * 4096) 1))
    own root va (old * 4096) (split_flags pte) (page * 4096).
Proof.
  intros Hwf Htree Hpt Hpr Htr Ea Hown Hold Hou Hrefs Hpage Hfree Hwf' Hused Hkeep Hcopy Hrest preserved e.
  assert (old <> page) as Hop by congruence.
  assert (own !! (page * 4096) = None) as Hpn.
  { apply eq_None_not_Some. intros [p Hp]. destruct (t_page _ _ _ _ Htree _ _ Hp) as (_ & pg & E & _ & Hu).
    assert (pg = page) as -> by lia. congruence. }
  destruct (tree_ext (pmem s) m1 (pa_used (frames s)) (pa_used fr) root own Htree) as [T1 V1].
  { intros t p j Ht Hj. apply Hrest. intros k Hk. by eapply own_entry_ne. }
  { intros q p Hq Hu. by rewrite Hused, Hu. }
  destruct (leaf_write (Vmm m1 (kernel_pml4_phys s) (vmem_current s) (vmem_end s) fr) root own pt va e Hwf' T1 Hpt)
    as (T2 & Hother & Hhit).
  destruct (cow_copy_entry pte page) as (Xa & Xf & Xp); [unfold max_managed_pages in *; lia|].
  fold preserved e in Xa, Xf, Xp.
  destruct (pa_free_law fr old 1 Hwf' Hold ltac:(lia) ltac:(unfold max_managed_pages in *; lia)) as [Hwf2 Hfr2].
  change page_size with 4096 in *.
  assert (forall q, q <> old -> pa_used (pa_free fr (old * 4096) 1) q = pa_used fr q) as Hq2.
  { intros q Hq. apply Hfr2. unfold in_run. lia. }
  destruct (tree_ext (aset m1 (entry_addr pt (idx 0 va)) e) (aset m1 (entry_addr pt (idx 0 va)) e)
    (pa_used fr) (pa_used (pa_free fr (old * 4096) 1)) root own T2) as [T3 _].
  { intros t p j _ _. reflexivity. }
  { intros q p Hq Hu. destruct (decide (q = old)) as [->|]; [congruence|]. by rewrite Hq2. }
  assert (forall q k, 0 <= k < 512 -> own !! (q * 4096) = None ->
    aget (aset m1 (entry_addr pt (idx 0 va)) e) (entry_addr (q * 4096) k) = aget m1 (entry_addr (q * 4096) k)) as Hpte.
  { intros q k Hk Hq. rewrite aget_aset_ne; [done|]. eapply own_entry_ne; try done. apply idx_range. }
  split; cbn [frames pmem]; try done.
  - rewrite <- Ea. by apply Htr.
  - unfold translate. cbn. etrans; [apply (Hhit va); done|]. by rewrite Xp, Hpr, Xa, Xf.
  - intros va' Hne. unfold translate. cbn. etrans; [apply (Hother va' Hne)|]. apply V1.
  - intros k Hk. rewrite Hpte by done. by apply Hcopy.
  - intros k Hk. rewrite Hpte by done. apply Hrest. intros j Hj E.
    apply entry_addr_inj in E as [-> _]; done.
  - right. split_and!; [lia|done|]. exists old, page. split_and!; try done.
    rewrite Hq2 by done. rewrite Hused, Z.eqb_refl. apply orb_true_r.
Qed.

(** C39. A resolved copy-on-write fault. *)
Theorem cow_fault_spec s s' own root va error_code :
  pa_wf (frames s) -> tree (pmem s) (pa_used (frames s)) root own -> small_path (pmem s) root va ->
  own !! addr_of (leaf_entry (pmem s) root va) = None ->
  handle_cow_fault va error_code root s = (true, s') ->
  exists old f new, cow_resolved s s' own root va old f new.
Proof.
  intros Hwf Htree Hsmall Hleaf. unfold handle_cow_fault.
  change (pml4_index va) with (idx 3 va). change (pdpt_index va) with (idx 2 va).
  change (pd_index va) with (idx 1 va). change (pt_index va) with (idx 0 va).
  destruct (negb (Z.land error_code 7 =? 7) || (root =? 0)); [done|].
  pose proof (descend _ _ _ _ _ Htree Hsmall) as Hdesc.
  pose proof (fun va' => walk_small _ _ _ va' Hsmall) as Hws.
  unfold leaf_entry in Hleaf. cbv zeta in Hdesc, Hws, Hleaf.
  set (e4 := ent (pmem s) root (idx 3 va)) in *. set (e3 := ent (pmem s) (addr_of e4) (idx 2 va)) in *.
  set (e2 := ent (pmem s) (addr_of e3) (idx 1 va)) in *. set (pte := ent (pmem s) (addr_of e2) (idx 0 va)) in *.
  destruct (is_present e4) eqn:H4; cbn [negb andb] in *; [|done].
  destruct (is_present e3) eqn:H3; cbn [negb andb] in *; [|done].
  destruct (is_present e2) eqn:H2; cbn [negb andb] in *; [|done].
  destruct (is_huge e2); [done|].
  change (aget (pmem s) (entry_addr (addr_of e2) (idx 0 va))) with pte.
  destruct (is_present pte) eqn:Hpr; cbn [negb orb] in *; [|done].
  destruct (is_cow pte) eqn:Hcow; cbn [negb]; [|done].
  destruct (Hdesc eq_refl) as [_ Hd3]. destruct (Hd3 eq_refl) as [_ Hd2]. pose proof (Hd2 eq_refl) as O2.
  destruct (pa_refs (frames s) (addr_of pte) <=? 1) eqn:Hr; bool_to_prop.
  - intros [= <-]. destruct (cow_clear_entry pte) as (Xa & Xf & Xp & _).
    set (e := Z.land (Z.lor pte pte_writable) (lnot64 pte_cow)) in *.
    destruct (leaf_write s root own (addr_of e2) va e Hwf Htree O2) as (T & Hother & Hhit).
    exists (addr_of pte), (split_flags pte), (addr_of pte).
    assert (forall k, 0 <= k < 512 ->
      aget (pmem (write (entry_addr (addr_of e2) (idx 0 va)) e s)) (entry_addr (addr_of pte) k)
      = aget (pmem s) (entry_addr (addr_of pte) k)) as Hkeep.
    { intros k Hk. cbn. rewrite aget_aset_ne; [done|].
      assert (addr_of pte = addr_of pte / 4096 * 4096) as Ed by (pose proof (addr_of_mod pte); zlia).
      rewrite Ed in Hleaf |- *. eapply own_entry_ne; try done. apply idx_range. }
    split; try done; [by apply Hws| |by left].
    rewrite (Hhit va) by done. by rewrite Xp, Hpr, Xa, Xf.
  - pose proof (alloc_frame (frames s) Hwf) as Ha.
    destruct (pa_alloc (frames s) 1) as [a fr] eqn:Ealloc. cbn [fst snd] in Ha.
    destruct (a =? invalid_physical_address) eqn:E; bool_to_prop; [done|].
    destruct Ha as (page & -> & Hpage & Hfree & Hwf' & Hused); [done|]. intros [= <-].
    destruct (pa_shared_law (frames s) (addr_of pte) Hwf ltac:(apply addr_of_range) ltac:(lia))
      as (old & Eo & Hold & Hou & _). change page_size with 4096 in Eo.
    assert (own !! (old * 4096) = None) as Hon by (by rewrite <- Eo).
    assert (1 < pa_refs fr (old * 4096)) as Hrf.
    { pose proof (pa_alloc_refs_law (frames s) old Hwf Hold Hou) as Hal. change page_size with 4096 in Hal.
      rewrite Ealloc in Hal. cbn [snd] in Hal. rewrite Hal, <- Eo. lia. }
    destruct (pa_shared_law fr (old * 4096) Hwf' ltac:(lia) Hrf) as (o2 & Eo2 & _ & _ & Hkeep).
    change page_size with 4096 in Eo2. assert (o2 = old) as -> by lia.
    assert (old <> page) as Hop by congruence.
    destruct (copy_page_spec old page (pmem s) Hop) as [Hcopy Hrest].
    exists (old * 4096), (split_flags pte), (page * 4096). rewrite Eo.
    apply (cow_share s (copy_page (old * 4096) (page * 4096) (pmem s)) own root va (addr_of e2) pte old page fr);
      try done. rewrite <- Eo. lia.
Qed.

(** A fault that is not resolved (not a write to a present user page, no
    copy-on-write mapping, or no memory for the copy) leaves memory and the
    page allocator as they were, so the caller sees the address space
    unchanged. *)
Theorem cow_fault_refused s s' root va error_code :
  pa_wf (frames s) -> handle_cow_fault va error_code root s = (false, s') -> s' = s.
Proof.
  intros Hwf. unfold handle_cow_fault.
  do 6 (case_match; [by intros [= <-]|]). case_match; [done|].
  destruct (pa_alloc (frames s) 1) as [a fr] eqn:Ea.
  destruct (a =? invalid_physical_address) eqn:E; [|done]. bool_to_prop. intros [= <-].
  destruct (pa_alloc_law (frames s) 1 Hwf ltac:(unfold max_managed_pages; lia))
    as [(page & Hpage & Hp0 & Hm & _)|Hnone].
  - exfalso. rewrite Ea in Hpage. cbn [fst] in Hpage. clear - E Hpage Hp0 Hm.
    unfold invalid_physical_address, UINT64_MAX, page_size, max_managed_pages in *. lia.
  - rewrite Ea in Hnone. injection Hnone as _ ->. by destruct s.
Qed.

(** * New address spaces *)

(** Copying the kernel half of a root table. *)
Lemma copy_half_spec src dst m :
  (forall j k, 0 <= j < 512 -> 0 <= k < 512 -> entry_addr src j <> entry_addr dst k) ->
  let m' := for_z 256 512 (fun i m => aset m (entry_addr dst i) (ent m src i)) m in
  (forall i, 0 <= i < 512 -> ent m' dst i = if i <? 256 then ent m dst i else ent m src i)
  /\ (forall a, (forall k, 0 <= k < 512 -> a <> entry_addr dst k) -> aget m' a = aget m a).
Proof.
  intros Hd m'.
  assert ((forall i, 0 <= i < 512 -> ent m' dst i = if (256 <=? i) && (i <? 512) then ent m src i else ent m dst i)
    /\ (forall a, (forall k, 0 <= k < 512 -> a <> entry_addr dst k) -> aget m' a = aget m a)) as [H1 H2].
  { subst m'. apply (for_z_inv (fun n m' =>
      (forall i, 0 <= i < 512 -> ent m' dst i = if (256 <=? i) && (i <? n) then ent m src i else ent m dst i)
      /\ (forall a, (forall k, 0 <= k < 512 -> a <> entry_addr dst k) -> aget m' a = aget m a))); [lia| |].
    - split; [|done]. intros i Hi. by replace ((256 <=? i) && (i <? 256)) with false by lia.
    - intros n m' Hn [H1 H2]. split.
      + intros i Hi. unfold ent at 1. destruct (decide (i = n)) as [->|Hne].
        * rewrite aget_aset_eq. replace ((256 <=? n) && (n <? n + 1)) with true by lia.
          apply H2. intros k Hk. by apply Hd; lia.
        * rewrite aget_aset_ne by (intros E%entry_addr_eq; lia). fold (ent m' dst i). rewrite H1 by done.
          by replace (i <? n + 1) with (i <? n) by lia.
      + intros a Ha. rewrite aget_aset_ne; [by apply H2|]. intros <-. apply (Ha n); lia. }
  split; [|done]. intros i Hi. rewrite H1 by done.
  replace ((256 <=? i) && (i <? 512)) with (negb (i <? 256)) by lia. by destruct (i <? 256).
Qed.

(** A new user address space has no user mappings and translates every kernel
    address as the kernel's own tables do; the kernel's translations and its
    page-table tree are unchanged. *)
Theorem create_user_pml4_spec s own :
  let kroot := kernel_pml4_phys s in
  let r := create_user_pml4 s in
  pa_wf (frames s) -> tree (pmem s) (pa_used (frames s)) kroot own -> kroot <> 0 -> r.1 <> 0 ->
  pa_wf (frames r.2) /\ tree (pmem r.2) (pa_used (frames r.2)) kroot own
  /\ own !! r.1 = None
  /\ (forall va, translate r.2 kroot va = translate s kroot va)
  /\ forall va, translate r.2 r.1 va =
       if idx 3 va <? 256 then None else translate s kroot va.
Proof.
  intros kroot r Hwf Htree Hk. subst r. unfold create_user_pml4. fold kroot.
  replace (kroot =? 0) with false by lia.
  pose proof (alloc_frame (frames s) Hwf) as Ha.
  destruct (pa_alloc (frames s) 1) as [a fr]. cbn [fst snd] in Ha.
  destruct (a =? invalid_physical_address) eqn:E; bool_to_prop; [done|].
  destruct Ha as (page & -> & Hpage & Hfree & Hwf' & Hused); [done|]. cbn [fst snd]. intros _.
  assert (own !! (page * 4096) = None) as Hpn.
  { apply eq_None_not_Some. intros [p Hp]. destruct (t_page _ _ _ _ Htree _ _ Hp) as (_ & pg & Epg & _ & Hu).
    assert (pg = page) as -> by lia. congruence. }
  destruct (fill_table_spec (page * 4096) 0 512 (fun _ => 0) (pmem s) ltac:(lia)) as [Hz Hzo].
  unfold set_frames, set_pmem. cbn [pmem frames kernel_pml4_phys].
  set (m1 := fill_table (page * 4096) 0 512 (fun _ => 0) (pmem s)) in *. clearbody m1.
  change (kernel_pml4_phys s) with kroot.
  destruct (t_page _ _ _ _ Htree kroot [] (t_root _ _ _ _ Htree)) as (_ & kp & Ekp & _ & Hku).
  assert (forall j k, 0 <= j < 512 -> 0 <= k < 512 -> entry_addr kroot j <> entry_addr (page * 4096) k) as Hkd.
  { intros j k Hj Hk'. eapply own_entry_ne; try done. apply Htree. }
  destruct (copy_half_spec kroot (page * 4096) m1 Hkd) as [Hhalf Hrest].
  set (m2 := for_z 256 512 _ m1) in *. clearbody m2.
  assert (forall a, (forall k, 0 <= k < 512 -> a <> entry_addr (page * 4096) k) -> aget m2 a = aget (pmem s) a) as Hsame.
  { intros a Ha. rewrite Hrest by done. by apply Hzo. }
  assert (forall t p j, own !! t = Some p -> 0 <= j < 512 -> ent m2 t j = ent (pmem s) t j) as Htab.
  { intros t p j Ht Hj. apply Hsame. intros k Hk'. by eapply own_entry_ne. }
  destruct (tree_ext (pmem s) m2 (pa_used (frames s)) (pa_used fr) kroot own Htree Htab) as [T V].
  { intros q p _ Hu. by rewrite Hused, Hu. }
  split_and!; try done. intros va. unfold translate. cbn [pmem]. rewrite <- V.
  pose proof (idx_range 3 va) as Hr. cbn [walk_at].
  replace (ent m2 (page * 4096) (idx 3 va)) with (if idx 3 va <? 256 then 0 else ent m2 kroot (idx 3 va)).
  { by destruct (idx 3 va <? 256). }
  rewrite Hhalf, Hz by done. case_match; [done|]. rewrite (Htab kroot [] _ (t_root _ _ _ _ Htree) Hr).
  symmetry. apply Hzo. intros k Hk'. by apply Hkd.
Qed.

(** * Kernel virtual ranges *)

Lemma round_up_page x : 0 <= x -> x + 0xfff < 2 ^ 64 ->
  Z.land (x +64 0xfff) (lnot64 0xfff) = (x + 0xfff) / 4096 * 4096.
Proof.
  intros Hx Hov. rewrite wrap_small by lia. change 0xfff with (2 ^ 12 - 1) at 2.
  rewrite land_mask_down by lia. done.
Qed.

(** Ranges handed out between two states of the allocator: the allocator
    takes them off the front of the remaining space. *)
Fixpoint alloc_ranges (sizes : list Z) s : list (Z * Z) * vmm S :=
  match sizes with
  | [] => ([], s)
  | n :: sizes =>
      let '(base, s) := alloc_vmem_range n s in
      let '(rs, s) := alloc_ranges sizes s in
      ((if base =? 0 then [] else [(base, n)]) ++ rs, s)
  end.

Lemma alloc_vmem_range_cases n s :
  0 < vmem_current s < 2 ^ 64 -> 0 <= vmem_end s < 2 ^ 64 -> 0 <= n <= 2 ^ 64 - 4096 ->
  let r := alloc_vmem_range n s in
  r = (0, s)
  \/ (r.1 = vmem_current s /\ 0 < n /\ r.1 + n <= vmem_current r.2 <= vmem_end s
      /\ vmem_current r.2 = r.1 + (n + 0xfff) / 4096 * 4096 /\ vmem_end r.2 = vmem_end s).
Proof.
  intros Hc He Hn r. subst r. unfold alloc_vmem_range.
  destruct (n =? 0) eqn:E0; bool_to_prop; [by left|].
  destruct (vmem_end s <=? vmem_current s) eqn:E1; bool_to_prop; [by left|].
  rewrite round_up_page by lia. set (k := (n + 0xfff) / 4096 * 4096).
  assert (n <= k < 2 ^ 64) as Hk by (subst k; zlia).
  case_match eqn:E2; [by left|]. apply orb_false_iff in E2 as [E2 E3]. bool_to_prop.
  destruct (Z.lt_ge_cases (vmem_current s + k) (2 ^ 64)) as [Hlt|Hge].
  - right. rewrite wrap_small in * by lia. cbn. lia.
  - exfalso. unfold wrap in E3. rewrite <- (Z.mod_unique (vmem_current s + k) (2 ^ 64) 1
      (vmem_current s + k - 2 ^ 64)) in E3 by lia. lia.
Qed.

(** The kernel's virtual ranges are non-empty, lie between the start and the
    end of the reserved space, follow each other without overlap, and are
    page aligned when the space is. *)
Theorem vmem_ranges_disjoint sizes s :
  0 < vmem_current s < 2 ^ 64 -> 0 <= vmem_end s < 2 ^ 64 ->
  Forall (fun n => 0 <= n <= 2 ^ 64 - 4096) sizes ->
  let r := alloc_ranges sizes s in
  (forall i b n, r.1 !! i = Some (b, n) ->
     0 < n /\ vmem_current s <= b /\ b + n <= vmem_end s /\ b mod 4096 = vmem_current s mod 4096)
  /\ (forall i j b n b' n', (i < j)%nat -> r.1 !! i = Some (b, n) -> r.1 !! j = Some (b', n') -> b + n <= b').
Proof.
  cbv zeta. intros Hc He Hall.
  assert (0 < vmem_current (alloc_ranges sizes s).2 < 2 ^ 64 /\ vmem_current s <= vmem_current (alloc_ranges sizes s).2 /\
    (forall i b n, (alloc_ranges sizes s).1 !! i = Some (b, n) ->
     0 < n /\ vmem_current s <= b /\ b + n <= vmem_end s /\ b mod 4096 = vmem_current s mod 4096)
    /\ (forall i j b n b' n', (i < j)%nat -> (alloc_ranges sizes s).1 !! i = Some (b, n) ->
         (alloc_ranges sizes s).1 !! j = Some (b', n') -> b + n <= b')) as (_ & _ & H1 & H2); [|done].
  revert s Hc He. induction Hall as [|n sizes Hn _ IH]; intros s Hc He; cbn [alloc_ranges].
  { cbn [fst snd]. split_and!; try lia; intros *; rewrite lookup_nil; done. }
  pose proof (alloc_vmem_range_cases n s Hc He Hn) as Hcase. cbv zeta in Hcase.
  destruct (alloc_vmem_range n s) as [b s1]. cbn [fst snd] in Hcase.
  destruct Hcase as [[= -> ->]|(-> & Hn0 & Hb & Hcur & Hend)].
  - specialize (IH s Hc He). destruct (alloc_ranges sizes s) as [rs s2]. done.
  - specialize (IH s1 ltac:(lia) ltac:(lia)). rewrite Hend in IH.
    destruct (alloc_ranges sizes s1) as [rs s2]. cbn [fst snd] in *.
    replace (vmem_current s =? 0) with false by lia. cbn [app].
    destruct IH as (I1 & I2 & I3 & I4).
    assert (vmem_current s1 mod 4096 = vmem_current s mod 4096) as Hmod
      by (rewrite Hcur; apply Z.mod_add; lia).
    split_and!; try lia.
    + intros [|i] b' n'; cbn; [intros [= <- <-]; lia|]. intros Hi. destruct (I3 i b' n' Hi) as (? & ? & ? & ?). lia.
    + intros [|i] [|j] b1 n1 b2 n2 Hij; try lia; cbn.
      * intros [= <- <-] Hj. destruct (I3 j b2 n2 Hj) as (? & ? & ? & ?). lia.
      * intros Hi Hj. eapply (I4 i j); [lia|done|done].
Qed.

(** A request of more than 2^64 - 4096 bytes is rounded up to 0 bytes: it
    succeeds, returns the start of the remaining space and reserves nothing,
    so the next range overlaps it. *)
Theorem vmem_range_wraps n s :
  2 ^ 64 - 4096 < n < 2 ^ 64 -> 0 < vmem_current s < vmem_end s -> vmem_end s < 2 ^ 64 ->
  alloc_vmem_range n s = (vmem_current s, s).
Proof.
  intros Hn Hc He. unfold alloc_vmem_range. replace (n =? 0) with false by lia.
  replace (vmem_end s <=? vmem_current s) with false by lia.
  assert (n +64 0xfff = n + 0xfff - 2 ^ 64) as ->.
  { unfold wrap. symmetry. apply (Z.mod_unique _ _ 1); lia. }
  change 0xfff with (2 ^ 12 - 1) at 2 4 6. rewrite land_mask_down by lia.
  rewrite Z.div_small by lia. rewrite Z.mul_0_l, Z.add_0_r, wrap_small by lia.
  replace ((vmem_end s <? vmem_current s) || (vmem_current s <? vmem_current s)) with false by lia.
  by destruct s.
Qed.

(** * Unmapping inside a huge page *)

(** A word that is zero stays zero: cleaning up only stores zeros. *)
Lemma cleanup_step_zero phys level parent s a :
  aget (pmem s) a = 0 -> aget (pmem (cleanup_step phys level parent s)) a = 0.
Proof.
  intros Hz. unfold cleanup_step, cleanup_table_level. repeat case_match; simplify_eq; try done.
  cbn. rewrite aget_aset. by case_decide.
Qed.

(** [unmap_page] does not look at the huge-page bit of a page directory entry:
    the 2 MiB data page is taken for a page table, and the word of the data
    that stands at the address's page-table index is cleared when it is odd.
    The mapping itself stays. *)
Theorem unmap_huge_clobbers_data s va :
  let root := kernel_pml4_phys s in
  let e4 := ent (pmem s) root (idx 3 va) in
  let e3 := ent (pmem s) (addr_of e4) (idx 2 va) in
  let e2 := ent (pmem s) (addr_of e3) (idx 1 va) in
  root <> 0 -> is_present e4 = true -> is_present e3 = true -> is_present e2 = true ->
  is_huge e2 = true -> is_present (ent (pmem s) (addr_of e2) (idx 0 va)) = true ->
  exists s', unmap_page va 0 s = Some s'
    /\ ent (pmem s') (addr_of e2) (idx 0 va) = 0
    /\ ent (pmem s) (addr_of e2) (idx 0 va) <> 0.
Proof.
  cbv zeta. intros Hroot H4 H3 H2 _ H1. unfold unmap_page.
  change (resolve_pml4 0 s) with (kernel_pml4_phys s).
  change (pml4_index va) with (idx 3 va). change (pdpt_index va) with (idx 2 va).
  change (pd_index va) with (idx 1 va). change (pt_index va) with (idx 0 va).
  replace (kernel_pml4_phys s =? 0) with false by lia. rewrite H4, H3, H2, H1. cbn [negb].
  eexists. split_and!; [done| |].
  - do 3 apply cleanup_step_zero. cbn. apply aget_aset_eq.
  - intros E. rewrite E in H1. done.
Qed.

End Spaces.

(** * Concrete instances *)

(** An empty root table in page 0x105; page 0x104 is in use. *)
Definition demo_vmm : vmm pmm := Vmm (afill 0) 0x105000 0xffff900000000000 0xffffffff80000000 demo_pmm.

Lemma demo_tree : tree (pmem demo_vmm) (pa_used (frames demo_vmm)) 0x105000 {[0x105000 := []]}.
Proof.
  split.
  - apply lookup_singleton_eq.
  - intros t p i _ _ _. unfold ent, demo_vmm. cbn [pmem]. by rewrite aget_afill.
  - intros t p [<- <-]%lookup_singleton_Some. by left.
  - intros t p [<- <-]%lookup_singleton_Some. split; [cbn; lia|]. exists 0x105.
    split_and!; [done|done|done|vm_compute; reflexivity].
Qed.

Lemma demo_vmm_wf : pa_wf (frames demo_vmm).
Proof. exact demo_pmm_wf. Qed.

(** Page 0x104 mapped at 4 MiB, readable by the user and copy-on-write. *)
Definition demo_flags : Z := Z.lor (Z.lor Flags.Present Flags.User) Flags.CowPending.
Definition demo_mapped : vmm pmm := default demo_vmm (map_page 0x400000 0x104000 demo_flags 0 demo_vmm).

Definition succeeds {A} (o : option A) : bool := match o with Some _ => true | None => false end.
Lemma default_Some {A} (x : A) o : succeeds o = true -> o = Some (default x o).
Proof. by destruct o. Qed.

Lemma demo_map : map_page 0x400000 0x104000 demo_flags 0 demo_vmm = Some demo_mapped.
Proof. apply default_Some. vm_compute. reflexivity. Qed.

Lemma demo_mapped_tree : exists own,
  pa_wf (frames demo_mapped) /\ tree (pmem demo_mapped) (pa_used (frames demo_mapped)) 0x105000 own
  /\ own !! 0x104000 = None.
Proof.
  destruct (map_page_cases demo_vmm demo_mapped _ 0x400000 0x104000 demo_flags 0 demo_vmm_wf demo_tree
    ltac:(vm_compute; reflexivity) demo_map) as (own & Hwf & Ht & _ & Hout & _).
  exists own. split_and!; [done|done|].
  apply (Hout 0x104); [vm_compute; reflexivity|by apply lookup_singleton_ne].
Qed.

Lemma map_page_spec_witness :
  translate demo_mapped 0x105000 0x400000 = Some (0x104000, 5) /\ translate demo_vmm 0x105000 0x400000 = None.
Proof.
  destruct (map_page_spec demo_vmm demo_mapped _ 0x400000 0x104000 demo_flags 0 demo_vmm_wf demo_tree
    ltac:(vm_compute; reflexivity) demo_map) as (own & _ & _ & _ & _ & _ & _ & Htr).
  split; [exact (Htr 0x400000)|vm_compute; reflexivity].
Defined.

Lemma demo_small : small_path (pmem demo_mapped) 0x105000 0x400000.
Proof. intros _. split; [|intros _]; vm_compute; reflexivity. Qed.

Definition demo_unmapped : vmm pmm := default demo_mapped (unmap_page 0x400000 0 demo_mapped).

Lemma demo_unmap : unmap_page 0x400000 0 demo_mapped = Some demo_unmapped.
Proof. apply default_Some. vm_compute. reflexivity. Qed.

Lemma unmap_page_spec_witness :
  translate demo_unmapped 0x105000 0x400000 = None /\ (exists own own', cleaned 0x400000 demo_unmapped own own')
  /\ is_present (ent (pmem demo_mapped) 0x105000 0) = true /\ is_present (ent (pmem demo_unmapped) 0x105000 0) = false.
Proof.
  destruct demo_mapped_tree as (own & Hwf & Ht & _).
  destruct (unmap_page_spec demo_mapped demo_unmapped own 0x400000 0 Hwf Ht demo_small demo_unmap)
    as (own' & _ & _ & _ & _ & Hcl & _ & Htr).
  split; [exact (Htr 0x400000)|]. split; [|vm_compute; split; reflexivity].
  exists own, own'. apply Hcl. intros E. vm_compute in E. discriminate E.
Defined.

Lemma cow_fault_spec_witness : exists s' own old f new,
  handle_cow_fault 0x400123 7 0x105000 demo_mapped = (true, s')
  /\ cow_resolved demo_mapped s' own 0x105000 0x400123 old f new.
Proof.
  destruct demo_mapped_tree as (own & Hwf & Ht & Hno).
  destruct (handle_cow_fault 0x400123 7 0x105000 demo_mapped) as [b s'] eqn:E.
  assert (b = true) as -> by (change b with (b, s').1; rewrite <- E; vm_compute; reflexivity).
  destruct (cow_fault_spec demo_mapped s' own 0x105000 0x400123 7 Hwf Ht) as (old & f & new & Hc).
  - intros _. split; [|intros _]; vm_compute; reflexivity.
  - by replace (addr_of (leaf_entry (pmem demo_mapped) 0x105000 0x400123)) with 0x104000
      by (vm_compute; reflexivity).
  - exact E.
  - exists s', own, old, f, new. exact (conj eq_refl Hc).
Defined.

Lemma cow_fault_refused_witness :
  (handle_cow_fault 0x400123 5 0x105000 demo_vmm).2 = demo_vmm.
Proof. apply (cow_fault_refused demo_vmm _ 0x105000 0x400123 5 demo_vmm_wf). vm_compute. reflexivity. Defined.

Lemma create_user_pml4_spec_witness :
  let r := create_user_pml4 demo_mapped in
  r.1 = 0x103000 /\ translate r.2 r.1 0x400000 = None /\ translate r.2 0x105000 0x400000 = Some (0x104000, 5).
Proof.
  intros r. destruct demo_mapped_tree as (own & Hwf & Ht & _).
  assert (kernel_pml4_phys demo_mapped = 0x105000) as Ek by (vm_compute; reflexivity).
  assert (r.1 = 0x103000) as Er by (vm_compute; reflexivity).
  destruct (create_user_pml4_spec demo_mapped own Hwf) as (_ & _ & _ & Hkern & Huser).
  - by rewrite Ek.
  - by rewrite Ek.
  - fold r. by rewrite Er.
  - split_and!; [done|exact (Huser 0x400000)|].
    rewrite Ek in Hkern. etrans; [exact (Hkern 0x400000)|vm_compute; reflexivity].
Defined.

Lemma vmem_ranges_disjoint_witness :
  (alloc_ranges [100; 8192; 0; 1] demo_vmm).1
    = [(0xffff900000000000, 100); (0xffff900000001000, 8192); (0xffff900000003000, 1)]
  /\ 0xffff900000000000 + 100 <= 0xffff900000003000.
Proof.
  split; [vm_compute; reflexivity|].
  destruct (vmem_ranges_disjoint [100; 8192; 0; 1] demo_vmm) as [_ Hd].
  - split; vm_compute; reflexivity.
  - split; [vm_compute; discriminate|vm_compute; reflexivity].
  - repeat constructor; lia.
  - apply (Hd 0%nat 2%nat _ _ _ 1); [lia|vm_compute; reflexivity|vm_compute; reflexivity].
Defined.

Lemma vmem_range_wraps_witness :
  alloc_vmem_range (2 ^ 64 - 1) demo_vmm = (0xffff900000000000, demo_vmm).
Proof. apply (vmem_range_wraps (2 ^ 64 - 1) demo_vmm); [lia|split; vm_compute; reflexivity|vm_compute; reflexivity]. Defined.

(** Page 0 of the demo mapped as a 2 MiB page whose first word is odd. *)
Definition demo_huge : vmm pmm :=
  write 0x0 0xab1 (write 0x108000 0x87 (write 0x107000 0x108007 (write 0x105000 0x107007 demo_vmm))).

Lemma unmap_huge_clobbers_data_witness :
  aget (pmem demo_huge) 0 = 0xab1
  /\ exists s', unmap_page 0 0 demo_huge = Some s' /\ aget (pmem s') 0 = 0.
Proof.
  split; [vm_compute; reflexivity|].
  destruct (unmap_huge_clobbers_data demo_huge 0) as (s' & Hs & Hz & _);
    [vm_compute; discriminate|vm_compute; reflexivity..|]. exists s'. split; [exact Hs|exact Hz].
Defined.
