(* ===== verification/Bytes.v ===== *)
(** Byte-addressed memory: little-endian loads and stores of 1 to 8 bytes,
    and the frame reasoning that the components working on raw memory (the
    heap, the program loader, the filesystem drivers) share. *)

From S2P Require Import Prelude.

(** A memory maps an address to a byte. *)
Notation bmem := (arr Z).

(** Load and store [n] bytes, least significant first. *)
Fixpoint ld (n : nat) (m : bmem) (a : Z) : Z :=
  match n with
  | O => 0
  | S n => aget m a + 256 * ld n m (a + 1)
  end.

Fixpoint st (n : nat) (m : bmem) (a v : Z) : bmem :=
  match n with
  | O => m
  | S n => st n (aset m a (v mod 256)) (a + 1) (v / 256)
  end.

Notation ld64 := (ld 8).
Notation st64 := (st 8).

(** Both memories agree on every byte outside [P]. *)
Definition only (P : Z -> Prop) (m m' : bmem) : Prop := forall x, ~ P x -> aget m' x = aget m x.

(** The bytes of [n] bytes from [a]. *)
Definition span (a n x : Z) : Prop := a <= x < a + n.

Lemma only_refl P m : only P m m.
Proof. by intros x _. Qed.

Lemma only_trans (P Q : Z -> Prop) m1 m2 m3 :
  only P m1 m2 -> only Q m2 m3 -> only (fun x => P x \/ Q x) m1 m3.
Proof. intros H1 H2 x Hx. rewrite H2, H1; tauto. Qed.

Lemma only_weaken (P Q : Z -> Prop) m m' : (forall x, P x -> Q x) -> only P m m' -> only Q m m'.
Proof. intros HPQ H x Hx. apply H. auto. Qed.

Lemma ld_frame n m m' a :
  (forall x, span a (Z.of_nat n) x -> aget m' x = aget m x) -> ld n m' a = ld n m a.
Proof.
  unfold span. revert a. induction n as [|n IH]; intros a Hx; [done|]. cbn [ld].
  rewrite (Hx a), (IH (a + 1)); [done| |lia]. intros x Hr. apply Hx. lia.
Qed.

(** A load outside the changed bytes. *)
Lemma ld_only n P m m' a :
  only P m m' -> (forall x, span a (Z.of_nat n) x -> ~ P x) -> ld n m' a = ld n m a.
Proof. intros Ho Hd. apply ld_frame. intros x Hx. by apply Ho, Hd. Qed.

Lemma st_only n m a v : only (span a (Z.of_nat n)) m (st n m a v).
Proof.
  unfold only, span. revert m a v. induction n as [|n IH]; intros m a v x Hx; [done|]. cbn [st].
  rewrite IH by lia. rewrite aget_aset_ne; [done|lia].
Qed.

Lemma ld_st_eq n m a v : 0 <= v < 2 ^ (8 * Z.of_nat n) -> ld n (st n m a v) a = v.
Proof.
  revert m a v. induction n as [|n IH]; intros m a v Hv; cbn [ld st].
  { change (8 * Z.of_nat 0) with 0 in Hv. lia. }
  rewrite (st_only n) by (unfold span; lia). rewrite aget_aset_eq, IH.
  - pose proof (Z.div_mod v 256). lia.
  - replace (8 * Z.of_nat (S n)) with (8 * Z.of_nat n + 8) in Hv by lia.
    rewrite Z.pow_add_r in Hv by lia. split; [apply Z.div_pos; lia|]. apply Z.div_lt_upper_bound; lia.
Qed.

Lemma ld_st_ne n k m a b v :
  b + Z.of_nat n <= a \/ a + Z.of_nat k <= b -> ld n (st k m a v) b = ld n m b.
Proof. intros Hd. eapply ld_only; [apply st_only|]. unfold span. lia. Qed.

Lemma ld64_st64 m a v : 0 <= v < 2 ^ 64 -> ld64 (st64 m a v) a = v.
Proof. apply (ld_st_eq 8). Qed.

#[global] Opaque ld st.

#[export] Hint Resolve only_refl st_only : tori.
