(* ===== verification/Heap.v ===== *)
(** The boundary-tag heap: [heap.cpp], [heap.hpp].

    Blocks carry their size and an allocated bit in a header and a footer
    word; free blocks are linked in address order through their payload.  The
    heap works on a byte-addressed memory of virtual addresses, so that sizes
    that are not multiples of the word size are modelled as the code treats
    them.  Loops that follow pointers take fuel: [None] is a loop that has not
    ended.  The lock is taken and released by the same call on every path. *)

From stdpp Require Import sorting.
From S2P Require Import Prelude MemoryMap Pmm PageAlloc Bytes.

Definition allocated_flag : Z := 1.
Definition size_mask : Z := lnot64 allocated_flag.
Definition min_block_size : Z := 32.
Definition grow_page_count : Z := 16.
Definition max_regions : Z := 16.
(** [sizeof(BlockHeader)], [sizeof(Footer)], [sizeof(uint64_t)]. *)
Definition word_size : Z := 8.

Record HeapRegion := Hregion { r_base : Z; r_limit : Z }.

Record heap (S : Type) := Heap {
  hmem : bmem;
  regions : list HeapRegion;
  free_list : Z;
  heap_backing_pages : Z;
  heap_failed_allocations : Z;
  hhdm_base : Z;
  hpages : S;
}.
Arguments Heap {S}.
Arguments hmem {S}.
Arguments regions {S}.
Arguments free_list {S}.
Arguments heap_backing_pages {S}.
Arguments heap_failed_allocations {S}.
Arguments hhdm_base {S}.
Arguments hpages {S}.

Record HeapStats := Build_HeapStats {
  total_bytes : Z; free_bytes : Z; used_bytes : Z; free_blocks : Z;
  backing_pages : Z; failed_allocations : Z;
}.

(** * Blocks *)

Definition block_header (ptr : Z) : Z := ptr -64 word_size.
Definition block_payload (hdr : Z) : Z := hdr +64 word_size.
Definition block_size (m : bmem) (hdr : Z) : Z := Z.land (ld64 m hdr) size_mask.
Definition block_allocated (m : bmem) (hdr : Z) : bool := negb (Z.land (ld64 m hdr) allocated_flag =? 0).
Definition next_block (m : bmem) (hdr : Z) : Z := hdr +64 block_size m hdr.
Definition block_footer (m : bmem) (hdr : Z) : Z := wrap 64 (hdr + block_size m hdr - word_size).

Definition set_block (hdr size : Z) (allocated : bool) (m : bmem) : bmem :=
  let m := st64 m hdr (Z.lor size (if allocated then allocated_flag else 0)) in
  st64 m (block_footer m hdr) (ld64 m hdr).

Definition read_shift (m : bmem) (ptr : Z) : Z := ld64 m (ptr -64 word_size).
Definition write_shift (ptr shift : Z) (m : bmem) : bmem := st64 m (ptr -64 word_size) shift.
Definition payload_from_user_ptr (m : bmem) (ptr : Z) : Z := ptr -64 read_shift m ptr.
Definition header_from_user_ptr (m : bmem) (ptr : Z) : Z := block_header (payload_from_user_ptr m ptr).

Definition align_up (value alignment : Z) : Z :=
  Z.land (wrap 64 (value + alignment - 1)) (lnot64 (alignment -64 1)).

Definition region_is_empty (size : Z) : bool := size <? word_size + word_size + word_size + 1.

(** * The free list *)

(** A [FreeNode**]: the head of the list, or the [next] field of a node. *)
Definition link_get (head : Z) (m : bmem) (l : option Z) : Z :=
  match l with None => head | Some node => ld64 m node end.
Definition link_set (l : option Z) (v : Z) (hm : Z * bmem) : Z * bmem :=
  match l with None => (v, hm.2) | Some node => (hm.1, st64 hm.2 node v) end.

(** [while ( *prev != nullptr && go( *prev)) prev = &( *prev)->next;] *)
Fixpoint find_link (fuel : nat) (go : Z -> bool) (head : Z) (m : bmem) (prev : option Z) : option (option Z) :=
  match fuel with
  | O => None
  | S fuel =>
      let cur := link_get head m prev in
      if negb (cur =? 0) && go cur then find_link fuel go head m (Some cur) else Some prev
  end.

Definition remove_from_free_list (fuel : nat) (target : Z) (hm : Z * bmem) : option (Z * bmem) :=
  prev ← find_link fuel (fun cur => negb (cur =? target)) hm.1 hm.2 None;
  Some (if negb (link_get hm.1 hm.2 prev =? 0) then link_set prev (ld64 hm.2 target) hm else hm).

Definition add_to_free_list (fuel : nat) (node : Z) (hm : Z * bmem) : option (Z * bmem) :=
  prev ← find_link fuel (fun cur => cur <? node) hm.1 hm.2 None;
  Some (link_set prev node (hm.1, st64 hm.2 node (link_get hm.1 hm.2 prev))).

Definition init_region_as_free_block (fuel : nat) (base size : Z) (hm : Z * bmem) : option (Z * bmem) :=
  if region_is_empty size then Some hm
  else add_to_free_list fuel (block_payload base) (hm.1, set_block base size false hm.2).

Section Heap.
Context {S : Type} `{PageAlloc S}.
Implicit Types (s : heap S).

Definition list_of s : Z * bmem := (free_list s, hmem s).
Definition with_list (hm : Z * bmem) s : heap S :=
  Heap hm.2 (regions s) hm.1 (heap_backing_pages s) (heap_failed_allocations s) (hhdm_base s) (hpages s).
Definition with_pages (p : S) s : heap S :=
  Heap (hmem s) (regions s) (free_list s) (heap_backing_pages s) (heap_failed_allocations s) (hhdm_base s) p.

Definition try_add_region (base limit : Z) s : bool * heap S :=
  if max_regions <=? Z.of_nat (length (regions s)) then (false, s)
  else (true, Heap (hmem s) (regions s ++ [Hregion base limit]) (free_list s)
                (heap_backing_pages s) (heap_failed_allocations s) (hhdm_base s) (hpages s)).

Definition count_backing (n : Z) s : heap S :=
  Heap (hmem s) (regions s) (free_list s) (heap_backing_pages s +64 n) (heap_failed_allocations s)
    (hhdm_base s) (hpages s).
Definition count_failure s : heap S :=
  Heap (hmem s) (regions s) (free_list s) (heap_backing_pages s) (heap_failed_allocations s +64 1)
    (hhdm_base s) (hpages s).

Definition grow_heap (fuel : nat) s : option (bool * heap S) :=
  let '(phys, p) := pa_alloc (hpages s) grow_page_count in
  let s := with_pages p s in
  if phys =? invalid_physical_address then Some (false, s)
  else
    let virt := physical_to_virtual (hhdm_base s) phys in
    let region_size := grow_page_count * page_size in
    let '(added, s) := try_add_region virt (virt +64 region_size) s in
    if negb added then Some (false, with_pages (pa_free (hpages s) phys grow_page_count) s)
    else
      let s := count_backing grow_page_count s in
      hm ← init_region_as_free_block fuel virt region_size (list_of s);
      Some (true, with_list hm s).

Definition init s : heap S :=
  Heap (hmem s) [] 0 0 0 (hhdm_base s) (hpages s).

(** ** Allocation *)

Definition user_ptr_of (hdr alignment : Z) : Z :=
  align_up (block_payload hdr +64 word_size) alignment.

Definition total_used_of (hdr size alignment : Z) : Z :=
  let total_used := wrap 64 (user_ptr_of hdr alignment - hdr + size + word_size) in
  if total_used <? min_block_size then min_block_size else total_used.

(** The inner loop: the first free block that is large enough. *)
Fixpoint find_fit (fuel : nat) (size alignment : Z) (m : bmem) (node : Z) : option (option Z) :=
  match fuel with
  | O => None
  | Datatypes.S fuel =>
      if node =? 0 then Some None
      else if total_used_of (block_header node) size alignment <=? block_size m (block_header node)
      then Some (Some node)
      else find_fit fuel size alignment m (ld64 m node)
  end.

(** Take the request out of the free block at [node]. *)
Definition carve (fuel : nat) (node size alignment : Z) (hm : Z * bmem) : option (Z * (Z * bmem)) :=
  let hdr := block_header node in
  let bsize := block_size hm.2 hdr in
  let payload_addr := block_payload hdr in
  let user_ptr := user_ptr_of hdr alignment in
  let total_used := total_used_of hdr size alignment in
  hm ← remove_from_free_list fuel node hm;
  let remaining := bsize - total_used in
  hm ← (if min_block_size <=? remaining then
          let m := set_block hdr total_used true hm.2 in
          let remainder_hdr := hdr +64 total_used in
          let m := set_block remainder_hdr remaining false m in
          add_to_free_list fuel (block_payload remainder_hdr) (hm.1, m)
        else Some (hm.1, set_block hdr bsize true hm.2));
  Some (user_ptr, (hm.1, write_shift user_ptr (user_ptr -64 payload_addr) hm.2)).

(** The outer loop: grow the heap until a block fits; [rounds] bounds it. *)
Fixpoint alloc_loop (rounds fuel : nat) (size alignment : Z) s : option (Z * heap S) :=
  match rounds with
  | O => None
  | Datatypes.S rounds =>
      fit ← find_fit fuel size alignment (hmem s) (free_list s);
      match fit with
      | Some node =>
          '(user_ptr, hm) ← carve fuel node size alignment (list_of s);
          Some (user_ptr, with_list hm s)
      | None =>
          '(grown, s) ← grow_heap fuel s;
          if negb grown then Some (0, count_failure s)
          else alloc_loop rounds fuel size alignment s
      end
  end.

(** Every round but the last adds one of at most [max_regions] regions. *)
Definition alloc_rounds : nat := 17.

Definition alloc (fuel : nat) (size alignment : Z) s : option (Z * heap S) :=
  if size =? 0 then Some (0, s)
  else
    let alignment := if alignment <? 8 then 8 else alignment in
    alloc_loop alloc_rounds fuel size alignment s.

(** ** Freeing *)

Definition in_region (x : Z) (r : HeapRegion) : bool := (r_base r <=? x) && (x <? r_limit r).

Definition contains (pointer : Z) s : bool :=
  if pointer =? 0 then false else existsb (in_region pointer) (regions s).

(** Merge the freed block with the one after it. *)
Definition coalesce_next (fuel : nat) (hdr bsize : Z) (rs : list HeapRegion) (hm : Z * bmem)
    : option (Z * bmem) :=
  let next := next_block hm.2 hdr in
  if existsb (in_region next) rs && negb (block_allocated hm.2 next) then
    hm ← remove_from_free_list fuel (block_payload next) hm;
    Some (hm.1, set_block hdr (bsize +64 block_size hm.2 next) false hm.2)
  else Some hm.

(** Merge it with the one before it; the result is the header to be linked. *)
Definition coalesce_prev (fuel : nat) (hdr : Z) (rs : list HeapRegion) (hm : Z * bmem)
    : option (Z * (Z * bmem)) :=
  match List.find (in_region hdr) rs with
  | None => Some (hdr, hm)
  | Some r =>
      if r_base r +64 word_size <? hdr then
        let prev_size := Z.land (ld64 hm.2 (hdr -64 word_size)) size_mask in
        if 0 <? prev_size then
          let prev := hdr -64 prev_size in
          if (r_base r <=? prev) && negb (block_allocated hm.2 prev) then
            hm ← remove_from_free_list fuel (block_payload prev) hm;
            Some (prev, (hm.1, set_block prev (block_size hm.2 prev +64 block_size hm.2 hdr) false hm.2))
          else Some (hdr, hm)
        else Some (hdr, hm)
      else Some (hdr, hm)
  end.

Definition free (fuel : nat) (pointer : Z) s : option (heap S) :=
  if pointer =? 0 then Some s
  else if negb (contains pointer s) then Some s
  else
    let hdr := header_from_user_ptr (hmem s) pointer in
    if negb (block_allocated (hmem s) hdr) then Some s
    else
      let bsize := block_size (hmem s) hdr in
      let hm := (free_list s, set_block hdr bsize false (hmem s)) in
      hm ← coalesce_next fuel hdr bsize (regions s) hm;
      '(hdr, hm) ← coalesce_prev fuel hdr (regions s) hm;
      hm ← add_to_free_list fuel (block_payload hdr) hm;
      Some (with_list hm s).

(** ** Statistics *)

Fixpoint stats_walk (fuel : nat) (m : bmem) (current region_end : Z) (st : HeapStats) : option HeapStats :=
  match fuel with
  | O => None
  | Datatypes.S fuel =>
      if current <? region_end then
        let bsize := block_size m current in
        if bsize =? 0 then Some st
        else
          let t := total_bytes st +64 bsize in
          let st :=
            if block_allocated m current
            then Build_HeapStats t (free_bytes st) (used_bytes st +64 bsize) (free_blocks st)
                   (backing_pages st) (failed_allocations st)
            else Build_HeapStats t (free_bytes st +64 bsize) (used_bytes st) (free_blocks st +64 1)
                   (backing_pages st) (failed_allocations st) in
          stats_walk fuel m (next_block m current) region_end st
      else Some st
  end.

Fixpoint stats_regions (fuel : nat) (m : bmem) (rs : list HeapRegion) (st : HeapStats) : option HeapStats :=
  match rs with
  | [] => Some st
  | r :: rs => st ← stats_walk fuel m (r_base r) (r_limit r) st; stats_regions fuel m rs st
  end.

Definition stats (fuel : nat) s : option HeapStats :=
  stats_regions fuel (hmem s) (regions s)
    (Build_HeapStats 0 0 0 0 (heap_backing_pages s) (heap_failed_allocations s)).

End Heap.

(** * Words and tags *)

Lemma size_mask_tag n al : 0 <= n < 2 ^ 64 -> Z.even n = true ->
  let t := Z.lor n (if al : bool then allocated_flag else 0) in
  t = n + Z.b2z al /\ Z.land t size_mask = n /\ negb (Z.land t allocated_flag =? 0) = al.
Proof.
  intros Hn [k ->]%Z.even_spec t.
  assert (t = 2 * k + Z.b2z al) as Et by (subst t; destruct al, k; (done || lia)).
  assert (0 <= t < 2 ^ 64) as Ht by (rewrite Et; destruct al; cbn [Z.b2z]; lia).
  clearbody t. split; [done|]. split.
  - unfold size_mask, allocated_flag. change (lnot64 1) with (lnot64 (2 ^ 1 - 1)).
    rewrite land_mask_down by lia. rewrite Et. destruct al; cbn [Z.b2z]; zlia.
  - unfold allocated_flag. change 1 with (Z.ones 1). rewrite Z.land_ones by lia.
    rewrite Et. destruct al; cbn [Z.b2z]; apply negb_true_iff || apply negb_false_iff; zlia.
Qed.

(** A well-tagged block of [n] bytes at [a]. *)
Record blk (m : bmem) (a n : Z) (al : bool) : Prop := {
  b_even : Z.even n = true;
  b_min : min_block_size <= n;
  b_low : 0 < a;
  b_high : a + n <= 2 ^ 64;
  b_head : ld64 m a = n + Z.b2z al;
  b_foot : ld64 m (a + n - 8) = n + Z.b2z al;
}.

(** The bytes of the two tags. *)
Definition tags (a n x : Z) : Prop := span a 8 x \/ span (a + n - 8) 8 x.

Lemma tag_land n al : 0 <= n < 2 ^ 64 -> Z.even n = true ->
  Z.land (n + Z.b2z al) size_mask = n /\ negb (Z.land (n + Z.b2z al) allocated_flag =? 0) = al.
Proof. intros Hn He. by destruct (size_mask_tag n al Hn He) as (<- & ? & ?). Qed.

Lemma blk_size m a n al : blk m a n al -> block_size m a = n /\ block_allocated m a = al.
Proof.
  intros []. unfold block_size, block_allocated, min_block_size in *. rewrite b_head0. apply tag_land; [lia|done].
Qed.

Lemma blk_frame P m m' a n al :
  only P m m' -> (forall x, tags a n x -> ~ P x) -> blk m a n al -> blk m' a n al.
Proof.
  unfold tags, span. intros Ho Hd []. split; try done.
  - rewrite <- b_head0. eapply ld_only; [done|]. unfold span. intros x Hx. apply Hd. lia.
  - rewrite <- b_foot0. eapply ld_only; [done|]. unfold span. intros x Hx. apply Hd. lia.
Qed.

Lemma set_block_spec m a n al :
  Z.even n = true -> min_block_size <= n -> 0 < a -> a + n <= 2 ^ 64 ->
  blk (set_block a n al m) a n al /\ only (tags a n) m (set_block a n al m).
Proof.
  intros He Hmin Ha Hh. unfold min_block_size in *.
  destruct (size_mask_tag n al ltac:(lia) He) as (Et & Em & _).
  assert (n <> 2 ^ 64 - 1) by (intros ->; done).
  assert (0 <= n + Z.b2z al < 2 ^ 64) as Ht by (destruct al; cbn [Z.b2z]; lia).
  unfold set_block, block_footer, block_size. rewrite Et.
  rewrite !ld64_st64 by done. rewrite Et in Em. rewrite Em. unfold word_size. rewrite wrap_small by lia.
  split.
  - split; try done; [|by rewrite ld64_st64].
    rewrite ld_st_ne by lia. by rewrite ld64_st64.
  - eapply only_weaken; [|eapply only_trans; apply st_only]. unfold tags, span. intros x Hx. lia.
Qed.

(** * The free list *)

Fixpoint chain (m : bmem) (p : Z) (l : list Z) : Prop :=
  match l with
  | [] => p = 0
  | x :: l => p = x /\ x <> 0 /\ chain m (ld64 m x) l
  end.

Definition nodes (l : list Z) (x : Z) : Prop := exists f, f ∈ l /\ span f 8 x.

Lemma chain_frame P m m' p l :
  only P m m' -> (forall x, nodes l x -> ~ P x) -> chain m p l -> chain m' p l.
Proof.
  intros Ho. revert p. induction l as [|y l IH]; intros p Hd; cbn; [done|].
  intros (-> & Hy & Hc). split_and!; [done|done|].
  rewrite (ld_only 8 P m m' y Ho).
  - apply IH; [|done]. intros x (f & Hf & Hx). apply Hd. exists f. split; [set_solver|done].
  - intros x Hx. apply Hd. exists y. split; [set_solver|done].
Qed.

(** Free nodes in address order, far enough apart for their words. *)
Definition spaced : list Z -> Prop := StronglySorted (fun f g => f + 8 <= g).

Lemma spaced_app l1 x l2 :
  spaced (l1 ++ x :: l2) ->
  spaced (l1 ++ l2) /\ (forall f, f ∈ l1 -> f + 8 <= x) /\ (forall f, f ∈ l2 -> x + 8 <= f).
Proof.
  unfold spaced. induction l1 as [|y l1 IH]; cbn; intros Hs; inversion_clear Hs as [|? ? Hs' Hall].
  - rewrite Forall_forall in Hall. split_and!; [done|set_solver|done].
  - destruct (IH Hs') as (H1 & H2 & H3). rewrite Forall_forall in Hall. split_and!; [|set_solver|done].
    constructor; [done|]. rewrite Forall_forall. intros z Hz. apply Hall. set_solver.
Qed.

Lemma spaced_prefix l1 l2 : spaced (l1 ++ l2) -> spaced l1.
Proof.
  unfold spaced. induction l1 as [|y l1 IH]; intros Hsp; [constructor|]. inversion_clear Hsp as [|? ? Hs Hall].
  constructor; [by apply IH|]. rewrite Forall_forall in *. intros z Hz. apply Hall. set_solver.
Qed.

Definition stops (go : Z -> bool) (l : list Z) : Prop :=
  match l with [] => True | x :: _ => go x = false end.

(** The link that a walk over the list ends at, and what it holds. *)
Lemma find_link_spec go head m l2 l1 : forall fuel prev,
  chain m (link_get head m prev) (l1 ++ l2) -> (forall f, f ∈ l1 -> go f = true) -> stops go l2 ->
  (length l1 < fuel)%nat ->
  let l := match last l1 with Some x => Some x | None => prev end in
  find_link fuel go head m prev = Some l /\ link_get head m l = hd 0 l2
  /\ chain m (link_get head m l) l2.
Proof.
  induction l1 as [|x l1 IH]; intros [|fuel] prev Hc Hgo Hst Hf; cbn [length] in Hf; try lia; cbn [app] in Hc.
  - cbn [last find_link]. destruct l2 as [|y l2]; cbn [hd].
    + cbn in Hc. by rewrite Hc.
    + cbn [chain] in Hc. destruct Hc as (Ey & Hy & Hc). rewrite Ey. cbn in Hst. rewrite Hst, andb_false_r.
      split_and!; done.
  - cbn [chain] in Hc. destruct Hc as (Ex & Hx & Hc). cbn [find_link].
    rewrite Ex, (Hgo x) by set_solver. replace (x =? 0) with false by lia. cbn [negb andb].
    replace (match last (x :: l1) with Some x => Some x | None => prev end)
      with (match last l1 with Some x => Some x | None => Some x end).
    2:{ destruct l1 as [|y l1]; [done|]. change (last (x :: y :: l1)) with (last (y :: l1)).
        destruct (last (y :: l1)) eqn:E; [done|]. by apply last_None in E. }
    apply IH; [done|set_solver|done|lia].
Qed.

(** Storing a new rest of the list in the link after [l1]. *)
Lemma link_set_spec head m l1 l2 l2' v :
  chain m head (l1 ++ l2) -> spaced l1 -> chain m v l2' ->
  (forall f g, f ∈ l1 -> g ∈ l2' -> f + 8 <= g \/ g + 8 <= f) -> 0 <= v < 2 ^ 64 ->
  let hm := link_set (last l1) v (head, m) in
  chain hm.2 hm.1 (l1 ++ l2') /\ only (nodes l1) m hm.2.
Proof.
  intros Hc Hsp Hv Hd Hr. destruct l1 as [|x l1 _] using rev_ind; [cbn; split; [done|apply only_refl]|].
  rewrite last_snoc. cbn [link_set fst snd].
  assert (only (span x 8) m (st64 m x v)) as Ho by exact (st_only 8 m x v).
  apply spaced_app in Hsp as (_ & Hlt & _). split.
  - rewrite <- app_assoc in Hc |- *. cbn [app] in *.
    assert (forall g, g ∈ l2' -> x + 8 <= g \/ g + 8 <= x) as Hd2 by (intros g Hg; apply Hd; set_solver).
    clear Hd. revert head Hc Hlt. induction l1 as [|y l1 IH]; intros head; cbn [app chain].
    + intros (-> & Hx & _) _. split_and!; [done|done|]. rewrite ld64_st64 by done.
      eapply chain_frame; [exact Ho| |done]. intros z (g & Hg & Hz) Hx'. unfold span in *.
      specialize (Hd2 g Hg). lia.
    + intros (-> & Hy & Hc) Hlt. split_and!; [done|done|].
      rewrite (ld_only 8 _ _ _ y Ho).
      * apply IH; [done|]. intros f Hf. apply Hlt. set_solver.
      * intros z Hz Hx'. specialize (Hlt y ltac:(set_solver)). unfold span in *. lia.
  - eapply only_weaken; [|done]. intros z Hz. exists x. split; [set_solver|done].
Qed.

(** Nodes are addresses of words. *)
Definition addresses (l : list Z) : Prop := forall f, f ∈ l -> 0 < f < 2 ^ 64.

Lemma chain_head m p l : chain m p l -> addresses l -> 0 <= p < 2 ^ 64.
Proof. destruct l as [|x l]; cbn; [lia|]. intros (-> & _) Ha. specialize (Ha x ltac:(set_solver)). lia. Qed.

Lemma remove_spec fuel m head l1 x l2 :
  chain m head (l1 ++ x :: l2) -> spaced (l1 ++ x :: l2) -> addresses (l1 ++ x :: l2) ->
  (length l1 < fuel)%nat ->
  exists head' m', remove_from_free_list fuel x (head, m) = Some (head', m')
    /\ chain m' head' (l1 ++ l2) /\ only (nodes l1) m m'.
Proof.
  intros Hc Hsp Ha Hf. pose proof (spaced_app _ _ _ Hsp) as (Hs12 & H1 & H2).
  unfold remove_from_free_list. cbn [fst snd].
  destruct (find_link_spec (fun cur => negb (cur =? x)) head m (x :: l2) l1 fuel None Hc) as (-> & Hg & Hcx);
    [|cbn; by rewrite Z.eqb_refl|done|].
  { intros f Hfl. specialize (H1 f Hfl). apply negb_true_iff. lia. }
  cbn [mbind option_bind]. replace (match last l1 with Some y => Some y | None => None end) with (last l1) in *
    by (by destruct (last l1)). rewrite Hg. cbn [hd].
  assert (0 < x) as Hx by (apply Ha; set_solver). replace (x =? 0) with false by lia. cbn [negb].
  rewrite Hg in Hcx. cbn [hd chain] in Hcx. destruct Hcx as (_ & _ & Hc2).
  destruct (link_set_spec head m l1 (x :: l2) l2 (ld64 m x) Hc) as [Hc' Ho]; try done.
  - by apply spaced_prefix in Hsp.
  - intros f g Hfl Hgl. specialize (H1 f Hfl). specialize (H2 g Hgl). lia.
  - eapply chain_head; [done|]. intros f Hfl. apply Ha. set_solver.
  - destruct (link_set (last l1) (ld64 m x) (head, m)) as [h' m'] eqn:E. exists h', m'. by split_and!.
Qed.

Lemma add_spec fuel m head l1 x l2 :
  chain m head (l1 ++ l2) -> spaced (l1 ++ x :: l2) -> addresses (l1 ++ x :: l2) ->
  (length l1 < fuel)%nat ->
  exists head' m', add_to_free_list fuel x (head, m) = Some (head', m')
    /\ chain m' head' (l1 ++ x :: l2) /\ only (nodes (x :: l1)) m m'.
Proof.
  intros Hc Hsp Ha Hf. pose proof (spaced_app _ _ _ Hsp) as (Hs12 & H1 & H2).
  unfold add_to_free_list. cbn [fst snd].
  destruct (find_link_spec (fun cur => cur <? x) head m l2 l1 fuel None Hc) as (-> & Hg & Hcx); [| |done|].
  { intros f Hfl. specialize (H1 f Hfl). lia. }
  { destruct l2 as [|y l2]; cbn; [done|]. specialize (H2 y ltac:(set_solver)). lia. }
  cbn [mbind option_bind]. replace (match last l1 with Some y => Some y | None => None end) with (last l1) in *
    by (by destruct (last l1)).
  set (nx := link_get head m (last l1)) in *. set (m1 := st64 m x nx).
  assert (only (span x 8) m m1) as Ho1 by exact (st_only 8 m x nx).
  assert (0 <= nx < 2 ^ 64) as Hnx.
  { eapply chain_head; [done|]. intros f Hfl. apply Ha. set_solver. }
  destruct (link_set_spec head m1 l1 l2 (x :: l2) x) as [Hc' Ho].
  - eapply chain_frame; [done| |done]. intros z (f & Hfl & Hz) Hx'. unfold span in *.
    apply elem_of_app in Hfl as [Hfl|Hfl]; [specialize (H1 f Hfl)|specialize (H2 f Hfl)]; lia.
  - by apply spaced_prefix in Hsp.
  - cbn [chain]. split_and!; [done|specialize (Ha x ltac:(set_solver)); lia|]. subst m1.
    rewrite ld64_st64 by done. eapply chain_frame; [done| |done].
    intros z (f & Hfl & Hz) Hx'. unfold span in *. specialize (H2 f Hfl). lia.
  - intros f g Hfl Hgl. specialize (H1 f Hfl). apply elem_of_cons in Hgl as [->|Hgl]; [lia|]. specialize (H2 g Hgl). lia.
  - specialize (Ha x ltac:(set_solver)). lia.
  - destruct (link_set (last l1) x (head, m1)) as [h' m'] eqn:E. exists h', m'. split_and!; [done|done|].
    eapply only_weaken; [|eapply only_trans; [exact Ho1|exact Ho]].
    intros z [Hz|(f & Hfl & Hz)]; [exists x|exists f]; (split; [set_solver|done]).
Qed.

(** * The block structure of the heap *)

(** A block; when allocated, the pointer and the size its user knows. *)
Record hb := HB { ba : Z; bn : Z; bu : option (Z * Z) }.
#[export] Instance hb_eq_dec : EqDecision hb.
Proof. solve_decision. Defined.
Definition used (b : hb) : bool := if bu b then true else false.
Definition before (b c : hb) : Prop := ba b + bn b <= ba c.
Definition bytes (b : hb) : Z -> Prop := span (ba b) (bn b).
Definition fn (bs : list hb) : list Z := (fun b => ba b + 8) <$> filter (fun b => used b = false) bs.
Definition free_part (bs : list hb) (x : Z) : Prop := exists c, c ∈ bs /\ used c = false /\ bytes c x.

(** A user's pointer lies behind its shift word and before the footer. *)
Definition owned (m : bmem) (b : hb) : Prop :=
  match bu b with
  | None => True
  | Some (u, sz) => ba b + 16 <= u /\ 0 < sz /\ u + sz + 8 <= ba b + bn b /\ ld64 m (u - 8) = u - ba b - 8
  end.

Record good (m : bmem) (b : hb) : Prop := {
  g_blk : blk m (ba b) (bn b) (used b);
  g_even : Z.even (ba b) = true;
}.

Lemma good_range m b : good m b -> 0 < ba b /\ 32 <= bn b /\ ba b + bn b <= 2 ^ 64.
Proof. intros [[] _]. unfold min_block_size in *. lia. Qed.

Lemma good_frame P m m' b :
  only P m m' -> (forall x, tags (ba b) (bn b) x -> ~ P x) -> good m b -> good m' b.
Proof. intros Ho Hd []. split; [by eapply blk_frame|done]. Qed.

Lemma fn_app l1 l2 : fn (l1 ++ l2) = fn l1 ++ fn l2.
Proof. unfold fn. by rewrite filter_app, fmap_app. Qed.

Lemma fn_cons_free b l : used b = false -> fn (b :: l) = (ba b + 8) :: fn l.
Proof. intros Hb. unfold fn. by rewrite filter_cons_True. Qed.

Lemma fn_cons_used b l : used b = true -> fn (b :: l) = fn l.
Proof. intros Hb. unfold fn. rewrite filter_cons_False; [done|]. by rewrite Hb. Qed.

Lemma elem_of_fn f bs : f ∈ fn bs <-> exists b, f = ba b + 8 /\ b ∈ bs /\ used b = false.
Proof. unfold fn. rewrite list_elem_of_fmap. setoid_rewrite list_elem_of_filter. naive_solver. Qed.

Lemma length_fn bs : (length (fn bs) <= length bs)%nat.
Proof. unfold fn. rewrite length_fmap. apply length_filter. Qed.

(** ** Lists of blocks in address order *)

Definition ordered : list hb -> Prop := StronglySorted before.

Lemma ordered_app l1 l2 :
  ordered (l1 ++ l2) <-> ordered l1 /\ ordered l2 /\ (forall c d, c ∈ l1 -> d ∈ l2 -> before c d).
Proof.
  unfold ordered. induction l1 as [|b l1 IH]; cbn.
  - split; [intros ?; split_and!; [constructor|done|set_solver]|naive_solver].
  - split.
    + intros Hs. inversion_clear Hs as [|? ? Hs' Hall]. apply IH in Hs' as (H1 & H2 & H3).
      rewrite Forall_forall in Hall. split_and!; [|done|].
      * constructor; [done|]. rewrite Forall_forall. set_solver.
      * intros c d [->|Hc]%elem_of_cons Hd; [apply Hall; set_solver|by apply H3].
    + intros (H1 & H2 & H3). inversion_clear H1 as [|? ? H1' Hall]. constructor.
      * apply IH. split_and!; [done|done|]. set_solver.
      * rewrite Forall_forall in *. intros d [Hd|Hd]%elem_of_app; [by apply Hall|]. apply H3; set_solver.
Qed.

Lemma ordered_cons b l : ordered (b :: l) <-> ordered l /\ (forall d, d ∈ l -> before b d).
Proof.
  change (b :: l) with ([b] ++ l). rewrite ordered_app. split; [set_solver|].
  intros [? Hb]. split_and!; [repeat constructor|done|]. intros c d ->%list_elem_of_singleton. apply Hb.
Qed.

(** The middle of an ordered list may be replaced by blocks inside of it. *)
Lemma ordered_replace l1 mid mid' l2 :
  ordered (l1 ++ mid ++ l2) -> ordered mid' ->
  (forall d, d ∈ mid' -> exists c c', c ∈ mid /\ c' ∈ mid /\ ba c <= ba d /\ ba d + bn d <= ba c' + bn c') ->
  ordered (l1 ++ mid' ++ l2).
Proof.
  rewrite !ordered_app. intros (H1 & (Hm & H2 & Hm2) & H12) Hm' Hin. split_and!; try done.
  - intros d e Hd He. destruct (Hin d Hd) as (c & c' & _ & Hc' & _ & Hle).
    specialize (Hm2 c' e Hc' He). unfold before in *. lia.
  - intros c d Hc Hd. apply elem_of_app in Hd as [Hd|Hd].
    + destruct (Hin d Hd) as (e & _ & He & _ & Hle & _). specialize (H12 c e Hc ltac:(set_solver)).
      unfold before in *. lia.
    + apply H12; set_solver.
Qed.

Lemma fn_spaced bs : ordered bs -> (forall c, c ∈ bs -> 32 <= bn c) -> spaced (fn bs).
Proof.
  induction bs as [|b bs IH]; intros Ho Hn; [constructor|]. apply ordered_cons in Ho as [Ho Hb].
  assert (spaced (fn bs)) as Hs by (apply IH; [done|set_solver]).
  destruct (used b) eqn:Hu; [by rewrite fn_cons_used|]. rewrite fn_cons_free by done.
  constructor; [done|]. rewrite Forall_forall. intros f (c & -> & Hc & _)%elem_of_fn.
  specialize (Hb c Hc). specialize (Hn b ltac:(set_solver)). unfold before in *. lia.
Qed.

(** ** The heap with one block taken out of the free list *)

(** Every block but the middle one is well tagged, and the free list holds the
    free blocks among them. *)
Record mid (m : bmem) (head : Z) (l1 : list hb) (b : hb) (l2 : list hb) : Prop := {
  md_good : forall c, c ∈ l1 ++ l2 -> good m c;
  md_order : ordered (l1 ++ b :: l2);
  md_chain : chain m head (fn l1 ++ fn l2);
  md_range : 0 < ba b /\ 32 <= bn b /\ ba b + bn b <= 2 ^ 64;
}.

Record core (m : bmem) (head : Z) (bs : list hb) : Prop := {
  co_good : forall c, c ∈ bs -> good m c;
  co_order : ordered bs;
  co_chain : chain m head (fn bs);
}.

Lemma mid_sides m head l1 b l2 c :
  mid m head l1 b l2 -> c ∈ l1 ++ l2 -> before c b \/ before b c.
Proof.
  intros Hm Hc. pose proof (md_order _ _ _ _ _ Hm) as Ho.
  apply ordered_app in Ho as (_ & Ho2 & H12). apply ordered_cons in Ho2 as [_ Hb].
  apply elem_of_app in Hc as [Hc|Hc]; [left; apply H12; set_solver|right; by apply Hb].
Qed.

(** Free-list words lie in the payload of free blocks. *)
Lemma nodes_fn bs x :
  nodes (fn bs) x -> exists c, c ∈ bs /\ used c = false /\ span (ba c + 8) 8 x.
Proof. intros (f & (c & -> & Hc & Hu)%elem_of_fn & Hx). by exists c. Qed.

(** A block of at least 32 bytes keeps its tags apart from its free-list word. *)
Lemma tags_node a n x : 32 <= n -> tags a n x -> ~ span (a + 8) 8 x.
Proof. unfold tags, span. lia. Qed.

Lemma tags_bytes a n x : 32 <= n -> tags a n x -> span a n x.
Proof. unfold tags, span. lia. Qed.

(** Tags of a block are not touched by free-list words of blocks in order with it. *)
Lemma tags_nodes m c l x :
  good m c -> (forall d, d ∈ l -> d = c \/ before c d \/ before d c) -> (forall d, d ∈ l -> 32 <= bn d) ->
  tags (ba c) (bn c) x -> ~ nodes (fn l) x.
Proof.
  intros (H0 & H32 & _)%good_range Hd Hn Ht (d & Hdl & _ & Hx)%nodes_fn. specialize (Hn d Hdl).
  destruct (Hd d Hdl) as [->|Hb]; [by eapply tags_node|].
  apply tags_bytes in Ht; [|done]. unfold before, span in *. lia.
Qed.

Lemma ordered_pair bs c d : ordered bs -> c ∈ bs -> d ∈ bs -> d = c \/ before c d \/ before d c.
Proof.
  induction bs as [|b bs IH]; intros Ho Hc Hd; [set_solver|]. apply ordered_cons in Ho as [Ho Hb].
  apply elem_of_cons in Hc as [->|Hc], Hd as [->|Hd]; [by left|right; left; by apply Hb|right; right; by apply Hb|by apply IH].
Qed.

Lemma mid_pair m head l1 b l2 c d :
  mid m head l1 b l2 -> c ∈ l1 ++ l2 -> d ∈ l1 ++ l2 -> d = c \/ before c d \/ before d c.
Proof.
  intros Hm Hc Hd. eapply ordered_pair; [apply Hm|set_solver|set_solver].
Qed.

(** Writes inside the middle block do not matter to the rest. *)
Lemma mid_write m m' head l1 b l2 :
  mid m head l1 b l2 -> only (bytes b) m m' -> mid m' head l1 b l2.
Proof.
  intros Hm Ho. split.
  - intros c Hc. pose proof (md_good _ _ _ _ _ Hm c Hc) as Hg. eapply good_frame; [exact Ho| |done].
    intros x Hx. pose proof (good_range _ _ Hg). apply tags_bytes in Hx; [|lia].
    destruct (mid_sides _ _ _ _ _ _ Hm Hc); unfold before, bytes, span in *; lia.
  - apply Hm.
  - eapply chain_frame; [exact Ho| |apply Hm]. rewrite <- fn_app. intros x (c & Hc & _ & Hx)%nodes_fn.
    pose proof (good_range _ _ (md_good _ _ _ _ _ Hm c Hc)).
    destruct (mid_sides _ _ _ _ _ _ Hm Hc); unfold before, bytes, span in *; lia.
  - apply Hm.
Qed.

(** The middle block may be renamed: only its place matters. *)
Lemma mid_place m head l1 b b' l2 :
  mid m head l1 b l2 -> ba b' = ba b -> bn b' = bn b -> mid m head l1 b' l2.
Proof.
  intros [Hg Ho Hc Hr] E1 E2. split; [done| |done|by rewrite E1, E2].
  eapply (ordered_replace l1 [b] [b'] l2); [exact Ho|repeat constructor|].
  intros d ->%list_elem_of_singleton. exists b, b. split_and!; [set_solver|set_solver|lia|lia].
Qed.

Lemma spaced_mid m head l1 b l2 :
  mid m head l1 b l2 -> used b = false -> spaced (fn l1 ++ (ba b + 8) :: fn l2) /\ addresses (fn l1 ++ (ba b + 8) :: fn l2).
Proof.
  intros Hm Hb. rewrite <- fn_cons_free by done. rewrite <- fn_app.
  assert (forall c, c ∈ l1 ++ b :: l2 -> 0 < ba c /\ 32 <= bn c /\ ba c + bn c <= 2 ^ 64) as Hr.
  { intros c Hc. destruct (decide (c = b)) as [->|]; [apply Hm|].
    apply (good_range m), (md_good _ _ _ _ _ Hm). set_solver. }
  split.
  - apply fn_spaced; [apply Hm|]. intros c Hc. by apply Hr.
  - intros f (c & -> & Hc & _)%elem_of_fn. specialize (Hr c Hc). lia.
Qed.

(** Linking the middle block back. *)
Lemma mid_close fuel m head l1 b l2 :
  mid m head l1 b l2 -> used b = false -> good m b -> (length (fn l1) < fuel)%nat ->
  exists head' m', add_to_free_list fuel (ba b + 8) (head, m) = Some (head', m')
    /\ core m' head' (l1 ++ b :: l2) /\ only (nodes (fn (b :: l1))) m m'.
Proof.
  intros Hm Hb Hg Hf. destruct (spaced_mid _ _ _ _ _ Hm Hb) as [Hsp Had].
  destruct (add_spec fuel m head (fn l1) (ba b + 8) (fn l2) (md_chain _ _ _ _ _ Hm) Hsp Had Hf)
    as (head' & m' & E & Hc & Ho). exists head', m'. rewrite <- (fn_cons_free b l1) in Ho by done.
  split_and!; [done| |done]. split.
  - assert (forall c, c ∈ l1 ++ b :: l2 -> good m c) as Hall.
    { intros c Hcl. destruct (decide (c = b)) as [->|]; [done|]. apply (md_good _ _ _ _ _ Hm). set_solver. }
    intros c Hcl. eapply good_frame; [exact Ho| |by apply Hall]. intros x Hx.
    apply (tags_nodes m c); [by apply Hall| | |done].
    + intros d Hd. eapply ordered_pair; [apply Hm|done|set_solver].
    + intros d Hd. apply (good_range m), Hall. set_solver.
  - apply Hm.
  - by rewrite fn_app, fn_cons_free.
Qed.

(** Unlinking a free block. *)
Lemma unlink fuel m head A c B bs :
  chain m head (fn (A ++ c :: B)) -> ordered bs -> ordered (A ++ c :: B) ->
  (forall d, d ∈ A ++ c :: B -> d ∈ bs /\ good m d) ->
  used c = false -> (length (fn A) < fuel)%nat ->
  exists head' m', remove_from_free_list fuel (ba c + 8) (head, m) = Some (head', m')
    /\ chain m' head' (fn A ++ fn B) /\ only (nodes (fn A)) m m'
    /\ (forall d, d ∈ bs -> good m d -> good m' d).
Proof.
  intros Hc Ho HoA Hin Hu Hf. rewrite fn_app, fn_cons_free in Hc by done.
  assert (spaced (fn A ++ (ba c + 8) :: fn B)) as Hsp.
  { rewrite <- fn_cons_free, <- fn_app by done. apply fn_spaced; [done|].
    intros d Hd. apply (good_range m), Hin, Hd. }
  assert (addresses (fn A ++ (ba c + 8) :: fn B)) as Had.
  { rewrite <- fn_cons_free, <- fn_app by done. intros f (d & -> & Hd & _)%elem_of_fn.
    destruct (Hin d Hd) as [_ Hg%good_range]. lia. }
  destruct (remove_spec fuel m head (fn A) (ba c + 8) (fn B) Hc Hsp Had Hf) as (head' & m' & E & Hc' & Ho').
  exists head', m'. split_and!; [done|done|done|]. intros d Hd Hg. eapply good_frame; [exact Ho'| |done].
  intros x Hx. apply (tags_nodes m d); [done| | |done].
  - intros e He. eapply ordered_pair; [exact Ho|done|]. apply Hin. set_solver.
  - intros e He. apply (good_range m), Hin. set_solver.
Qed.

Lemma core_open fuel m head l1 b l2 :
  core m head (l1 ++ b :: l2) -> used b = false -> (length (fn l1) < fuel)%nat ->
  exists head' m', remove_from_free_list fuel (ba b + 8) (head, m) = Some (head', m')
    /\ mid m' head' l1 b l2 /\ good m' b /\ only (nodes (fn l1)) m m'.
Proof.
  intros [Hg Ho Hc] Hb Hf.
  destruct (unlink fuel m head l1 b l2 (l1 ++ b :: l2) Hc Ho Ho) as (head' & m' & E & Hc' & Ho' & Hgood);
    [intros d Hd; split; [done|by apply Hg]|done|done|].
  exists head', m'. split_and!; [done| |apply Hgood; [set_solver|apply Hg; set_solver]|done].
  split; [|done|done|].
  - intros c Hcl. apply Hgood; [set_solver|]. apply Hg. set_solver.
  - apply (good_range m), Hg. set_solver.
Qed.

(** Merging the middle block with a free neighbour. *)
Lemma mid_merge_next fuel m head l1 b c l2 :
  mid m head l1 b (c :: l2) -> used c = false -> ba c = ba b + bn b -> good m b -> (length (fn l1) < fuel)%nat ->
  exists head' m', remove_from_free_list fuel (ba c + 8) (head, m) = Some (head', m')
    /\ mid m' head' l1 (HB (ba b) (bn b + bn c) None) l2 /\ good m' b /\ good m' c /\ only (nodes (fn l1)) m m'.
Proof.
  intros Hm Hc E Hgb Hf. pose proof (md_order _ _ _ _ _ Hm) as Ho.
  assert (ordered (l1 ++ c :: l2)) as Ho1.
  { apply ordered_app in Ho as (? & [? ?]%ordered_cons & ?). apply ordered_app. split_and!; [done|done|set_solver]. }
  destruct (unlink fuel m head l1 c l2 (l1 ++ b :: c :: l2)) as (head' & m' & Er & Hc' & Ho' & Hgood); try done.
  { rewrite fn_app. apply Hm. }
  { intros d Hd. split; [set_solver|]. apply (md_good _ _ _ _ _ Hm). done. }
  pose proof (good_range _ _ Hgb). pose proof (good_range _ _ (md_good _ _ _ _ _ Hm c ltac:(set_solver))).
  exists head', m'. split_and!; [done| |apply Hgood; [set_solver|done]| |done].
  - split; cbn [ba bn].
    + intros d Hd. apply Hgood; [set_solver|]. apply (md_good _ _ _ _ _ Hm). set_solver.
    + apply (ordered_replace l1 [b; c] [HB (ba b) (bn b + bn c) None] l2); [exact Ho|repeat constructor|].
      intros d ->%list_elem_of_singleton. exists b, c. cbn. split_and!; [set_solver|set_solver|lia|lia].
    + done.
    + lia.
  - apply Hgood; [set_solver|]. apply (md_good _ _ _ _ _ Hm). set_solver.
Qed.

Lemma mid_merge_prev fuel m head l1 c b l2 :
  mid m head (l1 ++ [c]) b l2 -> used c = false -> ba b = ba c + bn c -> good m b -> (length (fn l1) < fuel)%nat ->
  exists head' m', remove_from_free_list fuel (ba c + 8) (head, m) = Some (head', m')
    /\ mid m' head' l1 (HB (ba c) (bn c + bn b) None) l2 /\ good m' b /\ good m' c /\ only (nodes (fn l1)) m m'.
Proof.
  intros Hm Hc E Hgb Hf. pose proof (md_order _ _ _ _ _ Hm) as Ho. rewrite <- app_assoc in Ho. cbn [app] in Ho.
  assert (ordered (l1 ++ c :: l2)) as Ho1.
  { apply ordered_app in Ho as (? & [[? ?]%ordered_cons ?]%ordered_cons & ?). apply ordered_app.
    split_and!; [done|apply ordered_cons; set_solver|set_solver]. }
  destruct (unlink fuel m head l1 c l2 (l1 ++ c :: b :: l2)) as (head' & m' & Er & Hc' & Ho' & Hgood); try done.
  { rewrite fn_app, fn_cons_free by done. pose proof (md_chain _ _ _ _ _ Hm) as Hch.
    rewrite fn_app, fn_cons_free, <- app_assoc in Hch by done. exact Hch. }
  { intros d Hd. split; [set_solver|]. apply (md_good _ _ _ _ _ Hm). set_solver. }
  pose proof (good_range _ _ Hgb). pose proof (good_range _ _ (md_good _ _ _ _ _ Hm c ltac:(set_solver))).
  exists head', m'. split_and!; [done| |apply Hgood; [set_solver|done]| |done].
  - split; cbn [ba bn].
    + intros d Hd. apply Hgood; [set_solver|]. apply (md_good _ _ _ _ _ Hm). set_solver.
    + apply (ordered_replace l1 [c; b] [HB (ba c) (bn c + bn b) None] l2); [exact Ho|repeat constructor|].
      intros d ->%list_elem_of_singleton. exists c, b. cbn. split_and!; [set_solver|set_solver|lia|lia].
    + done.
    + lia.
  - apply Hgood; [set_solver|]. apply (md_good _ _ _ _ _ Hm). set_solver.
Qed.

(** * Placing a request in a block *)

Lemma heap_align_up_spec v k :
  0 <= v < 2 ^ 64 -> 0 <= k < 64 ->
  let u := align_up v (2 ^ k) in
  u mod 2 ^ k = 0 /\ ((v <= u < 2 ^ 64) \/ (u = 0 /\ 2 ^ 64 < v + 2 ^ k)).
Proof.
  intros Hv Hk u. assert (0 < 2 ^ k) as HP by lia.
  assert (2 ^ k < 2 ^ 64) as HP64 by (apply Z.pow_lt_mono_r; lia).
  subst u. unfold align_up. rewrite (wrap_small 64 (2 ^ k - 1)) by lia.
  rewrite land_mask_down by (lia || apply wrap64_range).
  split; [apply Z.mod_mul; lia|]. generalize dependent (2 ^ k). intros P HP HP64.
  destruct (Z.lt_ge_cases (v + P - 1) (2 ^ 64)) as [Hs|Hl].
  - left. rewrite wrap_small by lia. pose proof (Z.div_mod (v + P - 1) P ltac:(lia)).
    pose proof (Z.mod_pos_bound (v + P - 1) P HP). lia.
  - right. unfold wrap. rewrite <- (Z.mod_unique (v + P - 1) (2 ^ 64) 1 (v + P - 1 - 2 ^ 64)) by lia.
    rewrite Z.div_small by lia. lia.
Qed.

(** What a request takes from a block it fits in. *)
Lemma placement a n size k :
  0 < a -> a + n <= 2 ^ 64 -> 32 <= n -> Z.even a = true -> 3 <= k < 64 ->
  0 < size -> Z.even size = true -> size + 8 < a ->
  let u := user_ptr_of a (2 ^ k) in
  let t := total_used_of a size (2 ^ k) in
  t <= n ->
  u mod 2 ^ k = 0 /\ a + 16 <= u /\ u + size + 8 <= a + t /\ 32 <= t /\ Z.even t = true /\ u < 2 ^ 64.
Proof.
  intros Ha Hn H32 Hea Hk Hs Hes Hsa u t. subst t. unfold total_used_of. cbv zeta. fold u.
  assert (block_payload a +64 word_size = a + 16) as Ep.
  { unfold block_payload, word_size. rewrite !wrap_small; [lia|lia|rewrite wrap_small by lia; lia]. }
  destruct (heap_align_up_spec (a + 16) k ltac:(lia) ltac:(lia)) as [Hmod Hcase].
  assert (u = align_up (a + 16) (2 ^ k)) as Eu by (subst u; unfold user_ptr_of; by rewrite Ep).
  rewrite <- Eu in *. clearbody u. unfold min_block_size, word_size in *.
  assert (Z.even u = true) as Heu.
  { apply Z.mod_divide in Hmod as [q ->]; [|lia]. apply Z.even_spec. exists (q * 2 ^ (k - 1)).
    replace (2 ^ k) with (2 * 2 ^ (k - 1)) by (rewrite <- Z.pow_succ_r by lia; f_equal; lia). lia. }
  destruct Hcase as [Hu|[-> _]].
  - rewrite (wrap_small 64 (u - a + size + 8)) by lia.
    assert (Z.even (u - a + size + 8) = true) as Het.
    { rewrite !Z.even_add, Z.even_sub, Heu, Hea, Hes. done. }
    destruct (Z.ltb_spec (u - a + size + 8) 32); intros; split_and!; (done || lia).
  - unfold wrap. rewrite <- (Z.mod_unique (0 - a + size + 8) (2 ^ 64) (-1) (2 ^ 64 - a + size + 8)) by lia.
    destruct (Z.ltb_spec (2 ^ 64 - a + size + 8) 32); lia.
Qed.

(** A block with no place for a request: at no aligned address do the shift
    word, the request and the footer fit. *)
Definition no_room (size k : Z) (a n : Z) : Prop :=
  forall u, u mod 2 ^ k = 0 -> a + 16 <= u -> a + n < u + size + 8.

Lemma no_placement a n size k :
  0 < a -> a + n <= 2 ^ 64 -> 32 <= n -> 3 <= k < 64 -> 0 < size -> size + 8 < a ->
  n < total_used_of a size (2 ^ k) -> no_room size k a n.
Proof.
  intros Ha Hn H32 Hk Hs Hsa Hlt u Hu Hau. unfold total_used_of in Hlt. cbv zeta in Hlt.
  assert (block_payload a +64 word_size = a + 16) as Ep.
  { unfold block_payload, word_size. rewrite !wrap_small; [lia|lia|rewrite wrap_small by lia; lia]. }
  destruct (heap_align_up_spec (a + 16) k ltac:(lia) ltac:(lia)) as [Hmod Hcase].
  unfold user_ptr_of in Hlt. rewrite Ep in Hlt. unfold align_up in *.
  rewrite (wrap_small 64 (2 ^ k - 1)) in * by (pose proof (Z.pow_lt_mono_r 2 k 64); lia).
  rewrite land_mask_down in * by (lia || apply wrap64_range).
  assert (0 < 2 ^ k) as HP by lia. assert (2 ^ k < 2 ^ 64) as HP64 by (apply Z.pow_lt_mono_r; lia).
  unfold min_block_size, word_size in *. destruct (Z.lt_ge_cases u (2 ^ 64)) as [Hu64|]; [|lia].
  set (w := wrap 64 (a + 16 + 2 ^ k - 1) / 2 ^ k * 2 ^ k) in *.
  assert (w <= u /\ a <= w) as [Hwu Haw].
  { destruct Hcase as [Hc|[Hc Hbig]].
    - split; [|lia]. subst w. apply Z.mod_divide in Hu as [q ->]; [|lia]. generalize dependent (2 ^ k). intros P **.
      unfold wrap in *. destruct (Z.lt_ge_cases (a + 16 + P - 1) (2 ^ 64)).
      + rewrite Z.mod_small by lia. apply Z.mul_le_mono_nonneg_r; [lia|]. apply Z.lt_succ_r, Z.div_lt_upper_bound; lia.
      + exfalso. rewrite <- (Z.mod_unique (a + 16 + P - 1) (2 ^ 64) 1 (a + 16 + P - 1 - 2 ^ 64)) in Hc by lia.
        rewrite Z.div_small in Hc by lia. lia.
    - exfalso. apply Z.mod_divide in Hu as [q ->]; [|lia].
      assert (2 ^ 64 = 2 ^ (64 - k) * 2 ^ k) as E by (rewrite <- Z.pow_add_r by lia; f_equal; lia).
      assert (q < 2 ^ (64 - k)) by (apply (Z.mul_lt_mono_pos_r (2 ^ k)); lia).
      assert (q * 2 ^ k + 2 ^ k <= 2 ^ 64); [|lia]. rewrite E. replace (q * 2 ^ k + 2 ^ k) with ((q + 1) * 2 ^ k) by lia.
      apply Z.mul_le_mono_nonneg_r; lia. }
  clearbody w. rewrite (wrap_small 64 (w - a + size + 8)) in Hlt by lia.
  destruct (Z.ltb_spec (w - a + size + 8) 32); lia.
Qed.

(** ** Taking a request out of a free block *)

Lemma elem_of_mid {A} (l1 l2 : list A) b c : c ∈ l1 ++ b :: l2 <-> c = b \/ c ∈ l1 ++ l2.
Proof. set_solver. Qed.

Lemma core_write P m m' head bs :
  core m head bs -> only P m m' ->
  (forall x c, c ∈ bs -> tags (ba c) (bn c) x \/ (used c = false /\ span (ba c + 8) 8 x) -> ~ P x) ->
  core m' head bs.
Proof.
  intros [Hg Ho Hc] Hw Hd. split; [|done|].
  - intros c Hcl. eapply good_frame; [exact Hw| |by apply Hg]. intros x Hx. eapply Hd; [done|by left].
  - eapply chain_frame; [exact Hw| |done]. intros x (c & Hcl & Hu & Hx)%nodes_fn. eapply Hd; [done|by right].
Qed.

(** Blocks of an ordered list that both hold a byte are the same. *)
Lemma bytes_unique bs c d x : ordered bs -> c ∈ bs -> d ∈ bs -> bytes c x -> bytes d x -> c = d.
Proof.
  intros Ho Hc Hd Hx Hy. unfold bytes, span, before in *.
  destruct (ordered_pair bs c d Ho Hc Hd) as [->|[Hb|Hb]]; [done|unfold before in Hb; lia..].
Qed.

Lemma free_part_nodes l1 bs x :
  (forall c, c ∈ l1 -> c ∈ bs /\ 32 <= bn c) -> nodes (fn l1) x -> free_part bs x.
Proof.
  intros Hin (c & Hc & Hu & Hx)%nodes_fn. destruct (Hin c Hc). exists c. split_and!; [done|done|].
  unfold bytes, span in *. lia.
Qed.

(** The blocks that stand in the place of a free block after carving: the
    allocated one, and the free remainder when it is large enough. *)
Definition carved (b : hb) (u size t : Z) : list hb :=
  if min_block_size <=? bn b - t
  then [HB (ba b) t (Some (u, size)); HB (ba b + t) (bn b - t) None]
  else [HB (ba b) (bn b) (Some (u, size))].

Lemma good_write (P : Z -> Prop) m m' c b :
  only P m m' -> good m c -> (forall x, P x -> bytes b x) -> before c b \/ before b c -> good m' c.
Proof.
  intros Ho Hg Hin Hs. eapply good_frame; [exact Ho| |done]. intros x Hx Hp%Hin.
  pose proof (good_range _ _ Hg). apply tags_bytes in Hx; [|lia].
  destruct Hs; unfold before, bytes, span in *; lia.
Qed.

Lemma carve_split fuel m head l1 b l2 t u size :
  mid m head l1 b l2 -> Z.even (ba b) = true -> Z.even (bn b) = true -> Z.even t = true ->
  32 <= t -> 32 <= bn b - t -> (length (fn l1) < fuel)%nat ->
  exists head' m',
    add_to_free_list fuel (block_payload (ba b +64 t))
      (head, set_block (ba b +64 t) (bn b - t) false (set_block (ba b) t true m)) = Some (head', m')
    /\ core m' head' (l1 ++ [HB (ba b) t (Some (u, size)); HB (ba b + t) (bn b - t) None] ++ l2)
    /\ only (fun x => nodes (fn l1) x \/ bytes b x) m m'.
Proof.
  intros Hm Hea Hen Het Ht Hr Hf. destruct (md_range _ _ _ _ _ Hm) as (Ha & Hn & Hh).
  rewrite (wrap_small 64 (ba b + t)) by lia. unfold block_payload, word_size. rewrite wrap_small by lia.
  destruct (set_block_spec m (ba b) t true Het) as [B1 O1]; [done|done|lia|].
  set (m1 := set_block (ba b) t true m) in *.
  destruct (set_block_spec m1 (ba b + t) (bn b - t) false) as [B2 O2];
    [by rewrite Z.even_sub, Hen, Het|done|lia|lia|].
  set (m2 := set_block (ba b + t) (bn b - t) false m1) in *. clearbody m1 m2.
  assert (only (bytes b) m m2) as O12.
  { eapply only_weaken; [|eapply only_trans; [exact O1|exact O2]]. unfold tags, bytes, span. lia. }
  set (B := HB (ba b) t (Some (u, size))). set (R := HB (ba b + t) (bn b - t) None).
  assert (good m2 B) as GB.
  { split; [|done]. eapply blk_frame; [exact O2| |exact B1]. unfold tags, span. cbn. lia. }
  assert (good m2 R) as GR by (split; [done|cbn; by rewrite Z.even_add, Hea, Het]).
  pose proof (mid_write _ _ _ _ _ _ Hm O12) as Hm2.
  assert (mid m2 head (l1 ++ [B]) R l2) as HmR.
  { split.
    - intros c Hc. rewrite <- app_assoc in Hc. destruct (proj1 (elem_of_mid _ _ _ _) Hc) as [->|Hc']; [done|].
      by apply (md_good _ _ _ _ _ Hm2).
    - rewrite <- app_assoc. apply (ordered_replace l1 [b] [B; R] l2); [apply Hm|..].
      + repeat constructor. unfold before. cbn. lia.
      + intros d Hd. exists b, b. split_and!; [set_solver|set_solver|..];
          apply elem_of_cons in Hd as [->| ->%list_elem_of_singleton]; cbn; lia.
    - rewrite fn_app, (fn_cons_used B []) by done. change (fn []) with (@nil Z). rewrite app_nil_r. apply Hm2.
    - cbn. lia. }
  destruct (mid_close fuel m2 head (l1 ++ [B]) R l2 HmR eq_refl GR) as (head' & m' & E & Hcore & Ho).
  { rewrite fn_app, (fn_cons_used B []) by done. change (fn []) with (@nil Z). by rewrite app_nil_r. }
  exists head', m'. split_and!; [exact E|by rewrite <- app_assoc in Hcore|].
  eapply only_weaken; [|eapply only_trans; [exact O12|exact Ho]]. intros x [Hx|Hx]; [by right|].
  apply nodes_fn in Hx as (c & [->|Hc]%elem_of_cons & Hu & Hx).
  - right. unfold bytes, span in *. cbn in Hx. lia.
  - apply elem_of_app in Hc as [Hc| ->%list_elem_of_singleton]; [|done].
    left. exists (ba c + 8). split; [apply elem_of_fn; by exists c|done].
Qed.

Lemma carve_whole m head l1 b l2 u size :
  mid m head l1 b l2 -> Z.even (ba b) = true -> Z.even (bn b) = true ->
  core (set_block (ba b) (bn b) true m) head (l1 ++ [HB (ba b) (bn b) (Some (u, size))] ++ l2)
  /\ only (bytes b) m (set_block (ba b) (bn b) true m).
Proof.
  intros Hm Hea Hen. destruct (md_range _ _ _ _ _ Hm) as (Ha & Hn & Hh).
  destruct (set_block_spec m (ba b) (bn b) true Hen) as [B1 O1]; [done|done|done|].
  set (m1 := set_block (ba b) (bn b) true m) in *. clearbody m1. set (B := HB (ba b) (bn b) (Some (u, size))).
  assert (only (bytes b) m m1) as O by (eapply only_weaken; [|exact O1]; unfold tags, bytes, span; lia).
  pose proof (mid_write _ _ _ _ _ _ Hm O) as Hm1. split; [|done]. split.
  - intros c [->|Hc]%elem_of_mid; [by split|]. by apply (md_good _ _ _ _ _ Hm1).
  - eapply (mid_place _ _ _ _ B); [exact Hm1|done|done].
  - cbn [app]. rewrite fn_app, fn_cons_used by done. apply Hm1.
Qed.

(** The shift word before a user's pointer. *)
Lemma shift_spec m head l1 b rest l2 u size :
  core m head (l1 ++ (b :: rest) ++ l2) -> bu b = Some (u, size) ->
  ba b + 16 <= u -> 0 < size -> u + size + 8 <= ba b + bn b ->
  let m' := write_shift u (u -64 (ba b + 8)) m in
  core m' head (l1 ++ (b :: rest) ++ l2) /\ owned m' b /\ only (bytes b) m m'.
Proof.
  intros Hc Hu H16 Hs Hle m'.
  pose proof (good_range _ _ (co_good _ _ _ Hc b ltac:(set_solver))) as (Ha & Hn & Hh).
  subst m'. unfold write_shift, word_size. rewrite !wrap_small by lia.
  assert (only (span (u - 8) 8) m (st64 m (u - 8) (u - (ba b + 8)))) as Ho by exact (st_only 8 _ _ _).
  split_and!.
  - eapply core_write; [exact Hc|exact Ho|]. intros x c Hcl Hx Hy.
    destruct (decide (c = b)) as [->|Hne].
    + destruct Hx as [Hx|[Hf _]]; [|by unfold used in Hf; rewrite Hu in Hf]. unfold tags, span in *. lia.
    + apply Hne. apply (bytes_unique _ c b x (co_order _ _ _ Hc)); [done|set_solver|..].
      * pose proof (good_range _ _ (co_good _ _ _ Hc c Hcl)). unfold tags, bytes, span in *. lia.
      * unfold bytes, span in *. lia.
  - unfold owned. rewrite Hu. split_and!; [done|done|done|]. rewrite ld64_st64 by lia. lia.
  - eapply only_weaken; [|exact Ho]. unfold bytes, span. lia.
Qed.

Lemma carve_spec fuel m head l1 b l2 size k :
  core m head (l1 ++ b :: l2) -> used b = false -> 3 <= k < 64 ->
  0 < size -> Z.even size = true -> size + 8 < ba b ->
  total_used_of (ba b) size (2 ^ k) <= bn b -> (length l1 < fuel)%nat ->
  let u := user_ptr_of (ba b) (2 ^ k) in
  exists head' m' b' rest,
    carve fuel (ba b + 8) size (2 ^ k) (head, m) = Some (u, (head', m'))
    /\ carved b u size (total_used_of (ba b) size (2 ^ k)) = b' :: rest
    /\ core m' head' (l1 ++ (b' :: rest) ++ l2) /\ owned m' b'
    /\ u mod 2 ^ k = 0 /\ 0 < u < 2 ^ 64
    /\ only (fun x => nodes (fn l1) x \/ bytes b x) m m'.
Proof.
  intros Hc Hb Hk Hs Hes Hsa Hfit Hf u.
  pose proof (co_good _ _ _ Hc b ltac:(set_solver)) as Hgb. pose proof (good_range _ _ Hgb) as (Ha & Hn & Hh).
  assert (Z.even (bn b) = true) as Hen by apply Hgb. assert (Z.even (ba b) = true) as Hea by apply Hgb.
  destruct (placement (ba b) (bn b) size k Ha Hh Hn Hea Hk Hs Hes Hsa Hfit)
    as (Hmod & Hlow & Hhigh & Ht & Het & Hu). fold u in Hmod, Hlow, Hhigh, Hu.
  set (t := total_used_of (ba b) size (2 ^ k)) in *.
  assert (length (fn l1) < fuel)%nat as Hf1 by (pose proof (length_fn l1); lia).
  destruct (core_open fuel m head l1 b l2 Hc Hb Hf1) as (h1 & m1 & E1 & Hmid & Hg1 & O1).
  unfold carve. cbn [fst snd].
  assert (block_header (ba b + 8) = ba b) as -> by (unfold block_header, word_size; rewrite wrap_small; lia).
  destruct (blk_size _ _ _ _ (g_blk _ _ Hgb)) as [-> _].
  assert (block_payload (ba b) = ba b + 8) as -> by (unfold block_payload, word_size; rewrite wrap_small; lia).
  fold u t. rewrite E1. cbn [mbind option_bind fst snd].
  assert (exists h2 m2 b' rest,
    (if min_block_size <=? bn b - t
     then add_to_free_list fuel (block_payload (ba b +64 t))
            (h1, set_block (ba b +64 t) (bn b - t) false (set_block (ba b) t true m1))
     else Some (h1, set_block (ba b) (bn b) true m1)) = Some (h2, m2)
    /\ carved b u size t = b' :: rest /\ ba b' = ba b /\ t <= bn b' <= bn b /\ bu b' = Some (u, size)
    /\ core m2 h2 (l1 ++ (b' :: rest) ++ l2) /\ only (fun x => nodes (fn l1) x \/ bytes b x) m1 m2)
    as (h2 & m2 & b' & rest & -> & Ecar & Eba & Hbn & Ebu & Hcore & O2).
  { unfold carved, min_block_size. destruct (Z.leb_spec 32 (bn b - t)).
    - destruct (carve_split fuel m1 h1 l1 b l2 t u size Hmid Hea Hen Het Ht) as (h2 & m2 & E2 & C2 & O2);
        [done|done|]. exists h2, m2. eexists _, _. split_and!; [exact E2|reflexivity|done|cbn; lia|cbn; lia|done|exact C2|exact O2].
    - destruct (carve_whole m1 h1 l1 b l2 u size Hmid Hea Hen) as [C2 O2].
      eexists _, _, _, _. split_and!; [reflexivity|reflexivity|done|cbn; lia|cbn; lia|done|exact C2|].
      eapply only_weaken; [|exact O2]. intros x Hx. by right. }
  cbn [mbind option_bind fst snd].
  destruct (shift_spec m2 h2 l1 b' rest l2 u size Hcore Ebu) as (C3 & Own & O3); [lia|done|lia|].
  rewrite Eba in C3, Own, O3.
  exists h2, (write_shift u (u -64 (ba b + 8)) m2), b', rest. split_and!; try done; [lia|].
  eapply only_weaken; [|eapply only_trans; [exact O1|eapply only_trans; [exact O2|exact O3]]].
  intros x Hx. cbn in Hx. destruct Hx as [Hx|[Hx|Hx]]; [by left|done|right].
  unfold bytes, span in *. lia.
Qed.

(** The search returns the first free block a request fits in. *)
Lemma find_fit_spec size al m bs : forall fuel head,
  (forall c, c ∈ bs -> good m c) -> chain m head (fn bs) -> (length bs < fuel)%nat ->
  (exists l1 b l2, bs = l1 ++ b :: l2 /\ used b = false /\ total_used_of (ba b) size al <= bn b
     /\ find_fit fuel size al m head = Some (Some (ba b + 8)))
  \/ (find_fit fuel size al m head = Some None
      /\ forall c, c ∈ bs -> used c = false -> bn c < total_used_of (ba c) size al).
Proof.
  induction bs as [|b bs IH]; intros fuel head Hg Hc Hf; (destruct fuel as [|fuel]; cbn [length] in Hf; [lia|]).
  - cbn in Hc. subst. right. split; [done|set_solver].
  - destruct (used b) eqn:Hu.
    + rewrite fn_cons_used in Hc by done. destruct (IH (S fuel) head) as [(l1 & c & l2 & -> & H')|[H' Hno]]; [set_solver|done|lia|left|right].
      * by exists (b :: l1), c, l2.
      * split; [done|]. intros c [->|Hin]%elem_of_cons Hf'; [congruence|by apply Hno].
    + rewrite fn_cons_free in Hc by done. cbn [chain] in Hc. destruct Hc as (-> & Hne & Hc). cbn [find_fit].
      pose proof (Hg b ltac:(set_solver)) as Hgb. pose proof (good_range _ _ Hgb).
      assert (block_header (ba b + 8) = ba b) as -> by (unfold block_header, word_size; rewrite wrap_small; lia).
      destruct (blk_size _ _ _ _ (g_blk _ _ Hgb)) as [-> _]. replace (ba b + 8 =? 0) with false by lia.
      destruct (Z.leb_spec (total_used_of (ba b) size al) (bn b)); [left; by exists [], b, bs|].
      destruct (IH fuel (ld64 m (ba b + 8))) as [(l1 & c & l2 & -> & H')|[H' Hno]]; [set_solver|done|lia|left|right].
      * by exists (b :: l1), c, l2.
      * split; [done|]. intros c [->|Hin]%elem_of_cons Hf'; [lia|by apply Hno].
Qed.

(** * The heap invariant *)

Section Invariant.
Context {S : Type} `{PageAlloc S}.
Implicit Types (s : heap S).

(** A region is a run of [grow_page_count] pages in use, seen through the
    direct map. *)
Definition region_ok s (r : HeapRegion) : Prop :=
  exists page, r_base r = hhdm_base s + page * page_size
    /\ r_limit r = r_base r + grow_page_count * page_size
    /\ 0 <= page /\ page + grow_page_count <= max_managed_pages
    /\ forall q, page <= q < page + grow_page_count -> pa_used (hpages s) q = true.

(** An address in a region that starts where another region ends. *)
Definition seam (rs : list HeapRegion) (a : Z) : Prop :=
  exists r, r ∈ rs /\ in_region a r = true /\ existsb (in_region (r_base r - 1)) rs = true.

(** Two free blocks never lie side by side, except in a region that directly
    follows another one: a block is merged with the one after it whatever its
    region, but with the one before it only inside of its own region, and a
    new region is not merged at all. *)
Definition coalesced (rs : list HeapRegion) (bs : list hb) : Prop :=
  forall c d, c ∈ bs -> d ∈ bs -> used c = false -> used d = false -> ba d = ba c + bn c -> seam rs (ba d).

Record heap_ok s (bs : list hb) : Prop := {
  ho_core : core (hmem s) (free_list s) bs;
  ho_owned : forall c, c ∈ bs -> owned (hmem s) c;
  ho_tile : forall x, existsb (in_region x) (regions s) = true <-> exists c, c ∈ bs /\ bytes c x;
  ho_coalesced : coalesced (regions s) bs;
  ho_regions : forall r, r ∈ regions s -> region_ok s r;
  ho_count : Z.of_nat (length (regions s)) <= max_regions;
  ho_pages : pa_wf (hpages s);
  ho_hhdm : hhdm_ok (hhdm_base s);
  ho_top : hhdm_base s + max_managed_pages * page_size < 2 ^ 64;
}.

(** The allocated blocks. *)
Definition live (bs : list hb) : list hb := filter (fun b => used b = true) bs.

(** The contents of the allocated blocks did not change. *)
Definition same_data (bs : list hb) s s' : Prop :=
  forall c x, c ∈ live bs -> bytes c x -> aget (hmem s') x = aget (hmem s) x.

Lemma live_app l1 l2 : live (l1 ++ l2) = live l1 ++ live l2.
Proof. apply filter_app. Qed.

Lemma ordered_insert bs b :
  ordered bs -> 0 < bn b -> (forall c, c ∈ bs -> 0 < bn c /\ (before c b \/ before b c)) ->
  exists l1 l2, bs = l1 ++ l2 /\ ordered (l1 ++ b :: l2).
Proof.
  intros Ho Hb. induction bs as [|c bs IH]; intros Hc.
  - exists [], []. split; [done|]. repeat constructor.
  - apply ordered_cons in Ho as [Ho Hcd]. destruct (Hc c ltac:(set_solver)) as [Hn [Hcb|Hbc]].
    + destruct IH as (l1 & l2 & -> & Ho'); [done|set_solver|]. exists (c :: l1), l2. split; [done|].
      cbn. apply ordered_cons. split; [done|]. intros d [->|Hd]%elem_of_mid; [done|by apply Hcd].
    + exists [], (c :: bs). split; [done|]. cbn. apply ordered_cons. split; [by apply ordered_cons|].
      intros d [->|Hd]%elem_of_cons; [done|]. specialize (Hcd d Hd). unfold before in *. lia.
Qed.

(** Blocks lie in the regions, and a region that is new to the page allocator
    lies apart from all of them. *)
Lemma fresh_apart s bs page :
  heap_ok s bs -> (forall q, page <= q < page + 16 -> pa_used (hpages s) q = false) ->
  forall c, c ∈ bs -> 0 < bn c /\
    (before c (HB (hhdm_base s + page * 4096) 65536 None) \/ before (HB (hhdm_base s + page * 4096) 65536 None) c).
Proof.
  intros Hok Hfree c Hc. pose proof (good_range _ _ (co_good _ _ _ (ho_core _ _ Hok) c Hc)). split; [lia|].
  unfold before. cbn [ba bn]. set (v := hhdm_base s + page * 4096).
  destruct (Z.le_gt_cases (ba c + bn c) v); [by left|]. destruct (Z.le_gt_cases (v + 65536) (ba c)); [by right|].
  exfalso. set (x := Z.max v (ba c)).
  assert (existsb (in_region x) (regions s) = true) as Hx.
  { apply (ho_tile _ _ Hok). exists c. split; [done|]. unfold bytes, span. subst x. lia. }
  apply existsb_exists in Hx as (r & Hr & Hin). apply list_elem_of_In in Hr.
  destruct (ho_regions _ _ Hok r Hr) as (p & Eb & El & _ & _ & Hused).
  unfold in_region in Hin. bool_to_prop. unfold grow_page_count, page_size in *.
  set (q := (x - hhdm_base s) / 4096).
  assert (page <= q < page + 16) as Hq1 by (subst q v; zlia). assert (p <= q < p + 16) as Hq2 by (subst q; zlia).
  specialize (Hused q Hq2). rewrite (Hfree q Hq1) in Hused. done.
Qed.

Lemma live_free l1 b l2 : used b = false -> live (l1 ++ b :: l2) = live l1 ++ live l2.
Proof. intros Hb. rewrite live_app. f_equal. unfold live. rewrite filter_cons_False; [done|]. by rewrite Hb. Qed.

Lemma elem_of_live c bs : c ∈ live bs <-> c ∈ bs /\ used c = true.
Proof. unfold live. rewrite list_elem_of_filter. naive_solver. Qed.

(** A block stands at one place of the list of live blocks only. *)
Lemma live_unique l1 b l2 k1 k2 :
  ordered (l1 ++ b :: l2) -> (forall c, c ∈ l1 ++ b :: l2 -> 0 < bn c) -> used b = true ->
  live (l1 ++ b :: l2) = k1 ++ b :: k2 -> live l1 ++ live l2 = k1 ++ k2.
Proof.
  intros Ho Hn Hu. rewrite live_app. unfold live at 2. rewrite filter_cons_True by done. fold (live l2).
  apply ordered_app in Ho as (Ho1 & [Ho2 Hb]%ordered_cons & H12).
  assert (forall c, c ∈ live l1 -> c <> b) as N1.
  { intros c [Hc _]%elem_of_live ->. specialize (H12 b b Hc ltac:(set_solver)). specialize (Hn b ltac:(set_solver)).
    unfold before in *. lia. }
  revert k1. generalize dependent (live l1). intros L N1. induction L as [|d L IH]; intros k1 E; destruct k1 as [|e k1].
  - cbn in E. by injection E as ->.
  - cbn in E. injection E as <- E. exfalso.
    assert (b ∈ live l2) as [Hin _]%elem_of_live by (rewrite E; set_solver).
    specialize (Hb b Hin). specialize (Hn b ltac:(set_solver)). unfold before in *. lia.
  - cbn in E. injection E as -> _. by destruct (N1 b ltac:(set_solver)).
  - cbn in E. injection E as <- E. cbn. f_equal. apply IH; [set_solver|done].
Qed.

(** Changes confined to free blocks do not reach the allocated ones. *)
Lemma free_part_live bs c x : ordered bs -> c ∈ live bs -> bytes c x -> ~ free_part bs x.
Proof.
  intros Ho [Hc Hu]%elem_of_live Hx (d & Hd & Hf & Hy).
  rewrite (bytes_unique bs c d x) in Hu by done. congruence.
Qed.

Lemma owned_bytes m m' c :
  owned m c -> (forall x, bytes c x -> aget m' x = aget m x) -> owned m' c.
Proof.
  unfold owned. destruct (bu c) as [[u sz]|]; [|done]. intros (? & ? & ? & <-) Hx. split_and!; [done|done|done|].
  apply ld_frame. intros x Hs. apply Hx. unfold bytes, span in *. lia.
Qed.

(** Ownership carries over to a new block list with the same live blocks. *)
Lemma owned_kept m m' bs bs' :
  (forall c, c ∈ bs -> owned m c) -> (forall c, c ∈ live bs' -> c ∈ live bs) ->
  (forall c x, c ∈ live bs' -> bytes c x -> aget m' x = aget m x) ->
  forall c, c ∈ bs' -> owned m' c.
Proof.
  intros Ho Hl Hx c Hc. destruct (used c) eqn:Hu; [|unfold owned, used in *; by destruct (bu c)].
  assert (c ∈ live bs') as Hcl by (by apply elem_of_live).
  apply (owned_bytes m); [apply Ho; by apply Hl, elem_of_live in Hcl as [? _]|]. intros x. by apply Hx.
Qed.

(** A new region becomes one free block of the list. *)
Lemma region_block fuel m head l1 l2 v :
  core m head (l1 ++ l2) -> ordered (l1 ++ HB v 65536 None :: l2) ->
  0 < v -> v + 65536 < 2 ^ 64 -> Z.even v = true -> (length (fn l1) < fuel)%nat ->
  exists head' m', init_region_as_free_block fuel v 65536 (head, m) = Some (head', m')
    /\ core m' head' (l1 ++ HB v 65536 None :: l2)
    /\ only (fun x => nodes (fn l1) x \/ bytes (HB v 65536 None) x) m m'.
Proof.
  intros [Hg Ho Hc] Hord Hv0 Hv1 Hve Hf. set (b := HB v 65536 None) in *.
  assert (mid m head l1 b l2) as Hm by (split; [done|done|by rewrite <- fn_app|cbn; lia]).
  destruct (set_block_spec m v 65536 false eq_refl ltac:(done) Hv0 ltac:(lia)) as [B O].
  unfold init_region_as_free_block. replace (region_is_empty 65536) with false by done. cbn [fst snd].
  set (m1 := set_block v 65536 false m) in *. clearbody m1.
  assert (only (bytes b) m m1) as O1 by (eapply only_weaken; [|exact O]; unfold tags, bytes, span; cbn; lia).
  assert (block_payload v = v + 8) as -> by (unfold block_payload, word_size; rewrite wrap_small; lia).
  destruct (mid_close fuel m1 head l1 b l2 (mid_write _ _ _ _ _ _ Hm O1) eq_refl) as (h' & m' & E & C & O2);
    [by split|done|].
  exists h', m'. split_and!; [exact E|exact C|]. eapply only_weaken; [|eapply only_trans; [exact O1|exact O2]].
  intros x [Hx|(c & [->|Hcl]%elem_of_cons & Hu & Hx)%nodes_fn]; [by right|..].
  - right. unfold bytes, span in *. cbn in *. lia.
  - left. exists (ba c + 8). split; [apply elem_of_fn; by exists c|done].
Qed.

Lemma seam_more rs rs' a : seam rs a -> seam (rs ++ rs') a.
Proof.
  intros (r & Hr & Hin & Hb). exists r. split_and!; [set_solver|done|]. by rewrite existsb_app, Hb.
Qed.

(** A block that ends at the base of a region, or reaches over it. *)
Lemma seam_at s bs c r a :
  heap_ok s bs -> c ∈ bs -> r ∈ regions s -> in_region a r = true -> ba c < r_base r <= ba c + bn c -> seam (regions s) a.
Proof.
  intros Hok Hc Hr Hin Hlt. exists r. split_and!; [done|done|]. apply (ho_tile _ _ Hok). exists c. split; [done|].
  unfold bytes, span. lia.
Qed.

(** A new region is a free block of its own. *)
Lemma coalesced_grow s l1 l2 v :
  heap_ok s (l1 ++ l2) -> coalesced (regions s ++ [Hregion v (v + 65536)]) (l1 ++ HB v 65536 None :: l2).
Proof.
  intros Hok c d Hc Hd Hfc Hfd E.
  assert (in_region v (Hregion v (v + 65536)) = true) as Hv by (unfold in_region; cbn; lia).
  apply elem_of_mid in Hc as [->|Hc], Hd as [->|Hd]; cbn [ba bn] in *; [lia|..].
  - assert (existsb (in_region (ba d)) (regions s) = true) as (r & Hr%list_elem_of_In & Hin)%existsb_exists.
    { apply (ho_tile _ _ Hok). exists d. split; [done|]. pose proof (good_range _ _ (co_good _ _ _ (ho_core _ _ Hok) d Hd)). unfold bytes, span. lia. }
    destruct (ho_regions _ _ Hok r Hr) as (p & _ & El & _). unfold grow_page_count, page_size in El.
    exists r. split_and!; [set_solver|done|]. unfold in_region in *. bool_to_prop.
    rewrite existsb_app. apply orb_true_iff. right. cbn. lia.
  - exists (Hregion v (v + 65536)). split_and!; [set_solver|by rewrite E in *|]. cbn [r_base]. rewrite existsb_app.
    apply orb_true_iff. left. apply (ho_tile _ _ Hok). exists c. split; [done|].
    pose proof (good_range _ _ (co_good _ _ _ (ho_core _ _ Hok) c Hc)). unfold bytes, span. lia.
  - apply seam_more. by apply (ho_coalesced _ _ Hok c d).
Qed.

Lemma grow_heap_spec fuel s bs :
  heap_ok s bs -> (length bs < fuel)%nat ->
  exists g s' bs', grow_heap fuel s = Some (g, s') /\ heap_ok s' bs' /\ live bs' = live bs /\ same_data bs s s'
    /\ hhdm_base s' = hhdm_base s /\ (length bs' <= Datatypes.S (length bs))%nat
    /\ (g = true -> length (regions s') = Datatypes.S (length (regions s)))
    /\ (g = false -> length (regions s') = 16%nat \/ (pa_alloc (hpages s') 16).1 = invalid_physical_address)
    /\ (forall c, c ∈ bs' -> used c = false -> c ∈ bs \/ bn c = 65536) /\ (g = false -> bs' = bs).
Proof.
  intros Hok Hf. pose proof (ho_core _ _ Hok) as Hcore. unfold grow_heap, grow_page_count.
  destruct (pa_alloc_law (hpages s) 16 (ho_pages _ _ Hok) ltac:(unfold max_managed_pages; lia))
    as [(page & Ep & Hp0 & Hpm & Hfree & Hwf & Hused)|E].
  2:{ rewrite E. rewrite Z.eqb_refl. exists false, (with_pages (hpages s) s), bs.
      replace (with_pages (hpages s) s) with s by (by destruct s).
      split_and!; try done; [lia|intros _; right; by rewrite E|by left]. }
  destruct (pa_alloc (hpages s) 16) as [phys fr]. cbn [fst snd] in *. subst phys.
  assert (page * page_size =? invalid_physical_address = false) as ->.
  { apply Z.eqb_neq. unfold invalid_physical_address, UINT64_MAX, page_size, max_managed_pages in *. lia. }
  assert (forall r, r ∈ regions s -> region_ok (with_pages fr s) r) as Hregs.
  { intros r Hr. destruct (ho_regions _ _ Hok r Hr) as (p & Hb & Hl & Hp & Hpx & Hu).
    exists p. split_and!; try done. intros q Hq. cbn. by rewrite Hused, Hu. }
  assert (physical_to_virtual (hhdm_base (with_pages fr s)) (page * page_size)
          = hhdm_base s + page * 4096) as ->.
  { pose proof (ho_top _ _ Hok). destruct (ho_hhdm _ _ Hok). unfold physical_to_virtual. cbn.
    unfold page_size, max_managed_pages in *. rewrite wrap_small; lia. }
  set (v := hhdm_base s + page * 4096).
  assert (0 < v /\ v + 65536 < 2 ^ 64 /\ Z.even v = true) as (Hv0 & Hv1 & Hve).
  { pose proof (ho_top _ _ Hok). destruct (ho_hhdm _ _ Hok) as [? Hal ?]. unfold page_size, max_managed_pages in *.
    subst v. split_and!; [lia|lia|]. rewrite Z.even_add, Z.even_mul, orb_true_r.
    assert (Z.even (hhdm_base s) = true) as ->; [|done]. apply Z.even_spec. exists (hhdm_base s / 4096 * 2048). zlia. }
  change (16 * page_size) with 65536. rewrite (wrap_small 64 (v + 65536)) by lia.
  unfold try_add_region. cbn [regions with_pages].
  destruct (Z.leb_spec max_regions (Z.of_nat (length (regions s)))) as [Hfull|Hroom]; cbn [negb].
  - exists false. eexists _, bs. split; [reflexivity|].
    destruct (pa_free_law fr page 16 Hwf ltac:(unfold max_managed_pages in *; lia) ltac:(lia)
      ltac:(unfold max_managed_pages in *; lia)) as [Hwf2 Hfr2].
    split_and!; try done;
      [|cbn; lia|intros _; left; cbn; pose proof (ho_count _ _ Hok); unfold max_regions in *; lia|by left].
    destruct Hok. split; try done.
    intros r Hr. destruct (ho_regions0 r Hr) as (p & Hb & Hl & Hp & Hpx & Hu). exists p. split_and!; try done.
    intros q Hq. cbn. destruct (Hfr2 q) as [_ Hout]. rewrite Hout; [by rewrite Hused, Hu|].
    apply not_true_iff_false. rewrite in_run_true. intros Hin. specialize (Hu q Hq). by rewrite (Hfree q Hin) in Hu.
  - set (b := HB v 65536 None).
    destruct (ordered_insert bs b (co_order _ _ _ Hcore) ltac:(done)) as (l1 & l2 & -> & Hord).
    { by apply (fresh_apart s bs page). }
    destruct (region_block fuel (hmem s) (free_list s) l1 l2 v Hcore Hord) as (h' & m' & E & C & O); [lia|lia|done| |].
    { pose proof (length_fn l1). rewrite length_app in Hf. lia. }
    unfold list_of, count_backing. cbn [hmem free_list regions heap_backing_pages heap_failed_allocations hhdm_base hpages with_pages].
    rewrite E. cbn [mbind option_bind]. exists true. eexists _, (l1 ++ b :: l2). split; [reflexivity|].
    assert (live (l1 ++ b :: l2) = live (l1 ++ l2)) as Hlive by (by rewrite live_free, live_app).
    assert (same_data (l1 ++ l2) s (with_list (h', m') s)) as Hdata.
    { intros c x Hc Hx. apply O. intros Hp. apply (free_part_live (l1 ++ b :: l2) c x Hord); [by rewrite Hlive|done|].
      destruct Hp as [Hp|Hp]; [|exists b; split_and!; [set_solver|done|done]].
      eapply free_part_nodes; [|exact Hp]. intros d Hd. split; [set_solver|].
      apply (good_range (hmem s)), (co_good _ _ _ Hcore). set_solver. }
    split_and!; try done; [|rewrite !length_app; cbn; lia|intros _; cbn; rewrite length_app; cbn; lia
      |intros c [->|Hc]%elem_of_mid _; [by right|by left]].
    split; cbn; try done; try apply Hok; [..|by apply coalesced_grow| |].
    + apply (owned_kept (hmem s) m' (l1 ++ l2)); [apply Hok|by rewrite Hlive|]. rewrite Hlive. exact Hdata.
    + intros x. rewrite existsb_app. cbn [existsb]. rewrite orb_false_r, orb_true_iff, (ho_tile _ _ Hok).
      setoid_rewrite elem_of_mid. split.
      * intros [(c & Hc & Hx)|Hx]; [exists c; by split; [right|]|exists b; split; [by left|]].
        unfold in_region in Hx. cbn in Hx. bool_to_prop. unfold bytes, span. cbn. lia.
      * intros (c & [->|Hc] & Hx); [right|left; by exists c]. unfold in_region, bytes, span in *. cbn in *.
        apply andb_true_iff. split; lia.
    + intros r [Hr| ->%list_elem_of_singleton]%elem_of_app; [by apply Hregs|]. exists page. cbn.
      split_and!; try done. intros q Hq. rewrite Hused. apply orb_true_iff. right. by apply in_run_true.
    + rewrite length_app. cbn. unfold max_regions in *. lia.
Qed.

(** ** Allocation *)

(** The outcome of an allocation: nothing, or one more allocated block, whose
    user part has the requested size and alignment. *)
Definition allocates (size k u : Z) (bs bs' : list hb) : Prop :=
  (u = 0 /\ live bs' = live bs)
  \/ (0 < u < 2 ^ 64 /\ u mod 2 ^ k = 0
      /\ exists l1 b l2, live bs = l1 ++ l2 /\ live bs' = l1 ++ b :: l2 /\ bu b = Some (u, size)).

(** Why an allocation failed: no free block has a place for the request, and
    the heap cannot grow, since it has all its regions or there are no pages. *)
Definition exhausted (size k : Z) s (bs : list hb) : Prop :=
  (forall c, c ∈ bs -> used c = false -> no_room size k (ba c) (bn c))
  /\ (length (regions s) = 16%nat \/ (pa_alloc (hpages s) grow_page_count).1 = invalid_physical_address).

Lemma carved_cases b u size t b' rest :
  carved b u size t = b' :: rest -> 32 <= t <= bn b ->
  bu b' = Some (u, size) /\ live rest = [] /\ (length rest <= 1)%nat
  /\ forall x, (exists c, c ∈ b' :: rest /\ bytes c x) <-> bytes b x.
Proof.
  unfold carved, min_block_size. intros E Ht. case_match; injection E as <- <-; bool_to_prop;
    (split_and!; [done|done|cbn; lia|]); intros x; unfold bytes, span; split.
  - intros (c & [->| ->%list_elem_of_singleton]%elem_of_cons & Hx); cbn in *; lia.
  - intros Hx. destruct (Z.lt_ge_cases x (ba b + t)); eexists; split;
      [apply list_elem_of_here|cbn; lia|apply list_elem_of_further, list_elem_of_here|cbn; lia].
  - intros (c & ->%list_elem_of_singleton & Hx). cbn in *. lia.
  - intros Hx. eexists. split; [by apply list_elem_of_singleton|]. cbn. lia.
Qed.

Lemma block_above s bs b : heap_ok s bs -> b ∈ bs -> hhdm_base s <= ba b.
Proof.
  intros Hok Hb. pose proof (good_range _ _ (co_good _ _ _ (ho_core _ _ Hok) b Hb)).
  assert (existsb (in_region (ba b)) (regions s) = true) as Hx.
  { apply (ho_tile _ _ Hok). exists b. split; [done|]. unfold bytes, span. lia. }
  apply existsb_exists in Hx as (r & Hr%list_elem_of_In & Hin).
  destruct (ho_regions _ _ Hok r Hr) as (p & Eb & _ & Hp & _). unfold in_region in Hin. bool_to_prop.
  unfold page_size in *. lia.
Qed.

Lemma coalesced_carve rs l1 b l2 u size t b' rest :
  coalesced rs (l1 ++ b :: l2) -> ordered (l1 ++ b :: l2) -> (forall c, c ∈ l1 ++ b :: l2 -> 0 < bn c) -> used b = false ->
  carved b u size t = b' :: rest -> 32 <= t -> coalesced rs (l1 ++ (b' :: rest) ++ l2).
Proof.
  intros Hco Ho Hn Hb Ec Ht c d Hc Hd Hfc Hfd E.
  assert (forall e, e ∈ l1 ++ (b' :: rest) ++ l2 -> used e = false -> e ∈ l1 ++ l2 \/ e = HB (ba b + t) (bn b - t) None /\ 32 <= bn b - t) as Hin.
  { unfold carved, min_block_size in Ec. intros e He Hu. case_match; injection Ec as <- <-; bool_to_prop.
    - rewrite !elem_of_app, !elem_of_cons in He. destruct He as [He|[[->|[->|He]]|He]]; [set_solver|done|by right|set_solver|set_solver].
    - rewrite !elem_of_app, !elem_of_cons in He. destruct He as [He|[[->|He]|He]]; [set_solver|done|set_solver|set_solver]. }
  destruct (Hin c Hc Hfc) as [Hc'|[-> ?]], (Hin d Hd Hfd) as [Hd'|[-> ?]]; cbn [ba bn] in *.
  - apply (Hco c d); first [done|set_solver].
  - exfalso. specialize (Hn c ltac:(set_solver)). pose proof (ordered_pair _ c b Ho ltac:(set_solver) ltac:(set_solver)) as Hp.
    unfold before in Hp. destruct Hp as [->|Hp]; lia.
  - apply (Hco b d); first [done|lia|set_solver].
  - lia.
Qed.

Lemma carve_heap fuel s l1 b l2 size k :
  heap_ok s (l1 ++ b :: l2) -> used b = false -> 3 <= k < 64 -> 0 < size -> Z.even size = true ->
  size + 8 < hhdm_base s -> total_used_of (ba b) size (2 ^ k) <= bn b -> (length l1 < fuel)%nat ->
  exists u hm bs', carve fuel (ba b + 8) size (2 ^ k) (list_of s) = Some (u, hm)
    /\ heap_ok (with_list hm s) bs' /\ (length bs' <= length (l1 ++ b :: l2) + 1)%nat
    /\ same_data (l1 ++ b :: l2) s (with_list hm s)
    /\ allocates size k u (l1 ++ b :: l2) bs' /\ 0 < u.
Proof.
  intros Hok Hb Hk Hs Hes Hsz Hfit Hf. pose proof (ho_core _ _ Hok) as Hcore.
  pose proof (block_above s _ b Hok ltac:(set_solver)) as Habove.
  pose proof (co_good _ _ _ Hcore b ltac:(set_solver)) as Hgb. pose proof (good_range _ _ Hgb) as (Ha & Hn & Hh).
  destruct (carve_spec fuel (hmem s) (free_list s) l1 b l2 size k Hcore Hb Hk Hs Hes ltac:(lia) Hfit Hf)
    as (h' & m' & b' & rest & E & Ecar & C & Hown & Hmod & Hu & Ho).
  destruct (placement (ba b) (bn b) size k Ha Hh Hn (g_even _ _ Hgb) Hk Hs Hes ltac:(lia) Hfit)
    as (_ & _ & _ & Ht & _ & _).
  destruct (carved_cases _ _ _ _ _ _ Ecar ltac:(lia)) as (Ebu & Hlr & Hlen & Hbytes).
  set (u := user_ptr_of (ba b) (2 ^ k)) in *. clearbody u.
  assert (used b' = true) as Hub by (unfold used; by rewrite Ebu).
  assert (live (l1 ++ (b' :: rest) ++ l2) = live l1 ++ b' :: live l2) as Hlive.
  { rewrite !live_app. unfold live at 2. rewrite filter_cons_True by done. fold (live rest). by rewrite Hlr. }
  assert (same_data (l1 ++ b :: l2) s (with_list (h', m') s)) as Hdata.
  { intros c x Hc Hx. apply Ho. intros Hp. apply (free_part_live _ c x (co_order _ _ _ Hcore) Hc Hx).
    destruct Hp as [Hp|Hp]; [|exists b; split_and!; [set_solver|done|done]].
    eapply free_part_nodes; [|exact Hp]. intros d Hd. split; [set_solver|].
    apply (good_range (hmem s)), (co_good _ _ _ Hcore). set_solver. }
  exists u, (h', m'), (l1 ++ (b' :: rest) ++ l2).
  split_and!; [exact E| |rewrite !length_app; cbn [length]; lia|done| |lia].
  - split; cbn; try apply Hok; [exact C| | |].
    3:{ eapply coalesced_carve; [apply Hok|apply Hcore| |done|exact Ecar|lia].
        intros c Hc. pose proof (good_range _ _ (co_good _ _ _ Hcore c Hc)). lia. }
    + intros c Hc. destruct (decide (c = b')) as [->|Hne]; [done|].
      destruct (used c) eqn:Huc; [|unfold owned, used in *; by destruct (bu c)].
      assert (c ∈ live (l1 ++ b :: l2)) as Hcl.
      { assert (c ∈ live (l1 ++ (b' :: rest) ++ l2)) as Hx by (by apply elem_of_live).
        rewrite Hlive in Hx. rewrite live_free by done. set_solver. }
      apply (owned_bytes (hmem s)); [|by intros x; apply Hdata].
      apply (ho_owned _ _ Hok). by apply elem_of_live in Hcl as [? _].
    + intros x. rewrite (ho_tile _ _ Hok). split.
      * intros (c & Hc & Hx). apply elem_of_mid in Hc as [->|Hc]; [|exists c; split; [set_solver|done]].
        apply Hbytes in Hx as (d & Hd & Hx). exists d. split; [set_solver|done].
      * intros (c & Hc & Hx). destruct (decide (c ∈ b' :: rest)) as [Hin|Hin].
        -- exists b. split; [set_solver|]. apply Hbytes. by exists c.
        -- exists c. split; [set_solver|done].
  - right. split_and!; [lia|lia|done|]. exists (live l1), b', (live l2). split_and!; [by apply live_free|done|done].
Qed.

Lemma alloc_loop_spec rounds fuel size k : forall s bs,
  heap_ok s bs -> 3 <= k < 64 -> 0 < size -> Z.even size = true -> size + 8 < hhdm_base s ->
  (length bs + rounds < fuel)%nat -> (17 <= rounds + length (regions s))%nat ->
  exists u s' bs', alloc_loop rounds fuel size (2 ^ k) s = Some (u, s')
    /\ heap_ok s' bs' /\ (length bs' <= length bs + rounds)%nat /\ same_data bs s s' /\ allocates size k u bs bs'
    /\ (u = 0 -> exhausted size k s' bs').
Proof.
  induction rounds as [|rounds IH]; intros s bs Hok Hk Hs Hes Hsz Hf Hr.
  { pose proof (ho_count _ _ Hok). unfold max_regions in *. lia. }
  pose proof (ho_core _ _ Hok) as Hcore. cbn [alloc_loop].
  destruct (find_fit_spec size (2 ^ k) (hmem s) bs fuel (free_list s)) as [(l1 & b & l2 & -> & Hb & Hfit & ->)|[-> Hno]];
    [apply Hcore|apply Hcore|lia|..]; cbn [mbind option_bind].
  - destruct (carve_heap fuel s l1 b l2 size k) as (u & hm & bs' & -> & ? & ? & ? & ? & ?); try done.
    { rewrite length_app in Hf. lia. }
    cbn [mbind option_bind]. exists u, (with_list hm s), bs'. split_and!; try done; lia.
  - destruct (grow_heap_spec fuel s bs Hok ltac:(lia)) as (g & s1 & bs1 & -> & Hok1 & Hl1 & Hd1 & Eh & Hlen & Hg & Hfull & _ & Hsame).
    cbn [mbind option_bind]. destruct g; cbn [negb].
    + destruct (IH s1 bs1) as (u & s' & bs' & -> & Hok' & Hlen' & Hd' & Ha & Hx'); try done;
        [by rewrite Eh|lia|specialize (Hg eq_refl); lia|].
      exists u, s', bs'. split_and!; try done; [lia|..].
      * intros c x Hc Hx. rewrite (Hd' c x); [by apply (Hd1 c)|by rewrite Hl1|done].
      * unfold allocates in *. by rewrite Hl1 in Ha.
    + rewrite (Hsame eq_refl) in *. exists 0, (count_failure s1), bs. split_and!; try done; [by destruct Hok1; split|lia|by left|].
      intros _. split; [|by apply Hfull]. intros c Hc Hu. pose proof (good_range _ _ (co_good _ _ _ Hcore c Hc)).
      pose proof (block_above _ _ _ Hok Hc). specialize (Hno c Hc Hu). apply no_placement; first [done|lia].
Qed.

Lemma alloc_cases fuel size alignment k s bs :
  heap_ok s bs -> alignment = 2 ^ k -> 0 <= k < 64 ->
  0 < size -> Z.even size = true -> size + 8 < hhdm_base s -> (length bs + 17 < fuel)%nat ->
  exists u s' bs', alloc fuel size alignment s = Some (u, s')
    /\ heap_ok s' bs' /\ (length bs' <= length bs + 17)%nat /\ same_data bs s s' /\ allocates size k u bs bs'
    /\ (u = 0 -> exhausted size (Z.max k 3) s' bs').
Proof.
  intros Hok -> Hk Hs Hes Hsz Hf. unfold alloc. replace (size =? 0) with false by lia.
  assert (exists k', (if 2 ^ k <? 8 then 8 else 2 ^ k) = 2 ^ k' /\ 3 <= k' < 64 /\ k <= k' /\ k' = Z.max k 3) as (k' & -> & Hk' & Hkk & Ek).
  { destruct (Z.ltb_spec (2 ^ k) 8) as [Hlt|Hge].
    - assert (k <= 3); [|exists 3; split_and!; (done || lia)]. destruct (Z.le_gt_cases k 3); [done|].
      assert (2 ^ 4 <= 2 ^ k) by (apply Z.pow_le_mono_r; lia). lia.
    - assert (3 <= k); [|exists k; split_and!; (done || lia)]. destruct (Z.le_gt_cases 3 k); [done|].
      assert (2 ^ k <= 2 ^ 2) by (apply Z.pow_le_mono_r; lia). lia. }
  rewrite <- Ek.
  destruct (alloc_loop_spec alloc_rounds fuel size k' s bs) as (u & s' & bs' & E & Hok' & Hlen & Hd & Ha & Hx);
    try done; [unfold alloc_rounds; lia|].
  exists u, s', bs'. split_and!; try done. destruct Ha as [?|(Hu & Hm & Hl)]; [by left|right].
  split_and!; [lia|lia| |done]. apply Z.mod_divide in Hm as [q ->]; [|lia]. apply Z.mod_divide; [lia|].
  exists (q * 2 ^ (k' - k)). rewrite <- Z.mul_assoc, <- Z.pow_add_r by lia. do 2 f_equal. lia.
Qed.

(** C21. [alloc] of an even number of bytes (below the base of the direct map)
    with a power of two as its alignment always returns.  It allocates a block
    with the requested alignment and size, or it fails, and then no free block
    has a place for the request and the heap cannot grow; the heap stays well
    formed (blocks and remainders tile the regions, tags and free list agree),
    so the new block overlaps no other, and the contents of the allocated
    blocks do not change.  For odd sizes this does not hold:
    [odd_request_corrupts]. *)
Theorem heap_alloc_spec fuel size alignment k s bs :
  heap_ok s bs -> alignment = 2 ^ k -> 0 <= k < 64 ->
  0 < size -> Z.even size = true -> size + 8 < hhdm_base s -> (length bs + 17 < fuel)%nat ->
  exists u s' bs', alloc fuel size alignment s = Some (u, s')
    /\ heap_ok s' bs' /\ (length bs' <= length bs + 17)%nat /\ same_data bs s s' /\ allocates size k u bs bs'
    /\ (u = 0 -> exhausted size (Z.max k 3) s' bs').
Proof. apply alloc_cases. Qed.

(** ** Freeing *)

(** The node word of the middle block, and words of the list before it. *)
Lemma nodes_fn_cons b l x : 16 <= bn b -> nodes (fn (b :: l)) x -> bytes b x \/ nodes (fn l) x.
Proof.
  intros Hn (c & [->|Hc]%elem_of_cons & Hu & Hx)%nodes_fn.
  - left. unfold bytes, span in *. lia.
  - right. exists (ba c + 8). split; [apply elem_of_fn; by exists c|done].
Qed.

(** The heap while a block is being freed: [b] is tagged free but not linked;
    [rs] are the regions the blocks tile. *)
Record freeing (rs : list HeapRegion) (m : bmem) (head : Z) (l1 : list hb) (b : hb) (l2 : list hb) : Prop := {
  fr_mid : mid m head l1 b l2;
  fr_good : good m b;
  fr_free : used b = false;
  fr_tile : forall x, existsb (in_region x) rs = true <-> exists c, c ∈ l1 ++ b :: l2 /\ bytes c x;
}.

(** The freed block [b] takes in the block after it, if there is one and it is
    free: [l2'] are the blocks after the result, which ends at [e]. *)
Definition joins_next (b : hb) (l2 l2' : list hb) (e : Z) : Prop :=
  (exists c, l2 = c :: l2' /\ used c = false /\ ba c = ba b + bn b /\ e = ba c + bn c)
  \/ (l2' = l2 /\ e = ba b + bn b /\ forall c, c ∈ l2 -> ba c = ba b + bn b -> used c = true).

(** It takes in the block before it, if there is one that is free and starts in
    the region [r] of [b]: the result starts at [a]. *)
Definition joins_prev (rs : list HeapRegion) (b : hb) (l1 l1' : list hb) (a : Z) : Prop :=
  exists r, r ∈ rs /\ in_region (ba b) r = true
    /\ ((exists c, l1 = l1' ++ [c] /\ used c = false /\ ba b = ba c + bn c /\ r_base r <= ba c /\ a = ba c)
        \/ (l1' = l1 /\ a = ba b /\ forall c, c ∈ l1 -> ba b = ba c + bn c -> used c = true \/ ba c < r_base r)).

(** A byte that follows the middle block starts the next one. *)
Lemma next_adjacent rs m head l1 b l2 :
  freeing rs m head l1 b l2 -> existsb (in_region (ba b + bn b)) rs = true ->
  exists c l2', l2 = c :: l2' /\ ba c = ba b + bn b.
Proof.
  intros [Hm Hg _ Ht] (c & Hc & Hx)%Ht. pose proof (good_range _ _ Hg) as (? & ? & ?).
  pose proof (md_order _ _ _ _ _ Hm) as Ho. apply ordered_app in Ho as (_ & [Ho2 Hb]%ordered_cons & H12).
  apply elem_of_app in Hc as [Hc|Hc].
  { specialize (H12 c b Hc ltac:(set_solver)). unfold before, bytes, span in *. lia. }
  apply elem_of_cons in Hc as [->|Hc]; [unfold bytes, span in *; lia|].
  destruct l2 as [|d l2]; [set_solver|]. exists d, l2. split; [done|].
  apply ordered_cons in Ho2 as [_ Hd]. pose proof (Hb d ltac:(set_solver)) as Hbd.
  pose proof (good_range _ _ (md_good _ _ _ _ _ Hm d ltac:(set_solver))).
  apply elem_of_cons in Hc as [->|Hc]; [unfold before, bytes, span in *; lia|].
  specialize (Hd c Hc). unfold before, bytes, span in *. lia.
Qed.

(** A byte before the middle block ends the previous one. *)
Lemma prev_adjacent rs m head l1 b l2 :
  freeing rs m head l1 b l2 -> existsb (in_region (ba b - 1)) rs = true ->
  exists l1' c, l1 = l1' ++ [c] /\ ba b = ba c + bn c.
Proof.
  intros [Hm Hg _ Ht] (c & Hc & Hx)%Ht. pose proof (good_range _ _ Hg) as (? & ? & ?).
  pose proof (md_order _ _ _ _ _ Hm) as Ho. apply ordered_app in Ho as (Ho1 & [Ho2 Hb]%ordered_cons & H12).
  apply elem_of_app in Hc as [Hc|Hc].
  2:{ apply elem_of_cons in Hc as [->|Hc]; [|specialize (Hb c Hc)]; unfold before, bytes, span in *; lia. }
  destruct l1 as [|d l1 _] using rev_ind; [set_solver|]. exists l1, d. split; [done|].
  apply ordered_app in Ho1 as (_ & _ & Hd). pose proof (H12 d b ltac:(set_solver) ltac:(set_solver)) as Hdb.
  pose proof (good_range _ _ (md_good _ _ _ _ _ Hm d ltac:(set_solver))).
  apply elem_of_app in Hc as [Hc| ->%list_elem_of_singleton]; [|unfold before, bytes, span in *; lia].
  specialize (Hd c d Hc ltac:(set_solver)). unfold before, bytes, span in *. lia.
Qed.

(** What a coalescing step keeps: the live blocks, and every byte that was not
    in a free block. *)
Record merged (m m' : bmem) (l1 l2 : list hb) (b : hb) (l1' l2' : list hb) (b' : hb) : Prop := {
  mg_live1 : live l1' = live l1;
  mg_live2 : live l2' = live l2;
  mg_length : (length l1' <= length l1)%nat;
  mg_only : only (free_part (l1 ++ b :: l2)) m m';
  mg_free : forall x, free_part (l1' ++ b' :: l2') x -> free_part (l1 ++ b :: l2) x;
}.

Lemma merged_refl m l1 l2 b : merged m m l1 l2 b l1 l2 b.
Proof. by split; try apply only_refl. Qed.

(** Two adjacent blocks, tagged as one. *)
Lemma tag_merged rs m m1 head l1 l2 c d :
  let e := HB (ba c) (bn c + bn d) None in
  mid m1 head l1 e l2 -> good m1 c -> good m1 d -> used c = false -> used d = false -> ba d = ba c + bn c ->
  (forall x, existsb (in_region x) rs = true <-> exists a, a ∈ l1 ++ c :: d :: l2 /\ bytes a x) ->
  only (nodes (fn l1)) m m1 -> (forall a, a ∈ l1 -> good m1 a) ->
  let m' := set_block (ba c) (bn c + bn d) false m1 in
  freeing rs m' head l1 e l2 /\ only (free_part (l1 ++ c :: d :: l2)) m m'
  /\ (forall x, free_part (l1 ++ e :: l2) x -> free_part (l1 ++ c :: d :: l2) x).
Proof.
  intros e Hm Hc Hd Fc Fd Ead Ht Ho Hl1 m'.
  assert (Z.even (bn c) = true) as Ec by apply Hc. assert (Z.even (bn d) = true) as Ed by apply Hd.
  pose proof (good_range _ _ Hc). pose proof (good_range _ _ Hd).
  destruct (set_block_spec m1 (ba c) (bn c + bn d) false) as [B O];
    [by rewrite Z.even_add, Ec, Ed|unfold min_block_size; lia|lia|lia|].
  subst m'. set (m' := set_block (ba c) (bn c + bn d) false m1) in *. clearbody m'.
  assert (only (bytes e) m1 m') as O1 by (eapply only_weaken; [|exact O]; unfold tags, bytes, span; cbn; lia).
  assert (forall x, bytes e x <-> bytes c x \/ bytes d x) as He by (intros x; unfold bytes, span; cbn; lia).
  split_and!.
  - split; [by eapply mid_write|by split; [|apply Hc]|done|]. intros x. rewrite Ht. split.
    + intros (a & Ha & Hx). apply elem_of_app in Ha as [Ha|Ha]; [exists a; set_solver|].
      apply elem_of_cons in Ha as [->|[->|Ha]%elem_of_cons]; [..|exists a; set_solver];
        exists e; (split; [set_solver|apply He; tauto]).
    + intros (a & [->|Ha]%elem_of_mid & Hx); [|exists a; set_solver].
      apply He in Hx as [Hx|Hx]; [exists c|exists d]; set_solver.
  - eapply only_weaken; [|eapply only_trans; [exact Ho|exact O1]]. intros x [Hx|Hx].
    + eapply free_part_nodes; [|exact Hx]. intros a Ha. split; [set_solver|]. apply (good_range m1). by apply Hl1.
    + apply He in Hx as [Hx|Hx]; [exists c|exists d]; set_solver.
  - intros x (a & [->|Ha]%elem_of_mid & Hu & Hx); [|exists a; set_solver].
    apply He in Hx as [Hx|Hx]; [exists c|exists d]; set_solver.
Qed.

Lemma freeing_low rs m head l1 b l2 x :
  freeing rs m head l1 b l2 -> existsb (in_region x) rs = true -> 0 < x < 2 ^ 64.
Proof.
  intros [Hm Hg _ Ht] (c & Hc & Hx)%Ht.
  assert (0 < ba c /\ 32 <= bn c /\ ba c + bn c <= 2 ^ 64).
  { apply elem_of_mid in Hc as [->|Hc]; [by apply (good_range m)|]. by apply (good_range m), (md_good _ _ _ _ _ Hm). }
  unfold bytes, span in Hx. lia.
Qed.

Lemma payload_of m c : good m c -> block_payload (ba c) = ba c + 8.
Proof. intros Hg%good_range. unfold block_payload, word_size. rewrite wrap_small; lia. Qed.

Lemma coalesce_next_spec fuel rs m head l1 b l2 :
  freeing rs m head l1 b l2 -> (length l1 < fuel)%nat ->
  exists head' m' b' l2', coalesce_next fuel (ba b) (bn b) rs (head, m) = Some (head', m')
    /\ freeing rs m' head' l1 b' l2' /\ ba b' = ba b /\ merged m m' l1 l2 b l1 l2' b'
    /\ joins_next b l2 l2' (ba b' + bn b').
Proof.
  intros Hfr Hf. assert (freeing rs m head l1 b l2) as [Hm Hg Hfree Ht] by done.
  pose proof (good_range _ _ Hg) as (Ha & Hn & Hh). destruct (blk_size _ _ _ _ (g_blk _ _ Hg)) as [Ebs _].
  unfold coalesce_next, next_block. cbn [fst snd]. rewrite Ebs.
  destruct (existsb (in_region (ba b +64 bn b)) rs) eqn:Ein; cbn [andb].
  2:{ exists head, m, b, l2. split_and!; [done|done|done|apply merged_refl|right]. split_and!; [done|done|].
      intros c Hc Ec. exfalso. pose proof (good_range _ _ (md_good _ _ _ _ _ Hm c ltac:(set_solver))).
      rewrite wrap_small in Ein by lia. apply not_true_iff_false in Ein. apply Ein, Ht. exists c.
      split; [set_solver|]. unfold bytes, span. lia. }
  pose proof (freeing_low _ _ _ _ _ _ _ Hfr Ein) as Hlow.
  assert (ba b + bn b <> 2 ^ 64) as Hne by (intros E; rewrite E in Hlow; change (wrap 64 (2 ^ 64)) with 0 in Hlow; lia).
  rewrite wrap_small in * by lia.
  destruct (next_adjacent _ _ _ _ _ _ Hfr Ein) as (c & l2' & -> & Ec). rewrite <- Ec.
  pose proof (md_good _ _ _ _ _ Hm c ltac:(set_solver)) as Hgc.
  destruct (blk_size _ _ _ _ (g_blk _ _ Hgc)) as [_ ->].
  destruct (used c) eqn:Hu; cbn [negb].
  { exists head, m, b, (c :: l2'). split_and!; [done|done|done|apply merged_refl|right]. split_and!; [done|done|].
    intros d Hd Ed. rewrite <- Hu. f_equal. pose proof (good_range _ _ Hgc).
    pose proof (good_range _ _ (md_good _ _ _ _ _ Hm d ltac:(set_solver))).
    apply (bytes_unique _ d c (ba c) (md_order _ _ _ _ _ Hm)); [set_solver|set_solver|unfold bytes, span; lia..]. }
  rewrite (payload_of _ _ Hgc).
  destruct (mid_merge_next fuel m head l1 b c l2' Hm Hu Ec Hg) as (h1 & m1 & -> & Hm1 & Gb & Gc & O1).
  { pose proof (length_fn l1). lia. }
  cbn [mbind option_bind fst snd]. destruct (blk_size _ _ _ _ (g_blk _ _ Gc)) as [-> _].
  pose proof (good_range _ _ Gc). rewrite wrap_small by lia.
  destruct (tag_merged rs m m1 h1 l1 l2' b c Hm1 Gb Gc Hfree Hu Ec Ht O1) as (F & O & Hfp).
  { intros a Hal. apply (md_good _ _ _ _ _ Hm1). set_solver. }
  eexists h1, _, _, l2'. split_and!; [reflexivity|exact F|done| |left; exists c; cbn; split_and!; (done || lia)].
  split; [done| |done|exact O|exact Hfp]. symmetry. apply (live_free [] c l2' Hu).
Qed.

Lemma coalesce_prev_spec fuel rs m head l1 b l2 :
  freeing rs m head l1 b l2 -> (length l1 < fuel)%nat ->
  exists head' m' b' l1', coalesce_prev fuel (ba b) rs (head, m) = Some (ba b', (head', m'))
    /\ freeing rs m' head' l1' b' l2 /\ merged m m' l1 l2 b l1' l2 b'
    /\ joins_prev rs b l1 l1' (ba b') /\ ba b' + bn b' = ba b + bn b.
Proof.
  intros Hfr Hf. assert (freeing rs m head l1 b l2) as [Hm Hg Hfree Ht] by done.
  pose proof (good_range _ _ Hg) as (Ha & Hn & Hh).
  assert (joins_prev rs b l1 l1 (ba b) -> exists head' m' b' l1', Some (ba b, (head, m)) = Some (ba b', (head', m'))
    /\ freeing rs m' head' l1' b' l2 /\ merged m m' l1 l2 b l1' l2 b'
    /\ joins_prev rs b l1 l1' (ba b') /\ ba b' + bn b' = ba b + bn b) as Hskip.
  { intros Hj. exists head, m, b, l1. split_and!; [done|done|apply merged_refl|done|done]. }
  unfold coalesce_prev. destruct (List.find (in_region (ba b)) rs) as [r|] eqn:Er.
  2:{ exfalso. assert (existsb (in_region (ba b)) rs = true) as (r & Hr & Hin)%existsb_exists.
      { apply Ht. exists b. split; [set_solver|]. unfold bytes, span. lia. }
      by rewrite (List.find_none _ _ Er r Hr) in Hin. }
  apply List.find_some in Er as [Hr Hin]. pose proof Hin as Hin'. pose proof (proj2 (list_elem_of_In _ _) Hr) as Hr'.
  unfold in_region in Hin. bool_to_prop. unfold word_size.
  cbn [fst snd].
  destruct (Z.lt_ge_cases (r_base r) 0) as [Hneg|Hpos].
  { (* a region starts at a byte of a block *)
    exfalso. assert (existsb (in_region (r_base r)) rs = true) as Hx.
    { apply existsb_exists. exists r. split; [done|]. unfold in_region. apply andb_true_iff. lia. }
    apply (freeing_low _ _ _ _ _ _ _ Hfr) in Hx. lia. }
  destruct (Z.ltb_spec (r_base r +64 8) (ba b)) as [Hlt|Hnear].
  2:{ apply Hskip. exists r. split_and!; [done|done|]. right. split_and!; [done|done|]. intros c Hc Ec. right.
      pose proof (good_range _ _ (md_good _ _ _ _ _ Hm c ltac:(set_solver))).
      rewrite wrap_small in Hnear by lia. lia. }
  rewrite wrap_small in Hlt by lia.
  destruct (prev_adjacent _ _ _ _ _ _ Hfr) as (l1' & c & -> & Ec).
  { apply existsb_exists. exists r. split; [done|]. unfold in_region. apply andb_true_iff. lia. }
  pose proof (md_good _ _ _ _ _ Hm c ltac:(set_solver)) as Hgc. pose proof (good_range _ _ Hgc) as (? & ? & ?).
  rewrite (wrap_small 64 (ba b - 8)) by lia.
  replace (ba b - 8) with (ba c + bn c - 8) by lia. rewrite (b_foot _ _ _ _ (g_blk _ _ Hgc)).
  destruct (tag_land (bn c) (used c)) as [-> _]; [lia|apply Hgc|].
  destruct (Z.ltb_spec 0 (bn c)); [|lia]. rewrite wrap_small by lia.
  replace (ba b - bn c) with (ba c) by lia. destruct (blk_size _ _ _ _ (g_blk _ _ Hgc)) as [_ ->].
  destruct ((r_base r <=? ba c) && negb (used c)) eqn:Ecase.
  2:{ apply Hskip. exists r. split_and!; [done|done|]. right. split_and!; [done|done|]. intros d Hd Ed.
      assert (d = c) as ->; [|apply andb_false_iff in Ecase as [?|?%negb_false_iff]; [right; lia|by left]].
      pose proof (good_range _ _ (md_good _ _ _ _ _ Hm d ltac:(set_solver))).
      apply (bytes_unique _ d c (ba b - 1) (md_order _ _ _ _ _ Hm)); [set_solver|set_solver|unfold bytes, span; lia..]. }
  apply andb_true_iff in Ecase as [Hrc Hu%negb_true_iff].
  rewrite (payload_of _ _ Hgc). rewrite length_app in Hf. cbn [length] in Hf.
  destruct (mid_merge_prev fuel m head l1' c b l2 Hm Hu Ec Hg) as (h1 & m1 & -> & Hm1 & Gb & Gc & O1).
  { pose proof (length_fn l1'). lia. }
  cbn [mbind option_bind fst snd]. destruct (blk_size _ _ _ _ (g_blk _ _ Gc)) as [-> _].
  destruct (blk_size _ _ _ _ (g_blk _ _ Gb)) as [-> _]. rewrite wrap_small by lia.
  rewrite <- app_assoc in Ht. cbn [app] in Ht.
  destruct (tag_merged rs m m1 h1 l1' l2 c b Hm1 Gc Gb Hu Hfree Ec Ht O1) as (F & O & Hfp).
  { intros a Hal. apply (md_good _ _ _ _ _ Hm1). set_solver. }
  eexists h1, _, (HB (ba c) (bn c + bn b) None), l1'.
  split_and!; [reflexivity|exact F| |exists r; split_and!; [done|done|]; left; exists c; cbn; split_and!; (done || lia)|cbn; lia].
  split; [|done|rewrite length_app; cbn; lia|by rewrite <- app_assoc|by rewrite <- app_assoc].
  rewrite live_free by done. by rewrite app_nil_r.
Qed.

(** After the coalescing two free blocks lie side by side at a seam only. *)
Lemma coalesced_free s l1 b l2 l1' b' l2' :
  heap_ok s (l1 ++ b :: l2) -> joins_next b l2 l2' (ba b' + bn b') -> joins_prev (regions s) b l1 l1' (ba b') -> 0 < bn b' ->
  coalesced (regions s) (l1' ++ b' :: l2').
Proof.
  intros Hok Hnext (r & Hr & Hin & Hprev) Hnz c d Hc Hd Hfc Hfd E. pose proof (co_order _ _ _ (ho_core _ _ Hok)) as Ho.
  assert (forall x, x ∈ l1 ++ b :: l2 -> 0 < bn x) as Hpos.
  { intros x Hx. pose proof (good_range _ _ (co_good _ _ _ (ho_core _ _ Hok) x Hx)). lia. }
  pose proof (Hpos b ltac:(set_solver)). apply ordered_app in Ho as (_ & [Ho2 Hb2]%ordered_cons & H12). unfold before in *.
  assert (forall x, x ∈ l1' -> x ∈ l1) as Hs1 by (destruct Hprev as [(? & -> & _)|[-> _]]; set_solver).
  assert (forall x, x ∈ l2' -> x ∈ l2) as Hs2 by (destruct Hnext as [(? & -> & _)|[-> _]]; set_solver).
  assert (forall x, x ∈ l1' -> ba x + bn x <= ba b) as B1 by (intros x Hx; apply (H12 x b); set_solver).
  assert (forall x, x ∈ l2' -> ba b + bn b <= ba x) as B2 by (intros x Hx; by apply Hb2, Hs2).
  assert (ba b' <= ba b) as Hle by (destruct Hprev as [(p & -> & _ & Ep & _ & ->)|(_ & -> & _)]; [specialize (Hpos p ltac:(set_solver))|]; lia).
  assert (ba b + bn b <= ba b' + bn b') as Hge by (destruct Hnext as [(p & -> & _ & Ep & ->)|(_ & -> & _)]; [specialize (Hpos p ltac:(set_solver))|]; lia).
  apply elem_of_mid in Hc as [->|Hc], Hd as [->|Hd]; [lia|..].
  - apply elem_of_app in Hd as [Hd|Hd]; [specialize (B1 d Hd); specialize (Hpos d ltac:(set_solver)); lia|].
    destruct Hnext as [(p & -> & Hp & Ep & E')|(-> & E' & Hno)].
    + apply (ho_coalesced _ _ Hok p d); first [done|lia|set_solver].
    + rewrite (Hno d Hd ltac:(lia)) in Hfd. done.
  - apply elem_of_app in Hc as [Hc|Hc]; [|specialize (B2 c Hc); specialize (Hpos c ltac:(set_solver)); lia].
    destruct Hprev as [(p & -> & Hp & Ep & _ & E')|(-> & E' & Hno)].
    + rewrite E'. apply (ho_coalesced _ _ Hok c p); first [done|lia|set_solver].
    + destruct (Hno c Hc ltac:(lia)) as [Hu|Hlt]; [congruence|]. unfold in_region in Hin. bool_to_prop.
      rewrite E'. apply (seam_at s (l1 ++ b :: l2) c r); [done|set_solver|done|unfold in_region; lia|lia].
  - apply (ho_coalesced _ _ Hok c d); first [done|set_solver].
Qed.

(** Freeing an allocated block: it returns to the free blocks, merged with
    its free neighbours; the other allocated blocks and their contents stay. *)
Lemma free_cases fuel s l1 b l2 u size :
  heap_ok s (l1 ++ b :: l2) -> bu b = Some (u, size) -> (length (l1 ++ b :: l2) < fuel)%nat ->
  exists s' l1' b' l2', free fuel u s = Some s' /\ heap_ok s' (l1' ++ b' :: l2') /\ used b' = false
    /\ joins_prev (regions s) b l1 l1' (ba b') /\ joins_next b l2 l2' (ba b' + bn b')
    /\ live (l1' ++ b' :: l2') = live l1 ++ live l2 /\ same_data (l1 ++ l2) s s'.
Proof.
  intros Hok Hu Hf. pose proof (ho_core _ _ Hok) as Hcore.
  pose proof (co_good _ _ _ Hcore b ltac:(set_solver)) as Hgb. pose proof (good_range _ _ Hgb) as (Ha & Hn & Hh).
  pose proof (ho_owned _ _ Hok b ltac:(set_solver)) as Hown. unfold owned in Hown. rewrite Hu in Hown.
  destruct Hown as (H16 & Hs & Hle & Hshift). unfold free. replace (u =? 0) with false by lia.
  assert (contains u s = true) as ->.
  { unfold contains. replace (u =? 0) with false by lia. apply (ho_tile _ _ Hok). exists b.
    split; [set_solver|]. unfold bytes, span. lia. }
  assert (header_from_user_ptr (hmem s) u = ba b) as ->.
  { unfold header_from_user_ptr, payload_from_user_ptr, read_shift, block_header, word_size.
    rewrite (wrap_small 64 (u - 8)) by lia. rewrite Hshift. rewrite !wrap_small; [lia|lia|rewrite wrap_small; lia]. }
  destruct (blk_size _ _ _ _ (g_blk _ _ Hgb)) as [-> ->]. assert (used b = true) as -> by (unfold used; by rewrite Hu).
  cbn [negb]. set (b0 := HB (ba b) (bn b) None).
  destruct (set_block_spec (hmem s) (ba b) (bn b) false) as [B0 O0]; [apply Hgb|unfold min_block_size; lia|done|done|].
  set (m0 := set_block (ba b) (bn b) false (hmem s)) in *. clearbody m0.
  assert (only (bytes b0) (hmem s) m0) as O0' by (eapply only_weaken; [|exact O0]; unfold tags, bytes, span; cbn; lia).
  assert (mid (hmem s) (free_list s) l1 b0 l2) as Hm.
  { split; [intros c Hc; apply Hcore; set_solver| | |cbn; lia].
    - eapply (ordered_replace l1 [b] [b0] l2); [apply Hcore|repeat constructor|].
      intros d ->%list_elem_of_singleton. exists b, b. cbn. split_and!; [set_solver|set_solver|lia|lia].
    - pose proof (co_chain _ _ _ Hcore) as Hc. rewrite fn_app, fn_cons_used in Hc by (unfold used; by rewrite Hu). done. }
  assert (freeing (regions s) m0 (free_list s) l1 b0 l2) as F0.
  { split; [by eapply mid_write|by split; [|apply Hgb]|done|]. intros x. rewrite (ho_tile _ _ Hok).
    setoid_rewrite elem_of_mid. split; intros (c & [->|Hc] & Hx); [exists b0; by split; [left|]|exists c; by split; [right|]
      |exists b; by split; [left|]|exists c; by split; [right|]]. }
  rewrite length_app in Hf. cbn [length] in Hf.
  destruct (coalesce_next_spec fuel _ _ _ _ _ _ F0 ltac:(lia)) as (h1 & m1 & b1 & l2' & E1 & F1 & Eb1 & M1 & J1).
  change (ba b0) with (ba b) in *. change (bn b0) with (bn b) in E1. rewrite E1.
  cbn [mbind option_bind]. rewrite <- Eb1.
  destruct (coalesce_prev_spec fuel _ _ _ _ _ _ F1 ltac:(lia)) as (h2 & m2 & b2 & l1' & -> & F2 & M2 & J2 & Ee).
  cbn [mbind option_bind]. rewrite (payload_of _ _ (fr_good _ _ _ _ _ _ F2)).
  destruct (mid_close fuel m2 h2 l1' b2 l2' (fr_mid _ _ _ _ _ _ F2) (fr_free _ _ _ _ _ _ F2) (fr_good _ _ _ _ _ _ F2))
    as (h3 & m3 & -> & C3 & O3). { pose proof (length_fn l1'). pose proof (mg_length _ _ _ _ _ _ _ _ M2). lia. }
  assert (joins_prev (regions s) b l1 l1' (ba b2)) as J2' by (unfold joins_prev in *; by rewrite Eb1 in J2).
  assert (joins_next b l2 l2' (ba b2 + bn b2)) as J1' by (rewrite Ee; exact J1).
  cbn [mbind option_bind]. exists (with_list (h3, m3) s), l1', b2, l2'.
  set (FP := free_part (l1 ++ b0 :: l2)).
  assert (only FP (hmem s) m3) as O.
  { eapply only_weaken; [|eapply only_trans; [exact O0'|eapply only_trans; [apply M1|eapply only_trans; [apply M2|exact O3]]]].
    intros x [Hx|[Hx|[Hx|Hx]]]; [exists b0; set_solver|done|by apply (mg_free _ _ _ _ _ _ _ _ M1)|].
    apply (mg_free _ _ _ _ _ _ _ _ M1), (mg_free _ _ _ _ _ _ _ _ M2). eapply free_part_nodes; [|exact Hx].
    intros d Hd. split; [set_solver|]. apply (good_range m3), C3. set_solver. }
  assert (live (l1' ++ b2 :: l2') = live (l1 ++ l2)) as Hlive.
  { rewrite live_free by apply F2. rewrite live_app. f_equal; [apply M2|apply M1]. }
  assert (same_data (l1 ++ l2) s (with_list (h3, m3) s)) as Hdata.
  { intros c x Hc Hx. apply O. apply (free_part_live _ c); [apply Hm| |done].
    by rewrite live_free, <- live_app. }
  split_and!; [done| |apply F2|done|done|by rewrite Hlive, live_app|done].
  split; cbn; try apply Hok; [exact C3| |apply F2|eapply coalesced_free; try done; pose proof (good_range _ _ (fr_good _ _ _ _ _ _ F2)); lia].
  apply (owned_kept (hmem s) m3 (l1 ++ l2)); [intros c Hc; apply (ho_owned _ _ Hok); set_solver|by rewrite Hlive|].
  rewrite Hlive. exact Hdata.
Qed.

(** C22. [free] of an allocated block always returns: the block goes back to the
    free blocks, merged with the block after it if that is free and with the
    block before it if that is free and in the same region; the heap stays well
    formed, so that no two free blocks lie side by side except where a region
    follows another one, and the other allocated blocks keep their place and
    their contents. *)
Theorem heap_free_spec fuel s l1 b l2 u size :
  heap_ok s (l1 ++ b :: l2) -> bu b = Some (u, size) -> (length (l1 ++ b :: l2) < fuel)%nat ->
  exists s' l1' b' l2', free fuel u s = Some s' /\ heap_ok s' (l1' ++ b' :: l2') /\ used b' = false
    /\ joins_prev (regions s) b l1 l1' (ba b') /\ joins_next b l2 l2' (ba b' + bn b')
    /\ live (l1' ++ b' :: l2') = live l1 ++ live l2 /\ same_data (l1 ++ l2) s s'.
Proof. apply free_cases. Qed.

(** A user may write every byte of its part of a block. *)
Lemma client_write s bs b u size m' :
  heap_ok s bs -> b ∈ bs -> bu b = Some (u, size) -> only (span u size) (hmem s) m' ->
  heap_ok (with_list (free_list s, m') s) bs.
Proof.
  intros Hok Hb Hu Ho. pose proof (ho_core _ _ Hok) as Hcore.
  pose proof (ho_owned _ _ Hok b Hb) as Hown. unfold owned in Hown. rewrite Hu in Hown.
  destruct Hown as (? & ? & ? & Hsh).
  assert (forall c x, c ∈ bs -> c <> b -> bytes c x -> aget m' x = aget (hmem s) x) as Hother.
  { intros c x Hc Hne Hx. apply Ho. intros Hy. apply Hne.
    apply (bytes_unique bs c b x (co_order _ _ _ Hcore)); [done|done|done|]. unfold bytes, span in *. lia. }
  split; cbn; try apply Hok.
  - eapply core_write; [exact Hcore|exact Ho|]. intros x c Hc Hx Hy. destruct (decide (c = b)) as [->|Hne].
    + destruct Hx as [Hx|[Hf _]]; [|unfold used in Hf; by rewrite Hu in Hf]. unfold tags, span in *. lia.
    + apply Hne. apply (bytes_unique bs c b x (co_order _ _ _ Hcore)); [done|done| |unfold bytes, span in *; lia].
      pose proof (good_range _ _ (co_good _ _ _ Hcore c Hc)). unfold tags, bytes, span in *. lia.
  - intros c Hc. destruct (decide (c = b)) as [->|Hne].
    + unfold owned. rewrite Hu. split_and!; [done|done|done|]. rewrite <- Hsh.
      eapply ld_only; [exact Ho|]. unfold span. lia.
    + apply (owned_bytes (hmem s)); [by apply Hok|]. intros x. by apply Hother.
Qed.

(** A new heap is empty and well formed. *)
Lemma init_ok s :
  pa_wf (hpages s) -> hhdm_ok (hhdm_base s) -> hhdm_base s + max_managed_pages * page_size < 2 ^ 64 ->
  heap_ok (init s) [].
Proof.
  intros Hp Hh Ht. split; cbn; try done; try set_solver.
  - split; [set_solver|constructor|done].
  - intros c d Hc. by apply not_elem_of_nil in Hc.
Qed.

(** ** Requests that fit in no region *)

Lemma alloc_loop_large rounds fuel size k : forall s bs,
  heap_ok s bs -> 3 <= k < 64 -> 65512 < size -> Z.even size = true -> size + 8 < hhdm_base s ->
  (forall c, c ∈ bs -> used c = false -> bn c <= 65536) ->
  (length bs + rounds < fuel)%nat -> (17 <= rounds + length (regions s))%nat ->
  exists s', alloc_loop rounds fuel size (2 ^ k) s = Some (0, s')
    /\ (length (regions s') = 16%nat \/ (pa_alloc (hpages s') 16).1 = invalid_physical_address).
Proof.
  induction rounds as [|rounds IH]; intros s bs Hok Hk Hs Hes Hsz Hmax Hf Hr.
  { pose proof (ho_count _ _ Hok). unfold max_regions in *. lia. }
  pose proof (ho_core _ _ Hok) as Hcore. cbn [alloc_loop].
  destruct (find_fit_spec size (2 ^ k) (hmem s) bs fuel (free_list s)) as [(l1 & b & l2 & -> & Hb & Hfit & ->)|[-> Hno]];
    [apply Hcore|apply Hcore|lia|..]; cbn [mbind option_bind].
  - exfalso. assert (b ∈ l1 ++ b :: l2) as Hin by set_solver. specialize (Hmax b Hin Hb).
    pose proof (co_good _ _ _ Hcore b Hin) as Hg. pose proof (good_range _ _ Hg).
    pose proof (block_above _ _ _ Hok Hin).
    destruct (placement (ba b) (bn b) size k) as (_ & ? & ? & _); first [done|lia|apply Hg|idtac].
  - destruct (grow_heap_spec fuel s bs Hok ltac:(lia)) as (g & s1 & bs1 & -> & Hok1 & _ & _ & Eh & Hlen & Hg & Hfull & Hnew & _).
    cbn [mbind option_bind]. destruct g; cbn [negb].
    + apply (IH s1 bs1); try done; [by rewrite Eh| |lia|specialize (Hg eq_refl); lia].
      intros c Hc Hu. destruct (Hnew c Hc Hu) as [Hold| ->]; [by apply Hmax|done].
    + exists (count_failure s1). split; [done|]. by apply Hfull.
Qed.

(** A region holds 65536 bytes and regions are not joined when they are added:
    a request of more than 65512 bytes fails while no free block exceeds a
    region, and it takes every remaining region (or all the memory) first, so
    the heap cannot grow again.  [kalloc] sends requests of up to 1 MiB here. *)
Theorem large_request_exhausts fuel size s bs :
  heap_ok s bs -> (forall c, c ∈ bs -> used c = false -> bn c <= 65536) ->
  65512 < size -> Z.even size = true -> size + 8 < hhdm_base s -> (length bs + 17 < fuel)%nat ->
  exists s', alloc fuel size 8 s = Some (0, s')
    /\ (length (regions s') = 16%nat \/ (pa_alloc (hpages s') 16).1 = invalid_physical_address).
Proof.
  intros Hok Hmax Hs Hes Hsz Hf. unfold alloc. replace (size =? 0) with false by lia.
  apply (alloc_loop_large alloc_rounds fuel size 3 s bs); try done; unfold alloc_rounds; lia.
Qed.

End Invariant.

(** * Concrete instances *)

(** A page allocator that hands out pages in order. *)
#[export, refine] Instance bump_pages : PageAlloc Z := {|
  pa_wf n := 0 <= n <= max_managed_pages;
  pa_used n q := q <? n;
  pa_alloc n k := if n + k <=? max_managed_pages then (n * page_size, n + k) else (invalid_physical_address, n);
  pa_free n _ _ := n;
|}.
Proof.
  - intros n k Hn Hk. destruct (Z.leb_spec (n + k) max_managed_pages); [left|by right]. exists n. cbn.
    split_and!; try lia. intros q. apply eq_true_iff_eq. rewrite orb_true_iff, in_run_true. lia.
  - intros n page k Hn _ _ _. split; [done|]. by intros q.
Defined.

Definition demo_heap : heap Z := init (Heap (afill 0) [] 0 0 0 0xffff800000000000 0x100).

Lemma demo_heap_ok : heap_ok demo_heap [].
Proof. apply init_ok; [done|split; done|done]. Qed.

Lemma heap_alloc_spec_witness :
  exists u s' bs', alloc 20 4096 64 demo_heap = Some (u, s') /\ u = 0xffff800000100040
    /\ heap_ok s' bs' /\ allocates 4096 6 u [] bs'.
Proof.
  destruct (heap_alloc_spec 20 4096 64 6 demo_heap [] demo_heap_ok) as (u & s' & bs' & E & Hok & _ & _ & Ha & _);
    [reflexivity|lia|lia|reflexivity|vm_compute; reflexivity|cbn; lia|].
  exists u, s', bs'. split_and!; [exact E| |exact Hok|exact Ha].
  assert (fst <$> alloc 20 4096 64 demo_heap = Some 0xffff800000100040) as Eu by (vm_compute; reflexivity).
  rewrite E in Eu. by injection Eu.
Defined.

(** Half a megabyte on an empty heap: sixteen regions later the answer is null. *)
Lemma large_request_exhausts_witness :
  exists s', alloc 20 524288 8 demo_heap = Some (0, s') /\ length (regions s') = 16%nat.
Proof.
  destruct (large_request_exhausts 20 524288 demo_heap [] demo_heap_ok) as (s' & E & _);
    [set_solver|lia|reflexivity|vm_compute; reflexivity|cbn; lia|].
  exists s'. split; [exact E|].
  assert ((fun r => length (regions r.2)) <$> alloc 20 524288 8 demo_heap = Some 16%nat) as El by (vm_compute; reflexivity).
  rewrite E in El. by injection El.
Defined.

(** A block that is allocated and freed again: it is merged with the rest of
    its region, which is one free block as before. *)
Lemma heap_free_spec_witness :
  exists u s1 s2 l1 b l2, alloc 20 4096 8 demo_heap = Some (u, s1) /\ free 20 u s1 = Some s2
    /\ heap_ok s2 (l1 ++ b :: l2) /\ used b = false /\ live (l1 ++ b :: l2) = []
    /\ block_size (hmem s2) 0xffff800000100000 = 65536.
Proof.
  destruct (alloc_cases 20 4096 8 3 demo_heap [] demo_heap_ok) as (u & s1 & bs1 & E & Hok & Hlen & _ & Ha & _);
    [reflexivity|lia|lia|reflexivity|vm_compute; reflexivity|cbn; lia|].
  assert ((fun r => r.1 =? 0) <$> alloc 20 4096 8 demo_heap = Some false) as Eu by (vm_compute; reflexivity).
  assert ((x ← alloc 20 4096 8 demo_heap; s2 ← free 20 x.1 x.2; Some (block_size (hmem s2) 0xffff800000100000)) = Some 65536) as Eb
    by (vm_compute; reflexivity).
  rewrite E in Eu, Eb |- *. injection Eu as Eu%Z.eqb_neq. cbn [mbind option_bind fst snd] in Eb.
  destruct Ha as [[-> _]|(_ & _ & l1 & b & l2 & El & El1 & Hb)]; [exfalso; exact (Eu eq_refl)|]. clear E Eu.
  symmetry in El. apply app_eq_nil in El as [-> ->].
  assert (b ∈ bs1) as Hin by (apply (elem_of_live b bs1); rewrite El1; set_solver).
  apply list_elem_of_split in Hin as (m1 & m2 & ->). cbn [length plus] in Hlen.
  destruct (heap_free_spec 20 s1 m1 b m2 u 4096 Hok Hb ltac:(lia)) as (s2 & l1' & b' & l2' & Ef & Hok2 & Hu' & _ & _ & Hl & _).
  rewrite Ef in Eb. injection Eb as Eb.
  exists u, s1, s2, l1', b', l2'. split_and!; [reflexivity|exact Ef|exact Hok2|exact Hu'| |exact Eb].
  rewrite Hl. apply (live_unique m1 b m2 [] []); [apply (co_order _ _ _ (ho_core _ _ Hok))| |unfold used; by rewrite Hb|done].
  intros c Hc. pose proof (good_range _ _ (co_good _ _ _ (ho_core _ _ Hok) c Hc)). lia.
Defined.

(** An odd request corrupts the heap: the size of its block loses its low bit
    to the allocated flag, so that freeing it reads the next header one byte
    early.  On an empty heap, allocating and freeing 2049 bytes leaves a free
    block of more than 15 MiB in a region of 64 KiB. *)
Theorem odd_request_corrupts :
  exists u s1 s2, alloc 20 2049 8 demo_heap = Some (u, s1) /\ free 20 u s1 = Some s2
    /\ regions s2 = [Hregion 0xffff800000100000 0xffff800000110000]
    /\ free_list s2 = 0xffff800000100008
    /\ block_size (hmem s2) 0xffff800000100000 = 16248600.
Proof.
  assert ((fun r => (regions r, free_list r, block_size (hmem r) 0xffff800000100000))
    <$> (x ← alloc 20 2049 8 demo_heap; free 20 x.1 x.2)
    = Some ([Hregion 0xffff800000100000 0xffff800000110000], 0xffff800000100008, 16248600)) as E
    by (vm_compute; reflexivity).
  destruct (alloc 20 2049 8 demo_heap) as [[u s1]|]; [|discriminate E]. cbn [mbind option_bind fst snd] in E.
  exists u, s1. destruct (free 20 u s1) as [s2|]; [|discriminate E]. exists s2.
  cbn [fmap option_fmap option_map] in E. injection E as E1 E2 E3.
  exact (conj eq_refl (conj eq_refl (conj E1 (conj E2 E3)))).
Qed.
