(* ===== verification/Allocator.v ===== *)
(** The kernel's general allocator: [allocator.cpp].

    Small requests go to the slice allocator, requests of up to 1 MiB to the
    heap, larger ones to the page allocator.  The three share one page
    allocator; slices, heap blocks and page runs live in different pages, so
    each part keeps its own memory here. *)

From S2P Require Import Prelude MemoryMap Pmm PageAlloc Bytes Slice Heap.

Definition page_count_for_size (size : Z) : Z := wrap 64 (size + page_size - 1) / page_size.
Definition heap_threshold : Z := 1024 * 1024.

Record allocator (S : Type) := Allocator {
  al_slice : Slice.slice S;
  al_heap : Heap.heap S;
  al_pages : S;
  al_hhdm : Z;
}.
Arguments Allocator {S}.
Arguments al_slice {S}.
Arguments al_heap {S}.
Arguments al_pages {S}.
Arguments al_hhdm {S}.

Section Operations.
Context {S : Type} `{PageAlloc S}.
Implicit Types (s : allocator S).

(** The parts with the shared page allocator put in, and back. *)
Definition slice_part s : Slice.slice S :=
  let x := al_slice s in Slice.Slice (Slice.mem x) (Slice.classes x) (Slice.slice_stats x) (Slice.hhdm x) (al_pages s).
Definition heap_part s : Heap.heap S := Heap.with_pages (al_pages s) (al_heap s).
Definition put_slice (x : Slice.slice S) s : allocator S :=
  Allocator x (al_heap s) (Slice.pages x) (al_hhdm s).
Definition put_heap (x : Heap.heap S) s : allocator S :=
  Allocator (al_slice s) x (Heap.hpages x) (al_hhdm s).
Definition put_pages (p : S) s : allocator S := Allocator (al_slice s) (al_heap s) p (al_hhdm s).

Definition kalloc (fuel : nat) (size alignment : Z) s : option (Z * allocator S) :=
  if size =? 0 then Some (0, s)
  else if (size <=? 2048) && (alignment <=? 16) then
    let '(p, x) := Slice.alloc size alignment (slice_part s) in Some (p, put_slice x s)
  else if size <=? heap_threshold then
    '(p, x) ← Heap.alloc fuel size alignment (heap_part s); Some (p, put_heap x s)
  else if page_size <? alignment then Some (0, s)
  else
    let '(physical, p) := pa_alloc (al_pages s) (page_count_for_size size) in
    let s := put_pages p s in
    if physical =? invalid_physical_address then Some (0, s)
    else Some (physical_to_virtual (al_hhdm s) physical, s).

Definition kfree (fuel : nat) (pointer size : Z) s : option (allocator S) :=
  if (pointer =? 0) || (size =? 0) then Some s
  else if size <=? 2048 then Some (put_slice (Slice.free pointer size (slice_part s)) s)
  else if Heap.contains pointer (heap_part s) then
    x ← Heap.free fuel pointer (heap_part s); Some (put_heap x s)
  else
    let physical := virtual_to_physical (al_hhdm s) pointer in
    Some (put_pages (pa_free (al_pages s) physical (page_count_for_size size)) s).

End Operations.

Section Correctness.
Context {S : Type} `{PageAlloc S}.
Implicit Types (s : allocator S).

Lemma heap_part_put x s : heap_part (put_heap x s) = x.
Proof. by destruct x. Qed.

(** The user part of an allocated block lies in a region of the heap. *)
Lemma contains_live (x : Heap.heap S) bs b u size :
  Heap.heap_ok x bs -> b ∈ bs -> Heap.bu b = Some (u, size) -> Heap.contains u x = true /\ 0 < u.
Proof.
  intros Hok Hb Hu. pose proof (Heap.ho_owned _ _ Hok b Hb) as Hown. unfold Heap.owned in Hown. rewrite Hu in Hown.
  pose proof (Heap.good_range _ _ (Heap.co_good _ _ _ (Heap.ho_core _ _ Hok) b Hb)).
  destruct Hown as (? & ? & ? & _). split; [|lia]. unfold Heap.contains. replace (u =? 0) with false by lia.
  apply (Heap.ho_tile _ _ Hok). exists b. split; [done|]. unfold Heap.bytes, span. lia.
Qed.

(** An even request between 2048 bytes and 1 MiB that is served is given back
    to the heap by [kfree] with the same size: afterwards the heap is well
    formed and has the allocated blocks it had before, with their contents. *)
Theorem kalloc_kfree_heap fuel s bs size k p s1 :
  Heap.heap_ok (heap_part s) bs -> 2048 < size <= heap_threshold -> Z.even size = true -> 0 <= k < 64 ->
  size + 8 < Heap.hhdm_base (al_heap s) -> (length bs + 17 < fuel)%nat ->
  kalloc fuel size (2 ^ k) s = Some (p, s1) -> p <> 0 ->
  exists s2 bs2, kfree fuel p size s1 = Some s2 /\ Heap.heap_ok (heap_part s2) bs2
    /\ Heap.live bs2 = Heap.live bs /\ Heap.same_data bs (heap_part s) (heap_part s2)
    /\ p mod 2 ^ k = 0 /\ al_slice s2 = al_slice s.
Proof.
  intros Hok Hs Hes Hk Hh Hf. unfold kalloc, heap_threshold in *. replace (size =? 0) with false by lia.
  replace (size <=? 2048) with false by lia. cbn [andb]. replace (size <=? 1024 * 1024) with true by lia.
  destruct (Heap.alloc_cases fuel size (2 ^ k) k (heap_part s) bs) as (u & x1 & bs1 & -> & Hok1 & Hlen & Hd1 & Ha & _);
    try done; [lia|]. cbn [mbind option_bind]. intros [= -> <-] Hp.
  destruct Ha as [[-> _]|(Hu & Hmod & l1 & b & l2 & El & El1 & Hb)]; [done|].
  assert (b ∈ bs1) as Hin by (apply (Heap.elem_of_live b bs1); rewrite El1; set_solver).
  destruct (contains_live x1 bs1 b p size Hok1 Hin Hb) as [Hcon _].
  unfold kfree. replace (p =? 0) with false by lia. replace (size =? 0) with false by lia. cbn [orb].
  replace (size <=? 2048) with false by lia. rewrite heap_part_put, Hcon.
  apply list_elem_of_split in Hin as (m1 & m2 & ->).
  destruct (Heap.free_cases fuel x1 m1 b m2 p size Hok1 Hb ltac:(lia)) as (x2 & k1 & b' & k2 & -> & Hok2 & _ & _ & _ & Hl2 & Hd2).
  cbn [mbind option_bind]. exists (put_heap x2 (put_heap x1 s)), (k1 ++ b' :: k2). rewrite heap_part_put.
  assert (Heap.live m1 ++ Heap.live m2 = l1 ++ l2) as Hlive.
  { apply (Heap.live_unique m1 b m2 l1 l2); [apply (Heap.co_order _ _ _ (Heap.ho_core _ _ Hok1))| |unfold Heap.used; by rewrite Hb|done].
    intros c Hc. pose proof (Heap.good_range _ _ (Heap.co_good _ _ _ (Heap.ho_core _ _ Hok1) c Hc)). lia. }
  split_and!; try done; [by rewrite Hl2, Hlive|].
  intros c y Hc Hy. rewrite (Hd2 c y); [by apply (Hd1 c)| |done]. rewrite Heap.live_app, Hlive, <- El. done.
Qed.

(** A request of at most 2048 bytes with an alignment above 16 comes from the
    heap, but [kfree] takes it for a slice: the heap block is never freed, and
    the pointer becomes the next slice of a size class. *)
Theorem kfree_wrong_pool fuel s size alignment p s1 i c :
  0 < size <= 2048 -> 16 < alignment -> kalloc fuel size alignment s = Some (p, s1) -> p <> 0 ->
  Slice.class_for (Slice.classes (al_slice s)) size 8 = Some i ->
  Slice.classes (al_slice s) !! i = Some c ->
  exists s2 c', kfree fuel p size s1 = Some s2 /\ al_heap s2 = al_heap s1
    /\ Slice.classes (al_slice s2) !! i = Some c' /\ Slice.sc_free_list c' = p.
Proof.
  intros Hs Ha. unfold kalloc, heap_threshold. replace (size =? 0) with false by lia.
  replace (alignment <=? 16) with false by lia. rewrite andb_false_r. replace (size <=? 1024 * 1024) with true by lia.
  destruct (Heap.alloc fuel size alignment (heap_part s)) as [[u x]|]; [|done]. cbn [mbind option_bind].
  intros [= -> <-] Hp Hi Hc. unfold kfree. replace (p =? 0) with false by lia. replace (size =? 0) with false by lia.
  cbn [orb]. replace (size <=? 2048) with true by lia. eexists _, _. split_and!; [reflexivity|done|..].
  - unfold Slice.free. replace (p =? 0) with false by lia. cbn. rewrite Hi, Hc. cbn.
    apply list_lookup_insert_eq. by eapply lookup_lt_Some.
  - done.
Qed.

End Correctness.

(** * Concrete instances *)

Definition demo_allocator : allocator Z :=
  Allocator (Slice.init 0xffff800000000000 (Slice.Slice (afill 0) Slice.classes0 (Slice.Build_SliceStats 0 0 0 0) 0 0x100))
    Heap.demo_heap 0x100 0xffff800000000000.

Lemma kalloc_kfree_heap_witness :
  exists p s1 s2, kalloc 20 4096 64 demo_allocator = Some (p, s1) /\ kfree 20 p 4096 s1 = Some s2 /\ p mod 64 = 0.
Proof.
  assert ((fun r => r.1 =? 0) <$> kalloc 20 4096 64 demo_allocator = Some false) as Eu by (vm_compute; reflexivity).
  destruct (kalloc 20 4096 64 demo_allocator) as [[p s1]|] eqn:E; [|discriminate Eu].
  injection Eu as Hp%Z.eqb_neq.
  destruct (kalloc_kfree_heap 20 demo_allocator [] 4096 6 p s1 Heap.demo_heap_ok) as (s2 & bs2 & Ef & _ & _ & _ & Hmod & _);
    [split; vm_compute; (reflexivity || discriminate)|reflexivity|lia|vm_compute; reflexivity|cbn; lia|exact E|exact Hp|].
  exists p, s1, s2. exact (conj eq_refl (conj Ef Hmod)).
Defined.

Lemma kfree_wrong_pool_witness :
  exists p s1 s2 c', kalloc 20 128 32 demo_allocator = Some (p, s1) /\ kfree 20 p 128 s1 = Some s2
    /\ Slice.classes (al_slice s2) !! 3%nat = Some c' /\ Slice.sc_free_list c' = p.
Proof.
  assert ((fun r => r.1 =? 0) <$> kalloc 20 128 32 demo_allocator = Some false) as Eu by (vm_compute; reflexivity).
  destruct (kalloc 20 128 32 demo_allocator) as [[p s1]|] eqn:E; [|discriminate Eu].
  injection Eu as Hp%Z.eqb_neq.
  destruct (kfree_wrong_pool 20 demo_allocator 128 32 p s1 3%nat (Slice.Build_SizeClass 128 16 0 0 0 0))
    as (s2 & c' & Ef & _ & Hc & Hl);
    [lia|lia|exact E|exact Hp|reflexivity|reflexivity|].
  exists p, s1, s2, c'. exact (conj eq_refl (conj Ef (conj Hc Hl))).
Defined.
