(* ===== verification/KMem.v ===== *)
(** What the kernel's memory management promises to the filesystems and the
    process layer: objects from [kalloc]/[kfree] and page frames from
    [pmm::alloc_page]/[pmm::free_page], out of one pool.

    A client holds a set of objects, each with the size it was asked for, and
    a set of page frames; the two never overlap with what others hold.  The
    slice allocator over any page allocator is an instance. *)

From S2P Require Import Prelude MemoryMap Pmm PageAlloc Slice KAlloc.

Class KMem (A : Type) := {
  km_wf : A -> gmap Z Z -> gset Z -> Prop;
  km_kalloc : Z -> Z -> A -> Z * A;
  km_kfree : Z -> Z -> A -> A;
  km_alloc_page : A -> Z * A;
  km_free_page : Z -> A -> A;
  km_kalloc_law : forall a live frames size alignment, km_wf a live frames -> 0 < size ->
    let r := km_kalloc size alignment a in
    (r.1 = 0 /\ km_wf r.2 live frames)
    \/ (0 < r.1 < 2 ^ 64 /\ live !! r.1 = None /\ km_wf r.2 (<[r.1 := size]> live) frames);
  km_kfree_law : forall a live frames p size, km_wf a live frames -> live !! p = Some size ->
    km_wf (km_kfree p size a) (delete p live) frames;
  km_alloc_page_law : forall a live frames, km_wf a live frames ->
    let r := km_alloc_page a in
    (r.1 = invalid_physical_address /\ km_wf r.2 live frames)
    \/ (exists page, r.1 = page * page_size /\ 0 <= page < max_managed_pages /\ page ∉ frames
        /\ km_wf r.2 live ({[page]} ∪ frames));
  km_free_page_law : forall a live frames page, km_wf a live frames -> page ∈ frames ->
    km_wf (km_free_page (page * page_size) a) live (frames ∖ {[page]});
}.

(** * The slice allocator as an instance *)

(** The pages a client holds belong to no size class. *)
Definition client_class : nat := 8.

Definition slice_km_wf {S} `{PageAlloc S} (s : slice S) (live : gmap Z Z) (frames : gset Z) : Prop :=
  exists own frees, slice_wf s own frees (dom live)
    /\ (forall p size, live !! p = Some size ->
          exists i, slice_ptr (hhdm s) own p i /\ class_for classes0 size 8 = Some i)
    /\ forall page, page ∈ frames -> own !! page = Some client_class /\ 0 <= page < max_managed_pages.

Definition set_pages {S} (s : slice S) (ps : S) : slice S :=
  Slice.Slice (mem s) (classes s) (slice_stats s) (hhdm s) ps.

Lemma slice_ptr_class {off own x i} : slice_ptr off own x i -> i <> client_class.
Proof. intros (n & Hn & _)%slice_ptr_page ->. by vm_compute in Hn. Qed.

(** Changing the owner of a client page does not matter to the slices. *)
Lemma slice_ptr_client off own own' x i :
  (forall q j, j <> client_class -> own !! q = Some j -> own' !! q = Some j) ->
  slice_ptr off own x i -> slice_ptr off own' x i.
Proof.
  intros Hq Hp. pose proof (slice_ptr_class Hp). destruct Hp as (n & page & k & Hn & Ho & Hr).
  exists n, page, k. split_and!; try done; [|naive_solver..]. by apply Hq.
Qed.

Lemma slice_wf_client {S} `{PageAlloc S} (s : slice S) own own' frees live ps :
  slice_wf s own frees live -> pa_wf ps ->
  (forall q j, j <> client_class -> own !! q = Some j -> own' !! q = Some j) ->
  (forall q j, own' !! q = Some j -> pa_used ps q = true) ->
  slice_wf (set_pages s ps) own' frees live.
Proof.
  intros Hwf Hps Hsub Hused. destruct Hwf. split; cbn; try done.
  - intros i x Hx. destruct (w_free i x Hx). split; [by eapply slice_ptr_client|done].
  - intros x Hx. destruct (w_live x Hx) as [i Hi]. exists i. by eapply slice_ptr_client.
Qed.

#[export, refine] Instance slice_kmem {S} `{PageAlloc S} : KMem (slice S) := {|
  km_wf := slice_km_wf;
  km_kalloc size alignment s := alloc size alignment s;
  km_kfree p size s := free p size s;
  km_alloc_page s := let '(r, ps) := pa_alloc (pages s) 1 in (r, set_pages s ps);
  km_free_page phys s := set_pages s (pa_free (pages s) phys 1);
|}.
Proof.
  - intros s live frames size alignment (own & frees & Hwf & Hlive & Hfr) Hs r. subst r.
    destruct (class_for classes0 size alignment) as [i|] eqn:Hc.
    + destruct (class_for_lookup _ _ _ Hc) as [n Hn].
      destruct (slice_alloc_cases s own frees (dom live) size alignment i n Hwf Hc Hn)
        as [[H1 H2]|(own' & frees' & Hw & Hsub & Hsp & Hpos & _ & _ & Hdis)].
      * left. split; [done|]. exists own, frees. split_and!; [done| |done]. intros p sz Hp.
        rewrite hhdm_alloc. auto.
      * right. set (p := (alloc size alignment s).1) in *.
        assert (live !! p = None) as Hnone.
        { apply not_elem_of_dom. intros Hin.
          destruct (Hdis p i n Hin Hsp Hn); destruct (class_sizes_range i n Hn) as ((? & ?) & _); lia. }
        split; [pose proof (slice_ptr_pos _ _ _ _ (w_hhdm _ _ _ _ Hwf) Hsp); lia|].
        split; [done|]. exists own', frees'. rewrite dom_insert_L. split_and!; [done| |].
        -- intros q sz. rewrite hhdm_alloc, lookup_insert. case_decide as Hd.
           ++ intros [= <-]. subst q. exists i. split; [done|]. by eapply class_for_align.
           ++ intros Hq. destruct (Hlive q sz Hq) as (j & Hj & ?). exists j.
              split; [by eapply slice_ptr_mono|done].
        -- intros q Hq. destruct (Hfr q Hq). split; [by eapply lookup_weaken|done].
    + left. rewrite (alloc_none _ own frees (dom live)) by done. split; [done|].
      exists own, frees. split_and!; [by apply count_failure_wf|done|done].
  - intros s live frames p size (own & frees & Hwf & Hlive & Hfr) Hp.
    destruct (Hlive p size Hp) as (i & Hsp & Hc).
    exists own, (upd_frees frees i (p :: frees i)). rewrite dom_delete_L.
    assert (hhdm (free p size s) = hhdm s) as Hh by (unfold free; repeat (case_match; try done)).
    split_and!; [apply slice_free_cases; [done|by apply elem_of_dom|done|done]| |done].
    intros q sz [Hne Hq]%lookup_delete_Some. rewrite Hh. auto.
  - intros s live frames (own & frees & Hwf & Hlive & Hfr).
    pose proof (pa_alloc_law (pages s) 1 (w_pages _ _ _ _ Hwf)) as Hlaw.
    destruct (pa_alloc (pages s) 1) as [r ps]. cbn [fst snd] in *.
    destruct Hlaw as [(page & -> & Hp0 & Hm & Hfree & Hps & Hu)|[= -> ->]]; [unfold max_managed_pages; lia|right|left].
    2:{ split; [done|]. exists own, frees. split_and!; [by destruct s|done|done]. }
    assert (own !! page = None) as Hown.
    { destruct (own !! page) as [j|] eqn:E; [|done]. apply (w_own _ _ _ _ Hwf) in E. by rewrite Hfree in E by lia. }
    exists page. split_and!; [done|lia|lia|by intros [? _]%Hfr; congruence|].
    assert (forall q j, j <> client_class -> own !! q = Some j -> (<[page:=client_class]> own) !! q = Some j) as Hmono.
    { intros q j _ Hq. rewrite lookup_insert_ne; congruence. }
    exists (<[page := client_class]> own), frees. split_and!.
    + apply (slice_wf_client s own _ frees (dom live) ps Hwf Hps Hmono).
      intros q j. rewrite lookup_insert, Hu. case_decide as Hd.
      * intros _. apply orb_true_iff. right. apply in_run_true. lia.
      * intros Hq. by rewrite (w_own _ _ _ _ Hwf q j Hq).
    + intros p size Hp. destruct (Hlive p size Hp) as (i & Hi & ?). exists i. split; [|done]. by eapply slice_ptr_client.
    + intros q [->%elem_of_singleton|Hq]%elem_of_union; [split; [apply lookup_insert_eq|lia]|].
      destruct (Hfr q Hq). split; [|done]. rewrite lookup_insert_ne; congruence.
  - intros s live frames page (own & frees & Hwf & Hlive & Hfr) Hpage. destruct (Hfr page Hpage) as [Hown Hr].
    destruct (pa_free_law (pages s) page 1 (w_pages _ _ _ _ Hwf) Hr ltac:(lia)) as [Hps Hu];
      [unfold max_managed_pages in *; lia|].
    assert (forall q j, j <> client_class -> own !! q = Some j -> delete page own !! q = Some j) as Hmono.
    { intros q j Hj Hq. rewrite lookup_delete_ne; congruence. }
    exists (delete page own), frees. split_and!.
    + apply (slice_wf_client s own _ frees (dom live) _ Hwf Hps Hmono).
      intros q j [Hne Hq]%lookup_delete_Some. destruct (Hu q) as [_ ->]; [by eapply w_own|].
      apply not_true_iff_false. rewrite in_run_true. lia.
    + intros p size Hp. destruct (Hlive p size Hp) as (i & Hi & ?). exists i. split; [|done]. by eapply slice_ptr_client.
    + intros q [Hq Hne]%elem_of_difference. destruct (Hfr q Hq). split; [|done]. rewrite lookup_delete_ne; [done|set_solver].
Defined.

(** * A bump allocator as a second instance *)

(** Objects and frames are handed out in order; nothing is reused. *)
Record bump := Bump { next_object : Z; next_frame : Z }.

#[export, refine] Instance bump_kmem : KMem bump := {|
  km_wf a live frames :=
    (0 < next_object a < 2 ^ 64 /\ 0 <= next_frame a)
    /\ (forall p size, live !! p = Some size -> p < next_object a)
    /\ (forall q, q ∈ frames -> q < next_frame a);
  km_kalloc size _ a :=
    if next_object a + size <? 2 ^ 64 then (next_object a, Bump (next_object a + size) (next_frame a)) else (0, a);
  km_kfree _ _ a := a;
  km_alloc_page a :=
    if next_frame a <? max_managed_pages
    then (next_frame a * page_size, Bump (next_object a) (next_frame a + 1)) else (invalid_physical_address, a);
  km_free_page _ a := a;
|}.
Proof.
  - intros a live frames size _ ([Ha Hf] & Hl & Hq) Hs. cbn. destruct (Z.ltb_spec (next_object a + size) (2 ^ 64)); cbn; [right|by left].
    split_and!; try (done || lia).
    + destruct (live !! next_object a) as [sz|] eqn:E; [|done]. apply Hl in E. lia.
    + intros p sz. rewrite lookup_insert. case_decide; [lia|]. intros Hp%Hl. lia.
  - intros a live frames p size (Ha & Hl & Hq) _. split; [done|]. split; [|done]. intros q sz [_ Hx]%lookup_delete_Some. by eapply Hl.
  - intros a live frames ([Ha Hf] & Hl & Hq). cbn. destruct (Z.ltb_spec (next_frame a) max_managed_pages); cbn; [right|by left].
    exists (next_frame a). split_and!; try lia; try done.
    + intros Hx%Hq. lia.
    + intros q [->%elem_of_singleton|Hx%Hq]%elem_of_union; lia.
  - intros a live frames page (Ha & Hl & Hq) _. split; [done|]. split; [done|]. intros q Hx. apply Hq. set_solver.
Defined.
