(* ===== verification/VfsBase.v ===== *)
(** What the virtual filesystem and the filesystems share: [vfs.hpp] and the
    string helpers of [string.hpp].

    A C string is the list of its bytes before the terminating zero.  An
    operation that returns [None] would read an object that does not exist,
    which the C++ code leaves undefined. *)

From S2P Require Import Prelude Bytes.

Definition E_SUCCESS : Z := 0.
Definition E_NOT_FOUND : Z := -1.
Definition E_EXISTS : Z := -2.
Definition E_NOT_DIR : Z := -3.
Definition E_IS_DIR : Z := -4.
Definition E_INVALID : Z := -5.
Definition E_NO_SPACE : Z := -6.
Definition E_IO : Z := -7.
Definition E_BAD_FD : Z := -8.
Definition E_NOT_EMPTY : Z := -9.

Definition O_RDONLY : Z := 0.
Definition O_WRONLY : Z := 1.
Definition O_RDWR : Z := 2.
Definition O_CREAT : Z := 4.

Inductive VnodeType := File | Directory.

#[export] Instance vnode_type_eq_dec : EqDecision VnodeType.
Proof. solve_decision. Defined.

Definition is_directory (t : VnodeType) : bool := match t with Directory => true | File => false end.

Notation str := (list Z).

Record Stat := Build_Stat { stat_type : VnodeType; stat_size : Z }.
Record Dirent := Build_Dirent { dirent_name : str; dirent_type : VnodeType }.

(** * Strings *)

(** [while (s[len]) ++len;] *)
Fixpoint string_length (s : str) : Z :=
  match s with [] => 0 | _ :: s => 1 + string_length s end.

(** [while ( *a && *b && *a == *b) { ++a; ++b; } return *a == *b;] *)
Fixpoint string_equals (a b : str) : bool :=
  match a, b with
  | x :: a, y :: b => if x =? y then string_equals a b else false
  | [], [] => true
  | _, _ => false
  end.

(** The string that [copy_string(dst, src, max_len)] leaves in [dst]: the loop
    copies while [i < max_len - 1] and the source has not ended. *)
Fixpoint copy_loop (room : nat) (src : str) : str :=
  match room, src with
  | S room, c :: src => c :: copy_loop room src
  | _, _ => []
  end.
Definition copy_string (src : str) (max_len : Z) : str := copy_loop (Z.to_nat (max_len - 1)) src.

(** [for (i = 0; i < size; ++i) d[i] = s[i];] *)
Definition copy_memory (dst src size : Z) (m : bmem) : bmem :=
  for_z 0 size (fun i m => aset m (dst + i) (aget m (src + i))) m.

Definition zero_memory (dst size : Z) (m : bmem) : bmem :=
  for_z 0 size (fun i m => aset m (dst + i) 0) m.

Lemma string_equals_spec a b : string_equals a b = true <-> a = b.
Proof.
  revert b. induction a as [|x a IH]; intros [|y b]; cbn; try done.
  destruct (Z.eqb_spec x y) as [->|Hne]; [rewrite IH|]; split; congruence.
Qed.

Lemma string_length_length s : string_length s = Z.of_nat (length s).
Proof. induction s as [|c s IH]; cbn [string_length length]; [done|]. lia. Qed.

Lemma copy_loop_take n src : copy_loop n src = take n src.
Proof. revert src. induction n as [|n IH]; intros [|c src]; cbn; rewrite ?IH; done. Qed.

(** A name that fits its buffer is copied unchanged. *)
Lemma copy_string_fits src max_len : Z.of_nat (length src) < max_len -> copy_string src max_len = src.
Proof. intros Hl. unfold copy_string. rewrite copy_loop_take. apply take_ge. lia. Qed.

Lemma zero_memory_spec dst size m x : 0 <= size ->
  aget (zero_memory dst size m) x = if (dst <=? x) && (x <? dst + size) then 0 else aget m x.
Proof.
  intros Hs. unfold zero_memory.
  apply (for_z_inv (fun k m' => aget m' x = if (dst <=? x) && (x <? dst + k) then 0 else aget m x)); [done| |].
  - by replace ((dst <=? x) && (x <? dst + 0)) with false by lia.
  - intros i m' Hi IH. rewrite aget_aset. case_decide as Hd.
    + by replace ((dst <=? x) && (x <? dst + (i + 1))) with true by lia.
    + rewrite IH. by replace (x <? dst + (i + 1)) with (x <? dst + i) by lia.
Qed.

(** * The interface of a filesystem

    What the [ops] table of a vnode and the counters of the vnode itself look
    like to the virtual filesystem.  A vnode is named by its address; an
    operation gets the state of the filesystem and gives back an error code
    (zero or negative), its results and the new state. *)
Class VnodeFs (F : Type) := {
  vn_type : Z -> F -> option VnodeType;
  vn_ref : Z -> F -> option F;
  vn_unref : Z -> F -> option F;
  vn_set_mount_parent : Z -> Z -> F -> option F;
  op_lookup : Z -> str -> F -> option (Z * Z * F);
  op_create : Z -> str -> F -> option (Z * Z * F);
  has_mkdir : Z -> F -> bool;
  op_mkdir : Z -> str -> F -> option (Z * F);
  has_read : Z -> F -> bool;
  op_read : Z -> Z -> bmem -> Z -> F -> option (Z * Z * bmem * F);
  has_write : Z -> F -> bool;
  op_write : Z -> Z -> bmem -> Z -> F -> option (Z * Z * F);
  has_readdir : Z -> F -> bool;
  op_readdir : Z -> Z -> F -> option (Z * Dirent * Z * F);
  has_stat : Z -> F -> bool;
  op_stat : Z -> F -> option (Z * Stat * F);
  (** Looking up and counting references do not change what a vnode is. *)
  vn_ref_type : forall v w s s', vn_ref w s = Some s' -> vn_type v s' = vn_type v s;
  vn_unref_type : forall v w s s', vn_unref w s = Some s' -> vn_type v s' = vn_type v s;
}.

(** [struct FilesystemOps] *)
Record FilesystemOps (F : Type) := Build_FilesystemOps {
  fs_mount : F -> option (Z * Z * F);
  fs_unmount : Z -> F -> option (Z * F);
}.
Arguments fs_mount {F}.
Arguments fs_unmount {F}.
