(* ===== verification/Ramfs.v ===== *)
(** The in-memory filesystem: [ramfs.cpp].

    Vnodes, directories and files are objects in stores indexed by their
    address; the entry array of a directory and the page array of a file are
    parts of those objects, with the address they were allocated at.  File
    contents live in page frames, addressed physically.  Freeing an object
    returns its memory to the allocator but leaves the stale object in the
    store, as the code leaves it in memory. *)

From S2P Require Import Prelude MemoryMap Pmm PageAlloc Bytes KMem VfsBase.

Definition kPageSize : Z := 4096.

Record Vnode := Build_Vnode {
  v_type : VnodeType;
  v_ops : Z;
  private_data : Z;
  ref_count : Z;
  mount_parent : Z;
}.

Record RamfsEntry := Build_RamfsEntry { e_name : str; e_vnode : Z }.

(** [entries] with its [count] elements, the address of the array and its
    capacity. *)
Record RamfsDir := Build_RamfsDir { d_array : Z; d_entries : list RamfsEntry; d_capacity : Z }.

(** [pages] with its [page_count] elements, and the address of the array. *)
Record RamfsFile := Build_RamfsFile { f_array : Z; f_pages : list Z; f_size : Z }.

Definition sizeof_Vnode : Z := 40.
Definition sizeof_RamfsDir : Z := 24.
Definition sizeof_RamfsFile : Z := 24.
Definition sizeof_RamfsEntry : Z := 264.
Definition name_size : Z := 256.

Record ramfs (A : Type) := Ramfs {
  vnodes : gmap Z Vnode;
  dirs : gmap Z RamfsDir;
  files : gmap Z RamfsFile;
  fmem : bmem;
  kmem : A;
}.
Arguments Ramfs {A}.
Arguments vnodes {A}.
Arguments dirs {A}.
Arguments files {A}.
Arguments fmem {A}.
Arguments kmem {A}.

Definition count (d : RamfsDir) : Z := Z.of_nat (length (d_entries d)).
Definition page_count (f : RamfsFile) : Z := Z.of_nat (length (f_pages f)).

Section Operations.
Context {A : Type} `{KMem A}.
Implicit Types (s : ramfs A).

Definition set_vnode (p : Z) (v : Vnode) s : ramfs A :=
  Ramfs (<[p := v]> (vnodes s)) (dirs s) (files s) (fmem s) (kmem s).
Definition set_dir (p : Z) (d : RamfsDir) s : ramfs A :=
  Ramfs (vnodes s) (<[p := d]> (dirs s)) (files s) (fmem s) (kmem s).
Definition set_file (p : Z) (f : RamfsFile) s : ramfs A :=
  Ramfs (vnodes s) (dirs s) (<[p := f]> (files s)) (fmem s) (kmem s).
Definition set_kmem (a : A) s : ramfs A := Ramfs (vnodes s) (dirs s) (files s) (fmem s) a.
Definition set_fmem (m : bmem) s : ramfs A := Ramfs (vnodes s) (dirs s) (files s) m (kmem s).

Definition kalloc (size alignment : Z) s : Z * ramfs A :=
  let '(p, a) := km_kalloc size alignment (kmem s) in (p, set_kmem a s).
Definition kfree (p size : Z) s : ramfs A := set_kmem (km_kfree p size (kmem s)) s.

(** ** Vnode references, [vfs.cpp] *)

Definition vnode_ref (vnode : Z) s : option (ramfs A) :=
  if vnode =? 0 then Some s
  else
    v ← vnodes s !! vnode;
    Some (set_vnode vnode (Build_Vnode (v_type v) (v_ops v) (private_data v) (ref_count v +64 1) (mount_parent v)) s).

Definition vnode_unref (vnode : Z) s : option (ramfs A) :=
  if vnode =? 0 then Some s
  else
    v ← vnodes s !! vnode;
    Some (if 0 <? ref_count v
          then set_vnode vnode (Build_Vnode (v_type v) (v_ops v) (private_data v) (ref_count v - 1) (mount_parent v)) s
          else s).

(** ** Objects *)

Definition alloc_dir s : Z * ramfs A :=
  let '(dir, s) := kalloc sizeof_RamfsDir 8 s in
  if dir =? 0 then (0, s) else (dir, set_dir dir (Build_RamfsDir 0 [] 0) s).

Definition alloc_file s : Z * ramfs A :=
  let '(file, s) := kalloc sizeof_RamfsFile 8 s in
  if file =? 0 then (0, s) else (file, set_file file (Build_RamfsFile 0 [] 0) s).

(** [ops] is set by the callers. *)
Definition create_vnode (type : VnodeType) s : Z * ramfs A :=
  let '(vnode, s) := kalloc sizeof_Vnode 8 s in
  if vnode =? 0 then (0, s) else (vnode, set_vnode vnode (Build_Vnode type 0 0 1 0) s).

(** ** Directories *)

(** [while (new_cap < needed) new_cap *= 2;] *)
Fixpoint double_until (fuel : nat) (new_cap needed : Z) : Z :=
  match fuel with
  | O => new_cap
  | Datatypes.S fuel => if new_cap <? needed then double_until fuel (new_cap *64 2) needed else new_cap
  end.

Definition ensure_dir_capacity (dir needed : Z) s : option (Z * ramfs A) :=
  d ← dirs s !! dir;
  if needed <=? d_capacity d then Some (0, s)
  else
    let new_cap := if negb (d_capacity d =? 0) then d_capacity d *64 2 else 8 in
    let new_cap := double_until 64 new_cap needed in
    let '(new_entries, s) := kalloc (new_cap *64 sizeof_RamfsEntry) 8 s in
    if new_entries =? 0 then Some (E_NO_SPACE, s)
    else
      let s := if negb (d_array d =? 0) then kfree (d_array d) (d_capacity d *64 sizeof_RamfsEntry) s else s in
      Some (0, set_dir dir (Build_RamfsDir new_entries (d_entries d) new_cap) s).

Definition dir_add_entry (dir : Z) (name : str) (vnode : Z) s : option (Z * ramfs A) :=
  d ← dirs s !! dir;
  '(err, s) ← ensure_dir_capacity dir (count d +64 1) s;
  if err <? 0 then Some (err, s)
  else
    s ← vnode_ref vnode s;
    d ← dirs s !! dir;
    let e := Build_RamfsEntry (copy_string name name_size) vnode in
    Some (0, set_dir dir (Build_RamfsDir (d_array d) (d_entries d ++ [e]) (d_capacity d)) s).

(** The index of the first entry with the name. *)
Fixpoint find_entry (name : str) (es : list RamfsEntry) (i : nat) : option nat :=
  match es with
  | [] => None
  | e :: es => if string_equals (e_name e) name then Some i else find_entry name es (Datatypes.S i)
  end.

Definition dir_find_entry (d : RamfsDir) (name : str) : option nat := find_entry name (d_entries d) 0.

Definition dir_remove_entry (dir : Z) (idx : nat) s : option (ramfs A) :=
  d ← dirs s !! dir;
  if bool_decide (length (d_entries d) <= idx)%nat then Some s
  else
    e ← d_entries d !! idx;
    s ← vnode_unref (e_vnode e) s;
    Some (set_dir dir
      (Build_RamfsDir (d_array d) (take idx (d_entries d) ++ drop (Datatypes.S idx) (d_entries d)) (d_capacity d)) s).

(** ** The operations of a vnode *)

Definition ramdir_of (v : Z) s : option Z := private_data <$> vnodes s !! v.

Definition ramfs_lookup (dir : Z) (name : str) s : option (Z * Z * ramfs A) :=
  ramdir ← ramdir_of dir s;
  d ← dirs s !! ramdir;
  match dir_find_entry d name with
  | None => Some (E_NOT_FOUND, 0, s)
  | Some idx => e ← d_entries d !! idx; Some (0, e_vnode e, s)
  end.

Definition set_ops (vnode ops data : Z) s : option (ramfs A) :=
  v ← vnodes s !! vnode;
  Some (set_vnode vnode (Build_Vnode (v_type v) ops data (ref_count v) (mount_parent v)) s).

Definition ramfs_create (dir : Z) (name : str) s : option (Z * Z * ramfs A) :=
  dv ← vnodes s !! dir;
  let ramdir := private_data dv in
  d ← dirs s !! ramdir;
  match dir_find_entry d name with
  | Some _ => Some (E_EXISTS, 0, s)
  | None =>
      let '(vnode, s) := create_vnode File s in
      if vnode =? 0 then Some (E_NO_SPACE, 0, s)
      else
        s ← set_ops vnode (v_ops dv) 0 s;
        let '(file, s) := alloc_file s in
        if file =? 0 then Some (E_NO_SPACE, 0, kfree vnode sizeof_Vnode s)
        else
          s ← set_ops vnode (v_ops dv) file s;
          '(err, s) ← dir_add_entry ramdir name vnode s;
          if err <? 0 then Some (err, 0, kfree vnode sizeof_Vnode (kfree file sizeof_RamfsFile s))
          else Some (0, vnode, s)
  end.

Definition ramfs_mkdir (dir : Z) (name : str) s : option (Z * ramfs A) :=
  dv ← vnodes s !! dir;
  let ramdir := private_data dv in
  d ← dirs s !! ramdir;
  match dir_find_entry d name with
  | Some _ => Some (E_EXISTS, s)
  | None =>
      let '(vnode, s) := create_vnode Directory s in
      if vnode =? 0 then Some (E_NO_SPACE, s)
      else
        s ← set_ops vnode (v_ops dv) 0 s;
        let '(subdir, s) := alloc_dir s in
        if subdir =? 0 then Some (E_NO_SPACE, kfree vnode sizeof_Vnode s)
        else
          s ← set_ops vnode (v_ops dv) subdir s;
          '(err, s) ← dir_add_entry ramdir name vnode s;
          if err <? 0 then Some (err, kfree vnode sizeof_Vnode (kfree subdir sizeof_RamfsDir s))
          else Some (0, s)
  end.

Definition ramfs_rmdir (dir : Z) (name : str) s : option (Z * ramfs A) :=
  ramdir ← ramdir_of dir s;
  d ← dirs s !! ramdir;
  match dir_find_entry d name with
  | None => Some (E_NOT_FOUND, s)
  | Some idx =>
      e ← d_entries d !! idx;
      t ← vnodes s !! e_vnode e;
      if negb (is_directory (v_type t)) then Some (E_NOT_DIR, s)
      else
        td ← dirs s !! private_data t;
        if 0 <? count td then Some (E_NOT_EMPTY, s)
        else
          let s := kfree (private_data t) sizeof_RamfsDir s in
          let s := kfree (e_vnode e) sizeof_Vnode s in
          s ← dir_remove_entry ramdir idx s;
          Some (0, s)
  end.

(** [for (i = 0; i < page_count; ++i) if (pages[i]) free_page(pages[i]);] *)
Definition free_pages (pages : list Z) (a : A) : A :=
  foldl (fun a p => if p =? 0 then a else km_free_page p a) a pages.

Definition ramfs_unlink (dir : Z) (name : str) s : option (Z * ramfs A) :=
  ramdir ← ramdir_of dir s;
  d ← dirs s !! ramdir;
  match dir_find_entry d name with
  | None => Some (E_NOT_FOUND, s)
  | Some idx =>
      e ← d_entries d !! idx;
      t ← vnodes s !! e_vnode e;
      if is_directory (v_type t) then Some (E_IS_DIR, s)
      else
        f ← files s !! private_data t;
        let s := set_kmem (free_pages (f_pages f) (kmem s)) s in
        let s := if negb (f_array f =? 0) then kfree (f_array f) (page_count f *64 8) s else s in
        let s := kfree (private_data t) sizeof_RamfsFile s in
        let s := kfree (e_vnode e) sizeof_Vnode s in
        s ← dir_remove_entry ramdir idx s;
        Some (0, s)
  end.

(** ** File contents *)

Definition copy_out (m : bmem) (src dst chunk : Z) (buf : bmem) : bmem :=
  for_z 0 chunk (fun i buf => aset buf (dst + i) (aget m (src + i))) buf.

(** The loop of [ramfs_read]; [buf] is the caller's buffer. *)
Fixpoint read_loop (fuel : nat) (f : RamfsFile) (m : bmem) (offset size done : Z) (buf : bmem)
    : option (Z * bmem) :=
  match fuel with
  | O => None
  | Datatypes.S fuel =>
      if done <? size then
        let page_idx := (offset +64 done) / kPageSize in
        let page_off := (offset +64 done) mod kPageSize in
        let chunk := kPageSize - page_off in
        let chunk := if size - done <? chunk then size - done else chunk in
        let buf :=
          match (if page_idx <? page_count f then f_pages f !! Z.to_nat page_idx else None) with
          | Some p => if p =? 0 then buf else copy_out m (p + page_off) done chunk buf
          | None => buf
          end in
        read_loop fuel f m offset size (done +64 chunk) buf
      else Some (done, buf)
  end.

(** Every round but the first starts at a page boundary. *)
Definition io_rounds (size : Z) : nat := Z.to_nat (size / kPageSize + 3).

Definition ramfs_read (node offset : Z) (buf : bmem) (size : Z) s : option (Z * Z * bmem * ramfs A) :=
  fp ← ramdir_of node s;
  f ← files s !! fp;
  if f_size f <=? offset then Some (0, 0, buf, s)
  else
    let available := f_size f -64 offset in
    let size := if available <? size then available else size in
    '(done, buf) ← read_loop (io_rounds size) f (fmem s) offset size 0 buf;
    Some (0, done, buf, s).

(** The loop of [ramfs_write] on the file at [fp]. *)
Fixpoint write_loop (fuel : nat) (fp offset size done : Z) (buf : bmem) s : option (Z * ramfs A) :=
  match fuel with
  | O => None
  | Datatypes.S fuel =>
      if done <? size then
        let page_idx := (offset +64 done) / kPageSize in
        let page_off := (offset +64 done) mod kPageSize in
        let chunk := kPageSize - page_off in
        let chunk := if size - done <? chunk then size - done else chunk in
        f ← files s !! fp;
        p ← f_pages f !! Z.to_nat page_idx;
        let '(err, p, s) :=
          if p =? 0 then
            let '(phys, a) := km_alloc_page (kmem s) in
            let s := set_kmem a s in
            if phys =? invalid_physical_address then (E_NO_SPACE, 0, s)
            else (0, phys, set_file fp (Build_RamfsFile (f_array f) (<[Z.to_nat page_idx := phys]> (f_pages f)) (f_size f)) s)
          else (0, p, s) in
        if err <? 0 then Some (err, s)
        else
          let s := set_fmem (copy_out buf done (p + page_off) chunk (fmem s)) s in
          write_loop fuel fp offset size (done +64 chunk) buf s
      else Some (0, s)
  end.

(** A larger page array, with the old entries and zeros. *)
Definition grow_pages (fp needed_pages : Z) s : option (Z * ramfs A) :=
  f ← files s !! fp;
  if page_count f <? needed_pages then
    let '(new_pages, s) := kalloc (needed_pages *64 8) 8 s in
    if new_pages =? 0 then Some (E_NO_SPACE, s)
    else
      let pages := f_pages f ++ replicate (Z.to_nat (needed_pages - page_count f)) 0 in
      let s := if negb (f_array f =? 0) then kfree (f_array f) (page_count f *64 8) s else s in
      Some (0, set_file fp (Build_RamfsFile new_pages pages (f_size f)) s)
  else Some (0, s).

Definition ramfs_write (node offset : Z) (buf : bmem) (size : Z) s : option (Z * Z * ramfs A) :=
  fp ← ramdir_of node s;
  let end_ := offset +64 size in
  let needed_pages := wrap 64 (end_ + kPageSize - 1) / kPageSize in
  '(err, s) ← grow_pages fp needed_pages s;
  if err <? 0 then Some (err, 0, s)
  else
    '(err, s) ← write_loop (io_rounds size) fp offset size 0 buf s;
    if err <? 0 then Some (err, 0, s)
    else
      f ← files s !! fp;
      let s := if f_size f <? end_ then set_file fp (Build_RamfsFile (f_array f) (f_pages f) end_) s else s in
      Some (0, size, s).

Definition ramfs_readdir (dir offset : Z) s : option (Z * Dirent * Z * ramfs A) :=
  ramdir ← ramdir_of dir s;
  d ← dirs s !! ramdir;
  if count d <=? offset then Some (E_NOT_FOUND, Build_Dirent [] File, offset, s)
  else
    e ← d_entries d !! Z.to_nat offset;
    v ← vnodes s !! e_vnode e;
    Some (0, Build_Dirent (copy_string (e_name e) name_size) (v_type v), offset +64 1, s).

Definition ramfs_stat (node : Z) s : option (Z * Stat * ramfs A) :=
  v ← vnodes s !! node;
  match v_type v with
  | File => f ← files s !! private_data v; Some (0, Build_Stat File (f_size f), s)
  | Directory => Some (0, Build_Stat Directory 0, s)
  end.

(** ** Mounting *)

(** The address of the static table [ramfs_vnode_ops]. *)
Definition ramfs_vnode_ops : Z := 1.

Definition ramfs_mount s : option (Z * Z * ramfs A) :=
  let '(root, s) := create_vnode Directory s in
  if root =? 0 then Some (E_NO_SPACE, 0, s)
  else
    let '(dir, s) := alloc_dir s in
    if dir =? 0 then Some (E_NO_SPACE, 0, kfree root sizeof_Vnode s)
    else
      s ← set_ops root ramfs_vnode_ops dir s;
      Some (0, root, s).

Definition ramfs_unmount (root : Z) s : option (Z * ramfs A) :=
  v ← vnodes s !! root;
  match v_type v with
  | Directory =>
      d ← dirs s !! private_data v;
      let s := if negb (d_array d =? 0) then kfree (d_array d) (d_capacity d *64 sizeof_RamfsEntry) s else s in
      let s := kfree (private_data v) sizeof_RamfsDir s in
      Some (0, kfree root sizeof_Vnode s)
  | File => Some (0, kfree root sizeof_Vnode s)
  end.

Definition ramfs_ops : FilesystemOps (ramfs A) := Build_FilesystemOps _ ramfs_mount ramfs_unmount.

End Operations.

(** * File contents *)

Lemma copy_out_spec m src dst chunk buf x : 0 <= chunk ->
  aget (copy_out m src dst chunk buf) x
  = if (dst <=? x) && (x <? dst + chunk) then aget m (src + (x - dst)) else aget buf x.
Proof.
  intros Hc. unfold copy_out.
  apply (for_z_inv (fun k b => aget b x = if (dst <=? x) && (x <? dst + k) then aget m (src + (x - dst)) else aget buf x));
    [done| |].
  - by replace ((dst <=? x) && (x <? dst + 0)) with false by lia.
  - intros i b Hi IH. rewrite aget_aset. case_decide as Hd.
    + replace ((dst <=? x) && (x <? dst + (i + 1))) with true by lia. f_equal. lia.
    + rewrite IH. by replace (x <? dst + (i + 1)) with (x <? dst + i) by lia.
Qed.

#[local] Opaque copy_out.

(** The byte of a file at an offset; [None] in a page that was never written. *)
Definition file_byte (f : RamfsFile) (m : bmem) (off : Z) : option Z :=
  match f_pages f !! Z.to_nat (off / kPageSize) with
  | Some p => if p =? 0 then None else Some (aget m (p + off mod kPageSize))
  | None => None
  end.

(** The frames of a file: page aligned, held by the client, and different for
    different pages of the file. *)
Record pages_ok (f : RamfsFile) (frames : gset Z) : Prop := {
  po_frame : forall i p, f_pages f !! i = Some p -> p <> 0 ->
    exists page, p = page * kPageSize /\ page ∈ frames /\ 0 <= page;
  po_inj : forall i j p, f_pages f !! i = Some p -> f_pages f !! j = Some p -> p <> 0 -> i = j;
}.

(** The address of a byte determines its page and its place in it. *)
Lemma byte_addr_inj f frames i j p q x y :
  pages_ok f frames -> f_pages f !! i = Some p -> f_pages f !! j = Some q -> p <> 0 -> q <> 0 ->
  0 <= x < 4096 -> 0 <= y < 4096 -> p + x = q + y -> i = j /\ x = y.
Proof.
  intros Hok Hp Hq Hp0 Hq0 Hx Hy E. unfold kPageSize in *.
  destruct (po_frame _ _ Hok i p Hp Hp0) as (a & -> & _). destruct (po_frame _ _ Hok j q Hq Hq0) as (b & -> & _).
  unfold kPageSize in *. assert (a = b) as -> by lia. split; [by eapply po_inj|lia].
Qed.

(** How many rounds the copy loops still take. *)
Definition rounds_left (offset size done : Z) : Z :=
  if done <? size then (offset + size - 1) / 4096 - (offset + done) / 4096 + 2 else 1.

(** One round ends at the end of the request or at a page boundary. *)
Lemma round_progress offset size done :
  0 <= offset -> 0 <= done < size ->
  let off := (offset + done) mod 4096 in
  let chunk := if size - done <? 4096 - off then size - done else 4096 - off in
  0 < chunk <= 4096 - off /\ done + chunk <= size
  /\ rounds_left offset size (done + chunk) < rounds_left offset size done.
Proof.
  intros Ho Hd off chunk. unfold rounds_left. replace (done <? size) with true by lia. subst off chunk.
  pose proof (Z.mod_pos_bound (offset + done) 4096 ltac:(lia)) as Hm.
  destruct (Z.ltb_spec (size - done) (4096 - (offset + done) mod 4096)).
  - replace (done + (size - done) <? size) with false by lia.
    assert ((offset + done) / 4096 <= (offset + size - 1) / 4096) by (apply Z.div_le_mono; lia). lia.
  - destruct (Z.ltb_spec (done + (4096 - (offset + done) mod 4096)) size); [|].
    + zlia.
    + assert ((offset + done) / 4096 <= (offset + size - 1) / 4096) by (apply Z.div_le_mono; lia). lia.
Qed.

Lemma rounds_enough offset size : 0 <= offset -> 0 <= size ->
  rounds_left offset size 0 <= Z.of_nat (io_rounds size).
Proof.
  intros Ho Hs. unfold rounds_left, io_rounds, kPageSize. destruct (Z.ltb_spec 0 size); zlia.
Qed.

(** ** Reading *)

Lemma read_loop_spec f m offset size buf0 : 0 <= offset -> offset + size < 2 ^ 64 ->
  forall fuel done buf, 0 <= done <= size -> rounds_left offset size done <= Z.of_nat fuel ->
  (forall x, aget buf x = if (0 <=? x) && (x <? done)
     then default (aget buf0 x) (file_byte f m (offset + x)) else aget buf0 x) ->
  exists buf', read_loop fuel f m offset size done buf = Some (size, buf')
    /\ forall x, aget buf' x = if (0 <=? x) && (x <? size)
         then default (aget buf0 x) (file_byte f m (offset + x)) else aget buf0 x.
Proof.
  intros Ho Hov. induction fuel as [|fuel IH]; intros done buf Hd Hf Hbuf.
  { unfold rounds_left in Hf. case_match; bool_to_prop; [|lia].
    assert ((offset + done) / 4096 <= (offset + size - 1) / 4096) by (apply Z.div_le_mono; lia). lia. }
  cbn [read_loop]. destruct (Z.ltb_spec done size) as [Hlt|Hge].
  2:{ assert (done = size) as -> by lia. by exists buf. }
  rewrite (wrap_small 64 (offset + done)) by lia. unfold kPageSize.
  pose proof (round_progress offset size done Ho ltac:(lia)) as (Hc & Hc2 & Hr). cbv zeta in Hc, Hc2, Hr.
  set (off := (offset + done) mod 4096) in *.
  set (chunk := if size - done <? 4096 - off then size - done else 4096 - off) in *.
  rewrite wrap_small by lia. apply IH; [lia|lia|]. intros x.
  assert (forall y, 0 <= y < chunk -> file_byte f m (offset + (done + y))
    = match f_pages f !! Z.to_nat ((offset + done) / 4096) with
      | Some p => if p =? 0 then None else Some (aget m (p + (off + y))) | None => None end) as Hb.
  { intros y Hy. unfold file_byte, kPageSize.
    replace ((offset + (done + y)) / 4096) with ((offset + done) / 4096) by (subst off; zlia).
    replace ((offset + (done + y)) mod 4096) with (off + y) by (subst off; zlia). done. }
  set (pidx := (offset + done) / 4096) in *.
  assert (0 <= pidx) as Hp0 by (subst pidx; apply Z.div_pos; lia).
  replace (if pidx <? page_count f then f_pages f !! Z.to_nat pidx else None) with (f_pages f !! Z.to_nat pidx).
  2:{ destruct (Z.ltb_spec pidx (page_count f)); [done|]. unfold page_count in *. apply lookup_ge_None. lia. }
  destruct (decide (done <= x < done + chunk)) as [Hx|Hx].
  - replace ((0 <=? x) && (x <? done + chunk)) with true by lia.
    specialize (Hb (x - done) ltac:(lia)). replace (done + (x - done)) with x in Hb by lia. rewrite Hb.
    assert (aget buf x = aget buf0 x) as Hold.
    { rewrite Hbuf. by replace ((0 <=? x) && (x <? done)) with false by lia. }
    destruct (f_pages f !! Z.to_nat pidx) as [p|]; [|done]. destruct (p =? 0); [done|].
    rewrite copy_out_spec by lia. replace ((done <=? x) && (x <? done + chunk)) with true by lia. cbn. f_equal. lia.
  - transitivity (aget buf x).
    + destruct (f_pages f !! Z.to_nat pidx) as [p|]; [|done]. destruct (p =? 0); [done|].
      rewrite copy_out_spec by lia. by replace ((done <=? x) && (x <? done + chunk)) with false by lia.
    + rewrite Hbuf. by replace ((0 <=? x) && (x <? done + chunk)) with ((0 <=? x) && (x <? done)) by lia.
Qed.

(** ** Writing *)

Section Writing.
Context {A : Type} `{KMem A}.
Implicit Types (s : ramfs A).

(** After [done] bytes of [buf] have been written to the file at [fp]: they
    are in the file, no other byte of the file changed, and neither did any
    other object, nor any frame that does not belong to the file. *)
Record written s0 (f0 : RamfsFile) (frames0 : gset Z) (live : gmap Z Z) (fp offset : Z) (buf : bmem) (done : Z)
    s (f : RamfsFile) (frames : gset Z) : Prop := {
  wr_file : files s = <[fp := f]> (files s0);
  wr_vnodes : vnodes s = vnodes s0;
  wr_dirs : dirs s = dirs s0;
  wr_kmem : km_wf (kmem s) live frames;
  wr_frames : frames0 ⊆ frames;
  wr_pages : pages_ok f frames;
  wr_shape : f_size f = f_size f0 /\ f_array f = f_array f0 /\ length (f_pages f) = length (f_pages f0);
  wr_new : forall x, 0 <= x < done -> file_byte f (fmem s) (offset + x) = Some (aget buf x);
  wr_old : forall o b, 0 <= o -> ~ (offset <= o < offset + done) ->
    file_byte f0 (fmem s0) o = Some b -> file_byte f (fmem s) o = Some b;
  wr_other : forall q y, q ∈ frames0 -> (forall i, f_pages f0 !! i = Some (q * kPageSize) -> q = 0) ->
    0 <= y < kPageSize -> (forall i, f_pages f !! i = Some (q * kPageSize) -> q = 0)
    /\ aget (fmem s) (q * kPageSize + y) = aget (fmem s0) (q * kPageSize + y);
}.

(** Giving the file a frame for a page that had none. *)
Lemma add_frame s0 f0 frames0 live fp offset buf done s f frames i page (a : A) :
  written s0 f0 frames0 live fp offset buf done s f frames ->
  f_pages f !! i = Some 0 -> page ∉ frames -> 0 < page -> km_wf a live ({[page]} ∪ frames) ->
  written s0 f0 frames0 live fp offset buf done
    (set_file fp (Build_RamfsFile (f_array f) (<[i := page * kPageSize]> (f_pages f)) (f_size f)) (set_kmem a s))
    (Build_RamfsFile (f_array f) (<[i := page * kPageSize]> (f_pages f)) (f_size f)) ({[page]} ∪ frames).
Proof.
  intros Hw Hi Hpage Hpos Ha. destruct Hw as [Hfile Hv Hd Hk Hfr Hpg (E1 & E2 & E3) Hnew Hold Hoth].
  set (f' := Build_RamfsFile (f_array f) (<[i := page * kPageSize]> (f_pages f)) (f_size f)).
  assert (i < length (f_pages f))%nat as Hlt by (by eapply lookup_lt_Some).
  assert (forall o b, file_byte f (fmem s) o = Some b -> file_byte f' (fmem s) o = Some b) as Hkeep.
  { intros o b. unfold file_byte. cbn [f' f_pages]. rewrite list_lookup_insert. case_decide as Hd'; [|done].
    destruct Hd' as [<- _]. by rewrite Hi. }
  assert (forall j p, f_pages f' !! j = Some p -> (j = i /\ p = page * kPageSize) \/ (j <> i /\ f_pages f !! j = Some p)) as Hcase.
  { intros j p. cbn [f' f_pages]. apply list_insert_cases. by exists 0. }
  assert (forall j p, f_pages f !! j = Some p -> p <> 0 -> p <> page * kPageSize) as Hfresh.
  { intros j p Hj Hp. destruct (po_frame _ _ Hpg j p Hj Hp) as (q & -> & Hq & _). unfold kPageSize. intros E.
    apply Hpage. by replace page with q by lia. }
  split; cbn [files vnodes dirs kmem fmem set_file set_kmem]; try done.
  - by rewrite Hfile, insert_insert_eq.
  - set_solver.
  - split.
    + intros j p [[-> ->]|[_ Hj]]%Hcase Hp; [exists page; split_and!; [done|set_solver|lia]|].
      destruct (po_frame _ _ Hpg j p Hj Hp) as (q & ? & ? & ?). exists q. set_solver.
    + intros j k p [[-> ->]|[Hne Hj]]%Hcase [[-> Ek]|[Hne' Hk']]%Hcase Hp; [done|..].
      * by destruct (Hfresh k _ Hk' Hp).
      * subst p. by destruct (Hfresh j _ Hj Hp).
      * by eapply po_inj.
  - cbn. split_and!; [done|done|]. by rewrite length_insert.
  - intros x Hx. by apply Hkeep, Hnew.
  - intros o b Ho Hout Hb. by apply Hkeep, (Hold o b).
  - intros q y Hq Hno Hy. destruct (Hoth q y Hq Hno Hy) as [Hno' Hm]. split; [|done].
    intros j Hj. apply Hcase in Hj as [[-> E]|[_ Hj]]; [|by eapply Hno'].
    unfold kPageSize in E. assert (q = page) as -> by lia. set_solver.
Qed.

(** Copying one chunk into a page of the file. *)
Lemma write_chunk s0 f0 frames0 live fp offset buf done s f frames p chunk :
  written s0 f0 frames0 live fp offset buf done s f frames ->
  0 <= offset -> 0 <= done -> 0 < chunk <= 4096 - (offset + done) mod 4096 ->
  f_pages f !! Z.to_nat ((offset + done) / 4096) = Some p -> p <> 0 ->
  written s0 f0 frames0 live fp offset buf (done + chunk)
    (set_fmem (copy_out buf done (p + (offset + done) mod 4096) chunk (fmem s)) s) f frames.
Proof.
  intros Hw Ho Hdn Hc Hp Hp0. destruct Hw as [Hfile Hv Hd Hk Hfr Hpg Hsh Hnew Hold Hoth].
  set (off := (offset + done) mod 4096) in *. set (m' := copy_out buf done (p + off) chunk (fmem s)).
  assert (0 <= off) as Hoff by (subst off; apply Z.mod_pos_bound; lia).
  assert (forall x, aget m' x = if (p + off <=? x) && (x <? p + off + chunk)
            then aget buf (done + (x - (p + off))) else aget (fmem s) x) as Hm.
  { intros x. subst m'. apply copy_out_spec. lia. }
  assert (forall o b, 0 <= o -> ~ (offset + done <= o < offset + done + chunk) ->
    file_byte f (fmem s) o = Some b -> file_byte f m' o = Some b) as Hout.
  { intros o b Ho' Hno. unfold file_byte, kPageSize. destruct (f_pages f !! Z.to_nat (o / 4096)) as [q|] eqn:Eq; [|done].
    destruct (Z.eqb_spec q 0) as [|Hq0]; [done|]. intros [= <-]. f_equal. rewrite Hm. case_match eqn:E; [|done].
    exfalso. bool_to_prop. pose proof (Z.mod_pos_bound o 4096 ltac:(lia)).
    destruct (byte_addr_inj f frames _ _ q p (o mod 4096) (q + o mod 4096 - p) Hpg Eq Hp Hq0 Hp0) as [Ei Ex]; [lia|lia|lia|].
    apply Z2Nat.inj in Ei; [|apply Z.div_pos; lia|apply Z.div_pos; lia]. subst off. zlia. }
  split; cbn [files vnodes dirs kmem fmem set_fmem]; try done.
  - intros x Hx. destruct (decide (x < done)) as [Hlt|Hge]; [apply Hout; [lia|lia|apply Hnew; lia]|].
    unfold file_byte, kPageSize.
    replace ((offset + x) / 4096) with ((offset + done) / 4096) by (subst off; zlia). rewrite Hp.
    destruct (Z.eqb_spec p 0); [done|]. f_equal. fold m'. rewrite Hm.
    replace ((offset + x) mod 4096) with (off + (x - done)) by (subst off; zlia).
    replace ((p + off <=? p + (off + (x - done))) && (p + (off + (x - done)) <? p + off + chunk)) with true by lia.
    f_equal. lia.
  - intros o b Ho' Hno Hb. apply Hout; [done|lia|]. apply Hold; [done|lia|done].
  - intros q y Hq Hno Hy. destruct (Hoth q y Hq Hno Hy) as [Hno' <-]. split; [done|]. fold m'. rewrite Hm.
    case_match eqn:E; [|done]. exfalso. bool_to_prop. unfold kPageSize in *.
    destruct (po_frame _ _ Hpg _ p Hp Hp0) as (r & -> & _ & _). unfold kPageSize in *.
    assert (q = r) as -> by lia. apply Hp0. by rewrite (Hno' (Z.to_nat ((offset + done) / 4096)) Hp).
Qed.

Lemma write_loop_spec s0 f0 frames0 live fp offset size buf :
  0 <= offset -> offset + size < 2 ^ 64 -> offset + size <= page_count f0 * 4096 ->
  0 ∈ frames0 ->
  forall fuel pos s f frames,
  written s0 f0 frames0 live fp offset buf pos s f frames ->
  0 <= pos <= size -> rounds_left offset size pos <= Z.of_nat fuel ->
  exists err s' f' frames' done', write_loop fuel fp offset size pos buf s = Some (err, s')
    /\ written s0 f0 frames0 live fp offset buf done' s' f' frames'
    /\ ((err = 0 /\ done' = size) \/ (err = E_NO_SPACE /\ 0 <= done' <= size)).
Proof.
  intros Ho Hov Hlen H0f. induction fuel as [|fuel IH]; intros pos s f frames Hw Hd Hf.
  { unfold rounds_left in Hf. case_match; bool_to_prop; [|lia].
    assert ((offset + pos) / 4096 <= (offset + size - 1) / 4096) by (apply Z.div_le_mono; lia). lia. }
  cbn [write_loop]. destruct (Z.ltb_spec pos size) as [Hlt|Hge].
  2:{ assert (pos = size) as -> by lia. exists 0, s, f, frames, size. split_and!; [done|done|by left]. }
  rewrite (wrap_small 64 (offset + pos)) by lia. unfold kPageSize.
  pose proof (round_progress offset size pos Ho ltac:(lia)) as (Hc & Hc2 & Hr). cbv zeta in Hc, Hc2, Hr.
  assert (files s !! fp = Some f) as -> by (rewrite (wr_file _ _ _ _ _ _ _ _ _ _ _ Hw); apply lookup_insert_eq).
  cbn [mbind option_bind].
  set (pidx := (offset + pos) / 4096) in *.
  assert (exists p, f_pages f !! Z.to_nat pidx = Some p) as [p Hp].
  { apply lookup_lt_is_Some. destruct (wr_shape _ _ _ _ _ _ _ _ _ _ _ Hw) as (_ & _ & ->).
    unfold page_count in *. subst pidx. zlia. }
  rewrite Hp. cbn [mbind option_bind].
  set (off := (offset + pos) mod 4096) in *.
  set (chunk := if size - pos <? 4096 - off then size - pos else 4096 - off) in *.
  destruct (Z.eqb_spec p 0) as [->|Hp0].
  - pose proof (km_alloc_page_law (kmem s) live frames (wr_kmem _ _ _ _ _ _ _ _ _ _ _ Hw)) as Hlaw.
    destruct (km_alloc_page (kmem s)) as [phys a]. cbn [fst snd] in Hlaw.
    destruct Hlaw as [[-> Ha]|(page & -> & Hpr & Hpf & Ha)].
    + rewrite Z.eqb_refl. cbn. exists E_NO_SPACE, (set_kmem a s), f, frames, pos.
      split_and!; [done| |right; split; [done|lia]]. destruct Hw. by split.
    + replace (page * page_size =? invalid_physical_address) with false
        by (unfold page_size, invalid_physical_address, UINT64_MAX, max_managed_pages in *; lia).
      assert (0 < page) as Hpos.
      { destruct (decide (page = 0)) as [->|]; [|lia]. destruct Hpf. by apply (wr_frames _ _ _ _ _ _ _ _ _ _ _ Hw). }
      change (0 <? 0) with false. cbn iota.
      pose proof (add_frame _ _ _ _ _ _ _ _ _ _ _ _ _ a Hw Hp Hpf Hpos Ha) as Hw'.
      change (page * page_size) with (page * kPageSize).
      rewrite wrap_small by lia. eapply IH; [|lia|lia].
      apply write_chunk; [exact Hw'|done|lia|done| |unfold kPageSize; lia].
      cbn [f_pages]. apply list_lookup_insert_eq. by eapply lookup_lt_Some.
  - change (0 <? 0) with false. cbn iota. rewrite wrap_small by lia. eapply IH; [|lia|lia].
    apply write_chunk; [exact Hw|done|lia|done|exact Hp|done].
Qed.

(** A file with its page array and its frames. *)
Record file_ok s (live : gmap Z Z) (frames : gset Z) (fp : Z) (f : RamfsFile) : Prop := {
  fo_file : files s !! fp = Some f;
  fo_kmem : km_wf (kmem s) live frames;
  fo_pages : pages_ok f frames;
  fo_live : live !! fp = Some sizeof_RamfsFile;
  fo_array : if f_array f =? 0 then f_pages f = [] else live !! f_array f = Some (page_count f *64 8) /\ f_array f <> fp;
}.

(** What an operation on the file [fp] leaves alone. *)
Record only_file s s' (fp : Z) (f f' : RamfsFile) (frames frames' : gset Z) (live live' : gmap Z Z) : Prop := {
  of_vnodes : vnodes s' = vnodes s;
  of_dirs : dirs s' = dirs s;
  of_files : forall q, q <> fp -> files s' !! q = files s !! q;
  of_frames : frames ⊆ frames';
  of_live : forall p n, p <> f_array f -> live !! p = Some n -> live' !! p = Some n;
  of_mem : forall q y, q ∈ frames -> (forall i, f_pages f !! i = Some (q * kPageSize) -> q = 0) ->
    0 <= y < kPageSize ->
    aget (fmem s') (q * kPageSize + y) = aget (fmem s) (q * kPageSize + y);
}.

Lemma grow_pages_spec s live frames fp f needed :
  file_ok s live frames fp f -> 0 <= needed < 2 ^ 60 ->
  exists err s' live' f', grow_pages fp needed s = Some (err, s')
    /\ file_ok s' live' frames fp f' /\ only_file s s' fp f f' frames frames live live'
    /\ fmem s' = fmem s /\ f_size f' = f_size f
    /\ (forall m o, file_byte f' m o = file_byte f m o)
    /\ (forall i p, p <> 0 -> f_pages f' !! i = Some p <-> f_pages f !! i = Some p)
    /\ ((err = 0 /\ needed <= page_count f') \/ (err = E_NO_SPACE /\ f' = f)).
Proof.
  intros Hok Hn. destruct Hok as [Hf Hk Hpg Hlive Harr] eqn:Eok. clear Eok. unfold grow_pages. rewrite Hf.
  cbn [mbind option_bind].
  destruct (Z.ltb_spec (page_count f) needed) as [Hlt|Hge].
  2:{ exists 0, s, live, f. split_and!; first [done|by split|left; lia]. }
  unfold kalloc. assert (0 < needed) by (unfold page_count in *; lia).
  pose proof (km_kalloc_law (kmem s) live frames (needed *64 8) 8 Hk) as Hlaw.
  rewrite (wrap_small 64 (needed * 8)) in * by lia. specialize (Hlaw ltac:(lia)).
  destruct (km_kalloc (needed * 8) 8 (kmem s)) as [np a]. cbn [fst snd] in Hlaw.
  destruct Hlaw as [[-> Ha]|(Hnp & Hfresh & Ha)].
  { cbn. exists E_NO_SPACE, (set_kmem a s), live, f. split_and!; first [done|by split|by right]. }
  replace (np =? 0) with false by lia.
  set (pages := f_pages f ++ replicate (Z.to_nat (needed - page_count f)) 0).
  assert (Z.of_nat (length pages) = needed) as Hlen.
  { subst pages. rewrite length_app, length_replicate. unfold page_count in *. lia. }
  assert (forall i p, p <> 0 -> pages !! i = Some p <-> f_pages f !! i = Some p) as Hsame.
  { intros i p Hp. subst pages. rewrite lookup_app. destruct (f_pages f !! i) as [q|] eqn:E; [done|].
    split; [|done]. intros [? _]%lookup_replicate. congruence. }
  set (f' := Build_RamfsFile np pages (f_size f)).
  assert (pages_ok f' frames) as Hpg'.
  { split; cbn [f' f_pages].
    - intros i p Hi Hp. eapply po_frame; [done| |done]. by apply (proj1 (Hsame i p Hp)).
    - intros i j p Hi Hj Hp. eapply po_inj; [done|by apply (Hsame i p Hp)|by apply (Hsame j p Hp)|done]. }
  assert (np <> fp) as Hnf by congruence.
  assert (forall m o, file_byte f' m o = file_byte f m o) as Hbyte.
  { intros m o. unfold file_byte. cbn [f' f_pages]. set (i := Z.to_nat (o / kPageSize)).
    destruct (pages !! i) as [p|] eqn:E1, (f_pages f !! i) as [q|] eqn:E2.
    - subst pages. rewrite lookup_app, E2 in E1. by injection E1 as ->.
    - destruct (Z.eqb_spec p 0); [done|]. apply Hsame in E1; [|done]. congruence.
    - apply lookup_ge_None in E1. apply lookup_lt_Some in E2. subst pages. rewrite length_app in E1. lia.
    - done. }
  assert (forall live', live' !! np = Some (needed * 8) -> live' !! fp = Some sizeof_RamfsFile ->
    (forall p n, p <> f_array f -> live !! p = Some n -> live' !! p = Some n) -> forall a', km_wf a' live' frames ->
    exists err s' live' f', Some (0, set_file fp (Build_RamfsFile np pages (f_size f)) (set_kmem a' s)) = Some (err, s')
    /\ file_ok s' live' frames fp f' /\ only_file s s' fp f f' frames frames live live'
    /\ fmem s' = fmem s /\ f_size f' = f_size f
    /\ (forall m o, file_byte f' m o = file_byte f m o)
    /\ (forall i p, p <> 0 -> f_pages f' !! i = Some p <-> f_pages f !! i = Some p)
    /\ ((err = 0 /\ needed <= page_count f') \/ (err = E_NO_SPACE /\ f' = f))) as Hdone.
  { intros live' L1 L2 L3 a' Ha'. exists 0, (set_file fp f' (set_kmem a' s)), live', f'. split_and!; try done.
    - split; cbn; try done; [apply lookup_insert_eq|]. replace (np =? 0) with false by lia.
      unfold page_count. cbn. rewrite Hlen, wrap_small by lia. done.
    - split; cbn; try done. intros q Hq. by apply lookup_insert_ne.
    - left. split; [done|]. unfold page_count. cbn. lia. }
  destruct (Z.eqb_spec (f_array f) 0) as [E0|E0]; cbn [negb].
  - apply (Hdone (<[np := needed * 8]> live)); [apply lookup_insert_eq|by rewrite lookup_insert_ne| |done].
    intros p n _ Hp. rewrite lookup_insert_ne; congruence.
  - destruct Harr as [Harr Hne].
    apply (Hdone (delete (f_array f) (<[np := needed * 8]> live))).
    + rewrite lookup_delete_ne by congruence. apply lookup_insert_eq.
    + rewrite lookup_delete_ne by done. by rewrite lookup_insert_ne.
    + intros p n Hp Hl. rewrite lookup_delete_ne by done. rewrite lookup_insert_ne; congruence.
    + apply km_kfree_law; [done|]. rewrite lookup_insert_ne by congruence. done.
Qed.

(** Writing to a file: it succeeds, or it runs out of memory.  In both cases no
    byte outside the request changes, and no other object. *)
Lemma ramfs_write_cases s live frames node v fp f offset size buf :
  vnodes s !! node = Some v -> private_data v = fp -> file_ok s live frames fp f -> 0 ∈ frames ->
  0 <= offset -> 0 <= size -> offset + size + 4095 < 2 ^ 64 ->
  exists err n s' live' frames' f', ramfs_write node offset buf size s = Some (err, n, s')
    /\ file_ok s' live' frames' fp f' /\ only_file s s' fp f f' frames frames' live live'
    /\ (forall o b, 0 <= o -> ~ (offset <= o < offset + size) ->
          file_byte f (fmem s) o = Some b -> file_byte f' (fmem s') o = Some b)
    /\ ((err = 0 /\ n = size /\ f_size f' = Z.max (f_size f) (offset + size)
         /\ forall x, 0 <= x < size -> file_byte f' (fmem s') (offset + x) = Some (aget buf x))
        \/ (err = E_NO_SPACE /\ n = 0 /\ f_size f' = f_size f)).
Proof.
  intros Hv Hpd Hok H0f Ho Hs Hov. unfold ramfs_write, ramdir_of. rewrite Hv. cbn [fmap option_fmap option_map mbind option_bind].
  rewrite Hpd, (wrap_small 64 (offset + size)), (wrap_small 64 (offset + size + kPageSize - 1)) by (unfold kPageSize; lia).
  destruct (grow_pages_spec s live frames fp f ((offset + size + kPageSize - 1) / kPageSize) Hok)
    as (err & s1 & live1 & f1 & -> & Hok1 & Hof1 & Em & Esz & Hb1 & Hpg1 & Hcase); [unfold kPageSize; zlia|].
  cbn [mbind option_bind]. destruct Hcase as [[-> Hneed]|[-> ->]].
  2:{ cbn. exists E_NO_SPACE, 0, s1, live1, frames, f. split_and!; try done; [|by right].
      intros o b _ _. by rewrite Em. }
  change (0 <? 0) with false. cbn iota. destruct Hok1 as [Hf1 Hk1 Hpo1 Hlive1 Harr1].
  assert (written s1 f1 frames live1 fp offset buf 0 s1 f1 frames) as Hw0.
  { split; try done; [by rewrite insert_id|lia]. }
  destruct (fun a b c => write_loop_spec s1 f1 frames live1 fp offset size buf Ho a b c (io_rounds size) 0 s1 f1 frames Hw0)
    as (err & s2 & f2 & frames2 & pos & -> & Hw & Hres);
    [lia|unfold kPageSize in *; zlia|done|lia|by apply rounds_enough|].
  cbn [mbind option_bind]. destruct Hw as [Hfile Hvn Hdr Hkm Hfr Hpg (E1 & E2 & E3) Hnew Hold Hoth].
  assert (forall f3 s3, f_pages f3 = f_pages f2 -> f_array f3 = f_array f2 -> files s3 = <[fp := f3]> (files s1) ->
    vnodes s3 = vnodes s2 -> dirs s3 = dirs s2 -> fmem s3 = fmem s2 -> kmem s3 = kmem s2 ->
    file_ok s3 live1 frames2 fp f3 /\ only_file s s3 fp f f3 frames frames2 live live1) as Hfin.
  { intros f3 s3 P1 P2 P3 P4 P5 P6 P7. split; split.
    - rewrite P3. apply lookup_insert_eq.
    - by rewrite P7.
    - split; intros *; rewrite P1; apply Hpg.
    - done.
    - rewrite P2, E2. unfold page_count. rewrite P1, E3. destruct (f_array f1 =? 0); [|done].
      rewrite Harr1 in E3. by destruct (f_pages f2).
    - by rewrite P4, Hvn, (of_vnodes _ _ _ _ _ _ _ _ _ Hof1).
    - by rewrite P5, Hdr, (of_dirs _ _ _ _ _ _ _ _ _ Hof1).
    - intros q Hq. rewrite P3, lookup_insert_ne by done. by apply Hof1.
    - done.
    - apply Hof1.
    - intros q y Hq Hno Hy. rewrite P6. transitivity (aget (fmem s1) (q * kPageSize + y)); [|by rewrite Em].
      apply Hoth; [done| |done]. intros i Hi. destruct (decide (q = 0)) as [|Hq0]; [done|].
      apply Hpg1 in Hi; [by apply (Hno i)|unfold kPageSize; lia]. }
  assert (forall o b, 0 <= o -> ~ (offset <= o < offset + size) ->
    file_byte f (fmem s) o = Some b -> file_byte f2 (fmem s2) o = Some b) as Hkeep.
  { intros o b Ho' Hno Hb. apply Hold; [done|lia|]. by rewrite Hb1, Em. }
  destruct Hres as [[-> ->]|[-> Hpos]].
  2:{ cbn. destruct (Hfin f2 s2) as [? ?]; try done. exists E_NO_SPACE, 0, s2, live1, frames2, f2.
      split_and!; try done. right. split_and!; [done|done|congruence]. }
  change (0 <? 0) with false. cbn iota.
  assert (files s2 !! fp = Some f2) as -> by (rewrite Hfile; apply lookup_insert_eq). cbn [mbind option_bind].
  set (f3 := Build_RamfsFile (f_array f2) (f_pages f2) (Z.max (f_size f) (offset + size))).
  set (s3 := if f_size f2 <? offset + size then set_file fp (Build_RamfsFile (f_array f2) (f_pages f2) (offset + size)) s2 else s2).
  assert (files s3 = <[fp := f3]> (files s1) /\ vnodes s3 = vnodes s2 /\ dirs s3 = dirs s2 /\ fmem s3 = fmem s2 /\ kmem s3 = kmem s2)
    as (F3 & V3 & D3 & M3 & K3).
  { subst s3 f3. destruct (Z.ltb_spec (f_size f2) (offset + size)); cbn; rewrite Hfile, ?insert_insert_eq.
    - split_and!; try done. do 2 f_equal. lia.
    - split_and!; try done. f_equal. destruct f2; cbn in *. f_equal. lia. }
  destruct (Hfin f3 s3) as [Hok3 Hof3]; try done.
  exists 0, size, s3, live1, frames2, f3. split_and!; try done.
  - intros o b Ho' Hno Hb. rewrite M3. by apply Hkeep.
  - left. split_and!; [done|done|done|]. intros x Hx. rewrite M3. by apply Hnew.
Qed.

(** Reading always ends; it returns what is left of the file, up to the
    request, and fills the buffer with the bytes of the file.  Where the file
    has no page the buffer is left as it was. *)
Lemma ramfs_read_cases s node v f offset size buf :
  vnodes s !! node = Some v -> files s !! private_data v = Some f ->
  0 <= offset -> 0 <= size -> 0 <= f_size f < 2 ^ 64 ->
  let n := Z.max 0 (Z.min size (f_size f - offset)) in
  exists buf', ramfs_read node offset buf size s = Some (0, n, buf', s)
    /\ forall x, aget buf' x = if (0 <=? x) && (x <? n)
         then default (aget buf x) (file_byte f (fmem s) (offset + x)) else aget buf x.
Proof.
  intros Hv Hf Ho Hs Hsz n. unfold ramfs_read, ramdir_of. rewrite Hv. cbn [fmap option_fmap option_map mbind option_bind].
  rewrite Hf. cbn [mbind option_bind]. destruct (Z.leb_spec (f_size f) offset) as [Hge|Hlt].
  - replace n with 0 by lia. exists buf. split; [done|]. intros x. by replace ((0 <=? x) && (x <? 0)) with false by lia.
  - rewrite (wrap_small 64 (f_size f - offset)) by lia.
    replace (if f_size f - offset <? size then f_size f - offset else size) with n
      by (destruct (Z.ltb_spec (f_size f - offset) size); lia).
    destruct (read_loop_spec f (fmem s) offset n buf Ho ltac:(lia) (io_rounds n) 0 buf) as (buf' & -> & Hb);
      [lia|apply rounds_enough; lia| |].
    { intros x. by replace ((0 <=? x) && (x <? 0)) with false by lia. }
    cbn [mbind option_bind]. by exists buf'.
Qed.

(** A successful write can be read back: reading the same range returns every
    byte written, whatever the buffer held before; the size of the file covers
    the range, and the write changed no other byte of the file, no other file,
    directory or vnode, and no frame of another file. *)
Theorem ramfs_write_read s live frames node v f offset size buf :
  vnodes s !! node = Some v -> file_ok s live frames (private_data v) f -> 0 ∈ frames ->
  0 <= offset -> 0 <= size -> offset + size + 4095 < 2 ^ 64 -> 0 <= f_size f < 2 ^ 64 ->
  exists err n s', ramfs_write node offset buf size s = Some (err, n, s')
    /\ (err = E_NO_SPACE
        \/ (err = 0 /\ n = size /\ exists live' frames' f',
             file_ok s' live' frames' (private_data v) f'
             /\ only_file s s' (private_data v) f f' frames frames' live live'
             /\ f_size f' = Z.max (f_size f) (offset + size)
             /\ (forall o b, 0 <= o -> ~ (offset <= o < offset + size) ->
                   file_byte f (fmem s) o = Some b -> file_byte f' (fmem s') o = Some b)
             /\ forall buf0, exists buf', ramfs_read node offset buf0 size s' = Some (0, size, buf', s')
                  /\ forall x, 0 <= x < size -> aget buf' x = aget buf x)).
Proof.
  intros Hv Hok H0f Ho Hs Hov Hsz.
  destruct (ramfs_write_cases s live frames node v (private_data v) f offset size buf Hv eq_refl Hok H0f Ho Hs Hov)
    as (err & n & s' & live' & frames' & f' & E & Hok' & Hof & Hold & Hres).
  exists err, n, s'. split; [done|]. destruct Hres as [(-> & -> & Esz & Hnew)|(-> & _)]; [right|by left].
  split_and!; [done|done|]. exists live', frames', f'. split_and!; try done. intros buf0.
  destruct (ramfs_read_cases s' node v f' offset size buf0) as (buf' & Er & Hb); try done.
  - by rewrite (of_vnodes _ _ _ _ _ _ _ _ _ Hof).
  - apply Hok'.
  - lia.
  - replace (Z.max 0 (Z.min size (f_size f' - offset))) with size in * by lia. exists buf'. split; [done|].
    intros x Hx. rewrite Hb. replace ((0 <=? x) && (x <? size)) with true by lia. by rewrite Hnew.
Qed.

End Writing.

(** * Directories *)

(** A directory as a map from names to vnodes; a name is bound by its first
    entry. *)
Definition dir_map (d : RamfsDir) : gmap str Z := list_to_map ((fun e => (e_name e, e_vnode e)) <$> d_entries d).

Lemma find_entry_spec name es : forall i,
  match find_entry name es i with
  | Some k => exists j e, k = (i + j)%nat /\ es !! j = Some e /\ e_name e = name
      /\ list_to_map (M := gmap str Z) ((fun e => (e_name e, e_vnode e)) <$> es) !! name = Some (e_vnode e)
  | None => list_to_map (M := gmap str Z) ((fun e => (e_name e, e_vnode e)) <$> es) !! name = None
  end.
Proof.
  induction es as [|e es IH]; intros i; cbn [find_entry fmap list_fmap list_to_map foldr]; [apply lookup_empty|].
  destruct (string_equals (e_name e) name) eqn:E.
  - apply string_equals_spec in E. exists 0%nat, e. split_and!; [lia|done|done|]. cbn. rewrite E. apply lookup_insert_eq.
  - assert (e_name e <> name) as Hne by (intros Hn; apply string_equals_spec in Hn; congruence).
    specialize (IH (S i)). destruct (find_entry name es (S i)) as [k|].
    + destruct IH as (j & e' & -> & Hj & Hn & Hm). exists (S j), e'. split_and!; [lia|done|done|]. cbn. by rewrite lookup_insert_ne.
    + cbn. by rewrite lookup_insert_ne.
Qed.

Lemma dir_find_map d name :
  match dir_find_entry d name with
  | Some k => exists e, d_entries d !! k = Some e /\ e_name e = name /\ dir_map d !! name = Some (e_vnode e)
  | None => dir_map d !! name = None
  end.
Proof.
  pose proof (find_entry_spec name (d_entries d) 0) as Hs. unfold dir_find_entry, dir_map.
  destruct (find_entry name (d_entries d) 0) as [k|]; [|done]. destruct Hs as (j & e & -> & Hj & Hn & Hm).
  exists e. split_and!; done.
Qed.

Lemma dir_map_snoc d array cap e :
  dir_map d !! e_name e = None ->
  dir_map (Build_RamfsDir array (d_entries d ++ [e]) cap) = <[e_name e := e_vnode e]> (dir_map d).
Proof.
  intros Hn. unfold dir_map in *. cbn [d_entries]. rewrite fmap_app. cbn [fmap list_fmap].
  rewrite list_to_map_app. cbn. apply map_eq. intros k. rewrite lookup_union.
  destruct (decide (k = e_name e)) as [->|Hne].
  - rewrite Hn, !lookup_insert_eq. done.
  - rewrite !lookup_insert_ne, lookup_empty by done. by rewrite right_id by apply _.
Qed.

Section Directories.
Context {A : Type} `{KMem A}.
Implicit Types (s : ramfs A).

(** A directory with its entry array. *)
Record dir_ok s (live : gmap Z Z) (frames : gset Z) (dp : Z) (d : RamfsDir) : Prop := {
  do_dir : dirs s !! dp = Some d;
  do_kmem : km_wf (kmem s) live frames;
  do_live : live !! dp = Some sizeof_RamfsDir;
  do_array : if d_array d =? 0 then d_capacity d = 0
             else live !! d_array d = Some (d_capacity d *64 sizeof_RamfsEntry) /\ d_array d <> dp;
  do_count : count d <= d_capacity d < 2 ^ 40;
}.

(** The objects that an operation on the directory [dp] leaves as they are:
    every live one but the directory and its array. *)
Record only_dir s s' (dp : Z) (d : RamfsDir) (live live' : gmap Z Z) : Prop := {
  od_live : forall p n, p <> d_array d -> live !! p = Some n -> live' !! p = Some n;
  od_vnodes : forall p n, live !! p = Some n -> vnodes s' !! p = vnodes s !! p;
  od_dirs : forall p n, p <> dp -> live !! p = Some n -> dirs s' !! p = dirs s !! p;
  od_files : forall p n, live !! p = Some n -> files s' !! p = files s !! p;
  od_mem : fmem s' = fmem s;
}.

Lemma ensure_dir_capacity_spec s live frames dp d :
  dir_ok s live frames dp d -> count d < 2 ^ 38 ->
  exists err s' live' d', ensure_dir_capacity dp (count d +64 1) s = Some (err, s')
    /\ dir_ok s' live' frames dp d' /\ d_entries d' = d_entries d
    /\ vnodes s' = vnodes s /\ files s' = files s /\ fmem s' = fmem s
    /\ (forall p, p <> dp -> dirs s' !! p = dirs s !! p)
    /\ (forall p n, p <> d_array d -> live !! p = Some n -> live' !! p = Some n)
    /\ ((err = 0 /\ count d + 1 <= d_capacity d') \/ err = E_NO_SPACE).
Proof.
  intros Hok Hc. destruct Hok as [Hd Hk Hlive Harr Hcnt] eqn:Eok. clear Eok. unfold ensure_dir_capacity. rewrite Hd.
  cbn [mbind option_bind]. assert (0 <= count d) by (unfold count; lia).
  rewrite (wrap_small 64 (count d + 1)) by lia.
  destruct (Z.leb_spec (count d + 1) (d_capacity d)) as [Hle|Hgt].
  { exists 0, s, live, d. split_and!; try done. by left. }
  assert (d_capacity d = count d) as Hcap by lia.
  set (c0 := if negb (d_capacity d =? 0) then d_capacity d *64 2 else 8).
  assert (count d + 1 <= c0 < 2 ^ 40) as Hc0.
  { subst c0. destruct (Z.eqb_spec (d_capacity d) 0); cbn [negb]; [lia|]. rewrite wrap_small by lia. lia. }
  assert (double_until 64 c0 (count d + 1) = c0) as -> by (cbn [double_until]; by replace (c0 <? count d + 1) with false by lia).
  unfold kalloc. unfold sizeof_RamfsEntry in *. rewrite (wrap_small 64 (c0 * 264)) by lia.
  pose proof (km_kalloc_law (kmem s) live frames (c0 * 264) 8 Hk ltac:(lia)) as Hlaw.
  destruct (km_kalloc (c0 * 264) 8 (kmem s)) as [np a]. cbn [fst snd] in Hlaw.
  destruct Hlaw as [[-> Ha]|(Hnp & Hfresh & Ha)].
  { cbn. exists E_NO_SPACE, (set_kmem a s), live, d. split_and!; first [done|by split|by right]. }
  replace (np =? 0) with false by lia. set (d' := Build_RamfsDir np (d_entries d) c0).
  assert (forall live', live' !! np = Some (c0 * 264) -> live' !! dp = Some sizeof_RamfsDir ->
    (forall p n, p <> d_array d -> live !! p = Some n -> live' !! p = Some n) -> forall a', km_wf a' live' frames ->
    exists err s' live' d', Some (0, set_dir dp (Build_RamfsDir np (d_entries d) c0) (set_kmem a' s)) = Some (err, s')
    /\ dir_ok s' live' frames dp d' /\ d_entries d' = d_entries d
    /\ vnodes s' = vnodes s /\ files s' = files s /\ fmem s' = fmem s
    /\ (forall p, p <> dp -> dirs s' !! p = dirs s !! p)
    /\ (forall p n, p <> d_array d -> live !! p = Some n -> live' !! p = Some n)
    /\ ((err = 0 /\ count d + 1 <= d_capacity d') \/ err = E_NO_SPACE)) as Hdone.
  { intros live' L1 L2 L3 a' Ha'. exists 0, (set_dir dp d' (set_kmem a' s)), live', d'. split_and!; try done.
    - split; cbn; try done; [apply lookup_insert_eq| |unfold count in *; cbn; lia].
      replace (np =? 0) with false by lia. unfold sizeof_RamfsEntry. rewrite wrap_small by lia. split; [done|congruence].
    - intros p Hp. cbn. by apply lookup_insert_ne.
    - left. cbn. lia. }
  destruct (Z.eqb_spec (d_array d) 0) as [E0|E0]; cbn [negb].
  - apply (Hdone (<[np := c0 * 264]> live)); [apply lookup_insert_eq|rewrite lookup_insert_ne; congruence| |done].
    intros p n _ Hp. rewrite lookup_insert_ne; congruence.
  - destruct Harr as [Harr Hne]. rewrite wrap_small in Harr |- * by lia.
    apply (Hdone (delete (d_array d) (<[np := c0 * 264]> live))).
    + rewrite lookup_delete_ne by congruence. apply lookup_insert_eq.
    + rewrite lookup_delete_ne by done. rewrite lookup_insert_ne; congruence.
    + intros p n Hp Hl. rewrite lookup_delete_ne by done. rewrite lookup_insert_ne; congruence.
    + apply km_kfree_law; [done|]. rewrite lookup_insert_ne by congruence. done.
Qed.

(** Adding an entry: the vnode gains a reference and the name is bound to it,
    or the array cannot grow and nothing changes. *)
Lemma dir_add_entry_spec s live frames dp d name vn v :
  dir_ok s live frames dp d -> count d < 2 ^ 38 -> vnodes s !! vn = Some v -> vn <> 0 ->
  (length name <= 255)%nat -> dir_map d !! name = None ->
  exists err s' live' d', dir_add_entry dp name vn s = Some (err, s')
    /\ dir_ok s' live' frames dp d' /\ files s' = files s /\ fmem s' = fmem s
    /\ (forall p, p <> dp -> dirs s' !! p = dirs s !! p)
    /\ (forall p n, p <> d_array d -> live !! p = Some n -> live' !! p = Some n)
    /\ ((err = 0 /\ dir_map d' = <[name := vn]> (dir_map d)
         /\ vnodes s' = <[vn := Build_Vnode (v_type v) (v_ops v) (private_data v) (ref_count v +64 1) (mount_parent v)]> (vnodes s))
        \/ (err = E_NO_SPACE /\ dir_map d' = dir_map d /\ vnodes s' = vnodes s)).
Proof.
  intros Hok Hc Hv Hvn Hlen Hnone. unfold dir_add_entry. rewrite (do_dir _ _ _ _ _ Hok). cbn [mbind option_bind].
  destruct (ensure_dir_capacity_spec s live frames dp d Hok Hc)
    as (err & s1 & live1 & d1 & -> & Hok1 & Ed & Ev & Ef & Em & Hdirs & Hlv & Hcase).
  cbn [mbind option_bind]. destruct Hcase as [[-> Hcap]| ->].
  2:{ cbn. exists E_NO_SPACE, s1, live1, d1. split_and!; try done. right. split_and!; [done| |done].
      unfold dir_map. by rewrite Ed. }
  change (0 <? 0) with false. cbn iota. unfold vnode_ref. replace (vn =? 0) with false by lia.
  rewrite Ev, Hv. cbn [mbind option_bind set_vnode dirs]. rewrite (do_dir _ _ _ _ _ Hok1). cbn [mbind option_bind].
  unfold name_size. rewrite copy_string_fits by lia.
  set (d' := Build_RamfsDir (d_array d1) (d_entries d1 ++ [Build_RamfsEntry name vn]) (d_capacity d1)).
  eexists 0, _, live1, d'. split_and!; [reflexivity| |done|done| |done|].
  - destruct Hok1. split; cbn; try done; [apply lookup_insert_eq|]. unfold count in *. cbn. rewrite length_app. cbn.
    rewrite Ed. lia.
  - intros p Hp. cbn. rewrite lookup_insert_ne by done. by apply Hdirs.
  - left. split_and!; [done| |cbn; by rewrite Ev]. subst d'. rewrite dir_map_snoc; cbn; [unfold dir_map; by rewrite Ed|].
    unfold dir_map. by rewrite Ed.
Qed.

(** ** Creating *)

(** What creating [name] in a directory achieves: the name is bound to a new
    vnode, which the caller and the directory refer to. *)
Record created s s' (live live' : gmap Z Z) (dp : Z) (d d' : RamfsDir) (name : str) (v data : Z)
    (type : VnodeType) (ops : Z) : Prop := {
  cr_map : dir_map d' = <[name := v]> (dir_map d);
  cr_fresh : live !! v = None /\ live !! data = None /\ v <> data /\ v <> 0 /\ data <> 0;
  cr_held : live' !! v = Some sizeof_Vnode /\ live' !! data = Some (if is_directory type then sizeof_RamfsDir else sizeof_RamfsFile);
  cr_vnode : vnodes s' = <[v := Build_Vnode type ops data 2 0]> (vnodes s);
  cr_dirs : forall p, p <> dp -> p <> data -> dirs s' !! p = dirs s !! p;
  cr_files : forall p, p <> data -> files s' !! p = files s !! p;
  cr_data : match type with
            | File => files s' !! data = Some (Build_RamfsFile 0 [] 0)
            | Directory => dirs s' !! data = Some (Build_RamfsDir 0 [] 0)
            end;
}.

(** [kalloc] of an object: null, or an address that is not in use. *)
Lemma kalloc_cases size s live frames :
  km_wf (kmem s) live frames -> 0 < size ->
  (exists a, kalloc size 8 s = (0, set_kmem a s) /\ km_wf a live frames)
  \/ (exists p a, kalloc size 8 s = (p, set_kmem a s) /\ p <> 0 /\ live !! p = None
      /\ km_wf a (<[p := size]> live) frames).
Proof.
  intros Hk Hs. unfold kalloc. pose proof (km_kalloc_law (kmem s) live frames size 8 Hk Hs) as Hlaw.
  destruct (km_kalloc size 8 (kmem s)) as [p a]. cbn [fst snd] in Hlaw.
  destruct Hlaw as [[-> Ha]|(Hp & Hl & Ha)]; [left; by exists a|right]. exists p, a. split_and!; [done|lia|done|done].
Qed.

(** The directory after allocations elsewhere. *)
Lemma dir_ok_alloc2 s s' live frames dp d v p n m :
  dir_ok s live frames dp d -> live !! v = None -> live !! p = None -> v <> p ->
  km_wf (kmem s') (<[p := m]> (<[v := n]> live)) frames -> dirs s' !! dp = dirs s !! dp ->
  dir_ok s' (<[p := m]> (<[v := n]> live)) frames dp d.
Proof.
  intros Hok Hv Hp Hvp Hk Hd. pose proof (do_live _ _ _ _ _ Hok). split; [rewrite Hd; apply Hok|done| | |apply Hok].
  - rewrite !lookup_insert_ne by congruence. done.
  - pose proof (do_array _ _ _ _ _ Hok) as Harr. destruct (d_array d =? 0); [done|]. destruct Harr.
    rewrite !lookup_insert_ne by congruence. done.
Qed.

Lemma dir_ok_kmem s s' live frames dp d :
  dir_ok s live frames dp d -> dirs s' !! dp = dirs s !! dp -> km_wf (kmem s') live frames -> dir_ok s' live frames dp d.
Proof. intros [] Hd Hk. split; try done. congruence. Qed.

(** Giving back an object that is neither the directory nor its array. *)
Lemma dir_ok_kfree s live frames dp d p n :
  dir_ok s live frames dp d -> live !! p = Some n -> p <> dp -> 0 < n < 264 ->
  dir_ok (kfree p n s) (delete p live) frames dp d.
Proof.
  intros [] Hp Hne Hn. split; cbn; [done|by apply km_kfree_law|by rewrite lookup_delete_ne| |done].
  destruct (d_array d =? 0); [done|]. destruct do_array0 as [Harr ?]. split; [|done].
  rewrite lookup_delete_ne; [done|]. intros ->. unfold sizeof_RamfsEntry in *.
  assert (0 <= d_capacity d) by (unfold count in *; lia). rewrite wrap_small in Harr by lia.
  assert (n = d_capacity d * 264) by congruence. lia.
Qed.

(** The outcome of a failed creation: the directory is as before. *)
Definition no_space s s' (live : gmap Z Z) (frames : gset Z) (dp : Z) (d : RamfsDir) : Prop :=
  exists live' d', dir_ok s' live' frames dp d' /\ dir_map d' = dir_map d
    /\ (forall p n, p <> d_array d -> live !! p = Some n -> live' !! p = Some n)
    /\ (forall p n, live !! p = Some n -> vnodes s' !! p = vnodes s !! p /\ files s' !! p = files s !! p
         /\ (p <> dp -> dirs s' !! p = dirs s !! p)).

(** The common part of [ramfs_create] and [ramfs_mkdir]: a vnode and its data
    exist, and the entry is added. *)
Lemma add_new s live frames dp d name v data (s1 : ramfs A) type ops :
  let n := if is_directory type then sizeof_RamfsDir else sizeof_RamfsFile in
  dir_ok s live frames dp d -> count d < 2 ^ 38 -> (length name <= 255)%nat -> dir_map d !! name = None ->
  live !! v = None -> live !! data = None -> v <> data -> v <> 0 -> data <> 0 ->
  dir_ok s1 (<[data := n]> (<[v := sizeof_Vnode]> live)) frames dp d ->
  vnodes s1 = <[v := Build_Vnode type ops data 1 0]> (vnodes s) ->
  (forall p, p <> data -> files s1 !! p = files s !! p) -> (forall p, p <> data -> dirs s1 !! p = dirs s !! p) ->
  match type with File => files s1 !! data = Some (Build_RamfsFile 0 [] 0)
                | Directory => dirs s1 !! data = Some (Build_RamfsDir 0 [] 0) end ->
  exists err s2, dir_add_entry dp name v s1 = Some (err, s2)
    /\ ((err = 0 /\ exists live' d', dir_ok s2 live' frames dp d' /\ created s s2 live live' dp d d' name v data type ops
          /\ forall p n, p <> d_array d -> live !! p = Some n -> live' !! p = Some n)
        \/ (err = E_NO_SPACE /\ no_space s (kfree v sizeof_Vnode (kfree data n s2)) live frames dp d)).
Proof.
  intros n Hok Hc Hlen Hnone Hv Hdata Hvd Hv0 Hd0 Hok1 Evn Efiles Edirs Edata.
  pose proof (do_live _ _ _ _ _ Hok) as Hdp.
  destruct (dir_add_entry_spec s1 _ frames dp d name v (Build_Vnode type ops data 1 0) Hok1 Hc)
    as (err & s2 & live2 & d2 & -> & Hok2 & Ef2 & Em2 & Ed2 & Hl2 & Hcase);
    [by rewrite Evn, lookup_insert_eq|done|done|done|].
  assert (d_array d <> v /\ d_array d <> data) as [Hav Had].
  { pose proof (do_array _ _ _ _ _ Hok) as Ha. destruct (Z.eqb_spec (d_array d) 0); [split; congruence|].
    destruct Ha as [Ha _]. split; congruence. }
  assert (live2 !! v = Some sizeof_Vnode) as Lv.
  { apply Hl2; [done|]. rewrite lookup_insert_ne by done. apply lookup_insert_eq. }
  assert (live2 !! data = Some n) as Ld by (apply Hl2; [done|apply lookup_insert_eq]).
  assert (forall p m, p <> d_array d -> live !! p = Some m -> live2 !! p = Some m) as Lkeep.
  { intros p m Hp Hm. apply Hl2; [done|]. rewrite !lookup_insert_ne by congruence. done. }
  exists err, s2. split; [done|]. destruct Hcase as [(-> & Hmap & Evn2)|(-> & Hmap & Evn2)].
  - left. split; [done|]. exists live2, d2. split_and!; [done| |done]. split.
    + done.
    + split_and!; done.
    + done.
    + rewrite Evn2, Evn, insert_insert_eq. done.
    + intros p Hp Hpd. rewrite Ed2 by done. by apply Edirs.
    + intros p Hp. rewrite Ef2. by apply Efiles.
    + destruct type; [by rewrite Ef2|]. rewrite Ed2; [done|]. congruence.
  - right. split; [done|]. exists (delete v (delete data live2)), d2. split_and!.
    + apply dir_ok_kfree; [apply dir_ok_kfree; [done|done|congruence|subst n; unfold sizeof_RamfsDir, sizeof_RamfsFile; case_match; lia]
        |by rewrite lookup_delete_ne|congruence|done].
    + done.
    + intros p m Hp Hm. rewrite !lookup_delete_ne by congruence. by apply Lkeep.
    + intros p m Hm. cbn. rewrite Evn2, Evn, Ef2. rewrite lookup_insert_ne by congruence.
      split_and!; [done|apply Efiles; congruence|]. intros Hp. rewrite Ed2 by done. apply Edirs. congruence.
Qed.

Lemma no_space_kmem s live frames dp d (s' : ramfs A) :
  dir_ok s live frames dp d -> km_wf (kmem s') live frames -> dirs s' = dirs s -> files s' = files s ->
  (forall p n, live !! p = Some n -> vnodes s' !! p = vnodes s !! p) -> no_space s s' live frames dp d.
Proof.
  intros Hok Hk Ed Ef Ev. exists live, d. split_and!; [|done|done|].
  - eapply dir_ok_kmem; [done|by rewrite Ed|done].
  - intros p n Hp. rewrite Ef, Ed. split_and!; [by eapply Ev|done|done].
Qed.

(** Creating a file or a directory: refused when the name exists, out of
    memory without a trace, or done. *)
Lemma ramfs_create_cases s live frames dir dv d name :
  vnodes s !! dir = Some dv -> dir_ok s live frames (private_data dv) d -> count d < 2 ^ 38 ->
  (length name <= 255)%nat ->
  exists err v s', ramfs_create dir name s = Some (err, v, s')
    /\ ((err = E_EXISTS /\ dir_map d !! name <> None /\ s' = s)
        \/ (err = E_NO_SPACE /\ dir_map d !! name = None /\ no_space s s' live frames (private_data dv) d)
        \/ (err = 0 /\ dir_map d !! name = None /\ exists live' d' data, dir_ok s' live' frames (private_data dv) d'
             /\ created s s' live live' (private_data dv) d d' name v data File (v_ops dv)
             /\ forall p n, p <> d_array d -> live !! p = Some n -> live' !! p = Some n)).
Proof.
  intros Hdv Hok Hc Hlen. unfold ramfs_create. rewrite Hdv. cbn [mbind option_bind].
  rewrite (do_dir _ _ _ _ _ Hok). cbn [mbind option_bind]. pose proof (dir_find_map d name) as Hfind.
  destruct (dir_find_entry d name) as [idx|].
  { exists E_EXISTS, 0, s. split; [done|]. left. destruct Hfind as (e & _ & _ & ->). done. }
  unfold create_vnode.
  destruct (kalloc_cases sizeof_Vnode s live frames (do_kmem _ _ _ _ _ Hok) ltac:(done)) as [(a & -> & Ha)|(v & a & -> & Hv0 & Hv & Ha)].
  { cbn. eexists E_NO_SPACE, 0, _. split; [done|]. right. left. split_and!; [done|done|]. by apply no_space_kmem. }
  replace (v =? 0) with false by lia. replace (v =? 0) with false by lia.
  unfold set_ops. cbn [set_vnode set_kmem vnodes]. rewrite lookup_insert_eq. cbn [mbind option_bind v_type ref_count mount_parent].
  unfold alloc_file. set (s0 := set_vnode v _ (set_vnode v _ (set_kmem a s))).
  destruct (kalloc_cases sizeof_RamfsFile s0 (<[v := sizeof_Vnode]> live) frames Ha ltac:(done)) as [(a2 & -> & Ha2)|(fp & a2 & -> & Hf0 & Hf & Ha2)].
  { cbn. eexists E_NO_SPACE, 0, _. split; [done|]. right. left. split_and!; [done|done|].
    apply no_space_kmem; try done; cbn.
    - replace live with (delete v (<[v := sizeof_Vnode]> live)) by (rewrite delete_insert_id; done).
      apply km_kfree_law; [done|apply lookup_insert_eq].
    - intros p n Hp. rewrite insert_insert_eq. rewrite lookup_insert_ne; [done|congruence]. }
  replace (fp =? 0) with false by lia. replace (fp =? 0) with false by lia.
  cbn [set_file set_kmem vnodes s0 set_vnode]. rewrite insert_insert_eq, lookup_insert_eq. cbn [mbind option_bind v_type ref_count mount_parent].
  assert (v <> fp) as Hvf by (intros ->; by rewrite lookup_insert_eq in Hf).
  rewrite lookup_insert_ne in Hf by done.
  match goal with |- context [dir_add_entry _ _ _ ?x] => set (s1 := x) end.
  destruct (add_new s live frames (private_data dv) d name v fp s1 File (v_ops dv))
    as (err & s2 & -> & Hcase); try done.
  - by apply (dir_ok_alloc2 s).
  - cbn. by rewrite !insert_insert_eq.
  - intros p Hp. cbn. by rewrite lookup_insert_ne.
  - cbn. apply lookup_insert_eq.
  - cbn [mbind option_bind]. destruct Hcase as [(-> & live' & d' & Hok' & Hcr & Hl)|(-> & Hns)].
    + exists 0, v, s2. split; [done|]. right. right. split_and!; [done|done|]. by exists live', d', fp.
    + cbn. eexists E_NO_SPACE, 0, _. split; [done|]. right. left. by split_and!.
Qed.

Lemma ramfs_mkdir_cases s live frames dir dv d name :
  vnodes s !! dir = Some dv -> dir_ok s live frames (private_data dv) d -> count d < 2 ^ 38 ->
  (length name <= 255)%nat ->
  exists err s', ramfs_mkdir dir name s = Some (err, s')
    /\ ((err = E_EXISTS /\ dir_map d !! name <> None /\ s' = s)
        \/ (err = E_NO_SPACE /\ dir_map d !! name = None /\ no_space s s' live frames (private_data dv) d)
        \/ (err = 0 /\ dir_map d !! name = None /\ exists live' d' v data, dir_ok s' live' frames (private_data dv) d'
             /\ created s s' live live' (private_data dv) d d' name v data Directory (v_ops dv)
             /\ forall p n, p <> d_array d -> live !! p = Some n -> live' !! p = Some n)).
Proof.
  intros Hdv Hok Hc Hlen. unfold ramfs_mkdir. rewrite Hdv. cbn [mbind option_bind].
  rewrite (do_dir _ _ _ _ _ Hok). cbn [mbind option_bind]. pose proof (dir_find_map d name) as Hfind.
  destruct (dir_find_entry d name) as [idx|].
  { exists E_EXISTS, s. split; [done|]. left. destruct Hfind as (e & _ & _ & ->). done. }
  unfold create_vnode.
  destruct (kalloc_cases sizeof_Vnode s live frames (do_kmem _ _ _ _ _ Hok) ltac:(done)) as [(a & -> & Ha)|(v & a & -> & Hv0 & Hv & Ha)].
  { cbn. eexists E_NO_SPACE, _. split; [done|]. right. left. split_and!; [done|done|]. by apply no_space_kmem. }
  replace (v =? 0) with false by lia. replace (v =? 0) with false by lia.
  unfold set_ops. cbn [set_vnode set_kmem vnodes]. rewrite lookup_insert_eq. cbn [mbind option_bind v_type ref_count mount_parent].
  unfold alloc_dir. set (s0 := set_vnode v _ (set_vnode v _ (set_kmem a s))).
  destruct (kalloc_cases sizeof_RamfsDir s0 (<[v := sizeof_Vnode]> live) frames Ha ltac:(done)) as [(a2 & -> & Ha2)|(fp & a2 & -> & Hf0 & Hf & Ha2)].
  { cbn. eexists E_NO_SPACE, _. split; [done|]. right. left. split_and!; [done|done|].
    apply no_space_kmem; try done; cbn.
    - replace live with (delete v (<[v := sizeof_Vnode]> live)) by (rewrite delete_insert_id; done).
      apply km_kfree_law; [done|apply lookup_insert_eq].
    - intros p n Hp. rewrite insert_insert_eq. rewrite lookup_insert_ne; [done|congruence]. }
  replace (fp =? 0) with false by lia. replace (fp =? 0) with false by lia.
  cbn [set_dir set_kmem vnodes s0 set_vnode]. rewrite insert_insert_eq, lookup_insert_eq. cbn [mbind option_bind v_type ref_count mount_parent].
  assert (v <> fp) as Hvf by (intros ->; by rewrite lookup_insert_eq in Hf).
  rewrite lookup_insert_ne in Hf by done.
  match goal with |- context [dir_add_entry _ _ _ ?x] => set (s1 := x) end.
  destruct (add_new s live frames (private_data dv) d name v fp s1 Directory (v_ops dv))
    as (err & s2 & -> & Hcase); try done.
  - apply (dir_ok_alloc2 s); try done. cbn. apply lookup_insert_ne. pose proof (do_live _ _ _ _ _ Hok). congruence.
  - cbn. by rewrite !insert_insert_eq.
  - intros p Hp. cbn. by rewrite lookup_insert_ne.
  - cbn. apply lookup_insert_eq.
  - cbn [mbind option_bind]. destruct Hcase as [(-> & live' & d' & Hok' & Hcr & Hl)|(-> & Hns)].
    + exists 0, s2. split; [done|]. right. right. split_and!; [done|done|]. by exists live', d', v, fp.
    + cbn. eexists E_NO_SPACE, _. split; [done|]. right. left. by split_and!.
Qed.

(** Looking up a name is a lookup in the map of the directory. *)
Lemma ramfs_lookup_map s dir dv d name :
  vnodes s !! dir = Some dv -> dirs s !! private_data dv = Some d ->
  ramfs_lookup dir name s =
    Some (match dir_map d !! name with Some v => (0, v, s) | None => (E_NOT_FOUND, 0, s) end).
Proof.
  intros Hv Hd. unfold ramfs_lookup, ramdir_of. rewrite Hv. cbn [fmap option_fmap option_map mbind option_bind].
  rewrite Hd. cbn [mbind option_bind]. pose proof (dir_find_map d name) as Hf.
  destruct (dir_find_entry d name) as [k|]; [|by rewrite Hf]. destruct Hf as (e & -> & _ & ->). done.
Qed.

(** ** Removing *)

(** Giving back the frames of a file. *)
Lemma give_pages_spec live pages : forall (a : A) (frames : gset Z),
  km_wf a live frames ->
  (forall i p, pages !! i = Some p -> p <> 0 -> exists page, p = page * kPageSize /\ page ∈ frames) ->
  (forall i j p, pages !! i = Some p -> pages !! j = Some p -> p <> 0 -> i = j) ->
  exists frames', km_wf (free_pages pages a) live frames' /\ frames' ⊆ frames
    /\ forall q, q ∈ frames -> (forall i, pages !! i = Some (q * kPageSize) -> q = 0) -> q ∈ frames'.
Proof.
  induction pages as [|p pages IH]; intros a frames Hk Hin Hinj; cbn [free_pages foldl].
  { exists frames. split_and!; [done|done|]. by intros q Hq _. }
  destruct (Z.eqb_spec p 0) as [->|Hp].
  - destruct (IH a frames Hk) as (frames' & H1 & H2 & H3).
    + intros i q Hq. by apply (Hin (Datatypes.S i)).
    + intros i j q Hi Hj Hq. pose proof (Hinj (Datatypes.S i) (Datatypes.S j) q Hi Hj Hq). lia.
    + exists frames'. split_and!; [done|done|]. intros q Hq Hno. apply H3; [done|]. intros i. apply (Hno (Datatypes.S i)).
  - destruct (Hin 0%nat p eq_refl Hp) as (page & -> & Hpage).
    destruct (IH (km_free_page (page * kPageSize) a) (frames ∖ {[page]})) as (frames' & H1 & H2 & H3).
    + by apply km_free_page_law.
    + intros i q Hq Hq0. destruct (Hin (Datatypes.S i) q Hq Hq0) as (page' & -> & Hpage').
      exists page'. split; [done|]. apply elem_of_difference. split; [done|]. intros ->%elem_of_singleton.
      pose proof (Hinj 0%nat (Datatypes.S i) (page * kPageSize) eq_refl Hq Hp). lia.
    + intros i j q Hi Hj Hq. pose proof (Hinj (Datatypes.S i) (Datatypes.S j) q Hi Hj Hq). lia.
    + exists frames'. split_and!; [done|set_solver|]. intros q Hq Hno. apply H3.
      * apply elem_of_difference. split; [done|]. intros ->%elem_of_singleton. apply Hp.
        by rewrite (Hno 0%nat eq_refl).
      * intros i Hi. by apply (Hno (Datatypes.S i)).
Qed.

Definition distinct_names (d : RamfsDir) : Prop := NoDup (e_name <$> d_entries d).

Lemma dir_map_remove d idx e array cap :
  distinct_names d -> d_entries d !! idx = Some e ->
  dir_map (Build_RamfsDir array (take idx (d_entries d) ++ drop (Datatypes.S idx) (d_entries d)) cap)
  = delete (e_name e) (dir_map d).
Proof.
  intros Hnd Hi. unfold dir_map, distinct_names in *. cbn [d_entries].
  rewrite <- (take_drop_middle _ _ _ Hi) in Hnd at 1. rewrite fmap_app in Hnd. cbn in Hnd.
  rewrite <- (take_drop_middle _ _ _ Hi) at 3. rewrite !fmap_app. cbn [fmap list_fmap].
  rewrite !list_to_map_app. cbn [list_to_map foldr fst snd uncurry].
  apply NoDup_app in Hnd as (_ & Hdis & Hnd). apply NoDup_cons in Hnd as [Hnin _].
  set (l1 := take idx (d_entries d)) in *. set (l2 := drop (Datatypes.S idx) (d_entries d)) in *.
  assert (list_to_map (M := gmap str Z) ((fun e => (e_name e, e_vnode e)) <$> l1) !! e_name e = None) as N1.
  { apply not_elem_of_list_to_map_1. rewrite <- list_fmap_compose. intros Hx. apply (Hdis (e_name e)); [exact Hx|].
    apply elem_of_cons. by left. }
  assert (list_to_map (M := gmap str Z) ((fun e => (e_name e, e_vnode e)) <$> l2) !! e_name e = None) as N2.
  { apply not_elem_of_list_to_map_1. rewrite <- list_fmap_compose. exact Hnin. }
  apply map_eq. intros k. rewrite lookup_union. destruct (decide (k = e_name e)) as [->|Hne].
  - by rewrite lookup_delete_eq, N1, N2.
  - rewrite lookup_delete_ne, lookup_union by done. rewrite lookup_insert_ne by done. done.
Qed.

(** Removing a file: its name is unbound, its frames, page array, file and
    vnode are given back, and the rest of the directory stays.  The reference
    of the directory is dropped after the vnode was given back. *)
Lemma ramfs_unlink_cases s live frames dir dv d name vn v f :
  vnodes s !! dir = Some dv -> dir_ok s live frames (private_data dv) d -> distinct_names d ->
  dir_map d !! name = Some vn -> vnodes s !! vn = Some v -> v_type v = File ->
  file_ok s live frames (private_data v) f ->
  vn <> 0 -> live !! vn = Some sizeof_Vnode -> private_data v <> private_data dv ->
  f_array f <> d_array d -> f_array f <> private_data dv -> f_array f <> vn -> page_count f < 2 ^ 60 ->
  exists s' live' frames' d', ramfs_unlink dir name s = Some (0, s')
    /\ dir_ok s' live' frames' (private_data dv) d' /\ dir_map d' = delete name (dir_map d)
    /\ live' !! vn = None /\ live' !! private_data v = None
    /\ frames' ⊆ frames
    /\ (forall q, q ∈ frames -> (forall i, f_pages f !! i = Some (q * kPageSize) -> q = 0) -> q ∈ frames')
    /\ (forall p, p <> private_data dv -> dirs s' !! p = dirs s !! p) /\ files s' = files s
    /\ vnodes s' = (if 0 <? ref_count v
         then <[vn := Build_Vnode File (v_ops v) (private_data v) (ref_count v - 1) (mount_parent v)]> (vnodes s)
         else vnodes s).
Proof.
  intros Hdv Hok Hnd Hname Hv Hty Hfile Hvn0 Hlvn Hpd Ha1 Ha2 Ha3 Hcnt. unfold ramfs_unlink, ramdir_of. rewrite Hdv.
  cbn [fmap option_fmap option_map mbind option_bind]. rewrite (do_dir _ _ _ _ _ Hok). cbn [mbind option_bind].
  pose proof (dir_find_map d name) as Hfind. destruct (dir_find_entry d name) as [idx|]; [|congruence].
  destruct Hfind as (e & He & <- & Hm). assert (e_vnode e = vn) as Evn by congruence. rewrite He. cbn [mbind option_bind].
  rewrite Evn, Hv. cbn [mbind option_bind]. rewrite Hty. cbn [is_directory].
  destruct Hfile as [Hf Hk Hpg Hlf Harr]. rewrite Hf. cbn [mbind option_bind].
  destruct (give_pages_spec live (f_pages f) (kmem s) frames Hk) as (frames' & Hk1 & Hsub & Hkeep).
  { intros i p Hp Hp0. destruct (po_frame _ _ Hpg i p Hp Hp0) as (page & -> & ? & _). by exists page. }
  { apply Hpg. }
  set (s1 := set_kmem (free_pages (f_pages f) (kmem s)) s).
  assert (exists live1 s2, (if negb (f_array f =? 0) then kfree (f_array f) (page_count f *64 8) s1 else s1) = s2
    /\ km_wf (kmem s2) live1 frames' /\ vnodes s2 = vnodes s /\ dirs s2 = dirs s /\ files s2 = files s
    /\ fmem s2 = fmem s /\ (forall p n, (f_array f <> 0 -> p <> f_array f) -> live !! p = Some n -> live1 !! p = Some n))
    as (live1 & s2 & -> & Hk2 & Ev2 & Ed2 & Ef2 & Em2 & Hl1).
  { destruct (Z.eqb_spec (f_array f) 0) as [E0|E0]; cbn [negb].
    - exists live, s1. split_and!; done.
    - destruct Harr as [Harr Hne]. exists (delete (f_array f) live), (kfree (f_array f) (page_count f *64 8) s1).
      split_and!; try done; [by apply km_kfree_law|]. intros p n Hp Hl. rewrite lookup_delete_ne; [done|].
      intros E. by apply Hp. }
  assert (f_array f <> 0 -> private_data v <> f_array f) as Hafp.
  { intros E0. destruct (Z.eqb_spec (f_array f) 0); [done|]. destruct Harr. congruence. }
  pose proof (do_live _ _ _ _ _ Hok) as Hldp.
  pose proof (Hl1 vn _ (fun _ => not_eq_sym Ha3) Hlvn) as Lvn. pose proof (Hl1 _ _ Hafp Hlf) as Lfp.
  pose proof (Hl1 _ _ (fun _ => not_eq_sym Ha2) Hldp) as Ldp.
  assert (vn <> private_data v) as Hvf by (intros E; rewrite E in Lvn; rewrite Lfp in Lvn; done).
  assert (vn <> private_data dv) as Hvd by (intros E; rewrite E in Lvn; rewrite Ldp in Lvn; done).
  unfold dir_remove_entry. cbn [dirs kfree set_kmem]. rewrite Ed2, (do_dir _ _ _ _ _ Hok). cbn [mbind option_bind].
  pose proof (lookup_lt_Some _ _ _ He) as Hidx. rewrite bool_decide_false by lia. rewrite He. cbn [mbind option_bind].
  unfold vnode_unref. rewrite Evn. replace (vn =? 0) with false by lia. cbn [vnodes kfree set_kmem]. rewrite Ev2, Hv.
  cbn [mbind option_bind].
  set (d' := Build_RamfsDir (d_array d) (take idx (d_entries d) ++ drop (Datatypes.S idx) (d_entries d)) (d_capacity d)).
  eexists _, (delete vn (delete (private_data v) live1)), frames', d'.
  split_and!; [reflexivity|..]; try done.
  - split.
    + destruct (0 <? ref_count v); cbn; apply lookup_insert_eq.
    + assert (km_wf (km_kfree vn sizeof_Vnode (km_kfree (private_data v) sizeof_RamfsFile (kmem s2)))
        (delete vn (delete (private_data v) live1)) frames') as Hk3.
      { apply km_kfree_law; [by apply km_kfree_law|by rewrite lookup_delete_ne]. }
      destruct (0 <? ref_count v); exact Hk3.
    + rewrite !lookup_delete_ne by congruence. done.
    + pose proof (do_array _ _ _ _ _ Hok) as Hda. pose proof (do_count _ _ _ _ _ Hok). cbn [d' d_array d_capacity].
      destruct (Z.eqb_spec (d_array d) 0); [done|]. destruct Hda as [Hda Hdne]. split; [|done].
      unfold count, sizeof_RamfsEntry in *. rewrite wrap_small in Hda |- * by lia.
      rewrite !lookup_delete_ne; [apply Hl1; [intros _; by apply not_eq_sym|done]|..]; intros E; rewrite <- E in Hda.
      * rewrite Hlf in Hda. injection Hda as Hda. unfold sizeof_RamfsFile in *. lia.
      * rewrite Hlvn in Hda. injection Hda as Hda. unfold sizeof_Vnode in *. lia.
    + pose proof (do_count _ _ _ _ _ Hok). unfold count, d' in *. cbn. rewrite length_app, length_take, length_drop. lia.
  - by apply dir_map_remove.
  - apply lookup_delete_eq.
  - rewrite lookup_delete_ne by done. apply lookup_delete_eq.
  - intros p Hp. destruct (0 <? ref_count v); cbn; rewrite lookup_insert_ne by done; by rewrite ?Ed2.
  - by destruct (0 <? ref_count v).
  - rewrite <- Hty. destruct (0 <? ref_count v); cbn; by rewrite ?Ev2.
Qed.

End Directories.

Section Contract.
Context {A : Type} `{KMem A}.
Implicit Types (s : ramfs A).

(** Creating a file under a name of at most 255 bytes: the call is refused
    with [E_EXISTS] exactly when the name is bound, or it runs out of memory
    and every object keeps its state, or it binds the name to a new, empty
    file.  Then looking the name up finds the new vnode, and every other name
    finds what it found before. *)
Theorem ramfs_create_lookup s live frames dir dv d name :
  vnodes s !! dir = Some dv -> live !! dir = Some sizeof_Vnode ->
  dir_ok s live frames (private_data dv) d -> count d < 2 ^ 38 -> (length name <= 255)%nat ->
  exists err v s', ramfs_create dir name s = Some (err, v, s')
    /\ (err = E_EXISTS <-> dir_map d !! name <> None)
    /\ (err = E_EXISTS -> s' = s)
    /\ (err < 0 -> forall name', (fun r => (r.1.1, r.1.2)) <$> ramfs_lookup dir name' s'
                   = (fun r => (r.1.1, r.1.2)) <$> ramfs_lookup dir name' s)
    /\ (err = 0 -> live !! v = None /\ ramfs_stat v s' = Some (0, Build_Stat File 0, s')
        /\ forall name', (fun r => (r.1.1, r.1.2)) <$> ramfs_lookup dir name' s'
             = if decide (name' = name) then Some (0, v)
               else (fun r => (r.1.1, r.1.2)) <$> ramfs_lookup dir name' s).
Proof.
  intros Hdv Hldir Hok Hc Hlen.
  destruct (ramfs_create_cases s live frames dir dv d name Hdv Hok Hc Hlen) as (err & v & s' & E & Hcase).
  exists err, v, s'. split; [done|].
  pose proof (fun name' => ramfs_lookup_map s dir dv d name' Hdv (do_dir _ _ _ _ _ Hok)) as Hlk.
  destruct Hcase as [(-> & Hb & ->)|[(-> & Hn & live' & d' & Hok' & Hmap & Hl & Hobj)|(-> & Hn & live' & d' & data & Hok' & Hcr & Hl)]].
  - split_and!; try done.
  - destruct (Hobj dir _ Hldir) as (Ev & _ & _). rewrite Hdv in Ev. split_and!; try done.
    intros _ name'. rewrite Hlk, (ramfs_lookup_map s' dir dv d' name' Ev (do_dir _ _ _ _ _ Hok')), Hmap.
    by destruct (dir_map d !! name').
  - destruct (cr_fresh _ _ _ _ _ _ _ _ _ _ _ _ Hcr) as (Hv & Hdata & _).
    pose proof (cr_vnode _ _ _ _ _ _ _ _ _ _ _ _ Hcr) as Evn. split_and!; try done.
    intros _. split; [done|]. split.
    + unfold ramfs_stat. rewrite Evn, lookup_insert_eq. cbn [mbind option_bind v_type private_data].
      pose proof (cr_data _ _ _ _ _ _ _ _ _ _ _ _ Hcr) as Hd. cbn in Hd. by rewrite Hd.
    + intros name'. rewrite (ramfs_lookup_map s' dir dv d' name');
        [|rewrite Evn, lookup_insert_ne; congruence|apply Hok'].
      rewrite (cr_map _ _ _ _ _ _ _ _ _ _ _ _ Hcr), Hlk. case_decide as Hd; [subst; by rewrite lookup_insert_eq|].
      rewrite lookup_insert_ne by done. by destruct (dir_map d !! name').
Qed.

(** Removing a file that a directory with distinct names binds: the name is no
    longer found and the other names are as before; the vnode and the file are
    given back, and of the frames only those of the file.  The vnode is given
    back before the reference of the directory is dropped, so the count is
    written to memory that is no longer allocated. *)
Theorem ramfs_unlink_spec s live frames dir dv d name vn v f :
  vnodes s !! dir = Some dv -> dir_ok s live frames (private_data dv) d -> distinct_names d -> dir <> vn ->
  dir_map d !! name = Some vn -> vnodes s !! vn = Some v -> v_type v = File ->
  file_ok s live frames (private_data v) f ->
  vn <> 0 -> live !! vn = Some sizeof_Vnode -> private_data v <> private_data dv ->
  f_array f <> d_array d -> f_array f <> private_data dv -> f_array f <> vn -> page_count f < 2 ^ 60 ->
  exists s' live' frames', ramfs_unlink dir name s = Some (0, s') /\ km_wf (kmem s') live' frames'
    /\ live' !! vn = None /\ live' !! private_data v = None
    /\ (forall q, q ∈ frames -> (forall i, f_pages f !! i = Some (q * kPageSize) -> q = 0) -> q ∈ frames')
    /\ (0 < ref_count v -> vnodes s' !! vn <> vnodes s !! vn)
    /\ forall name', (fun r => (r.1.1, r.1.2)) <$> ramfs_lookup dir name' s'
         = if decide (name' = name) then Some (E_NOT_FOUND, 0)
           else (fun r => (r.1.1, r.1.2)) <$> ramfs_lookup dir name' s.
Proof.
  intros Hdv Hok Hnd Hdvn Hname Hv Hty Hfile Hvn0 Hlvn Hpd Ha1 Ha2 Ha3 Hcnt.
  destruct (ramfs_unlink_cases s live frames dir dv d name vn v f Hdv Hok Hnd Hname Hv Hty Hfile Hvn0 Hlvn Hpd Ha1 Ha2 Ha3 Hcnt)
    as (s' & live' & frames' & d' & E & Hok' & Hmap & L1 & L2 & _ & Hfr & _ & _ & Evn).
  exists s', live', frames'. split_and!; try done; [apply Hok'| |].
  - intros Hr. rewrite Evn. replace (0 <? ref_count v) with true by lia. rewrite lookup_insert_eq, Hv.
    intros [= Hx]. apply (f_equal ref_count) in Hx. cbn in Hx. lia.
  - assert (vnodes s' !! dir = Some dv) as Hdv' by (rewrite Evn; destruct (0 <? ref_count v); [by rewrite lookup_insert_ne|done]).
    intros name'. rewrite (ramfs_lookup_map s' dir dv d' name' Hdv' (do_dir _ _ _ _ _ Hok')), Hmap.
    rewrite (ramfs_lookup_map s dir dv d name' Hdv (do_dir _ _ _ _ _ Hok)).
    case_decide as Hd; [subst; by rewrite lookup_delete_eq|]. rewrite lookup_delete_ne by done. by destruct (dir_map d !! name').
Qed.

End Contract.

(** * The filesystem behind the interface of the VFS *)

Definition ramfs_set_mount_parent {A} (v parent : Z) (s : ramfs A) : option (ramfs A) :=
  n ← vnodes s !! v;
  Some (set_vnode v (Build_Vnode (v_type n) (v_ops n) (private_data n) (ref_count n) parent) s).

#[export, refine] Instance ramfs_vnode_fs {A} `{KMem A} : VnodeFs (ramfs A) := {|
  vn_type v s := v_type <$> vnodes s !! v;
  vn_ref := vnode_ref;
  vn_unref := vnode_unref;
  vn_set_mount_parent := ramfs_set_mount_parent;
  op_lookup := ramfs_lookup;
  op_create := ramfs_create;
  has_mkdir _ _ := true;
  op_mkdir := ramfs_mkdir;
  has_read _ _ := true;
  op_read v offset buf size s := ramfs_read v offset buf size s;
  has_write _ _ := true;
  op_write v offset buf size s := ramfs_write v offset buf size s;
  has_readdir _ _ := true;
  op_readdir := ramfs_readdir;
  has_stat _ _ := true;
  op_stat := ramfs_stat;
|}.
Proof.
  - intros v w s s'. unfold vnode_ref. destruct (w =? 0); [by intros [= <-]|].
    destruct (vnodes s !! w) as [n|] eqn:E; [|done]. cbn. intros [= <-]. cbn. rewrite lookup_insert.
    case_decide as Hd; [|done]. subst. by rewrite E.
  - intros v w s s'. unfold vnode_unref. destruct (w =? 0); [by intros [= <-]|].
    destruct (vnodes s !! w) as [n|] eqn:E; [|done]. cbn. intros [= <-]. destruct (0 <? ref_count n); [|done].
    cbn. rewrite lookup_insert. case_decide as Hd; [|done]. subst. by rewrite E.
Defined.

(** * Concrete instances *)

(** A mounted filesystem with one empty file "f"; the root vnode is at 0x1000,
    its directory at 0x1028, the file's vnode at 0x1040, the file at 0x1068 and
    the entry array at 0x1080. *)
Definition demo_empty : ramfs bump := Ramfs ∅ ∅ ∅ (afill 0) (Bump 0x1000 0x100).
Definition demo_mounted : ramfs bump :=
  match ramfs_mount demo_empty with Some (_, _, s) => s | None => demo_empty end.
Definition demo_fs : ramfs bump :=
  match ramfs_create 0x1000 [102] demo_mounted with Some (_, _, s) => s | None => demo_empty end.
Definition demo_live : gmap Z Z :=
  <[0x1000 := 40]> (<[0x1028 := 24]> (<[0x1040 := 40]> (<[0x1068 := 24]> {[0x1080 := 8 * 264]}))).

Lemma demo_kmem : km_wf (kmem demo_fs) demo_live {[0]}.
Proof.
  replace (kmem demo_fs) with (Bump 0x18c0 0x100) by (vm_compute; reflexivity). split; [cbn; lia|]. split.
  - intros p n. unfold demo_live. rewrite !lookup_insert, lookup_singleton. cbn [next_object].
    repeat case_decide; try lia. done.
  - intros q ->%elem_of_singleton. cbn. lia.
Qed.

Lemma demo_dir_ok : dir_ok demo_fs demo_live {[0]} 0x1028 (Build_RamfsDir 0x1080 [Build_RamfsEntry [102] 0x1040] 8).
Proof.
  split; [vm_compute; reflexivity|apply demo_kmem|vm_compute; reflexivity| |split; vm_compute; (reflexivity || discriminate)].
  cbn [d_array]. split; [vm_compute; reflexivity|discriminate].
Qed.

Lemma demo_file_ok : file_ok demo_fs demo_live {[0]} 0x1068 (Build_RamfsFile 0 [] 0).
Proof.
  split; [vm_compute; reflexivity|apply demo_kmem| |vm_compute; reflexivity|reflexivity].
  split; cbn [f_pages]; intros *; by rewrite lookup_nil.
Qed.

Definition demo_data : bmem := aset (aset (afill 0) 0 7) 1 9.

Lemma ramfs_write_read_witness : exists s', ramfs_write 0x1040 4095 demo_data 2 demo_fs = Some (0, 2, s')
  /\ exists buf', ramfs_read 0x1040 4095 (afill 5) 2 s' = Some (0, 2, buf', s') /\ aget buf' 0 = 7 /\ aget buf' 1 = 9.
Proof.
  destruct (ramfs_write_read demo_fs demo_live {[0]} 0x1040 (Build_Vnode File 1 0x1068 2 0) (Build_RamfsFile 0 [] 0)
    4095 2 demo_data) as (err & n & s' & E & Hcase);
    [vm_compute; reflexivity|apply demo_file_ok|set_solver|lia|lia|lia|cbn; lia|].
  assert ((fun r => r.1.1) <$> ramfs_write 0x1040 4095 demo_data 2 demo_fs = Some 0) as E0 by (vm_compute; reflexivity).
  rewrite E in E0. injection E0 as E0.
  destruct Hcase as [Hn|(-> & -> & live' & frames' & f' & _ & _ & _ & _ & Hread)]; [rewrite E0 in Hn; discriminate Hn|].
  exists s'. split; [exact E|]. destruct (Hread (afill 5)) as (buf' & Er & Hb). exists buf'. split; [exact Er|].
  split; [rewrite (Hb 0) by lia|rewrite (Hb 1) by lia]; reflexivity.
Defined.

Lemma ramfs_create_lookup_witness : exists v s', ramfs_create 0x1000 [103] demo_fs = Some (0, v, s')
  /\ (fun r => (r.1.1, r.1.2)) <$> ramfs_lookup 0x1000 [103] s' = Some (0, v)
  /\ (fun r => (r.1.1, r.1.2)) <$> ramfs_lookup 0x1000 [102] s' = Some (0, 0x1040).
Proof.
  destruct (ramfs_create_lookup demo_fs demo_live {[0]} 0x1000 (Build_Vnode Directory 1 0x1028 1 0) _ [103]
    ltac:(vm_compute; reflexivity) ltac:(vm_compute; reflexivity) demo_dir_ok)
    as (err & v & s' & E & _ & _ & _ & Hok); [vm_compute; reflexivity|cbn; lia|].
  assert ((fun r => r.1.1) <$> ramfs_create 0x1000 [103] demo_fs = Some 0) as E0 by (vm_compute; reflexivity).
  rewrite E in E0. injection E0 as ->. destruct (Hok eq_refl) as (_ & _ & Hl).
  exists v, s'. split; [exact E|]. split; [rewrite Hl; reflexivity|rewrite Hl; vm_compute; reflexivity].
Defined.

Lemma ramfs_unlink_spec_witness : exists s', ramfs_unlink 0x1000 [102] demo_fs = Some (0, s')
  /\ (fun r => (r.1.1, r.1.2)) <$> ramfs_lookup 0x1000 [102] s' = Some (E_NOT_FOUND, 0).
Proof.
  destruct (ramfs_unlink_spec demo_fs demo_live {[0]} 0x1000 (Build_Vnode Directory 1 0x1028 1 0) _ [102] 0x1040
    (Build_Vnode File 1 0x1068 2 0) (Build_RamfsFile 0 [] 0) ltac:(vm_compute; reflexivity) demo_dir_ok)
    as (s' & live' & frames' & E & _ & _ & _ & _ & _ & Hl);
    [repeat constructor; set_solver|lia|vm_compute; reflexivity|vm_compute; reflexivity|reflexivity|apply demo_file_ok|lia
    |vm_compute; reflexivity|cbn; lia|cbn; lia|cbn; lia|cbn; lia|vm_compute; reflexivity|].
  exists s'. split; [exact E|]. rewrite Hl. reflexivity.
Defined.
