(* ===== verification/Vfs.v ===== *)
(** The virtual filesystem: [vfs.cpp].

    The filesystems behind it are a state of any type with the interface
    [VnodeFs]; vnodes are named by their address and the null pointer is 0.
    Every process has a table of file descriptors; [cur] names the one
    [get_current_fd_table] returns. *)

From S2P Require Import Prelude MemoryMap Pmm PageAlloc Bytes KMem VfsBase Ramfs.

Definition CONFIG_VFS_MAX_MOUNTS : nat := 16.
Definition CONFIG_VFS_MAX_FDS : nat := 256.

Record MountEntry := Build_MountEntry { mount_point : Z; mounted_root : Z; mount_used : bool }.
Record FileDescriptor := Build_FileDescriptor { fd_vnode : Z; fd_offset : Z; fd_flags : Z; fd_used : bool }.

Record vfs (F : Type) := Vfs {
  mount_table : list MountEntry;
  fd_tables : arr (list FileDescriptor);
  root_vnode : Z;
  initialized : bool;
  node_fs : F;
}.
Arguments Vfs {F}.
Arguments mount_table {F}.
Arguments fd_tables {F}.
Arguments root_vnode {F}.
Arguments initialized {F}.
Arguments node_fs {F}.

(** The table of the kernel itself. *)
Definition kernel_fd_table : Z := 0.

(** [process]: the process of the thread of the current task, 0 without one. *)
Definition get_current_fd_table (process : Z) : Z :=
  if negb (process =? 0) then process else kernel_fd_table.

(** The index of the first element that satisfies a test. *)
Fixpoint find_index {A} (p : A -> bool) (l : list A) (i : nat) : option nat :=
  match l with
  | [] => None
  | x :: l => if p x then Some i else find_index p l (S i)
  end.

Definition slash : Z := 47.

Section Operations.
Context {F : Type} `{VnodeFs F}.
Implicit Types (s : vfs F).

Definition set_fs (f : F) s : vfs F := Vfs (mount_table s) (fd_tables s) (root_vnode s) (initialized s) f.
Definition set_mounts (m : list MountEntry) s : vfs F := Vfs m (fd_tables s) (root_vnode s) (initialized s) (node_fs s).
Definition set_root_vnode (r : Z) s : vfs F := Vfs (mount_table s) (fd_tables s) r (initialized s) (node_fs s).
Definition set_fd (cur : Z) (fd : nat) (d : FileDescriptor) s : vfs F :=
  Vfs (mount_table s) (aset (fd_tables s) cur (<[fd := d]> (aget (fd_tables s) cur))) (root_vnode s) (initialized s) (node_fs s).

Definition find_free_fd (cur : Z) s : option nat := find_index (fun d => negb (fd_used d)) (aget (fd_tables s) cur) 0.
Definition find_mount_by_root (root : Z) s : option nat :=
  find_index (fun m => mount_used m && (mounted_root m =? root)) (mount_table s) 0.
Definition find_free_mount_entry s : option nat := find_index (fun m => negb (mount_used m)) (mount_table s) 0.
Definition find_mount_by_point (point : Z) s : option nat :=
  find_index (fun m => mount_used m && (mount_point m =? point)) (mount_table s) 0.

Definition resolve_mount (vnode : Z) s : Z :=
  match find_mount_by_point vnode s with
  | Some idx => match mount_table s !! idx with Some m => mounted_root m | None => vnode end
  | None => vnode
  end.

(** [while ( *p == '/') ++p;] *)
Fixpoint skip_slashes (p : str) : str :=
  match p with
  | c :: p' => if c =? slash then skip_slashes p' else p
  | [] => []
  end.

(** [while ( *p != '\0' && *p != '/') ++p;]: the component and what follows. *)
Fixpoint take_component (p : str) : str * str :=
  match p with
  | c :: p' => if c =? slash then ([], p) else let '(a, b) := take_component p' in (c :: a, b)
  | [] => ([], [])
  end.

(** The loop of [split_and_resolve]; every round consumes a component. *)
Fixpoint split_loop (fuel : nat) (current : Z) (p : str) s : option (Z * Z * vfs F) :=
  match fuel with
  | O => None
  | Datatypes.S fuel =>
      match p with
      | [] => Some (E_SUCCESS, current, s)
      | _ =>
          match skip_slashes p with
          | [] => Some (E_SUCCESS, current, s)
          | p =>
              let '(component, rest) := take_component p in
              if 255 <? Z.of_nat (length component) then Some (E_INVALID, 0, s)
              else
                t ← vn_type current (node_fs s);
                if negb (is_directory t) then Some (E_NOT_DIR, 0, s)
                else
                  '(err, next, f) ← op_lookup current component (node_fs s);
                  let s := set_fs f s in
                  if err <? 0 then Some (err, 0, s)
                  else split_loop fuel (resolve_mount next s) rest s
          end
      end
  end.

Definition split_and_resolve (base : Z) (path : str) s : option (Z * Z * vfs F) :=
  match path with
  | [] => Some (E_SUCCESS, base, s)
  | _ => split_loop (Datatypes.S (length path)) base path s
  end.

Definition init s : vfs F :=
  Vfs ((fun m => Build_MountEntry (mount_point m) (mounted_root m) false) <$> mount_table s)
    (aset (fd_tables s) kernel_fd_table
      ((fun d => Build_FileDescriptor (fd_vnode d) (fd_offset d) (fd_flags d) false) <$> aget (fd_tables s) kernel_fd_table))
    0 true (node_fs s).

(** [resolve] with a result pointer; the path may be null. *)
Definition resolve (base : Z) (path : option str) s : option (Z * Z * vfs F) :=
  if negb (initialized s) then Some (E_INVALID, 0, s)
  else
    match path with
    | None | Some [] => Some (E_SUCCESS, base, s)
    | Some ((c :: _) as path) =>
        if c =? slash then
          if root_vnode s =? 0 then Some (E_NOT_FOUND, 0, s)
          else
            match skip_slashes path with
            | [] => Some (E_SUCCESS, root_vnode s, s)
            | path => split_and_resolve (root_vnode s) path s
            end
        else split_and_resolve base path s
    end.

(** The index of the last slash of a path. *)
Fixpoint last_slash (p : str) (i : nat) (sep : option nat) : option nat :=
  match p with
  | [] => sep
  | c :: p => last_slash p (Datatypes.S i) (if c =? slash then Some i else sep)
  end.

(** The part of [mkdir] after the start of the walk is known. *)
Definition mkdir_at (start : Z) (path : str) s : option (Z * vfs F) :=
  '(err, parent, name, s) ←
    (match last_slash path 0 None with
     | None => Some (0, start, path, s)
     | Some plen =>
         if bool_decide (256 <= plen)%nat then Some (E_INVALID, 0, [], s)
         else
           '(err, parent, s) ← resolve start (Some (take plen path)) s;
           Some (err, parent, drop (Datatypes.S plen) path, s)
     end);
  if err <? 0 then Some (err, s)
  else
    t ← vn_type parent (node_fs s);
    if negb (is_directory t) then Some (E_NOT_DIR, s)
    else if negb (has_mkdir parent (node_fs s)) then Some (E_INVALID, s)
    else '(err, f) ← op_mkdir parent name (node_fs s); Some (err, set_fs f s).

Definition mkdir (base : Z) (path : option str) s : option (Z * vfs F) :=
  match path with
  | None => Some (E_INVALID, s)
  | Some path =>
      if negb (initialized s) || (base =? 0) then Some (E_INVALID, s)
      else
        match path with
        | c :: _ =>
            if c =? slash then
              if root_vnode s =? 0 then Some (E_NOT_FOUND, s)
              else match skip_slashes path with
                   | [] => Some (E_INVALID, s)
                   | path => mkdir_at (root_vnode s) path s
                   end
            else mkdir_at base path s
        | [] => mkdir_at base path s
        end
  end.

(** [target] is 0 for the root filesystem. *)
Definition mount (fs_ops : option (FilesystemOps F)) (target : Z) s : option (Z * Z * vfs F) :=
  match fs_ops with
  | None => Some (E_INVALID, 0, s)
  | Some ops =>
      if negb (initialized s) then Some (E_INVALID, 0, s)
      else
        '(err, new_root, f) ← fs_mount ops (node_fs s);
        let s := set_fs f s in
        if err <? 0 then Some (err, 0, s)
        else if new_root =? 0 then Some (E_IO, 0, s)
        else if target =? 0 then
          if negb (root_vnode s =? 0) then
            '(_, f) ← fs_unmount ops new_root (node_fs s);
            Some (E_EXISTS, 0, set_fs f s)
          else Some (E_SUCCESS, new_root, set_root_vnode new_root s)
        else
          match find_free_mount_entry s with
          | None =>
              '(_, f) ← fs_unmount ops new_root (node_fs s);
              Some (E_NO_SPACE, 0, set_fs f s)
          | Some idx =>
              f ← vn_set_mount_parent new_root target (node_fs s);
              let s := set_fs f s in
              Some (E_SUCCESS, new_root,
                    set_mounts (<[idx := Build_MountEntry target new_root true]> (mount_table s)) s)
          end
  end.

Definition unmount (mount_root : Z) s : option (Z * vfs F) :=
  if negb (initialized s) || (mount_root =? 0) then Some (E_INVALID, s)
  else
    match find_mount_by_root mount_root s with
    | None => Some (E_NOT_FOUND, s)
    | Some idx =>
        m ← mount_table s !! idx;
        let s := set_mounts (<[idx := Build_MountEntry (mount_point m) (mounted_root m) false]> (mount_table s)) s in
        Some (E_SUCCESS, if mount_root =? root_vnode s then set_root_vnode 0 s else s)
    end.

Definition set_root (new_root : Z) s : Z * vfs F :=
  if negb (initialized s) || (new_root =? 0) then (E_INVALID, s)
  else (E_SUCCESS, set_root_vnode new_root s).

(** The last step of [open]: a descriptor for the vnode. *)
Definition open_fd (cur vnode flags : Z) s : option (Z * Z * vfs F) :=
  match find_free_fd cur s with
  | None => Some (E_NO_SPACE, 0, s)
  | Some fd =>
      f ← vn_ref vnode (node_fs s);
      Some (E_SUCCESS, Z.of_nat fd, set_fd cur fd (Build_FileDescriptor vnode 0 flags true) (set_fs f s))
  end.

(** [open] with a result pointer.  The parent path is copied to a buffer of
    256 bytes without a check of its length: a longer one overflows it, which
    has no defined result. *)
Definition open (cur base : Z) (path : option str) (flags : Z) s : option (Z * Z * vfs F) :=
  if negb (initialized s) then Some (E_INVALID, 0, s)
  else
    match path with
    | None => Some (E_INVALID, 0, s)
    | Some path =>
        '(err, vnode, s) ← resolve base (Some path) s;
        if err <? 0 then
          if (err =? E_NOT_FOUND) && negb (Z.land flags O_CREAT =? 0) then
            '(err, parent, name, s) ←
              (match last_slash path 0 None with
               | None => Some (0, base, path, s)
               | Some plen =>
                   if bool_decide (256 <= plen)%nat then None
                   else
                     '(err, parent, s) ← resolve base (Some (take plen path)) s;
                     Some (err, parent, drop (Datatypes.S plen) path, s)
               end);
            if err <? 0 then Some (err, 0, s)
            else
              '(err, vnode, f) ← op_create parent name (node_fs s);
              let s := set_fs f s in
              if err <? 0 then Some (err, 0, s) else open_fd cur vnode flags s
          else Some (err, 0, s)
        else open_fd cur vnode flags s
    end.

(** ** Descriptors *)

(** [None] stands for [E_BAD_FD]. *)
Definition get_fd (cur fd : Z) s : option FileDescriptor :=
  if (fd <? 0) || (Z.of_nat CONFIG_VFS_MAX_FDS <=? fd) then None
  else d ← aget (fd_tables s) cur !! Z.to_nat fd; if fd_used d then Some d else None.

Definition set_offset (cur fd off : Z) (d : FileDescriptor) s : vfs F :=
  set_fd cur (Z.to_nat fd) (Build_FileDescriptor (fd_vnode d) off (fd_flags d) (fd_used d)) s.

Definition close (cur fd : Z) s : option (Z * vfs F) :=
  match get_fd cur fd s with
  | None => Some (E_BAD_FD, s)
  | Some d =>
      f ← vn_unref (fd_vnode d) (node_fs s);
      Some (E_SUCCESS, set_fd cur (Z.to_nat fd)
        (Build_FileDescriptor (fd_vnode d) (fd_offset d) (fd_flags d) false) (set_fs f s))
  end.

Definition read (cur fd : Z) (buf : bmem) (size : Z) s : option (Z * Z * bmem * vfs F) :=
  match get_fd cur fd s with
  | None => Some (E_BAD_FD, 0, buf, s)
  | Some d =>
      t ← vn_type (fd_vnode d) (node_fs s);
      if is_directory t then Some (E_IS_DIR, 0, buf, s)
      else if negb (has_read (fd_vnode d) (node_fs s)) then Some (E_INVALID, 0, buf, s)
      else
        '(err, nread, buf, f) ← op_read (fd_vnode d) (fd_offset d) buf size (node_fs s);
        let s := set_fs f s in
        Some (err, nread, buf, if err =? 0 then set_offset cur fd (fd_offset d +64 nread) d s else s)
  end.

Definition write (cur fd : Z) (buf : bmem) (size : Z) s : option (Z * Z * vfs F) :=
  match get_fd cur fd s with
  | None => Some (E_BAD_FD, 0, s)
  | Some d =>
      t ← vn_type (fd_vnode d) (node_fs s);
      if is_directory t then Some (E_IS_DIR, 0, s)
      else if negb (has_write (fd_vnode d) (node_fs s)) then Some (E_INVALID, 0, s)
      else
        '(err, nwritten, f) ← op_write (fd_vnode d) (fd_offset d) buf size (node_fs s);
        let s := set_fs f s in
        Some (err, nwritten, if err =? 0 then set_offset cur fd (fd_offset d +64 nwritten) d s else s)
  end.

(** [&f->offset] is the result pointer of the operation: it is written when
    the operation writes it. *)
Definition readdir (cur fd : Z) s : option (Z * Dirent * vfs F) :=
  match get_fd cur fd s with
  | None => Some (E_BAD_FD, Build_Dirent [] File, s)
  | Some d =>
      t ← vn_type (fd_vnode d) (node_fs s);
      if negb (is_directory t) then Some (E_NOT_DIR, Build_Dirent [] File, s)
      else if negb (has_readdir (fd_vnode d) (node_fs s)) then Some (E_INVALID, Build_Dirent [] File, s)
      else
        '(err, entry, off, f) ← op_readdir (fd_vnode d) (fd_offset d) (node_fs s);
        Some (err, entry, set_offset cur fd off d (set_fs f s))
  end.

Definition stat (cur fd : Z) s : option (Z * Stat * vfs F) :=
  match get_fd cur fd s with
  | None => Some (E_BAD_FD, Build_Stat File 0, s)
  | Some d =>
      if negb (has_stat (fd_vnode d) (node_fs s)) then Some (E_INVALID, Build_Stat File 0, s)
      else '(err, st, f) ← op_stat (fd_vnode d) (node_fs s); Some (err, st, set_fs f s)
  end.

(** [offset] is a signed 64-bit integer. *)
Definition seek (cur fd offset whence : Z) s : option (Z * Z * vfs F) :=
  match get_fd cur fd s with
  | None => Some (E_BAD_FD, 0, s)
  | Some d =>
      if whence =? 0 then
        let new_offset := wrap 64 offset in Some (E_SUCCESS, new_offset, set_offset cur fd new_offset d s)
      else if whence =? 1 then
        let new_offset := fd_offset d +64 wrap 64 offset in
        Some (E_SUCCESS, new_offset, set_offset cur fd new_offset d s)
      else
        '(err, st, f) ← op_stat (fd_vnode d) (node_fs s);
        let s := set_fs f s in
        if err <? 0 then Some (err, 0, s)
        else
          let new_offset := stat_size st +64 wrap 64 offset in
          Some (E_SUCCESS, new_offset, set_offset cur fd new_offset d s)
  end.

End Operations.

(** * Path resolution *)

(** The reference: a path is the list of its non-empty parts between slashes,
    and resolving it looks the parts up one after the other. *)
Fixpoint split_slash (p : str) : list str :=
  match p with
  | [] => [[]]
  | c :: p =>
      if c =? slash then [] :: split_slash p
      else match split_slash p with w :: ws => (c :: w) :: ws | [] => [[c]] end
  end.
Definition components (p : str) : list str := filter (fun w => w <> []) (split_slash p).

Lemma split_slash_cons p : exists w ws, split_slash p = w :: ws.
Proof. destruct p as [|c p]; cbn; [by eexists _, _|]. repeat case_match; by eexists _, _. Qed.

Lemma components_skip p : components (skip_slashes p) = components p.
Proof.
  induction p as [|c p IH]; [done|]. cbn [skip_slashes]. destruct (c =? slash) eqn:E; [|done].
  rewrite IH. unfold components. cbn [split_slash]. rewrite E. by rewrite filter_cons_False by (intros Hne; by apply Hne).
Qed.

Lemma skip_slashes_head p c q : skip_slashes p = c :: q -> (c =? slash) = false.
Proof. induction p as [|d p IH]; cbn; [done|]. destruct (d =? slash) eqn:E; [done|]. by intros [= <- _]. Qed.

Lemma skip_slashes_length p : (length (skip_slashes p) <= length p)%nat.
Proof. induction p as [|d p IH]; cbn; [done|]. destruct (d =? slash); cbn; lia. Qed.

Lemma take_component_split p :
  let '(w, rest) := take_component p in
  p = w ++ rest /\ exists v vs, split_slash p = (w ++ v) :: vs
    /\ match rest with
       | [] => v = [] /\ vs = []
       | c :: q => (c =? slash) = true /\ v = [] /\ vs = split_slash q
       end.
Proof.
  induction p as [|c p IH]; cbn [take_component split_slash].
  - split; [done|]. by exists [], [].
  - destruct (c =? slash) eqn:E.
    + split; [done|]. exists [], (split_slash p). done.
    + destruct (take_component p) as [w rest]. destruct IH as (-> & v & vs & Es & Hr).
      split; [done|]. exists v, vs. rewrite Es. by split.
Qed.

(** Taking off a component. *)
Lemma components_take c p :
  (c =? slash) = false ->
  let '(w, rest) := take_component (c :: p) in
  components (c :: p) = w :: components rest /\ (length rest < length (c :: p))%nat.
Proof.
  intros Hc. pose proof (take_component_split (c :: p)) as Hs. destruct (take_component (c :: p)) as [w rest] eqn:E.
  destruct Hs as (Ep & v & vs & Es & Hr).
  assert (w <> []) as Hw.
  { cbn [take_component] in E. rewrite Hc in E. destruct (take_component p). by injection E as <- _. }
  split.
  - unfold components. rewrite Es. destruct rest as [|d q].
    + destruct Hr as [-> ->]. rewrite app_nil_r, filter_cons_True by done. done.
    + destruct Hr as (Hd & -> & ->). rewrite app_nil_r, filter_cons_True by done. cbn [split_slash]. rewrite Hd.
      rewrite (filter_cons_False _ [] _); [done|]. intros Hne. by apply Hne.
  - rewrite Ep, length_app. destruct w; [done|]. cbn. lia.
Qed.

Section Resolution.
Context {F : Type} `{VnodeFs F}.
Implicit Types (s : vfs F).

(** Looking up the components of a path in turn, crossing mount points. *)
Fixpoint walk (ws : list str) (current : Z) s : option (Z * Z * vfs F) :=
  match ws with
  | [] => Some (E_SUCCESS, current, s)
  | w :: ws =>
      if 255 <? Z.of_nat (length w) then Some (E_INVALID, 0, s)
      else
        t ← vn_type current (node_fs s);
        if negb (is_directory t) then Some (E_NOT_DIR, 0, s)
        else
          '(err, next, f) ← op_lookup current w (node_fs s);
          if err <? 0 then Some (err, 0, set_fs f s)
          else walk ws (resolve_mount next (set_fs f s)) (set_fs f s)
  end.

Lemma split_loop_walk fuel : forall p current s,
  (length p < fuel)%nat -> split_loop fuel current p s = walk (components p) current s.
Proof.
  induction fuel as [|fuel IH]; intros p current s Hf; [lia|]. cbn [split_loop].
  destruct p as [|c0 p0]; [done|]. rewrite <- components_skip.
  pose proof (skip_slashes_length (c0 :: p0)) as Hl. pose proof (skip_slashes_head (c0 :: p0)) as Hh.
  destruct (skip_slashes (c0 :: p0)) as [|c p]; [done|]. specialize (Hh c p eq_refl).
  pose proof (components_take c p Hh) as Ht. destruct (take_component (c :: p)) as [w rest].
  destruct Ht as [-> Hlen]. cbn [walk]. destruct (255 <? Z.of_nat (length w)); [done|].
  destruct (vn_type current (node_fs s)) as [t|]; [|done]. cbn [mbind option_bind]. destruct (is_directory t); [|done].
  cbn [negb]. destruct (op_lookup current w (node_fs s)) as [[[err next] f]|]; [|done]. cbn [mbind option_bind].
  destruct (err <? 0); [done|]. apply IH. cbn [length] in *. lia.
Qed.

(** Resolving a path always ends, and it does what looking up the path's
    components one by one does: from the root for an absolute path, from the
    base for a relative one; repeated and trailing slashes do not matter. *)
Theorem resolve_components base path s :
  initialized s = true ->
  resolve base (Some path) s =
    match path with
    | c :: _ => if c =? slash
                then if root_vnode s =? 0 then Some (E_NOT_FOUND, 0, s) else walk (components path) (root_vnode s) s
                else walk (components path) base s
    | [] => walk (components path) base s
    end.
Proof.
  intros Hi. unfold resolve. rewrite Hi. cbn [negb]. destruct path as [|c path]; [done|].
  assert (forall b q, split_and_resolve b q s = walk (components q) b s) as Hs.
  { intros b [|d q]; [done|]. apply split_loop_walk. cbn [length]. lia. }
  destruct (c =? slash) eqn:E; [|apply Hs]. destruct (root_vnode s =? 0); [done|].
  rewrite <- components_skip. destruct (skip_slashes (c :: path)) as [|d q]; [done|]. apply Hs.
Qed.

End Resolution.

(** * Descriptors *)

Lemma find_index_spec {A} (p : A -> bool) l : forall i,
  match find_index p l i with
  | Some k => exists j x, k = (i + j)%nat /\ l !! j = Some x /\ p x = true
      /\ forall j' y, (j' < j)%nat -> l !! j' = Some y -> p y = false
  | None => forall j y, l !! j = Some y -> p y = false
  end.
Proof.
  induction l as [|x l IH]; intros i; cbn [find_index]; [by intros j y; rewrite lookup_nil|].
  destruct (p x) eqn:E.
  - exists 0%nat, x. split_and!; [lia|done|done|lia].
  - specialize (IH (S i)). destruct (find_index p l (S i)) as [k|].
    + destruct IH as (j & y & -> & Hj & Hy & Hmin). exists (S j), y. split_and!; [lia|done|done|].
      intros [|j'] z Hlt; cbn; [congruence|]. intros Hz. apply (Hmin j'); [lia|done].
    + intros [|j] y; cbn; [congruence|apply IH].
Qed.

Section Descriptors.
Context {F : Type} `{VnodeFs F}.
Implicit Types (s : vfs F).

(** The calls on descriptors. *)
Inductive fd_op :=
| OClose (fd : Z) | ORead (fd : Z) (buf : bmem) (size : Z) | OWrite (fd : Z) (buf : bmem) (size : Z)
| OReaddir (fd : Z) | OStat (fd : Z) | OSeek (fd offset whence : Z).

Definition op_fd (op : fd_op) : Z :=
  match op with
  | OClose fd | ORead fd _ _ | OWrite fd _ _ | OReaddir fd | OStat fd | OSeek fd _ _ => fd
  end.

(** The error code and the state of a call by the owner of table [cur]. *)
Definition run_fd_op (cur : Z) (op : fd_op) s : option (Z * vfs F) :=
  match op with
  | OClose fd => close cur fd s
  | ORead fd buf size => (fun r => (r.1.1.1, r.2)) <$> read cur fd buf size s
  | OWrite fd buf size => (fun r => (r.1.1, r.2)) <$> write cur fd buf size s
  | OReaddir fd => (fun r => (r.1.1, r.2)) <$> readdir cur fd s
  | OStat fd => (fun r => (r.1.1, r.2)) <$> stat cur fd s
  | OSeek fd offset whence => (fun r => (r.1.1, r.2)) <$> seek cur fd offset whence s
  end.

(** Every call on a descriptor that is out of range or not open returns
    [E_BAD_FD] and changes nothing. *)
Theorem bad_fd_refused cur op s :
  get_fd cur (op_fd op) s = None -> run_fd_op cur op s = Some (E_BAD_FD, s).
Proof.
  destruct op; cbn [op_fd run_fd_op]; intros Hb; unfold close, read, write, readdir, stat, seek; by rewrite Hb.
Qed.

Lemma get_fd_Some cur fd s d :
  get_fd cur fd s = Some d ->
  0 <= fd < Z.of_nat CONFIG_VFS_MAX_FDS /\ aget (fd_tables s) cur !! Z.to_nat fd = Some d /\ fd_used d = true.
Proof.
  unfold get_fd. destruct ((fd <? 0) || (Z.of_nat CONFIG_VFS_MAX_FDS <=? fd)) eqn:E; [done|].
  apply orb_false_iff in E as [E1 E2]. bool_to_prop.
  destruct (aget (fd_tables s) cur !! Z.to_nat fd) as [d'|]; [|done]. cbn. destruct (fd_used d') eqn:Hu; [|done].
  intros [= ->]. split_and!; [lia|lia|done|done].
Qed.

(** The tables and the mounts after a call: at most the called descriptor
    changed. *)
Definition fd_local (cur fd : Z) s s' : Prop :=
  (forall t, t <> cur -> aget (fd_tables s') t = aget (fd_tables s) t)
  /\ (forall i, i <> Z.to_nat fd -> aget (fd_tables s') cur !! i = aget (fd_tables s) cur !! i)
  /\ mount_table s' = mount_table s /\ root_vnode s' = root_vnode s /\ initialized s' = initialized s.

Lemma fd_local_refl cur fd s (f : F) : fd_local cur fd s (set_fs f s).
Proof. by unfold fd_local. Qed.

Lemma fd_local_set cur fd s (f : F) d : fd_local cur fd s (set_fd cur (Z.to_nat fd) d (set_fs f s)).
Proof.
  unfold fd_local. cbn. split_and!; try done.
  - intros t Ht. by rewrite aget_aset_ne.
  - intros i Hi. rewrite aget_aset_eq. by apply list_lookup_insert_ne.
Qed.

Lemma set_fs_id s : set_fs (node_fs s) s = s.
Proof. by destruct s. Qed.

(** A call on a descriptor touches no other descriptor of the caller, no
    descriptor of another process, and no mount. *)
Theorem fd_isolation cur op s err s' :
  run_fd_op cur op s = Some (err, s') -> fd_local cur (op_fd op) s s'.
Proof.
  destruct (get_fd cur (op_fd op) s) as [d|] eqn:Hg.
  2:{ assert (run_fd_op cur op s = Some (E_BAD_FD, s)) as -> by
        (destruct op; cbn [op_fd run_fd_op] in *; unfold close, read, write, readdir, stat, seek; by rewrite Hg).
      intros [= _ <-]. rewrite <- (set_fs_id s) at 2. apply fd_local_refl. }
  assert (fd_local cur (op_fd op) s s) as Hs by (rewrite <- (set_fs_id s) at 2; apply fd_local_refl).
  assert (forall d', fd_local cur (op_fd op) s (set_fd cur (Z.to_nat (op_fd op)) d' s)) as Hset
    by (intros d'; rewrite <- (set_fs_id s) at 2; apply fd_local_set).
  destruct op; cbn [op_fd run_fd_op] in *; unfold close, read, write, readdir, stat, seek, set_offset; rewrite Hg.
  all: intros Hr; simplify_option_eq; repeat (case_match; simplify_option_eq).
  all: try done; try apply fd_local_refl; try apply fd_local_set.
Qed.

End Descriptors.

(** * Descriptors over the memory filesystem *)

Section OverRamfs.
Context {A : Type} `{KMem A}.
Implicit Types (s : vfs (ramfs A)).

Lemma get_set_offset cur fd off d s :
  get_fd cur fd s = Some d ->
  get_fd cur fd (set_offset cur fd off d s) = Some (Build_FileDescriptor (fd_vnode d) off (fd_flags d) (fd_used d)).
Proof.
  intros (Hr & Hl & Hu)%get_fd_Some. unfold get_fd, set_offset. cbn.
  replace ((fd <? 0) || (Z.of_nat CONFIG_VFS_MAX_FDS <=? fd)) with false by lia.
  rewrite aget_aset_eq, list_lookup_insert_eq by (by eapply lookup_lt_Some). cbn. by rewrite Hu.
Qed.

Lemma get_fd_set_fs cur fd (f : ramfs A) s : get_fd cur fd (set_fs f s) = get_fd cur fd s.
Proof. done. Qed.

(** Writing through a descriptor: the bytes land at its offset, and on success
    the offset moves behind them. *)
Lemma write_ramfs cur fd s d live frames v f buf size :
  get_fd cur fd s = Some d -> vnodes (node_fs s) !! fd_vnode d = Some v -> v_type v = File ->
  file_ok (node_fs s) live frames (private_data v) f -> 0 ∈ frames ->
  0 <= fd_offset d -> 0 <= size -> fd_offset d + size + 4095 < 2 ^ 64 -> 0 <= f_size f < 2 ^ 64 ->
  exists err n fs', write cur fd buf size s
      = Some (err, n, if err =? 0 then set_offset cur fd (fd_offset d + size) d (set_fs fs' s) else set_fs fs' s)
    /\ vnodes fs' = vnodes (node_fs s)
    /\ (err = E_NO_SPACE
        \/ (err = 0 /\ n = size /\ exists f', files fs' !! private_data v = Some f'
              /\ f_size f' = Z.max (f_size f) (fd_offset d + size)
              /\ forall x, 0 <= x < size -> file_byte f' (fmem fs') (fd_offset d + x) = Some (aget buf x))).
Proof.
  intros Hg Hv Hty Hok H0f Ho Hs Hov Hsz. unfold write. rewrite Hg. cbn [vn_type op_write has_write ramfs_vnode_fs].
  rewrite Hv. cbn [fmap option_fmap option_map mbind option_bind]. rewrite Hty. cbn [is_directory negb].
  destruct (ramfs_write_cases (node_fs s) live frames (fd_vnode d) v (private_data v) f (fd_offset d) size buf Hv eq_refl Hok H0f Ho Hs Hov)
    as (err & n & fs' & live' & frames' & f' & -> & Hok' & Hof & _ & Hres).
  cbn [mbind option_bind]. exists err, n, fs'. split_and!; [|apply Hof|].
  - destruct Hres as [(-> & -> & _)|(-> & _)]; [|done]. cbn [Z.eqb]. by rewrite wrap_small by lia.
  - destruct Hres as [(-> & -> & Esz & Hnew)|(-> & _)]; [right|by left]. split_and!; [done|done|].
    exists f'. split_and!; [apply Hok'|done|done].
Qed.

(** C4. What is written through a descriptor is read back through it after seeking
    back by the number of bytes written: [write] reports every byte, [seek]
    returns the old offset, and [read] fills the buffer with the same bytes and
    leaves the offset behind them. *)
Theorem fd_write_read cur fd s d live frames v f buf size :
  get_fd cur fd s = Some d -> vnodes (node_fs s) !! fd_vnode d = Some v -> v_type v = File ->
  file_ok (node_fs s) live frames (private_data v) f -> 0 ∈ frames ->
  0 <= fd_offset d -> 0 <= size < 2 ^ 63 -> fd_offset d + size + 4095 < 2 ^ 64 -> 0 <= f_size f < 2 ^ 64 ->
  exists err n s1, write cur fd buf size s = Some (err, n, s1)
    /\ (err = E_NO_SPACE
        \/ (err = 0 /\ n = size
            /\ exists s2, seek cur fd (- size) 1 s1 = Some (0, fd_offset d, s2)
            /\ forall buf0, exists buf' s3, read cur fd buf0 size s2 = Some (0, size, buf', s3)
                 /\ (forall x, 0 <= x < size -> aget buf' x = aget buf x)
                 /\ get_fd cur fd s3
                    = Some (Build_FileDescriptor (fd_vnode d) (fd_offset d + size) (fd_flags d) (fd_used d)))).
Proof.
  intros Hg Hv Hty Hok H0f Ho Hs Hov Hsz.
  destruct (write_ramfs cur fd s d live frames v f buf size) as (err & n & fs' & -> & Evn & Hres); try done; [lia|].
  eexists err, n, _. split; [reflexivity|]. destruct Hres as [->|(-> & -> & f' & Hf' & Esz & Hnew)]; [by left|right].
  split_and!; [done|done|]. cbn [Z.eqb]. set (d1 := Build_FileDescriptor (fd_vnode d) (fd_offset d + size) (fd_flags d) (fd_used d)).
  set (s1 := set_offset cur fd (fd_offset d + size) d (set_fs fs' s)).
  assert (get_fd cur fd s1 = Some d1) as Hg1 by (by apply get_set_offset).
  unfold seek. rewrite Hg1. cbn [d1 fd_offset]. change (1 =? 0) with false. change (1 =? 1) with true. cbn iota.
  assert (fd_offset d + size +64 wrap 64 (- size) = fd_offset d) as ->.
  { unfold wrap. rewrite Zplus_mod_idemp_r. rewrite Z.mod_small; lia. }
  eexists. split; [reflexivity|]. intros buf0. set (s2 := set_offset cur fd (fd_offset d) d1 s1).
  pose proof (get_set_offset cur fd (fd_offset d) d1 s1 Hg1) as Hg2. fold s2 in Hg2. cbn [d1 fd_vnode fd_flags fd_used] in Hg2.
  unfold read. rewrite Hg2. cbn [vn_type op_read has_read ramfs_vnode_fs fd_vnode fd_offset].
  change (node_fs s2) with fs'. rewrite Evn, Hv. cbn [fmap option_fmap option_map mbind option_bind]. rewrite Hty. cbn [is_directory negb].
  destruct (ramfs_read_cases fs' (fd_vnode d) v f' (fd_offset d) size buf0) as (buf' & -> & Hb);
    [by rewrite Evn|done|done|lia|lia|].
  cbn [mbind option_bind Z.eqb]. replace (Z.max 0 (Z.min size (f_size f' - fd_offset d))) with size in * by lia.
  exists buf'. eexists. split_and!; [reflexivity| |].
  - intros x Hx. rewrite Hb. replace ((0 <=? x) && (x <? size)) with true by lia. by rewrite Hnew.
  - rewrite wrap_small by lia.
    rewrite (get_set_offset cur fd _ (Build_FileDescriptor (fd_vnode d) (fd_offset d) (fd_flags d) (fd_used d))); [done|].
    by rewrite get_fd_set_fs.
Qed.

(** Opening an existing path gives the lowest free descriptor of the caller,
    at offset 0, and counts one more reference on the vnode; without a free
    descriptor it fails with [E_NO_SPACE]. *)
Theorem open_lowest_fd cur base path flags s vnode v :
  initialized s = true -> resolve base (Some path) s = Some (E_SUCCESS, vnode, s) ->
  vnode <> 0 -> vnodes (node_fs s) !! vnode = Some v ->
  exists err fd s', open cur base (Some path) flags s = Some (err, fd, s')
    /\ ((err = E_NO_SPACE /\ s' = s /\ forall i d, aget (fd_tables s) cur !! i = Some d -> fd_used d = true)
        \/ (err = 0 /\ exists i d0, fd = Z.of_nat i /\ aget (fd_tables s) cur !! i = Some d0 /\ fd_used d0 = false
            /\ (forall j d, (j < i)%nat -> aget (fd_tables s) cur !! j = Some d -> fd_used d = true)
            /\ aget (fd_tables s') cur !! i = Some (Build_FileDescriptor vnode 0 flags true)
            /\ vnodes (node_fs s') !! vnode
               = Some (Build_Vnode (v_type v) (v_ops v) (private_data v) (ref_count v +64 1) (mount_parent v)))).
Proof.
  intros Hi Hr Hv0 Hv. unfold open. rewrite Hi, Hr. cbn [negb mbind option_bind Z.ltb E_SUCCESS].
  change (E_SUCCESS <? 0) with false. cbn iota. unfold open_fd, find_free_fd.
  pose proof (find_index_spec (fun d => negb (fd_used d)) (aget (fd_tables s) cur) 0) as Hf.
  destruct (find_index _ _ 0) as [k|].
  - destruct Hf as (j & d & -> & Hj & Hfree & Hmin). cbn [vn_ref ramfs_vnode_fs]. unfold vnode_ref.
    replace (vnode =? 0) with false by lia. rewrite Hv. cbn [mbind option_bind].
    eexists _, _, _. split; [reflexivity|]. right. split; [done|]. exists j, d. split_and!; [lia|done|by apply negb_true_iff| | |].
    + intros j' d' Hlt Hd'. specialize (Hmin j' d' Hlt Hd'). by apply negb_false_iff.
    + cbn. rewrite aget_aset_eq. apply list_lookup_insert_eq. by eapply lookup_lt_Some.
    + cbn. apply lookup_insert_eq.
  - eexists _, _, _. split; [reflexivity|]. left. split_and!; [done|done|]. intros i d Hd.
    specialize (Hf i d Hd). by apply negb_false_iff.
Qed.

(** A component without a slash is a path of one component. *)
Lemma components_one name :
  name <> [] -> Forall (fun c => (c =? slash) = false) name -> components (slash :: name) = [name].
Proof.
  intros Hne Hns. unfold components. cbn [split_slash]. change (slash =? slash) with true. cbn iota.
  rewrite filter_cons_False by (intros Hx; by apply Hx).
  assert (split_slash name = [name]) as ->; [|by rewrite filter_cons_True].
  clear Hne. induction Hns as [|c name Hc Hns IH]; [done|]. cbn [split_slash]. by rewrite Hc, IH.
Qed.

Lemma last_slash_none name : forall i sep,
  Forall (fun c => (c =? slash) = false) name -> last_slash name i sep = sep.
Proof.
  induction name as [|c name IH]; intros i sep Hns; [done|]. inversion Hns as [|? ? Hc Hns']; subst.
  cbn [last_slash]. by rewrite Hc, IH.
Qed.

(** Opening "/name" with [O_CREAT] when the root directory has no such entry:
    the path before the slash is empty, so the file is created in [base] and
    not in the root directory; the new descriptor is whatever [create] on the
    base gives. *)
Theorem open_create_in_base cur base name flags s rv rd :
  initialized s = true -> root_vnode s <> 0 ->
  vnodes (node_fs s) !! root_vnode s = Some rv -> v_type rv = Directory ->
  dirs (node_fs s) !! private_data rv = Some rd -> dir_map rd !! name = None ->
  name <> [] -> Forall (fun c => (c =? slash) = false) name -> (length name <= 255)%nat ->
  Z.land flags O_CREAT <> 0 ->
  open cur base (Some (slash :: name)) flags s =
    ('(err, vnode, f) ← ramfs_create base name (node_fs s);
     if err <? 0 then Some (err, 0, set_fs f s) else open_fd cur vnode flags (set_fs f s)).
Proof.
  intros Hi Hr Hrv Hty Hrd Hname Hne Hns Hlen Hfl. unfold open. rewrite Hi. cbn [negb].
  assert (resolve base (Some (slash :: name)) s = Some (E_NOT_FOUND, 0, s)) as ->.
  { unfold resolve. rewrite Hi. cbn [negb]. change (slash =? slash) with true. cbn iota.
    replace (root_vnode s =? 0) with false by lia. cbn [skip_slashes]. change (slash =? slash) with true. cbn iota.
    assert (skip_slashes name = name) as -> by (destruct Hns as [|c name Hc Hns]; cbn; [done|by rewrite Hc]).
    destruct name as [|c name]; [done|]. unfold split_and_resolve. rewrite split_loop_walk by (cbn; lia).
    rewrite <- components_skip. pose proof (components_one (c :: name) Hne Hns) as Hc. rewrite <- components_skip in Hc.
    cbn [skip_slashes] in Hc. change (slash =? slash) with true in Hc. cbn iota in Hc. cbn [skip_slashes] in Hc |- *. rewrite Hc.
    cbn [walk]. replace (255 <? Z.of_nat (length (c :: name))) with false by lia. cbn [vn_type op_lookup ramfs_vnode_fs].
    rewrite Hrv. cbn [fmap option_fmap option_map mbind option_bind]. rewrite Hty. cbn [is_directory negb].
    rewrite (ramfs_lookup_map _ _ _ _ _ Hrv Hrd), Hname. cbn [mbind option_bind]. change (E_NOT_FOUND <? 0) with true. cbn iota.
    by rewrite set_fs_id. }
  cbn [mbind option_bind]. change (E_NOT_FOUND <? 0) with true. change (E_NOT_FOUND =? E_NOT_FOUND) with true.
  replace (Z.land flags O_CREAT =? 0) with false by lia. cbn [andb negb last_slash].
  change (slash =? slash) with true. cbn iota. rewrite last_slash_none by done.
  rewrite bool_decide_false by lia. cbn [take drop]. unfold resolve. rewrite Hi. cbn [negb mbind option_bind].
  change (E_SUCCESS <? 0) with false. cbn iota. cbn [op_create ramfs_vnode_fs]. done.
Qed.

End OverRamfs.

(** * Concrete instances *)

(** The filesystem of [Ramfs.demo_fs] at the root; descriptor 0 of process 1 is
    the file "f", and process 1 has 256 descriptors. *)
Definition no_fd : FileDescriptor := Build_FileDescriptor 0 0 0 false.
Definition demo_vfs : vfs (ramfs bump) :=
  Vfs (replicate CONFIG_VFS_MAX_MOUNTS (Build_MountEntry 0 0 false))
    (aset (afill []) 1 (Build_FileDescriptor 0x1040 0 O_RDWR true :: replicate 255 no_fd)) 0x1000 true demo_fs.

Lemma resolve_components_witness :
  components [47; 47; 102; 47] = [[102]]
  /\ resolve 0 (Some [47; 47; 102; 47]) demo_vfs = walk [[102]] 0x1000 demo_vfs
  /\ (fun r => (r.1.1, r.1.2)) <$> resolve 0 (Some [47; 47; 102; 47]) demo_vfs = Some (E_SUCCESS, 0x1040).
Proof.
  split; [vm_compute; reflexivity|]. split; [|vm_compute; reflexivity].
  exact (resolve_components 0 [47; 47; 102; 47] demo_vfs eq_refl).
Defined.

Lemma bad_fd_refused_witness :
  run_fd_op 1 (OSeek 256 0 0) demo_vfs = Some (E_BAD_FD, demo_vfs)
  /\ run_fd_op 1 (OClose 7) demo_vfs = Some (E_BAD_FD, demo_vfs).
Proof.
  split; [apply (bad_fd_refused 1 (OSeek 256 0 0))|apply (bad_fd_refused 1 (OClose 7))]; vm_compute; reflexivity.
Defined.

Lemma fd_isolation_witness : exists s', run_fd_op 1 (OSeek 0 5 0) demo_vfs = Some (0, s')
  /\ fd_local 1 0 demo_vfs s' /\ fd_offset <$> aget (fd_tables s') 1 !! 0%nat = Some 5.
Proof.
  eexists. split; [reflexivity|]. split; [apply (fd_isolation 1 (OSeek 0 5 0) demo_vfs 0); reflexivity|vm_compute; reflexivity].
Defined.

Lemma fd_write_read_witness : exists s1 s2 buf' s3, write 1 0 demo_data 2 demo_vfs = Some (0, 2, s1)
  /\ seek 1 0 (-2) 1 s1 = Some (0, 0, s2) /\ read 1 0 (afill 5) 2 s2 = Some (0, 2, buf', s3)
  /\ aget buf' 0 = 7 /\ aget buf' 1 = 9.
Proof.
  destruct (fd_write_read 1 0 demo_vfs (Build_FileDescriptor 0x1040 0 O_RDWR true) demo_live {[0]}
    (Build_Vnode File 1 0x1068 2 0) (Build_RamfsFile 0 [] 0) demo_data 2) as (err & n & s1 & E & Hcase);
    [vm_compute; reflexivity|vm_compute; reflexivity|reflexivity|apply demo_file_ok|set_solver|cbn; lia|lia|cbn; lia|cbn; lia|].
  assert ((fun r => r.1.1) <$> write 1 0 demo_data 2 demo_vfs = Some 0) as E0 by (vm_compute; reflexivity).
  rewrite E in E0. injection E0 as E0. destruct Hcase as [Hn|(-> & -> & s2 & Es & Hread)]; [rewrite E0 in Hn; discriminate Hn|].
  destruct (Hread (afill 5)) as (buf' & s3 & Er & Hb & _). exists s1, s2, buf', s3.
  split_and!; [exact E|exact Es|exact Er|rewrite (Hb 0) by lia; reflexivity|rewrite (Hb 1) by lia; reflexivity].
Defined.

Lemma open_lowest_fd_witness : exists s', open 1 0 (Some [47; 102]) O_RDONLY demo_vfs = Some (0, 1, s').
Proof.
  destruct (open_lowest_fd 1 0 [47; 102] O_RDONLY demo_vfs 0x1040 (Build_Vnode File 1 0x1068 2 0))
    as (err & fd & s' & E & _); [reflexivity|vm_compute; reflexivity|lia|vm_compute; reflexivity|].
  exists s'. assert ((fun r => (r.1.1, r.1.2)) <$> open 1 0 (Some [47; 102]) O_RDONLY demo_vfs = Some (0, 1)) as E0
    by (vm_compute; reflexivity).
  rewrite E in E0. injection E0 as -> ->. exact E.
Defined.

(** With the null base that [sys_open] passes, creating "/x" follows a null
    pointer. *)
Lemma open_create_in_base_witness : open 1 0 (Some [47; 120]) O_CREAT demo_vfs = None.
Proof.
  rewrite (open_create_in_base 1 0 [120] O_CREAT demo_vfs (Build_Vnode Directory 1 0x1028 1 0)
    (Build_RamfsDir 0x1080 [Build_RamfsEntry [102] 0x1040] 8));
    [vm_compute; reflexivity|reflexivity|cbn; lia|vm_compute; reflexivity|reflexivity|vm_compute; reflexivity|vm_compute; reflexivity
    |discriminate|repeat constructor|cbn; lia|vm_compute; discriminate].
Defined.
