(* ===== verification/Keyboard.v ===== *)
(** The keyboard and the line terminal: [ps2.cpp], [terminal.cpp].

    The controller is a device with two ports; what it answers is not the
    kernel's code, so it is a parameter.  The interrupt handler and the reader
    are run one after the other. *)

From S2P Require Import Prelude Bytes.

(** * The controller *)

(** A device behind I/O ports: reading a port may change it. *)
Record Device (D : Type) := Build_Device { inb : Z -> D -> Z * D; outb : Z -> Z -> D -> D }.
Arguments inb {D}.
Arguments outb {D}.

Section Controller.
Context {D : Type} (dev : Device D).

(** [for (i = 0; i < n; ++i) if (status bit as wanted) return;] *)
Fixpoint poll (n : nat) (stop : Z -> bool) (d : D) : D :=
  match n with
  | O => d
  | S n => let '(v, d) := inb dev 0x64 d in if stop v then d else poll n stop d
  end.

Definition poll_rounds : nat := Z.to_nat 100000.
Definition wait_write (d : D) : D := poll poll_rounds (fun v => Z.land v 0x02 =? 0) d.
Definition wait_read (d : D) : D := poll poll_rounds (fun v => negb (Z.land v 0x01 =? 0)) d.
Definition write_cmd (cmd : Z) (d : D) : D := outb dev 0x64 cmd (wait_write d).
Definition write_data (data : Z) (d : D) : D := outb dev 0x60 data (wait_write d).
Definition read_data (d : D) : Z * D := inb dev 0x60 (wait_read d).

Fixpoint flush_loop (n : nat) (d : D) : D :=
  match n with
  | O => d
  | S n =>
      let '(v, d) := inb dev 0x64 d in
      if negb (Z.land v 0x01 =? 0) then flush_loop n (inb dev 0x60 d).2 else d
  end.
Definition flush_data (d : D) : D := flush_loop 100 d.

(** The configuration byte that [init] writes back. *)
Definition keyboard_config (config : Z) : Z :=
  let config := Z.lor config 0x01 in
  let config := Z.lor config 0x04 in
  let config := Z.lor config 0x10 in
  let config := Z.lor config 0x20 in
  wrap 8 (Z.land config (Z.lnot 0x02)).

(** An answer that has to be [want] for [init] to go on. *)
Definition expect (want : Z) (d : D) (rest : D -> bool * D) : bool * D :=
  let '(v, d) := read_data d in if negb (v =? want) then (false, d) else rest d.

Definition ps2_init (d : D) : bool * D :=
  let d := write_cmd 0xAD d in
  let d := write_cmd 0xA7 d in
  let d := flush_data d in
  let d := write_cmd 0x20 d in
  let '(config, d) := read_data d in
  let config := keyboard_config config in
  let d := write_cmd 0x60 d in
  let d := write_data config d in
  let d := write_cmd 0xAE d in
  let d := write_cmd 0xAA d in
  expect 0x55 d (fun d =>
  let d := write_cmd 0xAB d in
  expect 0x00 d (fun d =>
  let d := write_data 0xFF d in
  expect 0xFA d (fun d =>
  expect 0xAA d (fun d =>
  let d := write_data 0xF4 d in
  expect 0xFA d (fun d => (true, d)))))).

End Controller.

(** * Scan codes *)

(** US layout; the entries from 0x40 on are 0. *)
Definition s1_normal : list Z :=
  [0; 27; 49; 50; 51; 52; 53; 54;
   55; 56; 57; 48; 45; 61; 8; 9;
   113; 119; 101; 114; 116; 121; 117; 105;
   111; 112; 91; 93; 10; 0; 97; 115;
   100; 102; 103; 104; 106; 107; 108; 59;
   39; 96; 0; 92; 122; 120; 99; 118;
   98; 110; 109; 44; 46; 47; 0; 42;
   0; 32; 0; 0; 0; 0; 0; 0] ++ replicate 64 0.

Definition s1_shift : list Z :=
  [0; 27; 33; 64; 35; 36; 37; 94;
   38; 42; 40; 41; 95; 43; 8; 9;
   81; 87; 69; 82; 84; 89; 85; 73;
   79; 80; 123; 125; 10; 0; 65; 83;
   68; 70; 71; 72; 74; 75; 76; 58;
   34; 126; 0; 124; 90; 88; 67; 86;
   66; 78; 77; 60; 62; 63; 0; 42;
   0; 32; 0; 0; 0; 0; 0; 0] ++ replicate 64 0.

(** * The ring of characters *)

Definition buf_size : Z := 256.

Record keyboard := Keyboard {
  g_shift_pressed : bool;
  g_extended : bool;
  g_buf : arr Z;
  g_head : Z;
  g_tail : Z;
}.

Definition set_modifiers (shift ext : bool) (s : keyboard) : keyboard := Keyboard shift ext (g_buf s) (g_head s) (g_tail s).

Definition buf_push (c : Z) (s : keyboard) : bool * keyboard :=
  let next := (g_head s + 1) mod buf_size in
  if next =? g_tail s then (false, s)
  else (true, Keyboard (g_shift_pressed s) (g_extended s) (aset (g_buf s) (g_head s) c) next (g_tail s)).

(** [sc]: the scan code read from the data port. *)
Definition handle_irq (sc : Z) (s : keyboard) : keyboard :=
  if sc =? 0xE0 then set_modifiers (g_shift_pressed s) true s
  else
    let extended := g_extended s in
    let s := set_modifiers (g_shift_pressed s) false s in
    let make := Z.land sc 0x80 =? 0 in
    let code := Z.land sc 0x7F in
    if (code =? 0x2A) || (code =? 0x36) then set_modifiers make (g_extended s) s
    else if negb make then s
    else if extended then s
    else if 128 <=? code then s
    else
      let ascii := default 0 ((if g_shift_pressed s then s1_shift else s1_normal) !! Z.to_nat code) in
      if ascii =? 0 then s else (buf_push ascii s).2.

Definition read_char (s : keyboard) : Z * keyboard :=
  if g_head s =? g_tail s then (0, s)
  else (aget (g_buf s) (g_tail s),
        Keyboard (g_shift_pressed s) (g_extended s) (g_buf s) (g_head s) ((g_tail s + 1) mod buf_size)).

Definition has_char (s : keyboard) : bool := negb (g_head s =? g_tail s).

(** * The terminal *)

Definition line_buf_size : Z := 256.

(** [echo]: what was written to the framebuffer console, last first. *)
Record terminal := Terminal { g_line : arr Z; g_pos : Z; g_line_ready : bool; echo : list Z }.

Definition terminal_init (t : terminal) : terminal := Terminal (aset (g_line t) 0 0) 0 false (echo t).

Definition put_char (c : Z) (t : terminal) : terminal :=
  if g_line_ready t then t
  else if c =? 8 then
    if 0 <? g_pos t then Terminal (g_line t) (g_pos t - 1) (g_line_ready t) (8 :: echo t) else t
  else if c =? 10 then Terminal (aset (g_line t) (g_pos t) 10) (g_pos t) true (10 :: echo t)
  else if (c <? 0x20) || (0x7E <? c) then t
  else if g_pos t <? line_buf_size - 1
  then Terminal (aset (g_line t) (g_pos t) c) (g_pos t + 1) (g_line_ready t) (c :: echo t)
  else t.

(** [for (i = 0; i < len; ++i) buf[i] = g_line[i]; buf[len] = 0] *)
Definition copy_line (t : terminal) (buf : bmem) (addr len : Z) : bmem :=
  aset (for_z 0 len (fun i b => aset b (addr + i) (aget (g_line t) i)) buf) (addr + len) 0.

(** The loop of [read_line]; the result is the length of the line when there
    is one. *)
Fixpoint read_loop (fuel : nat) (buf : bmem) (addr max : Z) (t : terminal) (s : keyboard)
  : option (option Z * bmem * terminal * keyboard) :=
  match fuel with
  | O => None
  | S fuel =>
      if negb (has_char s) then Some (None, buf, t, s)
      else
        let '(c, s) := read_char s in
        let t := put_char c t in
        if g_line_ready t then
          let len := if g_pos t <? max then g_pos t else max -64 1 in
          Some (Some len, copy_line t buf addr len, Terminal (g_line t) 0 false (echo t), s)
        else read_loop fuel buf addr max t s
  end.

(** The ring holds at most 255 characters. *)
Definition read_line (buf : bmem) (addr max : Z) (t : terminal) (s : keyboard)
  : option (option Z * bmem * terminal * keyboard) :=
  read_loop (Z.to_nat buf_size) buf addr max t s.

(** * The ring is a bounded queue *)

(** The characters from the tail to the head. *)
Definition ring_length (s : keyboard) : Z := (g_head s - g_tail s) mod buf_size.
Definition ring (s : keyboard) : list Z :=
  (fun i => aget (g_buf s) ((g_tail s + Z.of_nat i) mod buf_size)) <$> seq 0 (Z.to_nat (ring_length s)).

Definition ring_ok (s : keyboard) : Prop := 0 <= g_head s < buf_size /\ 0 <= g_tail s < buf_size.

Lemma ring_length_range s : 0 <= ring_length s < buf_size.
Proof. apply Z.mod_pos_bound. done. Qed.

Lemma length_ring s : Z.of_nat (length (ring s)) = ring_length s.
Proof. unfold ring. rewrite length_fmap, length_seq. pose proof (ring_length_range s). lia. Qed.

Lemma ring_length_cases s : ring_ok s ->
  (ring_length s = g_head s - g_tail s /\ g_tail s <= g_head s)
  \/ (ring_length s = g_head s - g_tail s + 256 /\ g_head s < g_tail s).
Proof. intros [Hh Ht]. unfold ring_length, buf_size in *. zlia. Qed.

Lemma next_slot i : 0 <= i < buf_size ->
  ((i + 1) mod buf_size = 0 /\ i = 255) \/ ((i + 1) mod buf_size = i + 1 /\ i < 255).
Proof. unfold buf_size. intros. zlia. Qed.

Lemma ring_push s c : ring_ok s ->
  ring_ok (buf_push c s).2
  /\ (if Z.of_nat (length (ring s)) <? buf_size - 1
      then (buf_push c s).1 = true /\ ring (buf_push c s).2 = ring s ++ [c]
      else buf_push c s = (false, s)).
Proof.
  intros Hok. pose proof Hok as [Hh Ht]. rewrite length_ring. unfold buf_push.
  pose proof (ring_length_cases s Hok) as Hlen. pose proof (next_slot (g_head s) Hh) as Hnext.
  set (next := (g_head s + 1) mod buf_size) in *. unfold buf_size in *.
  destruct (Z.eqb_spec next (g_tail s)) as [E|E]; cbn [fst snd].
  - split; [split; done|]. by replace (ring_length s <? 256 - 1) with false by lia.
  - set (s' := Keyboard _ _ _ _ _). assert (ring_ok s') as Hok' by (split; cbn; unfold buf_size; lia). split; [done|].
    replace (ring_length s <? 256 - 1) with true by lia. split; [done|].
    pose proof (ring_length_cases s' Hok') as Hlen'. cbn [s' g_head g_tail] in Hlen'.
    assert (ring_length s' = ring_length s + 1) as Hl' by lia.
    unfold ring. rewrite Hl'. replace (Z.to_nat (ring_length s + 1)) with (Z.to_nat (ring_length s) + 1)%nat by lia.
    rewrite seq_app, fmap_app. cbn [seq fmap list_fmap]. f_equal.
    + apply list_fmap_ext. intros i j Hj. apply lookup_seq in Hj as [-> Hj]. cbn [s' g_buf g_tail]. unfold buf_size.
      apply aget_aset_ne. zlia.
    + cbn [s' g_buf g_tail]. unfold buf_size.
      replace ((g_tail s + Z.of_nat (0 + Z.to_nat (ring_length s))) mod 256) with (g_head s) by zlia. by rewrite aget_aset_eq.
Qed.

Lemma ring_read s : ring_ok s ->
  ring_ok (read_char s).2 /\ has_char s = negb (bool_decide (ring s = []))
  /\ match ring s with [] => read_char s = (0, s) | c :: q => (read_char s).1 = c /\ ring (read_char s).2 = q end.
Proof.
  intros Hok. pose proof Hok as [Hh Ht]. unfold read_char, has_char. pose proof (ring_length_cases s Hok) as Hlen.
  destruct (Z.eqb_spec (g_head s) (g_tail s)) as [E|E].
  - assert (ring s = []) as ->; [|done]. unfold ring. by replace (ring_length s) with 0 by lia.
  - cbn [fst snd negb]. set (s' := Keyboard _ _ _ _ _).
    assert (ring_ok s') as Hok' by (split; cbn; [done|apply Z.mod_pos_bound; done]).
    pose proof (ring_length_cases s' Hok') as Hlen'. pose proof (next_slot (g_tail s) Ht). cbn [s' g_head g_tail] in Hlen'.
    assert (ring s = aget (g_buf s) (g_tail s) :: ring s') as ->; [|by split_and!].
    unfold ring, buf_size in *. replace (Z.to_nat (ring_length s)) with (Datatypes.S (Z.to_nat (ring_length s'))) by lia.
    cbn [seq fmap list_fmap]. f_equal; [f_equal; rewrite Z.mod_small; lia|].
    rewrite <- fmap_S_seq, <- list_fmap_compose. apply list_fmap_ext. intros i j Hj. apply lookup_seq in Hj as [-> _].
    cbn [s' g_buf g_tail compose]. f_equal. zlia.
Qed.

(** C31. The ring buffer of the keyboard implements a queue of at most 255
    characters: a push appends or, when the queue is full, drops the character
    and reports it; a read takes the oldest character, or returns 0 from an
    empty queue; [has_char] tells whether there is one. *)
Theorem ring_refines_queue s c : ring_ok s ->
  ring_ok (buf_push c s).2 /\ ring_ok (read_char s).2
  /\ has_char s = negb (bool_decide (ring s = []))
  /\ (if Z.of_nat (length (ring s)) <? 255
      then (buf_push c s).1 = true /\ ring (buf_push c s).2 = ring s ++ [c]
      else buf_push c s = (false, s))
  /\ match ring s with [] => read_char s = (0, s) | x :: q => (read_char s).1 = x /\ ring (read_char s).2 = q end.
Proof.
  intros Hok. destruct (ring_push s c Hok) as [H1 H2]. destruct (ring_read s Hok) as (H3 & H4 & H5). by split_and!.
Qed.

Lemma ring_refines_queue_witness :
  let s := Keyboard false false (afill 0) 255 0 in
  buf_push 97 s = (false, s) /\ length (ring s) = 255%nat.
Proof.
  destruct (ring_refines_queue (Keyboard false false (afill 0) 255 0) 97) as (_ & _ & _ & Hp & _); [done|].
  split; [exact Hp|vm_compute; reflexivity].
Defined.

(** * Lines *)

(** The reference: what a line holds after the keys [cs]: backspace takes back
    the last character, printable characters are appended while there is room,
    everything else is ignored. *)
Definition key (l : list Z) (c : Z) : list Z :=
  if c =? 8 then take (length l - 1) l
  else if (c <? 0x20) || (0x7E <? c) then l
  else if Z.of_nat (length l) <? line_buf_size - 1 then l ++ [c] else l.
Definition edit (l cs : list Z) : list Z := foldl key l cs.

(** The terminal holds the unfinished line [l]. *)
Record holds (t : terminal) (l : list Z) : Prop := {
  h_ready : g_line_ready t = false;
  h_pos : g_pos t = Z.of_nat (length l);
  h_room : Z.of_nat (length l) < line_buf_size;
  h_line : forall i c, l !! i = Some c -> aget (g_line t) (Z.of_nat i) = c;
}.

Lemma put_char_key t l c : holds t l -> c <> 10 -> holds (put_char c t) (key l c).
Proof.
  intros [Hr Hp Hroom Hl] Hc. unfold put_char, key. rewrite Hr. replace (c =? 10) with false by lia.
  destruct (Z.eqb_spec c 8) as [->|Hc8].
  - destruct (Z.ltb_spec 0 (g_pos t)) as [Hpos|Hpos].
    + split; cbn; [done|rewrite length_take; lia|rewrite length_take; unfold line_buf_size in *; lia|].
      intros i x [Hi _]%lookup_take_Some. by apply Hl.
    + destruct l; [by split|cbn in Hp; lia].
  - destruct ((c <? 32) || (126 <? c)); [by split|]. rewrite Hp.
    destruct (Z.of_nat (length l) <? line_buf_size - 1) eqn:E; [|by split]. bool_to_prop.
    split; cbn; [done|rewrite length_app; cbn; lia|rewrite length_app; cbn; lia|].
    intros i x. rewrite lookup_snoc_Some. intros [[Hi Hx]|[-> <-]]; [|apply aget_aset_eq].
    rewrite aget_aset_ne by lia. by apply Hl.
Qed.

Lemma put_char_newline t l : holds t l ->
  g_line_ready (put_char 10 t) = true /\ g_pos (put_char 10 t) = Z.of_nat (length l)
  /\ forall i c, l !! i = Some c -> aget (g_line (put_char 10 t)) (Z.of_nat i) = c.
Proof.
  intros [Hr Hp Hroom Hl]. unfold put_char. rewrite Hr. cbn. split_and!; [done|done|]. intros i c Hi.
  pose proof (lookup_lt_Some _ _ _ Hi). rewrite aget_aset_ne by lia. by apply Hl.
Qed.

Lemma copy_line_spec t buf addr len x : 0 <= len ->
  aget (copy_line t buf addr len) x =
    if x =? addr + len then 0 else if (addr <=? x) && (x <? addr + len) then aget (g_line t) (x - addr) else aget buf x.
Proof.
  intros Hlen. unfold copy_line. rewrite aget_aset. destruct (Z.eqb_spec x (addr + len)) as [->|Hne]; [by rewrite decide_True|].
  rewrite decide_False by congruence.
  apply (for_z_inv (fun n b => aget b x = if (addr <=? x) && (x <? addr + n) then aget (g_line t) (x - addr) else aget buf x)); [done| |].
  - by replace ((addr <=? x) && (x <? addr + 0)) with false by lia.
  - intros i b Hi IH. rewrite aget_aset. case_decide as E.
    + subst x. replace (addr + i - addr) with i by lia. by replace ((addr <=? addr + i) && (addr + i <? addr + (i + 1))) with true by lia.
    + rewrite IH. by replace (x <? addr + (i + 1)) with (x <? addr + i) by lia.
Qed.

(** The bytes of a finished line in the caller's buffer: at most [max - 1]
    characters and a terminating zero. *)
Definition line_in (line : list Z) (buf buf' : bmem) (addr max len : Z) : Prop :=
  len = Z.min (Z.of_nat (length line)) (max - 1)
  /\ (forall i c, line !! i = Some c -> Z.of_nat i < len -> aget buf' (addr + Z.of_nat i) = c)
  /\ aget buf' (addr + len) = 0
  /\ (forall x, x < addr \/ addr + len < x -> aget buf' x = aget buf x).

Lemma line_loop_spec buf addr max : 0 < max < 2 ^ 64 -> forall cs fuel t s l,
  ring s = cs -> ring_ok s -> holds t l -> (length cs < fuel)%nat ->
  (10 ∉ cs /\ exists t' s', read_loop fuel buf addr max t s = Some (None, buf, t', s')
     /\ holds t' (edit l cs) /\ ring s' = [] /\ ring_ok s')
  \/ (exists cs1 cs2 len buf' t' s', cs = cs1 ++ 10 :: cs2 /\ 10 ∉ cs1
      /\ read_loop fuel buf addr max t s = Some (Some len, buf', t', s')
      /\ line_in (edit l cs1) buf buf' addr max len /\ holds t' [] /\ ring s' = cs2 /\ ring_ok s').
Proof.
  intros Hmax. induction cs as [|c cs IH]; intros [|fuel] t s l Hr Hok Ht Hf; cbn [length] in Hf; try lia.
  - left. split; [by intros ?%elem_of_nil|]. cbn [read_loop]. destruct (ring_read s Hok) as (_ & -> & _). rewrite Hr. cbn.
    by exists t, s.
  - cbn [read_loop]. destruct (ring_read s Hok) as (Hok' & -> & Hread). rewrite Hr in Hread |- *. cbn [negb bool_decide].
    rewrite bool_decide_false by done. cbn [negb]. destruct (read_char s) as [c' s']. cbn [fst snd] in *. destruct Hread as [-> Hs'].
    destruct (Z.eq_dec c 10) as [->|Hc].
    + right. destruct (put_char_newline t l Ht) as (-> & -> & Hline).
      set (len := if Z.of_nat (length l) <? max then _ else _).
      assert (len = Z.min (Z.of_nat (length l)) (max - 1)) as Hlen.
      { subst len. rewrite wrap_small by lia. destruct (Z.ltb_spec (Z.of_nat (length l)) max); lia. }
      eexists [], cs, len, _, _, s'. split_and!; [done|by intros ?%elem_of_nil|done| |split; cbn; done|done|done].
      split_and!; [done| | |].
      * intros i x Hi Hlt. rewrite copy_line_spec by lia. replace (addr + Z.of_nat i =? addr + len) with false by lia.
        replace ((addr <=? addr + Z.of_nat i) && (addr + Z.of_nat i <? addr + len)) with true by lia.
        replace (addr + Z.of_nat i - addr) with (Z.of_nat i) by lia. by apply Hline.
      * rewrite copy_line_spec by lia. by rewrite Z.eqb_refl.
      * intros x Hx. rewrite copy_line_spec by lia. replace (x =? addr + len) with false by lia.
        by replace ((addr <=? x) && (x <? addr + len)) with false by lia.
    + pose proof (put_char_key t l c Ht Hc) as Ht'. rewrite (h_ready _ _ Ht').
      destruct (IH fuel (put_char c t) s' (key l c) Hs' Hok' Ht' ltac:(lia)) as [[Hn Hcase]|(cs1 & cs2 & len & buf' & t' & s2 & -> & Hn & Hcase)].
      * left. split; [by apply not_elem_of_cons|]. done.
      * right. exists (c :: cs1), cs2, len, buf', t', s2. split; [done|]. split; [by apply not_elem_of_cons|]. done.
Qed.

(** Reading a line: when the queued characters contain a newline, [read_line]
    returns the edited text before the first one, cut to the caller's buffer,
    followed by a zero, writes nothing else, and leaves the characters after
    the newline queued; otherwise it returns nothing, leaves the buffer alone
    and keeps the edited text for the next call. *)
Theorem read_line_edits buf addr max t s l :
  0 < max < 2 ^ 64 -> ring_ok s -> holds t l ->
  (10 ∉ ring s /\ exists t' s', read_line buf addr max t s = Some (None, buf, t', s')
     /\ holds t' (edit l (ring s)) /\ ring s' = [] /\ ring_ok s')
  \/ (exists cs1 cs2 len buf' t' s', ring s = cs1 ++ 10 :: cs2 /\ 10 ∉ cs1
      /\ read_line buf addr max t s = Some (Some len, buf', t', s')
      /\ line_in (edit l cs1) buf buf' addr max len /\ holds t' [] /\ ring s' = cs2 /\ ring_ok s').
Proof.
  intros Hmax Hok Ht. unfold read_line.
  apply (line_loop_spec buf addr max Hmax (ring s) (Z.to_nat buf_size) t s l eq_refl Hok Ht).
  pose proof (length_ring s). pose proof (ring_length_range s). unfold buf_size in *. lia.
Qed.

(** Typing "a", "b", backspace, "c", return gives "ac". *)
Definition demo_keys : keyboard := foldl (fun s sc => handle_irq sc s) (Keyboard false false (afill 0) 250 250) [0x1e; 0x9e; 0x30; 0x0e; 0x2e; 0x1c].

Lemma read_line_edits_witness : exists buf' t' s',
  read_line (afill 1) 100 16 (Terminal (afill 0) 0 false []) demo_keys = Some (Some 2, buf', t', s')
  /\ aget buf' 100 = 97 /\ aget buf' 101 = 99 /\ aget buf' 102 = 0.
Proof.
  destruct (read_line_edits (afill 1) 100 16 (Terminal (afill 0) 0 false []) demo_keys [])
    as [[Hn _]|(cs1 & cs2 & len & buf' & t' & s' & Hcs & Hn & E & Hl & _)]; [lia|vm_compute; split; split; congruence|split; cbn; done| |].
  - destruct Hn. assert (ring demo_keys = [97; 98; 8; 99; 10]) as -> by (vm_compute; reflexivity). set_solver.
  - assert ((fun r => r.1.1.1) <$> read_line (afill 1) 100 16 (Terminal (afill 0) 0 false []) demo_keys = Some (Some 2)) as E2
      by (vm_compute; reflexivity).
    rewrite E in E2. injection E2 as ->. exists buf', t', s'. split; [exact E|].
    assert (ring demo_keys = [97; 98; 8; 99; 10]) as Er by (vm_compute; reflexivity). rewrite Er in Hcs.
    assert (cs1 = [97; 98; 8; 99]) as ->.
    { repeat (destruct cs1 as [|? cs1]; cbn in Hcs; [discriminate Hcs || reflexivity|injection Hcs as <- Hcs]; try discriminate Hcs).
      all: try reflexivity. destruct cs1; discriminate Hcs. }
    destruct Hl as (_ & Hb & H0 & _). split_and!; [apply (Hb 0%nat); reflexivity|apply (Hb 1%nat); reflexivity|exact H0].
Defined.
