(* ===== verification/ProcTable.v ===== *)
(** The process table: identifiers, the list of all processes and the tree of
    children ([process.cpp], [process.hpp]).

    A process is named by the address of its [Process]; its link fields are
    the arrays of the table, indexed by that address, and the null pointer is
    0.  The file descriptor table that a [Process] embeds is the one the
    virtual filesystem keeps under the same address. *)

From S2P Require Import Prelude DList.

Definition max_pids : Z := 32768.
Definition pid_bitmap_words : Z := max_pids / 64.

Module ProcessState.
Inductive t := Alive | Zombie | Dead.

#[global] Instance t_eq_dec : EqDecision t.
Proof. solve_decision. Defined.
End ProcessState.

Record Process := Build_Process {
  pid : Z;
  p_state : ProcessState.t;
  exit_status : Z;
  pml4_phys : Z;
  parent : Z;
  thread_list : Z;
  wait_task : Z;
  brk : Z;
  brk_base : Z;
}.

(** sizeof(Process) and alignof(Process) *)
Definition sizeof_Process : Z := 6256.
Definition alignof_Process : Z := 8.

Definition zero_process : Process := Build_Process 0 ProcessState.Alive 0 0 0 0 0 0 0.

Record proctab := Proctab {
  procs : arr Process;
  pnext : arr Z;
  pprev : arr Z;
  child_head : arr Z;
  child_tail : arr Z;
  child_next : arr Z;
  child_prev : arr Z;
  pid_bitmap : arr Z;
  next_pid_hint : Z;
  process_list : Z;
  system_initialized : bool;
}.

Implicit Types (t : proctab) (p q : Z).

Definition set_procs (f : arr Process -> arr Process) t : proctab :=
  Proctab (f (procs t)) (pnext t) (pprev t) (child_head t) (child_tail t) (child_next t) (child_prev t)
    (pid_bitmap t) (next_pid_hint t) (process_list t) (system_initialized t).
Definition set_globals (nx pv : arr Z) (head : Z) t : proctab :=
  Proctab (procs t) nx pv (child_head t) (child_tail t) (child_next t) (child_prev t)
    (pid_bitmap t) (next_pid_hint t) head (system_initialized t).
Definition set_pids (bitmap : arr Z) (hint : Z) t : proctab :=
  Proctab (procs t) (pnext t) (pprev t) (child_head t) (child_tail t) (child_next t) (child_prev t)
    bitmap hint (process_list t) (system_initialized t).

Definition proc_at t p : Process := aget (procs t) p.
Definition update_proc p (f : Process -> Process) t : proctab :=
  set_procs (fun a => aset a p (f (aget a p))) t.

(** Assignments to single fields. *)
Definition with_status (st : ProcessState.t) (status : Z) (x : Process) : Process :=
  Build_Process (pid x) st status (pml4_phys x) (parent x) (thread_list x) (wait_task x) (brk x) (brk_base x).
Definition with_pstate (st : ProcessState.t) (x : Process) : Process := with_status st (exit_status x) x.
Definition with_pml4 (a : Z) (x : Process) : Process :=
  Build_Process (pid x) (p_state x) (exit_status x) a (parent x) (thread_list x) (wait_task x) (brk x) (brk_base x).
Definition with_parent (a : Z) (x : Process) : Process :=
  Build_Process (pid x) (p_state x) (exit_status x) (pml4_phys x) a (thread_list x) (wait_task x) (brk x) (brk_base x).
Definition with_thread (a : Z) (x : Process) : Process :=
  Build_Process (pid x) (p_state x) (exit_status x) (pml4_phys x) (parent x) a (wait_task x) (brk x) (brk_base x).
Definition with_wait (a : Z) (x : Process) : Process :=
  Build_Process (pid x) (p_state x) (exit_status x) (pml4_phys x) (parent x) (thread_list x) a (brk x) (brk_base x).
Definition with_brk (a b : Z) (x : Process) : Process :=
  Build_Process (pid x) (p_state x) (exit_status x) (pml4_phys x) (parent x) (thread_list x) (wait_task x) a b.

(** ** Children *)

(** The child list of a process, as the links of [DList.v]. *)
Definition children_of t p : dlist := DL (aget (child_head t) p) (aget (child_tail t) p) (child_next t) (child_prev t).
Definition put_children p (d : dlist) t : proctab :=
  Proctab (procs t) (pnext t) (pprev t) (aset (child_head t) p (head d)) (aset (child_tail t) p (tail d))
    (nxt d) (prv d) (pid_bitmap t) (next_pid_hint t) (process_list t) (system_initialized t).

Definition link_child (parent child : Z) t : proctab :=
  put_children parent (dl_push_back (children_of t parent) child) t.

Definition unlink_child (parent child : Z) t : proctab :=
  put_children parent (dl_remove (children_of t parent) child) t.

(** ** The list of all processes *)

Definition unlink_global proc t : proctab :=
  let '(hd, nx) :=
    if negb (aget (pprev t) proc =? 0)
    then (process_list t, aset (pnext t) (aget (pprev t) proc) (aget (pnext t) proc))
    else (aget (pnext t) proc, pnext t) in
  let pv :=
    if negb (aget nx proc =? 0) then aset (pprev t) (aget nx proc) (aget (pprev t) proc) else pprev t in
  set_globals (aset nx proc 0) (aset pv proc 0) hd t.

(** The end of [process_create]: the new process in front of the list. *)
Definition push_global proc t : proctab :=
  let nx := aset (pnext t) proc (process_list t) in
  let pv := aset (pprev t) proc 0 in
  let pv := if negb (process_list t =? 0) then aset pv (process_list t) proc else pv in
  set_globals nx pv proc t.

(** The loop of [find_process]; [None] when the list does not end within the
    fuel. *)
Fixpoint find_loop (fuel : nat) (id : Z) (cur : Z) t : option Z :=
  match fuel with
  | O => None
  | S fuel =>
      if cur =? 0 then Some 0
      else if pid (proc_at t cur) =? id then Some cur
      else find_loop fuel id (aget (pnext t) cur) t
  end.

(** A list of all processes has at most [max_pids] elements: they have
    different identifiers. *)
Definition list_fuel : nat := S (Z.to_nat max_pids).

Definition find_process (id : Z) t : option Z := find_loop list_fuel id (process_list t) t.
Definition find_init_process t : option Z := find_process 0 t.

(** The loop of [reparent_children]. *)
Fixpoint reparent_loop (fuel : nat) (dying new_parent child : Z) t : option proctab :=
  match fuel with
  | O => None
  | S fuel =>
      if child =? 0 then Some t
      else
        let next := aget (child_next t) child in
        let t := unlink_child dying child t in
        let t := update_proc child (with_parent new_parent) t in
        let t := link_child new_parent child t in
        reparent_loop fuel dying new_parent next t
  end.

Definition reparent_children (dying new_parent : Z) t : option proctab :=
  if (dying =? 0) || (new_parent =? 0) then Some t
  else reparent_loop list_fuel dying new_parent (aget (child_head t) dying) t.

(** ** Identifiers *)

Definition pid_used t (id : Z) : bool :=
  negb (Z.land (aget (pid_bitmap t) (id / 64)) (bit64 (id mod 64)) =? 0).

Definition pid_alloc t : Z * proctab :=
  if negb (system_initialized t) then (UINT64_MAX, t)
  else
    match first_z (Z.to_nat max_pids) 0
            (fun offset => negb (pid_used t ((next_pid_hint t +64 offset) mod max_pids))) with
    | Some offset =>
        let id := (next_pid_hint t +64 offset) mod max_pids in
        (id, set_pids (aset (pid_bitmap t) (id / 64) (Z.lor (aget (pid_bitmap t) (id / 64)) (bit64 (id mod 64))))
               ((id + 1) mod max_pids) t)
    | None => (UINT64_MAX, t)
    end.

Definition pid_free (id : Z) t : proctab :=
  if (max_pids <=? id) || negb (system_initialized t) then t
  else set_pids (aset (pid_bitmap t) (id / 64) (Z.land (aget (pid_bitmap t) (id / 64)) (lnot64 (bit64 (id mod 64)))))
         (next_pid_hint t) t.

Definition init_process_system t : proctab :=
  Proctab (procs t) (pnext t) (pprev t) (child_head t) (child_tail t) (child_next t) (child_prev t)
    (for_z 0 pid_bitmap_words (fun i b => aset b i 0) (pid_bitmap t)) 0 0 true.

(** * Identifiers are handed out once *)

(** The bitmap of an initialised table: 64-bit words and a hint in range. *)
Record pids_ok t : Prop := {
  po_init : system_initialized t = true;
  po_hint : 0 <= next_pid_hint t < max_pids;
}.

Lemma pid_used_testbit t id : 0 <= id -> pid_used t id = Z.testbit (aget (pid_bitmap t) (id / 64)) (id mod 64).
Proof. intros Hid. unfold pid_used. apply land_bit64_nonzero. apply Z.mod_pos_bound. lia. Qed.

Lemma pid_split i j : i / 64 = j / 64 -> i mod 64 = j mod 64 -> i = j.
Proof. intros H1 H2. rewrite (Z.div_mod i 64), (Z.div_mod j 64) by lia. lia. Qed.

Lemma pid_used_set t id hint j : 0 <= id -> 0 <= j ->
  pid_used (set_pids (aset (pid_bitmap t) (id / 64) (Z.lor (aget (pid_bitmap t) (id / 64)) (bit64 (id mod 64)))) hint t) j
  = pid_used t j || (j =? id).
Proof.
  intros Hi Hj. rewrite !pid_used_testbit by done. cbn [pid_bitmap set_pids].
  pose proof (Z.mod_pos_bound id 64). pose proof (Z.mod_pos_bound j 64). rewrite aget_aset. case_decide as Hd.
  - rewrite testbit_set by lia. rewrite Hd, orb_comm. f_equal. destruct (Z.eqb_spec j id) as [->|Hne]; [lia|].
    apply Z.eqb_neq. intros E. apply Hne. by apply pid_split.
  - replace (j =? id) with false; [by rewrite orb_false_r|]. symmetry. apply Z.eqb_neq. by intros ->.
Qed.

Lemma pid_used_clear t id hint j : 0 <= id -> 0 <= j ->
  pid_used (set_pids (aset (pid_bitmap t) (id / 64) (Z.land (aget (pid_bitmap t) (id / 64)) (lnot64 (bit64 (id mod 64))))) hint t) j
  = pid_used t j && negb (j =? id).
Proof.
  intros Hi Hj. rewrite !pid_used_testbit by done. cbn [pid_bitmap set_pids].
  pose proof (Z.mod_pos_bound id 64). pose proof (Z.mod_pos_bound j 64). rewrite aget_aset. case_decide as Hd.
  - rewrite testbit_clear by lia. rewrite Hd, andb_comm. f_equal. f_equal. destruct (Z.eqb_spec j id) as [->|Hne]; [lia|].
    apply Z.eqb_neq. intros E. apply Hne. by apply pid_split.
  - replace (j =? id) with false; [by rewrite andb_true_r|]. symmetry. apply Z.eqb_neq. by intros ->.
Qed.

Lemma pid_alloc_cases t : pids_ok t ->
  (exists id, (pid_alloc t).1 = id /\ 0 <= id < max_pids /\ pid_used t id = false
     /\ (pid_alloc t).2 = set_pids (aset (pid_bitmap t) (id / 64)
          (Z.lor (aget (pid_bitmap t) (id / 64)) (bit64 (id mod 64)))) ((id + 1) mod max_pids) t
     /\ pids_ok (pid_alloc t).2
     /\ (forall j, 0 <= j -> pid_used (pid_alloc t).2 j = pid_used t j || (j =? id))
     /\ (pid_used t (next_pid_hint t) = false -> id = next_pid_hint t))
  \/ (pid_alloc t = (UINT64_MAX, t) /\ forall id, 0 <= id < max_pids -> pid_used t id = true).
Proof.
  intros [Hi Hh]. unfold pid_alloc. rewrite Hi. cbn [negb].
  assert (forall o, 0 <= o < max_pids -> next_pid_hint t +64 o = next_pid_hint t + o) as Hw.
  { intros o Ho. apply wrap_small. unfold max_pids in *. lia. }
  match goal with |- context [first_z ?n 0 ?f] => destruct (first_z n 0 f) as [o|] eqn:E end.
  - left. apply first_z_Some in E as (Ho & Hf & Hfirst). cbn [negb] in Hf. apply negb_true_iff in Hf.
    set (id := (next_pid_hint t +64 o) mod max_pids) in *.
    assert (0 <= id < max_pids) as Hid by (apply Z.mod_pos_bound; done).
    exists id. cbn [fst snd]. split_and!; try done; [lia|lia| | |].
    + split; cbn; [done|]. apply Z.mod_pos_bound. done.
    + intros j Hj. apply pid_used_set; lia.
    + intros Hfree. destruct (Z.eq_dec o 0) as [->|Hne].
      * unfold id. rewrite Hw by done. rewrite Z.add_0_r. by apply Z.mod_small.
      * specialize (Hfirst 0 ltac:(lia)). cbv beta in Hfirst. rewrite Hw, Z.add_0_r, Z.mod_small, Hfree in Hfirst by done. done.
  - right. split; [done|]. intros id Hid. pose proof (first_z_None _ _ _ E) as Hn.
    set (o := (id - next_pid_hint t) mod max_pids).
    assert (0 <= o < max_pids) as Ho by (apply Z.mod_pos_bound; done).
    specialize (Hn o ltac:(lia)). cbn in Hn. apply negb_false_iff in Hn. rewrite Hw in Hn by done.
    subst o. rewrite Zplus_mod_idemp_r in Hn. replace (next_pid_hint t + (id - next_pid_hint t)) with id in Hn by lia.
    by rewrite Z.mod_small in Hn.
Qed.

Lemma pid_free_cases t id : pids_ok t -> 0 <= id < max_pids ->
  pids_ok (pid_free id t)
  /\ (forall j, 0 <= j -> pid_used (pid_free id t) j = pid_used t j && negb (j =? id)).
Proof.
  intros [Hi Hh] Hid. unfold pid_free. rewrite Hi. replace (max_pids <=? id) with false by lia. cbn [orb negb].
  split; [by split|]. intros j Hj. apply pid_used_clear; lia.
Qed.

(** [pid_alloc] returns an identifier below 32768 that was not in use and marks
    exactly that one, or fails, without a change, only when all are in use;
    [pid_free] makes the identifier available again. *)
Theorem pid_alloc_free t : pids_ok t ->
  let r := pid_alloc t in
  (r.1 <> UINT64_MAX ->
     0 <= r.1 < max_pids /\ pid_used t r.1 = false
     /\ (forall j, 0 <= j -> pid_used r.2 j = pid_used t j || (j =? r.1))
     /\ (forall j, 0 <= j -> pid_used (pid_free r.1 r.2) j = pid_used t j))
  /\ (r.1 = UINT64_MAX <-> forall id, 0 <= id < max_pids -> pid_used t id = true)
  /\ (r.1 = UINT64_MAX -> r.2 = t).
Proof.
  intros Hok r. subst r. destruct (pid_alloc_cases t Hok) as [(id & -> & Hid & Hf & _ & Hok' & Hu & _)|[-> Hall]]; cbn [fst snd].
  - assert (id <> UINT64_MAX) as Hne by (unfold max_pids, UINT64_MAX in *; lia). split_and!; [|split|done].
    + intros _. split_and!; try done; [lia|lia|]. intros j Hj. destruct (pid_free_cases _ id Hok' Hid) as [_ ->]; [|done].
      rewrite Hu by done. destruct (Z.eqb_spec j id) as [->|]; [by rewrite Hf|]. by rewrite orb_false_r, andb_true_r.
    + done.
    + intros Hall. rewrite (Hall id Hid) in Hf. done.
  - split_and!; [done|split; done|done].
Qed.

Definition empty_tab : proctab :=
  Proctab (afill zero_process) (afill 0) (afill 0) (afill 0) (afill 0) (afill 0) (afill 0) (afill 0) 0 0 false.

Lemma pid_alloc_free_witness :
  let t := init_process_system empty_tab in pid_used (pid_alloc t).2 0 = true /\ pid_used (pid_free 0 (pid_alloc t).2) 0 = false.
Proof.
  destruct (pid_alloc_free (init_process_system empty_tab)) as (Hs & _ & _); [split; [reflexivity|done]|].
  assert ((pid_alloc (init_process_system empty_tab)).1 = 0) as E by (vm_compute; reflexivity).
  rewrite E in Hs. destruct Hs as (_ & _ & H1 & H2); [discriminate|].
  cbv zeta. rewrite (H1 0), (H2 0) by lia. split; vm_compute; reflexivity.
Defined.
