(* ===== verification/ProcTree.v ===== *)
(** The shape of the process table: the list of all processes and the child
    lists form a consistent tree, and every operation on the links keeps it
    so.  The abstract view is the sequence of all processes and, for each,
    the sequence of its children. *)

From S2P Require Import Prelude DList ProcTable.

Implicit Types (t : proctab) (p q : Z) (ps : list Z) (K : gmap Z (list Z)).

(** Zeroing a new [Process] clears its link fields too. *)
Definition zero_struct p t : proctab :=
  Proctab (aset (procs t) p zero_process) (aset (pnext t) p 0) (aset (pprev t) p 0)
    (aset (child_head t) p 0) (aset (child_tail t) p 0) (aset (child_next t) p 0) (aset (child_prev t) p 0)
    (pid_bitmap t) (next_pid_hint t) (process_list t) (system_initialized t).

Lemma filter_all {A} (P : A -> Prop) `{forall x, Decision (P x)} (l : list A) :
  (forall x, x ∈ l -> P x) -> filter P l = l.
Proof.
  induction l as [|x l IH]; intros Hl; [done|]. rewrite filter_cons_True by (apply Hl; by apply elem_of_cons; left).
  f_equal. apply IH. intros y Hy. apply Hl. by apply elem_of_cons; right.
Qed.

(** * Child lists *)

Record forest t K : Prop := {
  fr_rep : forall p l, K !! p = Some l -> dl_rep (children_of t p) l;
  fr_disj : forall p q l l' x, K !! p = Some l -> K !! q = Some l' -> x ∈ l -> x ∈ l' -> p = q;
}.

Lemma dl_rep_ext d d' l :
  head d' = head d -> tail d' = tail d ->
  (forall x, x ∈ l -> aget (nxt d') x = aget (nxt d) x /\ aget (prv d') x = aget (prv d) x) ->
  dl_rep d l -> dl_rep d' l.
Proof. intros Hh Ht Hl []. split; [congruence|congruence|done|done|]. by eapply dseg_ext. Qed.

Lemma children_put_ne t p q d : p <> q ->
  children_of (put_children p d t) q = DL (aget (child_head t) q) (aget (child_tail t) q) (nxt d) (prv d).
Proof. intros. unfold children_of, put_children. cbn. by rewrite !aget_aset_ne. Qed.

Lemma children_put_eq t p d : children_of (put_children p d t) p = d.
Proof. unfold children_of, put_children. cbn. rewrite !aget_aset_eq. by destruct d. Qed.

(** Linking a process that is in no child list. *)
Lemma forest_link t K p l x :
  forest t K -> K !! p = Some l -> x <> 0 -> (forall q l', K !! q = Some l' -> x ∉ l') ->
  forest (link_child p x t) (<[p := l ++ [x]]> K).
Proof.
  intros [Hr Hd] Hp Hx0 Hx. unfold link_child. split.
  - intros q l'. rewrite lookup_insert. case_decide as E.
    + intros [= <-]. subst q. rewrite children_put_eq. apply dl_push_back_rep; [by apply Hr|done|by eapply Hx].
    + intros Hq. rewrite children_put_ne by done. eapply dl_rep_ext; [..|by apply Hr]; [done|done|]. cbn. intros y Hy.
      apply (dl_push_back_rep_frame (children_of t p) l); [by apply Hr| |].
      * intros ->. by eapply Hx.
      * intros Hyl. by apply E, (Hd p q l l' y).
  - intros q1 q2 l1 l2 y. rewrite !lookup_insert. do 2 case_decide; simplify_eq; intros E1 E2; simplify_eq; try done;
      rewrite ?elem_of_app, ?list_elem_of_singleton; naive_solver.
Qed.

Lemma forest_unlink t K p l k x :
  forest t K -> K !! p = Some (l ++ x :: k) ->
  forest (unlink_child p x t) (<[p := l ++ k]> K).
Proof.
  intros [Hr Hd] Hp. unfold unlink_child. split.
  - intros q l'. rewrite lookup_insert. case_decide as E.
    + intros [= <-]. subst q. rewrite children_put_eq. apply dl_remove_rep. by apply Hr.
    + intros Hq. rewrite children_put_ne by done. eapply dl_rep_ext; [..|by apply Hr]; [done|done|]. cbn. intros y Hy.
      apply (dl_remove_frame (children_of t p) l x k); [by apply Hr|]. intros Hyl. by apply E, (Hd p q (l ++ x :: k) l' y).
  - intros q1 q2 l1 l2 y. rewrite !lookup_insert.
    assert (forall z, z ∈ l ++ k -> z ∈ l ++ x :: k) as Hsub by set_solver.
    do 2 case_decide; simplify_eq; intros E1 E2; simplify_eq; try done; eauto.
Qed.

Lemma forest_nodup t K p l : forest t K -> K !! p = Some l -> NoDup l /\ 0 ∉ l.
Proof. intros [Hr _] Hp. destruct (Hr p l Hp). done. Qed.

(** * The whole table *)

(** [ps]: all processes in the order of the list; [K]: the children of each. *)
Record ptree t ps K : Prop := {
  tr_list : dl_rep (DL (process_list t) (last_or ps 0) (pnext t) (pprev t)) ps;
  tr_forest : forest t K;
  tr_dom : forall p, is_Some (K !! p) <-> p ∈ ps;
  tr_kids : forall p l q, K !! p = Some l -> q ∈ l <-> q ∈ ps /\ parent (proc_at t q) = p;
  tr_parent : forall q, q ∈ ps -> parent (proc_at t q) = 0 \/ parent (proc_at t q) ∈ ps;
}.

Lemma ptree_nonnull t ps K p : ptree t ps K -> p ∈ ps -> p <> 0.
Proof. intros Ht Hp ->. by destruct (tr_list _ _ _ Ht). Qed.

Lemma ptree_lookup t ps K p : ptree t ps K -> p ∈ ps -> exists l, K !! p = Some l.
Proof. intros Ht Hp. by apply (tr_dom _ _ _ Ht) in Hp as [l ?]; exists l. Qed.

(** Nothing but the parents and the links matters. *)
Lemma ptree_ext t t' ps K :
  process_list t' = process_list t -> pnext t' = pnext t -> pprev t' = pprev t ->
  child_head t' = child_head t -> child_tail t' = child_tail t -> child_next t' = child_next t -> child_prev t' = child_prev t ->
  (forall q, q ∈ ps -> parent (proc_at t' q) = parent (proc_at t q)) ->
  ptree t ps K -> ptree t' ps K.
Proof.
  intros E1 E2 E3 E4 E5 E6 E7 Hp [Hl [Hr Hd] Hdom Hk Hpar]. split.
  - by rewrite E1, E2, E3.
  - split; [|done]. intros p l. unfold children_of. rewrite E4, E5, E6, E7. apply Hr.
  - done.
  - intros p l q Hpl. rewrite (Hk p l q Hpl). split; intros [Hq ?]; (split; [done|]); by rewrite ?Hp in * by done.
  - intros q Hq. rewrite Hp by done. by apply Hpar.
Qed.

Lemma ptree_update t ps K p f :
  ptree t ps K -> parent (f (proc_at t p)) = parent (proc_at t p) -> ptree (update_proc p f t) ps K.
Proof.
  intros Ht Hf. apply (ptree_ext t); try done. intros q Hq. unfold proc_at, update_proc. cbn. rewrite aget_aset.
  case_decide; [|done]. by subst.
Qed.

(** ** Finding a process *)

Lemma find_loop_spec id t b l : forall fuel,
  dseg (pnext t) (pprev t) b l 0 -> 0 ∉ l -> (length l < fuel)%nat ->
  exists r, find_loop fuel id (hd_or l 0) t = Some r
    /\ ((r = 0 /\ forall p, p ∈ l -> pid (proc_at t p) <> id) \/ (r ∈ l /\ pid (proc_at t r) = id)).
Proof.
  revert b. induction l as [|x l IH]; intros b [|fuel] Hl H0 Hf; cbn [length] in Hf; try lia.
  - exists 0. split; [done|]. left. split; [done|]. by intros p ?%elem_of_nil.
  - apply not_elem_of_cons in H0 as [Hx0 H0]. destruct Hl as (_ & Hn & Hl). cbn [find_loop hd_or].
    replace (x =? 0) with false by lia. destruct (Z.eqb_spec (pid (proc_at t x)) id) as [E|E].
    + exists x. split; [done|]. right. split; [by apply elem_of_cons; left|done].
    + rewrite Hn. destruct (IH x fuel Hl H0 ltac:(lia)) as (r & -> & Hr). exists r. split; [done|].
      destruct Hr as [[-> Hr]|[Hr ?]]; [left|right]; (split; [|]); try done.
      * intros p [-> |Hp]%elem_of_cons; [done|by apply Hr].
      * by apply elem_of_cons; right.
Qed.

Lemma find_process_spec t ps K id :
  ptree t ps K -> (length ps <= Z.to_nat max_pids)%nat ->
  exists r, find_process id t = Some r
    /\ ((r = 0 /\ forall p, p ∈ ps -> pid (proc_at t p) <> id) \/ (r ∈ ps /\ pid (proc_at t r) = id)).
Proof.
  intros Ht Hlen. destruct (tr_list _ _ _ Ht) as [Hh _ _ H0 Hl]. cbn [head nxt prv] in *. unfold find_process. rewrite Hh.
  apply (find_loop_spec id t 0 ps list_fuel Hl H0). unfold list_fuel. lia.
Qed.

(** ** Moving children to another parent *)

Lemma reparent_loop_spec dying np : dying <> np -> np <> 0 -> forall cs fuel t ps K lnp,
  (length cs < fuel)%nat -> ptree t ps K -> K !! dying = Some cs -> K !! np = Some lnp -> np ∉ cs ->
  exists t', reparent_loop fuel dying np (hd_or cs 0) t = Some t'
    /\ ptree t' ps (<[np := lnp ++ cs]> (<[dying := []]> K))
    /\ pid_bitmap t' = pid_bitmap t /\ next_pid_hint t' = next_pid_hint t /\ system_initialized t' = system_initialized t
    /\ forall q, proc_at t' q = if decide (q ∈ cs) then with_parent np (proc_at t q) else proc_at t q.
Proof.
  intros Hne Hnp0. induction cs as [|c cs IH]; intros [|fuel] t ps K lnp Hf Ht Hdy Hnp Hnin; cbn [length] in Hf; try lia.
  { exists t. cbn [hd_or reparent_loop]. split_and!; try done.
    rewrite app_nil_r, (insert_id K dying) by done. by rewrite insert_id. }
  cbn [hd_or reparent_loop]. destruct (forest_nodup _ _ _ _ (tr_forest _ _ _ Ht) Hdy) as [Hnd H0].
  apply NoDup_cons in Hnd as [Hc Hnd]. apply not_elem_of_cons in H0 as [Hc0 H0]. replace (c =? 0) with false by lia.
  destruct (tr_forest _ _ _ Ht) as [Hr Hd]. pose proof (rep_links _ _ (Hr dying _ Hdy)) as Hl. cbn in Hl.
  destruct Hl as (_ & Hn & _). rewrite Hn.
  set (t1 := link_child np c (update_proc c (with_parent np) (unlink_child dying c t))).
  set (K1 := <[np := lnp ++ [c]]> (<[dying := cs]> K)).
  assert (forest t1 K1) as Hf1.
  { apply (forest_link _ (<[dying := cs]> K)); [| |done|].
    - destruct (forest_unlink t K dying [] cs c (tr_forest _ _ _ Ht) Hdy) as [Hr' Hd']. split; [|done].
      intros p l Hp. apply (Hr' p l Hp).
    - by rewrite lookup_insert_ne.
    - intros q l'. rewrite lookup_insert. case_decide as E; [by intros [= <-]|]. intros Hq Hcq.
      apply E. apply (Hd dying q (c :: cs) l' c); [done|done|by apply elem_of_cons; left|done]. }
  assert (forall q, proc_at t1 q = if decide (q = c) then with_parent np (proc_at t q) else proc_at t q) as Hproc.
  { intros q. unfold t1, link_child, update_proc, unlink_child, proc_at. cbn. rewrite aget_aset.
    repeat case_decide; congruence. }
  assert (parent (proc_at t c) = dying /\ c ∈ ps) as [Hcp Hcps].
  { destruct (proj1 (tr_kids _ _ _ Ht dying _ c Hdy)) as [? ?]; [by apply elem_of_cons; left|done]. }
  assert (ptree t1 ps K1) as Ht1.
  { split.
    - apply (tr_list _ _ _ Ht).
    - done.
    - intros p. unfold K1. rewrite !lookup_insert_is_Some. rewrite (tr_dom _ _ _ Ht p).
      assert (np ∈ ps /\ dying ∈ ps) as [? ?] by (split; apply (tr_dom _ _ _ Ht); eauto).
      split; [intros [->|[_ [->|[_ ?]]]]; done|]. intros Hp. destruct (decide (np = p)); [by left|right]. split; [done|].
      destruct (decide (dying = p)); [by left|by right].
    - intros p l q. unfold K1. rewrite !lookup_insert. rewrite Hproc. case_decide as E1; [|case_decide as E2].
      + intros [= <-]. subst p. rewrite elem_of_app, list_elem_of_singleton, (tr_kids _ _ _ Ht np lnp q Hnp).
        case_decide as E; cbn; [subst; naive_solver|]. naive_solver.
      + intros [= <-]. subst p. assert (q ∈ cs <-> q <> c /\ q ∈ c :: cs) as -> by (rewrite elem_of_cons; naive_solver).
        rewrite (tr_kids _ _ _ Ht dying _ q Hdy). case_decide as E; cbn; [subst; naive_solver|]. naive_solver.
      + intros Hp. rewrite (tr_kids _ _ _ Ht p l q Hp). case_decide as E; cbn; [|done]. subst q. rewrite Hcp. naive_solver.
    - intros q Hq. rewrite Hproc. case_decide as E; cbn; [|by apply (tr_parent _ _ _ Ht)].
      right. apply (tr_dom _ _ _ Ht). eauto. }
  destruct (IH fuel t1 ps K1 (lnp ++ [c]) ltac:(lia) Ht1) as (t' & E & Ht' & B1 & B2 & B3 & Hp').
  - unfold K1. rewrite lookup_insert_ne by done. apply lookup_insert_eq.
  - apply lookup_insert_eq.
  - set_solver.
  - exists t'. split_and!; try done.
    + replace (<[np:=lnp ++ c :: cs]> (<[dying:=[]]> K)) with (<[np:=(lnp ++ [c]) ++ cs]> (<[dying:=[]]> K1)); [done|].
      unfold K1. rewrite <- app_assoc. cbn [app]. apply map_eq. intros q. rewrite !lookup_insert. by repeat case_decide.
    + intros q. rewrite Hp', Hproc. destruct (decide (q = c)) as [->|Hqc].
      * destruct (decide (c ∈ cs)) as [|_]; [done|]. destruct (decide (c = c)) as [_|]; [|done].
        destruct (decide (c ∈ c :: cs)); [done|set_solver].
      * destruct (decide (q ∈ cs)), (decide (q ∈ c :: cs)); (done || set_solver).
Qed.

Lemma reparent_spec t ps K dying np cs lnp :
  ptree t ps K -> K !! dying = Some cs -> K !! np = Some lnp -> dying <> np -> np ∉ cs ->
  (length ps <= Z.to_nat max_pids)%nat ->
  exists t', reparent_children dying np t = Some t'
    /\ ptree t' ps (<[np := lnp ++ cs]> (<[dying := []]> K))
    /\ pid_bitmap t' = pid_bitmap t /\ next_pid_hint t' = next_pid_hint t /\ system_initialized t' = system_initialized t
    /\ forall q, proc_at t' q = if decide (q ∈ cs) then with_parent np (proc_at t q) else proc_at t q.
Proof.
  intros Ht Hdy Hnp Hne Hnin Hlen. unfold reparent_children.
  assert (dying <> 0 /\ np <> 0) as [? ?] by (split; eapply ptree_nonnull; eauto; eapply tr_dom; eauto).
  replace (dying =? 0) with false by lia. replace (np =? 0) with false by lia. cbn [orb].
  destruct (fr_rep _ _ (tr_forest _ _ _ Ht) dying cs Hdy) as [Hh _ Hnd _ _]. cbn in Hh. rewrite Hh.
  apply (reparent_loop_spec dying np); try done. unfold list_fuel.
  assert (length cs <= length ps)%nat; [|lia]. apply submseteq_length, NoDup_submseteq; [done|].
  intros q Hq. by apply (tr_kids _ _ _ Ht dying cs q Hdy) in Hq as [? _].
Qed.

(** ** Removing and adding a process *)

Lemma unlink_global_remove t p tl :
  let d := dl_remove (DL (process_list t) tl (pnext t) (pprev t)) p in
  unlink_global p t = set_globals (nxt d) (prv d) (head d) t.
Proof.
  unfold unlink_global, dl_remove. cbn [head nxt prv tail].
  destruct (aget (pprev t) p =? 0); cbn [negb]; (destruct (_ =? 0); cbn [negb]; done).
Qed.

Lemma dl_rep_tail d l tl : dl_rep d l -> tl = last_or l 0 -> dl_rep (DL (head d) tl (nxt d) (prv d)) l.
Proof. intros [] ->. by split. Qed.

(** Unlinking a process without children, first from its parent. *)
Definition unlink_process p t : proctab :=
  let t := if negb (parent (proc_at t p) =? 0) then unlink_child (parent (proc_at t p)) p t else t in
  unlink_global p t.

Lemma ptree_unlink t ps1 p ps2 K :
  ptree t (ps1 ++ p :: ps2) K -> K !! p = Some [] ->
  exists K', ptree (unlink_process p t) (ps1 ++ ps2) K'
    /\ (forall q, q <> p -> K' !! q = filter (fun x => x <> p) <$> K !! q)
    /\ procs (unlink_process p t) = procs t /\ pid_bitmap (unlink_process p t) = pid_bitmap t
    /\ next_pid_hint (unlink_process p t) = next_pid_hint t
    /\ system_initialized (unlink_process p t) = system_initialized t.
Proof.
  intros Ht Hp.
  assert (p ∈ ps1 ++ p :: ps2) as Hpin by set_solver.
  assert (p ∉ ps1 ++ ps2 /\ forall q, q ∈ ps1 ++ p :: ps2 -> q <> p -> q ∈ ps1 ++ ps2) as [Hpn Hother].
  { pose proof (rep_nodup _ _ (tr_list _ _ _ Ht)) as Hnd. apply NoDup_app in Hnd as (_ & H1 & Hnd).
    apply NoDup_cons in Hnd as [H2 _]. split; set_solver. }
  assert (forall q, q ∈ ps1 ++ ps2 -> q ∈ ps1 ++ p :: ps2) as Hsub by set_solver.
  assert (forall q l, K !! q = Some l -> p ∈ l -> q = parent (proc_at t p)) as Honly
    by (intros q l Hq Hl; by apply (tr_kids _ _ _ Ht q l p Hq) in Hl as [_ ?]).
  assert (exists t1 K1, (if negb (parent (proc_at t p) =? 0) then unlink_child (parent (proc_at t p)) p t else t) = t1
    /\ forest t1 K1 /\ (forall q, K1 !! q = filter (fun x => x <> p) <$> K !! q)
    /\ procs t1 = procs t /\ pid_bitmap t1 = pid_bitmap t /\ next_pid_hint t1 = next_pid_hint t
    /\ system_initialized t1 = system_initialized t /\ process_list t1 = process_list t
    /\ pnext t1 = pnext t /\ pprev t1 = pprev t) as (t1 & K1 & E1 & Hf1 & HK1 & P1 & P2 & P3 & P4 & P5 & P6 & P7).
  { destruct (Z.eqb_spec (parent (proc_at t p)) 0) as [E|E]; cbn [negb].
    - exists t, K. split_and!; try done; [apply Ht|]. intros q. destruct (K !! q) as [l|] eqn:Hq; [|done]. cbn. f_equal.
      symmetry. apply filter_all. intros x Hx ->. pose proof (Honly q l Hq Hx). assert (q ∈ ps1 ++ p :: ps2) as Hq' by (apply (tr_dom _ _ _ Ht); eauto).
      apply (ptree_nonnull _ _ _ _ Ht Hq'). congruence.
    - destruct (tr_parent _ _ _ Ht p Hpin) as [|Hpar]; [done|]. destruct (ptree_lookup _ _ _ _ Ht Hpar) as [l Hl].
      assert (p ∈ l) as Hpl by (by apply (tr_kids _ _ _ Ht _ l p Hl)).
      apply list_elem_of_split in Hpl as (l1 & l2 & ->).
      eexists _, _. split; [reflexivity|]. split; [by apply forest_unlink; [apply Ht|]|]. split_and!; try done.
      intros q. rewrite lookup_insert. case_decide as Hd.
      + subst q. rewrite Hl. cbn. f_equal. destruct (forest_nodup _ _ _ _ (tr_forest _ _ _ Ht) Hl) as [Hnd _].
        apply NoDup_app in Hnd as (_ & H1 & Hnd). apply NoDup_cons in Hnd as [H2 _].
        rewrite filter_app, filter_cons_False by naive_solver. rewrite !filter_all; [done| |]; set_solver.
      + destruct (K !! q) as [l|] eqn:Hq; [|done]. cbn. f_equal. symmetry. apply filter_all. intros x Hx ->.
        apply Hd. symmetry. by eapply Honly. }
  exists (delete p K1). unfold unlink_process. rewrite E1. rewrite (unlink_global_remove t1 p (last_or (ps1 ++ p :: ps2) 0)).
  cbn [procs pid_bitmap next_pid_hint system_initialized set_globals]. split_and!; try done.
  2:{ intros q Hq. by rewrite lookup_delete_ne. }
  split.
  - cbn [process_list pnext pprev set_globals]. apply dl_rep_tail; [|done]. apply dl_remove_rep.
    rewrite P5, P6, P7. apply (tr_list _ _ _ Ht).
  - destruct Hf1 as [Hr Hd]. split.
    + intros q l [_ Hq]%lookup_delete_Some. apply (Hr q l Hq).
    + intros q q' l l' x [_ Hq]%lookup_delete_Some [_ Hq']%lookup_delete_Some. eauto.
  - intros q. rewrite lookup_delete_is_Some, HK1, fmap_is_Some, (tr_dom _ _ _ Ht q). set_solver.
  - intros q l x [Hne Hq]%lookup_delete_Some. rewrite HK1 in Hq. apply fmap_Some in Hq as (l0 & Hq & ->).
    rewrite list_elem_of_filter, (tr_kids _ _ _ Ht q l0 x Hq). unfold proc_at. cbn [procs set_globals]. rewrite P1. set_solver.
  - intros q Hq. unfold proc_at. cbn [procs set_globals]. rewrite P1. fold (proc_at t q).
    destruct (tr_parent _ _ _ Ht q (Hsub q Hq)) as [?|Hpar]; [by left|right]. apply Hother; [done|]. intros E.
    assert (q ∈ []) as Hx; [|by apply elem_of_nil in Hx]. apply (tr_kids _ _ _ Ht p [] q Hp). auto.
Qed.

(** Adding a new process in front of the list, and last among the children of
    its parent. *)
Definition link_process p par t : proctab :=
  push_global p (if negb (par =? 0) then link_child par p t else t).

Lemma push_global_rep t ps p :
  dl_rep (DL (process_list t) (last_or ps 0) (pnext t) (pprev t)) ps -> p <> 0 -> p ∉ ps ->
  dl_rep (DL (process_list (push_global p t)) (last_or (p :: ps) 0) (pnext (push_global p t)) (pprev (push_global p t))) (p :: ps).
Proof.
  intros [Hh _ Hnd H0 Hl] Hp0 Hp. cbn [head nxt prv] in *. unfold push_global.
  split; cbn [head tail nxt prv process_list pnext pprev set_globals]; [done|done|by apply NoDup_cons|set_solver|].
  cbn [dseg]. rewrite Hh. destruct ps as [|x ps]; cbn [hd_or].
  - cbn. rewrite !aget_aset_eq. done.
  - apply not_elem_of_cons in H0 as [Hx0 H0]. apply not_elem_of_cons in Hp as [Hpx Hp]. apply NoDup_cons in Hnd as [Hx Hnd].
    replace (x =? 0) with false by lia. cbn [negb]. destruct Hl as (Hxp & Hxn & Hl).
    rewrite aget_aset_ne, !aget_aset_eq by congruence. split_and!; [done|done|]. cbn [dseg].
    rewrite aget_aset_eq, aget_aset_ne by congruence. split_and!; [done|done|].
    apply dseg_set_next; [done|]. apply dseg_set_prev; [done|]. by apply dseg_set_prev.
Qed.

Lemma ptree_link t ps K p par :
  ptree t ps K -> p <> 0 -> p ∉ ps -> par = 0 \/ par ∈ ps ->
  parent (proc_at t p) = par -> aget (child_head t) p = 0 -> aget (child_tail t) p = 0 ->
  exists K', ptree (link_process p par t) (p :: ps) K'
    /\ K' !! p = Some [] /\ (forall q, q <> p -> K' !! q = if decide (q = par) then (fun l => l ++ [p]) <$> K !! q else K !! q)
    /\ procs (link_process p par t) = procs t /\ pid_bitmap (link_process p par t) = pid_bitmap t
    /\ next_pid_hint (link_process p par t) = next_pid_hint t
    /\ system_initialized (link_process p par t) = system_initialized t.
Proof.
  intros Ht Hp0 Hp Hpar Epar Hh Htl.
  assert (K !! p = None) as HKp by (apply eq_None_not_Some; by rewrite (tr_dom _ _ _ Ht p)).
  assert (forall q l, K !! q = Some l -> p ∉ l) as Hnl by (intros q l Hq Hin; by apply (tr_kids _ _ _ Ht q l p Hq) in Hin as [? _]).
  assert (forest t (<[p := []]> K)) as Hf0.
  { destruct (tr_forest _ _ _ Ht) as [Hr Hd]. split.
    - intros q l. rewrite lookup_insert. case_decide; [|apply Hr]. intros [= <-]. subst q. unfold children_of. rewrite Hh, Htl.
      apply (dl_rep_empty (DL 0 0 (child_next t) (child_prev t))).
    - intros q1 q2 l1 l2 x. rewrite !lookup_insert. do 2 case_decide; simplify_eq; intros E1 E2; simplify_eq; try done; try set_solver; eauto. }
  assert (exists t1 K1, (if negb (par =? 0) then link_child par p t else t) = t1 /\ forest t1 K1
    /\ (forall q, K1 !! q = if decide (q = p) then Some [] else if decide (q = par) then (fun l => l ++ [p]) <$> K !! q else K !! q)
    /\ procs t1 = procs t /\ pid_bitmap t1 = pid_bitmap t /\ next_pid_hint t1 = next_pid_hint t
    /\ system_initialized t1 = system_initialized t /\ process_list t1 = process_list t
    /\ pnext t1 = pnext t /\ pprev t1 = pprev t) as (t1 & K1 & E1 & Hf1 & HK1 & P1 & P2 & P3 & P4 & P5 & P6 & P7).
  { destruct (Z.eqb_spec par 0) as [E|E]; cbn [negb].
    - eexists t, _. split; [done|]. split; [exact Hf0|]. split_and!; try done. intros q. rewrite lookup_insert.
      destruct (decide (p = q)), (decide (q = p)); try congruence. case_decide as Hq; [|done].
      assert (K !! q = None) as ->; [|done]. apply eq_None_not_Some. rewrite (tr_dom _ _ _ Ht), Hq, E. by destruct (tr_list _ _ _ Ht).
    - destruct Hpar as [|Hpar]; [done|]. destruct (ptree_lookup _ _ _ _ Ht Hpar) as [l Hl].
      assert (par <> p) as Hne by congruence.
      eexists _, _. split; [done|]. split.
      + apply (forest_link t (<[p := []]> K) par l p Hf0); [by rewrite lookup_insert_ne|done|].
        intros q l'. rewrite lookup_insert. case_decide; [intros [= <-]; set_solver|apply Hnl].
      + split_and!; try done. intros q. rewrite !lookup_insert. destruct (decide (par = q)) as [<-|Hq].
        * rewrite (decide_False (P := par = p)), decide_True by done. by rewrite Hl.
        * rewrite (decide_False (P := q = par)) by congruence. by destruct (decide (p = q)), (decide (q = p)); try congruence. }
  exists K1. unfold link_process. rewrite E1. split_and!; try done.
  - split.
    + apply push_global_rep; [|done|done]. rewrite P5, P6, P7. apply (tr_list _ _ _ Ht).
    + destruct Hf1 as [Hr Hd]. split; [|done]. intros q l Hq. apply (Hr q l Hq).
    + intros q. rewrite HK1, elem_of_cons. destruct (decide (q = p)) as [->|Hq]; [by split; [left|]|].
      rewrite <- (tr_dom _ _ _ Ht q). destruct (decide (q = par)); [rewrite fmap_is_Some|]; naive_solver.
    + intros q l x Hq. rewrite HK1 in Hq. unfold push_global, proc_at. cbn [procs set_globals]. rewrite P1. fold (proc_at t x).
      rewrite elem_of_cons. destruct (decide (q = p)) as [->|Hqp].
      * injection Hq as <-. split; [by intros ?%elem_of_nil|]. intros [[-> |Hx] Hx'].
        -- rewrite Epar in Hx'. destruct Hpar as [?|?]; congruence.
        -- destruct (tr_parent _ _ _ Ht x Hx) as [?|?]; congruence.
      * destruct (decide (q = par)) as [->|Hqpar].
        -- apply fmap_Some in Hq as (l0 & Hq & ->). rewrite elem_of_app, list_elem_of_singleton, (tr_kids _ _ _ Ht par l0 x Hq). naive_solver.
        -- rewrite (tr_kids _ _ _ Ht q l x Hq). naive_solver.
    + intros q [->|Hq]%elem_of_cons; unfold push_global, proc_at; cbn [procs set_globals]; rewrite P1.
      * fold (proc_at t p). rewrite Epar. rewrite elem_of_cons. naive_solver.
      * fold (proc_at t q). destruct (tr_parent _ _ _ Ht q Hq); [by left|right]. by apply elem_of_cons; right.
  - by rewrite HK1, decide_True.
  - intros q Hq. by rewrite HK1, decide_False.
Qed.
