(* ===== verification/Process.v ===== *)
(** Processes and threads: [process.cpp], [process.hpp], [thread.hpp].

    The state of the kernel above the allocators: the process table, the
    threads, the scheduler, the page tables and the virtual filesystem.  All
    of them draw on one allocator; it is kept in the scheduler's state, and a
    component's operation runs on a view with the allocator put in. *)

From S2P Require Import Prelude MemoryMap Pmm PageAlloc Slice KAlloc DList Task Vmm Bytes KMem VfsBase Ramfs Vfs ProcTable ProcTree.

(** A component inside a larger state. *)
Class Lens (X Y : Type) := {
  lget : X -> Y;
  lput : Y -> X -> X;
  lget_lput : forall x y, lget (lput y x) = y;
  lput_lget : forall x, lput (lget x) x = x;
  lput_lput : forall x y z, lput z (lput y x) = lput z x;
}.

#[export, refine] Instance lens_id {X} : Lens X X := {| lget x := x; lput y _ := y |}.
Proof. all: done. Defined.

#[export, refine] Instance slice_pages {S} : Lens (slice S) S := {|
  lget := Slice.pages;
  lput ps s := Slice.Slice (Slice.mem s) (Slice.classes s) (Slice.slice_stats s) (Slice.hhdm s) ps;
|}.
Proof. - done. - by intros []. - done. Defined.

#[export, refine] Instance ramfs_memory {A} : Lens (ramfs A) A := {|
  lget := Ramfs.kmem;
  lput a s := Ramfs.set_kmem a s;
|}.
Proof. - done. - by intros []. - done. Defined.

(** [struct Thread] less its first member [task], which is the scheduler's
    task at the same address. *)
Record Thread := Build_Thread {
  th_process : Z;
  user_rsp : Z;
  user_rip : Z;
  user_rsp0 : Z;
  th_next : Z;
  th_prev : Z;
}.

(** sizeof(Thread), alignof(Thread) *)
Definition sizeof_Thread : Z := 208.
Definition alignof_Thread : Z := 8.

Record kernel (S A F : Type) := Kernel {
  tab : proctab;
  threads : arr Thread;
  sch : sched A;
  vm : vmm S;
  fs : vfs F;
}.
Arguments Kernel {S A F}.
Arguments tab {S A F}.
Arguments threads {S A F}.
Arguments sch {S A F}.
Arguments vm {S A F}.
Arguments fs {S A F}.

Section Operations.
Context {S A F : Type} `{PageRefs S} `{KernelAlloc A} `{VnodeFs F} `{Lens A S} `{Lens F A}.
Implicit Types (k : kernel S A F).

(** ** Access to the parts *)

Definition mem k : A := kernel_heap (sch k).
Definition set_mem (a : A) k : kernel S A F := Kernel (tab k) (threads k) (set_heap a (sch k)) (vm k) (fs k).
Definition set_tab (f : proctab -> proctab) k : kernel S A F := Kernel (f (tab k)) (threads k) (sch k) (vm k) (fs k).
Definition set_thread (t : Z) (x : Thread) k : kernel S A F := Kernel (tab k) (aset (threads k) t x) (sch k) (vm k) (fs k).
Definition set_sch (f : sched A -> sched A) k : kernel S A F := Kernel (tab k) (threads k) (f (sch k)) (vm k) (fs k).

(** The page tables with the page allocator, and back. *)
Definition vm_view k : vmm S := set_frames (lget (mem k)) (vm k).
Definition put_vm (v : vmm S) k : kernel S A F :=
  set_mem (lput (frames v) (mem k)) (Kernel (tab k) (threads k) (sch k) v (fs k)).

(** The filesystem with the kernel allocator, and back. *)
Definition fs_view k : vfs F := set_fs (lput (mem k) (node_fs (fs k))) (fs k).
Definition put_fs (v : vfs F) k : kernel S A F :=
  set_mem (lget (node_fs v)) (Kernel (tab k) (threads k) (sch k) (vm k) v).

(** [pmm::alloc_pages], [pmm::free_pages] *)
Definition alloc_pages (n : Z) k : Z * kernel S A F :=
  let '(r, s) := pa_alloc (lget (mem k)) n in (r, set_mem (lput s (mem k)) k).
Definition free_pages (phys n : Z) k : kernel S A F :=
  set_mem (lput (pa_free (lget (mem k)) phys n) (mem k)) k.

(** ** Processes *)

Definition empty_fds : list FileDescriptor := replicate CONFIG_VFS_MAX_FDS no_fd.
Definition set_fds (p : Z) (fds : list FileDescriptor) k : kernel S A F :=
  Kernel (tab k) (threads k) (sch k) (vm k)
    (Vfs (mount_table (fs k)) (aset (fd_tables (fs k)) p fds) (root_vnode (fs k)) (initialized (fs k)) (node_fs (fs k))).

(** The result is the new process, 0 on failure. *)
Definition process_create (pml4 par : Z) k : Z * kernel S A F :=
  let '(proc, a) := KAlloc.kalloc (mem k) sizeof_Process alignof_Process in
  let k := set_mem a k in
  if proc =? 0 then (0, k)
  else
    let k := set_fds proc empty_fds (set_tab (zero_struct proc) k) in
    let '(id, t) := pid_alloc (tab k) in
    let k := set_tab (fun _ => t) k in
    if id =? UINT64_MAX then (0, set_mem (KAlloc.kfree (mem k) proc sizeof_Process) k)
    else
      let k := set_tab (update_proc proc (fun x =>
        Build_Process id ProcessState.Alive 0 pml4 par 0 (wait_task x) (brk x) (brk_base x))) k in
      (proc, set_tab (link_process proc par) k).

Definition reap_process (proc : Z) k : kernel S A F :=
  if (proc =? 0) || negb (bool_decide (p_state (proc_at (tab k) proc) = ProcessState.Zombie)) then k
  else
    let k := set_tab (unlink_process proc) k in
    let k := put_vm (free_address_space (pml4_phys (proc_at (tab k) proc)) (vm_view k)) k in
    let k := set_tab (pid_free (pid (proc_at (tab k) proc))) k in
    set_mem (KAlloc.kfree (mem k) proc sizeof_Process) k.

Fixpoint reap_loop (fuel : nat) (child : Z) k : option (kernel S A F) :=
  match fuel with
  | O => None
  | Datatypes.S fuel =>
      if child =? 0 then Some k
      else
        let next := aget (child_next (tab k)) child in
        let k := if bool_decide (p_state (proc_at (tab k) child) = ProcessState.Zombie) then reap_process child k else k in
        reap_loop fuel next k
  end.

Definition reap_zombies_of_init k : option (kernel S A F) :=
  init ← find_init_process (tab k);
  if init =? 0 then Some k else reap_loop list_fuel (aget (child_head (tab k)) init) k.

(** ** Threads *)

(** The result is the new thread, 0 on failure.  The fields of the task that
    the code does not assign keep what the memory held. *)
Definition thread_create (trampoline process entry stack_top : Z) k : Z * kernel S A F :=
  let '(thread, a) := KAlloc.kalloc (mem k) sizeof_Thread alignof_Thread in
  let k := set_mem a k in
  if thread =? 0 then (0, k)
  else
    let '(stack_phys, k) := alloc_pages stack_pages k in
    if stack_phys =? invalid_physical_address then (0, set_mem (KAlloc.kfree (mem k) thread sizeof_Thread) k)
    else
      let stack_virt := physical_to_virtual (hhdm_offset (sch k)) stack_phys in
      let k := set_thread thread (Build_Thread process stack_top entry (stack_virt +64 stack_size) 0 0) k in
      let cr3 := if negb (process =? 0) then pml4_phys (proc_at (tab k) process) else Vmm.kernel_pml4 (vm k) in
      let k := set_sch (update_task thread (fun x =>
        {| t_id := 0; t_name := t_name x; t_state := Ready;
           t_stack := {| stk_base := stack_virt; stk_top := stack_virt +64 stack_size;
                         stk_physical_page := stack_phys; stk_page_count := stack_pages |};
           t_context := t_context x; t_entry := 0; t_arg := 0;
           t_creation_time := t_creation_time x; t_thread := thread; t_cr3 := cr3 |})) k in
      let k := set_sch (set_stack_mem (fun m =>
        for_z 0 (stack_size / 8) (fun i m => aset m (stack_virt +64 8 * i) 0) m)) k in
      (thread, set_sch (setup_task_stack thread trampoline) k).

End Operations.

(** * Invariant *)

(** The processes and the children of a process, by following the links. *)
Definition processes (t : proctab) : list Z := DList.walk list_fuel (pnext t) (process_list t).
Definition children (t : proctab) (p : Z) : list Z := DList.walk list_fuel (child_next t) (aget (child_head t) p).

(** The table of a running system: a consistent tree; identifiers that are in
    use exactly for the processes; an ancestor with identifier 0 and no
    parent; no children below an exited process that has a parent; and no
    process among its own ancestors. *)
Record proc_inv (t : proctab) (ps : list Z) (K : gmap Z (list Z)) : Prop := {
  pi_tree : ptree t ps K;
  pi_pids : pids_ok t;
  pi_inj : forall p q, p ∈ ps -> q ∈ ps -> pid (proc_at t p) = pid (proc_at t q) -> p = q;
  pi_range : forall p, p ∈ ps -> 0 <= pid (proc_at t p) < max_pids;
  pi_used : forall id, 0 <= id -> pid_used t id = true <-> exists p, p ∈ ps /\ pid (proc_at t p) = id;
  pi_first : ps = [] -> next_pid_hint t = 0;
  pi_init : ps <> [] -> exists p, p ∈ ps /\ pid (proc_at t p) = 0 /\ parent (proc_at t p) = 0;
  pi_zombie : forall p, p ∈ ps -> p_state (proc_at t p) = ProcessState.Zombie -> parent (proc_at t p) <> 0 -> K !! p = Some [];
  pi_rank : exists rank : Z -> nat, forall p, p ∈ ps -> parent (proc_at t p) <> 0 -> (rank (parent (proc_at t p)) < rank p)%nat;
}.

(** There are at most as many processes as identifiers. *)
Lemma proc_inv_length t ps K : proc_inv t ps K -> (length ps <= Z.to_nat max_pids)%nat.
Proof.
  intros Hi. pose proof (rep_nodup _ _ (tr_list _ _ _ (pi_tree _ _ _ Hi))) as Hnd.
  assert (NoDup ((fun p => Z.to_nat (pid (proc_at t p))) <$> ps)) as Hnd'.
  { apply NoDup_fmap_2_strong; [|done]. intros x y Hx Hy E. apply (pi_inj _ _ _ Hi); [done|done|].
    pose proof (pi_range _ _ _ Hi x Hx). pose proof (pi_range _ _ _ Hi y Hy). lia. }
  rewrite <- (length_fmap (fun p => Z.to_nat (pid (proc_at t p))) ps), <- (length_seq (Z.to_nat max_pids) 0).
  apply submseteq_length, NoDup_submseteq; [done|]. intros n (p & -> & Hp)%list_elem_of_fmap.
  apply elem_of_seq. pose proof (pi_range _ _ _ Hi p Hp). lia.
Qed.

Lemma processes_eq t ps K : proc_inv t ps K -> processes t = ps.
Proof.
  intros Hi. destruct (tr_list _ _ _ (pi_tree _ _ _ Hi)) as [Hh _ _ H0 Hl]. cbn [head nxt prv] in *.
  unfold processes. rewrite Hh. eapply walk_dseg; [done|done|]. pose proof (proc_inv_length _ _ _ Hi). unfold list_fuel. lia.
Qed.

Lemma children_eq t ps K p l : proc_inv t ps K -> K !! p = Some l -> children t p = l.
Proof.
  intros Hi Hp. destruct (fr_rep _ _ (tr_forest _ _ _ (pi_tree _ _ _ Hi)) p l Hp) as [Hh _ Hnd H0 Hl]. cbn [head nxt prv children_of] in *.
  unfold children. rewrite Hh. eapply walk_dseg; [done|done|]. pose proof (proc_inv_length _ _ _ Hi).
  assert (length l <= length ps)%nat; [|unfold list_fuel; lia]. apply submseteq_length, NoDup_submseteq; [done|].
  intros q Hq. by apply (tr_kids _ _ _ (pi_tree _ _ _ Hi) p l q Hp) in Hq as [? _].
Qed.

(** ** The operations keep the invariant *)

Lemma inv_ext t t' ps K :
  proc_inv t ps K -> ptree t' ps K -> (forall p, p ∈ ps -> pid (proc_at t' p) = pid (proc_at t p)) ->
  (forall p, p ∈ ps -> parent (proc_at t' p) = parent (proc_at t p)) ->
  pid_bitmap t' = pid_bitmap t -> next_pid_hint t' = next_pid_hint t -> system_initialized t' = system_initialized t ->
  (forall p, p ∈ ps -> p_state (proc_at t' p) = ProcessState.Zombie -> parent (proc_at t p) <> 0 -> K !! p = Some []) ->
  proc_inv t' ps K.
Proof.
  intros Hi Ht Hp Hpar E1 E2 E3 Hz. split; [done|..].
  - destruct (pi_pids _ _ _ Hi). split; congruence.
  - intros p q Hp1 Hq1. rewrite !Hp by done. by apply Hi.
  - intros p Hp1. rewrite Hp by done. by apply Hi.
  - intros id Hid. unfold pid_used. rewrite E1. fold (pid_used t id). rewrite (pi_used _ _ _ Hi id Hid).
    split; intros (p & Hp1 & E); exists p; (split; [done|]); by rewrite ?Hp in * by done.
  - rewrite E2. apply Hi.
  - intros Hne. destruct (pi_init _ _ _ Hi Hne) as (p & Hp1 & ? & ?). exists p. by rewrite Hp, Hpar.
  - intros p Hp1 Hs. rewrite Hpar by done. by apply Hz.
  - destruct (pi_rank _ _ _ Hi) as [rank Hr]. exists rank. intros p Hp1. rewrite Hpar by done. by apply Hr.
Qed.

(** Assigning fields other than the identifier, the parent and the state. *)
Lemma inv_update t ps K p f :
  proc_inv t ps K ->
  (forall x, pid (f x) = pid x /\ parent (f x) = parent x
     /\ (p_state (f x) = ProcessState.Zombie -> p_state x = ProcessState.Zombie)) ->
  proc_inv (update_proc p f t) ps K.
Proof.
  intros Hi Hf.
  assert (forall q, pid (proc_at (update_proc p f t) q) = pid (proc_at t q)
    /\ parent (proc_at (update_proc p f t) q) = parent (proc_at t q)
    /\ (p_state (proc_at (update_proc p f t) q) = ProcessState.Zombie -> p_state (proc_at t q) = ProcessState.Zombie)) as Hq.
  { intros q. unfold proc_at, update_proc. cbn. rewrite aget_aset. case_decide; [subst; apply Hf|done]. }
  apply (inv_ext t); try done.
  - apply ptree_update; [apply Hi|apply Hf].
  - intros q _. apply Hq.
  - intros q _. apply Hq.
  - intros q Hin Hs. apply Hq in Hs. by apply (pi_zombie _ _ _ Hi).
Qed.

Lemma inv_zero t ps K p : proc_inv t ps K -> p ∉ ps -> proc_inv (zero_struct p t) ps K.
Proof.
  intros Hi Hp.
  assert (forall q, q ∈ ps -> proc_at (zero_struct p t) q = proc_at t q) as Hq.
  { intros q Hq. unfold proc_at, zero_struct. cbn. rewrite aget_aset_ne; [done|congruence]. }
  apply (inv_ext t); try done; try (intros q Hin; by rewrite Hq).
  - destruct (pi_tree _ _ _ Hi) as [Hl [Hr Hd] Hdom Hk Hpar]. split.
    + eapply dl_rep_ext; [..|exact Hl]; [done|done|]. cbn. intros x Hx. by rewrite !aget_aset_ne by congruence.
    + split; [|done]. intros q l Hq'. assert (q ∈ ps) by (apply Hdom; eauto).
      eapply dl_rep_ext; [..|by apply Hr]; cbn.
      * by rewrite aget_aset_ne by congruence.
      * by rewrite aget_aset_ne by congruence.
      * intros x Hx. apply (Hk q l x Hq') in Hx as [Hx _]. by rewrite !aget_aset_ne by congruence.
    + done.
    + intros q l x Hq'. rewrite (Hk q l x Hq'). split; intros [Hx ?]; (split; [done|]); by rewrite ?Hq in * by done.
    + intros q Hq'. rewrite Hq by done. by apply Hpar.
  - intros q Hin. rewrite Hq by done. by apply (pi_zombie _ _ _ Hi).
Qed.

(** A process set up with a new identifier and linked in. *)
Lemma inv_link t ps K p par id pml4 wt b1 b2 bm h :
  proc_inv t ps K -> p <> 0 -> p ∉ ps ->
  par = 0 /\ (ps = [] -> id = 0) \/ (par ∈ ps /\ (p_state (proc_at t par) = ProcessState.Zombie -> parent (proc_at t par) = 0)) ->
  0 <= id < max_pids -> pid_used t id = false ->
  aget (child_head t) p = 0 -> aget (child_tail t) p = 0 ->
  let t1 := set_pids bm h t in
  pids_ok t1 -> (forall j, 0 <= j -> pid_used t1 j = pid_used t j || (j =? id)) ->
  let x := Build_Process id ProcessState.Alive 0 pml4 par 0 wt b1 b2 in
  let t2 := update_proc p (fun _ => x) t1 in
  exists K', proc_inv (link_process p par t2) (p :: ps) K'
    /\ K' !! p = Some [] /\ (forall q, q <> p -> K' !! q = if decide (q = par) then (fun l => l ++ [p]) <$> K !! q else K !! q)
    /\ procs (link_process p par t2) = aset (procs t) p x.
Proof.
  intros Hi Hp0 Hp Hpar Hid Hfree Hh Htl t1 Hok1 Hu1 x t2.
  assert (forall q, proc_at t2 q = if decide (p = q) then x else proc_at t q) as Hproc.
  { intros q. unfold t2, t1, proc_at, update_proc. cbn. by rewrite aget_aset. }
  assert (forall q, q ∈ ps -> proc_at t2 q = proc_at t q) as Hold.
  { intros q Hq. rewrite Hproc, decide_False by congruence. done. }
  assert (ptree t2 ps K) as Ht2.
  { apply (ptree_ext t); try done; [|apply Hi]. intros q Hq. by rewrite Hold. }
  destruct (ptree_link t2 ps K p par) as (K' & Ht' & HKp & HK & P1 & P2 & P3 & P4); try done.
  { naive_solver. }
  { by rewrite Hproc, decide_True. }
  exists K'. assert (forall q, proc_at (link_process p par t2) q = proc_at t2 q) as Hlp by (intros q; unfold proc_at; by rewrite P1).
  split_and!; [|done|done|done]. split.
  - done.
  - destruct Hok1. split; [by rewrite P4|by rewrite P3].
  - assert (forall q, q ∈ ps -> pid (proc_at t q) <> id) as Hnew.
    { intros q Hq E. assert (pid_used t id = true); [|congruence]. apply (pi_used _ _ _ Hi id); [lia|]. eauto. }
    assert (forall q, q ∈ p :: ps -> p <> q -> q ∈ ps) as Hin by set_solver.
    intros q1 q2 H1 H2. rewrite !Hlp, !Hproc. destruct (decide (p = q1)) as [E1|E1], (decide (p = q2)) as [E2|E2]; cbn; intros E.
    + congruence.
    + destruct (Hnew q2 (Hin q2 H2 E2)). done.
    + by destruct (Hnew q1 (Hin q1 H1 E1)).
    + apply (pi_inj _ _ _ Hi); auto.
  - intros q Hq. rewrite Hlp, Hproc. case_decide; [done|]. apply Hi. set_solver.
  - intros j Hj. assert (pid_used (link_process p par t2) j = pid_used t1 j) as -> by (unfold pid_used; by rewrite P2).
    rewrite Hu1, orb_true_iff, (pi_used _ _ _ Hi j Hj), Z.eqb_eq by done. split.
    + intros [(q & Hq & E)| ->]; [exists q; split; [by apply elem_of_cons; right|]; by rewrite Hlp, Hold|].
      exists p. split; [by apply elem_of_cons; left|]. by rewrite Hlp, Hproc, decide_True.
    + intros (q & [->|Hq]%elem_of_cons & E); rewrite Hlp, Hproc in E.
      * right. by rewrite decide_True in E.
      * left. exists q. split; [done|]. rewrite decide_False in E by (by intros ->). done.
  - done.
  - intros _. destruct ps as [|q0 ps0] eqn:Eps.
    + exists p. split; [by apply elem_of_cons; left|]. rewrite Hlp, Hproc, decide_True by done. cbn.
      destruct Hpar as [[-> Hid0]|[Hin _]]; [split; [by apply Hid0|done]|by apply elem_of_nil in Hin].
    + rewrite <- Eps in *. destruct (pi_init _ _ _ Hi) as (q & Hq & ? & ?); [congruence|]. exists q.
      rewrite Hlp, Hold by done. split; [by apply elem_of_cons; right|done].
  - intros q Hq. rewrite Hlp, Hproc. case_decide as Hd; [done|].
    assert (q ∈ ps) as Hqps by set_solver. intros Hs Hpq. rewrite HK by congruence.
    rewrite (pi_zombie _ _ _ Hi q Hqps Hs Hpq). destruct (decide (q = par)) as [->|]; [|done].
    destruct Hpar as [[-> _]|[_ Hz]]; [|naive_solver]. by destruct (ptree_nonnull _ _ _ 0 (pi_tree _ _ _ Hi)).
  - destruct (pi_rank _ _ _ Hi) as [rank Hr]. exists (fun q => if decide (q = p) then Datatypes.S (rank par) else rank q).
    intros q Hq. rewrite Hlp, Hproc. case_decide as Hd.
    + subst q. cbn. intros Hp1. rewrite decide_False, decide_True by (done || (intros ->; naive_solver)). lia.
    + assert (q ∈ ps) as Hqps by set_solver. intros Hpq. destruct (tr_parent _ _ _ (pi_tree _ _ _ Hi) q Hqps) as [?|Hin]; [done|].
      rewrite !decide_False by congruence. by apply Hr.
Qed.

(** Giving back an exited process that has no children. *)
Lemma inv_unlink t ps K p :
  proc_inv t ps K -> p ∈ ps -> p_state (proc_at t p) = ProcessState.Zombie -> parent (proc_at t p) <> 0 ->
  exists ps1 ps2 K', ps = ps1 ++ p :: ps2
    /\ proc_inv (pid_free (pid (proc_at t p)) (unlink_process p t)) (ps1 ++ ps2) K'
    /\ (forall q, q <> p -> K' !! q = filter (fun x => x <> p) <$> K !! q)
    /\ procs (pid_free (pid (proc_at t p)) (unlink_process p t)) = procs t
    /\ (forall j, 0 <= j -> pid_used (pid_free (pid (proc_at t p)) (unlink_process p t)) j = pid_used t j && negb (j =? pid (proc_at t p))).
Proof.
  intros Hi Hp Hz Hpar. pose proof (pi_zombie _ _ _ Hi p Hp Hz Hpar) as HKp.
  pose proof (rep_nodup _ _ (tr_list _ _ _ (pi_tree _ _ _ Hi))) as Hnd.
  apply list_elem_of_split in Hp as Hsplit. destruct Hsplit as (ps1 & ps2 & ->).
  destruct (ptree_unlink t ps1 p ps2 K (pi_tree _ _ _ Hi) HKp) as (K' & Ht' & HK & P1 & P2 & P3 & P4).
  exists ps1, ps2, K'. split; [done|].
  set (t1 := unlink_process p t) in *. set (id := pid (proc_at t p)) in *.
  assert (pids_ok t1) as Hok1 by (destruct (pi_pids _ _ _ Hi); split; congruence).
  destruct (pid_free_cases t1 id Hok1 (pi_range _ _ _ Hi p Hp)) as [Hok2 Hu2].
  assert (forall j, pid_used t1 j = pid_used t j) as Hu1 by (intros j; unfold pid_used; by rewrite P2).
  assert (procs (pid_free id t1) = procs t) as Hprocs by (unfold pid_free; by destruct (_ || _)).
  assert (forall q, proc_at (pid_free id t1) q = proc_at t q) as Hat by (intros q; unfold proc_at; by rewrite Hprocs).
  assert (forall q, q ∈ ps1 ++ ps2 -> q ∈ ps1 ++ p :: ps2 /\ q <> p) as Hsub.
  { apply NoDup_app in Hnd as (_ & H1 & Hnd). apply NoDup_cons in Hnd as [H2 _]. intros q. rewrite !elem_of_app, elem_of_cons.
    intros [Hq|Hq]; (split; [auto|intros ->]); [|done]. apply (H1 p Hq). by apply elem_of_cons; left. }
  assert (forall q, q ∈ ps1 ++ p :: ps2 -> q <> p -> q ∈ ps1 ++ ps2) as Hsub'
    by (intros q; rewrite !elem_of_app, elem_of_cons; naive_solver).
  split_and!; [|done|done|].
  2:{ intros j Hj. by rewrite Hu2, Hu1. }
  split.
  - apply (ptree_ext t1); try done; unfold pid_free; by destruct (_ || _).
  - done.
  - intros q1 q2 [H1 _]%Hsub [H2 _]%Hsub. rewrite !Hat. by apply Hi.
  - intros q [Hq _]%Hsub. rewrite Hat. by apply Hi.
  - intros j Hj. rewrite Hu2, Hu1, andb_true_iff, (pi_used _ _ _ Hi j Hj), negb_true_iff, Z.eqb_neq by done. split.
    + intros [(q & Hq & E) Hne]. exists q. rewrite Hat. split; [|done]. apply Hsub'; [done|]. intros ->. apply Hne. by rewrite <- E.
    + intros (q & [Hq Hqp]%Hsub & E). rewrite Hat in E. split; [by exists q|]. intros ->. apply Hqp.
      by apply (pi_inj _ _ _ Hi).
  - intros Hnil. destruct (pi_init _ _ _ Hi) as (q & Hq & _ & E2); [by destruct ps1|].
    assert (q ∈ ps1 ++ ps2) as Hin by (apply Hsub'; [done|by intros ->]). rewrite Hnil in Hin. by apply elem_of_nil in Hin.
  - intros _. destruct (pi_init _ _ _ Hi) as (q & Hq & E1 & E2); [by destruct ps1|]. exists q. rewrite Hat.
    split_and!; [|done|done]. apply Hsub'; [done|]. by intros ->.
  - intros q [Hq Hqp]%Hsub. rewrite Hat. intros Hs Hpq. rewrite HK by done.
    by rewrite (pi_zombie _ _ _ Hi q Hq Hs Hpq).
  - destruct (pi_rank _ _ _ Hi) as [rank Hr]. exists rank. intros q [Hq _]%Hsub. rewrite Hat. by apply Hr.
Qed.

Section Correctness.
Context {S A F : Type} `{PageRefs S} `{KernelAlloc A} `{VnodeFs F} `{Lens A S} `{Lens F A}.
Implicit Types (k : kernel S A F).

(** The processes are objects of the kernel allocator. *)
Definition procs_live k (ps : list Z) (live : gmap Z Z) : Prop :=
  ka_wf (mem k) live /\ forall p, p ∈ ps -> live !! p = Some sizeof_Process.

(** Who may be the parent of a new process. *)
Definition may_parent (t : proctab) (ps : list Z) (par : Z) : Prop :=
  par = 0 \/ (par ∈ ps /\ (p_state (proc_at t par) = ProcessState.Zombie -> parent (proc_at t par) = 0)).

Lemma process_create_cases k ps K live pml4 par :
  proc_inv (tab k) ps K -> procs_live k ps live -> may_parent (tab k) ps par ->
  let r := process_create pml4 par k in
  (r.1 = 0 /\ proc_inv (tab r.2) ps K /\ procs_live r.2 ps live /\ forall p, p ∈ ps -> proc_at (tab r.2) p = proc_at (tab k) p)
  \/ (r.1 <> 0 /\ r.1 ∉ ps /\ procs_live r.2 (r.1 :: ps) (<[r.1 := sizeof_Process]> live)
      /\ exists K' id, proc_inv (tab r.2) (r.1 :: ps) K' /\ K' !! r.1 = Some []
        /\ (forall q, q <> r.1 -> K' !! q = if decide (q = par) then (fun l => l ++ [r.1]) <$> K !! q else K !! q)
        /\ (forall p, p ∈ ps -> proc_at (tab r.2) p = proc_at (tab k) p)
        /\ proc_at (tab r.2) r.1 = Build_Process id ProcessState.Alive 0 pml4 par 0 0 0 0
        /\ aget (fd_tables (fs r.2)) r.1 = empty_fds).
Proof.
  intros Hi [Hwf Hlive] Hpar r. unfold r, process_create. clear r.
  pose proof (kalloc_law (mem k) live sizeof_Process alignof_Process Hwf ltac:(done)) as Hlaw.
  destruct (KAlloc.kalloc (mem k) sizeof_Process alignof_Process) as [p a]. cbn [fst snd] in Hlaw.
  destruct Hlaw as [[-> Ha]|(Hp & Hfresh & Ha)].
  { left. cbn. split_and!; try done. }
  replace (p =? 0) with false by lia.
  assert (p ∉ ps) as Hpn by (intros Hin; rewrite (Hlive p Hin) in Hfresh; done).
  set (k1 := set_fds p empty_fds (set_tab (zero_struct p) (set_mem a k))).
  pose proof (inv_zero _ _ _ p Hi Hpn) as Hi1. change (zero_struct p (tab k)) with (tab k1) in Hi1.
  assert (forall q, q ∈ ps -> proc_at (tab k1) q = proc_at (tab k) q) as Hat1.
  { intros q Hq. unfold k1, proc_at. cbn. rewrite aget_aset_ne; [done|by intros ->]. }
  assert (forall q, q ∈ ps -> <[p := sizeof_Process]> live !! q = Some sizeof_Process) as Hlive'.
  { intros q Hq. rewrite lookup_insert_ne; [by apply Hlive|by intros ->]. }
  destruct (pid_alloc_cases (tab k1) (pi_pids _ _ _ Hi1)) as [(id & Eid & Hid & Hfree & Et & Hok & Hu & Hfirst)|[E Hall]].
  - destruct (pid_alloc (tab k1)) as [id' t1]. cbn [fst snd] in *. subst id' t1.
    replace (id =? UINT64_MAX) with false by (unfold UINT64_MAX, max_pids in *; lia).
    right. cbn [fst snd]. split; [lia|]. split; [done|]. split.
    { split; [done|]. intros q [->|Hq]%elem_of_cons; [apply lookup_insert_eq|by apply Hlive']. }
    assert (par = 0 /\ (ps = [] -> id = 0) \/ (par ∈ ps
      /\ (p_state (proc_at (tab k1) par) = ProcessState.Zombie -> parent (proc_at (tab k1) par) = 0))) as Hpar1.
    { destruct Hpar as [->|[Hin Hz]]; [left|right].
      - split; [done|]. intros ->. pose proof (pi_first _ _ _ Hi1 eq_refl) as E0. rewrite E0 in Hfirst. apply Hfirst.
        apply not_true_iff_false. rewrite (pi_used _ _ _ Hi1 0 ltac:(lia)). intros (q & Hq & _). by apply elem_of_nil in Hq.
      - by rewrite Hat1. }
    destruct (inv_link (tab k1) ps K p par id pml4 0 0 0 _ _ Hi1 ltac:(lia) Hpn Hpar1 Hid Hfree
      ltac:(cbn; apply aget_aset_eq) ltac:(cbn; apply aget_aset_eq) Hok Hu) as (K' & Hi' & HKp & HK & Hprocs).
    exists K', id.
    match goal with |- proc_inv (tab ?x) _ _ /\ _ => set (k2 := x) end.
    match type of Hi' with proc_inv ?x _ _ => assert (tab k2 = x) as Ek2 end.
    { unfold k2. cbn [tab set_tab]. unfold update_proc, set_procs, proc_at. cbn. by rewrite aget_aset_eq. }
    rewrite Ek2. assert (forall q, proc_at (tab k2) q = aget (aset (procs (tab k1)) p (Build_Process id ProcessState.Alive 0 pml4 par 0 0 0 0)) q) as Hat2.
    { intros q. unfold proc_at. by rewrite Ek2, Hprocs. }
    rewrite <- Ek2. split_and!; try done.
    + by rewrite Ek2.
    + intros q Hq. rewrite Hat2, aget_aset_ne by (by intros ->). by apply Hat1.
    + rewrite Hat2. apply aget_aset_eq.
    + cbn. apply aget_aset_eq.
  - rewrite E. cbn [fst snd]. replace (UINT64_MAX =? UINT64_MAX) with true by done. left. cbn [fst snd].
    split_and!; try done. split; [|done]. cbn.
    replace live with (delete p (<[p := sizeof_Process]> live)) by (rewrite delete_insert_id; done).
    apply kfree_law; [done|apply lookup_insert_eq].
Qed.

Lemma reap_process_cases k ps K p :
  proc_inv (tab k) ps K -> p ∈ ps -> p_state (proc_at (tab k) p) = ProcessState.Zombie -> parent (proc_at (tab k) p) <> 0 ->
  exists ps1 ps2 K', ps = ps1 ++ p :: ps2 /\ proc_inv (tab (reap_process p k)) (ps1 ++ ps2) K'
    /\ (forall q, q <> p -> K' !! q = filter (fun x => x <> p) <$> K !! q)
    /\ procs (tab (reap_process p k)) = procs (tab k)
    /\ (forall j, 0 <= j -> pid_used (tab (reap_process p k)) j = pid_used (tab k) j && negb (j =? pid (proc_at (tab k) p)))
    /\ pmem (vm (reap_process p k)) = pmem (free_address_space (pml4_phys (proc_at (tab k) p)) (vm_view k))
    /\ fs (reap_process p k) = fs k /\ threads (reap_process p k) = threads k.
Proof.
  intros Hi Hp Hz Hpar. destruct (inv_unlink _ _ _ _ Hi Hp Hz Hpar) as (ps1 & ps2 & K' & Eps & Hi' & HK & Hprocs & Hu).
  exists ps1, ps2, K'. assert (p <> 0) by (by eapply ptree_nonnull; [apply Hi|]).
  unfold reap_process. replace (p =? 0) with false by lia. rewrite bool_decide_true by done. cbn [orb negb].
  cbn [tab set_mem put_vm set_tab vm fs threads].
  assert (forall q, proc_at (unlink_process p (tab k)) q = proc_at (tab k) q) as Hat.
  { intros q. unfold proc_at. unfold unlink_process, unlink_global, unlink_child. by repeat case_match. }
  rewrite !Hat. split_and!; done.
Qed.

End Correctness.
