(* ===== verification/Elf.v ===== *)
(** The program loader: [elf.cpp], [elf.hpp].

    Program headers and segments are read from a file into physical pages
    through the direct map; a 64-bit word of physical memory holds eight
    bytes, least significant first.  [None] stands for a panic of the kernel
    (a page table that cannot be allocated) and for following a pointer to
    nothing. *)

From S2P Require Import Prelude MemoryMap Pmm PageAlloc Slice KAlloc DList Task Vmm AddressSpace Bytes KMem VfsBase Ramfs Vfs ProcTable ProcTree Process.

(** [shared/include/tori/errno.h] *)
Module Errno.
Definition E_PERM : Z := 1.
Definition E_NO_ENTRY : Z := 2.
Definition E_IO : Z := 5.
Definition E_NO_MEM : Z := 12.
Definition E_CHILD : Z := 10.
Definition E_INVALID : Z := 22.
End Errno.

(** * Bytes of the physical memory *)

Definition get8 (m : arr Z) (a : Z) : Z := Z.land (Z.shiftr (aget m (a / 8 * 8)) (8 * (a mod 8))) 255.
Definition set8 (a b : Z) (m : arr Z) : arr Z :=
  let w := aget m (a / 8 * 8) in
  aset m (a / 8 * 8) (Z.lor (Z.ldiff w (Z.shiftl 255 (8 * (a mod 8)))) (Z.shiftl b (8 * (a mod 8)))).

Fixpoint pld (n : nat) (m : arr Z) (a : Z) : Z :=
  match n with
  | O => 0
  | S n => get8 m a + 256 * pld n m (a + 1)
  end.

(** The [n] bytes from [a] as a buffer, and a buffer written back. *)
Definition load_buf (m : arr Z) (a n : Z) : bmem := for_z 0 n (fun i b => aset b i (get8 m (a + i))) (afill 0).
Definition store_buf (a n : Z) (b : bmem) (m : arr Z) : arr Z := for_z 0 n (fun i m => set8 (a + i) (aget b i) m) m.

(** [for (z = 0; z < 0x1000; ++z) hhdm[z] = 0;] *)
Definition zero_page (phys : Z) (m : arr Z) : arr Z := for_z 0 0x1000 (fun z m => set8 (phys + z) 0 m) m.

(** * Headers *)

Record Elf64_Ehdr := Build_Ehdr {
  e_ident : list Z; e_type : Z; e_machine : Z; e_version : Z; e_entry : Z; e_phoff : Z;
  e_phentsize : Z; e_phnum : Z;
}.
Definition sizeof_Ehdr : Z := 64.

Definition parse_ehdr (b : bmem) : Elf64_Ehdr :=
  Build_Ehdr ((fun i => aget b (Z.of_nat i)) <$> seq 0 16) (ld 2 b 16) (ld 2 b 18) (ld 4 b 20) (ld 8 b 24) (ld 8 b 32)
    (ld 2 b 54) (ld 2 b 56).

Record Elf64_Phdr := Build_Phdr { p_type : Z; p_flags : Z; p_offset : Z; p_vaddr : Z; p_filesz : Z; p_memsz : Z }.
Definition sizeof_Phdr : Z := 56.

(** The program header at a physical address. *)
Definition parse_phdr (m : arr Z) (a : Z) : Elf64_Phdr :=
  Build_Phdr (pld 4 m a) (pld 4 m (a + 4)) (pld 8 m (a + 8)) (pld 8 m (a + 16)) (pld 8 m (a + 32)) (pld 8 m (a + 40)).

Definition PT_LOAD : Z := 1.
Definition PF_X : Z := 1.
Definition PF_W : Z := 2.
Definition elf_magic : list Z := [0x7F; 69; 76; 70].

Definition user_stack_base : Z := 0x00007FFFF0000000.
Definition user_stack_pages : Z := 16.
Definition user_stack_size : Z := user_stack_pages * 4096.
Definition user_stack_top : Z := user_stack_base + user_stack_size.
Definition default_load_address : Z := 0x400000.

Record ElfLoadResult := Build_ElfLoadResult { entry : Z; stack_top : Z; elf_brk_base : Z }.

(** The checks of the header, in the order of the code. *)
Definition header_ok (h : Elf64_Ehdr) : bool :=
  bool_decide (take 4 (e_ident h) = elf_magic)
  && (default 0 (e_ident h !! 4%nat) =? 2)
  && (default 0 (e_ident h !! 5%nat) =? 1)
  && (e_version h =? 1)
  && (e_machine h =? 0x3E)
  && ((e_type h =? 2) || (e_type h =? 3)).

Definition load_bias (h : Elf64_Ehdr) : Z := if e_type h =? 3 then default_load_address else 0.

Definition page_down (x : Z) : Z := Z.land x (lnot64 0xFFF).

(** The page flags of a segment. *)
Definition segment_flags (ph : Elf64_Phdr) : Z :=
  let flags := Z.lor Flags.Present Flags.User in
  let flags := if negb (Z.land (p_flags ph) PF_W =? 0) then Z.lor flags Flags.Writable else flags in
  if Z.land (p_flags ph) PF_X =? 0 then Z.lor flags Flags.NoExecute else flags.

Definition stack_flags : Z := Z.lor (Z.lor (Z.lor Flags.Present Flags.User) Flags.Writable) Flags.NoExecute.

Section Loader.
Context {S A F : Type} `{PageRefs S} `{KernelAlloc A} `{VnodeFs F} `{Lens A S} `{Lens F A}.
Implicit Types (k : kernel S A F).

Definition set_phys (f : arr Z -> arr Z) k : kernel S A F :=
  Kernel (tab k) (threads k) (sch k) (set_pmem f (vm k)) (fs k).

Definition map_user (va pa flags pml4 : Z) k : option (kernel S A F) :=
  v ← map_page va pa flags pml4 (vm_view k); Some (put_vm v k).

(** [file->ops->read(file, offset, p, size, &got)] into physical memory. *)
Definition read_phys (file offset a size : Z) k : option (Z * Z * kernel S A F) :=
  '(err, got, b, f) ← op_read file offset (load_buf (pmem (vm k)) a size) size (node_fs (fs_view k));
  let k := put_fs (set_fs f (fs_view k)) k in
  Some (err, got, set_phys (store_buf a size b) k).

(** A page of zeroes, mapped at [page]; the error is 0 or [-E_NO_MEM]. *)
Definition fresh_page (page flags pml4 : Z) k : option (Z * Z * kernel S A F) :=
  let '(phys, k) := alloc_pages 1 k in
  if phys =? invalid_physical_address then Some (- Errno.E_NO_MEM, 0, k)
  else
    let k := set_phys (zero_page phys) k in
    k ← map_user page phys flags pml4 k;
    Some (0, phys, k).

(** The loop over the pages of a segment, for [n] pages from [page]. *)
Fixpoint segment_pages (n : nat) (file pml4 flags page_start first_page_off page remaining_file file_offset : Z) k
  : option (Z * kernel S A F) :=
  match n with
  | O => Some (0, k)
  | Datatypes.S n =>
      '(err, phys, k) ← fresh_page page flags pml4 k;
      if err <? 0 then Some (err, k)
      else if 0 <? remaining_file then
        let page_off := if page =? page_start then first_page_off else 0 in
        let space := 0x1000 - page_off in
        let copy_size := if remaining_file <? space then remaining_file else space in
        '(err, _, k) ← read_phys file file_offset (phys + page_off) copy_size k;
        if err <? 0 then Some (- Errno.E_IO, k)
        else segment_pages n file pml4 flags page_start first_page_off (page +64 0x1000)
               (remaining_file - copy_size) (file_offset +64 copy_size) k
      else segment_pages n file pml4 flags page_start first_page_off (page +64 0x1000) remaining_file file_offset k
  end.

(** One [PT_LOAD] header; the result is the error and the new [max_end]. *)
Definition load_segment (file pml4 bias max_end : Z) (ph : Elf64_Phdr) k : option (Z * Z * kernel S A F) :=
  let vaddr := p_vaddr ph +64 bias in
  let page_start := page_down vaddr in
  let page_end := page_down (wrap 64 (vaddr + p_memsz ph + 0xFFF)) in
  let first_page_off := Z.land vaddr 0xFFF in
  '(err, k) ← segment_pages (Z.to_nat ((page_end - page_start) / 0x1000)) file pml4 (segment_flags ph)
                page_start first_page_off page_start (p_filesz ph) (p_offset ph) k;
  Some (err, (if page_start <? page_end then Z.max max_end page_end else max_end), k).

(** The loop over the program headers at the physical address [phdrs]. *)
Fixpoint load_segments (n : nat) (file pml4 bias phdrs max_end : Z) k : option (Z * Z * kernel S A F) :=
  match n with
  | O => Some (0, max_end, k)
  | Datatypes.S n =>
      let ph := parse_phdr (pmem (vm k)) phdrs in
      if negb (p_type ph =? PT_LOAD) then load_segments n file pml4 bias (phdrs + sizeof_Phdr) max_end k
      else
        '(err, max_end, k) ← load_segment file pml4 bias max_end ph k;
        if err <? 0 then Some (err, max_end, k)
        else load_segments n file pml4 bias (phdrs + sizeof_Phdr) max_end k
  end.

(** The user stack; the result is the error and the last page. *)
Fixpoint stack_loop (n : nat) (pml4 page last : Z) k : option (Z * Z * kernel S A F) :=
  match n with
  | O => Some (0, last, k)
  | Datatypes.S n =>
      '(err, phys, k) ← fresh_page page stack_flags pml4 k;
      if err <? 0 then Some (err, last, k) else stack_loop n pml4 (page + 0x1000) phys k
  end.

(** The three words at the top of the stack: argc, argv and envp. *)
Definition init_stack (last_stack_phys : Z) k : kernel S A F :=
  set_phys (fun m => aset (aset (aset m (last_stack_phys + 8 * 511) 0) (last_stack_phys + 8 * 510) 0)
                       (last_stack_phys + 8 * 509) 0) k.

(** [ehdr0]: what the local variable held before the read. *)
Definition elf64_load (ehdr0 : bmem) (file pml4 : Z) k : option (Z * ElfLoadResult * kernel S A F) :=
  let none := Build_ElfLoadResult 0 0 0 in
  if file =? 0 then Some (- Errno.E_INVALID, none, k)
  else
    '(err, got, b, f) ← op_read file 0 ehdr0 sizeof_Ehdr (node_fs (fs_view k));
    let k := put_fs (set_fs f (fs_view k)) k in
    if (err <? 0) || negb (got =? sizeof_Ehdr) then Some (- Errno.E_IO, none, k)
    else
      let ehdr := parse_ehdr b in
      if negb (header_ok ehdr) then Some (- Errno.E_INVALID, none, k)
      else if negb (e_phentsize ehdr =? sizeof_Phdr) then Some (- Errno.E_INVALID, none, k)
      else
        let phdrs_size := e_phnum ehdr * sizeof_Phdr in
        let phdrs_pages := (phdrs_size + 0xFFF) / 0x1000 in
        let phdrs_pages := if phdrs_pages =? 0 then 1 else phdrs_pages in
        let '(phdr_buf_phys, k) := alloc_pages phdrs_pages k in
        if phdr_buf_phys =? invalid_physical_address then Some (- Errno.E_NO_MEM, none, k)
        else
          '(err, got, k) ← read_phys file (e_phoff ehdr) phdr_buf_phys phdrs_size k;
          if (err <? 0) || negb (got =? phdrs_size)
          then Some (- Errno.E_IO, none, free_pages phdr_buf_phys phdrs_pages k)
          else
            '(err, max_end, k) ← load_segments (Z.to_nat (e_phnum ehdr)) file pml4 (load_bias ehdr) phdr_buf_phys 0 k;
            if err <? 0 then Some (err, none, free_pages phdr_buf_phys phdrs_pages k)
            else
              '(err, last_stack_phys, k) ← stack_loop (Z.to_nat user_stack_pages) pml4 user_stack_base 0 k;
              if err <? 0 then Some (err, none, free_pages phdr_buf_phys phdrs_pages k)
              else
                let k := init_stack last_stack_phys k in
                let k := free_pages phdr_buf_phys phdrs_pages k in
                Some (0, Build_ElfLoadResult (e_entry ehdr +64 load_bias ehdr)
                           ((user_stack_top - 0x1000) + 509 * 8) max_end, k).

End Loader.

(** * Bytes and words *)

Lemma get8_range m a : 0 <= get8 m a < 256.
Proof. unfold get8. change 255 with (Z.ones 8). rewrite Z.land_ones by lia. by apply Z.mod_pos_bound. Qed.

Lemma get8_testbit m a n : 0 <= n < 8 -> Z.testbit (get8 m a) n = Z.testbit (aget m (a / 8 * 8)) (8 * (a mod 8) + n).
Proof.
  intros Hn. unfold get8. change 255 with (Z.ones 8). pose proof (Z.mod_pos_bound a 8).
  rewrite Z.land_spec, Z.shiftr_spec, Z.ones_spec_low, andb_true_r by lia. f_equal. lia.
Qed.

Lemma byte_ext x y : 0 <= x < 256 -> 0 <= y < 256 -> (forall n, 0 <= n < 8 -> Z.testbit x n = Z.testbit y n) -> x = y.
Proof.
  intros Hx Hy Hb. rewrite <- (Z.mod_small x (2 ^ 8)), <- (Z.mod_small y (2 ^ 8)) by lia.
  rewrite <- !Z.land_ones by lia. apply Z.bits_inj'. intros n Hn. rewrite !Z.land_spec.
  destruct (Z.lt_ge_cases n 8); [by rewrite Hb|]. by rewrite Z.ones_spec_high, !andb_false_r by lia.
Qed.

Lemma get8_set8 m a b x : 0 <= b < 256 -> get8 (set8 a b m) x = if decide (x = a) then b else get8 m x.
Proof.
  intros Hb. pose proof (get8_range (set8 a b m) x). pose proof (get8_range m x).
  assert (forall n, 0 <= n < 8 -> Z.testbit (get8 (set8 a b m) x) n = Z.testbit (if decide (x = a) then b else get8 m x) n) as Hbits.
  2:{ case_decide; apply byte_ext; done. }
  intros n Hn. rewrite get8_testbit by done. unfold set8. rewrite aget_aset.
  pose proof (Z.mod_pos_bound x 8 ltac:(lia)) as Hx8. pose proof (Z.mod_pos_bound a 8 ltac:(lia)) as Ha8.
  destruct (decide (a / 8 * 8 = x / 8 * 8)) as [E|E].
  - rewrite Z.lor_spec, Z.ldiff_spec, !Z.shiftl_spec by lia. case_decide as Hd.
    + subst x. replace (8 * (a mod 8) + n - 8 * (a mod 8)) with n by lia. change 255 with (Z.ones 8).
      by rewrite Z.ones_spec_low, andb_false_r by lia.
    + assert (x mod 8 <> a mod 8) as Hne by (intros Hm; apply Hd; rewrite (Z.div_mod x 8), (Z.div_mod a 8) by lia; lia).
      rewrite get8_testbit, <- E by done.
      destruct (Z.lt_ge_cases (8 * (x mod 8) + n - 8 * (a mod 8)) 0) as [Hneg|Hpos].
      * rewrite (Z.testbit_neg_r 255), (Z.testbit_neg_r b) by lia. by rewrite andb_true_r, orb_false_r.
      * change 255 with (Z.ones 8). rewrite Z.ones_spec_high, andb_true_r by lia.
        rewrite <- (Z.mod_small b (2 ^ 8)), Z.mod_pow2_bits_high by lia. by rewrite orb_false_r.
  - rewrite decide_False by congruence. by rewrite get8_testbit.
Qed.

(** A store within a run of [n] pages changes only words of these pages. *)
Definition only_run (page n : Z) (m m' : arr Z) : Prop :=
  forall w, (forall q j, page <= q < page + n -> 0 <= j < 512 -> w <> entry_addr (q * 4096) j) -> aget m' w = aget m w.

Lemma only_run_refl page n m : only_run page n m m.
Proof. by intros w _. Qed.

Lemma only_run_trans page n m1 m2 m3 : only_run page n m1 m2 -> only_run page n m2 m3 -> only_run page n m1 m3.
Proof. intros H1 H2 w Hw. by rewrite H2, H1. Qed.

Lemma only_run_other page n m m' q j :
  only_run page n m m' -> ~ (page <= q < page + n) -> 0 <= j < 512 ->
  aget m' (entry_addr (q * 4096) j) = aget m (entry_addr (q * 4096) j).
Proof. intros Ho Hq Hj. apply Ho. intros q' j' Hq' Hj' E. apply entry_addr_inj in E as [-> _]; done. Qed.

Lemma set8_only page n a b m : page * 4096 <= a < (page + n) * 4096 -> only_run page n m (set8 a b m).
Proof.
  intros Ha w Hw. unfold set8. apply aget_aset_ne. intros E.
  apply (Hw (a / 4096) ((a - a / 4096 * 4096) / 8)); [zlia|zlia|]. unfold entry_addr. rewrite <- E. zlia.
Qed.

Lemma store_buf_spec page np a n b m : 0 <= n -> page * 4096 <= a -> a + n <= (page + np) * 4096 ->
  (forall i, 0 <= i < n -> 0 <= aget b i < 256) ->
  only_run page np m (store_buf a n b m)
  /\ forall x, get8 (store_buf a n b m) x = if (a <=? x) && (x <? a + n) then aget b (x - a) else get8 m x.
Proof.
  intros Hn Ha1 Ha2 Hb. unfold store_buf.
  apply (for_z_inv (fun i m' => only_run page np m m'
    /\ forall x, get8 m' x = if (a <=? x) && (x <? a + i) then aget b (x - a) else get8 m x)); [done| |].
  - split; [apply only_run_refl|]. intros x. by replace ((a <=? x) && (x <? a + 0)) with false by lia.
  - intros i m' Hi [Ho IH]. split.
    + eapply only_run_trans; [exact Ho|]. apply set8_only. lia.
    + intros x. rewrite get8_set8 by auto. case_decide as Hd.
      * subst x. replace (a + i - a) with i by lia. by replace ((a <=? a + i) && (a + i <? a + (i + 1))) with true by lia.
      * rewrite IH. by replace (x <? a + (i + 1)) with (x <? a + i) by lia.
Qed.

Lemma load_buf_spec m a n i : 0 <= i < n -> aget (load_buf m a n) i = get8 m (a + i).
Proof.
  intros Hi. unfold load_buf.
  cut (forall x, 0 <= x < n -> aget (for_z 0 n (fun i b => aset b i (get8 m (a + i))) (afill 0)) x = get8 m (a + x)); [auto|].
  apply (for_z_inv (fun j b => forall x, 0 <= x < j -> aget b x = get8 m (a + x))); [lia|lia|].
  intros j b Hj IH x Hx. rewrite aget_aset. case_decide as Hd; [by subst|]. apply IH. lia.
Qed.

Lemma zero_page_spec page m :
  only_run page 1 m (zero_page (page * 4096) m)
  /\ forall x, get8 (zero_page (page * 4096) m) x = if (page * 4096 <=? x) && (x <? page * 4096 + 4096) then 0 else get8 m x.
Proof.
  unfold zero_page. change 0x1000 with 4096.
  apply (for_z_inv (fun i m' => only_run page 1 m m'
    /\ forall x, get8 m' x = if (page * 4096 <=? x) && (x <? page * 4096 + i) then 0 else get8 m x)); [done| |].
  - split; [apply only_run_refl|]. intros x. by replace ((page * 4096 <=? x) && (x <? page * 4096 + 0)) with false by lia.
  - intros i m' Hi [Ho IH]. split.
    + eapply only_run_trans; [exact Ho|]. apply set8_only. lia.
    + intros x. rewrite get8_set8 by lia. case_decide as Hd.
      * subst x. by replace ((page * 4096 <=? page * 4096 + i) && (page * 4096 + i <? page * 4096 + (i + 1))) with true by lia.
      * rewrite IH. by replace (x <? page * 4096 + (i + 1)) with (x <? page * 4096 + i) by lia.
Qed.

#[local] Opaque zero_page store_buf load_buf.

Lemma get8_words m m' page x :
  (forall j, 0 <= j < 512 -> aget m' (entry_addr (page * 4096) j) = aget m (entry_addr (page * 4096) j)) ->
  page * 4096 <= x < page * 4096 + 4096 -> get8 m' x = get8 m x.
Proof.
  intros Hw Hx. unfold get8. replace (x / 8 * 8) with (entry_addr (page * 4096) ((x - page * 4096) / 8)) by (unfold entry_addr; zlia).
  rewrite Hw; [done|zlia].
Qed.

(** Pages of the lower half have different paths. *)
Lemma vpath_inj a b : 0 <= a < 2 ^ 47 -> 0 <= b < 2 ^ 47 -> vpath a = vpath b -> a / 4096 = b / 4096.
Proof.
  intros Ha Hb E. unfold vpath in E. injection E as E3 E2 E1 E0. rewrite !idx_eq in *. unfold level_bits in *.
  change (2 ^ (12 + 9 * Z.of_nat 3)) with (2 ^ 39) in *. change (2 ^ (12 + 9 * Z.of_nat 2)) with (2 ^ 30) in *.
  change (2 ^ (12 + 9 * Z.of_nat 1)) with (2 ^ 21) in *. change (2 ^ (12 + 9 * Z.of_nat 0)) with 4096 in *.
  zlia.
Qed.

(** * What the steps of the loader do *)

Section Steps.
Context {S A F : Type} `{PageRefs S} `{KernelAlloc A} `{VnodeFs F} `{Lens A S} `{Lens F A}.
Implicit Types (k : kernel S A F) (own : gmap Z (list Z)).

Definition used k (page : Z) : bool := pa_used (lget (mem k)) page.
Definition phys k : arr Z := pmem (vm k).

(** The page tables of [root] form a tree, over a sound page allocator. *)
Definition vm_ok k (root : Z) own : Prop := pa_wf (lget (mem k)) /\ Vmm.tree (phys k) (used k) root own.

(** Pages in use outside the page tables stay in use and keep their contents. *)
Definition kept k k' own own' : Prop :=
  own ⊆ own'
  /\ (forall page, used k page = true -> used k' page = true)
  /\ (forall page, used k page = true -> own !! (page * 4096) = None ->
        own' !! (page * 4096) = None
        /\ forall j, 0 <= j < 512 -> aget (phys k') (entry_addr (page * 4096) j) = aget (phys k) (entry_addr (page * 4096) j)).

(** The parts that the loader does not touch. *)
Definition rest k k' : Prop :=
  tab k' = tab k /\ threads k' = threads k /\ (forall a, set_heap a (sch k') = set_heap a (sch k))
  /\ (forall a, lput a (node_fs (fs k')) = lput a (node_fs (fs k))) /\ (forall f, set_fs f (fs k') = set_fs f (fs k))
  /\ kernel_pml4_phys (vm k') = kernel_pml4_phys (vm k).

Lemma rest_refl k : rest k k.
Proof. by split_and!. Qed.

Lemma rest_trans k1 k2 k3 : rest k1 k2 -> rest k2 k3 -> rest k1 k3.
Proof. intros (?&?&E1&E2&E3&?) (?&?&E4&E5&E6&?). split_and!; try congruence; intros; rewrite ?E4, ?E5, ?E6; auto. Qed.

Lemma kept_refl k own : kept k k own own.
Proof. by split_and!. Qed.

Lemma kept_trans k1 k2 k3 o1 o2 o3 : kept k1 k2 o1 o2 -> kept k2 k3 o2 o3 -> kept k1 k3 o1 o3.
Proof.
  intros (S1 & U1 & W1) (S2 & U2 & W2). split_and!; [by etransitivity|auto|]. intros page Hu Ho.
  destruct (W1 page Hu Ho) as [Ho2 E1]. destruct (W2 page (U1 page Hu) Ho2) as [Ho3 E2].
  split; [done|]. intros j Hj. by rewrite E2, E1.
Qed.

(** The bytes [c] are mapped at the page of [va], in a frame that is not one of
    those to [avoid]. *)
Definition page_holds (avoid : Z -> Prop) k (root : Z) own (va flags : Z) (c : Z -> Z) : Prop :=
  exists page, used k page = true /\ ~ avoid page /\ own !! (page * 4096) = None
    /\ walk_at (phys k) 3 root va = Some (page * 4096, flags)
    /\ forall x, 0 <= x < 4096 -> get8 (phys k) (page * 4096 + x) = c x.

Lemma page_holds_kept avoid k k' root own own' va flags c :
  kept k k' own own' -> walk_at (phys k') 3 root va = walk_at (phys k) 3 root va ->
  page_holds avoid k root own va flags c -> page_holds avoid k' root own' va flags c.
Proof.
  intros (_ & Hu & Hw) Et (page & Hp & Hav & Ho & Ht & Hc). destruct (Hw page Hp Ho) as [Ho' E]. exists page.
  split_and!; [auto|done|done|congruence|]. intros x Hx. rewrite <- Hc by done. by apply (get8_words _ _ page); [|lia].
Qed.

Lemma fresh_page_spec k root own va flags pml4 r :
  vm_ok k root own -> root = resolve_pml4 pml4 (vm k) -> addr_of flags = 0 -> is_present flags = true ->
  fresh_page va flags pml4 k = Some r ->
  rest k r.2 /\
  ((r.1.1 = - Errno.E_NO_MEM /\ vm_ok r.2 root own /\ kept k r.2 own own)
   \/ (exists page own', r.1.1 = 0 /\ r.1.2 = page * 4096 /\ 0 <= page /\ used k page = false /\ used r.2 page = true /\ own' !! (page * 4096) = None
       /\ vm_ok r.2 root own' /\ kept k r.2 own own'
       /\ (forall x, 0 <= x < 4096 -> get8 (phys r.2) (page * 4096 + x) = 0)
       /\ (forall va', walk_at (phys r.2) 3 root va' =
             if decide (vpath va = vpath va') then Some (page * 4096, split_flags flags) else walk_at (phys k) 3 root va'))).
Proof.
  intros [Hwf Htree] Hroot Hfl Hpres. unfold fresh_page, alloc_pages.
  pose proof (alloc_frame (lget (mem k)) Hwf) as Hal. pose proof (pa_alloc_law (lget (mem k)) 1 Hwf ltac:(unfold max_managed_pages; lia)) as Hlaw.
  destruct (pa_alloc (lget (mem k)) 1) as [ph fr]. cbn [fst snd] in *.
  destruct (Z.eqb_spec ph invalid_physical_address) as [E|E].
  { intros [= <-]. cbn. split; [by split_and!|]. left. split; [done|].
    destruct Hlaw as [(page & -> & ? & ? & _)|[= _ ->]]; [unfold max_managed_pages, page_size, invalid_physical_address, UINT64_MAX in *; lia|].
    unfold vm_ok, kept, used, mem. cbn. rewrite lput_lget. by split_and!. }
  destruct (Hal E) as (page & -> & Hp & Hfree & Hwf1 & Hu1). clear Hal Hlaw E.
  destruct (zero_page_spec page (phys k)) as [Hz Hz0].
  set (k1 := set_phys (zero_page (page * 4096)) (set_mem (lput fr (mem k)) k)).
  unfold map_user. destruct (map_page va (page * 4096) flags pml4 (vm_view k1)) as [v|] eqn:Em; cbn [mbind option_bind]; [|done].
  intros [= <-]. cbn [fst snd].
  assert (frames (vm_view k1) = fr) as Efr by (unfold vm_view, k1, mem; cbn; by rewrite lget_lput).
  assert (forall page' p, own !! (page' * 4096) = Some p -> page' <> page) as Hne.
  { intros page' p Ho ->. destruct (t_page _ _ _ _ Htree _ _ Ho) as (_ & pg & Epg & _ & Hug).
    assert (pg = page) as -> by lia. unfold used in Hug. congruence. }
  destruct (AddressSpace.tree_ext (phys k) (pmem (vm_view k1)) (used k) (pa_used fr) root own Htree) as [Htree1 Hwalk1].
  { intros t p j Ho Hj. unfold ent. cbn. destruct (t_page _ _ _ _ Htree t p Ho) as (_ & pg & -> & _).
    apply (only_run_other _ _ _ _ _ _ Hz); [|done]. pose proof (Hne pg p Ho). lia. }
  { intros page' p _ Hu. rewrite Hu1. unfold used in Hu. by rewrite Hu. }
  assert (resolve_pml4 pml4 (vm_view k1) = root) as Hroot1 by (rewrite Hroot; done).
  pose proof (map_page_cases (vm_view k1) v own va (page * 4096) flags pml4) as Hmap. cbv zeta in Hmap.
  rewrite Hroot1, Efr in Hmap. specialize (Hmap Hwf1 Htree1 Hfl Em) as (own' & Hwf' & Htree' & Hsub & Hout & Hkp & Hu' & Htr).
  assert (vm (put_vm v k1) = v) as Evm by done.
  assert (lget (mem (put_vm v k1)) = frames v) as Emem by (unfold mem; cbn; by rewrite lget_lput).
  assert (own !! (page * 4096) = None) as Hown.
  { destruct (own !! (page * 4096)) as [p|] eqn:Ho; [|done]. by destruct (Hne page p Ho). }
  assert (pa_used fr page = true) as Hup by (rewrite Hu1, Z.eqb_refl; apply orb_true_r).
  unfold outside_kept in Hout. rewrite Efr in Hout. destruct (Hout page Hup Hown) as [Hown' Hwords].
  split.
  { unfold rest. rewrite Evm. split_and!; try done. }
  right. exists page, own'. split_and!; try done; [lia| | | | |].
  - unfold used. rewrite Emem. by apply Hu'.
  - unfold vm_ok, used, phys. by rewrite Evm, Emem.
  - split_and!; [done| |].
    + intros page' Hup'. unfold used in *. rewrite Emem. apply Hu'. by rewrite Hu1, Hup'.
    + intros page' Hup' Ho'. unfold used in Hup'. destruct (Hout page') as [Ho2 Hw2]; [by rewrite Hu1, Hup'|done|]. split; [done|].
      intros j Hj. unfold phys. rewrite Evm, Hw2 by done. cbn. apply (only_run_other _ _ _ _ _ _ Hz); [|done].
      assert (page' <> page) by (intros ->; congruence). lia.
  - intros x Hx. unfold phys. rewrite Evm. rewrite (get8_words (pmem (vm_view k1)) _ page) by (done || lia). cbn.
    change (pmem (vm k)) with (phys k). rewrite Hz0. by replace (_ && _) with true by lia.
  - intros va'. unfold phys. rewrite Evm. unfold translate in Htr. rewrite Htr, Hpres. case_decide; [|by rewrite Hwalk1].
    do 2 f_equal. rewrite <- (Z.lor_0_r (page * 4096)) at 1. apply (addr_of_entry page 0); [unfold max_managed_pages in *; lia|done].
Qed.

(** ** Files *)

(** Reading the file gives its [len] bytes [data] and changes nothing; past the
    end the bytes are taken as 0. *)
Record file_reads k (file len : Z) (data : Z -> Z) : Prop := {
  fl_read : forall a off buf size, 0 <= off -> 0 <= size ->
    let n := Z.max 0 (Z.min size (len - off)) in
    exists buf', op_read file off buf size (lput a (node_fs (fs k))) = Some (0, n, buf', lput a (node_fs (fs k)))
      /\ forall x, aget buf' x = if (0 <=? x) && (x <? n) then data (off + x) else aget buf x;
  fl_byte : forall x, 0 <= data x < 256;
  fl_end : forall x, len <= x -> data x = 0;
}.

Lemma file_reads_rest k k' file len data : rest k k' -> file_reads k file len data -> file_reads k' file len data.
Proof.
  intros (_ & _ & _ & E & _ & _) [Hr Hb He]. split; [|done|done]. intros a off buf size Ho Hs. rewrite E. by apply Hr.
Qed.

Lemma read_phys_spec k root own file len data off page np a size r :
  file_reads k file len data -> vm_ok k root own -> (forall q, page <= q < page + np -> own !! (q * 4096) = None) ->
  0 <= off -> page * 4096 <= a -> 0 <= size -> a + size <= (page + np) * 4096 ->
  read_phys file off a size k = Some r ->
  let n := Z.max 0 (Z.min size (len - off)) in
  rest k r.2 /\ r.1 = (0, n) /\ vm_ok r.2 root own
  /\ (forall q, used r.2 q = used k q)
  /\ only_run page np (phys k) (phys r.2)
  /\ (forall va, walk_at (phys r.2) 3 root va = walk_at (phys k) 3 root va)
  /\ forall x, get8 (phys r.2) x = if (a <=? x) && (x <? a + n) then data (off + (x - a)) else get8 (phys k) x.
Proof.
  intros Hfile [Hwf Htree] Hown Ho Ha Hs Hps Hread n. unfold read_phys, fs_view in Hread. cbn [node_fs set_fs] in Hread.
  destruct (fl_read _ _ _ _ Hfile (mem k) off (load_buf (pmem (vm k)) a size) size Ho Hs) as (buf' & E & Hb).
  rewrite E in Hread. cbn [mbind option_bind] in Hread. injection Hread as <-. cbn [fst snd]. fold n in Hb |- *.
  destruct (store_buf_spec page np a size buf' (phys k)) as [Hst Hst8]; [lia|lia|lia| |].
  { intros i Hi. rewrite Hb. destruct (_ && _); [apply Hfile|]. rewrite load_buf_spec by done. apply get8_range. }
  match goal with |- rest k ?x /\ _ => set (k' := x) end.
  assert (mem k' = mem k) as Emem by (unfold k', mem; cbn; by rewrite lget_lput).
  assert (phys k' = store_buf a size buf' (phys k)) as Eph by done.
  destruct (AddressSpace.tree_ext (phys k) (phys k') (used k) (used k') root own Htree) as [Htree' Hwalk].
  { intros t p j Hot Hj. unfold ent. rewrite Eph. destruct (t_page _ _ _ _ Htree t p Hot) as (_ & pg & -> & _).
    apply (only_run_other _ _ _ _ _ _ Hst); [|done]. intros Hq. rewrite (Hown pg Hq) in Hot. done. }
  { intros page' p _. unfold used. by rewrite Emem. }
  split_and!.
  - unfold rest, k'. split_and!; try done. intros a'. cbn. by rewrite lput_lput.
  - done.
  - unfold vm_ok. by rewrite Emem.
  - intros q. unfold used. by rewrite Emem.
  - by rewrite Eph.
  - done.
  - intros x. rewrite Eph, Hst8. destruct ((a <=? x) && (x <? a + size)) eqn:Ein.
    + rewrite Hb. replace ((0 <=? x - a) && (x - a <? n)) with ((a <=? x) && (x <? a + n)) by lia.
      destruct ((a <=? x) && (x <? a + n)); [done|]. rewrite load_buf_spec by lia. f_equal. lia.
    + by replace ((a <=? x) && (x <? a + n)) with false by lia.
Qed.

(** ** The pages of a segment *)

(** The byte that belongs at the virtual address [y]. *)
Definition segment_byte (data : Z -> Z) (vaddr offset filesz y : Z) : Z :=
  if (vaddr <=? y) && (y <? vaddr + filesz) then data (offset + (y - vaddr)) else 0.

(** The [n] pages from [page] are mapped, each with its bytes of the segment;
    every other page is translated as before. *)
Definition pages_loaded (avoid : Z -> Prop) k k' (root : Z) own' (n : nat) (page flags : Z) (byte : Z -> Z) : Prop :=
  (forall i, 0 <= i < Z.of_nat n -> page_holds avoid k' root own' (page + 4096 * i) (split_flags flags) (fun x => byte (page + 4096 * i + x)))
  /\ (forall va, 0 <= va < 2 ^ 47 -> ~ (page <= va < page + 4096 * Z.of_nat n) -> walk_at (phys k') 3 root va = walk_at (phys k) 3 root va).

Lemma pages_loaded_cons avoid k k1 k2 root own1 own2 n page flags byte :
  page mod 4096 = 0 -> 0 <= page -> page + 4096 * Z.of_nat (Datatypes.S n) <= 2 ^ 47 ->
  page_holds avoid k1 root own1 page (split_flags flags) (fun x => byte (page + x)) ->
  (forall va, walk_at (phys k1) 3 root va = if decide (vpath page = vpath va) then walk_at (phys k1) 3 root page else walk_at (phys k) 3 root va) ->
  kept k1 k2 own1 own2 -> pages_loaded avoid k1 k2 root own2 n (page + 4096) flags byte ->
  pages_loaded avoid k k2 root own2 (Datatypes.S n) page flags byte.
Proof.
  intros Hal Hp Hlim Hh Ht Hk [Hl Ho]. split.
  - intros i Hi. destruct (Z.eq_dec i 0) as [->|Hi0].
    + replace (page + 4096 * 0) with page by lia. eapply page_holds_kept; [done| |done]. apply Ho; lia.
    + replace (page + 4096 * i) with (page + 4096 + 4096 * (i - 1)) by lia. apply Hl. lia.
  - intros va Hva Hout. rewrite Ho by lia. rewrite Ht. case_decide as Hd; [|done].
    apply vpath_inj in Hd; [|lia|lia]. exfalso. zlia.
Qed.

Lemma segment_pages_spec avoid file len data pml4 flags vaddr offset filesz :
  addr_of flags = 0 -> is_present flags = true -> 0 <= vaddr -> 0 <= offset -> 0 <= filesz -> offset + filesz < 2 ^ 64 ->
  let start := vaddr / 4096 * 4096 in
  forall n k root own page remaining fo r,
  file_reads k file len data -> vm_ok k root own -> root = resolve_pml4 pml4 (vm k) ->
  (forall q, avoid q -> used k q = true) ->
  page mod 4096 = 0 -> start <= page -> page + 4096 * Z.of_nat n <= 2 ^ 47 ->
  0 <= remaining <= filesz -> fo = offset + (filesz - remaining) ->
  (0 < remaining -> Z.max vaddr page = vaddr + (filesz - remaining)) -> (remaining = 0 -> vaddr + filesz <= Z.max vaddr page) ->
  segment_pages n file pml4 flags start (vaddr mod 4096) page remaining fo k = Some r ->
  rest k r.2 /\ (r.1 = 0 \/ r.1 = - Errno.E_NO_MEM) /\ exists own', vm_ok r.2 root own' /\ kept k r.2 own own'
  /\ (r.1 = 0 -> pages_loaded avoid k r.2 root own' n page flags (segment_byte data vaddr offset filesz)).
Proof.
  intros Hfl Hpres Hv0 Ho0 Hfs Hov start. induction n as [|n IH]; intros k root own page remaining fo r Hfile Hok Hroot Hav Hal Hst Hlim Hrem Hfo Hpos Hzero.
  { intros [= <-]. split; [apply rest_refl|]. split; [by left|]. exists own. split_and!; [done|apply kept_refl|].
    intros _. split; [lia|done]. }
  cbn [segment_pages]. destruct (fresh_page page flags pml4 k) as [[[err ph] k1]|] eqn:Ef; cbn [mbind option_bind]; [|done].
  destruct (fresh_page_spec k root own page flags pml4 _ Hok Hroot Hfl Hpres Ef) as (Hrest1 & Hcase). cbn [fst snd] in *.
  destruct Hcase as [(-> & Hok1 & Hkept1)|(pg & own1 & -> & -> & Hpg & Hunused & Hused & Hown1 & Hok1 & Hkept1 & Hzeroes & Htr)].
  { intros [= <-]. split; [done|]. split; [by right|]. exists own. split_and!; [done|done|]. intros [=]. }
  change (0 <? 0) with false. cbn iota.
  assert (start = vaddr / 4096 * 4096) as Estart by done.
  assert (0 <= page) as Hpage0 by zlia. assert (page = start \/ vaddr <= page) as Hge by zlia.
  assert (page +64 4096 = page + 4096) as Ew by (apply wrap_small; lia). change 0x1000 with 4096 in *.
  set (page_off := if page =? start then vaddr mod 4096 else 0).
  assert (page + page_off = Z.max vaddr page) as Hpo.
  { unfold page_off. destruct (Z.eqb_spec page start) as [->|Hne]; [zlia|]. lia. }
  assert (0 <= page_off < 4096) as Hpor by (unfold page_off; destruct (page =? start); zlia).
  assert (forall k2, rest k k2 -> vm_ok k2 root own1 -> (forall q, used k2 q = used k1 q) ->
    only_run pg 1 (phys k1) (phys k2) -> (forall va, walk_at (phys k2) 3 root va = walk_at (phys k1) 3 root va) ->
    (forall x, 0 <= x < 4096 -> get8 (phys k2) (pg * 4096 + x) = segment_byte data vaddr offset filesz (page + x)) ->
    forall rem' fo', segment_pages n file pml4 flags start (vaddr mod 4096) (page + 4096) rem' fo' k2 = Some r ->
    0 <= rem' <= filesz -> fo' = offset + (filesz - rem') ->
    (0 < rem' -> page + 4096 = vaddr + (filesz - rem')) -> (rem' = 0 -> vaddr + filesz <= page + 4096) ->
    rest k r.2 /\ (r.1 = 0 \/ r.1 = - Errno.E_NO_MEM) /\ exists own', vm_ok r.2 root own' /\ kept k r.2 own own'
      /\ (r.1 = 0 -> pages_loaded avoid k r.2 root own' (Datatypes.S n) page flags (segment_byte data vaddr offset filesz))) as Hnext.
  { intros k2 Hrest2 Hok2 Hu2 Honly Hw2 Hbytes rem' fo' Hseg Hr1 Hr2 Hr3 Hr4.
    assert (Z.max vaddr (page + 4096) = page + 4096) as Hmax by zlia.
    destruct (IH k2 root own1 (page + 4096) rem' fo' r) as (Hrest3 & Herr & own' & Hok3 & Hkept3 & Hl); try done.
    - by eapply file_reads_rest.
    - rewrite Hroot. unfold resolve_pml4. by destruct Hrest2 as (_ & _ & _ & _ & _ & ->).
    - intros q Hq. rewrite Hu2. destruct Hkept1 as (_ & Hku & _). auto.
    - zlia.
    - lia.
    - lia.
    - by rewrite Hmax.
    - by rewrite Hmax.
    - split; [by eapply rest_trans|]. split; [done|]. exists own'. 
      assert (kept k k2 own own1) as Hkept2.
      { destruct Hkept1 as (? & Hku & Hkw). split_and!; [done|intros q Hq; rewrite Hu2; auto|]. intros q Hq Hqo.
        destruct (Hkw q Hq Hqo) as [? Hww]. split; [done|]. intros j Hj.
        rewrite (only_run_other _ _ _ _ _ _ Honly); [by apply Hww| |done]. assert (q <> pg) by (intros ->; congruence). lia. }
      split_and!; [done|by eapply kept_trans|]. intros E0. specialize (Hl E0).
      apply (pages_loaded_cons avoid k k2 r.2 root own1 own' n page flags); try done.
      + exists pg. split_and!; [by rewrite Hu2|intros Hq; rewrite (Hav pg Hq) in Hunused; done|done| |done]. rewrite Hw2, Htr. by rewrite decide_True.
      + intros va. rewrite !Hw2, !Htr. rewrite (decide_True (P := vpath page = vpath page)) by done. done. }
  destruct (Z.ltb_spec 0 remaining) as [Hr0|Hr0].
  - set (space := 4096 - page_off). set (copy := if remaining <? space then remaining else space).
    assert (copy = Z.min remaining space) as Hcopy by (unfold copy; destruct (Z.ltb_spec remaining space); lia).
    destruct (read_phys file fo (pg * 4096 + page_off) copy k1) as [[[err got] k2]|] eqn:Er; cbn [mbind option_bind]; [|done].
    destruct (read_phys_spec k1 root own1 file len data fo pg 1 (pg * 4096 + page_off) copy (err, got, k2)
      (file_reads_rest _ _ _ _ _ Hrest1 Hfile) Hok1) as (Hrest2 & E0 & Hok2 & Hu2 & Honly & Hw2 & Hb2);
      [intros q Hq; by replace q with pg by lia|lia|lia|lia|lia|exact Er|]. cbn [fst snd] in *. injection E0 as -> _.
    change (0 <? 0) with false. cbn iota. rewrite Ew.
    assert (fo +64 copy = fo + copy) as -> by (apply wrap_small; lia). intros Hseg.
    apply (Hnext k2 ltac:(by eapply rest_trans) Hok2 Hu2 Honly Hw2) with (rem' := remaining - copy) (fo' := fo + copy);
      try done; try lia.
    intros x Hx. rewrite Hb2, Hzeroes by done. unfold segment_byte. specialize (Hpos Hr0).
    destruct ((vaddr <=? page + x) && (page + x <? vaddr + filesz)) eqn:Ein.
    + destruct (_ && (pg * 4096 + x <? _)) eqn:Ein2; [f_equal; lia|]. rewrite (fl_end _ _ _ _ Hfile); [done|lia].
    + by replace (_ && (pg * 4096 + x <? _)) with false by lia.
  - rewrite Ew. intros Hseg. assert (remaining = 0) as Hr by lia. specialize (Hzero Hr).
    apply (Hnext k1 Hrest1 Hok1 ltac:(done) (only_run_refl _ _ _) ltac:(done)) with (rem' := remaining) (fo' := fo); try done; try lia.
    intros x Hx. rewrite Hzeroes by done. unfold segment_byte. by replace (_ && _) with false by lia.
Qed.

(** ** All segments *)

Lemma page_down_eq x : 0 <= x < 2 ^ 64 -> page_down x = x / 4096 * 4096.
Proof. intros Hx. unfold page_down. change 0xFFF with (2 ^ 12 - 1). by rewrite land_mask_down by lia. Qed.

Definition seg_vaddr (bias : Z) (ph : Elf64_Phdr) : Z := p_vaddr ph + bias.
Definition seg_start (bias : Z) (ph : Elf64_Phdr) : Z := seg_vaddr bias ph / 4096 * 4096.
Definition seg_end (bias : Z) (ph : Elf64_Phdr) : Z := (seg_vaddr bias ph + p_memsz ph + 4095) / 4096 * 4096.
Definition seg_pages (bias : Z) (ph : Elf64_Phdr) : nat := Z.to_nat ((seg_end bias ph - seg_start bias ph) / 4096).

(** A segment that lies below the user stack and inside a file offset range. *)
Record seg_ok (bias : Z) (ph : Elf64_Phdr) : Prop := {
  so_vaddr : 0 <= seg_vaddr bias ph;
  so_memsz : 0 <= p_memsz ph;
  so_end : seg_vaddr bias ph + p_memsz ph + 4095 <= user_stack_base;
  so_file : 0 <= p_offset ph /\ 0 <= p_filesz ph /\ p_offset ph + p_filesz ph < 2 ^ 64;
}.

Lemma segment_flags_ok ph : addr_of (segment_flags ph) = 0 /\ is_present (segment_flags ph) = true.
Proof. unfold segment_flags. destruct (Z.land (p_flags ph) PF_W =? 0), (Z.land (p_flags ph) PF_X =? 0); done. Qed.

Definition seg_byte (data : Z -> Z) (bias : Z) (ph : Elf64_Phdr) : Z -> Z :=
  segment_byte data (seg_vaddr bias ph) (p_offset ph) (p_filesz ph).

Lemma load_segment_spec avoid file len data pml4 bias max_end ph k root own r :
  seg_ok bias ph -> file_reads k file len data -> vm_ok k root own -> root = resolve_pml4 pml4 (vm k) ->
  (forall q, avoid q -> used k q = true) ->
  load_segment file pml4 bias max_end ph k = Some r ->
  rest k r.2 /\ (r.1.1 = 0 \/ r.1.1 = - Errno.E_NO_MEM) /\ exists own', vm_ok r.2 root own' /\ kept k r.2 own own'
  /\ (r.1.1 = 0 -> r.1.2 = (if seg_start bias ph <? seg_end bias ph then Z.max max_end (seg_end bias ph) else max_end)
       /\ pages_loaded avoid k r.2 root own' (seg_pages bias ph) (seg_start bias ph) (segment_flags ph) (seg_byte data bias ph)).
Proof.
  intros [Hv Hm He (Ho & Hf & Hof)] Hfile Hok Hroot Hav. unfold load_segment. unfold seg_pages, seg_byte, seg_start, seg_end.
  assert (user_stack_base < 2 ^ 47) as Hus by done.
  assert (p_vaddr ph +64 bias = seg_vaddr bias ph) as -> by (apply wrap_small; unfold seg_vaddr in *; lia).
  rewrite (wrap_small 64 (seg_vaddr bias ph + p_memsz ph + 0xFFF)), !page_down_eq by lia. change 0x1000 with 4096. change 0xFFF with 4095.
  assert (Z.land (seg_vaddr bias ph) 4095 = seg_vaddr bias ph mod 4096) as -> by (change 4095 with (Z.ones 12); by rewrite Z.land_ones by lia).
  set (start := seg_vaddr bias ph / 4096 * 4096). set (fin := (seg_vaddr bias ph + p_memsz ph + 4095) / 4096 * 4096).
  destruct (segment_flags_ok ph) as [Hfl Hpr].
  destruct (segment_pages _ _ _ _ _ _ _ _ _ k) as [[err k']|] eqn:Es; cbn [mbind option_bind]; [|done].
  intros [= <-]. cbn [fst snd].
  destruct (segment_pages_spec avoid file len data pml4 (segment_flags ph) (seg_vaddr bias ph) (p_offset ph) (p_filesz ph)
    Hfl Hpr Hv Ho Hf Hof (Z.to_nat ((fin - start) / 4096)) k root own start (p_filesz ph) (p_offset ph) (err, k') Hfile Hok Hroot Hav) as (Hrest & Herr & own' & Hok' & Hkept & Hl);
    [unfold start; zlia|done|unfold start, fin in *; zlia|lia|lia|unfold start; zlia|unfold start; zlia|exact Es|].
  cbn [fst snd] in *. split; [done|]. split; [done|]. exists own'. split; [done|]. split; [done|]. intros E. split; [done|]. by apply Hl.
Qed.

(** A loaded segment: every page of it is mapped with its flags and bytes. *)
Definition segment_loaded avoid k root own (data : Z -> Z) (bias : Z) (ph : Elf64_Phdr) : Prop :=
  forall i, 0 <= i < Z.of_nat (seg_pages bias ph) ->
    page_holds avoid k root own (seg_start bias ph + 4096 * i) (split_flags (segment_flags ph))
      (fun x => seg_byte data bias ph (seg_start bias ph + 4096 * i + x)).

Definition loadable (ph : Elf64_Phdr) : bool := p_type ph =? PT_LOAD.

(** Two segments without a common page. *)
Definition apart (bias : Z) (a b : Elf64_Phdr) : Prop :=
  loadable a = true -> loadable b = true -> seg_end bias a <= seg_start bias b \/ seg_end bias b <= seg_start bias a.

(** The buffer with the program headers: in use and outside the page tables. *)
Definition buffer_ok (avoid : Z -> Prop) k own (a n : Z) : Prop :=
  forall x, a <= x < a + n -> avoid (x / 4096) /\ used k (x / 4096) = true /\ own !! (x / 4096 * 4096) = None.

Lemma buffer_kept avoid k k' own own' a n : kept k k' own own' -> buffer_ok avoid k own a n ->
  buffer_ok avoid k' own' a n /\ forall x, a <= x < a + n -> get8 (phys k') x = get8 (phys k) x.
Proof.
  intros (_ & Hu & Hw) Hb. split.
  - intros x Hx. destruct (Hb x Hx) as (B1 & B2 & B3). split_and!; [done|auto|]. by apply Hw.
  - intros x Hx. destruct (Hb x Hx) as (_ & B2 & B3). apply (get8_words _ _ (x / 4096)); [by apply Hw|zlia].
Qed.

Lemma pld_ext n m m' a : (forall x, a <= x < a + Z.of_nat n -> get8 m' x = get8 m x) -> pld n m' a = pld n m a.
Proof.
  revert a. induction n as [|n IH]; intros a Hx; [done|]. cbn [pld]. rewrite (Hx a) by lia. rewrite IH; [done|]. intros x Hr. apply Hx. lia.
Qed.

Lemma parse_phdr_ext m m' a : (forall x, a <= x < a + sizeof_Phdr -> get8 m' x = get8 m x) -> parse_phdr m' a = parse_phdr m a.
Proof.
  intros Hx. unfold parse_phdr, sizeof_Phdr in *. f_equal; apply pld_ext; intros x Hr; apply Hx; lia.
Qed.

(** The program headers that a buffer holds. *)
Fixpoint phdrs_at (m : arr Z) (a : Z) (n : nat) : list Elf64_Phdr :=
  match n with
  | O => []
  | Datatypes.S n => parse_phdr m a :: phdrs_at m (a + sizeof_Phdr) n
  end.

Lemma phdrs_at_ext m m' n : forall a, (forall x, a <= x < a + sizeof_Phdr * Z.of_nat n -> get8 m' x = get8 m x) -> phdrs_at m' a n = phdrs_at m a n.
Proof.
  induction n as [|n IH]; intros a Hx; [done|]. cbn [phdrs_at]. unfold sizeof_Phdr in *. f_equal.
  - apply parse_phdr_ext. unfold sizeof_Phdr. intros x Hr. apply Hx. lia.
  - apply IH. intros x Hr. apply Hx. lia.
Qed.

(** The break after the segments: the highest end of a page range. *)
Definition brk_after (bias max_end : Z) (phs : list Elf64_Phdr) : Z :=
  foldl (fun m ph => if loadable ph && (seg_start bias ph <? seg_end bias ph) then Z.max m (seg_end bias ph) else m) max_end phs.

Lemma segment_loaded_kept avoid k k' root own own' data bias ph :
  kept k k' own own' ->
  (forall i, 0 <= i < Z.of_nat (seg_pages bias ph) -> walk_at (phys k') 3 root (seg_start bias ph + 4096 * i) = walk_at (phys k) 3 root (seg_start bias ph + 4096 * i)) ->
  segment_loaded avoid k root own data bias ph -> segment_loaded avoid k' root own' data bias ph.
Proof. intros Hk Hw Hl i Hi. eapply page_holds_kept; [done|by apply Hw|by apply Hl]. Qed.

Lemma load_segments_spec avoid file len data pml4 bias n : forall k root own phdrs max_end r,
  let phs := phdrs_at (phys k) phdrs n in
  Forall (fun ph => loadable ph = true -> seg_ok bias ph) phs -> ForallOrdPairs (apart bias) phs ->
  file_reads k file len data -> vm_ok k root own -> root = resolve_pml4 pml4 (vm k) ->
  (forall q, avoid q -> used k q = true) -> buffer_ok avoid k own phdrs (sizeof_Phdr * Z.of_nat n) ->
  load_segments n file pml4 bias phdrs max_end k = Some r ->
  rest k r.2 /\ (r.1.1 = 0 \/ r.1.1 = - Errno.E_NO_MEM) /\ exists own', vm_ok r.2 root own' /\ kept k r.2 own own'
  /\ (r.1.1 = 0 -> r.1.2 = brk_after bias max_end phs
       /\ Forall (fun ph => loadable ph = true -> segment_loaded avoid r.2 root own' data bias ph) phs
       /\ forall va, 0 <= va < 2 ^ 47 ->
            Forall (fun ph => loadable ph = true -> va < seg_start bias ph \/ seg_end bias ph <= va) phs ->
            walk_at (phys r.2) 3 root va = walk_at (phys k) 3 root va).
Proof.
  induction n as [|n IH]; intros k root own phdrs max_end r phs Hseg Hap Hfile Hok Hroot Hav Hbuf.
  { intros [= <-]. split; [apply rest_refl|]. split; [by left|]. exists own. split_and!; [done|apply kept_refl|]. by intros _. }
  cbn [load_segments]. subst phs. cbn [phdrs_at] in *. apply Forall_cons in Hseg as [Hs Hss]. inversion_clear Hap as [|? ? Ha Has].
  set (ph := parse_phdr (phys k) phdrs) in *. set (phs := phdrs_at (phys k) (phdrs + sizeof_Phdr) n) in *.
  fold (phys k). fold ph. assert (buffer_ok avoid k own (phdrs + sizeof_Phdr) (sizeof_Phdr * Z.of_nat n)) as Hbuf1.
  { intros x Hx. apply Hbuf. unfold sizeof_Phdr in *. lia. }
  destruct (p_type ph =? PT_LOAD) eqn:Ety; cbn [negb].
  2:{ intros Hl. destruct (IH k root own (phdrs + sizeof_Phdr) max_end r) as (Hr & He & own' & Hok' & Hk' & Hres); try done.
      split; [done|]. split; [done|]. exists own'. split; [done|]. split; [done|]. intros E. destruct (Hres E) as (E1 & E2 & E3).
      fold phs in E1, E2, E3. split_and!.
      - rewrite E1. unfold brk_after. cbn [foldl]. by replace (loadable ph) with false by done.
      - apply Forall_cons. split; [unfold loadable; by rewrite Ety|done].
      - intros va Hva [_ Hf]%Forall_cons. by apply E3. }
  destruct (load_segment file pml4 bias max_end ph k) as [[[err me] k1]|] eqn:El; cbn [mbind option_bind]; [|done].
  destruct (load_segment_spec avoid file len data pml4 bias max_end ph k root own (err, me, k1) (Hs Ety) Hfile Hok Hroot Hav El)
    as (Hr1 & Herr & own1 & Hok1 & Hk1 & Hl1). cbn [fst snd] in *.
  destruct Herr as [->| ->].
  2:{ intros [= <-]. split; [done|]. split; [by right|]. exists own1. split_and!; [done|done|]. intros [=]. }
  change (0 <? 0) with false. cbn iota. destruct (Hl1 eq_refl) as [-> [Hpages Hother]].
  destruct (buffer_kept _ _ _ _ _ _ _ Hk1 Hbuf) as [Hbuf2 Hsame].
  assert (phdrs_at (phys k1) (phdrs + sizeof_Phdr) n = phs) as Ephs.
  { apply phdrs_at_ext. intros x Hx. apply Hsame. unfold sizeof_Phdr in *. lia. }
  intros Hl. destruct (IH k1 root own1 (phdrs + sizeof_Phdr) (if seg_start bias ph <? seg_end bias ph then Z.max max_end (seg_end bias ph) else max_end) r)
    as (Hr2 & He & own' & Hok' & Hk2 & Hres); rewrite ?Ephs; try done.
  - by eapply file_reads_rest.
  - rewrite Hroot. unfold resolve_pml4. by destruct Hr1 as (_ & _ & _ & _ & _ & ->).
  - intros q Hq. apply Hk1. by apply Hav.
  - intros x Hx. apply Hbuf2. unfold sizeof_Phdr in *. lia.
  - rewrite Ephs in Hres. split; [by eapply rest_trans|]. split; [done|]. exists own'. split; [done|]. split; [by eapply kept_trans|].
    intros E. destruct (Hres E) as (E1 & E2 & E3).
    assert (forall va, 0 <= va < 2 ^ 47 -> va < seg_start bias ph \/ seg_end bias ph <= va -> walk_at (phys k1) 3 root va = walk_at (phys k) 3 root va) as Hother'.
    { intros va Hva Hout. apply Hother; [done|]. destruct (Hs Ety) as [_ ? _ _]. unfold seg_pages.
      assert (seg_start bias ph <= seg_end bias ph) by (unfold seg_start, seg_end; zlia).
      unfold seg_start, seg_end in *. zlia. }
    split_and!.
    + rewrite E1. unfold brk_after. cbn [foldl]. by replace (loadable ph) with true by done.
    + apply Forall_cons. split; [|done]. intros _. apply (segment_loaded_kept avoid k1 r.2 root own1 own'); [done| |exact Hpages].
      intros i Hi. destruct (Hs Ety) as [Hv Hm He' _]. unfold seg_pages in Hi.
      assert (user_stack_base < 2 ^ 47) by done.
      assert (seg_start bias ph + 4096 * i < seg_end bias ph /\ 0 <= seg_start bias ph + 4096 * i < 2 ^ 47) as [Hlt Hr]
        by (unfold seg_start, seg_end in *; zlia).
      apply E3; [done|]. eapply Forall_impl; [exact Ha|]. intros ph' Hap' Hl'. destruct (Hap' Ety Hl') as [?|Hle]; [by left; lia|right].
      unfold seg_start in *. lia.
    + intros va Hva [Hf1 Hf2]%Forall_cons. rewrite E3 by done. apply Hother'; [done|]. by apply Hf1.
Qed.

(** ** The stack *)

Lemma stack_flags_ok : addr_of stack_flags = 0 /\ is_present stack_flags = true.
Proof. done. Qed.

Lemma stack_loop_spec avoid pml4 n : forall k root own page last r,
  vm_ok k root own -> root = resolve_pml4 pml4 (vm k) -> (forall q, avoid q -> used k q = true) ->
  page mod 4096 = 0 -> 0 <= page -> page + 4096 * Z.of_nat n <= 2 ^ 47 ->
  stack_loop n pml4 page last k = Some r ->
  rest k r.2 /\ (r.1.1 = 0 \/ r.1.1 = - Errno.E_NO_MEM) /\ exists own', vm_ok r.2 root own' /\ kept k r.2 own own'
  /\ (r.1.1 = 0 -> pages_loaded avoid k r.2 root own' n page stack_flags (fun _ => 0)
       /\ (if bool_decide (n = O) then r.1.2 = last
           else exists f, walk_at (phys r.2) 3 root (page + 4096 * (Z.of_nat n - 1)) = Some (r.1.2, f))).
Proof.
  induction n as [|n IH]; intros k root own page last r Hok Hroot Hav Hal Hp Hlim.
  { intros [= <-]. split; [apply rest_refl|]. split; [by left|]. exists own. split_and!; [done|apply kept_refl|].
    intros _. split; [|done]. split; [lia|done]. }
  cbn [stack_loop]. destruct stack_flags_ok as [Hfl Hpr].
  destruct (fresh_page page stack_flags pml4 k) as [[[err ph] k1]|] eqn:Ef; cbn [mbind option_bind]; [|done].
  destruct (fresh_page_spec k root own page stack_flags pml4 _ Hok Hroot Hfl Hpr Ef) as (Hr1 & Hcase). cbn [fst snd] in *.
  destruct Hcase as [(-> & Hok1 & Hk1)|(pg & own1 & -> & -> & Hpg & Hun & Hus & Hown1 & Hok1 & Hk1 & Hz & Htr)].
  { intros [= <-]. split; [done|]. split; [by right|]. exists own. split_and!; [done|done|]. intros [=]. }
  change (0 <? 0) with false. cbn iota. change 0x1000 with 4096. intros Hl.
  destruct (IH k1 root own1 (page + 4096) (pg * 4096) r) as (Hr2 & Herr & own' & Hok' & Hk2 & Hres); try done; [| |zlia|lia|lia|].
  - rewrite Hroot. unfold resolve_pml4. by destruct Hr1 as (_ & _ & _ & _ & _ & ->).
  - intros q Hq. apply Hk1. by apply Hav.
  - split; [by eapply rest_trans|]. split; [done|]. exists own'. split; [done|]. split; [by eapply kept_trans|].
    intros E. destruct (Hres E) as [Hpl Hlast]. rewrite bool_decide_false by done.
    assert (pages_loaded avoid k r.2 root own' (Datatypes.S n) page stack_flags (fun _ => 0)) as Hpl'.
    { apply (pages_loaded_cons avoid k k1 r.2 root own1 own' n page stack_flags); try done.
      - exists pg. split_and!; [done|intros Hq; rewrite (Hav pg Hq) in Hun; done|done| |done]. rewrite Htr. by rewrite decide_True.
      - intros va. rewrite !Htr. by rewrite (decide_True (P := vpath page = vpath page)). }
    split; [done|]. destruct (decide (n = O)) as [En|Hn]; [rewrite bool_decide_true in Hlast by done|rewrite bool_decide_false in Hlast by done].
    + rewrite Hlast, En in *. exists (split_flags stack_flags). destruct Hpl as [_ Hother].
      replace (page + 4096 * (Z.of_nat 1 - 1)) with page by lia. rewrite Hother by lia. rewrite Htr. by rewrite decide_True.
    + destruct Hlast as [f Hf]. exists f. rewrite <- Hf. f_equal. lia.
Qed.

Lemma get8_zero_word m w x : w mod 8 = 0 -> get8 (aset m w 0) x = if (w <=? x) && (x <? w + 8) then 0 else get8 m x.
Proof.
  intros Hw. unfold get8. rewrite aget_aset. case_decide as E.
  - replace ((w <=? x) && (x <? w + 8)) with true by zlia. by rewrite Z.shiftr_0_l.
  - by replace ((w <=? x) && (x <? w + 8)) with false by zlia.
Qed.

Lemma init_stack_spec k root own pg :
  vm_ok k root own -> own !! (pg * 4096) = None ->
  vm_ok (init_stack (pg * 4096) k) root own
  /\ only_run pg 1 (phys k) (phys (init_stack (pg * 4096) k))
  /\ (forall va, walk_at (phys (init_stack (pg * 4096) k)) 3 root va = walk_at (phys k) 3 root va)
  /\ forall x, get8 (phys k) x = 0 -> get8 (phys (init_stack (pg * 4096) k)) x = 0.
Proof.
  intros [Hwf Htree] Hown.
  assert (only_run pg 1 (phys k) (phys (init_stack (pg * 4096) k))) as Ho.
  { intros w Hw. unfold init_stack, phys. cbn. rewrite !aget_aset_ne; [done|..]; intros E;
      [apply (Hw pg 511)|apply (Hw pg 510)|apply (Hw pg 509)]; unfold entry_addr; lia. }
  destruct (AddressSpace.tree_ext (phys k) (phys (init_stack (pg * 4096) k)) (used k) (used k) root own Htree) as [Htree' Hwalk]; [|done|].
  { intros t p j Hot Hj. unfold ent. destruct (t_page _ _ _ _ Htree t p Hot) as (_ & q & -> & _).
    apply (only_run_other _ _ _ _ _ _ Ho); [|done]. intros Hq. replace q with pg in Hot by lia. congruence. }
  split_and!; [done|done|done|]. intros x Hx. unfold init_stack, phys. cbn. rewrite !get8_zero_word by zlia.
  by repeat case_match.
Qed.

(** ** Giving back the buffer *)

Lemma free_pages_holds k root own b n :
  vm_ok k root own -> 0 <= b -> 0 < n -> b + n <= max_managed_pages ->
  (forall q, b <= q < b + n -> own !! (q * 4096) = None) ->
  vm_ok (Process.free_pages (b * 4096) n k) root own
  /\ phys (Process.free_pages (b * 4096) n k) = phys k
  /\ forall avoid va flags c, (forall q, b <= q < b + n -> avoid q) ->
       page_holds avoid k root own va flags c -> page_holds (fun _ => False) (Process.free_pages (b * 4096) n k) root own va flags c.
Proof.
  intros [Hwf Htree] Hb Hn Hmax Hown. set (k' := Process.free_pages (b * 4096) n k).
  destruct (pa_free_law (lget (mem k)) b n Hwf) as [Hwf' Hu]; [lia|lia|unfold max_managed_pages in *; lia|].
  assert (lget (mem k') = pa_free (lget (mem k)) (b * 4096) n) as Em by (unfold k', mem; cbn; by rewrite lget_lput).
  assert (forall q, ~ (b <= q < b + n) -> used k' q = used k q) as Hus.
  { intros q Hq. unfold used. rewrite Em. apply Hu. apply not_true_iff_false. by rewrite in_run_true. }
  destruct (AddressSpace.tree_ext (phys k) (phys k') (used k) (used k') root own Htree) as [Htree' Hwalk]; [done| |].
  { intros page p Ho Hpu. rewrite Hus; [done|]. intros Hq. rewrite (Hown page Hq) in Ho. done. }
  split_and!; [split; [by rewrite Em|done]|done|].
  intros avoid va flags c Hav (pg & Hpg & Hna & Ho & Hw & Hc). exists pg.
  split_and!; [rewrite Hus; [done|]; by intros Hq%Hav|by intros []|done|done|done].
Qed.

(** ** The whole file *)

(** Little-endian fields of the file, its header and its program headers. *)
Fixpoint fld (n : nat) (data : Z -> Z) (a : Z) : Z :=
  match n with
  | O => 0
  | Datatypes.S n => data a + 256 * fld n data (a + 1)
  end.

Definition file_ehdr (data : Z -> Z) : Elf64_Ehdr :=
  Build_Ehdr ((fun i => data (Z.of_nat i)) <$> seq 0 16) (fld 2 data 16) (fld 2 data 18) (fld 4 data 20) (fld 8 data 24) (fld 8 data 32)
    (fld 2 data 54) (fld 2 data 56).

Definition file_phdr (data : Z -> Z) (a : Z) : Elf64_Phdr :=
  Build_Phdr (fld 4 data a) (fld 4 data (a + 4)) (fld 8 data (a + 8)) (fld 8 data (a + 16)) (fld 8 data (a + 32)) (fld 8 data (a + 40)).

Fixpoint file_phdrs (data : Z -> Z) (a : Z) (n : nat) : list Elf64_Phdr :=
  match n with
  | O => []
  | Datatypes.S n => file_phdr data a :: file_phdrs data (a + sizeof_Phdr) n
  end.

Lemma fld_range n data a : (forall x, 0 <= data x < 256) -> 0 <= fld n data a < 2 ^ (8 * Z.of_nat n).
Proof.
  intros Hd. revert a. induction n as [|n IH]; intros a; [done|]. cbn [fld]. specialize (IH (a + 1)). specialize (Hd a).
  replace (8 * Z.of_nat (Datatypes.S n)) with (8 + 8 * Z.of_nat n) by lia. rewrite Z.pow_add_r by lia. lia.
Qed.

Lemma ld_fld n data b a : (forall x, a <= x < a + Z.of_nat n -> aget b x = data x) -> ld n b a = fld n data a.
Proof.
  revert a. induction n as [|n IH]; intros a Hx; [done|]. change (ld (Datatypes.S n) b a) with (aget b a + 256 * ld n b (a + 1)).
  cbn [fld]. rewrite (Hx a) by lia. rewrite IH; [done|]. intros x Hr. apply Hx. lia.
Qed.

Lemma parse_ehdr_file data b : (forall x, 0 <= x < sizeof_Ehdr -> aget b x = data x) -> parse_ehdr b = file_ehdr data.
Proof.
  intros Hx. unfold parse_ehdr, file_ehdr. unfold sizeof_Ehdr in Hx.
  f_equal; try (apply ld_fld; intros x Hr; apply Hx; lia).
  apply list_fmap_ext. intros i j Hj. apply lookup_seq in Hj as [-> Hj]. apply Hx. lia.
Qed.

Lemma pld_fld n data m off d : forall a, (forall x, a <= x < a + Z.of_nat n -> get8 m x = data (off + (x - d))) ->
  pld n m a = fld n data (off + (a - d)).
Proof.
  induction n as [|n IH]; intros a Hx; [done|]. cbn [pld fld]. rewrite (Hx a) by lia. rewrite IH; [|intros x Hr; apply Hx; lia].
  do 3 f_equal. lia.
Qed.

Lemma phdrs_at_file data m off d n : forall a,
  (forall x, a <= x < a + sizeof_Phdr * Z.of_nat n -> get8 m x = data (off + (x - d))) ->
  phdrs_at m a n = file_phdrs data (off + (a - d)) n.
Proof.
  induction n as [|n IH]; intros a Hx; [done|]. cbn [phdrs_at file_phdrs]. unfold sizeof_Phdr in *. f_equal.
  - unfold parse_phdr, file_phdr. f_equal; (rewrite (pld_fld _ data m off d); [f_equal; lia|]); intros x Hr; apply Hx; lia.
  - rewrite IH; [f_equal; lia|]. intros x Hr. apply Hx. lia.
Qed.

Lemma alloc_buffer k root own np ph k1 :
  vm_ok k root own -> 0 < np <= max_managed_pages -> Process.alloc_pages np k = (ph, k1) ->
  rest k k1 /\
  (ph = invalid_physical_address
   \/ (ph <> invalid_physical_address /\ exists b, ph = b * 4096 /\ 0 <= b /\ b + np <= max_managed_pages /\ vm_ok k1 root own
       /\ kept k k1 own own /\ phys k1 = phys k
       /\ forall q, b <= q < b + np -> used k1 q = true /\ own !! (q * 4096) = None)).
Proof.
  intros [Hwf Htree] Hnp. unfold Process.alloc_pages. pose proof (pa_alloc_law (lget (mem k)) np Hwf Hnp) as Hlaw.
  destruct (pa_alloc (lget (mem k)) np) as [r s]. cbn [fst snd] in Hlaw. intros [= <- <-]. split; [by split_and!|].
  destruct Hlaw as [(b & -> & Hb & Hmax & Hfree & Hwf' & Hu)|[= -> ->]]; [right|by left].
  split; [unfold max_managed_pages, page_size, invalid_physical_address, UINT64_MAX in *; lia|].
  exists b. set (k1 := set_mem _ k). assert (lget (mem k1) = s) as Em by (unfold k1, mem; cbn; by rewrite lget_lput).
  assert (forall q, used k1 q = used k q || in_run b np q) as Hus by (intros q; unfold used; by rewrite Em, Hu).
  assert (forall q, used k q = true -> used k1 q = true) as Hmono by (intros q Hq; by rewrite Hus, Hq).
  destruct (AddressSpace.tree_ext (phys k) (phys k1) (used k) (used k1) root own Htree) as [Htree' _]; [done|intros q p _; apply Hmono|].
  split_and!; try done.
  - split; [by rewrite Em|done].
  - intros q Hq. split; [rewrite Hus; apply orb_true_iff; right; by apply in_run_true|].
    destruct (own !! (q * 4096)) as [p|] eqn:Ho; [|done]. destruct (t_page _ _ _ _ Htree _ _ Ho) as (_ & pg & Epg & _ & Hpu).
    replace pg with q in Hpu by lia. unfold used in Hpu. by rewrite Hfree in Hpu.
Qed.

(** The stack, its first words, and giving back the buffer of [np] pages from
    [b]: segments in other frames stay loaded. *)
Lemma finish_spec pml4 k root own b np err last k4 :
  vm_ok k root own -> root = resolve_pml4 pml4 (vm k) ->
  0 <= b -> 0 < np -> b + np <= max_managed_pages -> (forall q, b <= q < b + np -> used k q = true /\ own !! (q * 4096) = None) ->
  stack_loop (Z.to_nat user_stack_pages) pml4 user_stack_base 0 k = Some (err, last, k4) ->
  let k5 := Process.free_pages (b * 4096) np (init_stack last k4) in
  rest k k4 /\ rest k k5 /\ (err = 0 \/ err = - Errno.E_NO_MEM)
  /\ (err = 0 -> exists own', vm_ok k5 root own'
       /\ (forall va flags c, 0 <= va < user_stack_base -> page_holds (fun q => b <= q < b + np) k root own va flags c ->
             page_holds (fun _ => False) k5 root own' va flags c)
       /\ (forall i, 0 <= i < user_stack_pages ->
             page_holds (fun _ => False) k5 root own' (user_stack_base + 4096 * i) (split_flags stack_flags) (fun _ => 0))
       /\ (forall va, 0 <= va < user_stack_base -> walk_at (phys k5) 3 root va = walk_at (phys k) 3 root va)).
Proof.
  intros Hok Hroot Hb Hnp Hmax Hbuf Est k5.
  destruct (stack_loop_spec (fun q => used k q = true) pml4 (Z.to_nat user_stack_pages) k root own user_stack_base 0 (err, last, k4))
    as (Hrest & Herr & own' & Hok4 & Hk4 & Hres); try done. cbn [fst snd] in *.
  assert (rest k (init_stack last k4)) as Hrest' by done. split_and!; try done. intros ->.
  destruct (Hres eq_refl) as [[Hst Hother] (f & Hlast)]. change (Z.of_nat (Z.to_nat user_stack_pages)) with user_stack_pages in *.
  destruct (Hst (user_stack_pages - 1)) as (pg & Hpu & Hpn & Hpo & Hpw & _); [done|].
  assert (last = pg * 4096) as -> by congruence.
  destruct (init_stack_spec k4 root own' pg Hok4 Hpo) as (Hok5 & Ho5 & Hw5 & Hz5).
  set (k6 := init_stack (pg * 4096) k4) in *. destruct Hk4 as (Hsub & Hu4 & Hw4).
  assert (forall q, b <= q < b + np -> own' !! (q * 4096) = None) as Hbo.
  { intros q Hq. destruct (Hbuf q Hq) as [Hq1 Hq2]. by destruct (Hw4 q Hq1 Hq2). }
  destruct (free_pages_holds k6 root own' b np Hok5 Hb Hnp Hmax Hbo) as (Hok7 & Eph7 & Hfree).
  assert (user_stack_base < 2 ^ 47) as Hus by done.
  exists own'. split; [done|]. split_and!.
  - intros va flags c Hva (pg' & Hu' & Hav & Ho' & Hw' & Hc'). apply (Hfree (fun q => b <= q < b + np)); [done|].
    assert (pg' <> pg) as Hne by (intros ->; done). destruct (Hw4 pg' Hu' Ho') as [Ho2 Hwords].
    exists pg'. split_and!; [by apply Hu4|done|done| |].
    + rewrite Hw5, Hother; [done|lia|lia].
    + intros x Hx. rewrite <- Hc' by done. apply (get8_words _ _ pg'); [|lia]. intros j Hj.
      rewrite (only_run_other _ _ _ _ _ _ Ho5) by (done || lia). by apply Hwords.
  - intros i Hi. apply (Hfree (fun q => used k q = true)); [intros q Hq; by apply Hbuf|].
    destruct (Hst i Hi) as (pg' & Hu' & Hav & Ho' & Hw' & Hc'). exists pg'. split_and!; [done|done|done|by rewrite Hw5|].
    intros x Hx. by apply Hz5, Hc'.
  - intros va Hva. change (phys k5) with (phys (Process.free_pages (b * 4096) np k6)). rewrite Eph7, Hw5. apply Hother; lia.
Qed.

(** A program that the loader accepts: a 64-bit x86 header, program headers
    inside the file, and loadable segments that lie below the stack and share
    no page. *)
Record program_ok (len : Z) (data : Z -> Z) : Prop := {
  pr_len : sizeof_Ehdr <= len;
  pr_header : header_ok (file_ehdr data) = true;
  pr_phentsize : e_phentsize (file_ehdr data) = sizeof_Phdr;
  pr_phdrs : e_phoff (file_ehdr data) + sizeof_Phdr * e_phnum (file_ehdr data) <= len;
  pr_segs : Forall (fun ph => loadable ph = true -> seg_ok (load_bias (file_ehdr data)) ph)
              (file_phdrs data (e_phoff (file_ehdr data)) (Z.to_nat (e_phnum (file_ehdr data))));
  pr_apart : ForallOrdPairs (apart (load_bias (file_ehdr data)))
              (file_phdrs data (e_phoff (file_ehdr data)) (Z.to_nat (e_phnum (file_ehdr data))));
}.

(** The program in memory: every loadable segment byte by byte, zeroes after
    its file part, and 16 zeroed, writable, non-executable stack pages. *)
Record program_loaded k root own (data : Z -> Z) : Prop := {
  pl_segments : Forall (fun ph => loadable ph = true -> segment_loaded (fun _ => False) k root own data (load_bias (file_ehdr data)) ph)
                  (file_phdrs data (e_phoff (file_ehdr data)) (Z.to_nat (e_phnum (file_ehdr data))));
  pl_stack : forall i, 0 <= i < user_stack_pages ->
    page_holds (fun _ => False) k root own (user_stack_base + 4096 * i) (split_flags stack_flags) (fun _ => 0);
}.

(** C5. Loading a well-formed program: unless memory runs out, the loader succeeds;
    then every page of every loadable segment is mapped with the segment's
    permissions and holds the bytes of the file, and zeroes behind them, the
    stack is mapped and zeroed, the entry point, the initial stack pointer and
    the program break are those of the file, every other page of the address
    space translates as before, and processes, threads, scheduler and
    filesystem are unchanged. *)
Theorem elf64_load_spec ehdr0 file len data pml4 k root own r :
  file <> 0 -> file_reads k file len data -> program_ok len data ->
  vm_ok k root own -> root = resolve_pml4 pml4 (vm k) ->
  elf64_load ehdr0 file pml4 k = Some r ->
  rest k r.2
  /\ (r.1.1 = - Errno.E_NO_MEM
      \/ (r.1.1 = 0
          /\ r.1.2 = Build_ElfLoadResult (e_entry (file_ehdr data) +64 load_bias (file_ehdr data)) (user_stack_top - 24)
                       (brk_after (load_bias (file_ehdr data)) 0
                          (file_phdrs data (e_phoff (file_ehdr data)) (Z.to_nat (e_phnum (file_ehdr data)))))
          /\ exists own', vm_ok r.2 root own' /\ program_loaded r.2 root own' data
             /\ forall va, 0 <= va < user_stack_base ->
                  Forall (fun ph => loadable ph = true -> va < seg_start (load_bias (file_ehdr data)) ph \/ seg_end (load_bias (file_ehdr data)) ph <= va)
                    (file_phdrs data (e_phoff (file_ehdr data)) (Z.to_nat (e_phnum (file_ehdr data)))) ->
                  walk_at (phys r.2) 3 root va = walk_at (phys k) 3 root va)).
Proof.
  intros Hf0 Hfile [Hlen Hhdr Hent Hphl Hsegs Hapart] Hok Hroot. unfold elf64_load. replace (file =? 0) with false by lia.
  destruct (fl_read _ _ _ _ Hfile (mem k) 0 ehdr0 sizeof_Ehdr ltac:(lia) ltac:(done)) as (b & Eb & Hb).
  change (node_fs (fs_view k)) with (lput (mem k) (node_fs (fs k))). rewrite Eb. cbn [mbind option_bind].
  replace (Z.max 0 (Z.min sizeof_Ehdr (len - 0))) with sizeof_Ehdr in * by (unfold sizeof_Ehdr in *; lia).
  change (0 <? 0) with false. rewrite Z.eqb_refl. cbn [orb negb].
  rewrite (parse_ehdr_file data b) by (intros x Hx; rewrite Hb; by replace ((0 <=? x) && (x <? sizeof_Ehdr)) with true by lia).
  pose proof (fld_range 2 data 56 (fl_byte _ _ _ _ Hfile)) as Hnum. change (fld 2 data 56) with (e_phnum (file_ehdr data)) in Hnum.
  pose proof (fld_range 8 data 32 (fl_byte _ _ _ _ Hfile)) as Hoff. change (fld 8 data 32) with (e_phoff (file_ehdr data)) in Hoff.
  remember (file_ehdr data) as h eqn:Eh. rewrite Hhdr, Hent, Z.eqb_refl. cbn [negb].
  set (k0 := put_fs _ k).
  assert (rest k k0) as Hrest0 by (unfold rest, k0; split_and!; try done; intros a; cbn; by rewrite lput_lput).
  assert (mem k0 = mem k) as Em0 by (unfold k0, mem; cbn; by rewrite lget_lput).
  change (2 ^ (8 * Z.of_nat 2)) with 65536 in Hnum. change 0x1000 with 4096. change 0xFFF with 4095. unfold sizeof_Phdr in *.
  set (np := if (e_phnum h * 56 + 4095) / 4096 =? 0 then 1 else (e_phnum h * 56 + 4095) / 4096).
  assert (0 < np <= max_managed_pages /\ e_phnum h * 56 <= np * 4096) as [Hnp Hnp2].
  { unfold np, max_managed_pages. destruct (Z.eqb_spec ((e_phnum h * 56 + 4095) / 4096) 0); zlia. }
  assert (vm_ok k0 root own) as Hok0 by (unfold vm_ok, used; by rewrite Em0).
  destruct (Process.alloc_pages np k0) as [ph k1] eqn:Eal.
  destruct (alloc_buffer k0 root own np ph k1 Hok0 Hnp Eal) as [Hrest1 Hcase].
  destruct Hcase as [->|(Hinv & b0 & -> & Hb0 & Hbmax & Hok1 & Hk1 & Eph1 & Hbuf)].
  { rewrite Z.eqb_refl. intros [= <-]. split; [by eapply rest_trans|by left]. }
  replace (b0 * 4096 =? invalid_physical_address) with false by lia.
  pose proof (rest_trans _ _ _ Hrest0 Hrest1) as Hrest01. pose proof (file_reads_rest _ _ _ _ _ Hrest01 Hfile) as Hfile1.
  destruct (read_phys file (e_phoff h) (b0 * 4096) (e_phnum h * 56) k1) as [[[err got] k2]|] eqn:Erd; cbn [mbind option_bind]; [|done].
  destruct (read_phys_spec k1 root own file len data (e_phoff h) b0 np (b0 * 4096) (e_phnum h * 56) (err, got, k2) Hfile1 Hok1)
    as (Hrest2 & E2 & Hok2 & Hu2 & Honly2 & Hw2 & Hb2); [intros q Hq; by apply Hbuf|lia|lia|lia|lia|exact Erd|].
  cbn [fst snd] in *. replace (Z.max 0 (Z.min (e_phnum h * 56) (len - e_phoff h))) with (e_phnum h * 56) in * by lia.
  injection E2 as -> ->. change (0 <? 0) with false. rewrite Z.eqb_refl. cbn [orb negb].
  set (n := Z.to_nat (e_phnum h)) in *. set (bias := load_bias h) in *. set (phs := file_phdrs data (e_phoff h) n) in *.
  assert (phdrs_at (phys k2) (b0 * 4096) n = phs) as Ephs.
  { assert (phs = file_phdrs data (e_phoff h + (b0 * 4096 - b0 * 4096)) n) as -> by (unfold phs; f_equal; lia).
    apply phdrs_at_file. unfold sizeof_Phdr.
    intros x Hx. rewrite Hb2. by replace (_ && _) with true by (unfold n in *; lia). }
  set (avoid := fun q => b0 <= q < b0 + np).
  destruct (load_segments n file pml4 bias (b0 * 4096) 0 k2) as [[[err max_end] k3]|] eqn:Els; cbn [mbind option_bind]; [|done].
  pose proof (rest_trans _ _ _ Hrest01 Hrest2) as Hrest02.
  assert (resolve_pml4 pml4 (vm k2) = root) as Hroot2 by (rewrite Hroot; unfold resolve_pml4; by destruct Hrest02 as (_ & _ & _ & _ & _ & ->)).
  destruct (load_segments_spec avoid file len data pml4 bias n k2 root own (b0 * 4096) 0 (err, max_end, k3))
    as (Hrest3 & Herr & own3 & Hok3 & Hk3 & Hres3); rewrite ?Ephs; try done.
  { by eapply file_reads_rest. }
  { intros q Hq. rewrite Hu2. by apply Hbuf. }
  { intros x Hx. unfold sizeof_Phdr in Hx. assert (b0 <= x / 4096 < b0 + np) as Hq by (unfold n in *; zlia).
    split; [done|]. rewrite Hu2. by apply Hbuf. }
  cbn [fst snd] in *. pose proof (rest_trans _ _ _ Hrest02 Hrest3) as Hrest03.
  assert (forall k', rest k k' -> rest k (Process.free_pages (b0 * 4096) np k')) as Hrestf by done.
  destruct Herr as [->| ->]; [|intros [= <-]; split; [by apply Hrestf|by left]].
  change (0 <? 0) with false. cbn iota. destruct (Hres3 eq_refl) as (-> & Hsl & Hwo). rewrite Ephs in Hsl, Hwo.
  destruct (stack_loop (Z.to_nat user_stack_pages) pml4 user_stack_base 0 k3) as [[[err last] k4]|] eqn:Est; cbn [mbind option_bind]; [|done].
  assert (resolve_pml4 pml4 (vm k3) = root) as Hroot3 by (rewrite Hroot; unfold resolve_pml4; by destruct Hrest03 as (_ & _ & _ & _ & _ & ->)).
  destruct (finish_spec pml4 k3 root own3 b0 np err last k4) as (Hrest4 & Hrest5 & Herr & Hfin); try done; [lia| |].
  { intros q Hq. destruct Hk3 as (_ & Hku & Hkw). destruct (Hbuf q Hq) as [B1 B2]. rewrite <- Hu2 in B1. split; [by apply Hku|by apply Hkw]. }
  destruct Herr as [->| ->]; [|intros [= <-]; split; [apply Hrestf; by eapply rest_trans|by left]].
  change (0 <? 0) with false. cbn iota. intros [= <-]. cbn [fst snd]. split; [by eapply rest_trans|]. right.
  split; [done|]. split; [by rewrite Ephs|]. destruct (Hfin eq_refl) as (own' & Hok5 & Hpres & Hstack & Hwalk). exists own'. split; [done|]. split.
  - split; [|done]. rewrite <- Eh. fold n bias phs. apply Forall_forall. intros ph' Hin.
    rewrite Forall_forall in Hsegs, Hsl. specialize (Hsegs ph' Hin) as Hso. specialize (Hsl ph' Hin) as Hl'. intros Hld i Hi. apply Hpres; [|by apply Hl'].
    destruct (Hso Hld) as [Hv Hm He _]. unfold seg_pages in Hi. unfold seg_start, seg_end in *. zlia.
  - intros va Hva Hf. rewrite Hwalk by done. rewrite Hwo by (done || (assert (user_stack_base < 2 ^ 47) by done; lia)).
    by rewrite Hw2, Eph1.
Qed.

End Steps.

(** * A concrete program *)

(** 256 pages at 1 MiB; the root table is the page of the kernel image. *)
Definition elf_boot : BootInfo := {|
  kernel_address := {| physical_base := 0x104000; virtual_base := 0xffffffff80000000 |};
  MemoryMap.hhdm_offset := 0xffff800000000000;
  memory_map := {|
    MemoryMap.regions := Some [Region 0 0x9f000 Reserved; Region 0x100000 0x100000 Usable];
    MemoryMap.region_count := 2;
    source_region_at := None |};
|}.
Definition elf_pmm : pmm := Pmm.init 0xffffffff80000000 0xffffffff80002000 elf_boot.

Lemma elf_pmm_wf : pmm_wf elf_pmm.
Proof.
  apply (init_cases _ _ elf_boot 0); [done| |done|done|done]. cbn. intros i Hi.
  assert (i = 0 \/ i = 1) as [-> | ->] by lia; split_and!; vm_compute; first [reflexivity|discriminate].
Qed.

(** A file of 128 bytes: header, one program header, eight bytes of code. *)
Definition elf_bytes : list Z :=
  [0x7F; 69; 76; 70; 2; 1; 1; 0; 0; 0; 0; 0; 0; 0; 0; 0; 2; 0; 0x3E; 0; 1; 0; 0; 0;
   0x78; 0; 0x40; 0; 0; 0; 0; 0; 64; 0; 0; 0; 0; 0; 0; 0] ++ replicate 12 0 ++ [64; 0; 56; 0; 1; 0; 0; 0; 0; 0; 0; 0]
  ++ [1; 0; 0; 0; 5; 0; 0; 0; 0x78; 0; 0; 0; 0; 0; 0; 0; 0x78; 0; 0x40; 0; 0; 0; 0; 0] ++ replicate 8 0
  ++ [8; 0; 0; 0; 0; 0; 0; 0; 16; 0; 0; 0; 0; 0; 0; 0] ++ replicate 8 0 ++ [0x90; 0x91; 0x92; 0x93; 0x94; 0x95; 0x96; 0x97].
Definition elf_data (x : Z) : Z := if 0 <=? x then nth (Z.to_nat x) elf_bytes 0 else 0.

Definition elf_heap : slice pmm := Slice.Slice (afill 0) classes0 (Build_SliceStats 0 0 0 0) 0xffff800000000000 elf_pmm.
Definition elf_file : RamfsFile := Build_RamfsFile 0x4000 [0x50000] 128.
Definition elf_fmem : bmem := foldr (fun i m => aset m (0x50000 + Z.of_nat i) (elf_data (Z.of_nat i))) (afill 0) (seq 0 128).
Definition elf_fs : ramfs (slice pmm) :=
  Ramfs {[0x2000 := Build_Vnode File 1 0x3000 1 0]} ∅ {[0x3000 := elf_file]} elf_fmem elf_heap.
Definition elf_kernel : kernel pmm (slice pmm) (ramfs (slice pmm)) :=
  Kernel empty_tab (afill (Build_Thread 0 0 0 0 0 0))
    (Sched (afill no_task) (afill 0) (DL 0 0 (afill 0) (afill 0)) 1 0 0 (afill false) false (DL 0 0 (afill 0) (afill 0))
       (afill (Build_PerCPU 0 0 0)) (afill 0) 0xffff800000000000 elf_heap)
    (Vmm (afill 0) 0x105000 0 0 elf_pmm)
    (Vfs [] (afill []) 0x1000 true elf_fs).

Lemma elf_data_byte x : 0 <= elf_data x < 256.
Proof.
  unfold elf_data. destruct (0 <=? x); [|lia]. generalize (Z.to_nat x). clear x. intros n.
  destruct (Nat.lt_ge_cases n (length elf_bytes)) as [Hn|Hn]; [|rewrite nth_overflow by done; lia].
  assert (Forall (fun b => 0 <= b < 256) elf_bytes) as Hall by (repeat constructor; lia).
  rewrite Forall_forall in Hall. apply Hall. apply nth_elem_of. done.
Qed.

Lemma elf_data_end x : 128 <= x -> elf_data x = 0.
Proof. intros Hx. unfold elf_data. replace (0 <=? x) with true by lia. apply nth_overflow. change (length elf_bytes) with 128%nat. lia. Qed.

Lemma elf_file_byte x : 0 <= x < 128 -> file_byte elf_file elf_fmem x = Some (elf_data x).
Proof.
  intros Hx.
  assert (forallb (fun n => bool_decide (file_byte elf_file elf_fmem (Z.of_nat n) = Some (elf_data (Z.of_nat n)))) (seq 0 128) = true)
    as Hall by (vm_compute; reflexivity).
  rewrite forallb_forall in Hall. rewrite <- (Z2Nat.id x) by lia. eapply bool_decide_eq_true_1, Hall, in_seq. lia.
Qed.

Lemma elf_file_reads : file_reads elf_kernel 0x2000 128 elf_data.
Proof.
  split; [|apply elf_data_byte|apply elf_data_end]. intros a off buf size Ho Hs n.
  destruct (ramfs_read_cases (lput a elf_fs) 0x2000 (Build_Vnode File 1 0x3000 1 0) elf_file off size buf)
    as (buf' & E & Hb); [reflexivity|reflexivity|done|done|done|].
  exists buf'. split; [exact E|]. intros x. rewrite Hb. fold n. destruct (_ && _) eqn:Ex; [|done].
  change (fmem (lput a elf_fs)) with elf_fmem. rewrite elf_file_byte; [done|]. unfold n in Ex. change (f_size elf_file) with 128 in *. lia.
Qed.

Lemma elf_program_ok : program_ok 128 elf_data.
Proof.
  split; try (vm_compute; (reflexivity || discriminate)).
  - replace (file_phdrs _ _ _) with [Build_Phdr 1 5 0x78 0x400078 8 16] by (vm_compute; reflexivity).
    repeat constructor; vm_compute; first [reflexivity|discriminate].
  - replace (file_phdrs _ _ _) with [Build_Phdr 1 5 0x78 0x400078 8 16] by (vm_compute; reflexivity).
    repeat constructor.
Qed.

Lemma elf_vm_ok : vm_ok elf_kernel 0x105000 {[0x105000 := []]}.
Proof.
  split; [exact elf_pmm_wf|]. split.
  - apply lookup_singleton_eq.
  - intros t p i _ _ _. unfold ent, phys, elf_kernel. cbn [pmem vm]. by rewrite aget_afill.
  - intros t p [<- <-]%lookup_singleton_Some. by left.
  - intros t p [<- <-]%lookup_singleton_Some. split; [cbn; lia|]. exists 0x105.
    split_and!; [done|done|done|vm_compute; reflexivity].
Qed.

Definition elf_loaded : Z * ElfLoadResult * kernel pmm (slice pmm) (ramfs (slice pmm)) :=
  default (0, Build_ElfLoadResult 0 0 0, elf_kernel) (elf64_load (afill 0) 0x2000 0 elf_kernel).

Lemma elf_loads : elf64_load (afill 0) 0x2000 0 elf_kernel = Some elf_loaded.
Proof. apply default_Some. vm_compute. reflexivity. Qed.

Lemma elf_load_ok : elf_loaded.1.1 = 0.
Proof. vm_compute. reflexivity. Qed.

Lemma elf64_load_spec_witness :
  elf_loaded.1 = (0, Build_ElfLoadResult 0x400078 (user_stack_top - 24) 0x401000)
  /\ exists own, program_loaded elf_loaded.2 0x105000 own elf_data.
Proof.
  destruct (elf64_load_spec (afill 0) 0x2000 128 elf_data 0 elf_kernel 0x105000 {[0x105000 := []]} elf_loaded
    ltac:(discriminate) elf_file_reads elf_program_ok elf_vm_ok eq_refl elf_loads)
    as (_ & [E|(_ & E & own & _ & Hl & _)]).
  - rewrite elf_load_ok in E. discriminate E.
  - split; [|by exists own]. rewrite (surjective_pairing elf_loaded.1), E, elf_load_ok. vm_compute. reflexivity.
Defined.
