(* ===== verification/Syscall.v ===== *)
(** System calls: [syscall.cpp], [syscall.hpp], [shared/include/tori/syscall.h],
    and the page-fault path of [idt.cpp] that accesses to user memory take.

    A handler runs on the kernel stack of the calling thread, on the page
    table in CR3.  User memory is what that page table maps; an access that
    the page-fault handler cannot resolve panics ([None]).  A call returns a
    value, leaves the CPU for good, or leaves it in the middle of a loop that
    it goes on with when the thread runs again ([outcome]). *)

From S2P Require Import Prelude MemoryMap Pmm PageAlloc Slice KAlloc DList Task Vmm AddressSpace Bytes KMem VfsBase Ramfs Vfs Keyboard ProcTable ProcTree Process Elf.

Definition SYS_write : Z := 0.
Definition SYS_exit : Z := 1.
Definition SYS_fork : Z := 2.
Definition SYS_exec : Z := 3.
Definition SYS_spawn : Z := 4.
Definition SYS_getpid : Z := 5.
Definition SYS_waitpid : Z := 6.
Definition SYS_getppid : Z := 7.
Definition SYS_read : Z := 8.
Definition SYS_open : Z := 9.
Definition SYS_close : Z := 10.
Definition SYS_lseek : Z := 11.
Definition SYS_brk : Z := 12.
Definition WNOHANG : Z := 1.

Record SyscallFrame := Build_SyscallFrame {
  fr_user_rip : Z; fr_user_rflags : Z; fr_rdi : Z; fr_rsi : Z; fr_rdx : Z; fr_r10 : Z; fr_r8 : Z; fr_r9 : Z;
  fr_rbx : Z; fr_rbp : Z; fr_r12 : Z; fr_r13 : Z; fr_r14 : Z; fr_r15 : Z; fr_rax : Z; fr_user_rsp : Z;
}.

(** What a call finds besides the state of the kernel: the scheduler's inputs,
    CR3, the user stack pointer saved at [gs:8], the addresses of
    [thread_trampoline] and [fork_return], and what its own stack frame held
    (the loader reads a header into it). *)
Record SysEnv := {
  env : Env;
  cr3 : Z;
  gs_user_rsp : Z;
  thread_trampoline : Z;
  fork_return : Z;
  local_ehdr : bmem;
}.

(** [static_cast<int>] of a register, [static_cast<int64_t>] of one. *)
Definition s32 (x : Z) : Z := let y := wrap 32 x in if y <? 2 ^ 31 then y else y - 2 ^ 32.
Definition s64 (x : Z) : Z := let y := wrap 64 x in if y <? 2 ^ 63 then y else y - 2 ^ 64.
(** An [int] returned as [uint64_t]. *)
Definition ret (x : Z) : Z := wrap 64 x.

Definition with_cr3 (c : Z) (t : Task) : Task :=
  {| t_id := t_id t; t_name := t_name t; t_state := t_state t; t_stack := t_stack t;
     t_context := t_context t; t_entry := t_entry t; t_arg := t_arg t;
     t_creation_time := t_creation_time t; t_thread := t_thread t; t_cr3 := c |}.

(** Model-specific registers, by number; [entry]: the address of
    [syscall_entry]. *)
Definition init_syscall (entry : Z) (msr : arr Z) : arr Z :=
  let star := Z.lor (wrap 64 (Z.shiftl 0x08 32)) (wrap 64 (Z.shiftl 0x18 48)) in
  let msr := aset msr 0xC0000080 (Z.lor (aget msr 0xC0000080) 1) in
  let msr := aset msr 0xC0000081 star in
  let msr := aset msr 0xC0000082 entry in
  aset msr 0xC0000084 0x25700.

(** How a call ends.  [Again]: the loop of the call goes round once more when
    the thread runs next. *)
Inductive outcome :=
| Return (v : Z)
| Gone (sw : Switch)
| Again (sw : Switch).

(** The kernel with the keyboard, the terminal and the bytes sent to the
    serial port, last first. *)
Record machine (S A F : Type) := Machine {
  kn : kernel S A F;
  kb : keyboard;
  term : terminal;
  serial : list Z;
}.
Arguments Machine {S A F}.
Arguments kn {S A F}.
Arguments kb {S A F}.
Arguments term {S A F}.
Arguments serial {S A F}.

Section Handlers.
Context {S A F : Type} `{PageRefs S} `{KernelAlloc A} `{VnodeFs F} `{Lens A S} `{Lens F A}.
Implicit Types (k : kernel S A F) (m : machine S A F) (e : SysEnv) (fr : SyscallFrame).

Definition with_kn (k : kernel S A F) m : machine S A F := Machine k (kb m) (term m) (serial m).

(** ** User memory *)

(** The process of the current task, 0 without one. *)
Definition current_process e k : Z :=
  let task := current_task (env e) (sch k) in
  if task =? 0 then 0
  else let thread := t_thread (task_at (sch k) task) in
       if thread =? 0 then 0 else th_process (aget (threads k) thread).

Definition current_user_pml4 e k : Z :=
  let p := current_process e k in
  if negb (p =? 0) then pml4_phys (proc_at (tab k) p) else 0.

(** The page-fault part of [handle_exception]; [None] is the panic. *)
Definition page_fault e (cr2 error_code : Z) k : option (kernel S A F) :=
  let '(ok, v) := handle_cow_fault cr2 error_code (current_user_pml4 e k) (vm_view k) in
  if ok then Some (put_vm v k) else None.

(** The kernel reads a byte; an access to a page that is not present faults
    with error code 0 and is retried when the handler returns. *)
Fixpoint user_byte (tries : nat) e (va : Z) k : option (Z * kernel S A F) :=
  match tries with
  | O => None
  | Datatypes.S tries =>
      match walk_at (pmem (vm k)) 3 (cr3 e) va with
      | Some (pa, _) => Some (get8 (pmem (vm k)) (pa + va mod 4096), k)
      | None => k ← page_fault e va 0 k; user_byte tries e va k
      end
  end.

(** The kernel writes a byte; CR0.WP is set, so that a read-only page faults
    with error code 3 (present, write), an absent one with 2. *)
Fixpoint store_user_byte (tries : nat) e (va b : Z) k : option (kernel S A F) :=
  match tries with
  | O => None
  | Datatypes.S tries =>
      match walk_at (pmem (vm k)) 3 (cr3 e) va with
      | Some (pa, flags) =>
          if is_writable flags then Some (set_phys (set8 (pa + va mod 4096) b) k)
          else k ← page_fault e va 3 k; store_user_byte tries e va b k
      | None => k ← page_fault e va 2 k; store_user_byte tries e va b k
      end
  end.

(** One retry: the handler resolves a fault or panics. *)
Definition tries : nat := 2.

Fixpoint load_user (n : nat) e (va : Z) k : option (list Z * kernel S A F) :=
  match n with
  | O => Some ([], k)
  | Datatypes.S n =>
      '(b, k) ← user_byte tries e va k;
      '(l, k) ← load_user n e (va +64 1) k;
      Some (b :: l, k)
  end.

(** Bytes marked as [untouched] are not written. *)
Definition untouched : Z := -1.
Fixpoint store_user (bs : list Z) e (va : Z) k : option (kernel S A F) :=
  match bs with
  | [] => Some k
  | b :: bs =>
      k ← (if b =? untouched then Some k else store_user_byte tries e va b k);
      store_user bs e (va +64 1) k
  end.

(** A buffer with given bytes, and the first bytes of a buffer. *)
Fixpoint buf_of (i : Z) (l : list Z) (b : bmem) : bmem :=
  match l with [] => b | x :: l => buf_of (i + 1) l (aset b i x) end.
Definition bytes_of (b : bmem) (n : Z) : list Z := (fun i => aget b (Z.of_nat i)) <$> seq 0 (Z.to_nat n).

(** The loop of [copy_string_from_user]: the bytes before the terminator. *)
Fixpoint copy_user_loop (n : nat) e (va : Z) k : option (str * kernel S A F) :=
  match n with
  | O => Some ([], k)
  | Datatypes.S n =>
      '(c, k) ← user_byte tries e va k;
      if c =? 0 then Some ([], k)
      else '(l, k) ← copy_user_loop n e (va +64 1) k; Some (c :: l, k)
  end.

Definition copy_string_from_user e (user_src max_len : Z) k : option (Z * str * kernel S A F) :=
  if user_src =? 0 then Some (- Errno.E_INVALID, [], k)
  else '(s, k) ← copy_user_loop (Z.to_nat (max_len - 1)) e user_src k; Some (0, s, k).

(** ** Files *)

Definition current_fds e k : Z := get_current_fd_table (current_process e k).

Definition sys_write e fr m : option (outcome * machine S A F) :=
  let fd := s32 (fr_rdi fr) in
  let buf := fr_rsi fr in
  let count := fr_rdx fr in
  if (buf +64 count <? buf) || (count =? 0) then Some (Return (ret (- Errno.E_INVALID)), m)
  else
    '(l, k) ← load_user (Z.to_nat count) e buf (kn m);
    '(vfs_err, written, v) ← Vfs.write (current_fds e k) fd (buf_of 0 l (afill 0)) count (fs_view k);
    let m := with_kn (put_fs v k) m in
    if vfs_err =? E_SUCCESS then Some (Return written, m)
    else Some (Return count, Machine (kn m) (kb m) (term m) (rev l ++ serial m)).

(** The loop over [read_line] and [yield]: one round of it. *)
Definition read_stdin e (buf count : Z) m : option (outcome * machine S A F) :=
  '(r, b, t, s) ← read_line (afill 0) 0 count (term m) (kb m);
  match r with
  | Some len =>
      k ← store_user (bytes_of b (len + 1)) e buf (kn m);
      Some (Return len, Machine k s t (serial m))
  | None =>
      let '(sw, sc) := yield (env e) (sch (kn m)) in
      Some (Again sw, Machine (set_sch (fun _ => sc) (kn m)) s t (serial m))
  end.

(** [thread]: the thread of the current task.  What the filesystem writes to
    the buffer goes to user memory. *)
Definition sys_read e (thread : Z) fr m : option (outcome * machine S A F) :=
  let proc := th_process (aget (threads (kn m)) thread) in
  if proc =? 0 then Some (Return (ret (- Errno.E_PERM)), m)
  else
    let fd := s32 (fr_rdi fr) in
    let buf := fr_rsi fr in
    let count := fr_rdx fr in
    if count =? 0 then Some (Return 0, m)
    else if fd =? 0 then read_stdin e buf count m
    else
      let k := kn m in
      '(err, out_read, b, v) ← Vfs.read (current_fds e k) fd (afill untouched) count (fs_view k);
      let k := put_fs v k in
      if err <? 0 then Some (Return (ret err), with_kn k m)
      else
        k ← store_user (bytes_of b out_read) e buf k;
        Some (Return out_read, with_kn k m).

Definition sys_open e fr m : option (outcome * machine S A F) :=
  '(err, path, k) ← copy_string_from_user e (fr_rdi fr) 256 (kn m);
  if err <? 0 then Some (Return (ret err), with_kn k m)
  else
    '(err, fd, v) ← Vfs.open (current_fds e k) 0 (Some path) (wrap 32 (fr_rsi fr)) (fs_view k);
    let m := with_kn (put_fs v k) m in
    if err <? 0 then Some (Return (ret err), m) else Some (Return (ret fd), m).

Definition sys_close e fr m : option (outcome * machine S A F) :=
  let k := kn m in
  '(err, v) ← Vfs.close (current_fds e k) (s32 (fr_rdi fr)) (fs_view k);
  let m := with_kn (put_fs v k) m in
  if err <? 0 then Some (Return (ret err), m) else Some (Return 0, m).

Definition sys_lseek e fr m : option (outcome * machine S A F) :=
  let k := kn m in
  '(err, new_pos, v) ← Vfs.seek (current_fds e k) (s32 (fr_rdi fr)) (s64 (fr_rsi fr)) (s32 (fr_rdx fr)) (fs_view k);
  let m := with_kn (put_fs v k) m in
  if err <? 0 then Some (Return (ret err), m) else Some (Return new_pos, m).

(** ** Processes *)

(** [vnode_unref(file)] *)
Definition unref (file : Z) k : option (kernel S A F) :=
  f ← vn_unref file (node_fs (fs_view k)); Some (put_fs (set_fs f (fs_view k)) k).

Definition set_process (p : Z) (f : Process -> Process) k : kernel S A F := set_tab (update_proc p f) k.

(** The result is an identifier or a negated error. *)
Definition process_spawn e (path : option str) k : option (Z * kernel S A F) :=
  match path with
  | None => Some (- Errno.E_INVALID, k)
  | Some path =>
      '(err, file, v) ← Vfs.resolve 0 (Some path) (fs_view k);
      let k := put_fs v k in
      if err <? 0 then Some (- Errno.E_NO_ENTRY, k)
      else
        let '(pml4, v) := create_user_pml4 (vm_view k) in
        let k := put_vm v k in
        if pml4 =? 0 then k ← unref file k; Some (- Errno.E_NO_MEM, k)
        else
          let '(proc, k) := process_create pml4 0 k in
          if proc =? 0 then
            let k := free_pages pml4 1 k in
            k ← unref file k; Some (- Errno.E_NO_MEM, k)
          else
            '(err, res, k) ← elf64_load (local_ehdr e) file pml4 k;
            k ← unref file k;
            if err <? 0 then Some (err, set_process proc (with_pstate ProcessState.Dead) k)
            else
              let '(thread, k) := thread_create (thread_trampoline e) proc (entry res) (stack_top res) k in
              if thread =? 0 then Some (- Errno.E_NO_MEM, set_process proc (with_pstate ProcessState.Dead) k)
              else
                let k := set_process proc (with_brk (elf_brk_base res) (elf_brk_base res)) k in
                let k := set_process proc (with_thread thread) k in
                let k := set_sch (sched_enqueue thread) k in
                Some (s32 (pid (proc_at (tab k) proc)), k)
  end.

(** [thread->task.state = Dead; block();] *)
Definition die e (thread : Z) m : option (outcome * machine S A F) :=
  let k := set_sch (set_state thread Task.Dead) (kn m) in
  let '(sw, sc) := block (env e) (sch k) in
  let m := with_kn (set_sch (fun _ => sc) k) m in
  Some (match sw with Returns => Return 0 | _ => Gone sw end, m).

Definition sys_exit e (thread : Z) fr m : option (outcome * machine S A F) :=
  let proc := th_process (aget (threads (kn m)) thread) in
  if proc =? 0 then die e thread m
  else
    let k := set_process proc (with_status ProcessState.Zombie (s32 (fr_rdi fr))) (kn m) in
    init ← find_init_process (tab k);
    t ← (if negb (init =? 0) && negb (init =? proc) then reparent_children proc init (tab k) else Some (tab k));
    let k := set_tab (fun _ => t) k in
    let par := parent (proc_at (tab k) proc) in
    let waiter := wait_task (proc_at (tab k) par) in
    let k := if negb (par =? 0) && negb (waiter =? 0)
             then set_process par (with_wait 0) (set_sch (wake waiter) k) else k in
    die e thread (with_kn k m).

(** The words of a frame, in the order of the structure. *)
Definition frame_words fr : list Z :=
  [fr_user_rip fr; fr_user_rflags fr; fr_rdi fr; fr_rsi fr; fr_rdx fr; fr_r10 fr; fr_r8 fr; fr_r9 fr;
   fr_rbx fr; fr_rbp fr; fr_r12 fr; fr_r13 fr; fr_r14 fr; fr_r15 fr; fr_rax fr; fr_user_rsp fr].
Definition sizeof_SyscallFrame : Z := 128.

Fixpoint put_words (a : Z) (ws : list Z) (mem : arr Z) : arr Z :=
  match ws with [] => mem | w :: ws => put_words (a +64 8) ws (aset mem a w) end.

(** The frame with [rax = 0] and the user stack pointer at the top of the
    child's kernel stack, a context that returns to [fork_return] below. *)
Definition fork_stack e fr (thread : Z) (s : sched A) : sched A :=
  let top := stk_top (t_stack (task_at s thread)) in
  let sp := top -64 sizeof_SyscallFrame in
  let child := Build_SyscallFrame (fr_user_rip fr) (fr_user_rflags fr) (fr_rdi fr) (fr_rsi fr) (fr_rdx fr) (fr_r10 fr)
    (fr_r8 fr) (fr_r9 fr) (fr_rbx fr) (fr_rbp fr) (fr_r12 fr) (fr_r13 fr) (fr_r14 fr) (fr_r15 fr) 0 (gs_user_rsp e) in
  let s := set_stack_mem (put_words sp (frame_words child)) s in
  let s := set_stack_mem (fun mem => aset mem (sp -64 8) (fork_return e)) s in
  let s := set_stack_mem (fun mem => put_words (sp -64 56) (replicate 6 0) mem) s in
  update_task thread (with_context (sp -64 56)) s.

Definition sys_fork e (thread : Z) fr m : option (outcome * machine S A F) :=
  let k := kn m in
  let par := th_process (aget (threads k) thread) in
  if par =? 0 then Some (Return (ret (- Errno.E_PERM)), m)
  else
    let '(child_pml4, v) := clone_address_space (pml4_phys (proc_at (tab k) par)) (vm_view k) in
    let k := put_vm v k in
    if child_pml4 =? 0 then Some (Return (ret (- Errno.E_NO_MEM)), with_kn k m)
    else
      let '(child, k) := process_create child_pml4 par k in
      if child =? 0 then
        let k := put_vm (free_address_space child_pml4 (vm_view k)) k in
        Some (Return (ret (- Errno.E_NO_MEM)), with_kn k m)
      else
        let k := set_fds child (aget (fd_tables (fs k)) par) k in
        let '(child_thread, k) := thread_create (thread_trampoline e) child (fr_user_rip fr) (gs_user_rsp e) k in
        if child_thread =? 0 then
          let k := set_process child (with_pstate ProcessState.Dead) k in
          let k := put_vm (free_address_space child_pml4 (vm_view k)) k in
          Some (Return (ret (- Errno.E_NO_MEM)), with_kn k m)
        else
          let k := set_sch (fork_stack e fr child_thread) k in
          let k := set_process child (with_thread child_thread) k in
          let k := set_sch (sched_enqueue child_thread) k in
          Some (Return (pid (proc_at (tab k) child)), with_kn k m).

Definition sys_exec e (thread : Z) fr m : option (outcome * machine S A F) :=
  let k := kn m in
  let proc := th_process (aget (threads k) thread) in
  if proc =? 0 then Some (Return (ret (- Errno.E_PERM)), m)
  else
    '(err, path, k) ← copy_string_from_user e (fr_rdi fr) 256 k;
    if err <? 0 then Some (Return (ret err), with_kn k m)
    else
      '(err, file, v) ← Vfs.resolve 0 (Some path) (fs_view k);
      let k := put_fs v k in
      if err <? 0 then Some (Return (ret (- Errno.E_NO_ENTRY)), with_kn k m)
      else
        let '(new_pml4, v) := create_user_pml4 (vm_view k) in
        let k := put_vm v k in
        if new_pml4 =? 0 then k ← unref file k; Some (Return (ret (- Errno.E_NO_MEM)), with_kn k m)
        else
          '(err, res, k) ← elf64_load (local_ehdr e) file new_pml4 k;
          k ← unref file k;
          if err <? 0 then
            let k := put_vm (free_address_space new_pml4 (vm_view k)) k in
            Some (Return (ret err), with_kn k m)
          else
            let k := put_vm (free_address_space (pml4_phys (proc_at (tab k) proc)) (vm_view k)) k in
            let k := set_process proc (with_pml4 new_pml4) k in
            let k := set_process proc (with_brk (elf_brk_base res) (elf_brk_base res)) k in
            let x := aget (threads k) thread in
            let k := set_thread thread (Build_Thread (th_process x) (stack_top res) (entry res) (user_rsp0 x) (th_next x) (th_prev x)) k in
            let k := set_sch (update_task thread (with_cr3 new_pml4)) k in
            Some (Return 0, with_kn k m).

Definition sys_spawn e fr m : option (outcome * machine S A F) :=
  '(err, path, k) ← copy_string_from_user e (fr_rdi fr) 256 (kn m);
  if err <? 0 then Some (Return (ret err), with_kn k m)
  else '(id, k) ← process_spawn e (Some path) k; Some (Return (ret id), with_kn k m).

(** [target_pid <= 0 || static_cast<int>(child->pid) == target_pid] *)
Definition wanted (target : Z) (x : Process) : bool := (target <=? 0) || (s32 (pid x) =? target).

(** The first loop of [waitpid]: the zombie found, 0 without one. *)
Fixpoint find_zombie (fuel : nat) (target child : Z) (t : proctab) : option Z :=
  match fuel with
  | O => None
  | Datatypes.S fuel =>
      if child =? 0 then Some 0
      else if wanted target (proc_at t child) then
        if bool_decide (p_state (proc_at t child) = ProcessState.Zombie) then Some child
        else if 0 <? target then Some 0
        else find_zombie fuel target (aget (child_next t) child) t
      else find_zombie fuel target (aget (child_next t) child) t
  end.

(** The second loop: is there a child to wait for. *)
Fixpoint has_children (fuel : nat) (target child : Z) (t : proctab) : option bool :=
  match fuel with
  | O => None
  | Datatypes.S fuel =>
      if child =? 0 then Some false
      else if wanted target (proc_at t child) then Some true
      else has_children fuel target (aget (child_next t) child) t
  end.

(** The four bytes of an [int]. *)
Definition int_bytes (x : Z) : list Z := (fun i => Z.land (Z.shiftr (wrap 32 x) (8 * Z.of_nat i)) 255) <$> seq 0 4.

(** One round of the loop. *)
Definition sys_waitpid e (thread : Z) fr m : option (outcome * machine S A F) :=
  let k := kn m in
  let proc := th_process (aget (threads k) thread) in
  if proc =? 0 then Some (Return (ret (- Errno.E_PERM)), m)
  else
    let target := s32 (fr_rdi fr) in
    let status_ptr := fr_rsi fr in
    let options := s32 (fr_rdx fr) in
    found ← find_zombie list_fuel target (aget (child_head (tab k)) proc) (tab k);
    if negb (found =? 0) then
      k ← (if negb (status_ptr =? 0)
           then store_user (int_bytes (exit_status (proc_at (tab k) found))) e status_ptr k else Some k);
      let child_pid := s32 (pid (proc_at (tab k) found)) in
      Some (Return (ret child_pid), with_kn (reap_process found k) m)
    else
      has ← has_children list_fuel target (aget (child_head (tab k)) proc) (tab k);
      if negb has then Some (Return (ret (- Errno.E_CHILD)), m)
      else if negb (Z.land options WNOHANG =? 0) then Some (Return 0, m)
      else
        let k := set_process proc (with_wait (current_task (env e) (sch k))) k in
        let '(sw, sc) := block (env e) (sch k) in
        Some (Again sw, with_kn (set_sch (fun _ => sc) k) m).

Definition sys_getpid (thread : Z) m : Z :=
  let p := th_process (aget (threads (kn m)) thread) in
  if negb (p =? 0) then pid (proc_at (tab (kn m)) p) else 0.

Definition sys_getppid (thread : Z) m : Z :=
  let p := th_process (aget (threads (kn m)) thread) in
  let par := parent (proc_at (tab (kn m)) p) in
  if negb (p =? 0) && negb (par =? 0) then pid (proc_at (tab (kn m)) par) else 0.

(** The loop of [brk] over [n] pages. *)
Fixpoint brk_loop (n : nat) (pml4 page : Z) k : option (Z * kernel S A F) :=
  match n with
  | O => Some (0, k)
  | Datatypes.S n =>
      '(err, _, k) ← fresh_page page stack_flags pml4 k;
      if err <? 0 then Some (err, k) else brk_loop n pml4 (page + 0x1000) k
  end.

Definition page_up (x : Z) : Z := page_down (x +64 0xFFF).

Definition sys_brk (thread : Z) fr m : option (outcome * machine S A F) :=
  let k := kn m in
  let proc := th_process (aget (threads k) thread) in
  if proc =? 0 then Some (Return (ret (- Errno.E_PERM)), m)
  else
    let new_brk := fr_rdi fr in
    let x := proc_at (tab k) proc in
    if new_brk =? 0 then Some (Return (brk x), m)
    else if new_brk <? brk_base x then Some (Return (brk x), m)
    else
      let old_end := page_up (brk x) in
      let new_end := page_up new_brk in
      '(err, k) ← brk_loop (Z.to_nat ((new_end - old_end) / 0x1000)) (pml4_phys x) old_end k;
      if err <? 0 then Some (Return (ret err), with_kn k m)
      else
        let k := set_process proc (fun x => with_brk new_brk (brk_base x) x) k in
        Some (Return new_brk, with_kn k m).

Definition handle_syscall e (number : Z) fr m : option (outcome * machine S A F) :=
  let task := current_task (env e) (sch (kn m)) in
  let thread := t_thread (task_at (sch (kn m)) task) in
  if (task =? 0) || (thread =? 0) then Some (Return (ret (- Errno.E_PERM)), m)
  else if number =? SYS_write then sys_write e fr m
  else if number =? SYS_exit then sys_exit e thread fr m
  else if number =? SYS_fork then sys_fork e thread fr m
  else if number =? SYS_exec then sys_exec e thread fr m
  else if number =? SYS_spawn then sys_spawn e fr m
  else if number =? SYS_getpid then Some (Return (sys_getpid thread m), m)
  else if number =? SYS_waitpid then sys_waitpid e thread fr m
  else if number =? SYS_getppid then Some (Return (sys_getppid thread m), m)
  else if number =? SYS_read then sys_read e thread fr m
  else if number =? SYS_open then sys_open e fr m
  else if number =? SYS_close then sys_close e fr m
  else if number =? SYS_lseek then sys_lseek e fr m
  else if number =? SYS_brk then sys_brk thread fr m
  else Some (Return (ret (- Errno.E_INVALID)), m).

End Handlers.
