(* ===== verification/SysTree.v ===== *)
(** What system calls do to the process tree.

    Reading and writing user memory, loading a program and using files leave
    the process table, the threads and the scheduler alone ([quiet]); the
    remaining steps of a handler are operations on the table.  Together: every
    system call, whatever its arguments, keeps the tree of processes
    consistent. *)

From S2P Require Import Prelude MemoryMap Pmm PageAlloc Slice KAlloc DList Task Vmm AddressSpace Bytes KMem VfsBase Ramfs Vfs Keyboard ProcTable ProcTree Process Elf Syscall.

(** Case distinction on the condition at the head of a run. *)
Ltac branch := cbv zeta; lazymatch goal with |- (if ?b then _ else _) = _ -> _ => destruct b end.

(** The kernel's objects and its page frames come out of one pool: handing
    out frames does not disturb the objects. *)
Class SharedPages (A S : Type) `{PageRefs S} `{KernelAlloc A} `{Lens A S} := {
  sp_wf : forall a live, ka_wf a live -> pa_wf (lget a);
  sp_alloc : forall a live n, ka_wf a live -> 0 < n <= max_managed_pages ->
    ka_wf (lput (pa_alloc (lget a) n).2 a) live;
  sp_retain : forall a live x, ka_wf a live -> ka_wf (lput (pa_retain (lget a) x) a) live;
}.

(** The slice allocator takes its slices out of the frames in use. *)
#[export] Instance slice_shared {S} `{PageRefs S} : SharedPages (slice S) S.
Proof.
  split.
  - intros a live (own & frees & Hwf & _). exact (w_pages _ _ _ _ Hwf).
  - intros a live n Hwf Hn. pose proof (ka_pages_law a live n Hwf Hn) as Hl. cbn in *. unfold slice_alloc_pages in Hl.
    by destruct (pa_alloc (pages a) n).
  - intros a live x (own & frees & Hwf & Hlive). exists own, frees. split; [|done].
    destruct (pa_retain_law (pages a) x (w_pages _ _ _ _ Hwf)) as [Hps Hu].
    destruct Hwf. split; cbn; try done. intros q i Hq. rewrite Hu. by eapply w_own.
Qed.

(** Looking up a name may allocate: the objects that the kernel holds stay
    allocated. *)
Class LookupMemory (F A : Type) `{VnodeFs F} `{KernelAlloc A} `{Lens F A} := {
  lookup_mem : forall v name f err r f' live, ka_wf (lget f) live -> op_lookup v name f = Some (err, r, f') ->
    exists live', live ⊆ live' /\ ka_wf (lget f') live';
}.

Section Quiet.
Context {S A F : Type} `{PageRefs S} `{KernelAlloc A} `{VnodeFs F} `{Lens A S} `{Lens F A}.
Implicit Types (k : kernel S A F) (e : SysEnv).

Definition quiet k k' : Prop :=
  tab k' = tab k /\ threads k' = threads k /\ forall a, set_heap a (sch k') = set_heap a (sch k).

Lemma quiet_refl k : quiet k k.
Proof. by split_and!. Qed.

Lemma quiet_trans k1 k2 k3 : quiet k1 k2 -> quiet k2 k3 -> quiet k1 k3.
Proof. intros (? & ? & E1) (? & ? & E2). split_and!; [congruence|congruence|]. intros a. by rewrite E2, E1. Qed.

Lemma quiet_put_vm k v : quiet k (put_vm v k).
Proof. by split_and!. Qed.
Lemma quiet_put_fs k v : quiet k (put_fs v k).
Proof. by split_and!. Qed.
Lemma quiet_set_phys k f : quiet k (set_phys f k).
Proof. by split_and!. Qed.
Lemma quiet_alloc k n r k' : Process.alloc_pages n k = (r, k') -> quiet k k'.
Proof. unfold Process.alloc_pages. destruct (pa_alloc _ _). intros [= _ <-]. by split_and!. Qed.
Lemma quiet_free k a n : quiet k (Process.free_pages a n k).
Proof. by split_and!. Qed.

#[local] Hint Resolve quiet_refl quiet_put_vm quiet_put_fs quiet_set_phys quiet_free : quiet.

Lemma quiet_page_fault e cr2 code k k' : page_fault e cr2 code k = Some k' -> quiet k k'.
Proof. unfold page_fault. destruct (handle_cow_fault _ _ _ _) as [[] v]; [|done]. intros [= <-]. auto with quiet. Qed.

Lemma quiet_user_byte n e va k r : user_byte n e va k = Some r -> quiet k r.2.
Proof.
  revert k. induction n as [|n IH]; intros k; cbn [user_byte]; [done|].
  destruct (walk_at _ _ _ _) as [[pa fl]|]; [intros [= <-]; auto with quiet|].
  destruct (page_fault _ _ _ _) as [k1|] eqn:E; cbn; [|done]. intros Hr. eapply quiet_trans; [by eapply quiet_page_fault|by apply IH].
Qed.

Lemma quiet_store_user_byte n e va b k k' : store_user_byte n e va b k = Some k' -> quiet k k'.
Proof.
  revert k. induction n as [|n IH]; intros k; cbn [store_user_byte]; [done|].
  destruct (walk_at _ _ _ _) as [[pa fl]|]; [destruct (is_writable fl); [intros [= <-]; auto with quiet|]|];
    (destruct (page_fault _ _ _ _) as [k1|] eqn:E; cbn; [|done]; intros Hr;
     eapply quiet_trans; [by eapply quiet_page_fault|by apply IH]).
Qed.

Lemma quiet_load_user n e va k r : load_user n e va k = Some r -> quiet k r.2.
Proof.
  revert va k r. induction n as [|n IH]; intros va k r; cbn [load_user]; [intros [= <-]; auto with quiet|].
  destruct (user_byte _ _ _ _) as [[b k1]|] eqn:E1; cbn; [|done].
  destruct (load_user n _ _ _) as [[l k2]|] eqn:E2; cbn; [|done]. intros [= <-].
  eapply quiet_trans; [by apply (quiet_user_byte _ _ _ _ _ E1)|by apply (IH _ _ _ E2)].
Qed.

Lemma quiet_store_user bs e va k k' : store_user bs e va k = Some k' -> quiet k k'.
Proof.
  revert va k. induction bs as [|b bs IH]; intros va k; cbn [store_user]; [intros [= <-]; auto with quiet|].
  destruct (b =? untouched); cbn [mbind option_bind]; [apply IH|].
  destruct (store_user_byte _ _ _ _ _) as [k1|] eqn:E1; cbn; [|done]. intros Hr.
  eapply quiet_trans; [by eapply quiet_store_user_byte|by eapply IH].
Qed.

Lemma quiet_copy_user n e va k r : copy_user_loop n e va k = Some r -> quiet k r.2.
Proof.
  revert va k r. induction n as [|n IH]; intros va k r; cbn [copy_user_loop]; [intros [= <-]; auto with quiet|].
  destruct (user_byte _ _ _ _) as [[b k1]|] eqn:E1; cbn; [|done]. pose proof (quiet_user_byte _ _ _ _ _ E1).
  destruct (b =? 0); [by intros [= <-]|].
  destruct (copy_user_loop n _ _ _) as [[l k2]|] eqn:E2; cbn; [|done]. intros [= <-].
  eapply quiet_trans; [done|by apply (IH _ _ _ E2)].
Qed.

Lemma quiet_copy_string e a n k r : copy_string_from_user e a n k = Some r -> quiet k r.2.
Proof.
  unfold copy_string_from_user. destruct (a =? 0); [intros [= <-]; auto with quiet|].
  destruct (copy_user_loop _ _ _ _) as [[l k1]|] eqn:E; cbn; [|done]. intros [= <-]. by apply (quiet_copy_user _ _ _ _ _ E).
Qed.

(** ** The loader *)

Lemma quiet_fresh_page page fl pml4 k r : fresh_page page fl pml4 k = Some r -> quiet k r.2.
Proof.
  unfold fresh_page, map_user. destruct (Process.alloc_pages 1 k) as [ph k1] eqn:E. pose proof (quiet_alloc _ _ _ _ E).
  destruct (ph =? _); [by intros [= <-]|]. destruct (map_page _ _ _ _ _); cbn; [|done]. intros [= <-].
  eapply quiet_trans; [done|]. by split_and!.
Qed.

Lemma quiet_read_phys file off a n k r : read_phys file off a n k = Some r -> quiet k r.2.
Proof. unfold read_phys. destruct (op_read _ _ _ _ _) as [[[[err got] b] f]|]; cbn; [|done]. intros [= <-]. by split_and!. Qed.

Lemma quiet_segment_pages n file pml4 fl ps fo page rem off k r :
  segment_pages n file pml4 fl ps fo page rem off k = Some r -> quiet k r.2.
Proof.
  revert page rem off k. induction n as [|n IH]; intros page rem off k; cbn [segment_pages]; [intros [= <-]; auto with quiet|].
  destruct (fresh_page _ _ _ _) as [[[err ph] k1]|] eqn:E1; cbn [mbind option_bind]; [|done].
  pose proof (quiet_fresh_page _ _ _ _ _ E1) as Q1. cbn [snd] in Q1.
  destruct (err <? 0); [by intros [= <-]|]. destruct (0 <? rem); [|intros Hr; by eapply quiet_trans; [|by eapply IH]].
  match goal with |- context [read_phys ?a ?b ?c ?d ?e] => destruct (read_phys a b c d e) as [[[err2 got] k2]|] eqn:E2 end;
    cbn [mbind option_bind]; [|done].
  pose proof (quiet_read_phys _ _ _ _ _ _ E2) as Q2. cbn [snd] in Q2. pose proof (quiet_trans _ _ _ Q1 Q2).
  destruct (err2 <? 0); [by intros [= <-]|]. intros Hr. by eapply quiet_trans; [|by eapply IH].
Qed.

Lemma quiet_load_segments n file pml4 bias a mx k r : load_segments n file pml4 bias a mx k = Some r -> quiet k r.2.
Proof.
  revert a mx k. induction n as [|n IH]; intros a mx k; cbn [load_segments]; [intros [= <-]; auto with quiet|].
  destruct (negb _); [apply IH|]. unfold load_segment.
  match goal with |- context [segment_pages ?a ?b ?c ?d ?e ?f ?g ?h ?i ?j] =>
    destruct (segment_pages a b c d e f g h i j) as [[err k1]|] eqn:E1 end; cbn [mbind option_bind]; [|done].
  pose proof (quiet_segment_pages _ _ _ _ _ _ _ _ _ _ _ E1) as Q1. cbn [snd] in Q1.
  destruct (err <? 0); [by intros [= <-]|]. intros Hr. by eapply quiet_trans; [|by eapply IH].
Qed.

Lemma quiet_stack_loop n pml4 page l k r : stack_loop n pml4 page l k = Some r -> quiet k r.2.
Proof.
  revert page l k. induction n as [|n IH]; intros page l k; cbn [stack_loop]; [intros [= <-]; auto with quiet|].
  destruct (fresh_page _ _ _ _) as [[[err ph] k1]|] eqn:E1; cbn [mbind option_bind]; [|done].
  pose proof (quiet_fresh_page _ _ _ _ _ E1) as Q1. cbn [snd] in Q1.
  destruct (err <? 0); [by intros [= <-]|]. intros Hr. by eapply quiet_trans; [|by eapply IH].
Qed.

Lemma quiet_brk_loop n pml4 page k r : brk_loop n pml4 page k = Some r -> quiet k r.2.
Proof.
  revert page k. induction n as [|n IH]; intros page k; cbn [brk_loop]; [intros [= <-]; auto with quiet|].
  destruct (fresh_page _ _ _ _) as [[[err ph] k1]|] eqn:E1; cbn [mbind option_bind]; [|done].
  pose proof (quiet_fresh_page _ _ _ _ _ E1) as Q1. cbn [snd] in Q1.
  destruct (err <? 0); [by intros [= <-]|]. intros Hr. by eapply quiet_trans; [|by eapply IH].
Qed.

Lemma quiet_elf64_load b file pml4 k r : elf64_load b file pml4 k = Some r -> quiet k r.2.
Proof.
  unfold elf64_load. destruct (file =? 0); [intros [= <-]; auto with quiet|].
  destruct (op_read _ _ _ _ _) as [[[[err got] b'] f]|]; cbn [mbind option_bind]; [|done].
  set (k0 := put_fs _ k). assert (quiet k k0) as Q0 by (apply quiet_put_fs).
  do 3 (branch; [by intros [= <-]|]).
  cbv zeta. match goal with |- context [Process.alloc_pages ?n ?k] => destruct (Process.alloc_pages n k) as [ph k1] eqn:E1 end.
  pose proof (quiet_trans _ _ _ Q0 (quiet_alloc _ _ _ _ E1)) as Q1.
  branch; [by intros [= <-]|].
  match goal with |- context [read_phys ?a ?b ?c ?d ?e] => destruct (read_phys a b c d e) as [[[err2 got2] k2]|] eqn:E2 end;
    cbn [mbind option_bind]; [|done].
  pose proof (quiet_trans _ _ _ Q1 (quiet_read_phys _ _ _ _ _ _ E2)) as Q2. cbn [snd] in Q2.
  branch; [intros [= <-]; eapply quiet_trans; [exact Q2|apply quiet_free]|].
  destruct (load_segments _ _ _ _ _ _ _) as [[[err3 mx] k3]|] eqn:E3; cbn [mbind option_bind]; [|done].
  pose proof (quiet_trans _ _ _ Q2 (quiet_load_segments _ _ _ _ _ _ _ _ E3)) as Q3. cbn [snd] in Q3.
  branch; [intros [= <-]; eapply quiet_trans; [exact Q3|apply quiet_free]|].
  destruct (stack_loop _ _ _ _ _) as [[[err4 last] k4]|] eqn:E4; cbn [mbind option_bind]; [|done].
  pose proof (quiet_trans _ _ _ Q3 (quiet_stack_loop _ _ _ _ _ _ E4)) as Q4. cbn [snd] in Q4.
  branch; intros [= <-]; eapply quiet_trans; [exact Q4|apply quiet_free|exact Q4|by split_and!].
Qed.

Lemma quiet_unref file k k' : unref file k = Some k' -> quiet k k'.
Proof. unfold unref. destruct (vn_unref _ _); cbn; [|done]. intros [= <-]. auto with quiet. Qed.

(** A new thread changes no process. *)
Lemma thread_create_tab tr p en st k : tab (thread_create tr p en st k).2 = tab k.
Proof.
  unfold thread_create. destruct (KAlloc.kalloc _ _ _) as [th a]. case_match; [done|].
  destruct (Process.alloc_pages _ _) as [ph k1] eqn:E. apply quiet_alloc in E as (E & _). cbn in E.
  case_match; cbn; exact E.
Qed.

End Quiet.

(** * Page frames handed out by cloning an address space *)

Section Frames.
Context {S : Type} `{PageRefs S} (P : S -> Prop).
Hypothesis P_alloc : forall s, P s -> P (pa_alloc s 1).2.
Hypothesis P_retain : forall s x, P s -> P (pa_retain s x).
Implicit Types (s : vmm S).

Lemma create_user_pml4_frames s : P (frames s) -> P (frames (create_user_pml4 s).2).
Proof.
  intros Hp. unfold create_user_pml4. destruct (_ =? 0); [done|]. pose proof (P_alloc _ Hp).
  destruct (pa_alloc (frames s) 1) as [r fr]. by destruct (r =? _).
Qed.

(** A clone that succeeds has only taken and retained frames. *)
Lemma clone_table_frames d : forall src s,
  P (frames s) -> (clone_table d src s).1 <> 0 -> P (frames (clone_table d src s).2).
Proof.
  induction d as [|d IH]; intros src s Hp; cbn [clone_table]; pose proof (P_alloc _ Hp) as Ha;
    destruct (pa_alloc (frames s) 1) as [dst fr]; (destruct (dst =? invalid_physical_address); [done|]);
    match goal with |- (?f table_entries 0 ?x).1 <> 0 -> _ =>
      cut (forall n i y, P (frames y) -> (f n i y).1 <> 0 -> P (frames (f n i y).2)); [intros Hl; by apply Hl|] end;
    clear s Hp fr Ha; induction n as [|n IHn]; intros i s Ha; [done| |done|]; cbn beta iota fix.
  - destruct (negb _); [by apply IHn|]. apply IHn. unfold clone_leaf. by destruct (is_writable _); apply P_retain.
  - destruct (negb _); [by apply IHn|]. destruct (is_huge _); [by apply IHn|].
    specialize (IH (addr_of (ent (pmem s) src i)) s Ha). destruct (clone_table d _ s) as [sub s1]. cbn [fst snd] in IH.
    destruct (Z.eqb_spec sub 0) as [->|Hs]; [by cbn|]. apply IHn. by apply IH.
Qed.

Lemma clone_user_half_frames n : forall i src dst s,
  P (frames s) -> (clone_user_half n i src dst s).1 <> 0 -> P (frames (clone_user_half n i src dst s).2).
Proof.
  induction n as [|n IH]; intros i src dst s Hp; cbn [clone_user_half]; [done|].
  destruct (negb _); [by apply IH|]. destruct (is_huge _); [by apply IH|].
  pose proof (clone_table_frames 2 (addr_of (ent (pmem s) src i)) s Hp) as Ht.
  destruct (clone_table 2 _ s) as [sub s1]. cbn [fst snd] in Ht.
  destruct (Z.eqb_spec sub 0) as [->|Hs]; [by cbn|]. apply IH. by apply Ht.
Qed.

Lemma clone_address_space_frames src s :
  P (frames s) -> (clone_address_space src s).1 <> 0 -> P (frames (clone_address_space src s).2).
Proof.
  intros Hp. unfold clone_address_space. destruct (_ =? 0); [done|]. pose proof (P_alloc _ Hp) as Ha.
  destruct (pa_alloc (frames s) 1) as [dst fr]. destruct (dst =? _); [done|]. by apply clone_user_half_frames.
Qed.

End Frames.

(** * The tree of processes *)

Section Tree.
Context {S A F : Type} `{PageRefs S} `{KernelAlloc A} `{VnodeFs F} `{Lens A S} `{Lens F A}.
Context `{!SharedPages A S} `{!LookupMemory F A}.
Implicit Types (k : kernel S A F) (m : machine S A F) (e : SysEnv).

(** Taking frames out of the pool keeps the heap sound. *)
Lemma sound_frames a live :
  ka_wf a live -> (forall s, ka_wf (lput s a) live -> ka_wf (lput (pa_alloc s 1).2 a) live)
    /\ (forall s x, ka_wf (lput s a) live -> ka_wf (lput (pa_retain s x) a) live).
Proof.
  intros _. split.
  - intros s Hs. pose proof (sp_alloc _ _ 1 Hs ltac:(unfold max_managed_pages; lia)) as Ha. by rewrite lget_lput, lput_lput in Ha.
  - intros s x Hs. pose proof (sp_retain _ _ x Hs) as Ha. by rewrite lget_lput, lput_lput in Ha.
Qed.

Lemma clone_sound k live src :
  ka_wf (mem k) live -> (clone_address_space src (vm_view k)).1 <> 0 ->
  ka_wf (mem (put_vm (clone_address_space src (vm_view k)).2 k)) live.
Proof.
  intros Hwf Hne. destruct (sound_frames _ _ Hwf) as [Ha Hr].
  apply (clone_address_space_frames (fun s => ka_wf (lput s (mem k)) live) Ha Hr); [|done].
  cbn. by rewrite lput_lget.
Qed.

Lemma create_pml4_sound k live :
  ka_wf (mem k) live -> ka_wf (mem (put_vm (create_user_pml4 (vm_view k)).2 k)) live.
Proof.
  intros Hwf. destruct (sound_frames _ _ Hwf) as [Ha Hr].
  apply (create_user_pml4_frames (fun s => ka_wf (lput s (mem k)) live) Ha). cbn. by rewrite lput_lget.
Qed.

(** Reading user memory takes no frames: a fault of the kernel itself is never
    resolved. *)
Lemma page_fault_kernel e cr2 code k : Z.land code 4 = 0 -> page_fault e cr2 code k = None.
Proof.
  intros Hc. unfold page_fault, handle_cow_fault. replace (Z.land code 7 =? 7) with false; [done|].
  symmetry. apply Z.eqb_neq. intros E. apply (f_equal (fun x => Z.testbit x 2)) in E. apply (f_equal (fun x => Z.testbit x 2)) in Hc.
  rewrite Z.land_spec in *. change (Z.testbit 4 2) with true in Hc. change (Z.testbit 0 2) with false in Hc.
  rewrite andb_true_r in Hc. rewrite Hc in E. done.
Qed.

Lemma user_byte_same e va k r : user_byte tries e va k = Some r -> r.2 = k.
Proof.
  unfold tries. cbn [user_byte]. destruct (walk_at _ _ _ _) as [[pa fl]|]; [by intros [= <-]|].
  by rewrite page_fault_kernel.
Qed.

Lemma copy_user_same n e va k r : copy_user_loop n e va k = Some r -> r.2 = k.
Proof.
  revert va r. induction n as [|n IH]; intros va r; cbn [copy_user_loop]; [by intros [= <-]|].
  destruct (user_byte _ _ _ _) as [[b k1]|] eqn:E1; cbn [mbind option_bind]; [|done]. apply user_byte_same in E1. cbn in E1. subst k1.
  destruct (b =? 0); [by intros [= <-]|].
  destruct (copy_user_loop n _ _ _) as [[l k2]|] eqn:E2; cbn; [|done]. intros [= <-]. by apply (IH _ _ E2).
Qed.

Lemma copy_string_same e a n k r : copy_string_from_user e a n k = Some r -> r.2 = k.
Proof.
  unfold copy_string_from_user. destruct (a =? 0); [by intros [= <-]|].
  destruct (copy_user_loop _ _ _ _) as [[l k1]|] eqn:E; cbn; [|done]. intros [= <-]. by apply (copy_user_same _ _ _ _ _ E).
Qed.

(** Resolving a path keeps the objects of the kernel. *)
Lemma split_loop_mem fuel : forall cur p s err r s' live, ka_wf (lget (node_fs s)) live ->
  Vfs.split_loop fuel cur p s = Some (err, r, s') -> exists live', live ⊆ live' /\ ka_wf (lget (node_fs s')) live'.
Proof.
  induction fuel as [|fuel IH]; intros cur p s err r s' live Hwf; cbn [Vfs.split_loop]; [done|].
  destruct p as [|c p]; [intros [= _ _ <-]; eauto|]. destruct (skip_slashes (c :: p)) as [|d q]; [intros [= _ _ <-]; eauto|].
  destruct (take_component (d :: q)) as [w rest]. destruct (255 <? _); [intros [= _ _ <-]; eauto|].
  destruct (vn_type _ _) as [t|]; cbn [mbind option_bind]; [|done]. destruct (negb _); [intros [= _ _ <-]; eauto|].
  destruct (op_lookup _ _ _) as [[[err1 nx] f]|] eqn:E; cbn [mbind option_bind]; [|done].
  destruct (lookup_mem _ _ _ _ _ _ _ Hwf E) as (live1 & Hs1 & Hwf1).
  destruct (err1 <? 0); [intros [= _ _ <-]; by exists live1|].
  intros (live2 & Hs2 & Hwf2)%(IH _ _ (Vfs.set_fs f s) _ _ _ live1 Hwf1). exists live2. split; [by etrans|done].
Qed.

Lemma resolve_mem base path s err r s' live : ka_wf (lget (node_fs s)) live ->
  Vfs.resolve base path s = Some (err, r, s') -> exists live', live ⊆ live' /\ ka_wf (lget (node_fs s')) live'.
Proof.
  intros Hwf. unfold Vfs.resolve, split_and_resolve. destruct (negb _); [intros [= _ _ <-]; eauto|].
  destruct path as [[|c p]|]; [intros [= _ _ <-]; eauto| |intros [= _ _ <-]; eauto].
  destruct (c =? slash); [|by apply split_loop_mem]. destruct (_ =? 0); [intros [= _ _ <-]; eauto|].
  destruct (skip_slashes (c :: p)); [intros [= _ _ <-]; eauto|]. by apply split_loop_mem.
Qed.

(** ** What the calls do to the table *)

(** A process exits: it becomes a zombie and its children go to the first
    process. *)
Lemma exit_tree (t : proctab) ps K p status cs :
  proc_inv t ps K -> p ∈ ps -> K !! p = Some cs ->
  let t1 := update_proc p (with_status ProcessState.Zombie status) t in
  exists init t' K', find_init_process t1 = Some init /\ init ∈ ps /\ pid (proc_at t init) = 0
    /\ (if negb (init =? 0) && negb (init =? p) then reparent_children p init t1 else Some t1) = Some t'
    /\ proc_inv t' ps K'
    /\ (forall q, proc_at t' q = if decide (q ∈ cs /\ init <> p) then with_parent init (proc_at t1 q) else proc_at t1 q)
    /\ K' !! p = Some (if decide (init = p) then cs else [])
    /\ (init <> p -> (fun l => l ++ cs) <$> K !! init = K' !! init)
    /\ forall q, q <> init -> q <> p -> K' !! q = K !! q.
Proof.
  intros Hi Hp HKp t1. pose proof (pi_tree _ _ _ Hi) as Ht.
  assert (forall q, proc_at t1 q = if decide (p = q) then with_status ProcessState.Zombie status (proc_at t q) else proc_at t q) as Hat1.
  { intros q. unfold t1, proc_at, update_proc. cbn. rewrite aget_aset. case_decide; [by subst|done]. }
  assert (forall q, pid (proc_at t1 q) = pid (proc_at t q) /\ parent (proc_at t1 q) = parent (proc_at t q)) as Hsame.
  { intros q. rewrite Hat1. by case_decide. }
  assert (ptree t1 ps K) as Ht1 by (by apply ptree_update).
  destruct (pi_init _ _ _ Hi) as (init & Hin & Hpid & Hpar); [intros ->; by apply elem_of_nil in Hp|].
  destruct (find_process_spec t1 ps K 0 Ht1 (proc_inv_length _ _ _ Hi)) as (r & Er & [[-> Hno]|[Hr Hrp]]).
  { destruct (Hno init Hin). by rewrite (proj1 (Hsame _)). }
  assert (r = init) as -> by (apply (pi_inj _ _ _ Hi); [done|done|]; rewrite <- (proj1 (Hsame r)); congruence).
  pose proof (ptree_nonnull _ _ _ _ Ht Hin) as Hin0.
  assert (negb (init =? 0) = true) as Hn0 by lia.
  destruct (decide (init = p)) as [->|Hne].
  - exists p, t1, K. rewrite Z.eqb_refl, Hn0. split_and!; try done.
    + apply (inv_ext t); try done; try (intros q _; apply Hsame).
      intros q Hq Hz Hpq. rewrite Hat1 in Hz. case_decide as Hd; [subst q; congruence|]. by apply (pi_zombie _ _ _ Hi).
    + intros q. rewrite decide_False; [done|]. by intros [_ []].
    + by rewrite decide_True.
  - destruct (ptree_lookup _ _ _ _ Ht Hin) as [li Hli].
    assert (forall q, q ∈ cs -> parent (proc_at t q) = p /\ q ∈ ps) as Hcs
      by (intros q Hq; apply (tr_kids _ _ _ Ht p cs q HKp) in Hq as [? ?]; done).
    pose proof (ptree_nonnull _ _ _ _ Ht Hp) as Hp0.
    assert (init ∉ cs) as Hic by (intros [E _]%Hcs; congruence).
    destruct (reparent_spec t1 ps K p init cs li Ht1 HKp Hli ltac:(congruence) Hic (proc_inv_length _ _ _ Hi))
      as (t' & Et & Ht' & E1 & E2 & E3 & Hat). exists init, t', (<[init := li ++ cs]> (<[p := []]> K)).
    assert (forall q, pid (proc_at t' q) = pid (proc_at t q)) as Hpids.
    { intros q. rewrite Hat. case_decide; [cbn|]; apply Hsame. }
    rewrite Hn0. replace (negb (init =? p)) with true by lia. split_and!; try done.
    + split; [done|..].
      * destruct (pi_pids _ _ _ Hi). split; [by rewrite E3|by rewrite E2].
      * intros a b Ha Hb. rewrite !Hpids. by apply Hi.
      * intros a Ha. rewrite Hpids. by apply Hi.
      * intros id Hid. unfold pid_used. rewrite E1. change (pid_bitmap t1) with (pid_bitmap t). fold (pid_used t id).
        rewrite (pi_used _ _ _ Hi id Hid). split; intros (q & ? & E); exists q; rewrite ?Hpids in *; done.
      * intros ->. by apply elem_of_nil in Hp.
      * intros _. exists init. rewrite Hpids, Hat, decide_False, (proj2 (Hsame _)) by done. done.
      * intros q Hq Hz Hpq. rewrite lookup_insert. case_decide as Hd1.
        { subst q. rewrite Hat, decide_False, (proj2 (Hsame _)) in Hpq by done. done. }
        rewrite lookup_insert. case_decide as Hd2; [done|]. apply (pi_zombie _ _ _ Hi); [done|..].
        -- rewrite Hat in Hz. assert (p_state (proc_at t1 q) = ProcessState.Zombie) as Hz1 by (by case_decide).
           rewrite Hat1, decide_False in Hz1 by done. done.
        -- rewrite Hat in Hpq. case_decide as Hd; [by destruct (Hcs q Hd) as [-> _]|]. by rewrite (proj2 (Hsame _)) in Hpq.
      * destruct (pi_rank _ _ _ Hi) as [rank Hrk]. exists (fun q => if decide (q = init) then O else rank q). intros q Hq.
        rewrite Hat. case_decide as Hd; cbn.
        -- rewrite decide_True, decide_False by (done || congruence). destruct (Hcs q Hd) as [E _]. specialize (Hrk q Hq). rewrite E in Hrk. lia.
        -- rewrite (proj2 (Hsame _)). intros Hpq. rewrite (decide_False (P := q = init)) by congruence. specialize (Hrk q Hq Hpq). case_decide; lia.
    + intros q. rewrite Hat. destruct (decide (q ∈ cs)) as [Hq|Hq]; [rewrite decide_True by done|rewrite decide_False by tauto]; done.
    + rewrite lookup_insert_ne, decide_False by done. apply lookup_insert_eq.
    + intros _. by rewrite Hli, lookup_insert_eq.
    + intros q Hq1 Hq2. by rewrite !lookup_insert_ne by congruence.
Qed.

(** ** Waiting *)

Definition zombie (t : proctab) (c : Z) : bool := bool_decide (p_state (proc_at t c) = ProcessState.Zombie).
(** The children that a call waits for, and the one it delivers: the first
    exited one, or the one named if it has exited; 0 without one. *)
Definition awaited (t : proctab) (target : Z) (l : list Z) : list Z := filter (fun c => wanted target (proc_at t c) = true) l.
Definition delivered (t : proctab) (target : Z) (l : list Z) : Z :=
  if 0 <? target then match awaited t target l with c :: _ => if zombie t c then c else 0 | [] => 0 end
  else hd_or (filter (fun c => zombie t c = true) l) 0.

Lemma find_zombie_spec (t : proctab) target b l : forall fuel,
  dseg (child_next t) (child_prev t) b l 0 -> 0 ∉ l -> (length l < fuel)%nat ->
  find_zombie fuel target (hd_or l 0) t = Some (delivered t target l).
Proof.
  revert b. induction l as [|c l IH]; intros b [|fuel] Hl H0' Hf; cbn [length] in Hf; try lia; cbn [find_zombie hd_or].
  - unfold delivered, awaited. by destruct (0 <? target).
  - apply not_elem_of_cons in H0' as [Hc0 H0']. destruct Hl as (_ & Hn & Hl). replace (c =? 0) with false by lia.
    specialize (IH c fuel Hl H0' ltac:(lia)). unfold delivered, awaited in *. fold (zombie t c). rewrite !filter_cons, Hn.
    destruct (wanted target (proc_at t c)) eqn:Ew.
    + rewrite decide_True by done. destruct (zombie t c) eqn:Ez; [rewrite decide_True by done; by destruct (0 <? target)|].
      destruct (0 <? target) eqn:Et; [done|]. by rewrite decide_False, IH by done.
    + rewrite decide_False by done. rewrite IH. destruct (0 <? target) eqn:Et; [done|].
      unfold wanted in Ew. by replace (target <=? 0) with true in Ew by lia.
Qed.

Lemma has_children_spec (t : proctab) target b l : forall fuel,
  dseg (child_next t) (child_prev t) b l 0 -> 0 ∉ l -> (length l < fuel)%nat ->
  has_children fuel target (hd_or l 0) t = Some (negb (bool_decide (awaited t target l = []))).
Proof.
  revert b. induction l as [|c l IH]; intros b [|fuel] Hl H0' Hf; cbn [length] in Hf; try lia; cbn [has_children hd_or]; [done|].
  apply not_elem_of_cons in H0' as [Hc0 H0']. destruct Hl as (_ & Hn & Hl). replace (c =? 0) with false by lia.
  specialize (IH c fuel Hl H0' ltac:(lia)). unfold awaited in *. rewrite filter_cons, Hn.
  destruct (wanted target (proc_at t c)) eqn:Ew; [by rewrite decide_True|by rewrite decide_False].
Qed.

Lemma children_walk t ps K p l : proc_inv t ps K -> K !! p = Some l ->
  aget (child_head t) p = hd_or l 0 /\ dseg (child_next t) (child_prev t) 0 l 0 /\ 0 ∉ l /\ (length l < list_fuel)%nat.
Proof.
  intros Hi Hp. destruct (fr_rep _ _ (tr_forest _ _ _ (pi_tree _ _ _ Hi)) p l Hp) as [Hh _ Hnd H0' Hl]. cbn [head nxt prv children_of] in *.
  split_and!; try done. pose proof (proc_inv_length _ _ _ Hi).
  assert (length l <= length ps)%nat; [|unfold list_fuel; lia]. apply submseteq_length, NoDup_submseteq; [done|].
  intros q Hq. by apply (tr_kids _ _ _ (pi_tree _ _ _ Hi) p l q Hp) in Hq as [? _].
Qed.

(** What is delivered is an exited child. *)
Lemma delivered_spec t target l c : delivered t target l = c -> c <> 0 ->
  c ∈ l /\ p_state (proc_at t c) = ProcessState.Zombie /\ wanted target (proc_at t c) = true.
Proof.
  intros <- Hc. unfold delivered, awaited, zombie in *. destruct (0 <? target) eqn:Et.
  - destruct (filter _ l) as [|c l'] eqn:E; [done|]. case_bool_decide; [|done].
    assert (c ∈ filter (fun c => wanted target (proc_at t c) = true) l) as [? ?]%list_elem_of_filter by (rewrite E; by apply elem_of_cons; left).
    done.
  - destruct (filter _ l) as [|c l'] eqn:E; [done|]. cbn.
    assert (c ∈ filter (fun c => bool_decide (p_state (proc_at t c) = ProcessState.Zombie) = true) l) as [Hz ?]%list_elem_of_filter
      by (rewrite E; by apply elem_of_cons; left).
    split_and!; [done|by apply bool_decide_eq_true_1 in Hz|]. unfold wanted. by replace (target <=? 0) with true by lia.
Qed.

(** ** Every call *)

(** How a call can change the list of processes: not at all, by one new
    process, or by giving back an exited child of the caller. *)
Definition tree_change (number caller : Z) k (ps ps' : list Z) : Prop :=
  ps' = ps
  \/ ((number = SYS_fork \/ number = SYS_spawn) /\ exists p, p ∉ ps /\ ps' = p :: ps)
  \/ (number = SYS_waitpid /\ exists ps1 p ps2, ps = ps1 ++ p :: ps2 /\ ps' = ps1 ++ ps2
      /\ p_state (proc_at (tab k) p) = ProcessState.Zombie /\ parent (proc_at (tab k) p) = caller).

Lemma block_tab e sw sc k m : block (env e) (sch k) = (sw, sc) -> tab (kn (with_kn (set_sch (fun _ => sc) k) m)) = tab k.
Proof. done. Qed.

Lemma die_tab e th m o m' : die e th m = Some (o, m') -> tab (kn m') = tab (kn m).
Proof. unfold die. destruct (block _ _) as [sw sc]. by intros [= _ <-]. Qed.

(** The calls on files leave the table alone. *)
Lemma sys_write_tab e fr m o m' : sys_write e fr m = Some (o, m') -> tab (kn m') = tab (kn m).
Proof.
  unfold sys_write. branch; [by intros [= _ <-]|].
  destruct (load_user _ _ _ _) as [[l k]|] eqn:E; cbn [mbind option_bind]; [|done]. apply quiet_load_user in E as (E & _). cbn in E.
  destruct (Vfs.write _ _ _ _ _) as [[[err n] v]|]; cbn [mbind option_bind]; [|done]. branch; by intros [= _ <-].
Qed.

Lemma sys_read_tab e th fr m o m' : sys_read e th fr m = Some (o, m') -> tab (kn m') = tab (kn m).
Proof.
  unfold sys_read, read_stdin. branch; [by intros [= _ <-]|]. branch; [by intros [= _ <-]|]. branch.
  - destruct (read_line _ _ _ _ _) as [[[[r b] t] s]|]; cbn [mbind option_bind]; [|done]. destruct r as [len|].
    + destruct (store_user _ _ _ _) as [k|] eqn:E; cbn [mbind option_bind]; [|done]. apply quiet_store_user in E as (E & _).
      by intros [= _ <-].
    + destruct (yield _ _) as [sw sc]. by intros [= _ <-].
  - destruct (Vfs.read _ _ _ _ _) as [[[[err n] b] v]|]; cbn [mbind option_bind]; [|done]. branch; [by intros [= _ <-]|].
    destruct (store_user _ _ _ _) as [k|] eqn:E; cbn [mbind option_bind]; [|done]. apply quiet_store_user in E as (E & _).
    by intros [= _ <-].
Qed.

Lemma sys_open_tab e fr m o m' : sys_open e fr m = Some (o, m') -> tab (kn m') = tab (kn m).
Proof.
  unfold sys_open. destruct (copy_string_from_user _ _ _ _) as [[[err p] k]|] eqn:E; cbn [mbind option_bind]; [|done].
  apply copy_string_same in E. cbn in E. subst k. branch; [by intros [= _ <-]|].
  destruct (Vfs.open _ _ _ _ _) as [[[err1 fd] v]|]; cbn [mbind option_bind]; [|done]. branch; by intros [= _ <-].
Qed.

Lemma sys_close_tab e fr m o m' : sys_close e fr m = Some (o, m') -> tab (kn m') = tab (kn m).
Proof.
  unfold sys_close. cbv zeta. destruct (Vfs.close _ _ _) as [[err v]|]; cbn [mbind option_bind]; [|done]. branch; by intros [= _ <-].
Qed.

Lemma sys_lseek_tab e fr m o m' : sys_lseek e fr m = Some (o, m') -> tab (kn m') = tab (kn m).
Proof.
  unfold sys_lseek. cbv zeta. destruct (Vfs.seek _ _ _ _ _) as [[[err n] v]|]; cbn [mbind option_bind]; [|done]. branch; by intros [= _ <-].
Qed.

(** A field of a process that the tree does not depend on. *)
Lemma set_process_inv k ps K p f :
  proc_inv (tab k) ps K ->
  (forall x, pid (f x) = pid x /\ parent (f x) = parent x
     /\ (p_state (f x) = ProcessState.Zombie -> p_state x = ProcessState.Zombie)) ->
  proc_inv (tab (set_process p f k)) ps K.
Proof. apply inv_update. Qed.

Lemma sys_exit_tree e th fr m o m' ps K :
  proc_inv (tab (kn m)) ps K -> (th_process (aget (threads (kn m)) th) = 0 \/ th_process (aget (threads (kn m)) th) ∈ ps) ->
  sys_exit e th fr m = Some (o, m') -> exists K', proc_inv (tab (kn m')) ps K'.
Proof.
  intros Hi Hp. unfold sys_exit. set (p := th_process _) in *.
  destruct (Z.eqb_spec p 0) as [Ep|Hp0]; [intros E%die_tab; exists K; by rewrite E|]. destruct Hp as [?|Hp]; [done|].
  destruct (ptree_lookup _ _ _ p (pi_tree _ _ _ Hi) Hp) as [cs HKp].
  destruct (exit_tree (tab (kn m)) ps K p (s32 (fr_rdi fr)) cs Hi Hp HKp)
    as (init & t' & K' & Ei & _ & _ & Et & Hi' & _). cbv zeta.
  change (tab (set_process p (with_status ProcessState.Zombie (s32 (fr_rdi fr))) (kn m)))
    with (update_proc p (with_status ProcessState.Zombie (s32 (fr_rdi fr))) (tab (kn m))).
  rewrite Ei. cbn [mbind option_bind]. rewrite Et. cbn [mbind option_bind]. intros E%die_tab. exists K'. rewrite E.
  cbn [kn with_kn]. match goal with |- context [if ?b then _ else _] => destruct b end; [|done]. by apply set_process_inv.
Qed.

Lemma create_tree k ps K live pml4 par r k' :
  proc_inv (tab k) ps K -> procs_live k ps live -> may_parent (tab k) ps par -> process_create pml4 par k = (r, k') ->
  exists ps' K', proc_inv (tab k') ps' K' /\ (r = 0 /\ ps' = ps \/ r <> 0 /\ r ∉ ps /\ ps' = r :: ps).
Proof.
  intros Hi Hl Hm E. pose proof (process_create_cases k ps K live pml4 par Hi Hl Hm) as Hc. cbv zeta in Hc. rewrite E in Hc. cbn [fst snd] in Hc.
  destruct Hc as [(-> & Hi' & _)|(Hr & Hn & _ & K' & id & Hi' & _)]; eauto 10.
Qed.

Lemma sys_fork_tree e th fr m o m' ps K live :
  let p := th_process (aget (threads (kn m)) th) in
  proc_inv (tab (kn m)) ps K -> procs_live (kn m) ps live ->
  p = 0 \/ (p ∈ ps /\ p_state (proc_at (tab (kn m)) p) = ProcessState.Alive) ->
  sys_fork e th fr m = Some (o, m') ->
  exists ps' K', proc_inv (tab (kn m')) ps' K' /\ (ps' = ps \/ exists c, c ∉ ps /\ ps' = c :: ps).
Proof.
  intros p Hi [Hwf Hl] Hp. unfold sys_fork. fold p. cbv zeta.
  destruct (Z.eqb_spec p 0) as [Ep|Hp0]; [intros [= _ <-]; eauto|]. destruct Hp as [?|[Hp Hal]]; [done|].
  pose proof (clone_sound (kn m) live (pml4_phys (proc_at (tab (kn m)) p)) Hwf) as Hcl.
  destruct (clone_address_space _ _) as [cp v]. cbn [fst snd] in Hcl.
  destruct (Z.eqb_spec cp 0) as [->|Hcp]; [intros [= _ <-]; eauto|].
  destruct (process_create cp p (put_vm v (kn m))) as [c k1] eqn:Ec.
  destruct (create_tree (put_vm v (kn m)) ps K live cp p c k1) as (ps' & K' & Hi' & Hc); try done.
  { split; [by apply Hcl|done]. }
  { right. split; [done|]. cbn. congruence. }
  destruct Hc as [[-> ->]|(Hc0 & Hcn & ->)]; [intros [= _ <-]; cbn; eauto|]. replace (c =? 0) with false by lia.
  set (k2 := set_fds c _ k1). assert (proc_inv (tab k2) (c :: ps) K') as Hi2 by done.
  pose proof (thread_create_tab (thread_trampoline e) c (fr_user_rip fr) (gs_user_rsp e) k2) as Ht.
  destruct (thread_create _ _ _ _ k2) as [ct k3]. cbn [snd] in Ht. rewrite <- Ht in Hi2.
  branch; intros [= _ <-]; exists (c :: ps), K'; (split; [|eauto]); cbn [kn with_kn].
  - change (proc_inv (tab (set_process c (with_pstate ProcessState.Dead) k3)) (c :: ps) K'). by apply set_process_inv.
  - change (proc_inv (tab (set_process c (with_thread ct) k3)) (c :: ps) K'). by apply set_process_inv.
Qed.

Lemma process_spawn_tree e path k r ps K live :
  proc_inv (tab k) ps K -> procs_live k ps live -> process_spawn e path k = Some r ->
  exists ps' K', proc_inv (tab r.2) ps' K' /\ (ps' = ps \/ exists c, c ∉ ps /\ ps' = c :: ps).
Proof.
  intros Hi [Hwf Hl]. unfold process_spawn. destruct path as [path|]; [|intros [= <-]; eauto].
  destruct (Vfs.resolve _ _ _) as [[[err file] v]|] eqn:Er; cbn [mbind option_bind]; [|done].
  assert (ka_wf (lget (node_fs (fs_view k))) live) as Hwf0 by (unfold fs_view; cbn [node_fs Vfs.set_fs]; by rewrite lget_lput).
  destruct (resolve_mem _ _ _ _ _ _ live Hwf0 Er) as (live1 & Hsub & Hwf1).
  set (k1 := put_fs v k). branch; [intros [= <-]; eauto|].
  pose proof (create_pml4_sound k1 live1 Hwf1) as Hwf2.
  assert (forall p, p ∈ ps -> live1 !! p = Some sizeof_Process) as Hl1 by (intros p Hp; by eapply lookup_weaken; [apply Hl|]).
  destruct (create_user_pml4 (vm_view k1)) as [pml4 v2]. cbn [snd] in Hwf2. branch.
  { destruct (unref file _) as [k3|] eqn:Eu; cbn [mbind option_bind]; [|done]. apply quiet_unref in Eu as (Eu & _).
    intros [= <-]. cbn [snd]. rewrite Eu. eauto. }
  destruct (process_create pml4 0 (put_vm v2 k1)) as [c k3] eqn:Ec.
  destruct (create_tree (put_vm v2 k1) ps K live1 pml4 0 c k3) as (ps' & K' & Hi' & Hc); try done; [by left|].
  destruct Hc as [[-> ->]|(Hc0 & Hcn & ->)].
  { change (0 =? 0) with true. cbv iota zeta. destruct (unref file _) as [k4|] eqn:Eu; cbn [mbind option_bind]; [|done].
    apply quiet_unref in Eu as (Eu & _). intros [= <-]. cbn [snd]. rewrite Eu. eauto. }
  replace (c =? 0) with false by lia.
  destruct (elf64_load _ _ _ _) as [[[err4 res] k4]|] eqn:E4; cbn [mbind option_bind]; [|done]. apply quiet_elf64_load in E4 as (E4 & _).
  destruct (unref file _) as [k5|] eqn:E5; cbn [mbind option_bind]; [|done]. apply quiet_unref in E5 as (E5 & _).
  cbn [snd] in E4. rewrite E4 in E5. rewrite <- E5 in Hi'. branch.
  { intros [= <-]. exists (c :: ps), K'. split; [by apply set_process_inv|eauto]. }
  pose proof (thread_create_tab (thread_trampoline e) c (entry res) (stack_top res) k5) as Ht.
  destruct (thread_create _ _ _ _ k5) as [ct k6]. cbn [snd] in Ht. rewrite <- Ht in Hi'.
  branch; intros [= <-]; exists (c :: ps), K'; (split; [|eauto]).
  - by apply set_process_inv.
  - change (proc_inv (tab (set_process c (with_thread ct) (set_process c (with_brk (elf_brk_base res) (elf_brk_base res)) k6))) (c :: ps) K').
    apply set_process_inv; [|done]. by apply set_process_inv.
Qed.

Lemma sys_exec_tree e th fr m o m' ps K :
  proc_inv (tab (kn m)) ps K -> sys_exec e th fr m = Some (o, m') -> proc_inv (tab (kn m')) ps K.
Proof.
  intros Hi. unfold sys_exec. branch; [by intros [= _ <-]|].
  destruct (copy_string_from_user _ _ _ _) as [[[err p] k]|] eqn:E; cbn [mbind option_bind]; [|done].
  apply copy_string_same in E. cbn in E. subst k. branch; [by intros [= _ <-]|].
  destruct (Vfs.resolve _ _ _) as [[[err2 file] v]|]; cbn [mbind option_bind]; [|done]. branch; [by intros [= _ <-]|].
  destruct (create_user_pml4 _) as [np v2]. branch.
  { destruct (unref file _) as [k3|] eqn:Eu; cbn [mbind option_bind]; [|done]. apply quiet_unref in Eu as (Eu & _).
    intros [= _ <-]. cbn [kn with_kn]. by rewrite Eu. }
  destruct (elf64_load _ _ _ _) as [[[err4 res] k4]|] eqn:E4; cbn [mbind option_bind]; [|done]. apply quiet_elf64_load in E4 as (E4 & _).
  destruct (unref file _) as [k5|] eqn:E5; cbn [mbind option_bind]; [|done]. apply quiet_unref in E5 as (E5 & _).
  cbn [snd] in E4. rewrite E4 in E5. change (tab k5 = tab (kn m)) in E5. rewrite <- E5 in Hi.
  branch; intros [= _ <-]; [done|]. cbn [kn with_kn].
  match goal with |- proc_inv (tab ?x) _ _ => change (tab x) with
    (tab (set_process (th_process (aget (threads (kn m)) th)) (with_brk (elf_brk_base res) (elf_brk_base res))
      (set_process (th_process (aget (threads (kn m)) th)) (with_pml4 np) k5))) end.
  apply set_process_inv; [|done]. by apply set_process_inv.
Qed.

Lemma sys_brk_tree th fr m o m' ps K :
  proc_inv (tab (kn m)) ps K -> sys_brk th fr m = Some (o, m') -> proc_inv (tab (kn m')) ps K.
Proof.
  intros Hi. unfold sys_brk. do 3 (branch; [by intros [= _ <-]|]).
  destruct (brk_loop _ _ _ _) as [[err k1]|] eqn:E1; cbn [mbind option_bind]; [|done]. apply quiet_brk_loop in E1 as (E1 & _).
  cbn [snd] in E1. rewrite <- E1 in Hi. branch; intros [= _ <-]; [done|]. by apply set_process_inv.
Qed.

Lemma sys_waitpid_tree e th fr m o m' ps K :
  let p := th_process (aget (threads (kn m)) th) in
  proc_inv (tab (kn m)) ps K -> p = 0 \/ p ∈ ps -> sys_waitpid e th fr m = Some (o, m') ->
  exists ps' K', proc_inv (tab (kn m')) ps' K' /\
    (ps' = ps \/ exists ps1 c ps2, ps = ps1 ++ c :: ps2 /\ ps' = ps1 ++ ps2
      /\ p_state (proc_at (tab (kn m)) c) = ProcessState.Zombie /\ parent (proc_at (tab (kn m)) c) = p).
Proof.
  intros p Hi Hp. unfold sys_waitpid. fold p. cbv zeta.
  destruct (Z.eqb_spec p 0) as [Ep|Hp0]; [intros [= _ <-]; eauto|]. destruct Hp as [?|Hp]; [done|].
  destruct (ptree_lookup _ _ _ p (pi_tree _ _ _ Hi) Hp) as [l HKp].
  destruct (children_walk _ _ _ _ _ Hi HKp) as (Hh & Hseg & H0' & Hf). rewrite Hh.
  rewrite (find_zombie_spec _ _ _ _ _ Hseg H0' Hf). cbn [mbind option_bind].
  set (c := delivered _ _ _). destruct (Z.eqb_spec c 0) as [Ec|Hc].
  - cbn [negb]. rewrite (has_children_spec _ _ _ _ _ Hseg H0' Hf). cbn [mbind option_bind].
    branch; [intros [= _ <-]; eauto|]. branch; [intros [= _ <-]; eauto|]. destruct (block _ _) as [sw sc]. intros [= _ <-].
    exists ps, K. split; [|by left]. cbn [kn with_kn]. by apply set_process_inv.
  - cbn [negb]. destruct (delivered_spec _ _ _ c eq_refl Hc) as (Hcl & Hz & _).
    apply (tr_kids _ _ _ (pi_tree _ _ _ Hi) p l c HKp) in Hcl as [Hcps Hcp].
    assert (forall k1, tab k1 = tab (kn m) -> exists ps1 ps2 K', ps = ps1 ++ c :: ps2 /\ proc_inv (tab (reap_process c k1)) (ps1 ++ ps2) K') as Hreap.
    { intros k1 E. destruct (reap_process_cases k1 ps K c) as (ps1 & ps2 & K' & -> & Hi' & _); rewrite ?E; try done; [congruence|].
      exists ps1, ps2, K'. done. }
    destruct (negb (_ =? 0)); cbn [mbind option_bind].
    + destruct (store_user _ _ _ _) as [k1|] eqn:E1; cbn [mbind option_bind]; [|done]. apply quiet_store_user in E1 as (E1 & _).
      intros [= _ <-]. destruct (Hreap k1 E1) as (ps1 & ps2 & K' & -> & Hi'). exists (ps1 ++ ps2), K'. split; [done|]. right. eauto 10.
    + intros [= _ <-]. destruct (Hreap (kn m) eq_refl) as (ps1 & ps2 & K' & -> & Hi'). exists (ps1 ++ ps2), K'. split; [done|]. right. eauto 10.
Qed.

(** The caller: no process, or one that is alive. *)
Definition caller_ok e k (ps : list Z) : Prop :=
  current_process e k = 0
  \/ (current_process e k ∈ ps /\ p_state (proc_at (tab k) (current_process e k)) = ProcessState.Alive).

(** C1. Every system call keeps the tree of processes consistent, whatever its
    number, arguments and outcome: all processes are on the list with distinct
    identifiers that are exactly the ones in use, children and parents agree,
    and no exited process but the first keeps children.  Only fork and spawn
    add a process, only waitpid removes one, an exited child of the caller.
    Conditions: the processes are objects that the allocator holds, and the
    caller is alive or no process; the allocator keeps its objects when frames
    are taken ([SharedPages]: the slices do), and when a name is looked up
    ([LookupMemory]: the memory filesystem, FAT and the overlay do). *)
Theorem syscalls_keep_tree e number fr m o m' ps K live :
  proc_inv (tab (kn m)) ps K -> procs_live (kn m) ps live -> caller_ok e (kn m) ps ->
  handle_syscall e number fr m = Some (o, m') ->
  exists ps' K', proc_inv (tab (kn m')) ps' K' /\ tree_change number (current_process e (kn m)) (kn m) ps ps'.
Proof.
  intros Hi Hl Hc. unfold handle_syscall, caller_ok, current_process, tree_change in *. cbv zeta in *.
  set (task := current_task _ _) in *. set (th := t_thread _) in *.
  assert (forall m1, tab (kn m1) = tab (kn m) -> exists ps' K', proc_inv (tab (kn m1)) ps' K' /\ ps' = ps) as Hkeep
    by (intros m1 E; exists ps, K; by rewrite E).
  destruct (task =? 0); [intros [= _ <-]; eauto|]. destruct (th =? 0); [intros [= _ <-]; eauto|]. cbn [orb].
  branch; [intros E%sys_write_tab%Hkeep; naive_solver|].
  destruct (Z.eqb_spec number SYS_exit) as [->|_].
  { intros (K' & Hi')%(sys_exit_tree _ _ _ _ _ _ _ _ Hi); [eauto|naive_solver]. }
  destruct (Z.eqb_spec number SYS_fork) as [->|_].
  { intros (ps' & K' & Hi' & [->|?])%(sys_fork_tree _ _ _ _ _ _ _ _ _ Hi Hl Hc); eauto 10. }
  branch; [intros ?%(sys_exec_tree _ _ _ _ _ _ _ _ Hi); eauto|].
  destruct (Z.eqb_spec number SYS_spawn) as [->|_].
  { unfold sys_spawn. destruct (copy_string_from_user _ _ _ _) as [[[err p] k]|] eqn:E; cbn [mbind option_bind]; [|done].
    apply copy_string_same in E. cbn in E. subst k. branch; [intros [= _ <-]; eauto|].
    destruct (process_spawn _ _ _) as [[id k]|] eqn:E; cbn [mbind option_bind]; [|done]. intros [= _ <-].
    destruct (process_spawn_tree _ _ _ _ _ _ _ Hi Hl E) as (ps' & K' & Hi' & [->|?]); eauto 10. }
  branch; [intros [= _ <-]; eauto|].
  destruct (Z.eqb_spec number SYS_waitpid) as [->|_].
  { intros (ps' & K' & Hi' & Hps)%(sys_waitpid_tree _ _ _ _ _ _ _ _ Hi); [|naive_solver]. destruct Hps as [->|?]; eauto 10. }
  branch; [intros [= _ <-]; eauto|].
  branch; [intros E%sys_read_tab%Hkeep; naive_solver|].
  branch; [intros E%sys_open_tab%Hkeep; naive_solver|].
  branch; [intros E%sys_close_tab%Hkeep; naive_solver|].
  branch; [intros E%sys_lseek_tab%Hkeep; naive_solver|].
  branch; [intros ?%(sys_brk_tree _ _ _ _ _ _ _ Hi); eauto|].
  intros [= _ <-]. eauto.
Qed.

End Tree.
