(* ===== verification/SysSpec.v ===== *)
(** What single system calls promise: waiting for and exiting processes,
    growing the heap of a process, the return path of fork, and the errors. *)

From S2P Require Import Prelude MemoryMap Pmm PageAlloc Slice KAlloc DList Task Vmm AddressSpace Bytes KMem VfsBase Ramfs Vfs Keyboard ProcTable ProcTree Process Elf Syscall SysTree.

(** * Tasks *)

Lemma state_set_state {A} (s : sched A) t st x :
  state_of (set_state t st s) x = if decide (t = x) then st else state_of s x.
Proof. unfold state_of, set_state, update_task, set_tasks, task_at. cbn. rewrite aget_aset. by case_decide. Qed.

Lemma state_update_task {A} (s : sched A) t f x :
  (forall y, t_state (f y) = t_state y) -> state_of (update_task t f s) x = state_of s x.
Proof. intros Hf. unfold state_of, update_task, set_tasks, task_at. cbn. rewrite aget_aset. case_decide; [by subst|done]. Qed.

Lemma state_set_current {A} e (s : sched A) t x : state_of (set_current_task e t s) x = state_of s x.
Proof. unfold set_current_task, set_kernel_entry_stack. by repeat case_match. Qed.

(** A switch makes one task [Running] and changes no other state. *)
Lemma switch_to_state {A} e (s : sched A) cur next x :
  state_of (switch_to e cur next s).2 x = state_of s x \/ (x = next /\ state_of (switch_to e cur next s).2 x = Running).
Proof.
  unfold switch_to. destruct (Z.eqb_spec next cur) as [->|Hne].
  - destruct (negb _); cbn [snd]; [|by left]. rewrite state_set_state. case_decide; [by right|by left].
  - assert (forall s' : sched A, state_of (update_task cur (with_context (rsp e)) s') x = state_of s' x) as Hc
      by (intros s'; by apply state_update_task).
    destruct (cur =? 0); cbn [snd]; rewrite ?Hc; unfold run_task; rewrite state_set_current, state_set_state;
      (case_decide; [by right|by left]).
Qed.

Lemma pop_state {A} (s : sched A) x : state_of (ready_queue_pop s).2 x = state_of s x.
Proof. unfold ready_queue_pop. by destruct (dl_pop_front _). Qed.

Lemma schedule_state {A} e (s : sched A) x :
  state_of (schedule_internal e s).2 x = state_of s x \/ state_of (schedule_internal e s).2 x = Running.
Proof.
  unfold schedule_internal. pose proof (pop_state s x) as Hp. destruct (ready_queue_pop s) as [next s1]. cbn [snd] in Hp.
  destruct (next =? 0).
  - destruct (_ && _); [by left|]. destruct (idle_task s1 =? 0); [by left|].
    destruct (switch_to_state e s1 (current_task e s) (idle_task s1) x) as [->|[_ ->]]; auto.
  - destruct (switch_to_state e s1 (current_task e s) next x) as [->|[_ ->]]; auto.
Qed.

(** A task that blocks and is switched away from is [Blocked]. *)
Lemma block_current {A} e (s : sched A) sw s' :
  current_task e s <> 0 -> block e s = (sw, s') -> sw <> Returns -> state_of s' (current_task e s) = Blocked.
Proof.
  intros Hc. unfold block. replace (negb (current_task e s =? 0)) with true by lia.
  set (s1 := set_state _ _ s). assert (current_task e s1 = current_task e s) as Ec by done.
  assert (state_of s1 (current_task e s) = Blocked) as Hs by (unfold s1; by rewrite state_set_state, decide_True).
  unfold schedule_internal. rewrite Ec. pose proof (pop_state s1 (current_task e s)) as Hp.
  destruct (ready_queue_pop s1) as [next s2]. cbn [snd] in Hp. rewrite Hs in Hp.
  assert (forall n, switch_to e (current_task e s) n s2 = (sw, s') -> sw <> Returns -> state_of s' (current_task e s) = Blocked) as Hsw.
  { intros n E Hne. pose proof (switch_to_state e s2 (current_task e s) n (current_task e s)) as E2. rewrite E in E2. cbn [snd] in E2.
    destruct E2 as [E2|[En _]]; [congruence|]. unfold switch_to in E. rewrite <- En, Z.eqb_refl in E. by injection E as <- _. }
  destruct (next =? 0); [|apply Hsw]. rewrite Hp. rewrite (bool_decide_false (Blocked = Running)) by done. rewrite andb_false_r.
  destruct (idle_task s2 =? 0); [by intros [= <- _]|apply Hsw].
Qed.

(** ** Words on a stack *)

Lemma word_addr_inj a i j : 0 <= i < 2 ^ 32 -> 0 <= j < 2 ^ 32 -> a +64 8 * i = a +64 8 * j -> i = j.
Proof. unfold wrap. intros Hi Hj E. zlia. Qed.

Lemma put_words_spec ws : forall a mem, 0 <= a < 2 ^ 64 -> Z.of_nat (length ws) < 2 ^ 32 ->
  (forall i w, ws !! i = Some w -> aget (put_words a ws mem) (a +64 8 * Z.of_nat i) = w)
  /\ (forall x, (forall i, (i < length ws)%nat -> x <> a +64 8 * Z.of_nat i) -> aget (put_words a ws mem) x = aget mem x).
Proof.
  induction ws as [|w ws IH]; intros a mem Ha Hl; cbn [put_words length] in *; [done|].
  pose proof (wrap_range 64 (a + 8) ltac:(lia)) as Hr. destruct (IH (a +64 8) (aset mem a w) Hr ltac:(lia)) as [IH1 IH2].
  assert (forall i, (a +64 8) +64 8 * Z.of_nat i = a +64 8 * Z.of_nat (Datatypes.S i)) as Hs
    by (intros i; unfold wrap; rewrite Zplus_mod_idemp_l; f_equal; lia).
  assert (a +64 8 * Z.of_nat 0 = a) as H0' by (cbn; rewrite Z.add_0_r; by apply wrap_small).
  split.
  - intros [|i] w' Hw; cbn in Hw.
    + injection Hw as <-. rewrite H0', IH2; [apply aget_aset_eq|]. intros i Hi E. rewrite Hs in E. rewrite <- H0' in E at 1.
      apply word_addr_inj in E; lia.
    + rewrite <- Hs. by apply IH1.
  - intros x Hx. rewrite IH2; [apply aget_aset_ne; intros <-; apply (Hx 0%nat); [lia|done]|].
    intros i Hi. rewrite Hs. apply Hx. lia.
Qed.

Section Calls.
Context {S A F : Type} `{PageRefs S} `{KernelAlloc A} `{VnodeFs F} `{Lens A S} `{Lens F A}.
Implicit Types (k : kernel S A F) (m : machine S A F) (e : SysEnv).

Definition process_of (th : Z) m : Z := th_process (aget (threads (kn m)) th).

(** ** Waiting *)

(** The status is written to user memory unless the pointer is null. *)
Definition deliver_status e (status_ptr status : Z) k : option (kernel S A F) :=
  if negb (status_ptr =? 0) then store_user (int_bytes status) e status_ptr k else Some k.

Lemma waitpid_cases e th fr m ps K l :
  let p := process_of th m in
  let t := tab (kn m) in
  let target := s32 (fr_rdi fr) in
  let c := delivered t target l in
  proc_inv t ps K -> p ∈ ps -> K !! p = Some l ->
  (c <> 0 -> (c ∈ l /\ p_state (proc_at t c) = ProcessState.Zombie /\ wanted target (proc_at t c) = true)
     /\ sys_waitpid e th fr m =
          (k ← deliver_status e (fr_rsi fr) (exit_status (proc_at t c)) (kn m);
           Some (Return (ret (s32 (pid (proc_at t c)))), with_kn (reap_process c k) m))
     /\ forall k, deliver_status e (fr_rsi fr) (exit_status (proc_at t c)) (kn m) = Some k ->
          exists ps1 ps2 K', ps = ps1 ++ c :: ps2 /\ proc_inv (tab (reap_process c k)) (ps1 ++ ps2) K'
            /\ K' !! p = Some (filter (fun x => x <> c) l)
            /\ pid_used (tab (reap_process c k)) (pid (proc_at t c)) = false)
  /\ (c = 0 -> awaited t target l = [] -> sys_waitpid e th fr m = Some (Return (ret (- Errno.E_CHILD)), m))
  /\ (c = 0 -> awaited t target l <> [] -> Z.land (s32 (fr_rdx fr)) WNOHANG <> 0 -> sys_waitpid e th fr m = Some (Return 0, m))
  /\ (c = 0 -> awaited t target l <> [] -> Z.land (s32 (fr_rdx fr)) WNOHANG = 0 ->
      exists sw m', sys_waitpid e th fr m = Some (Again sw, m')
        /\ block (env e) (sch (kn m)) = (sw, sch (kn m'))
        /\ wait_task (proc_at (tab (kn m')) p) = current_task (env e) (sch (kn m))
        /\ proc_inv (tab (kn m')) ps K).
Proof.
  intros p t target c Hi Hp HKp. unfold sys_waitpid. fold p t target.
  pose proof (ptree_nonnull _ _ _ _ (pi_tree _ _ _ Hi) Hp) as Hp0. change (th_process (aget (threads (kn m)) th)) with p.
  destruct (children_walk _ _ _ _ _ Hi HKp) as (Hh & Hseg & H0' & Hf). fold t in Hh, Hseg |- *.
  cbv zeta. replace (p =? 0) with false by lia. rewrite Hh, (find_zombie_spec _ _ _ _ _ Hseg H0' Hf). cbn [mbind option_bind]. fold c.
  rewrite (has_children_spec _ _ _ _ _ Hseg H0' Hf). cbn [mbind option_bind]. rewrite negb_involutive.
  split; [|split; [|split]].
  - intros Hc. pose proof (delivered_spec _ _ _ c eq_refl Hc) as Hd. split; [done|]. destruct Hd as (Hcl & Hz & _).
    replace (negb (c =? 0)) with true by lia. apply (tr_kids _ _ _ (pi_tree _ _ _ Hi) p l c HKp) in Hcl as [Hcps Hcp].
    assert (forall k, deliver_status e (fr_rsi fr) (exit_status (proc_at t c)) (kn m) = Some k -> tab k = t) as Hdt.
    { intros k. unfold deliver_status. destruct (negb _); [by intros (E & _)%quiet_store_user|by intros [= <-]]. }
    split.
    + unfold deliver_status. destruct (negb _); [|done]. destruct (store_user _ _ _ _) as [k|] eqn:Es; [|done]. cbn [mbind option_bind].
      by rewrite (proj1 (quiet_store_user _ _ _ _ _ Es)).
    + intros k Hk%Hdt. destruct (reap_process_cases k ps K c) as (ps1 & ps2 & K' & Eps & Hi' & HK & _ & Hu & _); rewrite ?Hk; try done; [congruence|].
      exists ps1, ps2, K'. split_and!; [done|done| |].
      * rewrite HK, HKp; [done|]. intros ->. pose proof (pi_zombie _ _ _ Hi c Hp Hz ltac:(congruence)) as Hz'. rewrite HKp in Hz'. injection Hz' as ->.
        by unfold c, delivered, awaited in Hc; destruct (0 <? target).
      * rewrite Hu, Hk, Z.eqb_refl, andb_false_r; [done|]. by apply Hi.
  - intros -> ->. cbn [negb Z.eqb]. by rewrite bool_decide_true.
  - intros -> Hne Hw. cbn [negb Z.eqb]. rewrite bool_decide_false by done. by replace (negb (_ =? 0)) with true by lia.
  - intros -> Hne Hw. cbn [negb Z.eqb]. rewrite bool_decide_false, Hw by done. cbn [negb Z.eqb].
    set (k1 := set_process p _ (kn m)). change (sch k1) with (sch (kn m)). destruct (block (env e) (sch (kn m))) as [sw sc].
    eexists _, _. split_and!; [done|done| |by apply set_process_inv].
    cbn. unfold proc_at. cbn. by rewrite aget_aset_eq.
Qed.

(** C9. waitpid delivers, of the children it waits for, the first that has exited
    (a named child only itself): it writes the exit status, gives the process
    back and returns its identifier.  With nothing to wait for it fails with
    E_CHILD; with children that are all alive it returns 0 under WNOHANG and
    otherwise registers the caller as waiting and blocks, to look again when
    it is woken. *)
Theorem waitpid_spec e th fr m ps K l :
  let p := process_of th m in
  let t := tab (kn m) in
  let target := s32 (fr_rdi fr) in
  let c := delivered t target l in
  proc_inv t ps K -> p ∈ ps -> K !! p = Some l ->
  (c <> 0 -> (c ∈ l /\ p_state (proc_at t c) = ProcessState.Zombie /\ wanted target (proc_at t c) = true)
     /\ sys_waitpid e th fr m =
          (k ← deliver_status e (fr_rsi fr) (exit_status (proc_at t c)) (kn m);
           Some (Return (ret (s32 (pid (proc_at t c)))), with_kn (reap_process c k) m))
     /\ forall k, deliver_status e (fr_rsi fr) (exit_status (proc_at t c)) (kn m) = Some k ->
          exists ps1 ps2 K', ps = ps1 ++ c :: ps2 /\ proc_inv (tab (reap_process c k)) (ps1 ++ ps2) K'
            /\ K' !! p = Some (filter (fun x => x <> c) l)
            /\ pid_used (tab (reap_process c k)) (pid (proc_at t c)) = false)
  /\ (c = 0 -> awaited t target l = [] -> sys_waitpid e th fr m = Some (Return (ret (- Errno.E_CHILD)), m))
  /\ (c = 0 -> awaited t target l <> [] -> Z.land (s32 (fr_rdx fr)) WNOHANG <> 0 -> sys_waitpid e th fr m = Some (Return 0, m))
  /\ (c = 0 -> awaited t target l <> [] -> Z.land (s32 (fr_rdx fr)) WNOHANG = 0 ->
      exists sw m', sys_waitpid e th fr m = Some (Again sw, m')
        /\ block (env e) (sch (kn m)) = (sw, sch (kn m'))
        /\ wait_task (proc_at (tab (kn m')) p) = current_task (env e) (sch (kn m))
        /\ proc_inv (tab (kn m')) ps K).
Proof. apply waitpid_cases. Qed.

(** ** Writing to user memory *)

Lemma store_user_readonly bs e va k pa flags b :
  walk_at (pmem (vm k)) 3 (cr3 e) va = Some (pa, flags) -> is_writable flags = false -> b <> untouched ->
  store_user (b :: bs) e va k = None.
Proof.
  intros Hw Hf Hb. cbn [store_user]. replace (b =? untouched) with false by lia. unfold tries. cbn [store_user_byte].
  by rewrite Hw, Hf, page_fault_kernel.
Qed.

(** The page-fault handler only resolves faults of user mode.  A status
    pointer to a page that is shared copy-on-write since a fork, which the
    process may write to, makes waitpid panic the kernel. *)
Theorem waitpid_shared_page_panics e th fr m ps K l pa flags :
  let p := process_of th m in
  let c := delivered (tab (kn m)) (s32 (fr_rdi fr)) l in
  proc_inv (tab (kn m)) ps K -> p ∈ ps -> K !! p = Some l -> c <> 0 -> fr_rsi fr <> 0 ->
  walk_at (pmem (vm (kn m))) 3 (cr3 e) (fr_rsi fr) = Some (pa, flags) -> is_writable flags = false ->
  sys_waitpid e th fr m = None.
Proof.
  intros p c Hi Hp HKp Hc Hs Hw Hf. destruct (waitpid_cases e th fr m ps K l Hi Hp HKp) as (Hd & _).
  destruct (Hd Hc) as (_ & -> & _). unfold deliver_status. replace (negb (fr_rsi fr =? 0)) with true by lia.
  unfold int_bytes. cbn [seq fmap list_fmap]. rewrite (store_user_readonly _ _ _ _ pa flags); [done|done|done|].
  intros E. apply (f_equal (fun z => 0 <=? z)) in E. rewrite (proj2 (Z.leb_le 0 _)) in E; [done|apply Z.land_nonneg; by right].
Qed.

(** ** Exiting *)

Lemma wake_state (s : sched A) w x :
  state_of (wake w s) x = if decide (w = x /\ state_of s x = Blocked) then Ready else state_of s x.
Proof.
  unfold wake. destruct (bool_decide_reflect (state_of s w = Blocked)) as [Hb|Hb].
  - change (state_of (set_state w Ready s) x = if decide (w = x /\ state_of s x = Blocked) then Ready else state_of s x).
    rewrite state_set_state. destruct (decide (w = x)) as [->|Hne]; [by rewrite decide_True|by rewrite decide_False by tauto].
  - rewrite decide_False; [done|]. by intros [-> ?].
Qed.

Lemma block_other e (s : sched A) x : x <> current_task (env e) s -> state_of s x <> Blocked -> state_of (block (env e) s).2 x <> Blocked.
Proof.
  intros Hx Hs. unfold block. match goal with |- context [schedule_internal _ ?x] => set (s1 := x) end.
  assert (state_of s1 x = state_of s x) as E by (unfold s1; destruct (negb _); [rewrite state_set_state, decide_False by done|]; done).
  destruct (schedule_state (env e) s1 x) as [-> | ->]; [by rewrite E|done].
Qed.

Lemma die_spec e th m : th = current_task (env e) (sch (kn m)) -> th <> 0 ->
  exists o m', die e th m = Some (o, m') /\ tab (kn m') = tab (kn m)
    /\ (forall sw, o = Gone sw -> state_of (sch (kn m')) th = Blocked)
    /\ (forall x, x <> th -> state_of (sch (kn m)) x <> Blocked -> state_of (sch (kn m')) x <> Blocked).
Proof.
  intros Hth Hth0. unfold die. set (k1 := set_sch (set_state th Task.Dead) (kn m)).
  assert (current_task (env e) (sch k1) = th) as Ec by (by rewrite Hth).
  destruct (block (env e) (sch k1)) as [sw sc] eqn:Eb. eexists _, _. split; [done|]. split; [done|]. cbn [kn with_kn set_sch sch]. split.
  - intros sw' Eo. pose proof (block_current (env e) (sch k1) sw sc) as Hb. rewrite Ec in Hb. apply Hb; [done|done|].
    intros ->. discriminate Eo.
  - intros x Hx Hs. pose proof (block_other e (sch k1) x) as Hb. rewrite Ec, Eb in Hb. apply Hb; [done|].
    unfold k1. cbn. by rewrite state_set_state, decide_False by congruence.
Qed.

(** C19. A call of exit never fails.  It leaves a zombie with its status among the
    children of its parent, hands its own children to the first process, and
    wakes a parent that waits for it.  The task of the caller is marked Dead
    and then blocked: it ends up Blocked, not Dead. *)
Theorem exit_spec e th fr m ps K cs :
  let c := process_of th m in
  let par := parent (proc_at (tab (kn m)) c) in
  let w := wait_task (proc_at (tab (kn m)) par) in
  proc_inv (tab (kn m)) ps K -> c ∈ ps -> K !! c = Some cs ->
  th = current_task (env e) (sch (kn m)) -> th <> 0 -> w <> th ->
  exists o m' init K', sys_exit e th fr m = Some (o, m') /\ proc_inv (tab (kn m')) ps K'
    /\ p_state (proc_at (tab (kn m')) c) = ProcessState.Zombie /\ exit_status (proc_at (tab (kn m')) c) = s32 (fr_rdi fr)
    /\ (par <> 0 -> exists l, K' !! par = Some l /\ c ∈ l)
    /\ init ∈ ps /\ pid (proc_at (tab (kn m)) init) = 0
    /\ (init <> c -> K' !! c = Some [] /\ forall q, q ∈ cs -> parent (proc_at (tab (kn m')) q) = init)
    /\ (par <> 0 -> w <> 0 -> wait_task (proc_at (tab (kn m')) par) = 0 /\ state_of (sch (kn m')) w <> Blocked)
    /\ (forall sw, o = Gone sw -> state_of (sch (kn m')) th = Blocked).
Proof.
  intros c par w Hi Hc HKc Hth Hth0 Hw. pose proof (ptree_nonnull _ _ _ _ (pi_tree _ _ _ Hi) Hc) as Hc0.
  assert (par <> c) as Hpc.
  { intros E. destruct (pi_rank _ _ _ Hi) as [rank Hr]. specialize (Hr c Hc). fold par in Hr. rewrite E in Hr. lia. }
  destruct (exit_tree (tab (kn m)) ps K c (s32 (fr_rdi fr)) cs Hi Hc HKc)
    as (init & t' & K' & Ei & Hin & Hpid & Et & Hi' & Hat & HKc' & _). cbv zeta in Hat, Ei, Et.
  set (t1 := update_proc c _ (tab (kn m))) in *.
  assert (forall q, proc_at t1 q = if decide (c = q) then with_status ProcessState.Zombie (s32 (fr_rdi fr)) (proc_at (tab (kn m)) q)
    else proc_at (tab (kn m)) q) as Hat1.
  { intros q. unfold t1, proc_at, update_proc. cbn. rewrite aget_aset. destruct (decide (c = q)) as [Hd|]; [by rewrite Hd|done]. }
  assert (c ∉ cs) as Hccs by (intros [_ E]%(tr_kids _ _ _ (pi_tree _ _ _ Hi) c cs c HKc); done).
  assert (proc_at t' c = with_status ProcessState.Zombie (s32 (fr_rdi fr)) (proc_at (tab (kn m)) c)) as Htc.
  { rewrite Hat, decide_False by tauto. by rewrite Hat1, decide_True. }
  assert (parent (proc_at t' c) = par) as Hpar by (by rewrite Htc).
  assert (wait_task (proc_at t' par) = w) as Hwt.
  { rewrite Hat. destruct (decide (par ∈ cs /\ init <> c)); cbn; rewrite Hat1, decide_False by done; done. }
  unfold sys_exit. change (th_process (aget (threads (kn m)) th)) with c. replace (c =? 0) with false by lia. cbv zeta.
  change (tab (set_process c (with_status ProcessState.Zombie (s32 (fr_rdi fr))) (kn m))) with t1.
  rewrite Ei. cbn [mbind option_bind]. rewrite Et. cbn [mbind option_bind].
  change (tab (set_tab (fun _ => t') _)) with t'. rewrite Hpar, Hwt.
  remember (negb (par =? 0) && negb (w =? 0)) as bw eqn:Ebw.
  match goal with |- context [die e th (with_kn ?x m)] => set (k2 := x) end.
  assert (tab k2 = if bw then update_proc par (with_wait 0) t' else t') as Et2 by (unfold k2; by destruct bw).
  assert (current_task (env e) (sch k2) = current_task (env e) (sch (kn m))) as Ec2.
  { unfold k2. destruct bw; [|done]. cbn. unfold wake. by destruct (bool_decide _). }
  destruct (die_spec e th (with_kn k2 m)) as (o & m' & -> & Etab & Hgone & Hst); [cbn; congruence|done|]. cbn [kn with_kn] in *.
  assert (forall q, p_state (proc_at (tab (kn m')) q) = p_state (proc_at t' q) /\ exit_status (proc_at (tab (kn m')) q) = exit_status (proc_at t' q)
    /\ parent (proc_at (tab (kn m')) q) = parent (proc_at t' q)) as Hq.
  { intros q. rewrite Etab, Et2. destruct bw; [|done]. unfold proc_at, update_proc. cbn. rewrite aget_aset. destruct (decide (par = q)) as [Hd|]; [by rewrite Hd|done]. }
  exists o, m', init, K'. split; [done|]. split_and!; try done.
  - rewrite Etab, Et2. destruct bw; [by apply inv_update|done].
  - destruct (Hq c) as [-> _]. by rewrite Htc.
  - destruct (Hq c) as (_ & -> & _). by rewrite Htc.
  - intros Hp0. destruct (tr_parent _ _ _ (pi_tree _ _ _ Hi') c Hc) as [?|Hpp]; [congruence|]. rewrite Hpar in Hpp.
    destruct (ptree_lookup _ _ _ _ (pi_tree _ _ _ Hi') Hpp) as [l Hl]. exists l. split; [done|].
    by apply (tr_kids _ _ _ (pi_tree _ _ _ Hi') par l c Hl).
  - intros Hne. split; [by rewrite HKc', decide_False|]. intros q Hqc. destruct (Hq q) as (_ & _ & ->). by rewrite Hat, decide_True.
  - intros Hp0 Hw0. assert (bw = true) as Eb by (rewrite Ebw; apply andb_true_iff; split; apply negb_true_iff, Z.eqb_neq; done). rewrite Etab, Et2, Eb. split.
    + unfold proc_at, update_proc. cbn. by rewrite aget_aset_eq.
    + apply Hst; [done|]. unfold k2. rewrite Eb. cbn. rewrite wake_state. destruct (decide (w = w /\ _)); naive_solver.
Qed.

(** ** The program break *)

Lemma brk_loop_stack n pml4 : forall page last k,
  brk_loop n pml4 page k = (fun r => (r.1.1, r.2)) <$> stack_loop n pml4 page last k.
Proof.
  induction n as [|n IH]; intros page last k; cbn [brk_loop stack_loop]; [done|].
  destruct (fresh_page _ _ _ _) as [[[err ph] k1]|]; cbn [mbind option_bind]; [|done]. destruct (err <? 0); [done|]. apply IH.
Qed.

Lemma page_up_eq x : 0 <= x -> x + 4095 < 2 ^ 64 -> page_up x = (x + 4095) / 4096 * 4096.
Proof. intros H1' H2'. unfold page_up. rewrite wrap_small by lia. apply page_down_eq. lia. Qed.

(** C20. Growing the break maps every page up to the new one: writable, not
    executable, zeroed and in a frame of its own; every other page of the
    lower half is translated as before.  If memory runs out the break stays,
    though pages may have been mapped.  A break below the old one is taken
    over and unmaps nothing. *)
Theorem brk_spec th fr m root own o m' :
  let p := process_of th m in
  let x := proc_at (tab (kn m)) p in
  let new := fr_rdi fr in
  p <> 0 -> root = pml4_phys x -> root <> 0 -> vm_ok (kn m) root own ->
  0 <= brk_base x -> 0 < new -> brk_base x <= new -> new + 4095 <= 2 ^ 47 -> 0 <= brk x -> brk x + 4095 <= 2 ^ 47 ->
  sys_brk th fr m = Some (o, m') ->
  (o = Return (ret (- Errno.E_NO_MEM)) /\ tab (kn m') = tab (kn m))
  \/ (o = Return new /\ brk (proc_at (tab (kn m')) p) = new
      /\ exists own', vm_ok (kn m') root own'
        /\ (forall va, va mod 4096 = 0 -> page_up (brk x) <= va < page_up new ->
              page_holds (fun _ => False) (kn m') root own' va (split_flags stack_flags) (fun _ => 0))
        /\ (forall va, 0 <= va < 2 ^ 47 -> ~ (page_up (brk x) <= va < page_up new) ->
              walk_at (phys (kn m')) 3 root va = walk_at (phys (kn m)) 3 root va)).
Proof.
  intros p x new Hp Hroot Hr0 Hok Hbb Hn0 Hbn Hn1 Hb0 Hb1. unfold sys_brk. change (th_process (aget (threads (kn m)) th)) with p.
  fold x new. replace (p =? 0) with false by lia. replace (new =? 0) with false by lia. replace (new <? brk_base x) with false by lia. cbv zeta.
  rewrite <- Hroot, !(page_up_eq) by lia. set (o1 := (brk x + 4095) / 4096 * 4096). set (n1 := (new + 4095) / 4096 * 4096).
  rewrite (brk_loop_stack _ _ _ 0). set (n := Z.to_nat ((n1 - o1) / 0x1000)).
  destruct (stack_loop n root o1 0 (kn m)) as [[[err last] k1]|] eqn:Es; cbn [fmap option_fmap option_map mbind option_bind fst snd]; [|done].
  assert (o1 + 4096 * Z.of_nat n <= 2 ^ 47 /\ (n1 <= o1 -> n = O) /\ (o1 < n1 -> o1 + 4096 * Z.of_nat n = n1)) as (Hlim & Hle & Hgt).
  { unfold n, o1, n1. change 0x1000 with 4096. zlia. }
  destruct (stack_loop_spec (fun _ => False) root n (kn m) root own o1 0 (err, last, k1) Hok) as (Hrest & Herr & own' & Hok' & Hk & Hres); try done.
  { unfold resolve_pml4. by replace (root =? 0) with false by lia. }
  { unfold o1. zlia. }
  { unfold o1. zlia. }
  cbn [fst snd] in *. destruct Hrest as (Et & _). destruct Herr as [->| ->].
  - change (0 <? 0) with false. cbv iota. intros [= <- <-]. right. split; [done|]. split.
    { cbn. unfold proc_at. cbn. by rewrite aget_aset_eq. }
    destruct (Hres eq_refl) as [[Hl Ho] _]. exists own'. split_and!; [done| |].
    + intros va Hal Hva. destruct (Z.le_gt_cases n1 o1); [lia|]. specialize (Hl ((va - o1) / 4096)).
      assert (o1 + 4096 * ((va - o1) / 4096) = va) as E by (unfold o1 in *; zlia). rewrite E in Hl. apply Hl. zlia.
    + intros va Hva Hout. apply Ho; [done|]. destruct (Z.le_gt_cases n1 o1); [rewrite Hle by lia; lia|]. lia.
  - intros [= <- <-]. left. by split.
Qed.

(** A break within a page of the end of the address space wraps: it is taken
    over although no page is mapped. *)
Theorem brk_wraps th fr m :
  let p := process_of th m in
  let x := proc_at (tab (kn m)) p in
  p <> 0 -> 2 ^ 64 - 4095 <= fr_rdi fr < 2 ^ 64 -> brk_base x <= fr_rdi fr ->
  exists m', sys_brk th fr m = Some (Return (fr_rdi fr), m')
    /\ brk (proc_at (tab (kn m')) p) = fr_rdi fr /\ vm (kn m') = vm (kn m).
Proof.
  intros p x Hp Hn Hb. unfold sys_brk. change (th_process (aget (threads (kn m)) th)) with p. fold x.
  replace (p =? 0) with false by lia. replace (fr_rdi fr =? 0) with false by lia. replace (fr_rdi fr <? brk_base x) with false by lia. cbv zeta.
  assert (page_up (fr_rdi fr) = 0) as ->.
  { unfold page_up. replace (fr_rdi fr +64 0xFFF) with (fr_rdi fr + 4095 - 2 ^ 64) by (unfold wrap; zlia). rewrite page_down_eq by lia. zlia. }
  assert (0 <= page_up (brk x)) as Ho.
  { unfold page_up, page_down. apply Z.land_nonneg. left. apply (wrap_range 64). lia. }
  replace (Z.to_nat _) with O by zlia. cbn. eexists. split_and!; [done| |done]. cbn. unfold proc_at. cbn. by rewrite aget_aset_eq.
Qed.

(** ** Fork *)

(** The frame the child returns with. *)
Definition child_frame e fr : SyscallFrame :=
  Build_SyscallFrame (fr_user_rip fr) (fr_user_rflags fr) (fr_rdi fr) (fr_rsi fr) (fr_rdx fr) (fr_r10 fr)
    (fr_r8 fr) (fr_r9 fr) (fr_rbx fr) (fr_rbp fr) (fr_r12 fr) (fr_r13 fr) (fr_r14 fr) (fr_r15 fr) 0 (gs_user_rsp e).

(** The context that the switch to a new task pops: six registers and the
    return address; [fork_return] then finds the frame. *)
Definition returns_to_child e fr (s : sched A) (t : Z) : Prop :=
  let ctx := t_context (task_at s t) in
  (forall i, 0 <= i < 6 -> aget (stack_mem s) (ctx +64 8 * i) = 0)
  /\ aget (stack_mem s) (ctx +64 48) = fork_return e
  /\ forall i w, frame_words (child_frame e fr) !! i = Some w -> aget (stack_mem s) (ctx +64 (56 + 8 * Z.of_nat i)) = w.

Lemma fork_stack_spec e fr t (s : sched A) : returns_to_child e fr (fork_stack e fr t s) t.
Proof.
  unfold returns_to_child. set (top := stk_top (t_stack (task_at s t))). set (sp := top -64 sizeof_SyscallFrame).
  assert (t_context (task_at (fork_stack e fr t s) t) = sp -64 56) as ->.
  { unfold fork_stack. fold top. fold sp. cbv zeta. unfold task_at at 1, update_task, set_tasks. cbn [tasks]. by rewrite aget_aset_eq. }
  assert (stack_mem (fork_stack e fr t s) = put_words (sp -64 56) (replicate 6 0)
    (aset (put_words sp (frame_words (child_frame e fr)) (stack_mem s)) (sp -64 8) (fork_return e))) as -> by done.
  assert (0 <= sp < 2 ^ 64) as Hsp by (apply wrap_range; lia).
  set (m1 := aset _ _ _). assert (0 <= sp -64 56 < 2 ^ 64) as Hc by (apply wrap_range; lia).
  destruct (put_words_spec (replicate 6 0) (sp -64 56) m1 Hc ltac:(done)) as [Hz Ho].
  assert (forall j, 48 <= j < 2 ^ 32 -> aget (put_words (sp -64 56) (replicate 6 0) m1) ((sp -64 56) +64 j) = aget m1 ((sp -64 56) +64 j)) as Hout.
  { intros j Hj. apply Ho. intros i Hi E. cbn in Hi. unfold wrap in E. zlia. }
  assert (forall j, (sp -64 56) +64 (56 + j) = sp +64 j) as Haddr by (intros j; unfold wrap; rewrite Zplus_mod_idemp_l; f_equal; lia).
  split_and!.
  - intros i Hi. specialize (Hz (Z.to_nat i) 0). rewrite Z2Nat.id in Hz by lia. apply Hz. apply lookup_replicate_2. lia.
  - rewrite Hout by lia. unfold m1. replace ((sp -64 56) +64 48) with (sp -64 8) by (unfold wrap; rewrite Zplus_mod_idemp_l; f_equal; lia).
    apply aget_aset_eq.
  - intros i w Hw. assert (i < 16)%nat as Hi by (apply lookup_lt_Some in Hw; done). rewrite Hout, Haddr by lia. unfold m1. rewrite aget_aset_ne.
    + by apply (put_words_spec (frame_words (child_frame e fr)) sp (stack_mem s) Hsp).
    + unfold wrap. intros E. zlia.
Qed.

Lemma enqueue_stack (s : sched A) t : stack_mem (sched_enqueue t s) = stack_mem s
  /\ forall x, t_context (task_at (sched_enqueue t s) x) = t_context (task_at s x) /\ t_cr3 (task_at (sched_enqueue t s) x) = t_cr3 (task_at s x).
Proof.
  unfold sched_enqueue. split; [by destruct (_ =? 0)|]. intros x.
  assert (forall (s' : sched A) x, t_context (task_at (set_state t Ready s') x) = t_context (task_at s' x) /\ t_cr3 (task_at (set_state t Ready s') x) = t_cr3 (task_at s' x)) as Hst.
  { intros s' y. unfold task_at, set_state, update_task, set_tasks. cbn. rewrite aget_aset. case_decide; [by subst|done]. }
  destruct (_ =? 0); [|apply Hst].
  change (t_context (task_at (set_state t Ready (update_task t (with_id (next_task_id s)) s)) x) = t_context (task_at s x)
    /\ t_cr3 (task_at (set_state t Ready (update_task t (with_id (next_task_id s)) s)) x) = t_cr3 (task_at s x)).
  destruct (Hst (update_task t (with_id (next_task_id s)) s) x) as [-> ->].
  unfold task_at, update_task, set_tasks. cbn. rewrite aget_aset. case_decide; [by subst|done].
Qed.

Lemma thread_create_spec tr p en st k t k' : p <> 0 -> thread_create tr p en st k = (t, k') -> t <> 0 ->
  tab k' = tab k /\ fs k' = fs k /\ th_process (aget (threads k') t) = p /\ user_rip (aget (threads k') t) = en
  /\ user_rsp (aget (threads k') t) = st /\ t_cr3 (task_at (sch k') t) = pml4_phys (proc_at (tab k) p).
Proof.
  intros Hp. unfold thread_create. destruct (KAlloc.kalloc _ _ _) as [th a]. destruct (Z.eqb_spec th 0) as [->|Hth]; [by intros [= <- _]|].
  unfold Process.alloc_pages. destruct (pa_alloc _ _) as [ph s1]. destruct (ph =? _); [by intros [= <- _]|].
  intros [= <- <-] _. split_and!; try done; cbn [threads set_sch set_thread]; rewrite ?aget_aset_eq; try done.
  cbn [sch set_sch]. unfold setup_task_stack, task_at, update_task, set_tasks. cbn. rewrite !aget_aset_eq. cbn.
  by replace (p =? 0) with false by lia.
Qed.

Context `{!SharedPages A S}.

(** C10. Fork either runs out of memory or makes a new process, a child of the
    caller with a copy of its descriptors and of its address space, and one
    thread on that address space that returns to user mode with the caller's
    registers, except for 0 as the result; the caller gets the identifier. *)
Theorem fork_spec e th fr m ps K live o m' :
  let p := process_of th m in
  let k := kn m in
  proc_inv (tab k) ps K -> procs_live k ps live -> p ∈ ps -> p_state (proc_at (tab k) p) = ProcessState.Alive ->
  sys_fork e th fr m = Some (o, m') ->
  o = Return (ret (- Errno.E_NO_MEM))
  \/ exists c t K', let k' := kn m' in
       o = Return (pid (proc_at (tab k') c)) /\ c ∉ ps /\ proc_inv (tab k') (c :: ps) K'
       /\ parent (proc_at (tab k') c) = p /\ p_state (proc_at (tab k') c) = ProcessState.Alive
       /\ K' !! p = (fun l => l ++ [c]) <$> K !! p
       /\ aget (fd_tables (fs k')) c = aget (fd_tables (fs k)) p
       /\ pml4_phys (proc_at (tab k') c) = (clone_address_space (pml4_phys (proc_at (tab k) p)) (vm_view k)).1
       /\ thread_list (proc_at (tab k') c) = t /\ th_process (aget (threads k') t) = c
       /\ t_cr3 (task_at (sch k') t) = pml4_phys (proc_at (tab k') c)
       /\ returns_to_child e fr (sch k') t.
Proof.
  intros p k Hi [Hwf Hl] Hp Hal. unfold sys_fork. change (th_process (aget (threads (kn m)) th)) with p. fold k. cbv zeta.
  pose proof (ptree_nonnull _ _ _ _ (pi_tree _ _ _ Hi) Hp) as Hp0. replace (p =? 0) with false by lia.
  pose proof (clone_sound k live (pml4_phys (proc_at (tab k) p)) Hwf) as Hcl.
  destruct (clone_address_space _ _) as [cp v]. cbn [fst snd] in Hcl |- *.
  destruct (Z.eqb_spec cp 0) as [->|Hcp]; [intros [= <- _]; by left|].
  pose proof (process_create_cases (put_vm v k) ps K live cp p) as Hc. cbv zeta in Hc.
  destruct (process_create cp p (put_vm v k)) as [c k1] eqn:Ec. cbn [fst snd] in Hc.
  assert (fs k1 = fs k \/ aget (fd_tables (fs k1)) p = aget (fd_tables (fs k)) p) as Hfds.
  { right. unfold process_create in Ec. destruct (KAlloc.kalloc _ _ _) as [x a] eqn:Ek. destruct (x =? 0); [by injection Ec as <- <-|].
    assert (x <> p) as Hxp.
    { destruct (kalloc_law (mem (put_vm v k)) live sizeof_Process alignof_Process (Hcl Hcp) ltac:(done)) as [[E _]|(_ & E & _)]; rewrite Ek in E; cbn in E.
      - lia.
      - intros ->. by rewrite (Hl p Hp) in E. }
    destruct (pid_alloc _) as [id t]. destruct (id =? _); injection Ec as <- <-; cbn; by rewrite aget_aset_ne. }
  destruct Hc as [(-> & _)|(Hc0 & Hcn & _ & K' & id & Hi' & HKc & HK & Hold & Hnew & Hf)].
  { done. } { by split; [apply Hcl|]. } { right. split; [done|]. cbn. fold k. congruence. }
  { intros [= <- _]. by left. }
  replace (c =? 0) with false by lia. set (k2 := set_fds c _ k1).
  assert (tab k2 = tab k1) as E2 by done.
  destruct (thread_create _ _ _ _ k2) as [t k3] eqn:Et. destruct (Z.eqb_spec t 0) as [->|Ht0]; [intros [= <- _]; by left|].
  destruct (thread_create_spec _ _ _ _ _ _ _ Hc0 Et Ht0) as (T1 & T2 & T3 & _ & _ & T4).
  intros [= <- <-]. right. exists c, t, K'. cbn [kn with_kn].
  match goal with |- context [set_sch (sched_enqueue t) ?x] => set (k4 := x) end.
  destruct (enqueue_stack (sch k4) t) as [Hst Hctx].
  assert (tab k4 = update_proc c (with_thread t) (tab k1)) as E4 by (unfold k4; cbn; by rewrite T1).
  assert (proc_at (tab k4) c = with_thread t (Build_Process id ProcessState.Alive 0 cp p 0 0 0 0)) as Hpc.
  { rewrite E4. unfold proc_at, update_proc. cbn. rewrite aget_aset_eq. unfold proc_at in Hnew. by rewrite Hnew. }
  change (tab (set_sch (sched_enqueue t) k4)) with (tab k4). change (sch (set_sch (sched_enqueue t) k4)) with (sched_enqueue t (sch k4)).
  split; [done|]. rewrite Hpc. split_and!; try done.
  - rewrite E4. by apply inv_update.
  - rewrite HK by congruence. by rewrite decide_True.
  - change (fs (set_sch (sched_enqueue t) k4)) with (fs k3). rewrite T2. unfold k2. cbn. rewrite aget_aset_eq.
    destruct Hfds as [->|E]; [done|exact E].
  - rewrite (proj2 (Hctx t)). cbn. unfold task_at, fork_stack, update_task, set_tasks. cbn. rewrite aget_aset_eq. cbn.
    unfold task_at in T4. rewrite T4, E2, Hnew. done.
  - unfold returns_to_child. rewrite Hst, (proj1 (Hctx t)). apply fork_stack_spec.
Qed.

End Calls.
