(* ===== verification/Pool.v ===== *)
(** A simple allocator over any page allocator, as a second implementation of
    the allocator interfaces next to the slices: objects are laid out one
    after the other and never reused, frames come from the page allocator.
    Concrete runs of the process layer use it, because a process descriptor
    does not fit in a slice. *)

From S2P Require Import Prelude MemoryMap Pmm PageAlloc Slice KAlloc DList Task Vmm AddressSpace Bytes KMem VfsBase Ramfs Vfs Keyboard ProcTable ProcTree Process Elf Syscall SysTree.

Record pool (S : Type) := Pool { next_free : Z; pool_pages : S }.
Arguments Pool {S}.
Arguments next_free {S}.
Arguments pool_pages {S}.

Section Instances.
Context {S : Type} `{PageAlloc S}.
Implicit Types (a : pool S).

Definition pool_wf a (live : gmap Z Z) : Prop :=
  0 < next_free a < 2 ^ 64 /\ (forall p size, live !! p = Some size -> p < next_free a) /\ pa_wf (pool_pages a).

Definition pool_alloc (size : Z) a : Z * pool S :=
  if next_free a + size <? 2 ^ 64 then (next_free a, Pool (next_free a + size) (pool_pages a)) else (0, a).

Lemma pool_alloc_wf a live size : pool_wf a live -> 0 < size ->
  let r := pool_alloc size a in
  (r.1 = 0 /\ pool_wf r.2 live)
  \/ (0 < r.1 < 2 ^ 64 /\ live !! r.1 = None /\ pool_wf r.2 (<[r.1 := size]> live)).
Proof.
  intros (Hn & Hl & Hp) Hs. unfold pool_alloc. destruct (Z.ltb_spec (next_free a + size) (2 ^ 64)); cbn [fst snd]; [right|by left].
  split_and!; cbn; try (done || lia).
  - destruct (live !! next_free a) as [sz|] eqn:E; [|done]. apply Hl in E. lia.
  - unfold pool_wf; cbn. split_and!; [lia|lia| |done]. intros p sz. rewrite lookup_insert. case_decide; [lia|]. intros ?%Hl. lia.
Qed.

Lemma pool_frames_wf a live n : pool_wf a live -> 0 < n <= max_managed_pages ->
  pool_wf (Pool (next_free a) (pa_alloc (pool_pages a) n).2) live.
Proof.
  intros (Hn & Hl & Hp) Hr. unfold pool_wf; cbn. split_and!; try (done || lia).
  destruct (pa_alloc_law (pool_pages a) n Hp Hr) as [(page & _ & _ & _ & _ & ? & _)|E]; [done|]. by rewrite E.
Qed.

#[export, refine] Instance pool_kernel_alloc : KernelAlloc (pool S) := {|
  ka_wf := pool_wf;
  KAlloc.kalloc a size _ := pool_alloc size a;
  KAlloc.kfree a _ _ := a;
  ka_alloc_pages a n := let '(r, ps) := pa_alloc (pool_pages a) n in (r, Pool (next_free a) ps);
|}.
Proof.
  - intros a live size _. apply pool_alloc_wf.
  - intros a live p size (Hn & Hl & Hp) _. unfold pool_wf. split_and!; try (done || lia). intros q sz [_ ?]%lookup_delete_Some. by eapply Hl.
  - intros a live n Hwf Hn. pose proof (pool_frames_wf a live n Hwf Hn). by destruct (pa_alloc (pool_pages a) n).
Defined.

#[export, refine] Instance pool_lens : Lens (pool S) S := {|
  lget := pool_pages;
  lput ps a := Pool (next_free a) ps;
|}.
Proof. - done. - by intros []. - done. Defined.

#[export, refine] Instance pool_kmem : KMem (pool S) := {|
  km_wf a live frames := pool_wf a live /\ forall q, q ∈ frames -> pa_used (pool_pages a) q = true /\ 0 <= q < max_managed_pages;
  km_kalloc size _ a := pool_alloc size a;
  km_kfree _ _ a := a;
  km_alloc_page a := let '(r, ps) := pa_alloc (pool_pages a) 1 in (r, Pool (next_free a) ps);
  km_free_page phys a := Pool (next_free a) (pa_free (pool_pages a) phys 1);
|}.
Proof.
  - intros a live frames size _ [Hwf Hf] Hs. pose proof (pool_alloc_wf a live size Hwf Hs) as Hr. cbv zeta in *.
    assert (pool_pages (pool_alloc size a).2 = pool_pages a) as E by (unfold pool_alloc; by destruct (_ <? _)).
    rewrite E. naive_solver.
  - intros a live frames p size [(Hn & Hl & Hp) Hf] _. split; [|done]. unfold pool_wf. split_and!; try (done || lia).
    intros q sz [_ ?]%lookup_delete_Some. by eapply Hl.
  - intros a live frames [(Hn & Hl & Hp) Hf]. pose proof (pa_alloc_law (pool_pages a) 1 Hp ltac:(unfold max_managed_pages; lia)) as Hlaw.
    destruct (pa_alloc (pool_pages a) 1) as [r ps]. cbn [fst snd] in *.
    destruct Hlaw as [(page & -> & H1 & H2 & Hfree & Hwf & Hu)|[= -> ->]]; [right|left; by unfold pool_wf; cbn].
    exists page. split_and!; try (done || lia).
    + intros [Hq _]%Hf. by rewrite Hfree in Hq by lia.
    + intros q [->%elem_of_singleton|Hq]%elem_of_union; cbn; rewrite Hu.
      * split; [|lia]. apply orb_true_iff. right. apply in_run_true. lia.
      * destruct (Hf q Hq) as [-> ?]. done.
  - intros a live frames page [(Hn & Hl & Hp) Hf] Hpage. destruct (Hf page Hpage) as [Hused Hr].
    destruct (pa_free_law (pool_pages a) page 1 Hp Hr ltac:(lia)) as [Hps Hu]; [unfold max_managed_pages in *; lia|].
    split; [by unfold pool_wf; cbn|]. intros q [Hq Hne]%elem_of_difference. cbn. destruct (Hf q Hq) as [Hqu Hqr]. split; [|done].
    destruct (Hu q) as [_ ->]; [done|]. apply not_true_iff_false. rewrite in_run_true. set_solver by lia.
Defined.

End Instances.

#[export] Instance pool_shared {S} `{PageRefs S} : SharedPages (pool S) S.
Proof.
  split.
  - by intros a live (_ & _ & ?).
  - intros a live n. apply pool_frames_wf.
  - intros a live x (Hn & Hl & Hp). split; [done|]. split; [done|]. by apply pa_retain_law.
Qed.

(** The memory filesystem looks names up without allocating. *)
#[export] Instance ramfs_lookup_memory {A} `{KMem A} `{KernelAlloc A} : LookupMemory (ramfs A) A.
Proof.
  split. intros v name f err r f' live Hwf. cbn. unfold ramfs_lookup. intros Hr. exists live. split; [done|].
  enough (f' = f) as -> by done.
  repeat match type of Hr with
  | mbind _ ?o = Some _ => destruct o; cbn [mbind option_bind] in Hr; [|discriminate Hr]
  | (match ?x with _ => _ end) = Some _ => destruct x
  end; by injection Hr as _ _ <-.
Qed.
