(* ===== verification/Scenario.v ===== *)
(** Concrete runs of the system calls: a machine with one or two processes,
    on 1 MiB of memory, with a program in the memory filesystem. *)

From S2P Require Import Prelude MemoryMap Pmm PageAlloc Slice KAlloc DList Task Vmm AddressSpace Bytes KMem VfsBase Ramfs Vfs Keyboard ProcTable ProcTree Process Elf Syscall SysTree SysSpec Pool.

Notation world := (kernel pmm (pool pmm) (ramfs (pool pmm))).

(** The root directory holds the program [a]. *)
Definition w_heap : pool pmm := Pool 0x900000 elf_pmm.
Definition w_fs : ramfs (pool pmm) :=
  Ramfs {[0x1000 := Build_Vnode Directory 1 0x1100 1 0; 0x2000 := Build_Vnode File 1 0x3000 1 0]}
    {[0x1100 := Build_RamfsDir 0x1200 [Build_RamfsEntry [97] 0x2000] 16]} {[0x3000 := elf_file]} elf_fmem w_heap.
Definition w_sched : sched (pool pmm) :=
  Sched (afill no_task) (afill 0) (DL 0 0 (afill 0) (afill 0)) 1 0 0 (afill false) false (DL 0 0 (afill 0) (afill 0))
    (afill (Build_PerCPU 0 0 0)) (afill 0) 0xffff800000000000 w_heap.
Definition w_start : world :=
  Kernel (init_process_system empty_tab) (afill (Build_Thread 0 0 0 0 0 0)) w_sched
    (Vmm (afill 0) 0x105000 0 0 elf_pmm) (Vfs [] (afill []) 0x1000 true w_fs).

(** The first process, on the page table of the kernel, and a child. *)
Definition w_init : Z := 0x900000.
Definition w_child : Z := w_init + sizeof_Process.
Definition w_one : world := (process_create 0x105000 0 w_start).2.
Definition w_two : world := (process_create 0 w_init w_one).2.

Definition w_env : SysEnv := {|
  env := {| lapic_id := 0; uptime_ms := 0; Task.kernel_pml4 := 0x105000; task_trampoline := 0x1000; idle_entry := 0x2000; rsp := 0x3000 |};
  cr3 := 0x105000; gs_user_rsp := 0x7000; thread_trampoline := 0x1100; fork_return := 0x1200; local_ehdr := afill 0 |}.
Definition w_thread : Z := 0x800000.
(** The thread of process [p] runs. *)
Definition run_as (p : Z) (k : world) : machine pmm (pool pmm) (ramfs (pool pmm)) :=
  Machine (set_sch (fun s => set_current (fun c => aset c 0 w_thread)
      (update_task w_thread (fun t => {| t_id := 1; t_name := []; t_state := Running; t_stack := t_stack t;
         t_context := 0; t_entry := 0; t_arg := 0; t_creation_time := 0; t_thread := w_thread; t_cr3 := 0x105000 |}) s))
      (set_thread w_thread (Build_Thread p 0 0 0 0 0) k))
    (Keyboard false false (afill 0) 0 0) (Terminal (afill 0) 0 false []) [].
Definition frame (a b c : Z) : SyscallFrame := Build_SyscallFrame 0x400100 0x202 a b c 4 5 6 7 8 9 10 11 12 0 0x7000.

Lemma run_as_live p k ps live : procs_live k ps live -> procs_live (kn (run_as p k)) ps live.
Proof. by intros [? ?]. Qed.
Lemma run_as_inv p k ps K : proc_inv (tab k) ps K -> proc_inv (tab (kn (run_as p k))) ps K.
Proof. done. Qed.

(** ** The processes *)

Lemma w_start_inv : proc_inv (tab w_start) [] ∅.
Proof.
  split; [|done|by intros p q ?%elem_of_nil|by intros p ?%elem_of_nil| |done|done|by intros p ?%elem_of_nil|by exists (fun _ => O)].
  - split; [|split| | |by intros q ?%elem_of_nil].
    + split; [done|done|constructor|apply not_elem_of_nil|done].
    + intros p l Hp. by rewrite lookup_empty in Hp.
    + intros p q l1 l2 x Hp. by rewrite lookup_empty in Hp.
    + intros p. rewrite lookup_empty. split; [by intros [? ?]|by intros ?%elem_of_nil].
    + intros p l q Hp. by rewrite lookup_empty in Hp.
  - assert (forall i, aget (pid_bitmap (tab w_start)) i = 0) as Hz.
    { intros i. cbn -[for_z]. apply (for_z_inv (fun _ b => aget b i = 0)); [done|apply aget_afill|].
      intros j b _ Hb. rewrite aget_aset. by case_decide. }
    intros id Hid. split; [|by intros (p & ?%elem_of_nil & _)]. unfold pid_used. rewrite Hz. by rewrite Z.land_0_l.
Qed.

Lemma w_start_live : procs_live w_start [] ∅.
Proof.
  split; [|by intros p ?%elem_of_nil]. split; [done|]. split; [by intros p size; rewrite lookup_empty|]. exact elf_pmm_wf.
Qed.

Lemma w_one_ok : exists K, proc_inv (tab w_one) [w_init] K /\ K !! w_init = Some [] /\ procs_live w_one [w_init] {[w_init := sizeof_Process]}
  /\ proc_at (tab w_one) w_init = Build_Process 0 ProcessState.Alive 0 0x105000 0 0 0 0 0.
Proof.
  destruct (process_create_cases w_start [] ∅ ∅ 0x105000 0 w_start_inv w_start_live (or_introl eq_refl))
    as [(E & _)|(_ & _ & Hl & K & id & Hi & HK & _ & _ & _)].
  - exfalso. revert E. vm_compute. discriminate.
  - assert ((process_create 0x105000 0 w_start).1 = w_init) as E by (vm_compute; reflexivity).
    rewrite E in *. rewrite insert_empty in Hl. exists K. split_and!; done.
Qed.

Lemma w_two_ok : exists K, proc_inv (tab w_two) [w_child; w_init] K /\ K !! w_init = Some [w_child] /\ K !! w_child = Some []
  /\ proc_at (tab w_two) w_child = Build_Process 1 ProcessState.Alive 0 0 w_init 0 0 0 0.
Proof.
  destruct w_one_ok as (K1 & Hi & HK1 & Hl & Hp).
  destruct (process_create_cases w_one [w_init] K1 _ 0 w_init Hi Hl) as [(E & _)|(_ & _ & _ & K & id & Hi' & HK & Ho & _ & _)].
  - right. split; [by apply list_elem_of_singleton|]. by rewrite Hp.
  - exfalso. revert E. vm_compute. discriminate.
  - assert ((process_create 0 w_init w_one).1 = w_child) as E by (vm_compute; reflexivity).
    rewrite E in *. exists K. split; [exact Hi'|]. split; [|split; [exact HK|vm_compute; reflexivity]].
    rewrite (Ho w_init) by (vm_compute; discriminate). by rewrite decide_True, HK1.
Qed.

(** The child has exited. *)
Definition exited (p status : Z) (t : proctab) : proctab :=
  let t1 := update_proc p (with_status ProcessState.Zombie status) t in
  default t1 (init ← find_init_process t1;
    if negb (init =? 0) && negb (init =? p) then reparent_children p init t1 else Some t1).
Definition w_dead : world := set_tab (exited w_child 7) w_two.

Lemma w_dead_ok : exists K, proc_inv (tab w_dead) [w_child; w_init] K /\ K !! w_init = Some [w_child].
Proof.
  destruct w_two_ok as (K & Hi & HK1 & HK2 & _).
  destruct (exit_tree (tab w_two) _ K w_child 7 [] Hi ltac:(by apply elem_of_cons; left) HK2)
    as (init & t' & K' & Ei & Hin & Hpid & Et & Hi' & _ & _ & Hii & _).
  exists K'. unfold w_dead, exited. cbn [tab set_tab]. rewrite Ei. cbn [mbind option_bind]. rewrite Et. cbn [default]. split; [done|].
  assert (init = w_init) as ->.
  { apply elem_of_cons in Hin as [->|Hin%list_elem_of_singleton]; [|done]. exfalso. revert Hpid. vm_compute. discriminate. }
  rewrite <- Hii, HK1 by done. done.
Qed.

(** ** Witnesses *)

#[local] Opaque w_one w_two w_dead.

(** What a run leaves, when it ends. *)
Definition after {X} (x : X) (o : option (outcome * X)) : X := default x (snd <$> o).

Lemma run_after {X} (x : X) (o : option (outcome * X)) r : fst <$> o = Some r -> o = Some (r, after x o).
Proof. destruct o as [[r' x']|]; [|done]. by intros [= ->]. Qed.

Lemma waitpid_spec_witness : exists m', sys_waitpid w_env w_thread (frame 0 0 0) (run_as w_init w_dead) = Some (Return 1, m')
  /\ processes (tab (kn m')) = [w_init].
Proof.
  destruct w_dead_ok as (K & Hi & HK).
  destruct (waitpid_spec w_env w_thread (frame 0 0 0) (run_as w_init w_dead) [w_child; w_init] K [w_child] (run_as_inv _ _ _ _ Hi)) as (Hd & _).
  - apply elem_of_cons. right. by apply list_elem_of_singleton.
  - exact HK.
  - assert (delivered (tab (kn (run_as w_init w_dead))) (s32 (fr_rdi (frame 0 0 0))) [w_child] = w_child) as E by (vm_compute; reflexivity).
    rewrite E in Hd. destruct Hd as (_ & Hr & Ht); [vm_compute; discriminate|]. destruct (Ht (kn (run_as w_init w_dead)) eq_refl) as (ps1 & ps2 & K' & Eps & Hi' & _).
    eexists. split; [rewrite Hr; cbn [deliver_status fr_rsi frame negb Z.eqb mbind option_bind]; f_equal; f_equal; vm_compute; reflexivity|].
    cbn [kn with_kn]. rewrite (processes_eq _ _ _ Hi').
    destruct ps1 as [|x [|y ps1]]; cbn in Eps; [|exfalso; injection Eps as _ E2 _; by vm_compute in E2|exfalso; injection Eps as _ _ E2; by destruct ps1].
    by injection Eps as <-.
Defined.

Lemma exit_spec_witness : exists m' (K' : gmap Z (list Z)), sys_exit w_env w_thread (frame 7 0 0) (run_as w_child w_two) = Some (Return 0, m')
  /\ exit_status (proc_at (tab (kn m')) w_child) = 7 /\ exists l, K' !! w_init = Some l /\ w_child ∈ l.
Proof.
  destruct w_two_ok as (K & Hi & HK1 & HK2 & Hp).
  destruct (exit_spec w_env w_thread (frame 7 0 0) (run_as w_child w_two) [w_child; w_init] K [] (run_as_inv _ _ _ _ Hi))
    as (o & m' & init & K' & E & _ & _ & Hs & Hl & _).
  - by apply elem_of_cons; left.
  - exact HK2.
  - reflexivity.
  - discriminate.
  - vm_compute. discriminate.
  - exists m', K'. split_and!; [rewrite E; f_equal; f_equal|exact Hs|].
    + assert (fst <$> sys_exit w_env w_thread (frame 7 0 0) (run_as w_child w_two) = Some (Return 0)) as Eo by (vm_compute; reflexivity).
      rewrite E in Eo. by injection Eo.
    + apply Hl. vm_compute. discriminate.
Defined.

Lemma fork_spec_witness : exists m' c t,
  sys_fork w_env w_thread (frame 1 2 3) (run_as w_init w_one) = Some (Return 1, m')
  /\ parent (proc_at (tab (kn m')) c) = w_init /\ returns_to_child w_env (frame 1 2 3) (sch (kn m')) t.
Proof.
  destruct w_one_ok as (K & Hi & HK & Hl & Hp).
  set (m' := after (run_as w_init w_one) (sys_fork w_env w_thread (frame 1 2 3) (run_as w_init w_one))).
  assert (sys_fork w_env w_thread (frame 1 2 3) (run_as w_init w_one) = Some (Return 1, m')) as Er by (apply run_after; vm_compute; reflexivity).
  destruct (fork_spec w_env w_thread (frame 1 2 3) (run_as w_init w_one) [w_init] K {[w_init := sizeof_Process]} (Return 1) m'
    (run_as_inv _ _ _ _ Hi) (run_as_live _ _ _ _ Hl)) as [E|(c & t & K' & _ & _ & _ & Hpar & _ & _ & _ & _ & _ & _ & _ & Hret)].
  - by apply list_elem_of_singleton.
  - vm_compute. reflexivity.
  - exact Er.
  - exfalso. revert E. vm_compute. discriminate.
  - exists m', c, t. split; [exact Er|]. split; [exact Hpar|exact Hret].
Defined.

Lemma run_as_vm p k root own : vm_ok k root own -> vm_ok (kn (run_as p k)) root own.
Proof. done. Qed.

Lemma w_one_vm : vm_ok w_one 0x105000 {[0x105000 := []]}.
Proof.
  destruct w_one_ok as (K & _ & _ & [Hl _] & _). split; [exact (sp_wf _ _ Hl)|].
  assert (phys w_one = afill 0) as -> by (vm_compute; reflexivity). split.
  - apply lookup_singleton_eq.
  - intros t p i _ _ _. unfold ent. by rewrite aget_afill.
  - intros t p [<- <-]%lookup_singleton_Some. by left.
  - intros t p [<- <-]%lookup_singleton_Some. split; [cbn; lia|]. exists 0x105.
    split; [done|]. split; [done|]. vm_compute. reflexivity.
Qed.

(** The break of the first process goes from 0 to 0x2001. *)
Lemma brk_spec_witness : exists m' own',
  sys_brk w_thread (frame 0x2001 0 0) (run_as w_init w_one) = Some (Return 0x2001, m')
  /\ page_holds (fun _ => False) (kn m') 0x105000 own' 0x2000 (split_flags stack_flags) (fun _ => 0).
Proof.
  set (m' := after (run_as w_init w_one) (sys_brk w_thread (frame 0x2001 0 0) (run_as w_init w_one))).
  assert (sys_brk w_thread (frame 0x2001 0 0) (run_as w_init w_one) = Some (Return 0x2001, m')) as Er by (apply run_after; vm_compute; reflexivity).
  destruct (brk_spec w_thread (frame 0x2001 0 0) (run_as w_init w_one) 0x105000 {[0x105000 := []]} (Return 0x2001) m')
    as [[E _]|(_ & _ & own' & _ & Hh & _)];
    [vm_compute; discriminate|vm_compute; reflexivity|discriminate|apply run_as_vm, w_one_vm|vm_compute; discriminate|reflexivity
    |vm_compute; discriminate|vm_compute; discriminate|vm_compute; discriminate|vm_compute; discriminate|exact Er|..].
  - exfalso. revert E. vm_compute. discriminate.
  - exists m', own'. split; [exact Er|]. apply (Hh 0x2000); [reflexivity|vm_compute; split; [discriminate|reflexivity]].
Defined.

Lemma brk_wraps_witness : exists m', sys_brk w_thread (frame (2 ^ 64 - 1) 0 0) (run_as w_init w_one) = Some (Return (2 ^ 64 - 1), m')
  /\ vm (kn m') = vm (kn (run_as w_init w_one)).
Proof.
  destruct (brk_wraps w_thread (frame (2 ^ 64 - 1) 0 0) (run_as w_init w_one)) as (m' & E & _ & Ev).
  - vm_compute. discriminate.
  - vm_compute. split; [discriminate|reflexivity].
  - vm_compute. discriminate.
  - exists m'. split; [exact E|exact Ev].
Defined.

(** The child has exited, and the page at 0x400000 is shared. *)
Definition w_shared : world :=
  default w_dead (map_user 0x400000 0x104000 (Z.lor (Z.lor Flags.Present Flags.User) Flags.CowPending) 0x105000 w_dead).

Lemma map_user_tab va pa fl pml4 (k : world) : tab (default k (map_user va pa fl pml4 k)) = tab k.
Proof. unfold map_user. by destruct (map_page _ _ _ _ _). Qed.

Lemma w_shared_ok : exists K, proc_inv (tab w_shared) [w_child; w_init] K /\ K !! w_init = Some [w_child].
Proof.
  destruct w_dead_ok as (K & Hi & HK). exists K. split; [|exact HK].
  unfold w_shared. rewrite map_user_tab. exact Hi.
Qed.

Lemma waitpid_shared_page_panics_witness : sys_waitpid w_env w_thread (frame 0 0x400000 0) (run_as w_init w_shared) = None.
Proof.
  destruct w_shared_ok as (K & Hi & HK).
  apply (waitpid_shared_page_panics w_env w_thread (frame 0 0x400000 0) (run_as w_init w_shared) [w_child; w_init] K [w_child] 0x104000 5).
  - apply run_as_inv, Hi.
  - apply elem_of_cons. right. by apply list_elem_of_singleton.
  - exact HK.
  - vm_compute. discriminate.
  - discriminate.
  - vm_compute. reflexivity.
  - reflexivity.
Defined.

(** ** Exec *)

(** The first process on an address space of its own, with the path [/a] at
    0x400000. *)
Definition x_pml4 : Z := 0x100000.
Definition x_env : SysEnv := {|
  env := env w_env; cr3 := x_pml4; gs_user_rsp := 0x7000; thread_trampoline := 0x1100; fork_return := 0x1200; local_ehdr := afill 0 |}.
Definition x_world : world :=
  let k := put_vm (create_user_pml4 (vm_view w_start)).2 w_start in
  let k := (process_create x_pml4 0 k).2 in
  let '(page, k) := Process.alloc_pages 1 k in
  let k := set_phys (fun m => aset m page 0x612f) k in
  default k (map_user 0x400000 page stack_flags x_pml4 k).

(** A successful exec frees the page tables that the CPU is running on, and
    leaves the register frame alone: the call returns 0 to the old program,
    whose entry in the thread is the only thing that has changed. *)
Theorem exec_frees_running_space :
  exists m', handle_syscall x_env SYS_exec (frame 0x400000 0 0) (run_as w_init x_world) = Some (Return 0, m')
    /\ used (kn (run_as w_init x_world)) (cr3 x_env / 4096) = true
    /\ used (kn m') (cr3 x_env / 4096) = false
    /\ user_rip (aget (threads (kn m')) w_thread) = 0x400078
    /\ pml4_phys (proc_at (tab (kn m')) w_init) <> cr3 x_env.
Proof.
  exists (after (run_as w_init x_world) (handle_syscall x_env SYS_exec (frame 0x400000 0 0) (run_as w_init x_world))).
  split; [apply run_after; vm_compute; reflexivity|]. vm_compute. split_and!; (reflexivity || discriminate).
Qed.
