(* ===== verification/Sync.v ===== *)
(** Synchronisation primitives: [include/tori/kernel/sync/].

    A lock is one integer that every operation touches with single atomic
    instructions.  A thread inside an operation is in a phase that remembers
    what it has read; one action of a thread is one atomic instruction, and a
    run is any sequence of actions of any threads, so a theorem about runs
    covers every interleaving. *)

From S2P Require Import Prelude.

(** * Atomic instructions: [atomic.hpp] and the builtins behind it *)

(** The old value and the new one. *)
Definition atomic_exchange (x v : Z) : Z * Z := (x, v).
(** Success, what [expected] holds afterwards, and the new value. *)
Definition atomic_compare_exchange (x expected desired : Z) : bool * Z * Z :=
  if x =? expected then (true, expected, desired) else (false, x, x).
(** A signed 32-bit result. *)
Definition int32 (x : Z) : Z := wrap 32 (x + 2 ^ 31) - 2 ^ 31.
Definition atomic_add_fetch (x v : Z) : Z := int32 (x + v).
Definition atomic_sub_fetch (x v : Z) : Z := int32 (x - v).

Lemma int32_small x : - 2 ^ 31 <= x < 2 ^ 31 -> int32 x = x.
Proof. intros Hx. unfold int32. rewrite wrap_small by lia. lia. Qed.

(** * Interleavings *)

Section Interleaving.
Context {S P A : Type} (act : A -> S -> P -> option (S * P)).

(** The shared state and the phase of every thread. *)
Definition conf : Type := S * arr P.

Definition step (ta : Z * A) (c : conf) : option conf :=
  '(s, p) ← act ta.2 c.1 (aget c.2 ta.1); Some (s, aset c.2 ta.1 p).

Fixpoint run (l : list (Z * A)) (c : conf) : option conf :=
  match l with [] => Some c | ta :: l => c ← step ta c; run l c end.

(** What every action allowed by [T] keeps, every run of such actions keeps. *)
Lemma run_inv_on (T : Z -> A -> Prop) (I : conf -> Prop) :
  (forall t a s ph s' p', T t a -> I (s, ph) -> act a s (aget ph t) = Some (s', p') -> I (s', aset ph t p')) ->
  forall l c c', Forall (fun ta => T ta.1 ta.2) l -> I c -> run l c = Some c' -> I c'.
Proof.
  intros Hstep. induction l as [|[t a] l IH]; intros [s ph] c' HT HI; cbn [run]; [by intros [= <-]|].
  apply Forall_cons in HT as [Ht HT]. unfold step. cbn [fst snd] in *.
  destruct (act a s (aget ph t)) as [[s' p']|] eqn:E; cbn [mbind option_bind]; [|done].
  apply IH; [done|]. by eapply Hstep.
Qed.

Lemma run_inv (I : conf -> Prop) :
  (forall t a s ph s' p', I (s, ph) -> act a s (aget ph t) = Some (s', p') -> I (s', aset ph t p')) ->
  forall l c c', I c -> run l c = Some c' -> I c'.
Proof.
  intros Hstep l c c'. apply (run_inv_on (fun _ _ => True)); [intros t a s ph s' p' _; apply Hstep|]. by apply Forall_forall.
Qed.

Lemma run_app l1 l2 c : run (l1 ++ l2) c = c' ← run l1 c; run l2 c'.
Proof.
  revert c. induction l1 as [|ta l1 IH]; intros c; cbn [run app]; [done|].
  destruct (step ta c) as [c1|]; cbn [mbind option_bind]; [apply IH|done].
Qed.

End Interleaving.

(** * Spinlock, IrqSpinlock and Mutex: [spinlock.hpp], [irq_spinlock.hpp],
    [mutex.hpp] *)

Module Lock.

Definition try_lock (locked : Z) : bool * Z :=
  let '(old, locked) := atomic_exchange locked 1 in (old =? 0, locked).
Definition unlock (locked : Z) : Z := 0.

Inductive phase := Out | Spinning | In.
#[export] Instance phase_eq : EqDecision phase.
Proof. solve_decision. Defined.

(** Calling [lock], one round of its loop, [try_lock], [unlock]. *)
Inductive action := Call | Round | Try | Release.

Definition act (a : action) (locked : Z) (p : phase) : option (Z * phase) :=
  match a, p with
  | Call, Out => Some (locked, Spinning)
  | Round, Spinning =>
      let '(old, locked) := atomic_exchange locked 1 in
      Some (locked, if negb (old =? 0) then Spinning else In)
  | Try, Out => let '(ok, locked) := try_lock locked in Some (locked, if ok then In else Out)
  | Release, In => Some (unlock locked, Out)
  | _, _ => None
  end.

Definition start : Z * arr phase := (0, afill Out).

(** The lock is 1 exactly while some thread holds it, and that thread is the
    only one. *)
Definition inv (c : Z * arr phase) : Prop :=
  (c.1 = 0 /\ forall t, aget c.2 t <> In)
  \/ (c.1 = 1 /\ exists t, aget c.2 t = In /\ forall t', aget c.2 t' = In -> t' = t).

Lemma lock_inv_start : inv start.
Proof. left. split; [done|]. intros t. unfold start. cbn. by rewrite aget_afill. Qed.

Lemma lock_inv_act t a s ph s' p' : inv (s, ph) -> act a s (aget ph t) = Some (s', p') -> inv (s', aset ph t p').
Proof.
  unfold inv. cbn [fst snd]. intros Hi. destruct (aget ph t) eqn:Et; destruct a; cbn; try done; intros [= <- <-].
  - destruct Hi as [[-> Hn]|(-> & t1 & H1 & H2)]; [left|right]; (split; [done|]).
    + intros t'. rewrite aget_aset. by case_decide.
    + exists t1. split; [rewrite aget_aset_ne; [done|congruence]|]. intros t'. rewrite aget_aset. case_decide; [done|apply H2].
  - destruct Hi as [[-> Hn]|(-> & t1 & H1 & H2)]; right; (split; [done|]); cbn.
    + exists t. split; [apply aget_aset_eq|]. intros t'. rewrite aget_aset. case_decide; [done|]. by intros ?%Hn.
    + exists t1. split; [rewrite aget_aset_ne; [done|congruence]|]. intros t'. rewrite aget_aset. case_decide; [done|apply H2].
  - destruct Hi as [[-> Hn]|(-> & t1 & H1 & H2)]; right; (split; [done|]); cbn.
    + exists t. split; [apply aget_aset_eq|]. intros t'. rewrite aget_aset. case_decide; [done|]. by intros ?%Hn.
    + exists t1. split; [rewrite aget_aset_ne; [done|congruence]|]. intros t'. rewrite aget_aset. case_decide; [done|apply H2].
  - left. split; [done|]. intros t'. rewrite aget_aset. case_decide as Hd; [done|]. intros Hin.
    destruct Hi as [[-> Hn]|(-> & t1 & H1 & H2)]; [by eapply Hn|]. apply Hd. by rewrite (H2 t Et), (H2 t' Hin).
Qed.

(** C14. Mutual exclusion, for every interleaving of any number of threads: two
    threads that hold the lock are the same thread.  And the lock is not lost:
    when nobody holds it, the next round of a waiting thread takes it. *)
Theorem lock_excludes l locked ph :
  run act l start = Some (locked, ph) ->
  (forall t1 t2, aget ph t1 = In -> aget ph t2 = In -> t1 = t2)
  /\ (forall t, (forall t', aget ph t' <> In) -> aget ph t = Spinning ->
        exists ph', step act (t, Round) (locked, ph) = Some (1, ph') /\ aget ph' t = In).
Proof.
  intros Hr. pose proof (run_inv act inv lock_inv_act _ _ _ lock_inv_start Hr) as Hi. unfold inv in Hi. cbn [fst snd] in Hi. split.
  - destruct Hi as [[_ Hn]|(_ & t & _ & Hu)]; intros t1 t2 H1 H2; [by destruct (Hn t1)|]. by rewrite (Hu t1 H1), (Hu t2 H2).
  - intros t Hn Ht. destruct Hi as [[-> _]|(_ & t1 & H1 & _)]; [|by destruct (Hn t1)].
    unfold step. cbn [fst snd]. rewrite Ht. cbn. eexists. split; [done|]. apply aget_aset_eq.
Qed.

Lemma lock_excludes_witness : exists ph, run act [(1, Call); (2, Try); (1, Round); (2, Release); (1, Round)] start = Some (1, ph)
  /\ forall t, aget ph t = In -> t = 1.
Proof.
  eexists. split; [vm_compute; reflexivity|]. intros t Ht.
  eapply (proj1 (lock_excludes [(1, Call); (2, Try); (1, Round); (2, Release); (1, Round)] 1 _ ltac:(vm_compute; reflexivity)));
    [exact Ht|vm_compute; reflexivity].
Defined.

End Lock.

(** * Readers and writers: [rwlock.hpp] *)

Module RWLock.

Inductive phase := Out | ReadLoop | ReadLoaded (s : Z) | Reading | WriteLoop | Writing.
#[export] Instance phase_eq : EqDecision phase.
Proof. solve_decision. Defined.

(** The calls, the instructions of their loops, and the releases. *)
Inductive action := CallRead | LoadRead | CasRead | UnlockRead | CallWrite | CasWrite | TryWrite | UnlockWrite.

Definition try_lock_write (state : Z) : bool * Z :=
  let '(ok, _, state) := atomic_compare_exchange state 0 (-1) in (ok, state).

Definition act (a : action) (state : Z) (p : phase) : option (Z * phase) :=
  match a, p with
  | CallRead, Out => Some (state, ReadLoop)
  | LoadRead, ReadLoop => Some (state, if 0 <=? state then ReadLoaded state else ReadLoop)
  | CasRead, ReadLoaded s =>
      let '(ok, _, state) := atomic_compare_exchange state s (int32 (s + 1)) in
      Some (state, if ok then Reading else ReadLoop)
  | UnlockRead, Reading => Some (atomic_sub_fetch state 1, Out)
  | CallWrite, Out => Some (state, WriteLoop)
  | CasWrite, WriteLoop => let '(ok, state) := try_lock_write state in Some (state, if ok then Writing else WriteLoop)
  | TryWrite, Out => let '(ok, state) := try_lock_write state in Some (state, if ok then Writing else Out)
  | UnlockWrite, Writing => Some (0, Out)
  | _, _ => None
  end.

Definition start : Z * arr phase := (0, afill Out).

(** The state counts the readers, or is -1 for the only writer. *)
Record inv (T : gset Z) (c : Z * arr phase) (R : gset Z) : Prop := {
  iv_sub : R ⊆ T;
  iv_readers : forall t, aget c.2 t = Reading <-> t ∈ R;
  iv_loaded : forall t s, aget c.2 t = ReadLoaded s -> 0 <= s;
  iv_state : (c.1 = Z.of_nat (size R) /\ forall t, aget c.2 t <> Writing)
    \/ (c.1 = -1 /\ R = ∅ /\ exists t, aget c.2 t = Writing /\ forall t', aget c.2 t' = Writing -> t' = t);
}.

Lemma rw_inv_start T : inv T start ∅.
Proof.
  split; cbn; [apply empty_subseteq| | |left; split; [by rewrite size_empty|]]; intros t; rewrite aget_afill; set_solver.
Qed.

(** A thread that neither reads nor writes moves to a phase of that kind. *)
Lemma rw_inv_idle T s ph R t p :
  inv T (s, ph) R -> aget ph t <> Reading -> aget ph t <> Writing -> p <> Reading -> p <> Writing -> (forall v, p = ReadLoaded v -> 0 <= v) ->
  inv T (s, aset ph t p) R.
Proof.
  intros [Hs Hr Hl Hst] H1 H2 H3 H4 H5. cbn [fst snd] in *. split; cbn [fst snd].
  - done.
  - intros t'. rewrite aget_aset. case_decide; [subst t'|apply Hr]. rewrite <- Hr. tauto.
  - intros t' v. rewrite aget_aset. case_decide; [apply H5|apply Hl].
  - destruct Hst as [[E Hn]|(E & HR & w & Hw & Hu)]; [left|right].
    + split; [done|]. intros t'. rewrite aget_aset. by case_decide.
    + split_and!; [done|done|]. exists w. split; [rewrite aget_aset_ne; [done|congruence]|].
      intros t'. rewrite aget_aset. case_decide; [done|apply Hu].
Qed.

(** Taking the write lock succeeds only without readers and writers. *)
Lemma rw_inv_write T s ph R t p :
  inv T (s, ph) R -> aget ph t <> Reading -> aget ph t <> Writing -> p <> Reading -> p <> Writing -> (forall v, p <> ReadLoaded v) ->
  exists R', inv T ((try_lock_write s).2, aset ph t (if (try_lock_write s).1 then Writing else p)) R'.
Proof.
  intros Hi H1 H2 H3 H4 H5. unfold try_lock_write, atomic_compare_exchange. destruct (Z.eqb_spec s 0) as [->|Hs]; cbn [fst snd].
  - destruct Hi as [Hs Hr Hl [[E Hn]|(E & _)]]; cbn [fst snd] in *; [|done].
    assert (R = ∅) as -> by (apply leibniz_equiv, size_empty_iff; lia). exists ∅. split; cbn [fst snd].
    + done.
    + intros t'. rewrite aget_aset. case_decide; [subst t'; rewrite <- Hr; naive_solver|apply Hr].
    + intros t' v. rewrite aget_aset. case_decide; [done|apply Hl].
    + right. split_and!; [done|done|]. exists t. split; [apply aget_aset_eq|]. intros t'. rewrite aget_aset. case_decide; [done|]. by intros ?%Hn.
  - exists R. apply rw_inv_idle; try done. intros v ->. by destruct (H5 v).
Qed.

Lemma rw_inv_act (T : gset Z) t a s ph s' p' : Z.of_nat (size T) < 2 ^ 31 -> t ∈ T ->
  (exists R, inv T (s, ph) R) -> act a s (aget ph t) = Some (s', p') -> exists R, inv T (s', aset ph t p') R.
Proof.
  intros HT Ht [R Hi]. destruct (aget ph t) as [| |v| | |] eqn:Et; destruct a; cbn [act]; try done.
  - intros [= <- <-]. exists R. apply rw_inv_idle; by rewrite ?Et.
  - intros [= <- <-]. exists R. apply rw_inv_idle; by rewrite ?Et.
  - pose proof (rw_inv_write T s ph R t Out Hi) as Hw. rewrite Et in Hw. destruct (try_lock_write s) as [ok s1]. intros [= <- <-]. by apply Hw.
  - intros [= <- <-]. exists R. destruct (Z.leb_spec 0 s); apply rw_inv_idle; rewrite ?Et; try done. by intros v [= <-].
  - unfold atomic_compare_exchange. destruct (Z.eqb_spec s v) as [->|Hne]; intros [= <- <-]; [|exists R; apply rw_inv_idle; by rewrite ?Et].
    destruct Hi as [Hs Hr Hl [[E Hn]|(E & _)]]; cbn [fst snd] in *; [|specialize (Hl t v Et); lia].
    assert (t ∉ R) as HtR by (rewrite <- Hr; congruence).
    assert (size ({[t]} ∪ R) <= size T)%nat as Hle by (apply subseteq_size; set_solver).
    assert (size ({[t]} ∪ R) = Datatypes.S (size R)) as Hsz by (rewrite size_union by set_solver; by rewrite size_singleton).
    exists ({[t]} ∪ R). split; cbn [fst snd].
    + set_solver.
    + intros t'. rewrite aget_aset. case_decide; [set_solver|]. rewrite Hr. set_solver.
    + intros t' v'. rewrite aget_aset. case_decide; [done|apply Hl].
    + left. split; [rewrite int32_small by lia; lia|]. intros t'. rewrite aget_aset. by case_decide.
  - intros [= <- <-]. destruct Hi as [Hs Hr Hl Hst]; cbn [fst snd] in *. assert (t ∈ R) as HtR by (by apply Hr).
    destruct Hst as [[E Hn]|(_ & -> & _)]; [|set_solver].
    assert (1 <= size R)%nat as H1 by (rewrite <- (size_singleton (C := gset Z) t); apply subseteq_size; set_solver).
    assert (size R <= size T)%nat as H2 by (by apply subseteq_size).
    assert (size (R ∖ {[t]}) = size R - 1)%nat as Hsz by (rewrite size_difference by set_solver; by rewrite size_singleton).
    exists (R ∖ {[t]}). split; cbn [fst snd].
    + set_solver.
    + intros t'. rewrite aget_aset. case_decide; [set_solver|]. rewrite Hr. set_solver.
    + intros t' v'. rewrite aget_aset. case_decide; [done|apply Hl].
    + left. split; [unfold atomic_sub_fetch; rewrite int32_small by lia; lia|]. intros t'. rewrite aget_aset. by case_decide.
  - pose proof (rw_inv_write T s ph R t WriteLoop Hi) as Hw. rewrite Et in Hw. destruct (try_lock_write s) as [ok s1]. intros [= <- <-]. by apply Hw.
  - intros [= <- <-]. destruct Hi as [Hs Hr Hl Hst]; cbn [fst snd] in *. destruct Hst as [[_ Hn]|(_ & -> & w & Hw & Hu)]; [by destruct (Hn t)|].
    exists ∅. split; cbn [fst snd].
    + done.
    + intros t'. rewrite aget_aset. case_decide; [set_solver|apply Hr].
    + intros t' v'. rewrite aget_aset. case_decide; [done|apply Hl].
    + left. split; [by rewrite size_empty|]. intros t'. rewrite aget_aset. case_decide as Hd; [done|]. intros Hw'. apply Hd.
      by rewrite (Hu t Et), (Hu t' Hw').
Qed.

(** C15. For every interleaving of fewer than 2^31 threads: a writer excludes every
    other writer and every reader, and the state is the number of readers
    while there is no writer. *)
Theorem rwlock_excludes (T : gset Z) l state ph :
  Z.of_nat (size T) < 2 ^ 31 -> Forall (fun ta => ta.1 ∈ T) l -> run act l start = Some (state, ph) ->
  (forall w, aget ph w = Writing -> state = -1 /\ forall t, t <> w -> aget ph t <> Writing /\ aget ph t <> Reading)
  /\ ((forall w, aget ph w <> Writing) -> exists R : gset Z, (forall t, t ∈ R <-> aget ph t = Reading) /\ state = Z.of_nat (size R)).
Proof.
  intros HT Hl Hr.
  destruct (run_inv_on act (fun t _ => t ∈ T) (fun c => exists R, inv T c R)
    (fun t a s ph s' p' Ht => rw_inv_act T t a s ph s' p' HT Ht) l start (state, ph) Hl (ex_intro _ ∅ (rw_inv_start T)) Hr) as [R [_ Hrd _ Hst]].
  cbn [fst snd] in *. split.
  - intros w Hw. destruct Hst as [[_ Hn]|(E & -> & w' & _ & Hu)]; [by destruct (Hn w)|]. split; [done|]. intros t Ht.
    split; [intros Hwt; apply Ht; by rewrite (Hu t Hwt), (Hu w Hw)|]. rewrite Hrd. set_solver.
  - intros Hn. destruct Hst as [[E _]|(_ & _ & w & Hw & _)]; [|by destruct (Hn w)]. exists R. split; [|done]. intros t. by rewrite Hrd.
Qed.

Definition demo_run : list (Z * action) :=
  [(1, CallRead); (1, LoadRead); (2, CallRead); (2, LoadRead); (1, CasRead); (2, CasRead); (2, LoadRead); (2, CasRead);
   (3, CallWrite); (3, CasWrite); (1, UnlockRead); (2, UnlockRead); (3, CasWrite)].

Lemma rwlock_excludes_witness : exists state ph, run act demo_run start = Some (state, ph)
  /\ state = -1 /\ forall t, t <> 3 -> aget ph t <> Writing /\ aget ph t <> Reading.
Proof.
  set (c := default start (run act demo_run start)).
  assert (run act demo_run start = Some (c.1, c.2)) as E by (vm_compute; reflexivity).
  exists c.1, c.2. split; [exact E|].
  destruct (rwlock_excludes (list_to_set [1; 2; 3]) demo_run c.1 c.2) as [Hw _]; [vm_compute; reflexivity| |exact E|].
  - apply (bool_decide_unpack _). vm_compute. exact I.
  - apply Hw. vm_compute. reflexivity.
Defined.

End RWLock.

(** * Semaphore: [semaphore.hpp] *)

Module Semaphore.

Inductive phase := Out | WaitLoop | WaitLoaded (cur : Z) | TryLoaded (cur : Z) | Inside.

(** [wait]: call, load, exchange; [try_wait]: load, exchange; [post]. *)
Inductive action := CallWait | LoadWait | CasWait | CallTry | CasTry | Post.

Definition act (a : action) (count : Z) (p : phase) : option (Z * phase) :=
  match a, p with
  | CallWait, Out => Some (count, WaitLoop)
  | LoadWait, WaitLoop => Some (count, if 0 <? count then WaitLoaded count else WaitLoop)
  | CasWait, WaitLoaded cur =>
      let '(ok, _, count) := atomic_compare_exchange count cur (int32 (cur - 1)) in
      Some (count, if ok then Inside else WaitLoop)
  | CallTry, Out => Some (count, if 0 <? count then TryLoaded count else Out)
  | CasTry, TryLoaded cur =>
      let '(ok, cur, count) := atomic_compare_exchange count cur (int32 (cur - 1)) in
      Some (count, if ok then Inside else if 0 <? cur then TryLoaded cur else Out)
  | Post, Inside => Some (atomic_add_fetch count 1, Out)
  | _, _ => None
  end.

Definition start (n : Z) : Z * arr phase := (n, afill Out).

(** The count and the threads inside add up to the initial count; a value that
    was loaded for an exchange is positive. *)
Record inv (n : Z) (c : Z * arr phase) (R : gset Z) : Prop := {
  iv_in : forall t, aget c.2 t = Inside <-> t ∈ R;
  iv_count : 0 <= c.1 /\ c.1 + Z.of_nat (size R) = n;
  iv_loaded : forall t v, aget c.2 t = WaitLoaded v \/ aget c.2 t = TryLoaded v -> 0 < v;
}.

Lemma sem_inv_start n : 0 <= n -> inv n (start n) ∅.
Proof.
  intros Hn. split; cbn.
  - intros t. rewrite aget_afill. set_solver.
  - rewrite size_empty. lia.
  - intros t v. rewrite aget_afill. by intros [?|?].
Qed.

Lemma sem_inv_idle n c ph R t p :
  inv n (c, ph) R -> aget ph t <> Inside -> p <> Inside -> (forall v, p = WaitLoaded v \/ p = TryLoaded v -> 0 < v) -> inv n (c, aset ph t p) R.
Proof.
  intros [H1 H2 H3] Hn Hp Hv. cbn [fst snd] in *. split; cbn [fst snd].
  - intros t'. rewrite aget_aset. case_decide; [subst t'|apply H1]. rewrite <- H1. tauto.
  - done.
  - intros t' v. rewrite aget_aset. case_decide; [apply Hv|apply H3].
Qed.

Lemma sem_inv_enter n c ph R t : inv n (c, ph) R -> n < 2 ^ 31 -> aget ph t <> Inside -> 0 < c -> inv n (int32 (c - 1), aset ph t Inside) ({[t]} ∪ R).
Proof.
  intros [H1 H2 H3] Hn Ht Hc. cbn [fst snd] in *. assert (t ∉ R) as HtR by (by rewrite <- H1). split; cbn [fst snd].
  - intros t'. rewrite aget_aset. case_decide; [set_solver|]. rewrite H1. set_solver.
  - rewrite int32_small by lia. rewrite size_union, size_singleton by set_solver. lia.
  - intros t' v. rewrite aget_aset. case_decide; [by intros [?|?]|apply H3].
Qed.

Lemma sem_inv_act n t a c ph c' p' : n < 2 ^ 31 ->
  (exists R, inv n (c, ph) R) -> act a c (aget ph t) = Some (c', p') -> exists R, inv n (c', aset ph t p') R.
Proof.
  intros Hn [R Hi]. pose proof (iv_loaded _ _ _ Hi t) as Hv. cbn [fst snd] in Hv.
  destruct (aget ph t) as [| |v|v|] eqn:Et; destruct a; cbn [act]; try done.
  - intros [= <- <-]. exists R. apply sem_inv_idle; rewrite ?Et; try done. by intros v [?|?].
  - intros [= <- <-]. exists R. destruct (Z.ltb_spec 0 c); apply sem_inv_idle; rewrite ?Et; try done; intros v [[=]|[=]]; lia.
  - intros [= <- <-]. exists R. destruct (Z.ltb_spec 0 c); apply sem_inv_idle; rewrite ?Et; try done; intros v [[=]|[=]]; lia.
  - unfold atomic_compare_exchange. destruct (Z.eqb_spec c v) as [->|Hne]; intros [= <- <-].
    + exists ({[t]} ∪ R). apply sem_inv_enter; [done|done|congruence|]. apply Hv. by left.
    + exists R. apply sem_inv_idle; rewrite ?Et; try done. by intros v' [?|?].
  - unfold atomic_compare_exchange. destruct (Z.eqb_spec c v) as [->|Hne]; intros [= <- <-].
    + exists ({[t]} ∪ R). apply sem_inv_enter; [done|done|congruence|]. apply Hv. by right.
    + exists R. destruct (Z.ltb_spec 0 c); apply sem_inv_idle; rewrite ?Et; try done; intros v' [[=]|[=]]; lia.
  - intros [= <- <-]. destruct Hi as [H1 H2 H3]. cbn [fst snd] in *. assert (t ∈ R) as HtR by (by apply H1).
    assert (1 <= size R)%nat as Hs by (rewrite <- (size_singleton (C := gset Z) t); apply subseteq_size; set_solver).
    exists (R ∖ {[t]}). split; cbn [fst snd].
    + intros t'. rewrite aget_aset. case_decide; [set_solver|]. rewrite H1. set_solver.
    + unfold atomic_add_fetch. rewrite int32_small by lia. rewrite size_difference, size_singleton by set_solver. lia.
    + intros t' v. rewrite aget_aset. case_decide; [by intros [?|?]|apply H3].
Qed.

(** For every interleaving of waits, tries and posts: the threads that have
    passed the semaphore and not posted yet are as many as the count has gone
    down, so never more than the initial count, and the count is never
    negative. *)
Theorem semaphore_bounds n l count ph :
  0 <= n < 2 ^ 31 -> run act l (start n) = Some (count, ph) ->
  exists R : gset Z, (forall t, t ∈ R <-> aget ph t = Inside) /\ 0 <= count /\ count + Z.of_nat (size R) = n.
Proof.
  intros Hn Hr.
  destruct (run_inv act (fun c => exists R, inv n c R) (fun t a c ph c' p' => sem_inv_act n t a c ph c' p' (proj2 Hn)) l (start n) (count, ph)
    (ex_intro _ ∅ (sem_inv_start n (proj1 Hn))) Hr) as [R [H1 H2 _]]. cbn [fst snd] in *.
  exists R. split; [|done]. intros t. by rewrite H1.
Qed.

Lemma semaphore_bounds_witness : exists count ph,
  run act [(1, CallTry); (2, CallWait); (2, LoadWait); (1, CasTry); (2, CasWait); (2, LoadWait)] (start 1) = Some (count, ph)
  /\ exists R : gset Z, (forall t, t ∈ R <-> aget ph t = Inside) /\ count + Z.of_nat (size R) = 1.
Proof.
  set (l := [(1, CallTry); (2, CallWait); (2, LoadWait); (1, CasTry); (2, CasWait); (2, LoadWait)]).
  set (c := default (start 1) (run act l (start 1))).
  assert (run act l (start 1) = Some (c.1, c.2)) as E by (vm_compute; reflexivity).
  exists c.1, c.2. split; [exact E|].
  destruct (semaphore_bounds 1 l c.1 c.2 ltac:(lia) E) as (R & H1 & _ & H2). exists R. split; [exact H1|exact H2].
Defined.

End Semaphore.

(** * Sequence lock: [seqlock.hpp] *)

Module Seqlock.

(** The counter and the words that it protects. *)
Record shared := Shared { seq_ : Z; data : arr Z }.

(** A reader remembers the counter and the words read so far; a writer the
    counter it has loaded, for [write_begin] and for [write_end]. *)
Inductive phase :=
| Out
| BeginRead
| InRead (s : Z) (vals : list Z)
| HasRead (s : Z) (vals : list Z)
| BeginWrite (s : Z)
| InWrite
| EndWrite (s : Z).

(** Both sides call, load, and finish; between [read_begin] and [read_retry]
    the reader reads words one by one, between [write_begin] and [write_end]
    the writer stores words. *)
Inductive action :=
| CallRead | LoadRead | ReadWord | Retry
| CallWrite | CasWrite | WriteWord (i v : Z) | LoadEnd | StoreEnd.

(** [words]: how many words a reader reads before it asks [read_retry]. *)
Definition act (words : nat) (a : action) (s : shared) (p : phase) : option (shared * phase) :=
  match a, p with
  | CallRead, (Out | HasRead _ _) => Some (s, BeginRead)
  | LoadRead, BeginRead => Some (s, if Z.land (seq_ s) 1 =? 0 then InRead (seq_ s) [] else BeginRead)
  | ReadWord, InRead q vals =>
      if (length vals <? words)%nat then Some (s, InRead q (vals ++ [aget (data s) (Z.of_nat (length vals))])) else None
  | Retry, InRead q vals =>
      if (length vals =? words)%nat then Some (s, if negb (seq_ s =? q) then BeginRead else HasRead q vals) else None
  | CallWrite, (Out | HasRead _ _) => Some (s, BeginWrite (seq_ s))
  | CasWrite, BeginWrite q =>
      let '(ok, q', v) := atomic_compare_exchange (seq_ s) q (q +64 1) in
      Some (Shared v (data s), if ok then InWrite else BeginWrite q')
  | WriteWord i v, InWrite => Some (Shared (seq_ s) (aset (data s) i v), InWrite)
  | LoadEnd, InWrite => Some (s, EndWrite (seq_ s))
  | StoreEnd, EndWrite q => Some (Shared (q +64 1) (data s), Out)
  | _, _ => None
  end.

Definition start (d : arr Z) : shared * arr phase := (Shared 0 d, afill Out).

(** The first [n] words as they are now. *)
Definition snapshot (n : nat) (d : arr Z) : list Z := (fun i => aget d (Z.of_nat i)) <$> seq 0 n.

Definition is_write (a : action) : bool :=
  match a with CallRead | LoadRead | ReadWord | Retry => false | _ => true end.

(** Inside a write section. *)
Definition writing (p : phase) : Prop := match p with InWrite | EndWrite _ => True | _ => False end.

Lemma snapshot_S n d : snapshot (Datatypes.S n) d = snapshot n d ++ [aget d (Z.of_nat n)].
Proof. unfold snapshot. by rewrite seq_S, fmap_app. Qed.

Lemma snapshot_length n d : length (snapshot n d) = n.
Proof. unfold snapshot. by rewrite length_fmap, length_seq. Qed.

(** What holds of a thread's phase when [w] is the only writer. *)
Definition phase_ok (w t : Z) (s : shared) (p : phase) : Prop :=
  match p with
  | InRead q vals => Z.even q = true /\ q <= seq_ s /\ (seq_ s = q -> vals = snapshot (length vals) (data s))
  | BeginWrite q => t = w /\ q = seq_ s
  | InWrite => t = w
  | EndWrite q => t = w /\ q = seq_ s
  | _ => True
  end.

(** The counter is odd exactly while the writer is inside, and the writer can
    still make [n] steps before it wraps. *)
Record inv (w : Z) (c : shared * arr phase) (n : nat) : Prop := {
  sv_range : 0 <= seq_ c.1 /\ seq_ c.1 + Z.of_nat n < 2 ^ 64;
  sv_odd : Z.odd (seq_ c.1) = true <-> writing (aget c.2 w);
  sv_phase : forall t, phase_ok w t c.1 (aget c.2 t);
}.

Lemma seqlock_inv_start w d (n : nat) : Z.of_nat n < 2 ^ 64 -> inv w (start d) n.
Proof.
  intros Hn. split; cbn; [lia| |intros t]; rewrite aget_afill; by cbn.
Qed.

(** A thread's step that leaves the shared state alone. *)
Lemma seqlock_inv_idle w s ph n t p :
  inv w (s, ph) (Datatypes.S n) -> (t = w -> writing p <-> writing (aget ph w)) -> phase_ok w t s p -> inv w (s, aset ph t p) n.
Proof.
  intros [H1 H2 H3] Hw Hp. cbn [fst snd] in *. split; cbn [fst snd].
  - lia.
  - rewrite H2, aget_aset. case_decide; [subst; symmetry; by apply Hw|done].
  - intros t'. rewrite aget_aset. case_decide; [by subst|apply H3].
Qed.

Lemma land_1_odd x : (Z.land x 1 =? 0) = Z.even x.
Proof. change (Z.land x 1) with (Z.land x (Z.ones 1)). rewrite Z.land_ones by lia. change (2 ^ 1) with 2. rewrite Zmod_even. by destruct (Z.even x). Qed.

(** The counter moves past every reader's value, so that what the readers
    have read no longer has to match. *)
Lemma seqlock_inv_bump w s ph n p d' :
  inv w (s, ph) (Datatypes.S n) -> (d' = data s \/ Z.odd (seq_ s) = true) ->
  (writing p <-> ~ writing (aget ph w)) -> (forall s', phase_ok w w s' p) ->
  inv w (Shared (seq_ s +64 1) d', aset ph w p) n.
Proof.
  intros [H1 H2 H3] Hd Hw Hp. cbn [fst snd] in *. rewrite wrap_small by lia. split; cbn [fst snd seq_].
  - lia.
  - rewrite Z.add_1_r, Z.odd_succ, <- Z.negb_odd, aget_aset_eq, Hw, <- H2. destruct (Z.odd (seq_ s)); naive_solver.
  - intros t'. rewrite aget_aset. case_decide; [by subst|]. specialize (H3 t'). destruct (aget ph t') eqn:E; cbn in *; try done.
    + destruct H3 as (He & Hq & _). split_and!; [done|lia|lia].
    + naive_solver.
    + naive_solver.
Qed.

(** Stores happen while the counter is odd, when no reader can succeed. *)
Lemma seqlock_inv_store w s ph n p d' :
  inv w (s, ph) (Datatypes.S n) -> writing (aget ph w) -> writing p -> (forall s', phase_ok w w s' p) ->
  inv w (Shared (seq_ s) d', aset ph w p) n.
Proof.
  intros [H1 H2 H3] Hw Hwp Hp. cbn [fst snd] in *. assert (Z.odd (seq_ s) = true) as Ho by tauto. split; cbn [fst snd seq_].
  - lia.
  - rewrite aget_aset_eq. tauto.
  - intros t'. rewrite aget_aset. case_decide; [by subst|]. specialize (H3 t'). destruct (aget ph t') eqn:E; cbn in *; try done.
    destruct H3 as (He & Hq & _). split_and!; [done|done|]. intros <-. rewrite <- Z.negb_odd, Ho in He. done.
Qed.

Lemma seqlock_inv_act words w t a s ph s' p' n :
  (is_write a = true -> t = w) -> inv w (s, ph) (Datatypes.S n) -> act words a s (aget ph t) = Some (s', p') -> inv w (s', aset ph t p') n.
Proof.
  intros Ha Hi. pose proof (sv_phase _ _ _ Hi t) as Hp. pose proof (sv_range _ _ _ Hi) as Hr. cbn [fst snd] in *.
  destruct (aget ph t) as [| |q vals|q vals|q| |q] eqn:Et; destruct a; cbn [act]; try done.
  - intros [= <- <-]. apply seqlock_inv_idle; [done|intros <-; by rewrite Et|done].
  - intros [= <- <-]. assert (t = w) as -> by (by apply Ha). apply seqlock_inv_idle; [done|by rewrite Et|done].
  - intros [= <- <-]. rewrite land_1_odd. destruct (Z.even (seq_ s)) eqn:Ev; (apply seqlock_inv_idle; [done|intros <-; by rewrite Et|]); [|done].
    split_and!; [done|lia|done].
  - destruct (Nat.ltb_spec (length vals) words); intros [= <- <-]. apply seqlock_inv_idle; [done|intros <-; by rewrite Et|].
    destruct Hp as (He & Hq & Hs). split_and!; [done|done|]. intros E. rewrite length_app. cbn [length].
    rewrite Nat.add_1_r, snapshot_S. f_equal. by apply Hs.
  - destruct (Nat.eqb_spec (length vals) words); intros [= <- <-].
    apply seqlock_inv_idle; [done|intros <-; rewrite Et; by destruct (negb _)|by destruct (negb _)].
  - intros [= <- <-]. apply seqlock_inv_idle; [done|intros <-; by rewrite Et|done].
  - intros [= <- <-]. assert (t = w) as -> by (by apply Ha). apply seqlock_inv_idle; [done|by rewrite Et|done].
  - destruct Hp as [-> ->]. unfold atomic_compare_exchange. rewrite Z.eqb_refl. intros [= <- <-].
    apply seqlock_inv_bump; [done|by left|rewrite Et; cbn; tauto|done].
  - intros [= <- <-]. assert (t = w) as -> by done. apply seqlock_inv_store; [done|by rewrite Et|done|done].
  - intros [= <- <-]. apply seqlock_inv_idle; [done|intros <-; by rewrite Et|]. done.
  - destruct Hp as [-> ->]. intros [= <- <-]. apply seqlock_inv_bump; [done|by left|rewrite Et; cbn; tauto|done].
Qed.

Lemma seqlock_inv_run words w l : forall c c' n, Forall (fun ta => is_write ta.2 = true -> ta.1 = w) l ->
  inv w c (length l + n) -> run (act words) l c = Some c' -> inv w c' n.
Proof.
  induction l as [|[t a] l IH]; intros [s ph] c' n HT Hi; cbn [run]; [by intros [= <-]|].
  apply Forall_cons in HT as [Ht HT]. unfold step. cbn [fst snd] in *.
  destruct (act words a s (aget ph t)) as [[s' p']|] eqn:E; cbn [mbind option_bind]; [|done].
  apply IH; [done|]. by eapply seqlock_inv_act.
Qed.

(** C16. With one writer, in every interleaving with any number of readers of fewer
    than 2^64 steps: when [read_retry] lets a reader go, the words it read one
    by one are exactly the protected words at that moment, and no write is in
    progress. *)
Theorem seqlock_consistent words w l d s ph t q vals s' ph' :
  Forall (fun ta => is_write ta.2 = true -> ta.1 = w) l -> Z.of_nat (length l) < 2 ^ 64 ->
  run (act words) l (start d) = Some (s, ph) ->
  step (act words) (t, Retry) (s, ph) = Some (s', ph') -> aget ph' t = HasRead q vals ->
  s' = s /\ vals = snapshot words (data s) /\ forall t', ~ writing (aget ph t').
Proof.
  intros Hl Hn Hr Hs Ht. pose proof (seqlock_inv_run words w l (start d) (s, ph) 0 Hl
    ltac:(rewrite Nat.add_0_r; by apply seqlock_inv_start) Hr) as [Hrg Hodd Hp]. cbn [fst snd] in *.
  unfold step in Hs. cbn [fst snd] in Hs. pose proof (Hp t) as Hpt. destruct (aget ph t) as [| |q1 vs| | | |] eqn:Et; cbn in Hs; try done.
  destruct (Nat.eqb_spec (length vs) words) as [<-|]; [|done]. cbn in Hs. destruct (Z.eqb_spec (seq_ s) q1) as [E|]; cbn in Hs; simplify_eq;
    rewrite aget_aset_eq in Ht; [|done]. injection Ht as <- <-. destruct Hpt as (He & _ & Hv). split_and!; [done|by apply Hv|].
  intros t' Hw'. specialize (Hp t'). assert (t' = w) as ->. { destruct (aget ph t'); cbn in *; tauto. }
  apply Hodd in Hw'. by rewrite <- Z.negb_odd, Hw' in He.
Qed.

(** A reader whose first attempt meets a write starts again and succeeds. *)
Definition demo_run : list (Z * action) :=
  [(1, CallRead); (1, LoadRead); (1, ReadWord); (2, CallWrite); (2, CasWrite); (2, WriteWord 0 7); (1, ReadWord); (1, Retry);
   (1, LoadRead); (2, WriteWord 1 8); (2, LoadEnd); (2, StoreEnd); (1, LoadRead); (1, ReadWord); (1, ReadWord)].

Lemma seqlock_consistent_witness : exists s ph ph', run (act 2) demo_run (start (afill 0)) = Some (s, ph)
  /\ step (act 2) (1, Retry) (s, ph) = Some (s, ph') /\ aget ph' 1 = HasRead 2 [7; 8] /\ [7; 8] = snapshot 2 (data s).
Proof.
  set (c := default (start (afill 0)) (run (act 2) demo_run (start (afill 0)))).
  set (c' := default c (step (act 2) (1, Retry) c)).
  assert (run (act 2) demo_run (start (afill 0)) = Some (c.1, c.2)) as E by (vm_compute; reflexivity).
  assert (step (act 2) (1, Retry) (c.1, c.2) = Some (c.1, c'.2)) as E' by (vm_compute; reflexivity).
  assert (aget c'.2 1 = HasRead 2 [7; 8]) as E2 by (vm_compute; reflexivity).
  exists c.1, c.2, c'.2. split_and!; [exact E|exact E'|exact E2|].
  destruct (seqlock_consistent 2 2 demo_run (afill 0) c.1 c.2 1 2 [7; 8] c.1 c'.2) as (_ & Hv & _);
    [|vm_compute; reflexivity|exact E|exact E'|exact E2|exact Hv].
  apply (bool_decide_unpack _). vm_compute. exact I.
Defined.

(** Two writers: [write_begin] takes an odd counter as well, so that the second
    writer enters, the counter is even again and a reader is let through in
    the middle of both writes. *)
Definition two_writers : list (Z * action) :=
  [(1, CallWrite); (1, CasWrite); (1, WriteWord 0 7); (2, CallWrite); (2, CasWrite);
   (3, CallRead); (3, LoadRead); (3, ReadWord); (3, ReadWord); (3, Retry)].

(** The sequence lock does not keep writers apart: after this run two threads
    are inside their write sections, and a reader has been let go with the
    first word new and the second one old. *)
Theorem seqlock_two_writers :
  exists s ph, run (act 2) two_writers (start (afill 0)) = Some (s, ph)
  /\ aget ph 1 = InWrite /\ aget ph 2 = InWrite /\ aget ph 3 = HasRead 2 [7; 0].
Proof.
  set (c := default (start (afill 0)) (run (act 2) two_writers (start (afill 0)))).
  exists c.1, c.2. split_and!; vm_compute; reflexivity.
Qed.

End Seqlock.

(** * Waiting with a deadline: [timed_spinlock.hpp], [timed_mutex.hpp],
    [timed_semaphore.hpp], [condvar.hpp] *)

Module Timed.

(** The loop that all of them share.  A round is the outcome of the attempt
    ([try_lock], [try_wait] or the predicate) and the clock that is read when
    it fails; [None]: still waiting when the rounds end. *)
Fixpoint wait_until (abs_ms : Z) (rounds : list (bool * Z)) : option bool :=
  match rounds with
  | [] => None
  | (ok, now) :: rounds => if ok then Some true else if abs_ms <=? now then Some false else wait_until abs_ms rounds
  end.

(** [uptime_ms] is the clock at the call. *)
Definition wait_for (uptime_ms timeout_ms : Z) (rounds : list (bool * Z)) : option bool :=
  wait_until (uptime_ms +64 timeout_ms) rounds.

Lemma wait_until_true e rounds : wait_until e rounds = Some true <->
  exists i now, rounds !! i = Some (true, now) /\ forall j r, (j < i)%nat -> rounds !! j = Some r -> r.1 = false /\ r.2 < e.
Proof.
  induction rounds as [|[ok now] rounds IH]; cbn [wait_until]; [split; [done|by intros (i & now & H & _)]|]. destruct ok.
  - split; [intros _|done]. exists O, now. split; [done|]. lia.
  - destruct (Z.leb_spec e now).
    + split; [done|]. intros ([|i] & now' & H1 & H2); [done|]. destruct (H2 O (false, now)); cbn in *; [lia|done|lia].
    + rewrite IH. split.
      * intros (i & now' & H1 & H2). exists (Datatypes.S i), now'. split; [done|]. intros [|j] r Hj; cbn; [intros [= <-]; cbn; lia|apply H2; lia].
      * intros ([|i] & now' & H1 & H2); [done|]. exists i, now'. split; [done|]. intros j r Hj. apply (H2 (Datatypes.S j)). lia.
Qed.

Lemma wait_until_returns e rounds : Exists (fun r => r.1 = true \/ e <= r.2) rounds -> is_Some (wait_until e rounds).
Proof.
  induction 1 as [[ok now] rounds Hr|[ok now] rounds _ IH]; cbn in *; destruct ok; try done; destruct (Z.leb_spec e now); try done.
  destruct Hr; [done|lia].
Qed.

(** A timed wait returns by the deadline: as soon as one round succeeds or sees
    a clock that has reached the deadline.  It reports success exactly when an
    attempt succeeded before any round saw the deadline, so a lock that it
    reports as not taken was not taken. *)
Theorem wait_for_spec now timeout rounds :
  0 <= now -> 0 <= timeout -> now + timeout < 2 ^ 64 ->
  (Exists (fun r => r.1 = true \/ now + timeout <= r.2) rounds -> is_Some (wait_for now timeout rounds))
  /\ (wait_for now timeout rounds = Some true <->
       exists i t, rounds !! i = Some (true, t) /\ forall j r, (j < i)%nat -> rounds !! j = Some r -> r.1 = false /\ r.2 < now + timeout).
Proof.
  intros H1 H2 H3. unfold wait_for. rewrite wrap_small by lia. split; [apply wait_until_returns|apply wait_until_true].
Qed.

Lemma wait_for_spec_witness : wait_for 10 5 [(false, 12); (false, 14); (true, 15)] = Some true
  /\ is_Some (wait_for 10 5 [(false, 12); (false, 15); (true, 15)]).
Proof.
  split; [apply (wait_for_spec 10 5); [lia|lia|lia|]|apply (wait_for_spec 10 5); [lia|lia|lia|]].
  - exists 2%nat, 15. split; [reflexivity|]. intros [|[|j]] r Hj; cbn; [intros [= <-]; cbn; lia|intros [= <-]; cbn; lia|lia].
  - apply Exists_cons_tl, Exists_cons_hd. cbn. lia.
Defined.

(** A timeout that carries the deadline past 2^64 (the largest one is the usual
    way to write "forever") gives up on the first failed attempt. *)
Theorem wait_forever_gives_up now rounds : 1 <= now < 2 ^ 64 ->
  forall now', now <= now' -> wait_for now (2 ^ 64 - 1) ((false, now') :: rounds) = Some false.
Proof.
  intros Hn now' Hn'. unfold wait_for. cbn [wait_until].
  assert (now +64 (2 ^ 64 - 1) = now - 1) as ->.
  { unfold wrap. replace (now + (2 ^ 64 - 1)) with (now - 1 + 1 * 2 ^ 64) by lia. rewrite Z_mod_plus_full. apply Z.mod_small. lia. }
  destruct (Z.leb_spec (now - 1) now'); [done|lia].
Qed.

Lemma wait_forever_gives_up_witness : wait_for 1000 (2 ^ 64 - 1) [(false, 1000); (true, 1001)] = Some false.
Proof. apply (wait_forever_gives_up 1000 [(true, 1001)]); lia. Defined.

End Timed.

(** * Guards: [LockGuard], [IrqLockGuard] and [UniqueLock] *)

Module Guard.

(** The locks by address and the processor's interrupt flag, as one thread
    sees them; [None] is a lock that is never obtained because its holder is
    the caller. *)
Record cpu := Cpu { locks : arr Z; rflags : Z }.

Definition IF : Z := 0x200.

(** [lock_.lock()] when nobody else will release the lock. *)
Definition lock (l : Z) (c : cpu) : option cpu :=
  let '(old, v) := atomic_exchange (aget (locks c) l) 1 in
  if old =? 0 then Some (Cpu (aset (locks c) l v) (rflags c)) else None.
Definition unlock (l : Z) (c : cpu) : cpu := Cpu (aset (locks c) l (Lock.unlock (aget (locks c) l))) (rflags c).
Definition cli (c : cpu) : cpu := Cpu (locks c) (Z.land (rflags c) (Z.lnot IF)).
Definition sti (c : cpu) : cpu := Cpu (locks c) (Z.lor (rflags c) IF).

(** The constructor and the destructor: the guard is the saved flags. *)
Definition irq_guard (l : Z) (c : cpu) : option (Z * cpu) :=
  let saved := rflags c in c ← lock l (cli c); Some (saved, c).
Definition irq_unguard (l saved : Z) (c : cpu) : cpu :=
  let c := unlock l c in if negb (Z.land saved IF =? 0) then sti c else c.

(** Guards taken in order and dropped in the opposite one, as nested scopes
    do, around a body that works on something else. *)
Fixpoint with_guards (ls : list Z) (c : cpu) : option (cpu * cpu) :=
  match ls with
  | [] => Some (c, c)
  | l :: ls =>
      '(saved, c) ← irq_guard l c; '(inner, c) ← with_guards ls c; Some (inner, irq_unguard l saved c)
  end.

Lemma IF_testbit x : negb (Z.land x IF =? 0) = Z.testbit x 9.
Proof.
  destruct (Z.testbit x 9) eqn:E.
  - apply negb_true_iff, Z.eqb_neq. intros E0. assert (Z.testbit (Z.land x IF) 9 = false) as H by (rewrite E0; apply Z.testbit_0_l).
    rewrite Z.land_spec, E in H. done.
  - apply negb_false_iff, Z.eqb_eq. apply Z.bits_inj'. intros n Hn. rewrite Z.land_spec, Z.testbit_0_l.
    change IF with (2 ^ 9). rewrite Z.pow2_bits_eqb by lia. destruct (Z.eqb_spec 9 n) as [<-|]; [by rewrite E|by rewrite andb_false_r].
Qed.

Lemma sti_cli x : Z.testbit x 9 = true -> Z.lor (Z.land x (Z.lnot IF)) IF = x.
Proof.
  intros E. apply Z.bits_inj'. intros n Hn. rewrite Z.lor_spec, Z.land_spec, Z.lnot_spec by done.
  change IF with (2 ^ 9). rewrite Z.pow2_bits_eqb by lia. destruct (Z.eqb_spec 9 n) as [<-|]; [by rewrite E|].
  by rewrite andb_true_r, orb_false_r.
Qed.

Lemma cli_off x : Z.testbit x 9 = false -> Z.land x (Z.lnot IF) = x.
Proof.
  intros E. apply Z.bits_inj'. intros n Hn. rewrite Z.land_spec, Z.lnot_spec by done.
  change IF with (2 ^ 9). rewrite Z.pow2_bits_eqb by lia. destruct (Z.eqb_spec 9 n) as [<-|]; [by rewrite E|]. by rewrite andb_true_r.
Qed.

(** Dropping a guard around a body that restores what it found. *)
Lemma irq_unguard_restores l c c1 c2 :
  irq_guard l c = Some (rflags c, c1) -> rflags c2 = rflags c1 -> (forall i, aget (locks c2) i = aget (locks c1) i) ->
  rflags (irq_unguard l (rflags c) c2) = rflags c /\ forall i, aget (locks (irq_unguard l (rflags c) c2)) i = aget (locks c) i.
Proof.
  unfold irq_guard, lock, cli. cbn. destruct (Z.eqb_spec (aget (locks c) l) 0) as [E|]; cbn; [|done]. intros [= <-]. cbn. intros Hf Hl.
  unfold irq_unguard. rewrite IF_testbit. split.
  - destruct (Z.testbit (rflags c) 9) eqn:Eb; cbn; rewrite Hf; [by apply sti_cli|by apply cli_off].
  - intros i. assert (aget (aset (locks c2) l (Lock.unlock (aget (locks c2) l))) i = aget (locks c) i) as H.
    { rewrite aget_aset. case_decide as Hd; [by rewrite <- Hd, E|]. rewrite Hl. by apply aget_aset_ne. }
    by destruct (Z.testbit (rflags c) 9).
Qed.

(** Nested interrupt-safe guards: they are all obtained exactly when the locks
    are distinct and free (the same lock twice is a self-deadlock).  Inside,
    every lock is held and interrupts are off; afterwards the interrupt flag
    and every lock are as before, so an inner guard does not turn interrupts
    on under an outer one. *)
Theorem irq_guards_nest ls c :
  (is_Some (with_guards ls c) <-> NoDup ls /\ Forall (fun l => aget (locks c) l = 0) ls)
  /\ forall inner c', with_guards ls c = Some (inner, c') ->
       (ls <> [] -> Z.testbit (rflags inner) 9 = false)
       /\ (forall i, aget (locks inner) i = if decide (i ∈ ls) then 1 else aget (locks c) i)
       /\ rflags c' = rflags c /\ forall i, aget (locks c') i = aget (locks c) i.
Proof.
  revert c. induction ls as [|l ls IH]; intros c; cbn [with_guards].
  { split; [split; [by repeat constructor|done]|]. intros inner c' [= <- <-]. split_and!; done. }
  destruct (irq_guard l c) as [[saved c1]|] eqn:Eg; cbn [mbind option_bind].
  2:{ split; [|done]. split; [by intros [? ?]|]. intros [_ [E _]%Forall_cons]. unfold irq_guard, lock in Eg. cbn in Eg. by rewrite E in Eg. }
  assert (saved = rflags c /\ aget (locks c) l = 0 /\ c1 = Cpu (aset (locks c) l 1) (Z.land (rflags c) (Z.lnot IF))) as (-> & E & Ec1).
  { unfold irq_guard, lock in Eg. cbn in Eg. destruct (Z.eqb_spec (aget (locks c) l) 0); cbn in Eg; by simplify_eq. }
  destruct (IH c1) as [[IHa IHb] IHc]. destruct (with_guards ls c1) as [[inner c2]|] eqn:Ew; cbn [mbind option_bind].
  - destruct (IHc inner c2 eq_refl) as (Ha & Hb & Hc & Hd). destruct IHa as [Hnd Hfree]; [done|]. split.
    + split; [intros _|done]. rewrite Forall_forall in Hfree. subst c1. cbn [locks] in Hfree. split.
      * constructor; [|done]. intros Hin. specialize (Hfree l Hin). by rewrite aget_aset_eq in Hfree.
      * constructor; [done|]. apply Forall_forall. intros x Hx. specialize (Hfree x Hx). rewrite aget_aset in Hfree. by case_decide.
    + intros ? ? [= <- <-]. split_and!.
      * intros _. destruct ls as [|l' ls']; [|by apply Ha]. injection Ew as <- _. subst c1. cbn [rflags].
        rewrite Z.land_spec, Z.lnot_spec by lia. change IF with (2 ^ 9). rewrite Z.pow2_bits_eqb by lia. apply andb_false_r.
      * intros i. rewrite Hb. subst c1. cbn [locks]. rewrite aget_aset. repeat case_decide; set_solver.
      * by eapply irq_unguard_restores.
      * by eapply irq_unguard_restores.
  - split; [|done]. split; [by intros [? ?]|]. intros [[Hni Hnd]%NoDup_cons [_ Hf]%Forall_cons]. apply IHb. split; [done|].
    eapply Forall_impl; [apply Forall_and; split; [exact Hf|apply Forall_forall; intros x Hx; exact Hx]|]. cbn. intros x [Hx Hin]. subst c1. cbn [locks].
    rewrite aget_aset_ne; [done|]. by intros ->.
Qed.

(** ** [UniqueLock] *)

Record unique_lock := UL { lock_ : option Z; owns_ : bool }.

(** A call through a null [lock_] is [None] as well. *)
Inductive ul_op := ULock | UTryLock | UUnlock.

Definition try_lock (l : Z) (c : cpu) : bool * cpu :=
  let '(ok, v) := Lock.try_lock (aget (locks c) l) in (ok, Cpu (aset (locks c) l v) (rflags c)).

(** The constructors. *)
Definition ul_make (l : Z) (c : cpu) : option (unique_lock * cpu) := c ← lock l c; Some (UL (Some l) true, c).
Definition ul_defer (l : Z) : unique_lock := UL (Some l) false.
Definition ul_try (l : Z) (c : cpu) : unique_lock * cpu := let '(ok, c) := try_lock l c in (UL (Some l) ok, c).
Definition ul_adopt (l : Z) : unique_lock := UL (Some l) true.

Definition ul_call (o : ul_op) (u : unique_lock) (c : cpu) : option (unique_lock * cpu) :=
  l ← lock_ u;
  match o with
  | ULock => c ← lock l c; Some (UL (Some l) true, c)
  | UTryLock => let '(ok, c) := try_lock l c in Some (UL (Some l) ok, c)
  | UUnlock => Some (UL (Some l) false, unlock l c)
  end.

Definition ul_destroy (u : unique_lock) (c : cpu) : option cpu :=
  if owns_ u then l ← lock_ u; Some (unlock l c) else Some c.

(** The moved-to and the moved-from lock. *)
Definition ul_move (other : unique_lock) : unique_lock * unique_lock := (other, UL None false).
Definition ul_move_assign (u other : unique_lock) (c : cpu) : option (unique_lock * unique_lock * cpu) :=
  c ← ul_destroy u c; Some (other, UL None false, c).
Definition ul_release (u : unique_lock) : option Z * unique_lock := (lock_ u, UL None false).

Fixpoint ul_calls (os : list ul_op) (u : unique_lock) (c : cpu) : option (unique_lock * cpu) :=
  match os with [] => Some (u, c) | o :: os => '(u, c) ← ul_call o u c; ul_calls os u c end.

(** Whether a sequence of calls asks for the lock only while it is not owned,
    starting from whether it is. *)
Fixpoint ul_polite (os : list ul_op) (owns : bool) : bool :=
  match os with
  | [] => true
  | UUnlock :: os => ul_polite os false
  | _ :: os => negb owns && ul_polite os true
  end.

Lemma ul_try_lock l ow c :
  ul_call UTryLock (UL (Some l) ow) c = Some (UL (Some l) (aget (locks c) l =? 0), Cpu (aset (locks c) l 1) (rflags c)).
Proof. done. Qed.

Lemma ul_calls_held l os : forall u c u' c',
  lock_ u = Some l -> aget (locks c) l = (if owns_ u then 1 else 0) -> ul_polite os (owns_ u) = true -> ul_calls os u c = Some (u', c') ->
  lock_ u' = Some l /\ aget (locks c') l = (if owns_ u' then 1 else 0) /\ rflags c' = rflags c /\ forall i, i <> l -> aget (locks c') i = aget (locks c) i.
Proof.
  induction os as [|o os IH]; intros [lk ow] c u' c' Hl Hh Hp; cbn [ul_calls]; [by intros [= <- <-]|]. cbn [lock_ owns_] in *. subst lk.
  unfold ul_call. cbn [lock_ mbind option_bind]. destruct o; cbn [ul_polite] in Hp.
  - apply andb_true_iff in Hp as [Ho%negb_true_iff Hp]. subst ow. unfold lock, atomic_exchange. rewrite Hh. cbn. intros E.
    apply IH in E as (H1 & H2 & H3 & H4); cbn in *; [|done|by rewrite aget_aset_eq|done]. split_and!; [done..|].
    intros i Hi. rewrite H4 by done. by apply aget_aset_ne.
  - apply andb_true_iff in Hp as [Ho%negb_true_iff Hp]. subst ow. unfold try_lock, Lock.try_lock, atomic_exchange. rewrite Hh. cbn. intros E.
    apply IH in E as (H1 & H2 & H3 & H4); cbn in *; [|done|by rewrite aget_aset_eq|done]. split_and!; [done..|].
    intros i Hi. rewrite H4 by done. by apply aget_aset_ne.
  - intros E. apply IH in E as (H1 & H2 & H3 & H4); cbn in *; [|done|by rewrite aget_aset_eq|done]. split_and!; [done..|].
    intros i Hi. rewrite H4 by done. by apply aget_aset_ne.
Qed.

(** After any calls that ask for the lock only while it is not owned, the
    destructor leaves the lock free, and touches nothing else. *)
Theorem unique_lock_released l os c u c1 :
  aget (locks c) l = 0 -> ul_polite os false = true -> ul_calls os (ul_defer l) c = Some (u, c1) ->
  exists c2, ul_destroy u c1 = Some c2 /\ rflags c2 = rflags c /\ forall i, aget (locks c2) i = aget (locks c) i.
Proof.
  intros Hf Hp E. destruct (ul_calls_held l os (ul_defer l) c u c1) as (H1 & H2 & H3 & H4); [done|done|done|done|].
  unfold ul_destroy. destruct (owns_ u); rewrite ?H1; cbn [mbind option_bind]; eexists; (split; [reflexivity|]); (split; [done|]); intros i; cbn [unlock locks].
  - rewrite aget_aset. case_decide; [by subst|by apply H4].
  - destruct (decide (i = l)) as [->|]; [by rewrite H2|by apply H4].
Qed.

Lemma unique_lock_released_witness : exists u c1 c2,
  ul_calls [UTryLock; UUnlock; ULock] (ul_defer 7) (Cpu (afill 0) IF) = Some (u, c1) /\ aget (locks c1) 7 = 1
  /\ ul_destroy u c1 = Some c2 /\ rflags c2 = IF.
Proof.
  set (r := default (ul_defer 7, Cpu (afill 0) IF) (ul_calls [UTryLock; UUnlock; ULock] (ul_defer 7) (Cpu (afill 0) IF))).
  assert (ul_calls [UTryLock; UUnlock; ULock] (ul_defer 7) (Cpu (afill 0) IF) = Some (r.1, r.2)) as E by (vm_compute; reflexivity).
  destruct (unique_lock_released 7 [UTryLock; UUnlock; ULock] (Cpu (afill 0) IF) r.1 r.2) as (c2 & H1 & H2 & _);
    [reflexivity|reflexivity|exact E|].
  exists r.1, r.2, c2. split_and!; [exact E|vm_compute; reflexivity|exact H1|exact H2].
Defined.

(** Asking again for a lock that is owned: [try_lock] overwrites [owns_] with
    the failure, and the destructor leaves the lock taken for ever. *)
Theorem unique_try_lock_leaks l c : aget (locks c) l = 0 ->
  exists u0 c0 u c1, ul_call UTryLock (ul_defer l) c = Some (u0, c0) /\ owns_ u0 = true
  /\ ul_call UTryLock u0 c0 = Some (u, c1) /\ ul_destroy u c1 = Some c1 /\ aget (locks c1) l = 1.
Proof.
  intros E. unfold ul_defer. rewrite ul_try_lock, E. do 4 eexists. split_and!; [reflexivity|reflexivity|apply ul_try_lock| |].
  - cbn [locks]. rewrite aget_aset_eq. reflexivity.
  - cbn [locks]. apply aget_aset_eq.
Qed.

Lemma unique_try_lock_leaks_witness : exists u0 c0 u c1,
  ul_call UTryLock (ul_defer 7) (Cpu (afill 0) IF) = Some (u0, c0) /\ owns_ u0 = true
  /\ ul_call UTryLock u0 c0 = Some (u, c1) /\ ul_destroy u c1 = Some c1 /\ aget (locks c1) 7 = 1.
Proof. apply (unique_try_lock_leaks 7 (Cpu (afill 0) IF)). reflexivity. Defined.

End Guard.
