(* ===== verification/Block.v ===== *)
(** Block devices: [block_device.hpp] and the read-only device over a memory
    range, [memblock.cpp].

    The class is what a filesystem sees of a device: a size, the bytes on it,
    and a read operation that fills a buffer or fails.  The law of the read is
    stated for sector numbers of 32 bits, which is what the filesystems use. *)

From S2P Require Import Prelude MemoryMap Pmm PageAlloc Bytes KMem.

Class BlockDev (D : Type) := {
  sector_size : D -> Z;
  dev_size : D -> Z;
  dev_byte : D -> Z -> Z;
  dev_read : D -> Z -> bmem -> Z -> bool * bmem;
  dev_size_range : forall d, 0 <= dev_size d < 2 ^ 63;
  sector_size_range : forall d, 0 < sector_size d < 2 ^ 16;
  dev_byte_range : forall d i, 0 <= dev_byte d i < 256;
  (** Inside the device the bytes are copied and nothing else is written. *)
  dev_read_ok : forall d sector buf count, 0 <= sector < 2 ^ 32 -> 0 <= count < 2 ^ 16 ->
    (sector + count) * sector_size d <= dev_size d ->
    (dev_read d sector buf count).1 = true
    /\ forall x, aget (dev_read d sector buf count).2 x
        = if (0 <=? x) && (x <? count * sector_size d) then dev_byte d (sector * sector_size d + x) else aget buf x;
  (** Beyond it the read fails and the buffer is left alone. *)
  dev_read_fail : forall d sector buf count, 0 <= sector < 2 ^ 32 -> 0 <= count < 2 ^ 16 ->
    dev_size d < (sector + count) * sector_size d -> dev_read d sector buf count = (false, buf);
}.

(** * A device over memory *)

(** [Memblock]: the address of the data and its size. *)
Record Memblock := Build_Memblock { mb_data : Z; mb_size : Z }.

(** [BlockDevice]; [read] and [write] are the two functions below, and
    [private_data] is the address of the [Memblock]. *)
Record BlockDevice := Build_BlockDevice { bd_sector_count : Z; bd_sector_size : Z; bd_private_data : Z }.

Definition memblock_read (m : bmem) (mb : Memblock) (dev : BlockDevice) (sector : Z) (buf : bmem) (count : Z) : bool * bmem :=
  let offset := sector *64 bd_sector_size dev in
  let total := count *64 bd_sector_size dev in
  if (mb_size mb <? offset +64 total) || (offset +64 total <? offset) then (false, buf)
  else
    let s := mb_data mb + offset in
    (true, for_z 0 total (fun i d => aset d i (aget m (s + i))) buf).

Definition memblock_write (dev : BlockDevice) (sector : Z) (buf : bmem) (count : Z) : bool := false.

Definition sizeof_Memblock : Z := 16.
Definition sizeof_BlockDevice : Z := 40.

(** The device and the block that it points to; [0] when there is no memory. *)
Definition memblock_create {A} `{KMem A} (data size : Z) (a : A) : option (Z * BlockDevice * Memblock) * A :=
  let '(mbp, a) := km_kalloc sizeof_Memblock 8 a in
  if mbp =? 0 then (None, a)
  else
    let mb := Build_Memblock data size in
    let '(devp, a) := km_kalloc sizeof_BlockDevice 8 a in
    if devp =? 0 then (None, km_kfree mbp sizeof_Memblock a)
    else (Some (devp, Build_BlockDevice (size / 512) 512 mbp, mb), a).

(** * What a memory block device does *)

Lemma copy_bytes_spec (m : bmem) src total buf x : 0 <= total ->
  aget (for_z 0 total (fun i d => aset d i (aget m (src + i))) buf) x
  = if (0 <=? x) && (x <? total) then aget m (src + x) else aget buf x.
Proof.
  intros Ht. apply (for_z_inv (fun k b => aget b x = if (0 <=? x) && (x <? k) then aget m (src + x) else aget buf x)); [done| |].
  - by replace ((0 <=? x) && (x <? 0)) with false by lia.
  - intros i b Hi IH. rewrite aget_aset. case_decide as Hd.
    + subst. by replace ((0 <=? x) && (x <? x + 1)) with true by lia.
    + rewrite IH. by replace (x <? i + 1) with (x <? i) by lia.
Qed.

Section Memblock.
Context (m : bmem) (mb : Memblock) (dev : BlockDevice).
Hypothesis Hsize : 0 <= mb_size mb < 2 ^ 63.
Hypothesis Hsector : 0 < bd_sector_size dev < 2 ^ 16.

Lemma memblock_read_ok sector buf count : 0 <= sector < 2 ^ 32 -> 0 <= count < 2 ^ 16 ->
  (sector + count) * bd_sector_size dev <= mb_size mb ->
  (memblock_read m mb dev sector buf count).1 = true
  /\ forall x, aget (memblock_read m mb dev sector buf count).2 x
      = if (0 <=? x) && (x <? count * bd_sector_size dev) then aget m (mb_data mb + (sector * bd_sector_size dev + x)) else aget buf x.
Proof.
  intros Hs Hc Hb. unfold memblock_read.
  assert (0 <= sector * bd_sector_size dev < 2 ^ 48) as Ho by nia. assert (0 <= count * bd_sector_size dev < 2 ^ 32) as Ht by nia.
  rewrite Z.mul_add_distr_r in Hb. rewrite !wrap_small by (rewrite ?wrap_small by lia; lia).
  rewrite (proj2 (Z.ltb_ge _ _) Hb), (proj2 (Z.ltb_ge _ _)) by lia. cbn [orb fst snd]. split; [done|].
  intros x.
  rewrite copy_bytes_spec by lia. by rewrite Z.add_assoc.
Qed.

Lemma memblock_read_fail sector buf count : 0 <= sector < 2 ^ 32 -> 0 <= count < 2 ^ 16 ->
  mb_size mb < (sector + count) * bd_sector_size dev -> memblock_read m mb dev sector buf count = (false, buf).
Proof.
  intros Hs Hc Hb. unfold memblock_read.
  assert (0 <= sector * bd_sector_size dev < 2 ^ 48) as Ho by nia. assert (0 <= count * bd_sector_size dev < 2 ^ 32) as Ht by nia.
  rewrite Z.mul_add_distr_r in Hb. rewrite !wrap_small by (rewrite ?wrap_small by lia; lia). by rewrite (proj2 (Z.ltb_lt _ _) Hb).
Qed.

End Memblock.

(** A sector number whose byte offset wraps around: the read of a sector far
    beyond the device succeeds and returns its first one. *)
Theorem memblock_read_wraps m mb dev buf :
  bd_sector_size dev = 512 -> 512 <= mb_size mb < 2 ^ 64 ->
  memblock_read m mb dev (2 ^ 55) buf 1 = memblock_read m mb dev 0 buf 1
  /\ (memblock_read m mb dev (2 ^ 55) buf 1).1 = true.
Proof.
  intros Hs Hm. unfold memblock_read. rewrite Hs. change (2 ^ 55 *64 512) with 0. change (0 *64 512) with 0. split; [done|].
  change (1 *64 512) with 512. change (0 +64 512) with 512. by replace (mb_size mb <? 512) with false by lia.
Qed.

Lemma memblock_read_wraps_witness :
  memblock_read (afill 7) (Build_Memblock 0x1000 1024) (Build_BlockDevice 2 512 0) (2 ^ 55) (afill 0) 1
  = memblock_read (afill 7) (Build_Memblock 0x1000 1024) (Build_BlockDevice 2 512 0) 0 (afill 0) 1.
Proof. apply (memblock_read_wraps (afill 7) (Build_Memblock 0x1000 1024) (Build_BlockDevice 2 512 0)); [reflexivity|cbn; lia]. Defined.

(** * The device behind the interface *)

(** A device as [memblock_create] makes it, on memory that holds bytes. *)
Record memdev := Memdev {
  md_mem : bmem;
  md_block : Memblock;
  md_bytes : forall i, 0 <= aget md_mem i < 256;
  md_size : 0 <= mb_size md_block < 2 ^ 63;
}.

Definition md_dev (d : memdev) : BlockDevice := Build_BlockDevice (mb_size (md_block d) / 512) 512 0.

#[export, refine] Instance memblock_dev : BlockDev memdev := {|
  sector_size _ := 512;
  dev_size d := mb_size (md_block d);
  dev_byte d i := aget (md_mem d) (mb_data (md_block d) + i);
  dev_read d := memblock_read (md_mem d) (md_block d) (md_dev d);
|}.
Proof.
  - intros d. apply md_size.
  - intros _. lia.
  - intros d i. apply md_bytes.
  - intros d sector buf count Hs Hc Hb. apply (memblock_read_ok _ _ (md_dev d)); first [done|cbn; lia|apply md_size].
  - intros d sector buf count Hs Hc Hb. apply (memblock_read_fail _ _ (md_dev d)); first [done|cbn; lia|apply md_size].
Defined.
