(* ===== verification/Fat.v ===== *)
(** The FAT16/FAT32 driver: [fat.cpp], over any block device.

    [None] is undefined behaviour: reading a byte of a 512-byte sector buffer
    that the device did not fill, or an object that is not there.  A failure
    that the code reports is a value.  The table of the volume is copied to
    kernel memory, where [next_cluster] reads it. *)

From S2P Require Import Prelude MemoryMap Pmm PageAlloc Bytes KMem VfsBase Ramfs Block.

Definition BPB_BYTES_PER_SECTOR : Z := 11.
Definition BPB_SECTORS_PER_CLUSTER : Z := 13.
Definition BPB_RESERVED_SECTOR_COUNT : Z := 14.
Definition BPB_FAT_COUNT : Z := 16.
Definition BPB_ROOT_ENTRY_COUNT : Z := 17.
Definition BPB_TOTAL_SECTORS_16 : Z := 19.
Definition BPB_FAT_SIZE_16 : Z := 22.
Definition BPB_TOTAL_SECTORS_32 : Z := 32.
Definition BPB_FAT_SIZE_32 : Z := 36.
Definition BPB_ROOT_CLUSTER : Z := 44.

Definition DIR_NAME : Z := 0.
Definition DIR_ATTR : Z := 11.
Definition DIR_NT_RES : Z := 12.
Definition DIR_CLUSTER_HI : Z := 20.
Definition DIR_CLUSTER_LO : Z := 26.
Definition DIR_FILE_SIZE : Z := 28.

Definition ATTR_VOLUME_ID : Z := 0x08.
Definition ATTR_DIRECTORY : Z := 0x10.
Definition ATTR_LFN : Z := 0x0F.

Definition FAT_EOC_MIN_16 : Z := 0xFFF8.
Definition FAT_EOC_MIN_32 : Z := 0x0FFFFFF8.
Definition FAT_EOC_MAX_32 : Z := 0x0FFFFFFF.

(** [FatInstance], with the device in place of the pointer to it. *)
Record FatInstance (D : Type) := Build_FatInstance {
  dev : D;
  bytes_per_sector : Z;
  sectors_per_cluster : Z;
  reserved_sector_count : Z;
  fat_count : Z;
  root_entry_count : Z;
  fat_size : Z;
  root_cluster : Z;
  total_sectors : Z;
  first_data_sector : Z;
  root_dir_sectors : Z;
  is_fat32 : bool;
  fat_buffer : Z;
  fat_entry_count : Z;
}.
Arguments dev {D}.
Arguments bytes_per_sector {D}.
Arguments sectors_per_cluster {D}.
Arguments reserved_sector_count {D}.
Arguments fat_count {D}.
Arguments root_entry_count {D}.
Arguments fat_size {D}.
Arguments root_cluster {D}.
Arguments total_sectors {D}.
Arguments first_data_sector {D}.
Arguments root_dir_sectors {D}.
Arguments is_fat32 {D}.
Arguments fat_buffer {D}.
Arguments fat_entry_count {D}.

(** [fn_fs]: the address of the instance. *)
Record FatNode := Build_FatNode { first_cluster : Z; file_size : Z; attributes : Z; fn_fs : Z }.

Definition sizeof_FatInstance : Z := 64.
Definition sizeof_FatNode : Z := 24.

(** A computation that may be undefined or report a failure. *)
Definition attempt {A B} (x : option (option A)) (k : A -> option (option B)) : option (option B) :=
  match x with None => None | Some None => Some None | Some (Some a) => k a end.
Notation "x <~ e ; k" := (attempt e (fun x => k)) (at level 100, e at next level, k at level 200, right associativity).

Section Volume.
Context {D : Type} `{BlockDev D}.
Implicit Types (d : D) (fs : FatInstance D).

(** * Sectors *)

(** [uint8_t buf[512]; if (!read_sectors(dev, sector, buf, 1)) ...] *)
Definition read_sector d (sector : Z) : option (option bmem) :=
  if 512 <? sector_size d then None
  else let '(ok, buf) := dev_read d sector (afill 0) 1 in Some (if ok then Some buf else None).

(** [buf[i]] of a sector that was read. *)
Definition sec_get d (buf : bmem) (i : Z) : option Z :=
  if i <? sector_size d then Some (aget buf i) else None.

Definition read_byte d (sector offset : Z) : option (option Z) :=
  buf <~ read_sector d sector; Some <$> sec_get d buf offset.

Definition read_word d (sector offset : Z) : option (option Z) :=
  buf <~ read_sector d sector;
  b0 ← sec_get d buf offset; b1 ← sec_get d buf (offset + 1);
  Some (Some (Z.lor b0 (Z.shiftl b1 8))).

Definition read_dword d (sector offset : Z) : option (option Z) :=
  buf <~ read_sector d sector;
  b0 ← sec_get d buf offset; b1 ← sec_get d buf (offset + 1); b2 ← sec_get d buf (offset + 2); b3 ← sec_get d buf (offset + 3);
  Some (Some (Z.lor (Z.lor (Z.lor b0 (Z.shiftl b1 8)) (Z.shiftl b2 16)) (Z.shiftl b3 24))).

(** * The boot sector *)

Definition fail_if (b : bool) : option (option unit) := Some (if b then None else Some tt).

Definition parse_bpb d : option (option (FatInstance D)) :=
  bps <~ read_word d 0 BPB_BYTES_PER_SECTOR;
  _ <~ fail_if (negb (bps =? 512) && negb (bps =? 1024) && negb (bps =? 2048) && negb (bps =? 4096));
  spc <~ read_byte d 0 BPB_SECTORS_PER_CLUSTER;
  _ <~ fail_if ((spc =? 0) || negb (Z.land spc (spc - 1) =? 0));
  reserved <~ read_word d 0 BPB_RESERVED_SECTOR_COUNT;
  fats <~ read_byte d 0 BPB_FAT_COUNT;
  _ <~ fail_if (fats =? 0);
  root_entries <~ read_word d 0 BPB_ROOT_ENTRY_COUNT;
  total_16 <~ read_word d 0 BPB_TOTAL_SECTORS_16;
  total_32 <~ read_dword d 0 BPB_TOTAL_SECTORS_32;
  let total := if negb (total_16 =? 0) then total_16 else total_32 in
  fat_size_16 <~ read_word d 0 BPB_FAT_SIZE_16;
  let is32 := fat_size_16 =? 0 in
  fsize <~ (if negb (fat_size_16 =? 0) then Some (Some fat_size_16) else read_dword d 0 BPB_FAT_SIZE_32);
  let root_dirs := (root_entries * 32 + bps - 1) / bps in
  let first_data := wrap 32 (reserved + wrap 32 (fats * fsize) + root_dirs) in
  root <~ (if is32 then read_dword d 0 BPB_ROOT_CLUSTER else Some (Some 0));
  sig_lo <~ read_byte d 0 510;
  sig_hi <~ read_byte d 0 511;
  _ <~ fail_if (negb (sig_lo =? 0x55) || negb (sig_hi =? 0xAA));
  let data_sector_count := wrap 32 (total - first_data) in
  let cluster_count := data_sector_count / spc in
  _ <~ fail_if (cluster_count <? 4085);
  _ <~ fail_if (negb is32 && (65525 <=? cluster_count));
  Some (Some (Build_FatInstance D d bps spc reserved fats root_entries fsize root total first_data root_dirs is32 0 0)).

(** * The allocation table *)

Definition fat_bytes fs : Z := wrap 32 (fat_size fs * bytes_per_sector fs).

(** The copy of the sectors from [s] on; [false]: a sector cannot be read. *)
Fixpoint read_fat_loop (n : nat) (s : Z) fs (m : bmem) : option (bool * bmem) :=
  match n with
  | O => Some (true, m)
  | Datatypes.S n =>
      r ← read_sector (dev fs) (wrap 32 (reserved_sector_count fs + s));
      match r with
      | None => Some (false, m)
      | Some buf =>
          if sector_size (dev fs) <? bytes_per_sector fs then None
          else
            let dst := fat_buffer fs + wrap 32 (s * bytes_per_sector fs) in
            read_fat_loop n (s + 1) fs (for_z 0 (bytes_per_sector fs) (fun i m => aset m (dst + i) (aget buf i)) m)
      end
  end.

(** [cluster_to_sector] *)
Definition cluster_to_sector fs (cluster : Z) : Z :=
  wrap 32 (first_data_sector fs + wrap 32 (wrap 32 (cluster - 2) * sectors_per_cluster fs)).

Definition next_cluster fs (m : bmem) (cluster : Z) : Z :=
  if fat_buffer fs =? 0 then FAT_EOC_MAX_32
  else if is_fat32 fs then
    if cluster <? fat_entry_count fs then Z.land (ld 4 m (fat_buffer fs + 4 * cluster)) 0x0FFFFFFF else FAT_EOC_MAX_32
  else
    if cluster <? fat_entry_count fs then ld 2 m (fat_buffer fs + 2 * cluster) else FAT_EOC_MAX_32.

Definition is_eoc (value : Z) (is_fat32 : bool) : bool :=
  if is_fat32 then FAT_EOC_MIN_32 <=? value else FAT_EOC_MIN_16 <=? value.

(** * Reading clusters *)

Definition cluster_size fs : Z := sectors_per_cluster fs * bytes_per_sector fs.

(** [while (skip >= cluster_size) ...]; [None] inside: [return 0]. *)
Fixpoint skip_clusters (fuel : nat) fs (m : bmem) (current skip : Z) : option (option (Z * Z)) :=
  match fuel with
  | O => None
  | Datatypes.S fuel =>
      if cluster_size fs <=? skip then
        if is_eoc current (is_fat32 fs) then Some None
        else
          let current := next_cluster fs m current in
          if (current =? 0) || is_eoc current (is_fat32 fs) then Some None
          else skip_clusters fuel fs m current (skip - cluster_size fs)
      else Some (Some (current, skip))
  end.

(** [for (i = lo; i < hi; ++i) *dst++ = sec_buf[i];] *)
Definition copy_sector d (sec : bmem) (lo hi dst : Z) (buf : bmem) : option bmem :=
  if (hi <=? sector_size d) || (hi <=? lo)
  then Some (for_z lo hi (fun i buf => aset buf (dst + (i - lo)) (aget sec i)) buf) else None.

(** The loop over the sectors [s .. stop) of a cluster; the pointer [dst] and the
    buffer afterwards, and whether every sector could be read. *)
Fixpoint chunk_sectors (n : nat) fs (sector s start stop cluster_off chunk dst : Z) (buf : bmem) : option (bool * bmem) :=
  match n with
  | O => Some (true, buf)
  | Datatypes.S n =>
      r ← read_sector (dev fs) (wrap 32 (sector + s));
      match r with
      | None => Some (false, buf)
      | Some sec =>
          let bps := bytes_per_sector fs in
          let sec_start := if s =? start then cluster_off mod bps else 0 in
          let sec_end := if s =? stop - 1 then (cluster_off + chunk) mod bps else bps in
          let sec_end := if sec_end =? 0 then bps else sec_end in
          buf ← copy_sector (dev fs) sec sec_start sec_end dst buf;
          chunk_sectors n fs sector (s + 1) start stop cluster_off chunk (dst + Z.max 0 (sec_end - sec_start)) buf
      end
  end.

(** [while (done < size) ...] *)
Fixpoint chain_loop (fuel : nat) fs (m : bmem) (current skip done size : Z) (buf : bmem) : option (Z * bmem) :=
  match fuel with
  | O => None
  | Datatypes.S fuel =>
      if done <? size then
        if (current <? 2) || is_eoc current (is_fat32 fs) then Some (done, buf)
        else
          let sector := cluster_to_sector fs current in
          let chunk := cluster_size fs - skip in
          let chunk := if size - done <? chunk then size - done else chunk in
          let start := skip / bytes_per_sector fs in
          let stop := (skip + chunk + bytes_per_sector fs - 1) / bytes_per_sector fs in
          '(ok, buf) ← chunk_sectors (Z.to_nat (stop - start)) fs sector start start stop skip chunk done buf;
          if (negb ok : bool) then Some (done, buf)
          else chain_loop fuel fs m (next_cluster fs m current) 0 (done + chunk) size buf
      else Some (done, buf)
  end.

(** Each round of the first loop takes a cluster off the offset; each round of
    the second but the first copies a whole cluster or finishes. *)
Definition read_from_chain fs (m : bmem) (start_cluster offset : Z) (buf : bmem) (size : Z) : option (Z * bmem) :=
  if size =? 0 then Some (0, buf)
  else
    r ← skip_clusters (Z.to_nat (offset / cluster_size fs + 1)) fs m start_cluster offset;
    match r with
    | None => Some (0, buf)
    | Some (current, skip) => chain_loop (Z.to_nat (size / cluster_size fs + 3)) fs m current skip 0 size buf
    end.

(** The loop of [read_fat16_root]. *)
Fixpoint root_loop (fuel : nat) fs (root_start sector_off byte_off done size : Z) (buf : bmem) : option (Z * bmem) :=
  match fuel with
  | O => None
  | Datatypes.S fuel =>
      if done <? size then
        r ← read_sector (dev fs) (wrap 32 (root_start + sector_off));
        match r with
        | None => Some (done, buf)
        | Some sec =>
            let chunk := bytes_per_sector fs - byte_off in
            let chunk := if size - done <? chunk then size - done else chunk in
            buf ← copy_sector (dev fs) sec byte_off (byte_off + chunk) done buf;
            root_loop fuel fs root_start (sector_off + 1) 0 (done + chunk) size buf
        end
      else Some (done, buf)
  end.

Definition root_size fs : Z := root_entry_count fs * 32.
Definition root_start_sector fs : Z := wrap 32 (reserved_sector_count fs + wrap 32 (fat_count fs * fat_size fs)).

Definition read_fat16_root fs (offset : Z) (buf : bmem) (size : Z) : option (Z * bmem) :=
  if root_size fs <=? offset then Some (0, buf)
  else
    let size := if root_size fs <? offset +64 size then root_size fs - offset else size in
    root_loop (Z.to_nat (size / bytes_per_sector fs + 3)) fs (root_start_sector fs)
      (offset / bytes_per_sector fs) (offset mod bytes_per_sector fs) 0 size buf.

Definition read_from_location fs (m : bmem) (cluster : Z) (is_fat16_root : bool) (offset : Z) (buf : bmem) (size : Z) : option (Z * bmem) :=
  if is_fat16_root then read_fat16_root fs offset buf size else read_from_chain fs m cluster offset buf size.

End Volume.

(** * Directory entries

    An entry is the view of 32 bytes: the byte at each offset. *)

Notation entry := (Z -> Z).

Definition view (buf : bmem) (p : Z) : entry := fun i => aget buf (p + i).

(** A character in upper case becomes one in lower case. *)
Definition to_lower (c : Z) : Z := if (65 <=? c) && (c <=? 90) then c + 0x20 else c.

(** The first character has a stand-in for 0xE5. *)
Definition name_byte (e : entry) (i : Z) : Z :=
  let b := e (DIR_NAME + i) in if (i =? 0) && (b =? 0x05) then 0xE5 else b.

(** [for (...; i < n && name_bytes[i] != ' '; ++i) if (pos < max_len - 1) name[pos++] = ...] *)
Fixpoint sfn_chars (n : nat) (i : Z) (e : entry) (max_len : Z) (name : list Z) : list Z :=
  match n with
  | O => name
  | Datatypes.S n =>
      if name_byte e i =? 32 then name
      else sfn_chars n (i + 1) e max_len (if Z.of_nat (length name) <? max_len - 1 then name ++ [name_byte e i] else name)
  end.

(** From the end: lower case up to and including the last dot. *)
Fixpoint lower_ext (rname : list Z) : list Z :=
  match rname with
  | [] => []
  | c :: r => let c := to_lower c in c :: (if c =? 46 then r else lower_ext r)
  end.

Fixpoint lower_base (name : list Z) : list Z :=
  match name with
  | [] => []
  | c :: r => if c =? 46 then c :: r else to_lower c :: lower_base r
  end.

(** The characters before the terminating zero that the function adds. *)
Definition extract_sfn_name (e : entry) (max_len : Z) : list Z :=
  let name := sfn_chars 8 0 e max_len [] in
  let name :=
    if negb (name_byte e 8 =? 32) then
      let name := if Z.of_nat (length name) <? max_len - 1 then name ++ [46] else name in
      sfn_chars 3 8 e max_len name
    else name in
  let nt_res := e DIR_NT_RES in
  let name := if negb (Z.land nt_res 0x08 =? 0) then rev (lower_ext (rev name)) else name in
  if negb (Z.land nt_res 0x10 =? 0) then lower_base name else name.

(** The string that a buffer holds: up to its first zero. *)
Fixpoint cstr (l : list Z) : str :=
  match l with [] => [] | c :: l => if c =? 0 then [] else c :: cstr l end.

Definition is_end_marker (e : entry) : bool := e DIR_NAME =? 0x00.
Definition is_deleted (e : entry) : bool := e DIR_NAME =? 0xE5.
Definition is_lfn_entry (e : entry) : bool := e DIR_ATTR =? ATTR_LFN.

Definition is_regular_entry (e : entry) : bool :=
  if is_deleted e || is_end_marker e || is_lfn_entry e then false
  else
    let attr := e DIR_ATTR in
    if attr =? ATTR_VOLUME_ID then false
    else if negb (Z.land attr ATTR_VOLUME_ID =? 0) then false else true.

(** The comparison loop, up to the terminating zeros. *)
Fixpoint equals_ignoring_case (a b : str) : bool :=
  match a, b with
  | [], [] => true
  | x :: a, y :: b => if to_lower x =? to_lower y then equals_ignoring_case a b else false
  | _, _ => false
  end.

Definition name_matches_sfn (e : entry) (name : str) : bool := equals_ignoring_case name (cstr (extract_sfn_name e 13)).

(** The fields of a found entry, as both loops of [find_entry] read them. *)
Definition entry_node (e : entry) (fsp : Z) : FatNode :=
  Build_FatNode (Z.lor (Z.shiftl (e DIR_CLUSTER_HI) 16) (e DIR_CLUSTER_LO))
    (Z.lor (Z.lor (Z.lor (e DIR_FILE_SIZE) (Z.shiftl (e (DIR_FILE_SIZE + 1)) 8)) (Z.shiftl (e (DIR_FILE_SIZE + 2)) 16))
       (Z.shiftl (e (DIR_FILE_SIZE + 3)) 24))
    (e DIR_ATTR) fsp.

(** [name] is "." or "..". *)
Definition is_dots (name : str) : bool :=
  match name with [46] | [46; 46] => true | _ => false end.

(** * Directories *)

Inductive found := NotFound | Broken | Found (n : FatNode).

Section Directory.
Context {D : Type} `{BlockDev D}.
Implicit Types (fs : FatInstance D).

(** [while (offset + 32 <= root_size) ...] of the fixed root directory. *)
Fixpoint find_in_root (fuel : nat) fs (fsp offset : Z) (name : str) : option found :=
  match fuel with
  | O => None
  | Datatypes.S fuel =>
      if offset + 32 <=? root_size fs then
        '(n, buf) ← read_fat16_root fs offset (afill 0) 32;
        let e := view buf 0 in
        if n <? 32 then Some NotFound
        else if is_end_marker e then Some NotFound
        else if is_regular_entry e && name_matches_sfn e name then Some (Found (entry_node e fsp))
        else find_in_root fuel fs fsp (offset + 32) name
      else Some NotFound
  end.

(** The entries of one sector; [None] inside: look further. *)
Fixpoint find_in_sector (n : nat) fs (fsp : Z) (sec : bmem) (off : Z) (name : str) : option (option found) :=
  match n with
  | O => Some None
  | Datatypes.S n =>
      if sector_size (dev fs) <? off + 32 then None
      else
        let e := view sec off in
        if is_end_marker e then Some (Some NotFound)
        else if is_regular_entry e && name_matches_sfn e name then Some (Some (Found (entry_node e fsp)))
        else find_in_sector n fs fsp sec (off + 32) name
  end.

(** The sectors of one cluster. *)
Fixpoint find_in_cluster (n : nat) fs (fsp sector s : Z) (name : str) : option (option found) :=
  match n with
  | O => Some None
  | Datatypes.S n =>
      r ← read_sector (dev fs) (wrap 32 (sector + s));
      match r with
      | None => Some (Some Broken)
      | Some sec =>
          r ← find_in_sector (Z.to_nat (bytes_per_sector fs / 32)) fs fsp sec 0 name;
          match r with Some f => Some (Some f) | None => find_in_cluster n fs fsp sector (s + 1) name end
      end
  end.

(** [while (current >= 2 && !is_eoc(current)) ...] *)
Fixpoint find_in_chain (fuel : nat) fs (m : bmem) (fsp current : Z) (name : str) : option found :=
  match fuel with
  | O => None
  | Datatypes.S fuel =>
      if (2 <=? current) && negb (is_eoc current (is_fat32 fs)) then
        r ← find_in_cluster (Z.to_nat (sectors_per_cluster fs)) fs fsp (cluster_to_sector fs current) 0 name;
        match r with Some f => Some f | None => find_in_chain fuel fs m fsp (next_cluster fs m current) name end
      else Some NotFound
  end.

(** A chain that ends has fewer clusters than the table has entries. *)
Definition find_entry fs (m : bmem) (fsp dir_cluster : Z) (is_fat16_root : bool) (name : str) : option found :=
  if (match name with [] => true | _ => false end) then Some NotFound
  else if 4096 <? cluster_size fs then Some Broken
  else if is_dots name then Some NotFound
  else if is_fat16_root then find_in_root (Z.to_nat (root_entry_count fs + 1)) fs fsp 0 name
  else find_in_chain (Z.to_nat (fat_entry_count fs + 1)) fs m fsp dir_cluster name.

(** [while (true) ...]: the directory entry and the offset behind it. *)
Fixpoint next_entry_loop (fuel : nat) fs (m : bmem) (dir_cluster : Z) (is_fat16_root : bool) (offset : Z) : option (option (Dirent * Z)) :=
  match fuel with
  | O => None
  | Datatypes.S fuel =>
      '(n, buf) ← (if is_fat16_root then read_fat16_root fs offset (afill 0) 32 else read_from_chain fs m dir_cluster offset (afill 0) 32);
      let e := view buf 0 in
      let attr := e DIR_ATTR in
      let name := cstr (extract_sfn_name e 256) in
      if n <? 32 then Some None
      else if is_end_marker e then Some None
      else if is_deleted e || is_lfn_entry e then next_entry_loop fuel fs m dir_cluster is_fat16_root (offset +64 32)
      else if (attr =? ATTR_VOLUME_ID) || negb (Z.land attr ATTR_VOLUME_ID =? 0)
      then next_entry_loop fuel fs m dir_cluster is_fat16_root (offset +64 32)
      else if is_dots name then next_entry_loop fuel fs m dir_cluster is_fat16_root (offset +64 32)
      else Some (Some (Build_Dirent name (if negb (Z.land attr ATTR_DIRECTORY =? 0) then Directory else File), offset +64 32))
  end.

(** The entries that a directory can have, and one round to see its end. *)
Definition dir_rounds fs (is_fat16_root : bool) : nat :=
  Z.to_nat (1 + if is_fat16_root then root_entry_count fs else fat_entry_count fs * (cluster_size fs / 32)).

Definition read_next_entry fs (m : bmem) (dir_cluster : Z) (is_fat16_root : bool) (offset : Z) : option (option (Dirent * Z)) :=
  next_entry_loop (dir_rounds fs is_fat16_root) fs m dir_cluster is_fat16_root offset.

End Directory.

(** * The filesystem *)

(** [g_fs]: the address of the mounted instance, 0 for none. *)
Record fat (D A : Type) := Fat {
  g_fs : Z;
  instances : gmap Z (FatInstance D);
  fat_vnodes : gmap Z Vnode;
  fat_nodes : gmap Z FatNode;
  fat_mem : bmem;
  fat_kmem : A;
}.
Arguments Fat {D A}.
Arguments g_fs {D A}.
Arguments instances {D A}.
Arguments fat_vnodes {D A}.
Arguments fat_nodes {D A}.
Arguments fat_mem {D A}.
Arguments fat_kmem {D A}.

Section Operations.
Context {D A : Type} `{BlockDev D} `{KMem A}.
Implicit Types (s : fat D A).

Definition set_fat_kmem (a : A) s : fat D A := Fat (g_fs s) (instances s) (fat_vnodes s) (fat_nodes s) (fat_mem s) a.
Definition set_fat_vnode (p : Z) (v : Vnode) s : fat D A :=
  Fat (g_fs s) (instances s) (<[p := v]> (fat_vnodes s)) (fat_nodes s) (fat_mem s) (fat_kmem s).
Definition set_fat_node (p : Z) (n : FatNode) s : fat D A :=
  Fat (g_fs s) (instances s) (fat_vnodes s) (<[p := n]> (fat_nodes s)) (fat_mem s) (fat_kmem s).
Definition set_fat_mem (m : bmem) s : fat D A := Fat (g_fs s) (instances s) (fat_vnodes s) (fat_nodes s) m (fat_kmem s).
Definition set_g_fs (p : Z) s : fat D A := Fat p (instances s) (fat_vnodes s) (fat_nodes s) (fat_mem s) (fat_kmem s).
Definition set_instance (p : Z) (fs : FatInstance D) s : fat D A :=
  Fat (g_fs s) (<[p := fs]> (instances s)) (fat_vnodes s) (fat_nodes s) (fat_mem s) (fat_kmem s).

Definition kalloc (size alignment : Z) s : Z * fat D A :=
  let '(p, a) := km_kalloc size alignment (fat_kmem s) in (p, set_fat_kmem a s).
Definition kfree (p size : Z) s : fat D A := set_fat_kmem (km_kfree p size (fat_kmem s)) s.

(** The instance with its table, or without one when a sector or the memory is
    missing. *)
Definition read_fat_table (fs : FatInstance D) s : option (option (FatInstance D) * fat D A) :=
  let entry_size := if is_fat32 fs then 4 else 2 in
  let entries := fat_bytes fs / entry_size in
  let '(p, s) := kalloc (fat_bytes fs) 4 s in
  if p =? 0 then Some (None, s)
  else
    let fs := Build_FatInstance D (dev fs) (bytes_per_sector fs) (sectors_per_cluster fs) (reserved_sector_count fs) (fat_count fs)
      (root_entry_count fs) (fat_size fs) (root_cluster fs) (total_sectors fs) (first_data_sector fs) (root_dir_sectors fs)
      (is_fat32 fs) p entries in
    '(ok, m) ← read_fat_loop (Z.to_nat (fat_size fs)) 0 fs (fat_mem s);
    let s := set_fat_mem m s in
    Some (if (ok : bool) then (Some fs, s) else (None, kfree p (fat_bytes fs) s)).

Definition init (d : D) s : option (Z * fat D A) :=
  if negb (g_fs s =? 0) then Some (-1, s)
  else
    let '(p, s) := kalloc sizeof_FatInstance 8 s in
    if p =? 0 then Some (-1, s)
    else
      r ← parse_bpb d;
      match r with
      | None => Some (-2, kfree p sizeof_FatInstance s)
      | Some fs =>
          '(r, s) ← read_fat_table fs s;
          match r with
          | None => Some (-3, kfree p sizeof_FatInstance s)
          | Some fs => Some (0, set_g_fs p (set_instance p fs s))
          end
      end.

Definition shutdown s : option (fat D A) :=
  if g_fs s =? 0 then Some s
  else
    fs ← instances s !! g_fs s;
    let s := if negb (fat_buffer fs =? 0) then kfree (fat_buffer fs) (fat_bytes fs) s else s in
    Some (set_g_fs 0 (kfree (g_fs s) sizeof_FatInstance s)).

(** The node and the instance behind a vnode. *)
Definition node_of (v : Z) s : option (FatNode * FatInstance D) :=
  vn ← fat_vnodes s !! v; n ← fat_nodes s !! private_data vn; fs ← instances s !! fn_fs n; Some (n, fs).

Definition fat_vnode_ops : Z := 2.

(** A vnode with its node, or the error when there is no memory. *)
Definition new_vnode (type : VnodeType) (ops : Z) (n : FatNode) s : Z * Z * fat D A :=
  let '(v, s) := kalloc sizeof_Vnode 8 s in
  if v =? 0 then (E_NO_SPACE, 0, s)
  else
    let '(p, s) := kalloc sizeof_FatNode 8 s in
    if p =? 0 then (E_NO_SPACE, 0, kfree v sizeof_Vnode s)
    else (0, v, set_fat_vnode v (Build_Vnode type ops p 1 0) (set_fat_node p n s)).

Definition is_root16 (fs : FatInstance D) (n : FatNode) : bool := negb (is_fat32 fs) && (first_cluster n =? 0).

Definition fat_lookup (dir : Z) (name : str) s : option (Z * Z * fat D A) :=
  dv ← fat_vnodes s !! dir;
  '(parent, fs) ← node_of dir s;
  r ← find_entry fs (fat_mem s) (fn_fs parent) (first_cluster parent) (is_root16 fs parent) name;
  match r with
  | NotFound => Some (E_NOT_FOUND, 0, s)
  | Broken => Some (E_IO, 0, s)
  | Found child =>
      Some (new_vnode (if negb (Z.land (attributes child) ATTR_DIRECTORY =? 0) then Directory else File) (v_ops dv) child s)
  end.

Definition fat_read (node offset : Z) (buf : bmem) (size : Z) s : option (Z * Z * bmem * fat D A) :=
  vn ← fat_vnodes s !! node;
  if negb (bool_decide (v_type vn = File)) then Some (E_IS_DIR, 0, buf, s)
  else
    '(fn, fs) ← node_of node s;
    if file_size fn <=? offset then Some (0, 0, buf, s)
    else
      let size := if file_size fn <? offset +64 size then file_size fn - offset else size in
      '(n, buf) ← read_from_chain fs (fat_mem s) (first_cluster fn) offset buf size;
      Some (0, n, buf, s).

Definition fat_readdir (dir offset : Z) s : option (Z * Dirent * Z * fat D A) :=
  vn ← fat_vnodes s !! dir;
  if negb (is_directory (v_type vn)) then Some (E_NOT_DIR, Build_Dirent [] File, 0, s)
  else
    '(fn, fs) ← node_of dir s;
    r ← read_next_entry fs (fat_mem s) (first_cluster fn) (is_root16 fs fn) offset;
    match r with
    | None => Some (E_NOT_FOUND, Build_Dirent [] File, 0, s)
    | Some (entry, offset) => Some (0, entry, offset, s)
    end.

Definition fat_stat (node : Z) s : option (Z * Stat * fat D A) :=
  vn ← fat_vnodes s !! node; n ← fat_nodes s !! private_data vn; Some (0, Build_Stat (v_type vn) (file_size n), s).

Definition fat_stub_create (dir : Z) (name : str) s : option (Z * Z * fat D A) := Some (E_INVALID, 0, s).
Definition fat_stub_mkdir (dir : Z) (name : str) s : option (Z * fat D A) := Some (E_INVALID, s).
Definition fat_stub_write (node offset : Z) (buf : bmem) (size : Z) s : option (Z * Z * fat D A) := Some (E_INVALID, 0, s).

Definition fat_mount s : option (Z * Z * fat D A) :=
  if g_fs s =? 0 then Some (E_IO, 0, s)
  else
    fs ← instances s !! g_fs s;
    Some (new_vnode Directory fat_vnode_ops
      (if is_fat32 fs then Build_FatNode (root_cluster fs) 0 ATTR_DIRECTORY (g_fs s)
       else Build_FatNode 0 (root_size fs) ATTR_DIRECTORY (g_fs s)) s).

Definition fat_unmount (root : Z) s : option (Z * fat D A) :=
  vn ← fat_vnodes s !! root;
  let s := if negb (private_data vn =? 0) then kfree (private_data vn) sizeof_FatNode s else s in
  Some (0, kfree root sizeof_Vnode s).

Definition fs_ops : FilesystemOps (fat D A) := Build_FilesystemOps _ fat_mount fat_unmount.

(** [vnode_ref], [vnode_unref] of [vfs.cpp] on these vnodes. *)
Definition fat_count_ref (up : bool) (v : Z) s : option (fat D A) :=
  if v =? 0 then Some s
  else
    n ← fat_vnodes s !! v;
    let rc := if up then ref_count n +64 1 else if 0 <? ref_count n then ref_count n - 1 else ref_count n in
    Some (set_fat_vnode v (Build_Vnode (v_type n) (v_ops n) (private_data n) rc (mount_parent n)) s).

Definition fat_set_mount_parent (v parent : Z) s : option (fat D A) :=
  n ← fat_vnodes s !! v;
  Some (set_fat_vnode v (Build_Vnode (v_type n) (v_ops n) (private_data n) (ref_count n) parent) s).

End Operations.

#[export, refine] Instance fat_vnode_fs {D A} `{BlockDev D} `{KMem A} : VnodeFs (fat D A) := {|
  vn_type v s := v_type <$> fat_vnodes s !! v;
  vn_ref := fat_count_ref true;
  vn_unref := fat_count_ref false;
  vn_set_mount_parent := fat_set_mount_parent;
  op_lookup := fat_lookup;
  op_create := fat_stub_create;
  has_mkdir _ _ := true;
  op_mkdir := fat_stub_mkdir;
  has_read _ _ := true;
  op_read v offset buf size s := fat_read v offset buf size s;
  has_write _ _ := true;
  op_write v offset buf size s := fat_stub_write v offset buf size s;
  has_readdir _ _ := true;
  op_readdir := fat_readdir;
  has_stat _ _ := true;
  op_stat := fat_stat;
|}.
Proof.
  all: intros v w s s'; unfold fat_count_ref; destruct (w =? 0); [by intros [= <-]|];
    destruct (fat_vnodes s !! w) as [n|] eqn:E; [|done]; cbn; intros [= <-]; cbn; rewrite lookup_insert; case_decide as Hd; [|done];
    subst; by rewrite E.
Defined.
