(* ===== verification/FatSpec.v ===== *)
(** What the FAT driver reads: files are the concatenation of their clusters,
    directories the sequence of their entries, and the table in memory is the
    one on the device. *)

From S2P Require Import Prelude MemoryMap Pmm PageAlloc Bytes KMem VfsBase Ramfs Block Fat.

Section Chains.
Context {D : Type} `{BlockDev D}.
Implicit Types (fs : FatInstance D).

(** Sectors of 512 bytes, as the driver's buffers assume. *)
Record vol_ok fs : Prop := {
  vo_sector : sector_size (dev fs) = 512;
  vo_bps : bytes_per_sector fs = 512;
  vo_spc : 0 < sectors_per_cluster fs < 256;
}.

(** The sectors of a cluster exist. *)
Definition readable fs (c : Z) : Prop :=
  cluster_to_sector fs c + sectors_per_cluster fs <= 2 ^ 32
  /\ (cluster_to_sector fs c + sectors_per_cluster fs) * 512 <= dev_size (dev fs).

(** The clusters from [start] to the end mark are [cs]. *)
Fixpoint is_chain fs (m : bmem) (start : Z) (cs : list Z) : Prop :=
  match cs with
  | [] => start = 0 \/ is_eoc start (is_fat32 fs) = true
  | c :: cs => start = c /\ 2 <= c < fat_entry_count fs /\ is_eoc c (is_fat32 fs) = false /\ readable fs c
      /\ is_chain fs m (next_cluster fs m c) cs
  end.

(** The byte of a chain at an offset. *)
Definition chain_byte fs (cs : list Z) (off : Z) : Z :=
  match cs !! Z.to_nat (off / cluster_size fs) with
  | Some c => dev_byte (dev fs) (cluster_to_sector fs c * 512 + off mod cluster_size fs)
  | None => 0
  end.

Definition chain_size fs (cs : list Z) : Z := Z.of_nat (length cs) * cluster_size fs.

(** ** The length of a chain *)

Lemma is_chain_det fs m cs1 : forall start cs2, is_chain fs m start cs1 -> is_chain fs m start cs2 -> cs1 = cs2.
Proof.
  induction cs1 as [|c cs1 IH]; intros start [|c' cs2]; cbn [is_chain]; [done| | |].
  - intros [E|He] (-> & Hc & Hn & _); [lia|congruence].
  - intros (-> & Hc & Hn & _) [E|He]; [lia|congruence].
  - intros (-> & _ & _ & _ & H1) (-> & _ & _ & _ & H2). f_equal. by eapply IH.
Qed.

Lemma is_chain_suffix fs m cs1 c cs2 : forall start, is_chain fs m start (cs1 ++ c :: cs2) -> is_chain fs m c (c :: cs2).
Proof.
  induction cs1 as [|c1 cs1 IH]; intros start; cbn [app].
  - intros Hc. pose proof Hc as (-> & _). done.
  - intros (_ & _ & _ & _ & H1). by eapply IH.
Qed.

Lemma is_chain_nodup fs m cs : forall start, is_chain fs m start cs -> NoDup cs.
Proof.
  induction cs as [|c cs IH]; intros start Hc; [constructor|]. constructor; [|destruct Hc as (_ & _ & _ & _ & Hc); by eapply IH].
  intros Hin. apply list_elem_of_split in Hin as (l1 & l2 & ->).
  pose proof Hc as (-> & _). pose proof (is_chain_suffix fs m (c :: l1) c l2 c Hc) as Hs.
  pose proof (is_chain_det fs m _ _ _ Hc Hs) as E. apply (f_equal length) in E. rewrite !length_cons, length_app, length_cons in E. lia.
Qed.

Lemma is_chain_range fs m cs : forall start, is_chain fs m start cs -> Forall (fun c => 2 <= c < fat_entry_count fs) cs.
Proof. induction cs as [|c cs IH]; intros start; cbn; [done|]. intros (-> & Hc & _ & _ & Hn). constructor; [done|by eapply IH]. Qed.

Lemma distinct_below (l : list Z) (n : nat) : NoDup l -> Forall (fun c => 0 <= c < Z.of_nat n) l -> (length l <= n)%nat.
Proof.
  intros Hd Hr. rewrite <- (length_seq n 0), <- (length_fmap Z.of_nat).
  apply submseteq_length, NoDup_submseteq; [done|]. intros c Hin. rewrite Forall_forall in Hr. specialize (Hr c Hin).
  apply list_elem_of_fmap. exists (Z.to_nat c). split; [lia|]. apply elem_of_seq. lia.
Qed.

(** No two clusters are the same, so a chain is shorter than the table, and
    than the end marks allow. *)
Lemma is_chain_length fs m start cs : is_chain fs m start cs -> (length cs <= Z.to_nat (fat_entry_count fs))%nat.
Proof.
  intros Hc. apply distinct_below; [by eapply is_chain_nodup|]. eapply Forall_impl; [by eapply is_chain_range|]. cbn. lia.
Qed.

Lemma is_chain_marks fs m cs : forall start, is_chain fs m start cs -> Forall (fun c => 0 <= c < FAT_EOC_MIN_32) cs.
Proof.
  induction cs as [|c cs IH]; intros start; cbn; [done|]. intros (-> & Hc & He & _ & Hn). constructor; [|by eapply IH].
  unfold is_eoc, FAT_EOC_MIN_32, FAT_EOC_MIN_16 in *. destruct (is_fat32 fs); lia.
Qed.

Lemma is_chain_short fs m start cs : is_chain fs m start cs -> Z.of_nat (length cs) <= FAT_EOC_MIN_32.
Proof.
  intros Hc. assert (length cs <= Z.to_nat FAT_EOC_MIN_32)%nat; [|unfold FAT_EOC_MIN_32 in *; lia].
  apply distinct_below; [by eapply is_chain_nodup|]. rewrite Z2Nat.id by (unfold FAT_EOC_MIN_32; lia). by eapply is_chain_marks.
Qed.

(** ** Sectors *)

Lemma read_sector_ok d sector : sector_size d = 512 -> 0 <= sector < 2 ^ 32 -> (sector + 1) * 512 <= dev_size d ->
  exists buf, read_sector d sector = Some (Some buf) /\ forall x, 0 <= x < 512 -> aget buf x = dev_byte d (sector * 512 + x).
Proof.
  intros Hss Hs Hb. unfold read_sector. rewrite Hss. destruct (dev_read_ok d sector (afill 0) 1) as [H1 H2]; [done|lia|rewrite Hss; lia|].
  destruct (dev_read d sector (afill 0) 1) as [ok buf]. cbn [fst snd] in *. subst ok. exists buf. split; [done|].
  intros x Hx. rewrite H2, Hss. by replace ((0 <=? x) && (x <? 1 * 512)) with true by lia.
Qed.

Lemma copy_sector_ok d sec lo hi dst buf : 0 <= lo <= hi -> hi <= sector_size d ->
  exists buf', copy_sector d sec lo hi dst buf = Some buf'
    /\ forall x, aget buf' x = if (dst <=? x) && (x <? dst + (hi - lo)) then aget sec (lo + (x - dst)) else aget buf x.
Proof.
  intros Hl Hh. unfold copy_sector. replace (hi <=? sector_size d) with true by lia. cbn [orb]. eexists. split; [done|]. intros x.
  apply (for_z_inv (fun k b => aget b x = if (dst <=? x) && (x <? dst + (k - lo)) then aget sec (lo + (x - dst)) else aget buf x)); [lia| |].
  - by replace ((dst <=? x) && (x <? dst + (lo - lo))) with false by lia.
  - intros i b Hi IH. rewrite aget_aset. case_decide as Hd.
    + replace ((dst <=? x) && (x <? dst + (i + 1 - lo))) with true by lia. f_equal. lia.
    + rewrite IH. by replace (x <? dst + (i + 1 - lo)) with (x <? dst + (i - lo)) by lia.
Qed.

(** The bytes of a cluster that are copied before sector [s]. *)
Definition upto (skip s : Z) : Z := Z.max skip (512 * s) - skip.

Lemma chunk_sectors_ok fs sector skip chunk buf0 done : vol_ok fs -> 0 <= skip -> 0 < chunk ->
  0 <= sector -> skip + chunk <= cluster_size fs ->
  sector + sectors_per_cluster fs <= 2 ^ 32 -> (sector + sectors_per_cluster fs) * 512 <= dev_size (dev fs) ->
  let start := skip / 512 in let stop := (skip + chunk + 511) / 512 in
  forall n s buf, start <= s -> s + Z.of_nat n = stop ->
  (forall x, aget buf x = if (done <=? x) && (x <? done + Z.min chunk (upto skip s)) then dev_byte (dev fs) (sector * 512 + (skip + (x - done))) else aget buf0 x) ->
  exists buf', chunk_sectors n fs sector s start stop skip chunk (done + Z.min chunk (upto skip s)) buf = Some (true, buf')
    /\ forall x, aget buf' x = if (done <=? x) && (x <? done + chunk) then dev_byte (dev fs) (sector * 512 + (skip + (x - done))) else aget buf0 x.
Proof.
  intros [Hss Hbps Hspc] Hsk Hch Hsec Hcs Hr1 Hr2 start stop. unfold cluster_size in Hcs. rewrite Hbps in Hcs.
  induction n as [|n IH]; intros s buf Hs Hn Hbuf.
  { exists buf. split; [done|]. intros x. rewrite Hbuf. unfold upto. subst start stop.
    replace (Z.min chunk (Z.max skip (512 * s) - skip)) with chunk by zlia. done. }
  cbn [chunk_sectors]. assert (s < sectors_per_cluster fs) as Hlt by (subst start stop; zlia). assert (0 <= s) as Hs0 by (subst start; zlia).
  rewrite wrap_small by lia. destruct (read_sector_ok (dev fs) (sector + s)) as (sec & -> & Hsecb); [done|lia|lia|]. cbn [mbind option_bind].
  rewrite Hbps.
  set (lo := if s =? start then skip mod 512 else 0).
  set (hi0 := if s =? stop - 1 then (skip + chunk) mod 512 else 512).
  set (hi := if hi0 =? 0 then 512 else hi0).
  assert (lo = Z.max skip (512 * s) - 512 * s) as Elo. { subst lo start. destruct (Z.eqb_spec s (skip / 512)); zlia. }
  assert (hi = Z.min (skip + chunk) (512 * (s + 1)) - 512 * s) as Ehi.
  { subst hi hi0 stop start. destruct (Z.eqb_spec s ((skip + chunk + 511) / 512 - 1)); case_match; zlia. }
  assert (Z.max skip (512 * s) < Z.min (skip + chunk) (512 * (s + 1))) as Hne by (subst start stop; zlia).
  destruct (copy_sector_ok (dev fs) sec lo hi (done + Z.min chunk (upto skip s)) buf) as (buf1 & -> & Hb1); [lia|lia|]. cbn [mbind option_bind].
  replace (done + Z.min chunk (upto skip s) + Z.max 0 (hi - lo)) with (done + Z.min chunk (upto skip (s + 1))) by (unfold upto; lia).
  apply IH; [lia|lia|]. intros x. rewrite Hb1, Hbuf. unfold upto.
  destruct (decide (done + Z.min chunk (Z.max skip (512 * s) - skip) <= x < done + Z.min chunk (Z.max skip (512 * (s + 1)) - skip))) as [Hx|Hx].
  - replace (_ && (x <? done + Z.min chunk (Z.max skip (512 * s) - skip) + (hi - lo))) with true by lia.
    replace ((done <=? x) && (x <? done + Z.min chunk (Z.max skip (512 * (s + 1)) - skip))) with true by lia.
    rewrite Hsecb by lia. f_equal. lia.
  - replace (_ && (x <? done + Z.min chunk (Z.max skip (512 * s) - skip) + (hi - lo))) with false by lia.
    by replace (x <? done + Z.min chunk (Z.max skip (512 * (s + 1)) - skip)) with (x <? done + Z.min chunk (Z.max skip (512 * s) - skip)) by lia.
Qed.

(** ** Chains *)

Lemma vol_cluster_size fs : vol_ok fs -> 0 < cluster_size fs <= 130560.
Proof. intros [_ Hb Hs]. unfold cluster_size. rewrite Hb. lia. Qed.

Lemma cluster_to_sector_range fs c : 0 <= cluster_to_sector fs c < 2 ^ 32.
Proof. unfold cluster_to_sector, wrap. apply Z.mod_pos_bound. lia. Qed.

Lemma chain_byte_head fs c cs off : 0 <= off < cluster_size fs ->
  chain_byte fs (c :: cs) off = dev_byte (dev fs) (cluster_to_sector fs c * 512 + off).
Proof. intros Ho. unfold chain_byte. rewrite Z.div_small, Z.mod_small by done. done. Qed.

Lemma chain_byte_tail fs c cs off : 0 < cluster_size fs <= off -> chain_byte fs (c :: cs) off = chain_byte fs cs (off - cluster_size fs).
Proof.
  intros Ho. unfold chain_byte. remember (off - cluster_size fs) as o eqn:Eo. assert (off = o + 1 * cluster_size fs) as -> by lia. clear Eo.
  rewrite Z.div_add, Z_mod_plus_full by lia. assert (0 <= o / cluster_size fs) by (apply Z.div_pos; lia).
  by replace (Z.to_nat (o / cluster_size fs + 1)) with (Datatypes.S (Z.to_nat (o / cluster_size fs))) by lia.
Qed.

(** What a read from [cs] leaves: [n] bytes from [off] on at [done], the rest as
    before. *)
Definition holds fs (cs : list Z) (off done n : Z) (buf0 buf : bmem) : Prop :=
  forall x, aget buf x = if (done <=? x) && (x <? done + n) then chain_byte fs cs (off + (x - done)) else aget buf0 x.

Lemma chain_loop_ok fs m size : vol_ok fs -> forall fuel cs current skip done buf,
  is_chain fs m current cs -> 0 <= skip < cluster_size fs -> 0 <= done <= size ->
  (if done <? size then (size - done + skip - 1) / cluster_size fs + 2 else 1) <= Z.of_nat fuel ->
  let n := Z.min (size - done) (Z.max 0 (chain_size fs cs - skip)) in
  exists buf', chain_loop fuel fs m current skip done size buf = Some (done + n, buf') /\ holds fs cs skip done n buf buf'.
Proof.
  intros Hv. pose proof (vol_cluster_size fs Hv) as Hcs. induction fuel as [|fuel IH]; intros cs current skip done buf Hc Hsk Hd Hf n.
  { destruct (done <? size) eqn:E; [|lia]. assert (0 <= (size - done + skip - 1) / cluster_size fs) by (apply Z.div_pos; lia). lia. }
  cbn [chain_loop]. destruct (Z.ltb_spec done size) as [Hlt|Hge].
  2:{ assert (n = 0) as -> by (subst n; lia). exists buf. rewrite Z.add_0_r. split; [done|]. intros x.
      by replace ((done <=? x) && (x <? done + 0)) with false by lia. }
  destruct cs as [|c cs]; cbn [is_chain] in Hc.
  { assert ((current <? 2) || is_eoc current (is_fat32 fs) = true) as ->. { apply orb_true_iff. destruct Hc as [-> | ->]; [by left|by right]. }
    assert (n = 0) as -> by (subst n; unfold chain_size; cbn [length]; lia). exists buf. rewrite Z.add_0_r. split; [done|]. intros x.
    by replace ((done <=? x) && (x <? done + 0)) with false by lia. }
  destruct Hc as (-> & Hcr & He & [Hr1 Hr2] & Hc). replace ((c <? 2) || is_eoc c (is_fat32 fs)) with false by (rewrite He; lia).
  set (chunk := if size - done <? cluster_size fs - skip then size - done else cluster_size fs - skip).
  assert (0 < chunk /\ chunk <= cluster_size fs - skip /\ chunk <= size - done /\ (chunk = cluster_size fs - skip \/ done + chunk = size)) as (Hch0 & Hch1 & Hch2 & Hch3).
  { subst chunk. case_match; lia. }
  rewrite (vo_bps fs Hv). replace (skip + chunk + 512 - 1) with (skip + chunk + 511) by lia.
  destruct (chunk_sectors_ok fs (cluster_to_sector fs c) skip chunk buf done Hv ltac:(lia) ltac:(lia) ltac:(apply cluster_to_sector_range) ltac:(lia) Hr1 Hr2
    (Z.to_nat ((skip + chunk + 511) / 512 - skip / 512)) (skip / 512) buf) as (buf1 & E1 & Hb1); [lia|zlia| |].
  { intros x. unfold upto. replace ((done <=? x) && _) with false by zlia. done. }
  replace (done + Z.min chunk (upto skip (skip / 512))) with done in E1 by (unfold upto; zlia). cbv zeta in E1. rewrite E1. cbn [mbind option_bind negb].
  destruct (IH cs (next_cluster fs m c) 0 (done + chunk) buf1) as (buf' & E' & Hb'); [done|lia|lia| |].
  { destruct (Z.ltb_spec (done + chunk) size) as [Hl|]; [|destruct (Z.ltb_spec done size); [|lia];
      assert (0 <= (size - done + skip - 1) / cluster_size fs) by (apply Z.div_pos; lia); lia].
    assert (chunk = cluster_size fs - skip) as Ec by lia. rewrite Ec.
    replace (size - done + skip - 1) with (size - (done + (cluster_size fs - skip)) + 0 - 1 + 1 * cluster_size fs) in Hf by lia.
    rewrite Z.div_add in Hf by lia. lia. }
  assert (n = chunk + Z.min (size - (done + chunk)) (Z.max 0 (chain_size fs cs - 0))) as En.
  { subst n. unfold chain_size. cbn [length]. rewrite Nat2Z.inj_succ, Z.mul_succ_l. assert (0 <= Z.of_nat (length cs) * cluster_size fs) by nia. lia. }
  set (n1 := Z.min (size - (done + chunk)) (Z.max 0 (chain_size fs cs - 0))) in *. exists buf'. split; [rewrite E'; do 2 f_equal; lia|].
  intros x. rewrite Hb', Hb1. destruct (decide (done <= x < done + chunk)) as [Hx|Hx].
  - replace ((done + chunk <=? x) && (x <? done + chunk + n1)) with false by lia. replace ((done <=? x) && (x <? done + chunk)) with true by lia.
    replace ((done <=? x) && (x <? done + n)) with true by lia. rewrite chain_byte_head by lia. done.
  - replace ((done <=? x) && (x <? done + chunk)) with false by lia. destruct (decide (done + chunk <= x < done + chunk + n1)) as [Hy|Hy].
    + replace ((done + chunk <=? x) && (x <? done + chunk + n1)) with true by lia. replace ((done <=? x) && (x <? done + n)) with true by lia.
      rewrite chain_byte_tail by lia. f_equal. lia.
    + replace ((done + chunk <=? x) && (x <? done + chunk + n1)) with false by lia. by replace ((done <=? x) && (x <? done + n)) with false by lia.
Qed.

(** Skipping whole clusters: where the offset lies, or nothing. *)
Lemma skip_clusters_ok fs m : vol_ok fs -> forall fuel cs current skip, is_chain fs m current cs -> cs <> [] -> 0 <= skip ->
  skip / cluster_size fs + 1 <= Z.of_nat fuel ->
  (chain_size fs cs <= skip /\ skip_clusters fuel fs m current skip = Some None)
  \/ (exists c cs', skip_clusters fuel fs m current skip = Some (Some (c, skip mod cluster_size fs)) /\ is_chain fs m c cs'
        /\ chain_size fs cs' - skip mod cluster_size fs = chain_size fs cs - skip
        /\ forall off, 0 <= off -> chain_byte fs cs' (skip mod cluster_size fs + off) = chain_byte fs cs (skip + off)).
Proof.
  intros Hv. pose proof (vol_cluster_size fs Hv) as Hcs. induction fuel as [|fuel IH]; intros cs current skip Hc Hne Hs Hf.
  { assert (0 <= skip / cluster_size fs) by (apply Z.div_pos; lia). lia. }
  destruct cs as [|c cs]; [done|]. cbn [is_chain] in Hc. destruct Hc as (-> & Hcr & He & Hr & Hc). cbn [skip_clusters].
  destruct (Z.leb_spec (cluster_size fs) skip) as [Hle|Hlt].
  2:{ right. exists c, (c :: cs). rewrite Z.mod_small by lia. done. }
  rewrite He. destruct cs as [|c' cs].
  { cbn [is_chain] in Hc. left. unfold chain_size. cbn [length]. split; [lia|].
    replace ((next_cluster fs m c =? 0) || _) with true; [done|]. symmetry. apply orb_true_iff. destruct Hc as [-> | ->]; [by left|by right]. }
  pose proof Hc as (E & Hcr' & He' & _). replace ((next_cluster fs m c =? 0) || _) with false by (rewrite E, He'; lia).
  assert (skip mod cluster_size fs = (skip - cluster_size fs) mod cluster_size fs) as Em.
  { replace skip with (skip - cluster_size fs + 1 * cluster_size fs) at 1 by lia. apply Z_mod_plus_full. }
  assert (skip / cluster_size fs = (skip - cluster_size fs) / cluster_size fs + 1) as Ed.
  { replace skip with (skip - cluster_size fs + 1 * cluster_size fs) at 1 by lia. by rewrite Z.div_add by lia. }
  destruct (IH (c' :: cs) (next_cluster fs m c) (skip - cluster_size fs) Hc) as [[H1 H2]|(c1 & cs1 & H1 & H2 & H3 & H4)]; [done|lia|lia| |].
  - left. split; [|done]. unfold chain_size in *. cbn [length] in *. lia.
  - right. exists c1, cs1. rewrite Em. split_and!; [done|done| |].
    + rewrite H3. unfold chain_size. cbn [length]. lia.
    + intros off Ho. rewrite H4 by done. rewrite (chain_byte_tail fs c) by lia. f_equal. lia.
Qed.

(** A read from a chain that ends: all the bytes that are there, up to the
    requested size. *)
Lemma read_from_chain_cases fs m start cs offset buf size :
  vol_ok fs -> is_chain fs m start cs -> cs <> [] -> 0 <= offset -> 0 <= size ->
  let n := Z.min size (Z.max 0 (chain_size fs cs - offset)) in
  exists buf', read_from_chain fs m start offset buf size = Some (n, buf') /\ holds fs cs offset 0 n buf buf'.
Proof.
  intros Hv Hc Hne Ho Hs n. pose proof (vol_cluster_size fs Hv) as Hcs. unfold read_from_chain.
  destruct (Z.eqb_spec size 0) as [->|Hnz].
  { assert (n = 0) as -> by (subst n; lia). exists buf. split; [done|]. intros x. by replace ((0 <=? x) && (x <? 0 + 0)) with false by lia. }
  assert (0 <= offset / cluster_size fs) by (apply Z.div_pos; lia).
  destruct (skip_clusters_ok fs m Hv (Z.to_nat (offset / cluster_size fs + 1)) cs start offset Hc Hne Ho ltac:(lia)) as [[H1 ->]|(c & cs' & -> & Hc' & Hsz & Hb)];
    cbn [mbind option_bind].
  { assert (n = 0) as -> by (subst n; lia). exists buf. split; [done|]. intros x. by replace ((0 <=? x) && (x <? 0 + 0)) with false by lia. }
  pose proof (Z.mod_pos_bound offset (cluster_size fs) ltac:(lia)) as Hm.
  destruct (chain_loop_ok fs m size Hv (Z.to_nat (size / cluster_size fs + 3)) cs' c (offset mod cluster_size fs) 0 buf Hc' Hm ltac:(lia)) as (buf' & E & Hbuf').
  { replace (0 <? size) with true by lia. assert (0 <= size / cluster_size fs) by (apply Z.div_pos; lia).
    assert ((size - 0 + offset mod cluster_size fs - 1) / cluster_size fs <= (size + 1 * cluster_size fs) / cluster_size fs) by (apply Z.div_le_mono; lia).
    rewrite Z.div_add in * by lia. lia. }
  exists buf'. rewrite E. subst n. rewrite Z.sub_0_r, Z.add_0_l, Hsz in *. split; [done|]. intros x. rewrite Hbuf'.
  destruct ((0 <=? x) && _) eqn:Eb; [|done]. rewrite Hb by lia. done.
Qed.

End Chains.
