(* ===== verification/FatDir.v ===== *)
(** Directories of the FAT driver: looking up a name and listing entries agree
    with a scan of the entries of the directory, whatever clusters and sectors
    they lie in. *)

From S2P Require Import Prelude MemoryMap Pmm PageAlloc Bytes KMem VfsBase Ramfs Block Fat FatSpec.

(** * Entries *)

(** Two views agree on the 32 bytes of an entry. *)
Definition entry_eq (e e' : entry) : Prop := forall i, 0 <= i < 32 -> e i = e' i.

#[export] Instance entry_eq_equiv : Equivalence entry_eq.
Proof. split; [by intros e i|by intros e e' He i Hi; rewrite He|intros e1 e2 e3 E1 E2 i Hi; by rewrite E1, E2]. Qed.

#[export] Instance is_end_marker_proper : Proper (entry_eq ==> eq) is_end_marker.
Proof. intros e e' He. unfold is_end_marker, DIR_NAME. by rewrite He. Qed.

#[export] Instance is_regular_entry_proper : Proper (entry_eq ==> eq) is_regular_entry.
Proof.
  intros e e' He. unfold is_regular_entry, is_deleted, is_end_marker, is_lfn_entry, DIR_NAME, DIR_ATTR. by rewrite !He by lia.
Qed.

Lemma name_byte_eq e e' i : entry_eq e e' -> 0 <= i < 32 -> name_byte e i = name_byte e' i.
Proof. intros He Hi. unfold name_byte, DIR_NAME. by rewrite He by lia. Qed.

Lemma sfn_chars_eq e e' max_len n : entry_eq e e' -> forall i name, 0 <= i -> i + Z.of_nat n <= 32 ->
  sfn_chars n i e max_len name = sfn_chars n i e' max_len name.
Proof.
  intros He. induction n as [|n IH]; intros i name Hi Hn; [done|]. cbn [sfn_chars]. rewrite (name_byte_eq e e' i He) by lia.
  by rewrite (IH (i + 1)) by lia.
Qed.

#[export] Instance extract_sfn_name_proper : Proper (entry_eq ==> eq ==> eq) extract_sfn_name.
Proof.
  intros e e' He ? max_len ->. unfold extract_sfn_name, DIR_NT_RES. rewrite He, (name_byte_eq e e' 8 He) by lia.
  by rewrite (sfn_chars_eq e e' max_len 8 He), (sfn_chars_eq e e' max_len 3 He) by lia.
Qed.

#[export] Instance name_matches_sfn_proper : Proper (entry_eq ==> eq ==> eq) name_matches_sfn.
Proof. intros e e' He ? name ->. unfold name_matches_sfn. by rewrite He. Qed.

#[export] Instance entry_node_proper : Proper (entry_eq ==> eq ==> eq) entry_node.
Proof.
  intros e e' He ? p ->. unfold entry_node, DIR_CLUSTER_HI, DIR_CLUSTER_LO, DIR_FILE_SIZE, DIR_ATTR. by rewrite !He by lia.
Qed.

(** ** Names *)

Lemma sfn_chars_length e max_len n : forall i name, (length (sfn_chars n i e max_len name) <= length name + n)%nat.
Proof.
  induction n as [|n IH]; intros i name; cbn [sfn_chars]; [lia|]. case_match; [lia|]. etrans; [apply IH|]. case_match; rewrite ?length_app; cbn; lia.
Qed.

(** A buffer that is large enough makes no difference. *)
Lemma sfn_chars_room e l1 l2 n : forall i name,
  Z.of_nat (length name + n) < l1 -> Z.of_nat (length name + n) < l2 -> sfn_chars n i e l1 name = sfn_chars n i e l2 name.
Proof.
  induction n as [|n IH]; intros i name H1 H2; [done|]. cbn [sfn_chars].
  replace (Z.of_nat (length name) <? l1 - 1) with true by lia. replace (Z.of_nat (length name) <? l2 - 1) with true by lia.
  destruct (_ =? 32); [done|]. apply IH; rewrite length_app; cbn; lia.
Qed.

Lemma extract_sfn_name_room e : extract_sfn_name e 256 = extract_sfn_name e 13.
Proof.
  unfold extract_sfn_name. rewrite (sfn_chars_room e 256 13 8) by (cbn; lia).
  pose proof (sfn_chars_length e 13 8 0 []) as Hl. cbn [length] in Hl. set (n := sfn_chars 8 0 e 13 []) in *. clearbody n.
  replace (Z.of_nat (length n) <? 256 - 1) with true by lia. replace (Z.of_nat (length n) <? 13 - 1) with true by lia.
  by rewrite (sfn_chars_room e 256 13 3) by (rewrite length_app; cbn [length]; lia).
Qed.

Lemma equals_ignoring_case_refl a : equals_ignoring_case a a = true.
Proof. induction a as [|c a IH]; cbn; [done|]. by rewrite Z.eqb_refl. Qed.

(** * Scans of the entries of a directory: the reference *)

(** The first of [n] entries from the [k]-th on that ends the search. *)
Fixpoint scan (n : nat) (k : Z) (ent : Z -> entry) (fsp : Z) (name : str) : option found :=
  match n with
  | O => None
  | Datatypes.S n =>
      if is_end_marker (ent k) then Some NotFound
      else if is_regular_entry (ent k) && name_matches_sfn (ent k) name then Some (Found (entry_node (ent k) fsp))
      else scan n (k + 1) ent fsp name
  end.

(** What is shown to a reader of the directory. *)
Definition listed (e : entry) : bool := is_regular_entry e && negb (is_dots (cstr (extract_sfn_name e 256))).

Definition dirent_of (e : entry) : Dirent :=
  Build_Dirent (cstr (extract_sfn_name e 256)) (if negb (Z.land (e DIR_ATTR) ATTR_DIRECTORY =? 0) then Directory else File).

Fixpoint next_listed (n : nat) (k : Z) (ent : Z -> entry) : option (Dirent * Z) :=
  match n with
  | O => None
  | Datatypes.S n =>
      if is_end_marker (ent k) then None
      else if listed (ent k) then Some (dirent_of (ent k), 32 * (k + 1)) else next_listed n (k + 1) ent
  end.

Lemma scan_app n1 n2 k ent fsp name :
  scan (n1 + n2) k ent fsp name = match scan n1 k ent fsp name with Some f => Some f | None => scan n2 (k + Z.of_nat n1) ent fsp name end.
Proof.
  revert k. induction n1 as [|n1 IH]; intros k; cbn [scan Nat.add]; [by rewrite Z.add_0_r|].
  destruct (is_end_marker _); [done|]. destruct (_ && _); [done|]. rewrite IH. by replace (k + 1 + Z.of_nat n1) with (k + Z.of_nat (Datatypes.S n1)) by lia.
Qed.

(** What is listed is found: the scan for its name ends at it or earlier, at an
    entry of the same name. *)
Lemma scan_listed n ent : forall k de off, next_listed n k ent = Some (de, off) ->
  exists k', k <= k' < k + Z.of_nat n /\ off = 32 * (k' + 1) /\ de = dirent_of (ent k') /\ listed (ent k') = true
    /\ forall k0, k <= k0 < k' -> is_end_marker (ent k0) = false.
Proof.
  induction n as [|n IH]; intros k de off; cbn [next_listed]; [done|]. destruct (is_end_marker (ent k)) eqn:Ee; [done|].
  destruct (listed (ent k)) eqn:El.
  - intros [= <- <-]. exists k. split_and!; [lia|lia|done|done|done|]. intros k0 Hk. lia.
  - intros (k' & Hk & -> & -> & Hl & Hn)%IH. exists k'. split_and!; [lia|lia|done|done|done|]. intros k0 Hk0.
    destruct (decide (k0 = k)) as [->|]; [done|]. apply Hn. lia.
Qed.

Lemma scan_finds n ent fsp name k' : forall k, k <= k' < k + Z.of_nat n ->
  (forall k0, k <= k0 <= k' -> is_end_marker (ent k0) = false) ->
  is_regular_entry (ent k') = true -> name_matches_sfn (ent k') name = true ->
  exists k0, k <= k0 <= k' /\ scan n k ent fsp name = Some (Found (entry_node (ent k0) fsp)) /\ is_regular_entry (ent k0) = true
    /\ name_matches_sfn (ent k0) name = true.
Proof.
  induction n as [|n IH]; intros k Hk Hn Hr Hm; [lia|]. cbn [scan]. rewrite Hn by lia.
  destruct (is_regular_entry (ent k)) eqn:Er; destruct (name_matches_sfn (ent k) name) eqn:Em; cbn [andb].
  { exists k. split_and!; [lia|lia|done|done|done]. }
  all: assert (k <> k') by (intros ->; congruence); destruct (IH (k + 1)) as (k0 & Hk0 & ?); [lia|intros; apply Hn; lia|done|done|];
    exists k0; split; [lia|done].
Qed.

Lemma regular_not_end e : is_regular_entry e = true -> is_end_marker e = false.
Proof. unfold is_regular_entry. destruct (is_end_marker e); [|done]. by rewrite orb_true_r. Qed.

(** * Directories on the device *)

Section Location.
Context {D : Type} `{BlockDev D}.
Implicit Types (fs : FatInstance D).

(** The [k]-th entry of a chain and of the fixed root directory. *)
Definition chain_entry fs (cs : list Z) (k : Z) : entry := fun i => chain_byte fs cs (32 * k + i).
Definition root_entry fs (k : Z) : entry := fun i => dev_byte (dev fs) (root_start_sector fs * 512 + (32 * k + i)).

(** ** Looking up in a chain *)

Lemma find_in_sector_ok fs fsp sec ent name : sector_size (dev fs) = 512 -> forall n k off, off + 32 * Z.of_nat n <= 512 ->
  (forall j, 0 <= j < Z.of_nat n -> entry_eq (view sec (off + 32 * j)) (ent (k + j))) ->
  find_in_sector n fs fsp sec off name = Some (scan n k ent fsp name).
Proof.
  intros Hss. induction n as [|n IH]; intros k off Hn He; [done|]. cbn [find_in_sector scan]. rewrite Hss. replace (512 <? off + 32) with false by lia.
  pose proof (He 0 ltac:(lia)) as H0. rewrite Z.mul_0_r, !Z.add_0_r in H0. rewrite !H0.
  destruct (is_end_marker _); [done|]. destruct (_ && _); [done|]. apply IH; [lia|]. intros j Hj.
  replace (off + 32 + 32 * j) with (off + 32 * (j + 1)) by lia. replace (k + 1 + j) with (k + (j + 1)) by lia. apply He. lia.
Qed.

Lemma find_in_cluster_ok fs fsp sector ent name : vol_ok fs -> 0 <= sector -> sector + sectors_per_cluster fs <= 2 ^ 32 ->
  (sector + sectors_per_cluster fs) * 512 <= dev_size (dev fs) ->
  forall n s k, 0 <= s -> s + Z.of_nat n <= sectors_per_cluster fs ->
  (forall j i, 0 <= j < 16 * Z.of_nat n -> 0 <= i < 32 -> dev_byte (dev fs) ((sector + s) * 512 + (32 * j + i)) = ent (k + j) i) ->
  find_in_cluster n fs fsp sector s name = Some (scan (16 * n) k ent fsp name).
Proof.
  intros Hv Hs0 Hr1 Hr2. induction n as [|n IH]; intros s k Hs Hn He; [done|]. cbn [find_in_cluster]. rewrite wrap_small by lia.
  destruct (read_sector_ok (dev fs) (sector + s)) as (sec & -> & Hsec); [by apply vo_sector|lia|lia|]. cbn [mbind option_bind].
  rewrite (vo_bps fs Hv). change (Z.to_nat (512 / 32)) with 16%nat.
  rewrite (find_in_sector_ok fs fsp sec ent name (vo_sector fs Hv) 16 k 0); [|lia|].
  2:{ intros j Hj i Hi. unfold view. rewrite Hsec by lia. rewrite <- He by lia. done. }
  cbn [mbind option_bind]. replace (16 * Datatypes.S n)%nat with (16 + 16 * n)%nat by lia. rewrite scan_app.
  destruct (scan 16 k ent fsp name); [done|]. apply IH; [lia|lia|]. intros j i Hj Hi.
  replace ((sector + (s + 1)) * 512 + (32 * j + i)) with ((sector + s) * 512 + (32 * (16 + j) + i)) by lia.
  rewrite He by lia. f_equal. lia.
Qed.

(** The entries of a cluster. *)
Definition per_cluster fs : nat := 16 * Z.to_nat (sectors_per_cluster fs).

Lemma per_cluster_size fs : vol_ok fs -> 32 * Z.of_nat (per_cluster fs) = cluster_size fs.
Proof. intros [_ Hb Hs]. unfold per_cluster, cluster_size. rewrite Hb. lia. Qed.

Lemma find_in_chain_ok fs m fsp name ent : vol_ok fs -> forall fuel cs current k,
  is_chain fs m current cs -> (length cs < fuel)%nat ->
  (forall j i, 0 <= j -> 0 <= i < 32 -> ent (k + j) i = chain_byte fs cs (32 * j + i)) ->
  find_in_chain fuel fs m fsp current name = Some (default NotFound (scan (per_cluster fs * length cs) k ent fsp name)).
Proof.
  intros Hv. pose proof (vol_cluster_size fs Hv) as Hcs. pose proof (per_cluster_size fs Hv) as Hpc.
  induction fuel as [|fuel IH]; intros cs current k Hc Hf He; [lia|]. cbn [find_in_chain]. destruct cs as [|c cs].
  { replace ((2 <=? current) && _) with false; [by rewrite Nat.mul_0_r|]. cbn in Hc. destruct Hc as [-> | ->]; [done|]. by rewrite andb_false_r. }
  destruct Hc as (-> & Hcr & Hne & [Hr1 Hr2] & Hc). replace ((2 <=? c) && _) with true by (rewrite Hne; cbn; lia).
  rewrite (find_in_cluster_ok fs fsp (cluster_to_sector fs c) ent name Hv ltac:(apply cluster_to_sector_range) Hr1 Hr2 _ 0 k); [|lia|destruct Hv; lia|].
  2:{ intros j i Hj Hi. unfold per_cluster in Hpc. rewrite He, chain_byte_head by lia. f_equal. lia. }
  cbn [mbind option_bind length]. replace (per_cluster fs * Datatypes.S (length cs))%nat with (per_cluster fs + per_cluster fs * length cs)%nat by lia.
  rewrite scan_app. fold (per_cluster fs). destruct (scan (per_cluster fs) k ent fsp name); [done|].
  apply IH; [done|cbn in Hf; lia|]. intros j i Hj Hi. rewrite <- Z.add_assoc, He, chain_byte_tail by lia. f_equal. lia.
Qed.

(** ** The fixed root directory *)

(** Its sectors exist. *)
Record root_ok fs : Prop := {
  ro_vol : vol_ok fs;
  ro_count : 0 <= root_entry_count fs < 2 ^ 16;
  ro_sectors : root_start_sector fs + (root_size fs + 511) / 512 <= 2 ^ 32;
  ro_dev : (root_start_sector fs + (root_size fs + 511) / 512) * 512 <= dev_size (dev fs);
}.

Lemma root_start_range fs : 0 <= root_start_sector fs < 2 ^ 32.
Proof. unfold root_start_sector, wrap. apply Z.mod_pos_bound. lia. Qed.

Lemma root_loop_ok fs offset size buf0 : root_ok fs -> 0 <= offset -> offset + size <= root_size fs ->
  forall fuel so bo done buf, offset + done = 512 * so + bo -> 0 <= bo < 512 -> 0 <= done <= size ->
  (if done <? size then (size - done + bo - 1) / 512 + 2 else 1) <= Z.of_nat fuel ->
  (forall x, aget buf x = if (0 <=? x) && (x <? done) then dev_byte (dev fs) (root_start_sector fs * 512 + (offset + x)) else aget buf0 x) ->
  exists buf', root_loop fuel fs (root_start_sector fs) so bo done size buf = Some (size, buf')
    /\ forall x, aget buf' x = if (0 <=? x) && (x <? size) then dev_byte (dev fs) (root_start_sector fs * 512 + (offset + x)) else aget buf0 x.
Proof.
  intros Hok Ho Hsz. destruct Hok as [Hv Hc Hs1 Hs2]. pose proof (root_start_range fs) as Hrs.
  induction fuel as [|fuel IH]; intros so bo done buf E Hbo Hd Hf Hb; [destruct (done <? size); zlia|]. cbn [root_loop].
  destruct (Z.ltb_spec done size) as [Hlt|Hge]; [|assert (done = size) as -> by lia; by exists buf].
  assert (so < (root_size fs + 511) / 512) by zlia. assert (0 <= so) by lia. rewrite wrap_small by lia.
  destruct (read_sector_ok (dev fs) (root_start_sector fs + so)) as (sec & -> & Hsec); [by apply vo_sector|lia|lia|]. cbn [mbind option_bind].
  rewrite (vo_bps fs Hv). set (chunk := if size - done <? 512 - bo then size - done else 512 - bo).
  assert (0 < chunk <= 512 - bo /\ chunk <= size - done /\ (chunk = 512 - bo \/ done + chunk = size)) as (Hch0 & Hch1 & Hch2) by (subst chunk; case_match; lia).
  destruct (copy_sector_ok (dev fs) sec bo (bo + chunk) done buf) as (buf1 & -> & Hb1); [lia|rewrite (vo_sector fs Hv); lia|]. cbn [mbind option_bind].
  destruct (decide (done + chunk = size)) as [Ee|Hne].
  - rewrite Ee. destruct fuel as [|fuel]; [zlia|]. cbn [root_loop]. rewrite Z.ltb_irrefl. exists buf1. split; [done|]. intros x. rewrite Hb1, Hb.
    destruct (decide (done <= x < size)) as [Hx|Hx].
    + replace ((done <=? x) && (x <? done + (bo + chunk - bo))) with true by lia. replace ((0 <=? x) && (x <? size)) with true by lia.
      rewrite Hsec by lia. f_equal. lia.
    + replace ((done <=? x) && (x <? done + (bo + chunk - bo))) with false by lia. by replace (x <? size) with (x <? done) by lia.
  - assert (chunk = 512 - bo) as Ec by lia. apply IH; [lia|lia|lia|replace (done + chunk <? size) with true by lia; zlia|]. intros x. rewrite Hb1, Hb.
    destruct (decide (done <= x < done + chunk)) as [Hx|Hx].
    + replace ((done <=? x) && (x <? done + (bo + chunk - bo))) with true by lia. replace ((0 <=? x) && (x <? done + chunk)) with true by lia.
      rewrite Hsec by lia. f_equal. lia.
    + replace ((done <=? x) && (x <? done + (bo + chunk - bo))) with false by lia. by replace (x <? done + chunk) with (x <? done) by lia.
Qed.

Lemma read_fat16_root_ok fs offset buf size : root_ok fs -> 0 <= offset -> 0 <= size < 2 ^ 63 ->
  let n := Z.min size (Z.max 0 (root_size fs - offset)) in
  exists buf', read_fat16_root fs offset buf size = Some (n, buf')
    /\ forall x, aget buf' x = if (0 <=? x) && (x <? n) then dev_byte (dev fs) (root_start_sector fs * 512 + (offset + x)) else aget buf x.
Proof.
  intros Hok Ho Hs n. assert (0 <= root_size fs < 2 ^ 21) by (pose proof (ro_count fs Hok); unfold root_size; lia).
  unfold read_fat16_root. destruct (Z.leb_spec (root_size fs) offset) as [Hle|Hlt].
  { assert (n = 0) as -> by (subst n; lia). exists buf. split; [done|]. intros x. by replace ((0 <=? x) && (x <? 0)) with false by lia. }
  rewrite wrap_small by lia.
  assert ((if root_size fs <? offset + size then root_size fs - offset else size) = n) as -> by (subst n; case_match; lia).
  rewrite (vo_bps fs (ro_vol fs Hok)).
  apply root_loop_ok; [done|done|subst n; lia|zlia|zlia|subst n; lia| |].
  - destruct (Z.ltb_spec 0 n); zlia.
  - intros x. by replace ((0 <=? x) && (x <? 0)) with false by lia.
Qed.

Lemma find_in_root_ok fs fsp name : root_ok fs -> forall n k, 0 <= k -> k + Z.of_nat n = root_entry_count fs ->
  find_in_root (Datatypes.S n) fs fsp (32 * k) name = Some (default NotFound (scan n k (root_entry fs) fsp name)).
Proof.
  intros Hok. induction n as [|n IH]; intros k Hk Hn; cbn [find_in_root].
  { replace (32 * k + 32 <=? root_size fs) with false by (unfold root_size; lia). done. }
  replace (32 * k + 32 <=? root_size fs) with true by (unfold root_size; lia).
  destruct (read_fat16_root_ok fs (32 * k) (afill 0) 32 Hok) as (buf & -> & Hb); [lia|lia|]. cbn [mbind option_bind].
  replace (Z.min 32 (Z.max 0 (root_size fs - 32 * k))) with 32 in * by (unfold root_size; lia). change (32 <? 32) with false. cbv iota.
  assert (entry_eq (view buf 0) (root_entry fs k)) as He.
  { intros i Hi. unfold view, root_entry. rewrite Hb. by replace ((0 <=? 0 + i) && (0 + i <? 32)) with true by lia. }
  rewrite !He. cbn [scan]. destruct (is_end_marker _); [done|]. destruct (_ && _); [done|].
  replace (32 * k + 32) with (32 * (k + 1)) by lia. apply IH; lia.
Qed.

(** ** Both kinds of directory *)

(** A directory of [n] entries: how the driver finds names in it and reads its
    entries. *)
Record dir_at fs (m : bmem) (cluster : Z) (root16 : bool) (n : nat) (ent : Z -> entry) : Prop := {
  da_find : forall fsp name, name <> [] -> is_dots name = false ->
    find_entry fs m fsp cluster root16 name = Some (default NotFound (scan n 0 ent fsp name));
  da_read : forall k buf, 0 <= k -> exists buf', read_from_location fs m cluster root16 (32 * k) buf 32
      = Some (if k <? Z.of_nat n then 32 else 0, buf') /\ (k < Z.of_nat n -> entry_eq (view buf' 0) (ent k));
  da_rounds : (n < dir_rounds fs root16)%nat;
  da_size : 32 * Z.of_nat n < 2 ^ 63;
}.

Lemma chain_dir fs m start cs : vol_ok fs -> cluster_size fs <= 4096 -> fat_entry_count fs < 2 ^ 32 -> is_chain fs m start cs -> cs <> [] ->
  dir_at fs m start false (per_cluster fs * length cs) (chain_entry fs cs).
Proof.
  intros Hv Hcs Hec Hc Hne. pose proof (per_cluster_size fs Hv) as Hpc. pose proof (is_chain_length fs m start cs Hc) as Hl.
  pose proof (vol_cluster_size fs Hv) as Hcs0.
  assert (0 <= fat_entry_count fs) as Hec0. { destruct cs as [|c cs]; [done|]. destruct Hc as (_ & Hc & _). lia. }
  assert (chain_size fs cs = 32 * Z.of_nat (per_cluster fs * length cs)) as Hcz by (unfold chain_size; lia). split.
  - intros fsp name Hn Hd. unfold find_entry. destruct name as [|ch name]; [done|]. rewrite Hd. replace (4096 <? cluster_size fs) with false by lia.
    apply (find_in_chain_ok fs m fsp (ch :: name) (chain_entry fs cs) Hv _ cs start 0); [done|lia|]. done.
  - intros k buf Hk. unfold read_from_location. destruct (read_from_chain_cases fs m start cs (32 * k) buf 32 Hv Hc Hne) as (buf' & -> & Hb); [lia|lia|].
    exists buf'. destruct (Z.ltb_spec k (Z.of_nat (per_cluster fs * length cs))).
    + replace (Z.min 32 (Z.max 0 (chain_size fs cs - 32 * k))) with 32 in * by lia. split; [done|]. intros _ i Hi. unfold view. rewrite Hb.
      replace ((0 <=? 0 + i) && (0 + i <? 0 + 32)) with true by lia. unfold chain_entry. f_equal. lia.
    + replace (Z.min 32 (Z.max 0 (chain_size fs cs - 32 * k))) with 0 in * by lia. split; [done|]. lia.
  - unfold dir_rounds. replace (cluster_size fs / 32) with (Z.of_nat (per_cluster fs)) by (rewrite <- Hpc, Z.mul_comm, Z.div_mul; lia). nia.
  - rewrite <- Hcz. unfold chain_size. nia.
Qed.

Lemma root_dir fs m cluster : root_ok fs -> cluster_size fs <= 4096 ->
  dir_at fs m cluster true (Z.to_nat (root_entry_count fs)) (root_entry fs).
Proof.
  intros Hok Hcs. pose proof (ro_count fs Hok) as Hc. split.
  - intros fsp name Hn Hd. unfold find_entry. destruct name as [|ch name]; [done|]. rewrite Hd. replace (4096 <? cluster_size fs) with false by lia.
    replace (Z.to_nat (root_entry_count fs + 1)) with (Datatypes.S (Z.to_nat (root_entry_count fs))) by lia.
    change 0 with (32 * 0) at 1. apply find_in_root_ok; [done|lia|lia].
  - intros k buf Hk. unfold read_from_location. destruct (read_fat16_root_ok fs (32 * k) buf 32 Hok) as (buf' & -> & Hb); [lia|lia|].
    exists buf'. unfold root_size in *. destruct (Z.ltb_spec k (Z.of_nat (Z.to_nat (root_entry_count fs)))).
    + replace (Z.min 32 (Z.max 0 (root_entry_count fs * 32 - 32 * k))) with 32 in * by lia. split; [done|]. intros _ i Hi. unfold view. rewrite Hb.
      by replace ((0 <=? 0 + i) && (0 + i <? 32)) with true by lia.
    + replace (Z.min 32 (Z.max 0 (root_entry_count fs * 32 - 32 * k))) with 0 in * by lia. split; [done|]. lia.
  - unfold dir_rounds. lia.
  - lia.
Qed.

(** Listing: the loop is the scan for the next listed entry. *)
Lemma next_entry_ok fs m cluster root16 n ent : dir_at fs m cluster root16 n ent -> forall fuel k, 0 <= k -> Z.of_nat n - k < Z.of_nat fuel -> (0 < fuel)%nat ->
  k <= Z.of_nat n ->
  next_entry_loop fuel fs m cluster root16 (32 * k) = Some (next_listed (Z.to_nat (Z.of_nat n - k)) k ent).
Proof.
  intros Hd. induction fuel as [|fuel IH]; intros k Hk Hf Hf0 Hkn; [lia|]. cbn [next_entry_loop].
  destruct (da_read _ _ _ _ _ _ Hd k (afill 0) Hk) as (buf & E & He). unfold read_from_location in E. rewrite E. cbn [mbind option_bind].
  destruct (Z.ltb_spec k (Z.of_nat n)) as [Hlt|Hge].
  2:{ change (0 <? 32) with true. by replace (Z.to_nat (Z.of_nat n - k)) with O by lia. }
  change (32 <? 32) with false. cbv iota. replace (Z.to_nat (Z.of_nat n - k)) with (Datatypes.S (Z.to_nat (Z.of_nat n - (k + 1)))) by lia.
  cbn [next_listed]. pose proof (da_size _ _ _ _ _ _ Hd) as Hsz. rewrite wrap_small by lia. replace (32 * k + 32) with (32 * (k + 1)) by lia.
  assert (entry_eq (view buf 0) (ent k)) as Hee by (by apply He). rewrite <- Hee.
  assert (listed (ent k) = listed (view buf 0)) as -> by (unfold listed; by rewrite Hee).
  assert (dirent_of (ent k) = dirent_of (view buf 0)) as ->. { unfold dirent_of. rewrite Hee. rewrite (Hee DIR_ATTR) by (unfold DIR_ATTR; lia). done. }
  assert (next_entry_loop fuel fs m cluster root16 (32 * (k + 1)) = Some (next_listed (Z.to_nat (Z.of_nat n - (k + 1))) (k + 1) ent)) as Hn.
  { destruct fuel as [|fuel]; [lia|]. apply IH; lia. }
  unfold listed, is_regular_entry, dirent_of. destruct (is_end_marker (view buf 0)); [done|]. rewrite orb_false_r.
  destruct (is_deleted (view buf 0) || is_lfn_entry (view buf 0)); [done|].
  destruct (view buf 0 DIR_ATTR =? ATTR_VOLUME_ID); [done|]. cbn [orb]. destruct (negb (Z.land (view buf 0 DIR_ATTR) ATTR_VOLUME_ID =? 0)); [done|].
  cbn [andb]. destruct (is_dots _); [done|]. done.
Qed.

End Location.
