(* ===== verification/FatFs.v ===== *)
(** The FAT filesystem as a whole: what [init] accepts and loads, what files
    and directories look like through the vnode operations, and where the
    driver goes wrong. *)

From S2P Require Import Prelude MemoryMap Pmm PageAlloc Bytes KMem VfsBase Ramfs Block Fat FatSpec FatDir.

(** * The boot sector *)

Lemma attempt_some {A B} (x : option (option A)) (k : A -> option (option B)) b :
  attempt x k = Some (Some b) <-> exists a, x = Some (Some a) /\ k a = Some (Some b).
Proof. destruct x as [[a|]|]; cbn; [|naive_solver|naive_solver]. split; [intros E; by exists a|by intros (a' & [= ->] & E)]. Qed.

Lemma fail_if_some b u : fail_if b = Some (Some u) <-> b = false.
Proof. destruct u. unfold fail_if. by destruct b. Qed.

Section BootSector.
Context {D : Type} `{BlockDev D}.
Implicit Types (d : D) (fs : FatInstance D).

Lemma read_sector_inv d sector buf : 0 <= sector < 2 ^ 32 -> read_sector d sector = Some (Some buf) ->
  sector_size d <= 512 /\ (sector + 1) * sector_size d <= dev_size d
  /\ forall x, 0 <= x < sector_size d -> aget buf x = dev_byte d (sector * sector_size d + x).
Proof.
  intros Hs. unfold read_sector. destruct (Z.ltb_spec 512 (sector_size d)); [done|].
  destruct (Z.le_gt_cases ((sector + 1) * sector_size d) (dev_size d)) as [Hle|Hgt].
  - destruct (dev_read_ok d sector (afill 0) 1 Hs ltac:(lia) Hle) as [H1 H2]. destruct (dev_read d sector (afill 0) 1) as [ok b]. cbn [fst snd] in *. subst ok.
    intros [= <-]. split_and!; [done|done|]. intros x Hx. rewrite H2. by replace ((0 <=? x) && (x <? 1 * sector_size d)) with true by lia.
  - rewrite (dev_read_fail d sector (afill 0) 1) by lia. done.
Qed.

Lemma read_byte_inv d offset v : 0 <= offset -> read_byte d 0 offset = Some (Some v) -> v = dev_byte d offset.
Proof.
  intros Ho. unfold read_byte. intros (buf & Hr & E)%attempt_some. destruct (read_sector_inv d 0 buf ltac:(lia) Hr) as (_ & _ & Hb).
  unfold sec_get in E. destruct (Z.ltb_spec offset (sector_size d)); [|done]. injection E as <-. by rewrite Hb.
Qed.

(** Little-endian values on the device. *)
Fixpoint dev_ld (n : nat) d (a : Z) : Z :=
  match n with O => 0 | Datatypes.S n => dev_byte d a + 256 * dev_ld n d (a + 1) end.

Lemma dev_ld_range n d a : 0 <= dev_ld n d a < 2 ^ (8 * Z.of_nat n).
Proof.
  revert a. induction n as [|n IH]; intros a; cbn [dev_ld]; [lia|]. pose proof (dev_byte_range d a). specialize (IH (a + 1)).
  replace (8 * Z.of_nat (Datatypes.S n)) with (8 + 8 * Z.of_nat n) by lia. rewrite Z.pow_add_r by lia. lia.
Qed.

Lemma lor_shift_add a b k : 0 <= k -> 0 <= a < 2 ^ k -> Z.lor a (Z.shiftl b k) = a + b * 2 ^ k.
Proof.
  intros Hk Ha. rewrite Z.shiftl_mul_pow2 by lia. rewrite Z.add_nocarry_lxor, Z.lxor_lor; [done| |].
  all: apply Z.bits_inj'; intros n Hn; rewrite Z.land_spec, Z.bits_0; destruct (Z.lt_ge_cases n k);
    [rewrite Z.mul_pow2_bits_low by lia; apply andb_false_r|].
  all: destruct (decide (a = 0)) as [->|]; [by rewrite Z.bits_0|]; rewrite (Z.bits_above_log2 a n); [done|lia|];
    apply Z.lt_le_trans with k; [apply Z.log2_lt_pow2; lia|lia].
Qed.

Lemma read_word_inv d offset v : 0 <= offset -> read_word d 0 offset = Some (Some v) -> v = dev_ld 2 d offset.
Proof.
  intros Ho. unfold read_word. intros (buf & Hr & E)%attempt_some. destruct (read_sector_inv d 0 buf ltac:(lia) Hr) as (_ & _ & Hb).
  unfold sec_get in E. destruct (Z.ltb_spec offset (sector_size d)); [|done]. destruct (Z.ltb_spec (offset + 1) (sector_size d)); [|done].
  cbn [mbind option_bind] in E. injection E as <-. rewrite !Hb by lia. rewrite !Z.mul_0_l, !Z.add_0_l.
  pose proof (dev_byte_range d offset). rewrite lor_shift_add by lia. cbn [dev_ld]. lia.
Qed.

Lemma read_dword_inv d offset v : 0 <= offset -> read_dword d 0 offset = Some (Some v) -> v = dev_ld 4 d offset.
Proof.
  intros Ho. unfold read_dword. intros (buf & Hr & E)%attempt_some. destruct (read_sector_inv d 0 buf ltac:(lia) Hr) as (_ & _ & Hb).
  unfold sec_get in E. destruct (Z.ltb_spec offset (sector_size d)); [|done]. destruct (Z.ltb_spec (offset + 1) (sector_size d)); [|done].
  destruct (Z.ltb_spec (offset + 2) (sector_size d)); [|done]. destruct (Z.ltb_spec (offset + 3) (sector_size d)); [|done].
  cbn [mbind option_bind] in E. injection E as <-. rewrite !Hb by lia. rewrite !Z.mul_0_l, !Z.add_0_l.
  pose proof (dev_byte_range d offset). pose proof (dev_byte_range d (offset + 1)). pose proof (dev_byte_range d (offset + 2)).
  rewrite (lor_shift_add (dev_byte d offset)) by lia. rewrite (lor_shift_add _ _ 16) by lia. rewrite lor_shift_add by lia. cbn [dev_ld].
  replace (offset + 1 + 1) with (offset + 2) by lia. replace (offset + 2 + 1) with (offset + 3) by lia. lia.
Qed.

(** A byte without a bit in common with its predecessor is a power of two. *)
Lemma pow2_byte v : 0 < v < 256 -> Z.land v (v - 1) = 0 -> exists k, 0 <= k < 8 /\ v = 2 ^ k.
Proof.
  intros Hv E. exists (Z.log2 v). pose proof (Z.log2_spec v ltac:(lia)) as [H1 H2]. assert (Z.log2 v < 8) by (apply Z.log2_lt_pow2; lia).
  pose proof (Z.log2_nonneg v). split; [lia|]. destruct (decide (v = 2 ^ Z.log2 v)) as [|Hne]; [done|]. exfalso.
  assert (Z.testbit (Z.land v (v - 1)) (Z.log2 v) = true) as Ht; [|by rewrite E, Z.testbit_0_l in Ht].
  rewrite Z.land_spec, Z.bit_log2 by lia. assert (Z.log2 (v - 1) = Z.log2 v) as <- by (apply Z.log2_unique; lia). rewrite Z.bit_log2; [done|]. 
  assert (1 <= 2 ^ Z.log2 v) by (apply (Z.pow_le_mono_r 2 0); lia). lia.
Qed.

(** What a volume that was accepted looks like: every field is the one on the
    device, in its width; the sector size is one of the four, the clusters are
    a power of two of sectors, and the layout of the volume is the one that
    the fields describe.  The number of clusters is in its range if the data
    area starts inside of the volume, which is not checked. *)
Record geometry d fs : Prop := {
  ge_dev : dev fs = d;
  ge_bps : bytes_per_sector fs = dev_ld 2 d 11 /\ (bytes_per_sector fs = 512 \/ bytes_per_sector fs = 1024 \/ bytes_per_sector fs = 2048 \/ bytes_per_sector fs = 4096);
  ge_spc : sectors_per_cluster fs = dev_byte d 13 /\ exists k, 0 <= k < 8 /\ sectors_per_cluster fs = 2 ^ k;
  ge_reserved : reserved_sector_count fs = dev_ld 2 d 14;
  ge_fats : fat_count fs = dev_byte d 16 /\ 0 < fat_count fs;
  ge_root_entries : root_entry_count fs = dev_ld 2 d 17;
  ge_fat_size : fat_size fs = if is_fat32 fs then dev_ld 4 d 36 else dev_ld 2 d 22;
  ge_is32 : is_fat32 fs = (dev_ld 2 d 22 =? 0);
  ge_root : root_cluster fs = if is_fat32 fs then dev_ld 4 d 44 else 0;
  ge_total : total_sectors fs = if dev_ld 2 d 19 =? 0 then dev_ld 4 d 32 else dev_ld 2 d 19;
  ge_first_data : first_data_sector fs = wrap 32 (root_start_sector fs + root_dir_sectors fs);
  ge_root_dirs : root_dir_sectors fs = (root_size fs + bytes_per_sector fs - 1) / bytes_per_sector fs;
  ge_signature : dev_byte d 510 = 0x55 /\ dev_byte d 511 = 0xAA;
  ge_clusters : first_data_sector fs <= total_sectors fs ->
    4085 <= (total_sectors fs - first_data_sector fs) / sectors_per_cluster fs
    /\ (is_fat32 fs = false -> (total_sectors fs - first_data_sector fs) / sectors_per_cluster fs < 65525);
  ge_no_table : fat_buffer fs = 0;
}.

Lemma wrap_add_l w a b : wrap w (wrap w a + b) = wrap w (a + b).
Proof. unfold wrap. apply Zplus_mod_idemp_l. Qed.

Ltac step_attempt E :=
  let a := fresh "v" in let Ha := fresh "Ha" in
  apply attempt_some in E as (a & Ha & E); cbv zeta in E;
  first [apply fail_if_some in Ha | apply read_word_inv in Ha; [|cbv; done] | apply read_dword_inv in Ha; [|cbv; done] | apply read_byte_inv in Ha; [|cbv; done] | idtac].

Lemma parse_bpb_cases d fs : parse_bpb d = Some (Some fs) -> geometry d fs.
Proof.
  unfold parse_bpb. intros E. repeat step_attempt E. injection E as <-.
  unfold BPB_BYTES_PER_SECTOR, BPB_SECTORS_PER_CLUSTER, BPB_RESERVED_SECTOR_COUNT, BPB_FAT_COUNT, BPB_ROOT_ENTRY_COUNT, BPB_TOTAL_SECTORS_16,
    BPB_TOTAL_SECTORS_32, BPB_FAT_SIZE_16 in *.
  assert (v10 = if v9 =? 0 then dev_ld 4 d 36 else v9) as E10.
  { destruct (v9 =? 0); cbn [negb] in Ha10; [apply read_dword_inv in Ha10; [done|by cbv]|by injection Ha10]. }
  assert (v11 = if v9 =? 0 then dev_ld 4 d 44 else 0) as E11.
  { destruct (v9 =? 0); cbn [negb] in Ha11; [apply read_dword_inv in Ha11; [done|by cbv]|by injection Ha11]. }
  pose proof (dev_byte_range d 13). pose proof (dev_byte_range d 16).
  split; cbn [dev bytes_per_sector sectors_per_cluster reserved_sector_count fat_count root_entry_count fat_size root_cluster total_sectors first_data_sector
    root_dir_sectors is_fat32 fat_buffer]; unfold root_start_sector, root_size; cbn [root_entry_count reserved_sector_count fat_count fat_size].
  - done.
  - split; [done|lia].
  - split; [done|]. rewrite Ha1 in Ha2 |- *. apply pow2_byte; lia.
  - done.
  - lia.
  - done.
  - by rewrite E10, Ha9.
  - by rewrite Ha9.
  - done.
  - rewrite Ha7, Ha8. by destruct (dev_ld 2 d 19 =? 0).
  - by rewrite wrap_add_l.
  - done.
  - lia.
  - intros Hle. assert (0 <= v7 /\ 0 <= v8 /\ v7 < 2 ^ 16 /\ v8 < 2 ^ 32) as (? & ? & ? & ?).
    { pose proof (dev_ld_range 2 d 19). pose proof (dev_ld_range 4 d 32). lia. }
    assert (forall x, 0 <= wrap 32 x) as Hw by (intros x; by apply wrap_range).
    rewrite wrap_small in Ha15, Ha16 by (split; [lia|]; pose proof (Hw (v3 + wrap 32 (v4 * v10) + (v6 * 32 + v - 1) / v)); destruct (v7 =? 0); cbn [negb] in *; lia).
    split; [lia|]. intros E9. rewrite E9 in Ha16. cbn [negb andb] in Ha16. lia.
  - done.
Qed.

(** ** What a boot sector describes *)

(** The fields at the offsets of the file system's specification. *)
Record volume := Volume {
  vl_sector : Z; vl_cluster : Z; vl_reserved : Z; vl_tables : Z; vl_table : Z;
  vl_root_entries : Z; vl_sectors : Z; vl_root : Z; vl_fat32 : bool; vl_signature : Z;
}.

Definition described d : volume :=
  let wide := dev_ld 2 d 22 =? 0 in
  {| vl_sector := dev_ld 2 d 11; vl_cluster := dev_byte d 13; vl_reserved := dev_ld 2 d 14; vl_tables := dev_byte d 16;
     vl_table := if wide then dev_ld 4 d 36 else dev_ld 2 d 22; vl_root_entries := dev_ld 2 d 17;
     vl_sectors := if dev_ld 2 d 19 =? 0 then dev_ld 4 d 32 else dev_ld 2 d 19;
     vl_root := if wide then dev_ld 4 d 44 else 0; vl_fat32 := wide; vl_signature := dev_ld 2 d 510 |}.

(** The layout in numbers without a limit: the reserved sectors, the tables, the
    root directory rounded up to sectors, then whole clusters. *)
Definition vl_root_sectors (v : volume) : Z := (vl_root_entries v * 32 + vl_sector v - 1) / vl_sector v.
Definition vl_data (v : volume) : Z := vl_reserved v + vl_tables v * vl_table v + vl_root_sectors v.
Definition vl_clusters (v : volume) : Z := (vl_sectors v - vl_data v) / vl_cluster v.

(** A FAT16 or FAT32 volume. *)
Definition acceptable (v : volume) : bool :=
  bool_decide (vl_sector v ∈ [512; 1024; 2048; 4096])
  && bool_decide (vl_cluster v ∈ [1; 2; 4; 8; 16; 32; 64; 128])
  && (0 <? vl_tables v) && (vl_signature v =? 0xAA55)
  && (4085 <=? vl_clusters v) && (vl_fat32 v || (vl_clusters v <? 65525)).

Definition instance_of d (v : volume) : FatInstance D :=
  Build_FatInstance D d (vl_sector v) (vl_cluster v) (vl_reserved v) (vl_tables v) (vl_root_entries v) (vl_table v)
    (vl_root v) (vl_sectors v) (vl_data v) (vl_root_sectors v) (vl_fat32 v) 0 0.

(** Reading the first sector does not fail. *)
Lemma read_first_ok d offset : sector_size d = 512 -> 512 <= dev_size d -> 0 <= offset ->
  (offset < 512 -> read_byte d 0 offset = Some (Some (dev_byte d offset)))
  /\ (offset + 1 < 512 -> read_word d 0 offset = Some (Some (dev_ld 2 d offset)))
  /\ (offset + 3 < 512 -> read_dword d 0 offset = Some (Some (dev_ld 4 d offset))).
Proof.
  intros Hss Hsz Ho. destruct (read_sector_ok d 0 Hss ltac:(lia) ltac:(lia)) as (buf & Er & _).
  assert (forall i, i < 512 -> sec_get d buf i = Some (aget buf i)) as Hg.
  { intros i Hi. unfold sec_get. rewrite Hss. by replace (i <? 512) with true by lia. }
  split_and!; intros Hlt.
  - destruct (read_byte d 0 offset) as [[v|]|] eqn:E; [by rewrite (read_byte_inv d offset v Ho E)|exfalso..];
      unfold read_byte in E; rewrite Er in E; cbn in E; by rewrite Hg in E.
  - destruct (read_word d 0 offset) as [[v|]|] eqn:E; [by rewrite (read_word_inv d offset v Ho E)|exfalso..];
      unfold read_word in E; rewrite Er in E; cbn in E; by rewrite !Hg in E by lia.
  - destruct (read_dword d 0 offset) as [[v|]|] eqn:E; [by rewrite (read_dword_inv d offset v Ho E)|exfalso..];
      unfold read_dword in E; rewrite Er in E; cbn in E; by rewrite !Hg in E by lia.
Qed.

(** The test for a power of two, on a byte. *)
Lemma pow2_test v : 0 <= v < 256 ->
  (v =? 0) || negb (Z.land v (v - 1) =? 0) = negb (bool_decide (v ∈ [1; 2; 4; 8; 16; 32; 64; 128])).
Proof.
  intros Hv. assert (forallb (fun v => eqb ((v =? 0) || negb (Z.land v (v - 1) =? 0))
    (negb (bool_decide (v ∈ [1; 2; 4; 8; 16; 32; 64; 128])))) (seqZ 0 256) = true) as Hall by (vm_compute; reflexivity).
  rewrite forallb_forall in Hall. apply eqb_prop, (Hall v). apply list_elem_of_In, elem_of_seqZ. lia.
Qed.

Lemma sector_size_test v :
  negb (v =? 512) && negb (v =? 1024) && negb (v =? 2048) && negb (v =? 4096) = negb (bool_decide (v ∈ [512; 1024; 2048; 4096])).
Proof. destruct (bool_decide_reflect (v ∈ [512; 1024; 2048; 4096])) as [Hin|Hin]; cbn [negb]; set_solver by lia. Qed.

Lemma signature_test d : negb (dev_byte d 510 =? 0x55) || negb (dev_byte d 511 =? 0xAA) = negb (dev_ld 2 d 510 =? 0xAA55).
Proof. cbn [dev_ld]. pose proof (dev_byte_range d 510). pose proof (dev_byte_range d 511). replace (510 + 1) with 511 by lia. lia. Qed.

(** C40. The driver accepts exactly the FAT16 and FAT32 volumes: on a device with
    at least one 512-byte sector, whose boot sector describes a volume that is
    at least as large as its own metadata, [parse_bpb] never reads outside, it
    gives the layout that the boot sector describes if the volume is
    acceptable, and refuses it otherwise. *)
Theorem parse_bpb_spec d :
  sector_size d = 512 -> 512 <= dev_size d -> vl_data (described d) <= vl_sectors (described d) ->
  parse_bpb d = Some (if acceptable (described d) then Some (instance_of d (described d)) else None).
Proof.
  intros Hss Hsz Hfit.
  assert (forall o, 0 <= o < 512 -> read_byte d 0 o = Some (Some (dev_byte d o))) as Hb by (intros o Ho; apply (read_first_ok d o); lia).
  assert (forall o, 0 <= o < 511 -> read_word d 0 o = Some (Some (dev_ld 2 d o))) as Hw by (intros o Ho; apply (read_first_ok d o); lia).
  assert (forall o, 0 <= o < 509 -> read_dword d 0 o = Some (Some (dev_ld 4 d o))) as Hd by (intros o Ho; apply (read_first_ok d o); lia).
  pose proof (dev_ld_range 2 d 11). pose proof (dev_byte_range d 13). pose proof (dev_ld_range 2 d 14). pose proof (dev_byte_range d 16).
  pose proof (dev_ld_range 2 d 17). pose proof (dev_ld_range 2 d 19). pose proof (dev_ld_range 4 d 32). pose proof (dev_ld_range 2 d 22).
  pose proof (dev_ld_range 4 d 36). pose proof (dev_byte_range d 510). pose proof (dev_byte_range d 511).
  unfold parse_bpb, BPB_BYTES_PER_SECTOR, BPB_SECTORS_PER_CLUSTER, BPB_RESERVED_SECTOR_COUNT, BPB_FAT_COUNT, BPB_ROOT_ENTRY_COUNT,
    BPB_TOTAL_SECTORS_16, BPB_TOTAL_SECTORS_32, BPB_FAT_SIZE_16, BPB_FAT_SIZE_32, BPB_ROOT_CLUSTER.
  rewrite !Hw, !Hb, !Hd by lia. cbn [attempt]. rewrite sector_size_test, pow2_test, signature_test by done.
  unfold acceptable, instance_of. unfold vl_clusters, vl_data, vl_root_sectors in *. unfold described in *.
  cbn [vl_sector vl_cluster vl_reserved vl_tables vl_table vl_root_entries vl_sectors vl_root vl_fat32 vl_signature] in *.
  destruct (bool_decide_reflect (dev_ld 2 d 11 ∈ [512; 1024; 2048; 4096])) as [Hs|]; [|done]. cbn [negb fail_if attempt andb].
  destruct (bool_decide_reflect (dev_byte d 13 ∈ [1; 2; 4; 8; 16; 32; 64; 128])) as [Hc|]; [|done]. cbn [negb fail_if attempt andb].
  replace (dev_byte d 16 =? 0) with (negb (0 <? dev_byte d 16)) by lia. destruct (0 <? dev_byte d 16); [|done]. cbn [negb fail_if attempt andb].
  assert ((if negb (dev_ld 2 d 22 =? 0) then Some (Some (dev_ld 2 d 22)) else Some (Some (dev_ld 4 d 36)))
    = Some (Some (if dev_ld 2 d 22 =? 0 then dev_ld 4 d 36 else dev_ld 2 d 22))) as -> by by destruct (dev_ld 2 d 22 =? 0).
  assert ((if dev_ld 2 d 22 =? 0 then Some (Some (dev_ld 4 d 44)) else Some (Some 0))
    = Some (Some (if dev_ld 2 d 22 =? 0 then dev_ld 4 d 44 else 0))) as -> by by destruct (dev_ld 2 d 22 =? 0).
  assert ((if negb (dev_ld 2 d 19 =? 0) then dev_ld 2 d 19 else dev_ld 4 d 32)
    = if dev_ld 2 d 19 =? 0 then dev_ld 4 d 32 else dev_ld 2 d 19) as -> by by destruct (dev_ld 2 d 19 =? 0).
  cbn [attempt]. destruct (dev_ld 2 d 510 =? 0xAA55); [|done]. cbn [negb fail_if attempt andb].
  assert (0 <= (dev_ld 2 d 17 * 32 + dev_ld 2 d 11 - 1) / dev_ld 2 d 11) by (apply Z.div_pos; set_solver by lia).
  assert (0 <= (if dev_ld 2 d 22 =? 0 then dev_ld 4 d 36 else dev_ld 2 d 22)) by (destruct (dev_ld 2 d 22 =? 0); lia).
  assert (0 <= (if dev_ld 2 d 19 =? 0 then dev_ld 4 d 32 else dev_ld 2 d 19) < 2 ^ 32) by (destruct (dev_ld 2 d 19 =? 0); lia).
  set (rd := (dev_ld 2 d 17 * 32 + dev_ld 2 d 11 - 1) / dev_ld 2 d 11) in *. set (fz := if dev_ld 2 d 22 =? 0 then dev_ld 4 d 36 else dev_ld 2 d 22) in *.
  set (tot := if dev_ld 2 d 19 =? 0 then dev_ld 4 d 32 else dev_ld 2 d 19) in *.
  assert (0 <= dev_byte d 16 * fz) by (apply Z.mul_nonneg_nonneg; lia).
  rewrite (wrap_small 32 (dev_byte d 16 * fz)), (wrap_small 32 (dev_ld 2 d 14 + dev_byte d 16 * fz + rd)) by lia.
  rewrite (wrap_small 32 (tot - _)) by lia. set (cc := (tot - _) / dev_byte d 13).
  replace (4085 <=? cc) with (negb (cc <? 4085)) by lia. destruct (cc <? 4085); [done|]. cbn [negb fail_if attempt andb].
  replace (65525 <=? cc) with (negb (cc <? 65525)) by lia. by destruct (dev_ld 2 d 22 =? 0), (cc <? 65525).
Qed.

(** ** The table *)

Lemma table_loop_ok fs : bytes_per_sector fs = 512 -> sector_size (dev fs) = 512 ->
  0 <= reserved_sector_count fs < 2 ^ 16 -> fat_size fs * 512 < 2 ^ 32 ->
  forall n s m m', 0 <= s -> s + Z.of_nat n <= fat_size fs -> read_fat_loop n s fs m = Some (true, m') ->
  forall x, aget m' x = if (fat_buffer fs + s * 512 <=? x) && (x <? fat_buffer fs + (s + Z.of_nat n) * 512)
    then dev_byte (dev fs) (reserved_sector_count fs * 512 + (x - fat_buffer fs)) else aget m x.
Proof.
  intros Hbps Hss Hres Hfs. induction n as [|n IH]; intros s m m' Hs Hn; cbn [read_fat_loop].
  { intros [= <-] x. rewrite Z.add_0_r. by replace ((fat_buffer fs + s * 512 <=? x) && (x <? fat_buffer fs + s * 512)) with false by lia. }
  rewrite Hss, Hbps. rewrite !wrap_small by lia. destruct (read_sector (dev fs) (reserved_sector_count fs + s)) as [[buf|]|] eqn:Er; cbn [mbind option_bind]; [|done..].
  change (512 <? 512) with false. cbv iota. intros E x. replace (s + Z.of_nat (Datatypes.S n)) with (s + 1 + Z.of_nat n) by lia. rewrite (IH (s + 1) _ _ ltac:(lia) ltac:(lia) E x).
  destruct (read_sector_inv (dev fs) (reserved_sector_count fs + s) buf ltac:(lia) Er) as (_ & _ & Hb). rewrite Hss in Hb.
  assert (aget (for_z 0 512 (fun i m => aset m (fat_buffer fs + s * 512 + i) (aget buf i)) m) x
    = if (fat_buffer fs + s * 512 <=? x) && (x <? fat_buffer fs + s * 512 + 512) then aget buf (x - (fat_buffer fs + s * 512)) else aget m x) as ->.
  { apply (for_z_inv (fun k m1 => aget m1 x = if (fat_buffer fs + s * 512 <=? x) && (x <? fat_buffer fs + s * 512 + k)
      then aget buf (x - (fat_buffer fs + s * 512)) else aget m x)); [lia| |].
    - rewrite Z.add_0_r. by replace ((fat_buffer fs + s * 512 <=? x) && (x <? fat_buffer fs + s * 512)) with false by lia.
    - intros i m1 Hi IHi. rewrite aget_aset. case_decide as Hd.
      + replace ((fat_buffer fs + s * 512 <=? x) && (x <? fat_buffer fs + s * 512 + (i + 1))) with true by lia. f_equal. lia.
      + rewrite IHi. by replace (x <? fat_buffer fs + s * 512 + (i + 1)) with (x <? fat_buffer fs + s * 512 + i) by lia. }
  destruct (decide (fat_buffer fs + s * 512 <= x < fat_buffer fs + s * 512 + 512)) as [Hx|Hx].
  - replace ((fat_buffer fs + (s + 1) * 512 <=? x) && (x <? fat_buffer fs + (s + 1 + Z.of_nat n) * 512)) with false by lia. replace ((fat_buffer fs + s * 512 <=? x) && (x <? fat_buffer fs + s * 512 + 512)) with true by lia.
    replace ((fat_buffer fs + s * 512 <=? x) && (x <? fat_buffer fs + (s + 1 + Z.of_nat n) * 512)) with true by lia. rewrite Hb by lia. f_equal. lia.
  - replace ((fat_buffer fs + s * 512 <=? x) && (x <? fat_buffer fs + s * 512 + 512)) with false by lia.
    by replace ((fat_buffer fs + (s + 1) * 512 <=? x) && (x <? fat_buffer fs + (s + 1 + Z.of_nat n) * 512))
      with ((fat_buffer fs + s * 512 <=? x) && (x <? fat_buffer fs + (s + 1 + Z.of_nat n) * 512)) by lia.
Qed.

(** The loop does not return normally with larger sectors. *)
Lemma table_loop_overrun fs n s m : sector_size (dev fs) < bytes_per_sector fs -> read_fat_loop (Datatypes.S n) s fs m <> Some (true, m).
Proof. intros Hlt. cbn [read_fat_loop]. destruct (read_sector _ _) as [[buf|]|]; cbn [mbind option_bind]; [|done..]. by replace (_ <? _) with true by lia. Qed.

Lemma ld_dev n d (m : bmem) a b : (forall i, 0 <= i < Z.of_nat n -> aget m (a + i) = dev_byte d (b + i)) -> ld n m a = dev_ld n d b.
Proof.
  revert a b. induction n as [|n IH]; intros a b Hx; cbn [ld dev_ld]; [done|]. rewrite <- (Z.add_0_r a), <- (Z.add_0_r b) at 1.
  rewrite Hx, (IH (a + 1) (b + 1)); [done| |lia]. intros i Hi. rewrite <- !Z.add_assoc. apply Hx. lia.
Qed.

End BootSector.

(** * The filesystem *)

Section Filesystem.
Context {D A : Type} `{BlockDev D} `{KMem A}.
Implicit Types (d : D) (fs : FatInstance D) (s : fat D A).

(** A value of the table on the device. *)
Definition table_value fs (c : Z) : Z :=
  if is_fat32 fs then Z.land (dev_ld 4 (dev fs) (reserved_sector_count fs * 512 + 4 * c)) 0x0FFFFFFF
  else dev_ld 2 (dev fs) (reserved_sector_count fs * 512 + 2 * c).

(** After a successful [init] the mounted instance has the geometry of the boot
    sector, and the table in memory is the one on the device: following a
    cluster gives the entry of the first allocation table, and the end mark
    beyond it. *)
Theorem fat_init_table d s s' :
  sector_size d = 512 -> init d s = Some (0, s') ->
  exists fs0 fs, parse_bpb d = Some (Some fs0) /\ geometry d fs0 /\ instances s' !! g_fs s' = Some fs /\ g_fs s' <> 0
    /\ cluster_size fs = cluster_size fs0 /\ first_data_sector fs = first_data_sector fs0
    /\ (fat_size fs * 512 < 2 ^ 32 -> 0 < fat_size fs ->
        bytes_per_sector fs = 512 /\ fat_entry_count fs = fat_size fs * 512 / (if is_fat32 fs then 4 else 2)
        /\ forall c, 0 <= c -> next_cluster fs (fat_mem s') c = if c <? fat_entry_count fs then table_value fs c else FAT_EOC_MAX_32).
Proof.
  intros Hss. unfold init. destruct (Z.eqb_spec (g_fs s) 0); cbn [negb]; [|done].
  destruct (kalloc sizeof_FatInstance 8 s) as [p s1]. destruct (Z.eqb_spec p 0) as [|Hp]; [done|].
  destruct (parse_bpb d) as [[fs0|]|] eqn:Ep; cbn [mbind option_bind]; [|done..]. pose proof (parse_bpb_cases d fs0 Ep) as Hg.
  unfold read_fat_table. destruct (kalloc (fat_bytes fs0) 4 s1) as [q s2]. destruct (Z.eqb_spec q 0) as [|Hq]; [done|].
  match goal with |- context [read_fat_loop _ 0 ?f _] => set (fs := f) end.
  destruct (read_fat_loop (Z.to_nat (fat_size fs)) 0 fs (fat_mem s2)) as [[[] m]|] eqn:El; cbn [mbind option_bind]; [|done..].
  intros [= <-]. exists fs0, fs. cbn [set_g_fs set_instance set_fat_mem instances g_fs fat_mem]. rewrite lookup_insert_eq. split_and!; try done.
  intros Hsz Hpos.
  pose proof (dev_ld_range 2 d 14) as Hr. rewrite <- (ge_reserved d fs0 Hg) in Hr. change (8 * Z.of_nat 2) with 16 in Hr.
  assert (sector_size (dev fs) = 512) as Hss' by (subst fs; cbn [dev]; by rewrite (ge_dev d fs0 Hg)).
  assert (bytes_per_sector fs = 512) as Hb.
  { destruct (ge_bps d fs0 Hg) as [_ Hb]. change (bytes_per_sector fs) with (bytes_per_sector fs0). destruct (Z.to_nat (fat_size fs)) as [|n] eqn:En; [lia|].
    cbn [read_fat_loop] in El. destruct (read_sector _ _) as [[buf|]|]; cbn [mbind option_bind] in El; try done. rewrite Hss' in El.
    change (bytes_per_sector fs) with (bytes_per_sector fs0) in El. destruct (Z.ltb_spec 512 (bytes_per_sector fs0)); [done|lia]. }
  assert (fat_entry_count fs = fat_size fs * 512 / (if is_fat32 fs then 4 else 2)) as Hec.
  { subst fs. cbn [fat_entry_count fat_size is_fat32 bytes_per_sector] in *. unfold fat_bytes. rewrite Hb, wrap_small by lia. by destruct (is_fat32 fs0). }
  split_and!; [done|done|]. intros c Hc.
  pose proof (table_loop_ok fs Hb Hss' Hr Hsz (Z.to_nat (fat_size fs)) 0 _ _ ltac:(lia) ltac:(lia) El) as Hm.
  rewrite Z2Nat.id, Z.add_0_l in Hm by lia.
  assert (fat_buffer fs = q) as Hbuf by done. unfold next_cluster, table_value. rewrite Hbuf. replace (q =? 0) with false by lia. rewrite Hec.
  assert (forall n off, 0 <= off -> off + Z.of_nat n <= fat_size fs * 512 ->
    ld n m (q + off) = dev_ld n (dev fs) (reserved_sector_count fs * 512 + off)) as Hld.
  { intros n off Ho Hn. apply ld_dev. intros i Hi. rewrite Hm, Hbuf. replace ((q + 0 * 512 <=? q + off + i) && (q + off + i <? q + fat_size fs * 512)) with true by lia. f_equal. lia. }
  destruct (is_fat32 fs).
  - destruct (Z.ltb_spec c (fat_size fs * 512 / 4)); [|done]. rewrite (Hld 4%nat) by zlia. done.
  - destruct (Z.ltb_spec c (fat_size fs * 512 / 2)); [|done]. rewrite (Hld 2%nat) by zlia. done.
Qed.

(** ** Reading files *)

(** The vnode [v] is a file whose clusters are [cs]. *)
Record fat_file s (v : Z) (fn : FatNode) fs (cs : list Z) : Prop := {
  ff_type : v_type <$> fat_vnodes s !! v = Some File;
  ff_node : node_of v s = Some (fn, fs);
  ff_vol : vol_ok fs;
  ff_chain : is_chain fs (fat_mem s) (first_cluster fn) cs;
  ff_size : 0 <= file_size fn <= chain_size fs cs /\ file_size fn < 2 ^ 32;
}.

Lemma fat_read_chain s v fn fs cs offset buf size size' :
  fat_file s v fn fs cs -> 0 <= offset < file_size fn -> 0 <= size' ->
  size' = (if file_size fn <? offset +64 size then file_size fn - offset else size) ->
  let n := Z.min size' (chain_size fs cs - offset) in
  exists buf', fat_read v offset buf size s = Some (0, n, buf', s) /\ holds fs cs offset 0 n buf buf'.
Proof.
  intros [Ht Hnd Hv Hc [Hsz _]] Ho Hs' Es n. unfold fat_read. destruct (fat_vnodes s !! v) as [vn|]; [|done]. cbn [mbind option_bind]. injection Ht as ->.
  cbn [bool_decide negb]. rewrite bool_decide_true by done. cbn [negb]. rewrite Hnd. cbn [mbind option_bind].
  replace (file_size fn <=? offset) with false by lia. rewrite <- Es.
  destruct (read_from_chain_cases fs (fat_mem s) (first_cluster fn) cs offset buf size' Hv Hc) as (buf' & -> & Hb); [|lia|lia|].
  { intros ->. unfold chain_size in Hsz. cbn in Hsz. lia. }
  cbn [mbind option_bind]. exists buf'. replace (Z.max 0 (chain_size fs cs - offset)) with (chain_size fs cs - offset) in * by lia. done.
Qed.

Lemma fat_read_cases s v fn fs cs offset buf size :
  fat_file s v fn fs cs -> 0 <= offset -> 0 <= size -> offset + size < 2 ^ 64 ->
  let n := Z.min size (Z.max 0 (file_size fn - offset)) in
  exists buf', fat_read v offset buf size s = Some (0, n, buf', s) /\ holds fs cs offset 0 n buf buf'.
Proof.
  intros Hf Ho Hs Hov n. destruct (Z.le_gt_cases (file_size fn) offset) as [Hle|Hlt].
  - destruct Hf as [Ht Hnd _ _ _]. unfold fat_read. destruct (fat_vnodes s !! v) as [vn|]; [|done]. cbn [mbind option_bind]. injection Ht as ->.
    rewrite bool_decide_true by done. cbn [negb]. rewrite Hnd. cbn [mbind option_bind]. replace (file_size fn <=? offset) with true by lia.
    assert (n = 0) as -> by (subst n; lia). exists buf. split; [done|]. intros x. by replace ((0 <=? x) && (x <? 0 + 0)) with false by lia.
  - pose proof (ff_size _ _ _ _ _ Hf) as Hsz.
    destruct (fat_read_chain s v fn fs cs offset buf size n Hf ltac:(lia) ltac:(subst n; lia)) as (buf' & E & Hb).
    { rewrite wrap_small by lia. subst n. case_match; lia. }
    replace (Z.min n (chain_size fs cs - offset)) with n in * by (subst n; lia). by exists buf'.
Qed.

(** C18. Reading a file: the bytes of its clusters in order, cut at the size of the
    file, and nothing at or beyond its end; the rest of the buffer and the
    filesystem stay as they are. *)
Theorem fat_read_spec s v fn fs cs offset buf size :
  fat_file s v fn fs cs -> 0 <= offset -> 0 <= size -> offset + size < 2 ^ 64 ->
  let n := Z.min size (Z.max 0 (file_size fn - offset)) in
  exists buf', fat_read v offset buf size s = Some (0, n, buf', s) /\ holds fs cs offset 0 n buf buf'.
Proof. exact (fat_read_cases s v fn fs cs offset buf size). Qed.

(** A request whose end wraps around is not cut: the read returns the bytes
    behind the end of the file, up to the end of its last cluster. *)
Theorem fat_read_overruns s v fn fs cs offset buf size :
  fat_file s v fn fs cs -> 0 <= offset < file_size fn -> size < 2 ^ 64 -> 2 ^ 64 <= offset + size ->
  exists buf', fat_read v offset buf size s = Some (0, chain_size fs cs - offset, buf', s)
    /\ holds fs cs offset 0 (chain_size fs cs - offset) buf buf'.
Proof.
  intros Hf Ho Hs Hov. pose proof (ff_size _ _ _ _ _ Hf) as Hsz. pose proof (ff_chain _ _ _ _ _ Hf) as Hc.
  assert (chain_size fs cs <= 2 ^ 63).
  { pose proof (vol_cluster_size fs (ff_vol _ _ _ _ _ Hf)). unfold chain_size. pose proof (is_chain_short _ _ _ _ Hc) as Hl.
    unfold FAT_EOC_MIN_32 in Hl. nia. }
  destruct (fat_read_chain s v fn fs cs offset buf size size Hf Ho ltac:(lia)) as (buf' & E & Hb).
  { assert (offset +64 size = offset + size - 2 ^ 64) as ->; [|by replace (file_size fn <? _) with false by lia].
    unfold wrap. rewrite <- (Z_mod_plus_full _ (-1)). apply Z.mod_small. lia. }
  replace (Z.min size (chain_size fs cs - offset)) with (chain_size fs cs - offset) in * by lia. by exists buf'.
Qed.

(** ** Directories *)

(** The filesystem apart from its memory allocator. *)
Definition same_fs s s' : Prop :=
  g_fs s' = g_fs s /\ instances s' = instances s /\ fat_mem s' = fat_mem s.

(** A new vnode is at fresh addresses, or there is no memory and nothing has
    changed. *)
Lemma new_vnode_cases type ops n s live frames : km_wf (fat_kmem s) live frames ->
  exists err v s', new_vnode type ops n s = (err, v, s') /\ same_fs s s'
  /\ ((err = E_NO_SPACE /\ fat_vnodes s' = fat_vnodes s /\ fat_nodes s' = fat_nodes s /\ km_wf (fat_kmem s') live frames)
      \/ (exists p, err = 0 /\ v <> 0 /\ live !! v = None /\ live !! p = None /\ v <> p
          /\ fat_vnodes s' = <[v := Build_Vnode type ops p 1 0]> (fat_vnodes s) /\ fat_nodes s' = <[p := n]> (fat_nodes s)
          /\ km_wf (fat_kmem s') (<[p := sizeof_FatNode]> (<[v := sizeof_Vnode]> live)) frames)).
Proof.
  intros Hw. unfold new_vnode, kalloc. pose proof (km_kalloc_law _ live frames sizeof_Vnode 8 Hw ltac:(done)) as H1. cbv zeta in H1.
  destruct (km_kalloc sizeof_Vnode 8 (fat_kmem s)) as [v a1]. cbn [fst snd] in H1. destruct (Z.eqb_spec v 0) as [->|Hv].
  { do 3 eexists. split; [done|]. split; [done|]. left. destruct H1 as [[_ H1]|(Hr & _)]; [done|lia]. }
  destruct H1 as [[E _]|(Hr & Hl & Hw1)]; [done|]. cbn [fat_kmem set_fat_kmem].
  pose proof (km_kalloc_law _ _ frames sizeof_FatNode 8 Hw1 ltac:(done)) as H2. cbv zeta in H2.
  destruct (km_kalloc sizeof_FatNode 8 a1) as [p a2]. cbn [fst snd] in H2. destruct (Z.eqb_spec p 0) as [->|Hp].
  { do 3 eexists. split; [done|]. split; [done|]. left. split_and!; [done|done|done|]. destruct H2 as [[_ H2]|(Hr2 & _)]; [|lia]. cbn.
    rewrite <- (delete_insert_id live v sizeof_Vnode Hl). apply km_kfree_law; [done|apply lookup_insert_eq]. }
  destruct H2 as [[E _]|(Hr2 & Hl2 & Hw2)]; [done|]. do 3 eexists. split; [done|]. split; [done|]. right. exists p.
  assert (v <> p) as Hvp. { intros ->. by rewrite lookup_insert_eq in Hl2. }
  rewrite lookup_insert_ne in Hl2 by done. split_and!; done.
Qed.

(** The vnode [dir] is a directory of [n] entries [ent] behind the node [parent]. *)
Record fat_dir s (dir : Z) (parent : FatNode) fs (n : nat) (ent : Z -> entry) : Prop := {
  fd_type : v_type <$> fat_vnodes s !! dir = Some Directory;
  fd_node : node_of dir s = Some (parent, fs);
  fd_dir : dir_at fs (fat_mem s) (first_cluster parent) (is_root16 fs parent) n ent;
}.

(** The result of a lookup that found [child]: a new vnode for it at fresh
    addresses, or no memory and no change. *)
Definition found_vnode s (live : gmap Z Z) (frames : gset Z) fs (child : FatNode) (r : option (Z * Z * fat D A)) : Prop :=
  exists err v s', r = Some (err, v, s') /\ same_fs s s'
    /\ ((err = E_NO_SPACE /\ fat_vnodes s' = fat_vnodes s /\ fat_nodes s' = fat_nodes s /\ km_wf (fat_kmem s') live frames)
        \/ (exists p, err = 0 /\ v <> 0 /\ live !! v = None /\ live !! p = None
            /\ (instances s !! fn_fs child = Some fs -> node_of v s' = Some (child, fs))
            /\ v_type <$> fat_vnodes s' !! v = Some (if negb (Z.land (attributes child) ATTR_DIRECTORY =? 0) then Directory else File)
            /\ km_wf (fat_kmem s') (<[p := sizeof_FatNode]> (<[v := sizeof_Vnode]> live)) frames)).

Lemma fat_lookup_cases s live frames dir parent fs n ent name :
  km_wf (fat_kmem s) live frames -> fat_dir s dir parent fs n ent -> name <> [] -> is_dots name = false ->
  match scan n 0 ent (fn_fs parent) name with
  | Some (Found child) => found_vnode s live frames fs child (fat_lookup dir name s)
  | Some Broken => False
  | _ => fat_lookup dir name s = Some (E_NOT_FOUND, 0, s)
  end.
Proof.
  intros Hw [Ht Hnd Hd] Hn Hdots. unfold fat_lookup. destruct (fat_vnodes s !! dir) as [dv|] eqn:Edv; [|done]. cbn [mbind option_bind].
  rewrite Hnd. cbn [mbind option_bind]. rewrite (da_find _ _ _ _ _ _ Hd _ name Hn Hdots). cbn [mbind option_bind].
  destruct (scan n 0 ent (fn_fs parent) name) as [[| |child]|] eqn:Es; unfold default; [done| | |done].
  { clear -Es. revert Es. generalize 0. induction n as [|n IH]; intros k; cbn [scan]; [done|]. destruct (is_end_marker _); [done|].
    destruct (_ && _); [done|]. apply IH. }
  destruct (new_vnode_cases (if negb (Z.land (attributes child) ATTR_DIRECTORY =? 0) then Directory else File) (v_ops dv) child s live frames Hw)
    as (err & v & s' & E & Hsame & Hc). exists err, v, s'. split; [by rewrite <- E|]. split; [done|].
  destruct Hc as [Hc|(p & -> & Hv & Hl & Hl2 & Hvp & Ev & En & Hw')]; [by left|]. right. exists p. split_and!; try done.
  - intros Hi. unfold node_of. rewrite Ev, lookup_insert_eq. cbn [mbind option_bind private_data]. rewrite En, lookup_insert_eq. cbn [mbind option_bind].
    destruct Hsame as (_ & -> & _). by rewrite Hi.
  - by rewrite Ev, lookup_insert_eq.
Qed.

Lemma fat_readdir_cases s dir parent fs n ent k :
  fat_dir s dir parent fs n ent -> 0 <= k <= Z.of_nat n ->
  fat_readdir dir (32 * k) s = Some (match next_listed (Z.to_nat (Z.of_nat n - k)) k ent with
    | Some (de, off) => (0, de, off, s) | None => (E_NOT_FOUND, Build_Dirent [] File, 0, s) end).
Proof.
  intros [Ht Hnd Hd] Hk. unfold fat_readdir. destruct (fat_vnodes s !! dir) as [dv|] eqn:Edv; [|done]. cbn [mbind option_bind]. injection Ht as ->.
  cbn [is_directory negb]. rewrite Hnd. cbn [mbind option_bind]. unfold read_next_entry. pose proof (da_rounds _ _ _ _ _ _ Hd) as Hr.
  rewrite (next_entry_ok _ _ _ _ _ _ Hd) by lia. cbn [mbind option_bind]. by destruct (next_listed _ _ _) as [[de off]|].
Qed.

(** Looking up a name in a directory, whether it is the fixed root directory or
    a chain of clusters: the first entry in use, before the end of the
    directory, whose name is the given one up to case.  It gets a new vnode at
    a fresh address with the start and the size of the entry, or there is no
    memory and nothing has changed; otherwise the name is not found. *)
Theorem fat_lookup_spec s live frames dir parent fs n ent name :
  km_wf (fat_kmem s) live frames -> fat_dir s dir parent fs n ent -> name <> [] -> is_dots name = false ->
  match scan n 0 ent (fn_fs parent) name with
  | Some (Found child) => found_vnode s live frames fs child (fat_lookup dir name s)
  | Some Broken => False
  | _ => fat_lookup dir name s = Some (E_NOT_FOUND, 0, s)
  end.
Proof. apply fat_lookup_cases. Qed.

(** Listing and looking up agree: [readdir] at the offset of an entry gives the
    next entry that is in use, with the offset behind it, and looking up the
    name it gives finds an entry of that name. *)
Theorem fat_readdir_lookup s live frames dir parent fs n ent k de off :
  km_wf (fat_kmem s) live frames -> fat_dir s dir parent fs n ent -> 0 <= k <= Z.of_nat n ->
  fat_readdir dir (32 * k) s = Some (0, de, off, s) -> dirent_name de <> [] ->
  exists k', k <= k' < Z.of_nat n /\ off = 32 * (k' + 1) /\ de = dirent_of (ent k') /\ listed (ent k') = true
    /\ ((forall j, 0 <= j < k -> is_end_marker (ent j) = false) ->
        exists k0 err v s', 0 <= k0 <= k' /\ fat_lookup dir (dirent_name de) s = Some (err, v, s') /\ (err = 0 \/ err = E_NO_SPACE)
          /\ name_matches_sfn (ent k0) (dirent_name de) = true
          /\ (err = 0 -> instances s !! fn_fs parent = Some fs -> node_of v s' = Some (entry_node (ent k0) (fn_fs parent), fs))).
Proof.
  intros Hw Hd Hk. rewrite (fat_readdir_cases s dir parent fs n ent k Hd Hk). destruct (next_listed _ _ _) as [[de' off']|] eqn:En; [|done].
  intros [= <- <-] Hne. destruct (scan_listed _ _ _ _ _ En) as (k' & Hk' & -> & -> & Hl & Hend). exists k'. split_and!; [lia|lia|done|done|done|].
  intros Hend0. unfold listed in Hl. apply andb_true_iff in Hl as [Hreg Hdots%negb_true_iff].
  assert (name_matches_sfn (ent k') (dirent_name (dirent_of (ent k'))) = true) as Hm.
  { unfold name_matches_sfn, dirent_of. cbn [dirent_name]. rewrite extract_sfn_name_room. apply equals_ignoring_case_refl. }
  destruct (scan_finds n ent (fn_fs parent) (dirent_name (dirent_of (ent k'))) k' 0) as (k0 & Hk0 & Es & _ & Hm0); [lia| |done|done|].
  { intros j Hj. destruct (decide (j < k)); [apply Hend0; lia|]. destruct (decide (j = k')) as [->|]; [by apply regular_not_end|apply Hend; lia]. }
  pose proof (fat_lookup_cases s live frames dir parent fs n ent _ Hw Hd Hne Hdots) as Hlk. rewrite Es in Hlk.
  destruct Hlk as (err & v & s' & E & _ & Hc). exists k0, err, v, s'. split_and!; [lia|lia|done| |done|].
  - destruct Hc as [[-> _]|(p & -> & _)]; [by right|by left].
  - intros ->. destruct Hc as [[? _]|(p & _ & _ & _ & _ & Hn & _)]; [done|apply Hn].
Qed.

(** ** Entries of large volumes *)

(** The start that an entry records: two bytes for each half. *)
Definition entry_start (e : entry) : Z := (e 20 + 256 * e 21) * 2 ^ 16 + (e 26 + 256 * e 27).

(** The driver reads one byte of each half: it finds the right cluster only
    when both other bytes are zero, so a file that starts at cluster 256 or
    beyond is read from somewhere else. *)
Theorem entry_start_truncated (e : entry) fsp : (forall i, 0 <= e i < 256) ->
  first_cluster (entry_node e fsp) = entry_start e <-> e 21 = 0 /\ e 27 = 0.
Proof.
  intros Hb. unfold entry_node, entry_start, DIR_CLUSTER_HI, DIR_CLUSTER_LO. cbn [first_cluster]. rewrite Z.lor_comm.
  pose proof (Hb 20). pose proof (Hb 21). pose proof (Hb 26). pose proof (Hb 27). rewrite lor_shift_add by lia. lia.
Qed.

(** ** A chain that runs in a circle *)

(** A directory cluster that follows itself and has neither an end mark nor the
    name: the search for the name never ends. *)
Theorem find_in_cycle_hangs fs m fsp c name ent fuel :
  vol_ok fs -> readable fs c -> 2 <= c -> is_eoc c (is_fat32 fs) = false -> next_cluster fs m c = c ->
  (forall j i, 0 <= j < Z.of_nat (per_cluster fs) -> 0 <= i < 32 -> dev_byte (dev fs) (cluster_to_sector fs c * 512 + (32 * j + i)) = ent j i) ->
  scan (per_cluster fs) 0 ent fsp name = None ->
  find_in_chain fuel fs m fsp c name = None.
Proof.
  intros Hv [Hr1 Hr2] Hc He Hn Hent Hs. induction fuel as [|fuel IH]; cbn [find_in_chain]; [done|].
  replace ((2 <=? c) && _) with true by (rewrite He; cbn; lia).
  rewrite (find_in_cluster_ok fs fsp (cluster_to_sector fs c) ent name Hv ltac:(apply cluster_to_sector_range) Hr1 Hr2 _ 0 0); [|lia|destruct Hv; lia|].
  2:{ intros j i Hj Hi. rewrite Z.add_0_r, Z.add_0_l. apply Hent; [unfold per_cluster; lia|done]. }
  cbn [mbind option_bind]. fold (per_cluster fs). by rewrite Hs, Hn.
Qed.

End Filesystem.
