(* ===== verification/FatDemo.v ===== *)
(** A small FAT16 volume in memory, mounted: the examples at which the theorems
    about the driver are applied. *)

From S2P Require Import Prelude MemoryMap Pmm PageAlloc Bytes KMem VfsBase Ramfs Block Fat FatSpec FatDir FatFs.

(** * The image *)

Fixpoint put (l : list Z) (a : Z) (m : bmem) : bmem :=
  match l with [] => m | b :: l => put l (a + 1) (aset m a b) end.

Lemma bytes_range (m : bmem) : 0 <= dflt m < 256 -> map_Forall (fun _ v => 0 <= v < 256) (over m) -> forall i, 0 <= aget m i < 256.
Proof. intros Hd Ho i. unfold aget. destruct (over m !! i) as [v|] eqn:E; cbn; [|done]. by apply (Ho i). Qed.

Definition image_base : Z := 0x100000.

(** One reserved sector, one table of one sector, 16 root entries, clusters of
    one sector; the data starts at sector 3.  HELLO.TXT has 700 bytes in the
    clusters 3 and 4, BIG.DAT starts at cluster 300, SUB is a directory whose
    only cluster 6 is its own successor. *)
Definition image : bmem :=
  let m := put [0; 2; 1; 1; 0; 1; 16; 0; 0; 0; 0; 1; 0] (image_base + 11) (afill 0) in
  let m := put [107; 16; 0; 0] (image_base + 32) m in
  let m := put [0x55; 0xAA] (image_base + 510) m in
  let m := put [0xF8; 0xFF; 0xFF; 0xFF; 0; 0; 4; 0; 0xFF; 0xFF; 0; 0; 6; 0] (image_base + 512) m in
  let m := put [72; 69; 76; 76; 79; 32; 32; 32; 84; 88; 84; 0x20] (image_base + 2 * 512) m in
  let m := put [3; 0; 188; 2] (image_base + 2 * 512 + 26) m in
  let m := put [66; 73; 71; 32; 32; 32; 32; 32; 68; 65; 84; 0x20] (image_base + 2 * 512 + 32) m in
  let m := put [44; 1; 5; 0] (image_base + 2 * 512 + 32 + 26) m in
  let m := put [83; 85; 66; 32; 32; 32; 32; 32; 32; 32; 32; 0x10] (image_base + 2 * 512 + 64) m in
  let m := put [6; 0; 0; 0] (image_base + 2 * 512 + 64 + 26) m in
  let m := put [65; 66; 67] (image_base + 4 * 512) m in
  let m := put [90; 91] (image_base + 5 * 512 + 187) m in
  fold_left (fun m k => aset m (image_base + 7 * 512 + 32 * Z.of_nat k) 0xE5) (seq 0 16) m.

Lemma image_bytes i : 0 <= aget image i < 256.
Proof.
  apply bytes_range; [vm_compute; split; [discriminate|reflexivity]|].
  apply (bool_decide_unpack _). vm_compute. exact I.
Qed.

Lemma image_size : 0 <= mb_size (Build_Memblock image_base (4203 * 512)) < 2 ^ 63.
Proof. cbn. lia. Qed.

Definition disk : memdev := Memdev image (Build_Memblock image_base (4203 * 512)) image_bytes image_size.

(** * Mounted *)

Definition fat_empty : fat memdev bump := Fat 0 ∅ ∅ ∅ (afill 0) (Bump 0x1000 0x100).

Definition fat_ready : fat memdev bump := match init disk fat_empty with Some (_, s) => s | None => fat_empty end.
Definition fat_rooted : fat memdev bump := match fat_mount fat_ready with Some (_, _, s) => s | None => fat_ready end.

Definition vol : FatInstance memdev := match instances fat_rooted !! g_fs fat_rooted with Some fs => fs
  | None => Build_FatInstance _ disk 0 0 0 0 0 0 0 0 0 0 false 0 0 end.

(** The root vnode, the vnode of HELLO.TXT after it was looked up. *)
Definition root_v : Z := match fat_mount fat_ready with Some (_, v, _) => v | None => 0 end.
Definition hello : str := [104; 101; 108; 108; 111; 46; 116; 120; 116].
Definition fat_opened : fat memdev bump := match fat_lookup root_v hello fat_rooted with Some (_, _, s) => s | None => fat_rooted end.
Definition hello_v : Z := match fat_lookup root_v hello fat_rooted with Some (_, v, _) => v | None => 0 end.

Example fat_ready_ok : g_fs fat_ready = 0x1000 /\ root_v = 0x1240 /\ hello_v = 0x1280.
Proof. vm_compute. split_and!; reflexivity. Qed.

Lemma fat_ready_init : init disk fat_empty = Some (0, fat_ready).
Proof.
  assert (fst <$> init disk fat_empty = Some 0) as E0 by (vm_compute; reflexivity).
  unfold fat_ready. destruct (init disk fat_empty) as [[err s]|]; [|discriminate E0]. injection E0 as ->. reflexivity.
Qed.

#[local] Opaque disk vol fat_ready fat_rooted fat_opened root_v hello_v.

(** The volume seen by the driver. *)
Lemma vol_fields : dev vol = disk /\ bytes_per_sector vol = 512 /\ sectors_per_cluster vol = 1 /\ is_fat32 vol = false
  /\ fat_entry_count vol = 256 /\ root_entry_count vol = 16 /\ cluster_size vol = 512 /\ root_start_sector vol = 2
  /\ cluster_to_sector vol 3 = 4 /\ cluster_to_sector vol 4 = 5 /\ cluster_to_sector vol 6 = 7 /\ instances fat_rooted !! 0x1000 = Some vol.
Proof. vm_compute. split_and!; reflexivity. Qed.

Lemma vol_is_ok : vol_ok vol.
Proof. destruct vol_fields as (_ & Hb & Hs & _). split; [vm_compute; reflexivity|exact Hb|rewrite Hs; lia]. Qed.

Lemma disk_sector : sector_size disk = 512.
Proof. vm_compute. reflexivity. Qed.

Lemma disk_size : dev_size disk = 4203 * 512.
Proof. vm_compute. reflexivity. Qed.

Lemma vol_readable c sec : cluster_to_sector vol c = sec -> sec < 4203 -> readable vol c.
Proof.
  intros E Hs. destruct vol_fields as (Hd & _ & Hspc & _). unfold readable. rewrite Hspc, E, Hd, disk_size. lia.
Qed.

Lemma chain_step m c cs sec : 2 <= c < 256 -> cluster_to_sector vol c = sec -> sec < 4203 -> is_chain vol m (next_cluster vol m c) cs -> is_chain vol m c (c :: cs).
Proof.
  intros Hc Hs Hs2 Hn. destruct vol_fields as (_ & _ & _ & H32 & Hec & _). cbn [is_chain]. rewrite Hec, H32.
  split; [reflexivity|]. split; [exact Hc|]. split; [unfold is_eoc, FAT_EOC_MIN_16; lia|]. split; [by apply (vol_readable c sec)|exact Hn].
Qed.

Lemma hello_chain : is_chain vol (fat_mem fat_opened) 3 [3; 4].
Proof.
  destruct vol_fields as (_ & _ & _ & H32 & _ & _ & _ & _ & H3 & H4 & _).
  assert (next_cluster vol (fat_mem fat_opened) 3 = 4) as N3 by (vm_compute; reflexivity).
  assert (next_cluster vol (fat_mem fat_opened) 4 = 0xFFFF) as N4 by (vm_compute; reflexivity).
  apply (chain_step _ 3 _ 4); [lia|exact H3|lia|]. rewrite N3. apply (chain_step _ 4 _ 5); [lia|exact H4|lia|]. rewrite N4.
  cbn [is_chain]. rewrite H32. right. reflexivity.
Qed.

Definition hello_node : FatNode := Build_FatNode 3 700 0x20 0x1000.

Lemma hello_file : fat_file fat_opened hello_v hello_node vol [3; 4].
Proof.
  destruct vol_fields as (_ & _ & _ & _ & _ & _ & Hcs & _). split.
  - vm_compute. reflexivity.
  - vm_compute. reflexivity.
  - exact vol_is_ok.
  - exact hello_chain.
  - unfold chain_size. rewrite Hcs. cbn. lia.
Qed.

Lemma fat_read_spec_witness : exists buf, fat_read hello_v 0 (afill 0) 1000 fat_opened = Some (0, 700, buf, fat_opened)
  /\ aget buf 1 = 66 /\ aget buf 699 = 90 /\ aget buf 700 = 0.
Proof.
  destruct (fat_read_spec fat_opened hello_v hello_node vol [3; 4] 0 (afill 0) 1000 hello_file ltac:(lia) ltac:(lia) ltac:(lia)) as (buf & E & Hb).
  exists buf. split; [exact E|]. rewrite !Hb. split_and!; vm_compute; reflexivity.
Defined.

Lemma fat_read_overruns_witness : exists buf, fat_read hello_v 1 (afill 0) (2 ^ 64 - 1) fat_opened = Some (0, 1023, buf, fat_opened) /\ aget buf 699 = 91.
Proof.
  destruct (fat_read_overruns fat_opened hello_v hello_node vol [3; 4] 1 (afill 0) (2 ^ 64 - 1) hello_file ltac:(cbn; lia) ltac:(lia) ltac:(lia)) as (buf & E & Hb).
  assert (chain_size vol [3; 4] - 1 = 1023) as Hcz by (vm_compute; reflexivity). rewrite Hcz in E, Hb.
  exists buf. split; [exact E|]. rewrite !Hb. vm_compute. reflexivity.
Defined.

Lemma parse_bpb_spec_witness : exists fs, parse_bpb disk = Some (Some fs) /\ total_sectors fs = 4203 /\ first_data_sector fs = 3.
Proof.
  exists (instance_of disk (described disk)).
  assert (acceptable (described disk) = true) as E by (vm_compute; reflexivity). split.
  - rewrite (parse_bpb_spec disk disk_sector ltac:(rewrite disk_size; lia)); [by rewrite E|]. apply Z.leb_le. vm_compute. reflexivity.
  - vm_compute. split; reflexivity.
Defined.

(** A FAT32 boot sector of a volume of 8 sectors, whose table alone takes 100:
    the number of its data sectors wraps around, and it is accepted. *)
Definition small_image : bmem :=
  let m := put [0; 2; 1; 1; 0; 1] (image_base + 11) (afill 0) in
  let m := put [8; 0; 0; 0; 100] (image_base + 32) m in
  put [0x55; 0xAA] (image_base + 510) m.

Lemma small_image_bytes i : 0 <= aget small_image i < 256.
Proof.
  apply bytes_range; [vm_compute; split; [discriminate|reflexivity]|].
  apply (bool_decide_unpack _). vm_compute. exact I.
Qed.

Definition small_disk : memdev := Memdev small_image (Build_Memblock image_base (4203 * 512)) small_image_bytes image_size.

Example small_volume_accepted :
  acceptable (described small_disk) = false /\ vl_clusters (described small_disk) = -93
  /\ total_sectors <$> default None (parse_bpb small_disk) = Some 8.
Proof. vm_compute. split_and!; reflexivity. Qed.

Lemma fat_init_table_witness : exists fs, instances fat_ready !! g_fs fat_ready = Some fs /\ next_cluster fs (fat_mem fat_ready) 3 = table_value fs 3.
Proof.
  destruct (fat_init_table disk fat_empty fat_ready disk_sector fat_ready_init) as (fs0 & fs & _ & _ & Hi & _ & _ & _ & Ht).
  assert (fat_size <$> instances fat_ready !! g_fs fat_ready = Some 1) as Hs by (vm_compute; reflexivity).
  assert (fat_entry_count <$> instances fat_ready !! g_fs fat_ready = Some 256) as Hc by (vm_compute; reflexivity).
  rewrite Hi in Hs, Hc. injection Hs as Hs. injection Hc as Hc. exists fs. split; [exact Hi|].
  destruct Ht as (_ & _ & Ht); [rewrite Hs; lia|rewrite Hs; lia|]. rewrite Ht, Hc by lia. reflexivity.
Defined.

(** * The directories *)

Lemma root_is_ok : root_ok vol.
Proof.
  destruct vol_fields as (Hd & _ & _ & _ & _ & Hr & _ & Hs & _). split; [exact vol_is_ok|rewrite Hr; lia| |]; unfold root_size; rewrite Hr, Hs; [|rewrite Hd, disk_size];
    vm_compute; discriminate.
Qed.

Definition root_node : FatNode := Build_FatNode 0 512 0x10 0x1000.

Lemma rooted_dir : fat_dir fat_rooted root_v root_node vol 16 (root_entry vol).
Proof.
  destruct vol_fields as (_ & _ & _ & H32 & _ & Hr & Hcs & _). split.
  - vm_compute. reflexivity.
  - vm_compute. reflexivity.
  - unfold is_root16. rewrite H32. replace 16%nat with (Z.to_nat (root_entry_count vol)) by (rewrite Hr; reflexivity).
    apply root_dir; [exact root_is_ok|rewrite Hcs; lia].
Qed.

(** What the allocator has handed out so far: the instance, the table, the root
    vnode and its node. *)
Definition rooted_live : gmap Z Z := <[0x1268 := sizeof_FatNode]> (<[0x1240 := sizeof_Vnode]> (<[0x1040 := 512]> (<[0x1000 := sizeof_FatInstance]> ∅))).

Lemma rooted_wf : km_wf (fat_kmem fat_rooted) rooted_live ∅.
Proof.
  replace (fat_kmem fat_rooted) with (Bump 0x1280 0x100) by (vm_compute; reflexivity).
  split; [cbn; lia|]. split; [|set_solver].
  intros p size Hp. unfold rooted_live in Hp. rewrite !lookup_insert, lookup_empty in Hp. repeat case_decide; simplify_eq; cbn; lia.
Qed.

Lemma fat_lookup_spec_witness : exists v s', fat_lookup root_v hello fat_rooted = Some (0, v, s') /\ node_of v s' = Some (hello_node, vol).
Proof.
  pose proof (fat_lookup_spec fat_rooted rooted_live ∅ root_v root_node vol 16 (root_entry vol) hello rooted_wf rooted_dir
    ltac:(discriminate) ltac:(vm_compute; reflexivity)) as H.
  assert (scan 16 0 (root_entry vol) (fn_fs root_node) hello = Some (Found hello_node)) as E by (vm_compute; reflexivity). rewrite E in H.
  destruct H as (err & v & s' & El & _ & Hc). exists v, s'.
  assert (fst <$> (fst <$> fat_lookup root_v hello fat_rooted) = Some 0) as E0 by (vm_compute; reflexivity). rewrite El in E0. injection E0 as ->.
  split; [exact El|]. destruct Hc as [[Hx _]|(p & _ & _ & _ & _ & Hn & _)]; [discriminate Hx|]. apply Hn. apply vol_fields.
Defined.

Lemma fat_readdir_lookup_witness : exists de k0 err v s', fat_readdir root_v (32 * 1) fat_rooted = Some (0, de, 64, fat_rooted)
  /\ dirent_name de = [66; 73; 71; 46; 68; 65; 84] /\ fat_lookup root_v (dirent_name de) fat_rooted = Some (err, v, s')
  /\ name_matches_sfn (root_entry vol k0) (dirent_name de) = true.
Proof.
  assert (fat_readdir root_v (32 * 1) fat_rooted = Some (0, Build_Dirent [66; 73; 71; 46; 68; 65; 84] File, 64, fat_rooted)) as E.
  { rewrite (fat_readdir_cases fat_rooted root_v root_node vol 16 (root_entry vol) 1 rooted_dir) by lia.
    assert (next_listed (Z.to_nat (Z.of_nat 16 - 1)) 1 (root_entry vol) = Some (Build_Dirent [66; 73; 71; 46; 68; 65; 84] File, 64)) as -> by (vm_compute; reflexivity).
    reflexivity. }
  destruct (fat_readdir_lookup fat_rooted rooted_live ∅ root_v root_node vol 16 (root_entry vol) 1 _ 64 rooted_wf rooted_dir ltac:(lia) E ltac:(discriminate))
    as (k' & _ & _ & _ & _ & Hf).
  destruct Hf as (k0 & err & v & s' & _ & El & _ & Hm & _). { intros j Hj. assert (j = 0) as -> by lia. vm_compute. reflexivity. }
  exists (Build_Dirent [66; 73; 71; 46; 68; 65; 84] File), k0, err, v, s'. split; [exact E|]. split; [reflexivity|]. split; [exact El|exact Hm].
Defined.

(** BIG.DAT starts at cluster 300; the driver goes to cluster 44. *)
Lemma entry_start_truncated_witness : entry_start (root_entry vol 1) = 300 /\ first_cluster (entry_node (root_entry vol 1) 0x1000) = 44
  /\ first_cluster (entry_node (root_entry vol 1) 0x1000) <> entry_start (root_entry vol 1).
Proof.
  split; [vm_compute; reflexivity|]. split; [vm_compute; reflexivity|].
  rewrite (entry_start_truncated (root_entry vol 1) 0x1000); [|intros i; apply dev_byte_range]. intros [_ E]. vm_compute in E. discriminate E.
Defined.

(** SUB is searched for ever. *)
Lemma find_in_cycle_hangs_witness : forall fuel, find_in_chain fuel vol (fat_mem fat_rooted) 0x1000 6 hello = None.
Proof.
  destruct vol_fields as (_ & _ & _ & H32 & _ & _ & _ & _ & _ & _ & H6 & _). intros fuel.
  apply (find_in_cycle_hangs vol (fat_mem fat_rooted) 0x1000 6 hello (fun j i => dev_byte (dev vol) (cluster_to_sector vol 6 * 512 + (32 * j + i)))).
  - exact vol_is_ok.
  - apply (vol_readable 6 7 H6). lia.
  - lia.
  - rewrite H32. reflexivity.
  - vm_compute. reflexivity.
  - intros j i _ _. reflexivity.
  - vm_compute. reflexivity.
Defined.
