(* ===== verification/Overlay.v ===== *)
(** The overlay filesystem: [overlayfs.cpp].

    A directory of the overlay merges directories of several layers; a file of
    a lower layer is hidden by a file ".wh.name" in a writable layer above.
    The layers are vnodes of any filesystem that offers the vnode operations,
    removal and the kernel's allocator.  [None] is an access to an object that
    is not there, or a directory listing that does not end. *)

From S2P Require Import Prelude MemoryMap Pmm PageAlloc Bytes KMem VfsBase Ramfs.

(** What the overlay needs of its layers beyond [VnodeFs]; [fs_kalloc] and
    [fs_kfree] are the kernel's allocator, which the layers use too. *)
Class LayerOps (F : Type) `{VnodeFs F} := {
  op_rmdir : Z -> str -> F -> option (Z * F);
  op_unlink : Z -> str -> F -> option (Z * F);
  fs_kalloc : Z -> Z -> F -> Z * F;
  fs_kfree : Z -> Z -> F -> F;
}.

Definition WHITEOUT_PREFIX : str := [46; 119; 104; 46].
Definition MAX_LAYERS : nat := 8.

Record Layer := Build_Layer { l_root : Z; writable : bool }.

(** [merged] is the address of the array; its elements are [merged_entries]. *)
Record OverlayVnode := Build_OverlayVnode {
  layer_roots : list Z;
  merged : Z;
  merged_entries : list Dirent;
  cached : bool;
}.

Definition merged_count (o : OverlayVnode) : Z := Z.of_nat (length (merged_entries o)).

Definition sizeof_MergedEntry : Z := 257.
Definition sizeof_OverlayVnode : Z := 88.

Record overlay (F : Type) := Overlay {
  g_layers : list Layer;
  g_initialized : bool;
  ov_vnodes : gmap Z Vnode;
  ov_nodes : gmap Z OverlayVnode;
  lower : F;
}.
Arguments Overlay {F}.
Arguments g_layers {F}.
Arguments g_initialized {F}.
Arguments ov_vnodes {F}.
Arguments ov_nodes {F}.
Arguments lower {F}.

(** * Names *)

(** [name[i] != WHITEOUT_PREFIX[i]] up to the end of the prefix. *)
Fixpoint starts_with (prefix name : str) : bool :=
  match prefix, name with
  | [], _ => true
  | c :: prefix, d :: name => if d =? c then starts_with prefix name else false
  | _ :: _, [] => false
  end.
Definition has_whiteout_prefix (name : str) : bool := starts_with WHITEOUT_PREFIX name.

(** The prefix and the name, cut to the buffer of 256 bytes. *)
Definition make_whiteout_name (name : str) (out_size : Z) : str :=
  let out := copy_loop (Z.to_nat (out_size - 1)) WHITEOUT_PREFIX in
  out ++ copy_loop (Z.to_nat (out_size - 1) - length out) name.

Fixpoint name_eq (a b : str) : bool :=
  match a, b with
  | [], [] => true
  | x :: a, y :: b => if x =? y then name_eq a b else false
  | _, _ => false
  end.

Section Operations.
Context {F : Type} `{LayerOps F}.
Implicit Types (s : overlay F) (f : F).

Definition set_lower f s : overlay F := Overlay (g_layers s) (g_initialized s) (ov_vnodes s) (ov_nodes s) f.
Definition set_ov_vnode (p : Z) (v : Vnode) s : overlay F :=
  Overlay (g_layers s) (g_initialized s) (<[p := v]> (ov_vnodes s)) (ov_nodes s) (lower s).
Definition set_ov_node (p : Z) (o : OverlayVnode) s : overlay F :=
  Overlay (g_layers s) (g_initialized s) (ov_vnodes s) (<[p := o]> (ov_nodes s)) (lower s).

Definition kalloc (size alignment : Z) s : Z * overlay F := let '(p, f) := fs_kalloc size alignment (lower s) in (p, set_lower f s).
Definition kfree (p size : Z) s : overlay F := set_lower (fs_kfree p size (lower s)) s.

Definition overlay_vnode_ops : Z := 3.

(** * Objects *)

Definition no_roots : list Z := replicate MAX_LAYERS 0.

Definition alloc_overlay_vnode s : Z * overlay F :=
  let '(p, s) := kalloc sizeof_OverlayVnode 8 s in
  if p =? 0 then (0, s) else (p, set_ov_node p (Build_OverlayVnode no_roots 0 [] false) s).

(** [alloc_vnode], with the [ops] that every caller sets next. *)
Definition alloc_vnode (type : VnodeType) (private_data : Z) s : Z * overlay F :=
  let '(p, s) := kalloc sizeof_Vnode 8 s in
  if p =? 0 then (0, s) else (p, set_ov_vnode p (Build_Vnode type overlay_vnode_ops private_data 0 0) s).

Definition ovn_of (v : Z) s : option (Z * OverlayVnode) :=
  vn ← ov_vnodes s !! v; o ← ov_nodes s !! private_data vn; Some (private_data vn, o).

(** The layers with the directory of each that a vnode merges. *)
Definition layers_of (o : OverlayVnode) s : list (Z * bool) :=
  zip (layer_roots o) (writable <$> g_layers s).

(** * Whiteouts *)

(** [for (u = 0; u < li; ++u) ...]: whether one of the layers above has the
    whiteout. *)
Fixpoint whiteout_above (above : list (Z * bool)) (wh_name : str) f : option (bool * F) :=
  match above with
  | [] => Some (false, f)
  | (root, w) :: above =>
      if negb w || (root =? 0) then whiteout_above above wh_name f
      else
        '(err, wh, f) ← op_lookup root wh_name f;
        if err =? 0 then f ← vn_unref wh f; Some (true, f) else whiteout_above above wh_name f
  end.

(** * Looking up *)

(** The loop over the layers: the type of what was found first and the vnodes
    of the layers; [i] counts the layers, [child] is [layer_roots] of the new
    vnode. *)
Fixpoint lookup_layers (above rest : list (Z * bool)) (i : nat) (name wh_name : str) (found : option VnodeType) (child : list Z) f
    : option (option VnodeType * list Z * F) :=
  match rest with
  | [] => Some (found, child, f)
  | (root, w) :: rest =>
      let next := lookup_layers (above ++ [(root, w)]) rest (Datatypes.S i) name wh_name in
      if root =? 0 then next found child f
      else
        '(whiteout, f) ← whiteout_above above wh_name f;
        if (whiteout : bool) then Some (found, child, f)
        else
          '(err, real, f) ← op_lookup root name f;
          if err =? 0 then
            rtype ← vn_type real f;
            let type := default rtype found in
            if bool_decide (type = File) then Some (Some type, <[i := real]> child, f)
            else if bool_decide (rtype = Directory) then next (Some type) (<[i := real]> child) f
            else f ← vn_unref real f; Some (Some type, child, f)
          else next found child f
  end.

(** [for (...) if (layer_roots[i]) vnode_unref(layer_roots[i]);] *)
Fixpoint unref_all (roots : list Z) f : option F :=
  match roots with
  | [] => Some f
  | r :: roots => f ← (if r =? 0 then Some f else vn_unref r f); unref_all roots f
  end.

Definition set_roots (o : OverlayVnode) (roots : list Z) : OverlayVnode := Build_OverlayVnode roots (merged o) (merged_entries o) (cached o).

Definition overlay_lookup (dir : Z) (name : str) s : option (Z * Z * overlay F) :=
  '(_, parent_ovn) ← ovn_of dir s;
  let '(child, s) := alloc_overlay_vnode s in
  if child =? 0 then Some (E_NO_SPACE, 0, s)
  else
    let wh_name := make_whiteout_name name 256 in
    '(found, roots, f) ← lookup_layers [] (layers_of parent_ovn s) 0 name wh_name None no_roots (lower s);
    let s := set_ov_node child (Build_OverlayVnode roots 0 [] false) (set_lower f s) in
    match found with
    | None => Some (E_NOT_FOUND, 0, kfree child sizeof_OverlayVnode s)
    | Some type =>
        let '(vn, s) := alloc_vnode type child s in
        if vn =? 0 then
          f ← unref_all (take (length (g_layers s)) roots) (lower s);
          Some (E_NO_SPACE, 0, kfree child sizeof_OverlayVnode (set_lower f s))
        else Some (0, vn, s)
    end.

(** * Creating and removing *)

(** The first writable layer that has the directory. *)
Fixpoint top_writable (ls : list (Z * bool)) (i : nat) : option (nat * Z) :=
  match ls with
  | [] => None
  | (root, w) :: ls => if negb w || (root =? 0) then top_writable ls (Datatypes.S i) else Some (i, root)
  end.

Definition overlay_create (dir : Z) (name : str) s : option (Z * Z * overlay F) :=
  '(_, ovn) ← ovn_of dir s;
  match top_writable (layers_of ovn s) 0 with
  | None => Some (E_IO, 0, s)
  | Some (i, root) =>
      '(err, real, f) ← op_create root name (lower s);
      let s := set_lower f s in
      if err <? 0 then Some (err, 0, s)
      else
        let '(child, s) := alloc_overlay_vnode s in
        if child =? 0 then f ← vn_unref real (lower s); Some (E_NO_SPACE, 0, set_lower f s)
        else
          let s := set_ov_node child (Build_OverlayVnode (<[i := real]> no_roots) 0 [] false) s in
          type ← vn_type real (lower s);
          let '(vn, s) := alloc_vnode type child s in
          if vn =? 0 then
            f ← vn_unref real (lower s);
            Some (E_NO_SPACE, 0, kfree child sizeof_OverlayVnode (set_lower f s))
          else Some (0, vn, s)
  end.

Definition overlay_mkdir (dir : Z) (name : str) s : option (Z * overlay F) :=
  '(_, ovn) ← ovn_of dir s;
  match top_writable (layers_of ovn s) 0 with
  | None => Some (E_IO, s)
  | Some (_, root) => '(err, f) ← op_mkdir root name (lower s); Some (err, set_lower f s)
  end.

Definition overlay_rmdir (dir : Z) (name : str) s : option (Z * overlay F) :=
  '(_, ovn) ← ovn_of dir s;
  match top_writable (layers_of ovn s) 0 with
  | None => Some (E_NOT_FOUND, s)
  | Some (_, root) =>
      '(err, real, f) ← op_lookup root name (lower s);
      if err =? 0 then
        f ← vn_unref real f; '(err, f) ← op_rmdir root name f; Some (err, set_lower f s)
      else Some (E_NOT_FOUND, set_lower f s)
  end.

(** The whiteout for a name of a read-only layer, in the first writable layer
    above it. *)
Definition add_whiteout (above : list (Z * bool)) (name : str) f : option (Z * F) :=
  match top_writable above 0 with
  | None => Some (E_IO, f)
  | Some (_, root) =>
      let wh_name := make_whiteout_name name 256 in
      '(err, wh, f) ← op_lookup root wh_name f;
      if err =? 0 then f ← vn_unref wh f; Some (E_EXISTS, f)
      else '(err, _, f) ← op_create root wh_name f; Some (err, f)
  end.

Fixpoint unlink_layers (above rest : list (Z * bool)) (name : str) f : option (Z * F) :=
  match rest with
  | [] => Some (E_NOT_FOUND, f)
  | (root, w) :: rest =>
      if root =? 0 then unlink_layers (above ++ [(root, w)]) rest name f
      else
        '(err, real, f) ← op_lookup root name f;
        if negb (err =? 0) then unlink_layers (above ++ [(root, w)]) rest name f
        else
          f ← vn_unref real f;
          if (w : bool) then op_unlink root name f else add_whiteout above name f
  end.

Definition overlay_unlink (dir : Z) (name : str) s : option (Z * overlay F) :=
  '(_, ovn) ← ovn_of dir s;
  '(err, f) ← unlink_layers [] (layers_of ovn s) name (lower s);
  Some (err, set_lower f s).

(** * File contents *)

(** The vnode of the first layer that has one. *)
Definition first_root (o : OverlayVnode) s : option Z :=
  snd <$> list_find (fun r => r <> 0) (take (length (g_layers s)) (layer_roots o)).

Definition overlay_read (node offset : Z) (buf : bmem) (size : Z) s : option (Z * Z * bmem * overlay F) :=
  '(_, ovn) ← ovn_of node s;
  match first_root ovn s with
  | None => Some (E_INVALID, 0, buf, s)
  | Some real =>
      if negb (has_read real (lower s)) then Some (E_INVALID, 0, buf, s)
      else '(err, n, buf, f) ← op_read real offset buf size (lower s); Some (err, n, buf, set_lower f s)
  end.

Definition overlay_write (node offset : Z) (buf : bmem) (size : Z) s : option (Z * Z * overlay F) :=
  '(_, ovn) ← ovn_of node s;
  match first_root ovn s with
  | None => Some (E_INVALID, 0, s)
  | Some real =>
      if negb (has_write real (lower s)) then Some (E_INVALID, 0, s)
      else '(err, n, f) ← op_write real offset buf size (lower s); Some (err, n, set_lower f s)
  end.

Definition overlay_stat (node : Z) s : option (Z * Stat * overlay F) :=
  '(_, ovn) ← ovn_of node s;
  match first_root ovn s with
  | None => Some (E_INVALID, Build_Stat File 0, s)
  | Some real =>
      if negb (has_stat real (lower s)) then Some (E_INVALID, Build_Stat File 0, s)
      else '(err, st, f) ← op_stat real (lower s); Some (err, st, set_lower f s)
  end.

(** * Listing *)

(** A directory with more entries than this is outside the model. *)
Definition dir_fuel : nat := Z.to_nat 4096.

(** [while (readdir(...) == 0) max_total++;] *)
Fixpoint count_entries (fuel : nat) (root offset total : Z) f : option (Z * F) :=
  match fuel with
  | O => None
  | Datatypes.S fuel =>
      '(err, _, off, f) ← op_readdir root offset f;
      if err =? 0 then count_entries fuel root off (total + 1) f else Some (total, f)
  end.

Fixpoint count_layers (ls : list (Z * bool)) (total : Z) f : option (Z * F) :=
  match ls with
  | [] => Some (total, f)
  | (root, _) :: ls =>
      if root =? 0 then count_layers ls total f
      else '(total, f) ← count_entries dir_fuel root 0 total f; count_layers ls total f
  end.

(** The entries of one layer that are not whiteouts, not hidden and not there
    yet. *)
Fixpoint merge_entries (fuel : nat) (above : list (Z * bool)) (root offset : Z) (acc : list Dirent) f : option (list Dirent * F) :=
  match fuel with
  | O => None
  | Datatypes.S fuel =>
      '(err, d, off, f) ← op_readdir root offset f;
      if negb (err =? 0) then Some (acc, f)
      else if has_whiteout_prefix (dirent_name d) then merge_entries fuel above root off acc f
      else
        '(whiteout, f) ← whiteout_above above (make_whiteout_name (dirent_name d) 256) f;
        if (whiteout : bool) then merge_entries fuel above root off acc f
        else if existsb (fun m => name_eq (dirent_name m) (dirent_name d)) acc then merge_entries fuel above root off acc f
        else merge_entries fuel above root off (acc ++ [Build_Dirent (copy_string (dirent_name d) 256) (dirent_type d)]) f
  end.

Fixpoint merge_layers (above rest : list (Z * bool)) (acc : list Dirent) f : option (list Dirent * F) :=
  match rest with
  | [] => Some (acc, f)
  | (root, w) :: rest =>
      if root =? 0 then merge_layers (above ++ [(root, w)]) rest acc f
      else '(acc, f) ← merge_entries dir_fuel above root 0 acc f; merge_layers (above ++ [(root, w)]) rest acc f
  end.

Definition build_merged_list (p : Z) (ovn : OverlayVnode) s : option (overlay F) :=
  if cached ovn then Some s
  else
    let ls := layers_of ovn s in
    '(max_total, f) ← count_layers ls 0 (lower s);
    let s := set_lower f s in
    if max_total =? 0 then Some (set_ov_node p (Build_OverlayVnode (layer_roots ovn) 0 [] true) s)
    else
      let '(m, s) := kalloc (max_total *64 sizeof_MergedEntry) 1 s in
      if m =? 0 then Some (set_ov_node p (Build_OverlayVnode (layer_roots ovn) 0 [] true) s)
      else
        '(es, f) ← merge_layers [] ls [] (lower s);
        Some (set_ov_node p (Build_OverlayVnode (layer_roots ovn) m es true) (set_lower f s)).

Definition overlay_readdir (dir offset : Z) s : option (Z * Dirent * Z * overlay F) :=
  '(p, ovn) ← ovn_of dir s;
  s ← (if cached ovn then Some s else build_merged_list p ovn s);
  ovn ← ov_nodes s !! p;
  if merged_count ovn <=? offset then Some (E_NOT_FOUND, Build_Dirent [] File, offset, s)
  else
    e ← merged_entries ovn !! Z.to_nat offset;
    Some (0, Build_Dirent (copy_string (dirent_name e) 256) (dirent_type e), offset +64 1, s).

(** * Mounting *)

Fixpoint ref_all (roots : list Z) f : option F :=
  match roots with [] => Some f | r :: roots => f ← vn_ref r f; ref_all roots f end.

Fixpoint unref_each (roots : list Z) f : option F :=
  match roots with [] => Some f | r :: roots => f ← vn_unref r f; unref_each roots f end.

Definition overlay_mount s : option (Z * Z * overlay F) :=
  if negb (g_initialized s) || (length (g_layers s) =? 0)%nat then Some (E_INVALID, 0, s)
  else
    let '(p, s) := alloc_overlay_vnode s in
    if p =? 0 then Some (E_NO_SPACE, 0, s)
    else
      let roots := l_root <$> g_layers s in
      f ← ref_all roots (lower s);
      let s := set_ov_node p (Build_OverlayVnode (roots ++ drop (length roots) no_roots) 0 [] false) (set_lower f s) in
      let '(root, s) := alloc_vnode Directory p s in
      if root =? 0 then
        f ← unref_each roots (lower s); Some (E_NO_SPACE, 0, kfree p sizeof_OverlayVnode (set_lower f s))
      else Some (0, root, s).

Definition overlay_unmount (root : Z) s : option (Z * overlay F) :=
  vn ← ov_vnodes s !! root;
  s ← (if private_data vn =? 0 then Some s
       else
         ovn ← ov_nodes s !! private_data vn;
         let s := if negb (merged ovn =? 0) then kfree (merged ovn) (merged_count ovn *64 sizeof_MergedEntry) s else s in
         f ← unref_all (take (length (g_layers s)) (layer_roots ovn)) (lower s);
         Some (kfree (private_data vn) sizeof_OverlayVnode (set_lower f s)));
  Some (0, kfree root sizeof_Vnode s).

Definition init (layers : list Layer) s : Z * overlay F :=
  if (length layers =? 0)%nat || (MAX_LAYERS <? length layers)%nat then (-1, s)
  else (0, Overlay layers true (ov_vnodes s) (ov_nodes s) (lower s)).

Definition shutdown s : overlay F := Overlay [] false (ov_vnodes s) (ov_nodes s) (lower s).

(** [vnode_ref], [vnode_unref] of [vfs.cpp] on these vnodes. *)
Definition overlay_count_ref (up : bool) (v : Z) s : option (overlay F) :=
  if v =? 0 then Some s
  else
    n ← ov_vnodes s !! v;
    let rc := if up then ref_count n +64 1 else if 0 <? ref_count n then ref_count n - 1 else ref_count n in
    Some (set_ov_vnode v (Build_Vnode (v_type n) (v_ops n) (private_data n) rc (mount_parent n)) s).

Definition overlay_set_mount_parent (v parent : Z) s : option (overlay F) :=
  n ← ov_vnodes s !! v;
  Some (set_ov_vnode v (Build_Vnode (v_type n) (v_ops n) (private_data n) (ref_count n) parent) s).

End Operations.

(** The table [overlay_vnode_ops]: the overlay as a filesystem of its own. *)
#[export, refine] Instance overlay_vnode_fs {F} `{LayerOps F} : VnodeFs (overlay F) := {|
  vn_type v s := v_type <$> ov_vnodes s !! v;
  vn_ref := overlay_count_ref true;
  vn_unref := overlay_count_ref false;
  vn_set_mount_parent := overlay_set_mount_parent;
  op_lookup := overlay_lookup;
  op_create := overlay_create;
  has_mkdir _ _ := true;
  op_mkdir := overlay_mkdir;
  has_read _ _ := true;
  op_read := overlay_read;
  has_write _ _ := true;
  op_write := overlay_write;
  has_readdir _ _ := true;
  op_readdir := overlay_readdir;
  has_stat _ _ := true;
  op_stat := overlay_stat;
|}.
Proof.
  all: intros v w s s'; unfold overlay_count_ref; destruct (w =? 0); [by intros [= <-]|];
    destruct (ov_vnodes s !! w) as [n|] eqn:E; [|done]; cbn; intros [= <-]; cbn; rewrite lookup_insert; case_decide as Hd; [|done];
    subst; by rewrite E.
Defined.
