(* ===== verification/OverlaySpec.v ===== *)
(** What the overlay filesystem shows of its layers.

    The class [LayerView] is what the overlay relies on: a directory of a layer
    has a listing, looking up agrees with it, and looking up, counting
    references and allocating memory do not change it.  The in-memory
    filesystem is an instance. *)

From S2P Require Import Prelude MemoryMap Pmm PageAlloc Bytes KMem VfsBase Ramfs Overlay.

Class LayerView (F : Type) `{LayerOps F} := {
  layer_dir : F -> Z -> Prop;
  listing : F -> Z -> list Dirent;
}.

(** The type of a name in a listing. *)
Definition named (ds : list Dirent) (name : str) : option VnodeType :=
  (fun p => dirent_type p.2) <$> list_find (fun d => dirent_name d = name) ds.

Section View.
Context {F : Type} `{LayerView F}.
Implicit Types (f : F).

Definition sees f (dir : Z) (name : str) : option VnodeType := named (listing f dir) name.

(** No directory and no vnode has changed. *)
Record same_view f f' : Prop := {
  sv_dir : forall dir, layer_dir f dir -> layer_dir f' dir;
  sv_listing : forall dir, layer_dir f dir -> listing f' dir = listing f dir;
  sv_type : forall v ty, vn_type v f = Some ty -> vn_type v f' = Some ty;
}.

#[global] Instance same_view_preorder : PreOrder same_view.
Proof.
  split.
  - intros f. by split.
  - intros f1 f2 f3 [A1 A2 A3] [B1 B2 B3]. split; [naive_solver| |naive_solver]. intros dir Hd. by rewrite B2, A2; auto.
Qed.

Lemma same_view_sees f f' dir name : same_view f f' -> layer_dir f dir -> sees f' dir name = sees f dir name.
Proof. intros Hv Hd. unfold sees. by rewrite (sv_listing _ _ Hv dir Hd). Qed.

End View.

Class LayerLaws (F : Type) `{LayerView F} := {
  lookup_law : forall (f : F) dir name, layer_dir f dir -> exists err v f', op_lookup dir name f = Some (err, v, f') /\ same_view f f'
    /\ match sees f dir name with Some ty => err = 0 /\ v <> 0 /\ vn_type v f' = Some ty | None => err < 0 end;
  readdir_law : forall (f : F) dir (k : nat), layer_dir f dir -> Z.of_nat k < 2 ^ 63 ->
    exists err d off f', op_readdir dir (Z.of_nat k) f = Some (err, d, off, f') /\ same_view f f'
    /\ match listing f dir !! k with Some d' => err = 0 /\ d = d' /\ off = Z.of_nat k + 1 | None => err < 0 end;
  unref_law : forall (f : F) v ty, vn_type v f = Some ty -> exists f', vn_unref v f = Some f' /\ same_view f f';
  kalloc_law : forall (f : F) size al, same_view f (fs_kalloc size al f).2;
  kfree_law : forall (f : F) p size, same_view f (fs_kfree p size f);
  names_law : forall (f : F) dir d, layer_dir f dir -> d ∈ listing f dir -> (length (dirent_name d) <= 255)%nat;
}.

(** * The merged view: the reference *)

Section Merged.
Context {F : Type} `{LayerLaws F}.
Implicit Types (f : F) (ls above rest : list (Z * bool)).

(** The directories of the layers exist, where a layer has one. *)
Definition layers_ok f ls : Prop := Forall (fun l => l.1 = 0 \/ layer_dir f l.1) ls.

(** A writable layer of [above] has the whiteout. *)
Definition hidden f above (wh_name : str) : bool :=
  existsb (fun l => l.2 && negb (l.1 =? 0) && match sees f l.1 wh_name with Some _ => true | None => false end) above.

(** What a name is in the merged directory: the first layer that has it, unless
    a whiteout above hides this layer. *)
Fixpoint visible f above rest (name wh_name : str) : option VnodeType :=
  match rest with
  | [] => None
  | (root, w) :: rest =>
      let next := visible f (above ++ [(root, w)]) rest name wh_name in
      if root =? 0 then next
      else if hidden f above wh_name then None
      else match sees f root name with Some ty => Some ty | None => next end
  end.

Definition visible_name f ls (name : str) : option VnodeType := visible f [] ls name (make_whiteout_name name 256).

Lemma layers_ok_view f f' ls : same_view f f' -> layers_ok f ls -> layers_ok f' ls.
Proof. intros Hv Hl. eapply Forall_impl; [exact Hl|]. intros l [?|Hd]; [by left|right]. by apply (sv_dir _ _ Hv). Qed.

Lemma hidden_view f f' ls wh : same_view f f' -> layers_ok f ls -> hidden f' ls wh = hidden f ls wh.
Proof.
  intros Hv. unfold hidden. induction ls as [|[r w] ls IH]; intros Hok; cbn [existsb fst snd]; [done|]. apply Forall_cons in Hok as [Hr Hok]. rewrite (IH Hok).
  f_equal. destruct (Z.eqb_spec r 0) as [->|Hne]; [by rewrite !andb_false_r|]. cbn [fst] in Hr. destruct Hr as [?|Hd]; [done|].
  by rewrite (same_view_sees f f' r wh Hv Hd).
Qed.

Lemma visible_view f f' name wh : same_view f f' -> forall rest above, layers_ok f (above ++ rest) -> visible f' above rest name wh = visible f above rest name wh.
Proof.
  intros Hv. induction rest as [|[r w] rest IH]; intros above Hok; cbn [visible]; [done|].
  assert (layers_ok f above /\ (r = 0 \/ layer_dir f r)) as [Ha Hr]. { apply Forall_app in Hok as [Ha Hr]. by apply Forall_cons in Hr as [Hr _]. }
  rewrite (hidden_view f f' above wh Hv Ha), IH by (by rewrite <- app_assoc).
  destruct (Z.eqb_spec r 0); [done|]. destruct Hr as [?|Hd]; [done|]. by rewrite (same_view_sees f f' r name Hv Hd).
Qed.

Lemma whiteout_above_ok f above wh : layers_ok f above ->
  exists f', whiteout_above above wh f = Some (hidden f above wh, f') /\ same_view f f'.
Proof.
  revert f. induction above as [|[r w] above IH]; intros f Hok; cbn [whiteout_above]; [by exists f|]. apply Forall_cons in Hok as [Hr Hok]. cbn [fst] in Hr.
  unfold hidden. cbn [existsb fst snd]. fold (hidden f above wh). destruct (negb w || (r =? 0)) eqn:E.
  { replace (w && negb (r =? 0) && _) with false; [by apply IH|]. destruct w, (r =? 0); done. }
  apply orb_false_iff in E as [Ew%negb_false_iff Er]. rewrite Ew, Er. cbn [negb andb]. destruct Hr as [->|Hd]; [done|].
  destruct (lookup_law f r wh Hd) as (err & v & f1 & -> & Hv1 & Hc). cbn [mbind option_bind]. destruct (sees f r wh) as [ty|] eqn:Es.
  - destruct Hc as (-> & _ & Hty). change (0 =? 0) with true. cbv iota. destruct (unref_law f1 v ty Hty) as (f2 & -> & Hv2). cbn [mbind option_bind orb].
    exists f2. split; [done|]. by etrans.
  - replace (err =? 0) with false by lia. cbn [orb]. destruct (IH f1) as (f2 & -> & Hv2); [by eapply layers_ok_view|]. exists f2.
    rewrite (hidden_view f f1 above wh Hv1 Hok). split; [done|]. by etrans.
Qed.

(** ** Looking up *)

(** Every vnode that was collected exists. *)
Definition known f (roots : list Z) : Prop := Forall (fun r => r = 0 \/ is_Some (vn_type r f)) roots.

Lemma known_view f f' roots : same_view f f' -> known f roots -> known f' roots.
Proof. intros Hv Hk. eapply Forall_impl; [exact Hk|]. intros r [?|[ty Hty]]; [by left|right]. exists ty. by apply (sv_type _ _ Hv). Qed.

Lemma known_insert f roots i v ty : known f roots -> vn_type v f = Some ty -> known f (<[i := v]> roots).
Proof. intros Hk Hv. apply Forall_insert; [done|]. right. by exists ty. Qed.

Lemma unref_all_ok roots : forall f, known f roots -> exists f', unref_all roots f = Some f' /\ same_view f f'.
Proof.
  induction roots as [|r roots IH]; intros f Hk; cbn [unref_all]; [by exists f|]. apply Forall_cons in Hk as [Hr Hk].
  destruct (Z.eqb_spec r 0); cbn [mbind option_bind]; [by apply IH|]. destruct Hr as [?|[ty Hty]]; [done|].
  destruct (unref_law f r ty Hty) as (f1 & -> & Hv1). cbn [mbind option_bind]. destruct (IH f1) as (f2 & E & Hv2); [by eapply known_view|].
  exists f2. split; [done|]. by etrans.
Qed.

(** Once a directory was found the search only collects more of them. *)
Lemma lookup_layers_dir name wh : forall rest above i child f r0 i0, layers_ok f (above ++ rest) ->
  list_find (fun r => r <> 0) child = Some (i0, r0) -> (i0 < i)%nat -> (i + length rest <= length child)%nat -> known f child ->
  exists child' f', lookup_layers above rest i name wh (Some Directory) child f = Some (Some Directory, child', f') /\ same_view f f'
    /\ list_find (fun r => r <> 0) child' = Some (i0, r0) /\ known f' child'.
Proof.
  induction rest as [|[r w] rest IH]; intros above i child f r0 i0 Hok Hf Hi Hlen Hk; cbn [lookup_layers]; [by exists child, f|]. cbn [length] in Hlen.
  assert (layers_ok f ((above ++ [(r, w)]) ++ rest)) as Hok' by (by rewrite <- app_assoc).
  pose proof Hok as Hok0. apply Forall_app in Hok0 as [Ha Hr]. apply Forall_cons in Hr as [Hr _]. cbn [fst] in Hr.
  destruct (Z.eqb_spec r 0) as [->|Hne]; [apply IH; [done|done|lia|lia|done]|]. destruct Hr as [?|Hd]; [done|].
  destruct (whiteout_above_ok f above wh Ha) as (f1 & -> & Hv1). cbn [mbind option_bind].
  destruct (hidden f above wh); [exists child, f1; split_and!; [done|done|done|by eapply known_view]|].
  destruct (lookup_law f1 r name (sv_dir _ _ Hv1 r Hd)) as (err & v & f2 & -> & Hv2 & Hc). cbn [mbind option_bind].
  assert (same_view f f2) as Hv by (by etrans). rewrite (same_view_sees f f1 r name Hv1 Hd) in Hc.
  destruct (sees f r name) as [ty|].
  - destruct Hc as (-> & Hv0 & Hty). change (0 =? 0) with true. cbv iota. rewrite Hty. cbn [mbind option_bind default]. 
    rewrite (bool_decide_false (Directory = File)) by done.
    destruct ty.
    + rewrite bool_decide_false by done. destruct (unref_law f2 v File Hty) as (f3 & -> & Hv3). cbn [mbind option_bind]. exists child, f3.
      assert (same_view f f3) by (by etrans). split_and!; [done|done|done|by eapply known_view].
    + rewrite bool_decide_true by done. destruct (IH (above ++ [(r, w)]) (Datatypes.S i) (<[i := v]> child) f2 r0 i0) as (c' & f' & E & Hv' & Hf' & Hk').
      * by eapply layers_ok_view.
      * apply list_find_Some. apply list_find_Some in Hf as (Q1 & Q2 & Q3). split_and!; [by rewrite list_lookup_insert_ne by lia|done|].
        intros j y Hj Hji. rewrite list_lookup_insert_ne in Hj by lia. naive_solver.
      * lia.
      * rewrite length_insert. lia.
      * eapply known_insert; [by eapply known_view|done].
      * exists c', f'. split_and!; [done|by etrans|done|done].
  - replace (err =? 0) with false by lia. destruct (IH (above ++ [(r, w)]) (Datatypes.S i) child f2 r0 i0) as (c' & f' & E & Hv' & Hf' & Hk'); [by eapply layers_ok_view|done|lia|lia|by eapply known_view|].
    exists c', f'. split_and!; [done|by etrans|done|done].
Qed.

(** The search finds what the merged view shows, and the first vnode that it
    collects has that type. *)
Lemma lookup_layers_ok name wh : forall rest above i child f, layers_ok f (above ++ rest) ->
  Forall (fun r => r = 0) child -> (i + length rest <= length child)%nat ->
  exists child' f', lookup_layers above rest i name wh None child f = Some (visible f above rest name wh, child', f') /\ same_view f f' /\ known f' child'
    /\ (forall ty, visible f above rest name wh = Some ty ->
          exists i0 r0, list_find (fun r => r <> 0) child' = Some (i0, r0) /\ (i0 < i + length rest)%nat /\ vn_type r0 f' = Some ty).
Proof.
  induction rest as [|[r w] rest IH]; intros above i child f Hok Hz Hlen; cbn [lookup_layers visible].
  { exists child, f. split_and!; [done|done| |done]. eapply Forall_impl; [exact Hz|]. intros r ->. by left. }
  cbn [length] in *.
  assert (forall f', known f' child) as Hk. { intros f'. eapply Forall_impl; [exact Hz|]. intros r' ->. by left. }
  assert (layers_ok f ((above ++ [(r, w)]) ++ rest)) as Hok' by (by rewrite <- app_assoc).
  pose proof Hok as Hok0. apply Forall_app in Hok0 as [Ha Hr]. apply Forall_cons in Hr as [Hr _]. cbn [fst] in Hr.
  destruct (Z.eqb_spec r 0) as [->|Hne].
  { destruct (IH (above ++ [(0, w)]) (Datatypes.S i) child f Hok' Hz ltac:(lia)) as (c' & f' & E & Hv & Hk' & Hf). exists c', f'. split; [done|]. split; [done|]. split; [done|].
    intros ty (i0 & r0 & ? & ? & ?)%Hf. exists i0, r0. split_and!; [done|lia|done]. }
  destruct Hr as [?|Hd]; [done|].
  destruct (whiteout_above_ok f above wh Ha) as (f1 & -> & Hv1). cbn [mbind option_bind]. destruct (hidden f above wh) eqn:Eh.
  { exists child, f1. split; [done|]. split; [done|]. done. }
  destruct (lookup_law f1 r name (sv_dir _ _ Hv1 r Hd)) as (err & v & f2 & -> & Hv2 & Hc). cbn [mbind option_bind].
  assert (same_view f f2) as Hv by (by etrans). rewrite (same_view_sees f f1 r name Hv1 Hd) in Hc.
  destruct (sees f r name) as [ty|].
  - destruct Hc as (-> & Hv0 & Hty). change (0 =? 0) with true. cbv iota. rewrite Hty. cbn [mbind option_bind default].
    assert (list_find (fun r => r <> 0) (<[i := v]> child) = Some (i, v)) as Hfind.
    { apply list_find_Some. split_and!; [apply list_lookup_insert_eq; lia|done|]. intros j y Hj Hji. rewrite list_lookup_insert_ne in Hj by lia.
      rewrite Forall_forall in Hz. specialize (Hz y (list_elem_of_lookup_2 _ _ _ Hj)). naive_solver. }
    destruct ty.
    + rewrite bool_decide_true by done. exists (<[i := v]> child), f2. split; [done|]. split; [done|]. split; [by eapply known_insert|]. intros ty [= <-]. exists i, v. split_and!; [done|lia|done].
    + rewrite (bool_decide_false (Directory = File)) by done. rewrite bool_decide_true by done.
      destruct (lookup_layers_dir name wh rest (above ++ [(r, w)]) (Datatypes.S i) (<[i := v]> child) f2 v i) as (c' & f' & E & Hv' & Hf' & Hk');
        [by eapply layers_ok_view|done|lia|rewrite length_insert; lia|by eapply known_insert|].
      exists c', f'. split; [done|]. split; [by etrans|]. split; [done|]. intros ty [= <-]. exists i, v. split_and!; [done|lia|]. by apply (sv_type _ _ Hv').
  - replace (err =? 0) with false by lia. destruct (IH (above ++ [(r, w)]) (Datatypes.S i) child f2) as (c' & f' & E & Hv' & Hk' & Hf'); [by eapply layers_ok_view|done|lia|].
    rewrite (visible_view f f2 name wh Hv rest (above ++ [(r, w)]) Hok') in E, Hf'.
    exists c', f'. split; [done|]. split; [by etrans|]. split; [done|]. intros ty (i0 & r0 & ? & ? & ?)%Hf'. exists i0, r0. split_and!; [done|lia|done].
Qed.

Lemma no_roots_zero : Forall (fun r => r = 0) no_roots.
Proof. apply Forall_replicate. done. Qed.

(** C17. Looking up a name in a merged directory: it is found exactly when the
    merged view shows it, that is when some layer has it and no whiteout above
    hides this layer.  The new vnode has the type of the topmost one, and reads
    and writes go to a vnode of that type; no layer changes.  Without memory
    the lookup is refused. *)
Theorem overlay_lookup_spec (s : overlay F) dir p o name :
  ovn_of dir s = Some (p, o) -> (length (g_layers s) <= MAX_LAYERS)%nat -> layers_ok (lower s) (layers_of o s) ->
  exists err v s', overlay_lookup dir name s = Some (err, v, s') /\ same_view (lower s) (lower s')
  /\ match visible_name (lower s) (layers_of o s) name with
     | None => err = E_NOT_FOUND \/ err = E_NO_SPACE
     | Some ty => err = E_NO_SPACE
         \/ (err = 0 /\ v <> 0 /\ v_type <$> ov_vnodes s' !! v = Some ty
             /\ exists q o' r, ovn_of v s' = Some (q, o') /\ first_root o' s' = Some r /\ vn_type r (lower s') = Some ty)
     end.
Proof.
  intros Ho Hlen Hok. unfold overlay_lookup. rewrite Ho. cbn [mbind option_bind]. unfold alloc_overlay_vnode, kalloc.
  pose proof (kalloc_law (lower s) sizeof_OverlayVnode 8) as Hv0. destruct (fs_kalloc sizeof_OverlayVnode 8 (lower s)) as [c f0]. cbn [snd] in Hv0.
  destruct (Z.eqb_spec c 0) as [->|Hc].
  { do 3 eexists. split; [done|]. split; [done|]. destruct (visible_name _ _ _); [by left|by right]. }
  replace (c =? 0) with false by lia. cbv beta iota zeta.
  match goal with |- context [lookup_layers [] ?l 0 _ _ _ _ ?ff] => change l with (layers_of o s); change ff with f0 end.
  assert (length (layers_of o s) <= length (g_layers s))%nat as Hl by (unfold layers_of; rewrite length_zip_with, length_fmap; lia).
  set (ls := layers_of o s) in *. clearbody ls. unfold MAX_LAYERS in Hlen.
  destruct (lookup_layers_ok name (make_whiteout_name name 256) ls [] 0 no_roots f0) as (roots & f1 & E & Hv1 & Hk & Hf);
    [by eapply layers_ok_view|apply no_roots_zero|unfold no_roots, MAX_LAYERS; rewrite length_replicate; lia|].
  rewrite (visible_view (lower s) f0 name _ Hv0 ls [] Hok) in E, Hf. fold (visible_name (lower s) ls name) in E, Hf.
  rewrite E. cbn [mbind option_bind]. assert (same_view (lower s) f1) as Hv by (by etrans).
  destruct (visible_name (lower s) ls name) as [ty|].
  2:{ do 3 eexists. split; [done|]. split; [|by left]. cbn. etrans; [exact Hv|apply kfree_law]. }
  unfold alloc_vnode, kalloc. cbn [lower set_ov_node set_lower]. pose proof (kalloc_law f1 sizeof_Vnode 8) as Hv2.
  destruct (fs_kalloc sizeof_Vnode 8 f1) as [v f2]. cbn [snd] in Hv2. destruct (Z.eqb_spec v 0) as [->|Hvz].
  { change (0 =? 0) with true. cbv iota. cbn [lower g_layers set_lower set_ov_node].
    destruct (unref_all_ok (take (length (g_layers s)) roots) f2) as (f3 & -> & Hv3). { apply Forall_take. by eapply known_view. }
    cbn [mbind option_bind]. do 3 eexists. split; [done|]. split; [|by left]. cbn. etrans; [exact Hv|]. etrans; [exact Hv2|]. etrans; [exact Hv3|apply kfree_law]. }
  replace (v =? 0) with false by lia. do 3 eexists. split; [done|]. split; [cbn; by etrans|]. right. split; [done|]. split; [done|].
  cbn [ov_vnodes set_ov_vnode]. rewrite lookup_insert_eq. split; [done|].
  destruct (Hf ty eq_refl) as (i0 & r0 & Hfind & Hi0 & Hty). exists c, (Build_OverlayVnode roots 0 [] false), r0. split_and!.
  - unfold ovn_of. cbn [ov_vnodes set_ov_vnode]. rewrite lookup_insert_eq. cbn. by rewrite lookup_insert_eq.
  - unfold first_root. cbn [layer_roots g_layers set_ov_vnode set_lower set_ov_node].
    assert (list_find (fun r => r <> 0) (take (length (g_layers s)) roots) = Some (i0, r0)) as ->; [|done].
    apply list_find_Some in Hfind as (Q1 & Q2 & Q3). apply list_find_Some.
    assert (i0 < length (g_layers s))%nat by (cbn in Hi0; lia).
    split_and!; [by rewrite lookup_take_lt by lia|done|]. intros j y Hj Hji. rewrite lookup_take_lt in Hj by lia. by eapply Q3.
  - cbn. by apply (sv_type _ _ Hv2).
Qed.

(** ** Listing *)

Lemma name_eq_spec a b : name_eq a b = true <-> a = b.
Proof.
  revert b. induction a as [|x a IH]; intros [|y b]; cbn; try done. destruct (Z.eqb_spec x y) as [->|]; [rewrite IH|]; split; congruence.
Qed.

Lemma hidden_app f l1 l2 wh : hidden f (l1 ++ l2) wh = hidden f l1 wh || hidden f l2 wh.
Proof. apply existsb_app. Qed.

(** One more layer below. *)
Lemma visible_snoc f name wh r w : forall rest above,
  visible f above (rest ++ [(r, w)]) name wh = match visible f above rest name wh with
    | Some ty => Some ty
    | None => if (r =? 0) || hidden f (above ++ rest) wh then None else sees f r name end.
Proof.
  induction rest as [|[r1 w1] rest IH]; intros above; cbn [visible app].
  - rewrite app_nil_r. destruct (r =? 0); [done|]. cbn [orb]. destruct (hidden f above wh); [done|]. by destruct (sees f r name).
  - rewrite IH, <- app_assoc. cbn [app]. destruct (r1 =? 0); [done|]. destruct (hidden f above wh) eqn:Eh; [|by destruct (sees f r1 name)].
    rewrite hidden_app, Eh. cbn [orb]. by rewrite orb_true_r.
Qed.

(** What the merged list holds after the layers [ls] and the entries [ds] of the
    next one. *)
Definition merged_upto f ls (ds : list Dirent) (acc : list Dirent) : Prop :=
  NoDup (dirent_name <$> acc) /\
  forall name ty, Build_Dirent name ty ∈ acc <->
    has_whiteout_prefix name = false
    /\ (visible_name f ls name = Some ty
        \/ (visible_name f ls name = None /\ hidden f ls (make_whiteout_name name 256) = false /\ named ds name = Some ty)).

Lemma named_snoc ds d name :
  named (ds ++ [d]) name = match named ds name with Some ty => Some ty | None => if decide (dirent_name d = name) then Some (dirent_type d) else None end.
Proof.
  unfold named. destruct (list_find (fun d => dirent_name d = name) ds) as [[i e]|] eqn:E.
  - by rewrite (list_find_app_l _ _ _ _ _ E).
  - rewrite (list_find_app_r _ _ _ E). cbn. by case_decide.
Qed.

Lemma named_snoc_ne ds d name : dirent_name d <> name -> named (ds ++ [d]) name = named ds name.
Proof. intros Hne. rewrite named_snoc. destruct (named ds name); [done|]. by case_decide. Qed.

Lemma acc_named f ls ds acc name : merged_upto f ls ds acc ->
  existsb (fun m => name_eq (dirent_name m) name) acc = true <->
  has_whiteout_prefix name = false
  /\ (visible_name f ls name <> None \/ (hidden f ls (make_whiteout_name name 256) = false /\ named ds name <> None)).
Proof.
  intros [_ Hm]. rewrite existsb_exists. split.
  - intros ([n ty] & Hin%list_elem_of_In & Hn%name_eq_spec). cbn in Hn. subst n. apply Hm in Hin as [Hp [Hv|(Hv & Hh & Hn)]]; (split; [done|]).
    + left. by rewrite Hv.
    + right. split; [done|]. by rewrite Hn.
  - intros [Hp Hc]. destruct (visible_name f ls name) as [ty|] eqn:Ev.
    + exists (Build_Dirent name ty). split; [|by apply name_eq_spec]. apply list_elem_of_In, Hm. by split; [|left].
    + destruct Hc as [?|[Hh Hn]]; [done|]. destruct (named ds name) as [ty|] eqn:En; [|done].
      exists (Build_Dirent name ty). split; [|by apply name_eq_spec]. apply list_elem_of_In, Hm. by split; [|right].
Qed.

(** One entry of the layer: it is added, or it changes nothing. *)
Lemma merge_step f ls ds acc d : merged_upto f ls ds acc -> (length (dirent_name d) <= 255)%nat ->
  merged_upto f ls (ds ++ [d])
    (if has_whiteout_prefix (dirent_name d) then acc
     else if hidden f ls (make_whiteout_name (dirent_name d) 256) then acc
     else if existsb (fun m => name_eq (dirent_name m) (dirent_name d)) acc then acc
     else acc ++ [Build_Dirent (copy_string (dirent_name d) 256) (dirent_type d)]).
Proof.
  intros Hm Hlen. pose proof (acc_named f ls ds acc (dirent_name d) Hm) as Ha. destruct Hm as [Hnd Hm].
  rewrite copy_string_fits by lia. replace (Build_Dirent (dirent_name d) (dirent_type d)) with d by (by destruct d).
  destruct (has_whiteout_prefix (dirent_name d)) eqn:Ep.
  { split; [done|]. intros name ty. rewrite Hm. destruct (decide (dirent_name d = name)) as [<-|Hd]; [rewrite Ep; naive_solver|by rewrite named_snoc_ne]. }
  destruct (hidden f ls (make_whiteout_name (dirent_name d) 256)) eqn:Eh.
  { split; [done|]. intros name ty. rewrite Hm. destruct (decide (dirent_name d = name)) as [<-|Hd]; [rewrite Eh; naive_solver|by rewrite named_snoc_ne]. }
  destruct (existsb _ acc) eqn:Ee.
  { destruct (proj1 Ha eq_refl) as [_ Hc]. split; [done|]. intros name ty. rewrite Hm. destruct (decide (dirent_name d = name)) as [<-|Hd]; [|by rewrite named_snoc_ne].
    rewrite named_snoc. destruct (visible_name f ls (dirent_name d)); [naive_solver|]. destruct Hc as [?|[_ Hn]]; [done|]. by destruct (named ds (dirent_name d)). }
  assert (visible_name f ls (dirent_name d) = None /\ named ds (dirent_name d) = None) as [Ev En].
  { split; [destruct (visible_name f ls (dirent_name d)) eqn:E1; [|done]|destruct (named ds (dirent_name d)) eqn:E1; [|done]];
      exfalso; (assert (false = true) by (apply Ha; naive_solver)); done. }
  split.
  - rewrite fmap_app. apply NoDup_app. split; [done|]. split; [|apply NoDup_singleton]. intros n Hin Hn%list_elem_of_singleton. cbn in Hn. subst n.
    apply list_elem_of_fmap in Hin as ([n ty] & En' & Hin). cbn in En'. subst n. apply Hm in Hin as [_ [Hv|(_ & _ & Hn)]]; [by rewrite Ev in Hv|by rewrite En in Hn].
  - intros name ty. rewrite elem_of_app, list_elem_of_singleton, Hm. destruct (decide (dirent_name d = name)) as [<-|Hd].
    + rewrite named_snoc, Ev, En, decide_True by done. split.
      * intros [(_ & [?|(_ & _ & ?)])|<-]; [done|done|]. cbn. split; [done|]. by right.
      * intros (_ & [?|(_ & _ & [= <-])]); [done|]. right. by destruct d.
    + rewrite named_snoc_ne by done. split; [intros [?|<-]; [done|done]|by left].
Qed.

Lemma merge_entries_ok f0 above root : layers_ok f0 above -> layer_dir f0 root -> Z.of_nat (length (listing f0 root)) < 2 ^ 62 ->
  forall fuel k acc f, same_view f0 f -> (length (listing f0 root) < fuel + k)%nat -> (k <= length (listing f0 root))%nat ->
  merged_upto f0 above (take k (listing f0 root)) acc ->
  exists acc' f', merge_entries fuel above root (Z.of_nat k) acc f = Some (acc', f') /\ same_view f0 f' /\ merged_upto f0 above (listing f0 root) acc'.
Proof.
  intros Ha Hd Hsz. induction fuel as [|fuel IH]; intros k acc f Hv Hf Hk Hm; [lia|]. cbn [merge_entries].
  destruct (readdir_law f root k (sv_dir _ _ Hv root Hd) ltac:(lia)) as (err & d & off & f1 & -> & Hv1 & Hc). cbn [mbind option_bind].
  rewrite (sv_listing _ _ Hv root Hd) in Hc. assert (same_view f0 f1) as Hv01 by (by etrans).
  destruct (listing f0 root !! k) as [d'|] eqn:El.
  2:{ replace (err =? 0) with false by lia. cbn [negb]. exists acc, f1. split; [done|]. split; [done|].
      apply lookup_ge_None in El. by rewrite take_ge in Hm by lia. }
  destruct Hc as (-> & -> & ->). change (0 =? 0) with true. cbn [negb]. pose proof (names_law f0 root d' Hd (list_elem_of_lookup_2 _ _ _ El)) as Hlen.
  pose proof (merge_step f0 above _ acc d' Hm Hlen) as Hstep. rewrite <- (take_S_r _ _ _ El) in Hstep.
  assert (forall acc f, same_view f0 f -> merged_upto f0 above (take (Datatypes.S k) (listing f0 root)) acc ->
    exists acc' f', merge_entries fuel above root (Z.of_nat k + 1) acc f = Some (acc', f') /\ same_view f0 f' /\ merged_upto f0 above (listing f0 root) acc') as Hnext.
  { intros acc2 f2 Hv2 Hm2. replace (Z.of_nat k + 1) with (Z.of_nat (Datatypes.S k)) by lia. apply lookup_lt_Some in El. apply IH; [done|lia|lia|done]. }
  destruct (has_whiteout_prefix (dirent_name d')); [by apply Hnext|].
  destruct (whiteout_above_ok f1 above (make_whiteout_name (dirent_name d') 256)) as (f2 & -> & Hv2); [by eapply layers_ok_view|]. cbn [mbind option_bind].
  rewrite (hidden_view f0 f1 above _ Hv01 Ha). assert (same_view f0 f2) by (by etrans).
  destruct (hidden f0 above _); [by apply Hnext|]. destruct (existsb _ acc); by apply Hnext.
Qed.

(** The listings of all layers are within the bound of the model. *)
Definition listings_small f ls : Prop := Forall (fun l => (length (listing f l.1) < dir_fuel)%nat) ls.

Lemma dir_fuel_val : Z.of_nat dir_fuel = 4096.
Proof. done. Qed.
#[local] Opaque dir_fuel.

Lemma merged_next f ls r w acc : merged_upto f ls (if r =? 0 then [] else listing f r) acc -> merged_upto f (ls ++ [(r, w)]) [] acc.
Proof.
  intros [Hnd Hm]. split; [done|]. intros name ty. rewrite Hm. unfold visible_name. rewrite visible_snoc. cbn [app].
  unfold named at 2. cbn [list_find fmap option_fmap option_map].
  destruct (visible f [] ls name (make_whiteout_name name 256)) as [ty'|]; [naive_solver|]. unfold sees. destruct (r =? 0); cbn [orb]; [naive_solver|].
  destruct (hidden f ls (make_whiteout_name name 256)); naive_solver.
Qed.

Lemma merge_layers_ok f0 : forall rest above acc f, layers_ok f0 (above ++ rest) -> listings_small f0 rest -> same_view f0 f ->
  merged_upto f0 above [] acc ->
  exists acc' f', merge_layers above rest acc f = Some (acc', f') /\ same_view f0 f' /\ merged_upto f0 (above ++ rest) [] acc'.
Proof.
  induction rest as [|[r w] rest IH]; intros above acc f Hok Hs Hv Hm; cbn [merge_layers]; [exists acc, f; by rewrite app_nil_r|].
  apply Forall_cons in Hs as [Hsr Hs]. cbn [fst] in Hsr. pose proof dir_fuel_val.
  assert (layers_ok f0 ((above ++ [(r, w)]) ++ rest)) as Hok' by (by rewrite <- app_assoc).
  pose proof Hok as Hok0. apply Forall_app in Hok0 as [Ha Hr]. apply Forall_cons in Hr as [Hr _]. cbn [fst] in Hr.
  replace (above ++ (r, w) :: rest) with ((above ++ [(r, w)]) ++ rest) by (by rewrite <- app_assoc).
  destruct (Z.eqb_spec r 0) as [->|Hne].
  - apply IH; [done|done|done|]. apply merged_next. done.
  - destruct Hr as [?|Hd]; [done|]. destruct (merge_entries_ok f0 above r Ha Hd ltac:(lia) dir_fuel 0 acc f Hv ltac:(lia) ltac:(lia) Hm) as (acc1 & f1 & E & Hv1 & Hm1).
    change (Z.of_nat 0) with 0 in E. rewrite E. cbn [mbind option_bind]. apply IH; [done|done|done|]. apply merged_next. by replace (r =? 0) with false by lia.
Qed.

(** ** Counting *)

Definition total_entries f ls : Z := foldr (fun l n => (if l.1 =? 0 then 0 else Z.of_nat (length (listing f l.1))) + n) 0 ls.

Lemma count_entries_ok f0 root : layer_dir f0 root -> Z.of_nat (length (listing f0 root)) < 2 ^ 62 ->
  forall fuel k total f, same_view f0 f -> (length (listing f0 root) < fuel + k)%nat -> (k <= length (listing f0 root))%nat ->
  exists f', count_entries fuel root (Z.of_nat k) total f = Some (total + (Z.of_nat (length (listing f0 root)) - Z.of_nat k), f') /\ same_view f0 f'.
Proof.
  intros Hd Hsz. induction fuel as [|fuel IH]; intros k total f Hv Hf Hk; [lia|]. cbn [count_entries].
  destruct (readdir_law f root k (sv_dir _ _ Hv root Hd) ltac:(lia)) as (err & d & off & f1 & -> & Hv1 & Hc). cbn [mbind option_bind].
  rewrite (sv_listing _ _ Hv root Hd) in Hc. assert (same_view f0 f1) as Hv01 by (by etrans).
  destruct (listing f0 root !! k) as [d'|] eqn:El.
  - destruct Hc as (-> & _ & ->). change (0 =? 0) with true. cbv iota. apply lookup_lt_Some in El. replace (Z.of_nat k + 1) with (Z.of_nat (Datatypes.S k)) by lia.
    destruct (IH (Datatypes.S k) (total + 1) f1 Hv01 ltac:(lia) ltac:(lia)) as (f' & -> & Hv'). exists f'. split; [|done]. do 2 f_equal. lia.
  - replace (err =? 0) with false by lia. apply lookup_ge_None in El. exists f1. split; [|done]. do 2 f_equal. lia.
Qed.

Lemma count_layers_ok f0 : forall ls total f, layers_ok f0 ls -> listings_small f0 ls -> same_view f0 f ->
  exists f', count_layers ls total f = Some (total + total_entries f0 ls, f') /\ same_view f0 f'.
Proof.
  induction ls as [|[r w] ls IH]; intros total f Hok Hs Hv; cbn [count_layers total_entries foldr fst]; [exists f; by rewrite Z.add_0_r|].
  apply Forall_cons in Hok as [Hr Hok]. apply Forall_cons in Hs as [Hsr Hs]. cbn [fst] in Hr, Hsr. pose proof dir_fuel_val. fold (total_entries f0 ls).
  destruct (Z.eqb_spec r 0) as [->|Hne]; [rewrite Z.add_0_l; by apply IH|]. destruct Hr as [?|Hd]; [done|].
  destruct (count_entries_ok f0 r Hd ltac:(lia) dir_fuel 0 total f Hv ltac:(lia) ltac:(lia)) as (f1 & E & Hv1). change (Z.of_nat 0) with 0 in E. rewrite E.
  cbn [mbind option_bind]. destruct (IH (total + (Z.of_nat (length (listing f0 r)) - 0)) f1 Hok Hs Hv1) as (f2 & -> & Hv2). exists f2. split; [|done]. do 2 f_equal. lia.
Qed.

Lemma total_entries_nonneg f ls : 0 <= total_entries f ls.
Proof. unfold total_entries. induction ls as [|l ls IH]; cbn [foldr]; [done|]. case_match; lia. Qed.

(** Without entries nothing is visible. *)
Lemma visible_empty f name wh : forall rest above, total_entries f rest = 0 -> visible f above rest name wh = None.
Proof.
  induction rest as [|[r w] rest IH]; intros above Ht; cbn [visible]; [done|]. cbn [total_entries foldr fst] in Ht. fold (total_entries f rest) in Ht.
  pose proof (total_entries_nonneg f rest). destruct (r =? 0); [apply IH; lia|]. destruct (hidden f above wh); [done|].
  assert (listing f r = []) as E by (apply length_zero_iff_nil; lia). unfold sees. rewrite E. cbn. apply IH. lia.
Qed.

(** Listing a merged directory for the first time: every layer is read, none
    changes, and what is kept for this and every later listing are, without
    repetition, exactly the names that a lookup would find, each with the type
    that the lookup would give it; whiteouts are not shown.  Only without
    memory for the list it is empty. *)
Theorem overlay_listing_spec (s : overlay F) dir p o :
  ovn_of dir s = Some (p, o) -> cached o = false -> layers_ok (lower s) (layers_of o s) -> listings_small (lower s) (layers_of o s) ->
  exists s' o', build_merged_list p o s = Some s' /\ ovn_of dir s' = Some (p, o') /\ cached o' = true /\ layer_roots o' = layer_roots o
    /\ same_view (lower s) (lower s') /\ NoDup (dirent_name <$> merged_entries o')
    /\ ((merged o' = 0 /\ merged_entries o' = [])
        \/ forall name ty, Build_Dirent name ty ∈ merged_entries o' <->
             has_whiteout_prefix name = false /\ visible_name (lower s) (layers_of o s) name = Some ty).
Proof.
  intros Ho Hc Hok Hs. unfold build_merged_list. rewrite Hc.
  assert (exists vn, ov_vnodes s !! dir = Some vn /\ private_data vn = p) as (vn & Evn & Ep).
  { unfold ovn_of in Ho. destruct (ov_vnodes s !! dir) as [vn|]; [|done]. cbn in Ho. destruct (ov_nodes s !! private_data vn); [|done]. cbn in Ho. simplify_eq. by exists vn. }
  assert (forall o' (s1 : overlay F), ov_vnodes s1 = ov_vnodes s -> ovn_of dir (set_ov_node p o' s1) = Some (p, o')) as Hset.
  { intros o' s1 E1. unfold ovn_of. cbn [ov_vnodes set_ov_node ov_nodes]. rewrite E1, Evn. cbn [mbind option_bind]. rewrite Ep, lookup_insert_eq. done. }
  destruct (count_layers_ok (lower s) (layers_of o s) 0 (lower s) Hok Hs (reflexivity _)) as (f1 & -> & Hv1). cbn [mbind option_bind]. rewrite Z.add_0_l.
  destruct (Z.eqb_spec (total_entries (lower s) (layers_of o s)) 0) as [Ez|Hnz].
  { do 2 eexists. split; [done|]. split; [by apply Hset|]. cbn. split_and!; [done|done|done|constructor|]. right. intros name ty.
    unfold visible_name. rewrite visible_empty by done. split; [by intros ?%elem_of_nil|by intros [_ ?]]. }
  unfold kalloc. cbn [lower set_lower]. pose proof (kalloc_law f1 (total_entries (lower s) (layers_of o s) *64 sizeof_MergedEntry) 1) as Hv2.
  destruct (fs_kalloc _ 1 f1) as [m f2]. cbn [snd] in Hv2. assert (same_view (lower s) f2) as Hv by (by etrans).
  destruct (Z.eqb_spec m 0) as [->|Hm].
  { do 2 eexists. split; [done|]. split; [by apply Hset|]. cbn. split_and!; [done|done|done|constructor|]. by left. }
  destruct (merge_layers_ok (lower s) (layers_of o s) [] [] f2 Hok Hs Hv) as (es & f3 & E & Hv3 & Hm3).
  { split; [constructor|]. intros name ty. cbn. split; [intros Hin; by apply elem_of_nil in Hin|]. intros (_ & [?|(_ & _ & ?)]); done. }
  cbn [lower set_lower]. rewrite E. cbn [mbind option_bind]. do 2 eexists. split; [done|]. split; [by apply Hset|].
  cbn [cached layer_roots merged merged_entries lower set_ov_node set_lower]. destruct Hm3 as [Hnd Hiff]. split_and!; [done|done|done|done|]. right. intros name ty.
  rewrite Hiff. cbn. naive_solver.
Qed.

End Merged.

(** * The in-memory filesystem as a layer *)

#[export] Instance ramfs_layer_ops {A} `{KMem A} : LayerOps (ramfs A) := {|
  op_rmdir := ramfs_rmdir;
  op_unlink := ramfs_unlink;
  fs_kalloc := Ramfs.kalloc;
  fs_kfree := Ramfs.kfree;
|}.

Section RamfsLayer.
Context {A : Type} `{KMem A}.
Implicit Types (s : ramfs A).

Definition vtype (s : ramfs A) (v : Z) : VnodeType := match vnodes s !! v with Some n => v_type n | None => File end.

Definition entry_ok s (e : RamfsEntry) : Prop := e_vnode e <> 0 /\ is_Some (vnodes s !! e_vnode e) /\ (length (e_name e) <= 255)%nat.

Definition ram_entries s (dir : Z) : list RamfsEntry :=
  match (dv ← vnodes s !! dir; dirs s !! private_data dv) with Some d => d_entries d | None => [] end.

#[global] Instance ramfs_layer_view : LayerView (ramfs A) := {|
  layer_dir s dir := exists dv d, vnodes s !! dir = Some dv /\ dirs s !! private_data dv = Some d /\ Forall (entry_ok s) (d_entries d);
  listing s dir := (fun e => Build_Dirent (e_name e) (vtype s (e_vnode e))) <$> ram_entries s dir;
|}.

(** Only reference counts and the allocator change. *)
Lemma ram_same_view s s' :
  dirs s' = dirs s ->
  (forall v n, vnodes s !! v = Some n -> exists n', vnodes s' !! v = Some n' /\ v_type n' = v_type n /\ private_data n' = private_data n) ->
  same_view s s'.
Proof.
  intros Hd Hv. assert (forall v ty, v_type <$> vnodes s !! v = Some ty -> v_type <$> vnodes s' !! v = Some ty) as Ht.
  { intros v ty. destruct (vnodes s !! v) as [n|] eqn:E; [|done]. intros [= <-]. destruct (Hv v n E) as (n' & -> & Et & _). cbn. by rewrite Et. }
  split.
  - intros dir (dv & d & E1 & E2 & Hf). destruct (Hv dir dv E1) as (dv' & E1' & _ & Ep). exists dv', d. rewrite Hd, Ep. split_and!; [done|done|].
    eapply Forall_impl; [exact Hf|]. intros e (Q1 & [n Hn] & Q2). split_and!; [done| |done]. destruct (Hv _ n Hn) as (n' & Hn' & _). by exists n'.
  - intros dir (dv & d & E1 & E2 & Hf). destruct (Hv dir dv E1) as (dv' & E1' & _ & Ep). cbn. unfold ram_entries. rewrite E1, E1'. cbn [mbind option_bind].
    rewrite Hd, Ep, E2. cbn [mbind option_bind]. apply list_fmap_ext. intros i e Hi. f_equal. unfold vtype.
    rewrite Forall_forall in Hf. destruct (Hf e (list_elem_of_lookup_2 _ _ _ Hi)) as (_ & [n Hn] & _). destruct (Hv _ n Hn) as (n' & -> & Et & _). by rewrite Hn.
  - exact Ht.
Qed.

Lemma find_entry_list name es : forall i,
  Ramfs.find_entry name es i = (fun p => (i + p.1)%nat) <$> list_find (fun e => e_name e = name) es.
Proof.
  induction es as [|e es IH]; intros i; cbn [Ramfs.find_entry list_find]; [done|]. destruct (decide (e_name e = name)) as [Hn|Hn].
  - replace (string_equals (e_name e) name) with true by (symmetry; by apply string_equals_spec). cbn. f_equal. lia.
  - replace (string_equals (e_name e) name) with false.
    + rewrite IH. destruct (list_find _ es) as [[j e']|]; cbn; [|done]. f_equal. lia.
    + symmetry. apply not_true_is_false. by rewrite string_equals_spec.
Qed.

Lemma named_fmap (g : RamfsEntry -> VnodeType) es name :
  named ((fun e => Build_Dirent (e_name e) (g e)) <$> es) name = (fun p => g p.2) <$> list_find (fun e => e_name e = name) es.
Proof.
  unfold named. induction es as [|e es IH]; [done|]. cbn [fmap list_fmap list_find dirent_name]. destruct (decide (e_name e = name)); [done|].
  match type of IH with _ <$> ?a = _ <$> ?b => change (list_find _ (list_fmap _ _ _ es)) with a; destruct a as [[i d]|], b as [[j e']|] end; cbn in *; done.
Qed.

#[global] Instance ramfs_layer_laws : LayerLaws (ramfs A).
Proof.
  split.
  - intros s dir name (dv & d & E1 & E2 & Hf). cbn [op_lookup ramfs_vnode_fs]. unfold ramfs_lookup, ramdir_of. rewrite E1. cbn [fmap option_fmap option_map mbind option_bind].
    rewrite E2. cbn [mbind option_bind]. unfold dir_find_entry. rewrite find_entry_list. unfold sees. cbn [listing ramfs_layer_view]. unfold ram_entries. rewrite E1.
    cbn [mbind option_bind]. rewrite E2. cbn [mbind option_bind]. rewrite named_fmap.
    destruct (list_find (fun e => e_name e = name) (d_entries d)) as [[i e]|] eqn:El; cbn [fmap option_fmap option_map fst snd].
    + apply list_find_Some in El as (El & _ & _). cbn [Nat.add]. rewrite El. cbn [mbind option_bind]. exists 0, (e_vnode e), s. split; [done|]. split; [reflexivity|].
      rewrite Forall_forall in Hf. destruct (Hf e (list_elem_of_lookup_2 _ _ _ El)) as (Q1 & [n Hn] & _). split_and!; [done|done|].
      cbn [vn_type ramfs_vnode_fs]. unfold vtype. by rewrite Hn.
    + exists E_NOT_FOUND, 0, s. done.
  - intros s dir k (dv & d & E1 & E2 & Hf) Hk. cbn [op_readdir ramfs_vnode_fs listing ramfs_layer_view]. unfold ramfs_readdir, ramdir_of, ram_entries. rewrite E1.
    cbn [fmap option_fmap option_map mbind option_bind]. rewrite E2. cbn [mbind option_bind]. rewrite list_lookup_fmap. unfold count.
    destruct (d_entries d !! k) as [e|] eqn:El.
    + pose proof (lookup_lt_Some _ _ _ El). replace (Z.of_nat (length (d_entries d)) <=? Z.of_nat k) with false by lia. rewrite Nat2Z.id, El. cbn [mbind option_bind fmap option_fmap option_map].
      rewrite Forall_forall in Hf. destruct (Hf e (list_elem_of_lookup_2 _ _ _ El)) as (Q1 & [n Hn] & Q2). rewrite Hn. cbn [mbind option_bind].
      do 4 eexists. split; [done|]. split; [reflexivity|]. split_and!; [done| |by rewrite wrap_small by lia].
      unfold vtype. rewrite Hn. unfold name_size. by rewrite copy_string_fits by lia.
    + apply lookup_ge_None in El. replace (Z.of_nat (length (d_entries d)) <=? Z.of_nat k) with true by lia. do 4 eexists. split; [done|]. split; [reflexivity|done].
  - intros s v ty Hty. cbn [vn_unref vn_type ramfs_vnode_fs] in *. unfold vnode_unref. destruct (v =? 0); [exists s; split; [done|reflexivity]|].
    destruct (vnodes s !! v) as [n|] eqn:E; [|done]. cbn [mbind option_bind]. destruct (0 <? ref_count n); eexists; (split; [done|]); [|reflexivity].
    apply ram_same_view; [done|]. intros u m Hm. cbn [vnodes set_vnode]. rewrite lookup_insert. case_decide; [|by exists m]. subst u. rewrite E in Hm. injection Hm as <-. by eexists.
  - intros s size al. cbn [fs_kalloc ramfs_layer_ops]. unfold Ramfs.kalloc. destruct (km_kalloc _ _ _) as [p a]. apply ram_same_view; [done|]. intros v n Hn. by exists n.
  - intros s p size. apply ram_same_view; [done|]. intros v n Hn. by exists n.
  - intros s dir d (dv & d0 & E1 & E2 & Hf) Hin. cbn [listing ramfs_layer_view] in Hin. unfold ram_entries in Hin. rewrite E1 in Hin. cbn [mbind option_bind] in Hin.
    rewrite E2 in Hin. cbn [mbind option_bind] in Hin. apply list_elem_of_fmap in Hin as (e & -> & Hin). rewrite Forall_forall in Hf. by apply Hf.
Qed.

End RamfsLayer.
