(* ===== verification/OverlayRoot.v ===== *)
(** Filesystems that allocate as they look names up: FAT and the overlay, which
    is the root of the kernel.  A lookup makes new objects and gives some of
    them back; the objects that others hold stay, which is what the process
    layer relies on.  At the end a program is started from an overlay. *)

From S2P Require Import Prelude MemoryMap Pmm PageAlloc Bytes Slice KAlloc DList Task Vmm AddressSpace KMem VfsBase Ramfs Vfs Keyboard ProcTable ProcTree Process Elf Syscall SysTree Pool Scenario Block Fat FatDemo Overlay OverlaySpec.

(** The allocator of the filesystems and the one of the process layer are the
    same functions. *)
Class OneAllocator (A : Type) `{KMem A} `{KernelAlloc A} := {
  one_kalloc : forall size alignment a, km_kalloc size alignment a = KAlloc.kalloc a size alignment;
  one_kfree : forall p size a, km_kfree p size a = KAlloc.kfree a p size;
}.

#[export] Instance slice_one_allocator {S} `{PageAlloc S} : OneAllocator (slice S).
Proof. by split. Qed.
#[export] Instance pool_one_allocator {S} `{PageAlloc S} : OneAllocator (pool S).
Proof. by split. Qed.

(** The objects that are held in [a] are still held in [a']. *)
Definition keeps_objects {A} `{KernelAlloc A} (a a' : A) : Prop :=
  forall live, ka_wf a live -> exists live', live ⊆ live' /\ ka_wf a' live'.

Section Keeps.
Context {A : Type} `{KernelAlloc A}.
Implicit Types (a : A).

#[export] Instance keeps_objects_preorder : PreOrder (keeps_objects (A := A)).
Proof.
  split; [intros a live Hwf; by exists live|]. intros a1 a2 a3 H12 H23 live Hwf.
  destruct (H12 live Hwf) as (l2 & S2 & W2). destruct (H23 l2 W2) as (l3 & S3 & W3). exists l3. split; [by etrans|done].
Qed.

Lemma kalloc_keeps a size alignment : 0 < size -> keeps_objects a (KAlloc.kalloc a size alignment).2.
Proof.
  intros Hs live Hwf. destruct (KAlloc.kalloc_law a live size alignment Hwf Hs) as [[_ Hw]|(_ & Hn & Hw)]; [by exists live|].
  eexists. split; [by apply insert_subseteq|done].
Qed.

(** An object that is given back in the end. *)
Lemma kalloc_kfree_keeps a a' size alignment : 0 < size ->
  let r := KAlloc.kalloc a size alignment in
  r.1 <> 0 -> keeps_objects r.2 a' -> keeps_objects a (KAlloc.kfree a' r.1 size).
Proof.
  intros Hs r Hr Hk live Hwf. destruct (KAlloc.kalloc_law a live size alignment Hwf Hs) as [[E _]|(_ & Hn & Hw)]; [done|].
  destruct (Hk _ Hw) as (live' & Hsub & Hw'). exists (delete r.1 live'). split.
  - apply map_subseteq_spec. intros p sz Hp. assert (r.1 <> p) as Hne by (intros E; subst r; congruence).
    rewrite lookup_delete_ne by done. eapply lookup_weaken; [|exact Hsub]. by rewrite lookup_insert_ne.
  - apply KAlloc.kfree_law; [done|]. eapply lookup_weaken; [|exact Hsub]. apply lookup_insert_eq.
Qed.
End Keeps.

(** * FAT *)

#[export, refine] Instance fat_memory {D A} : Lens (fat D A) A := {|
  lget := fat_kmem;
  lput a s := Fat (g_fs s) (instances s) (fat_vnodes s) (fat_nodes s) (fat_mem s) a;
|}.
Proof. - done. - by intros []. - done. Defined.

(** A vnode with its node: what was made first is given back when there is no
    memory for the second. *)
Lemma new_vnode_keeps {D A} `{BlockDev D} `{KMem A} `{KernelAlloc A} `{!OneAllocator A} type ops n (f : fat D A) :
  keeps_objects (lget f) (lget (new_vnode type ops n f).2).
Proof.
  unfold new_vnode, Fat.kalloc, Fat.kfree. cbn [lget fat_memory]. rewrite one_kalloc.
  pose proof (kalloc_keeps (fat_kmem f) sizeof_Vnode 8 eq_refl) as K1.
  pose proof (fun a' => kalloc_kfree_keeps (fat_kmem f) a' sizeof_Vnode 8 eq_refl) as K2. cbv zeta in K2.
  destruct (KAlloc.kalloc (fat_kmem f) sizeof_Vnode 8) as [v a1]. cbn [fst snd] in *.
  destruct (Z.eqb_spec v 0) as [->|Hv]; [done|]. cbn [set_fat_kmem fat_kmem]. rewrite one_kalloc.
  pose proof (kalloc_keeps a1 sizeof_FatNode 8 eq_refl) as K3. destruct (KAlloc.kalloc a1 sizeof_FatNode 8) as [q a2]. cbn [fst snd] in *.
  destruct (q =? 0); cbn [snd set_fat_kmem fat_kmem set_fat_vnode set_fat_node].
  - rewrite one_kfree. by apply K2.
  - by etrans.
Qed.

#[export] Instance fat_lookup_memory {D A} `{BlockDev D} `{KMem A} `{KernelAlloc A} `{!OneAllocator A} : LookupMemory (fat D A) A.
Proof.
  split. intros v name f err r f' live Hwf. cbn [op_lookup fat_vnode_fs]. unfold fat_lookup.
  destruct (fat_vnodes f !! v) as [dv|]; [|done]. cbn [mbind option_bind].
  destruct (node_of v f) as [[par fs]|]; [|done]. cbn [mbind option_bind].
  destruct (find_entry _ _ _ _ _ _) as [[| |n]|]; cbn [mbind option_bind]; [intros [= _ _ <-]; eauto|intros [= _ _ <-]; eauto| |done].
  intros E. injection E as E. pose proof (new_vnode_keeps (if negb (Z.land (attributes n) ATTR_DIRECTORY =? 0) then Directory else File) (v_ops dv) n f live Hwf) as Hk.
  rewrite E in Hk. exact Hk.
Qed.

(** * The overlay *)

(** The memory of the layers: counting references allocates nothing, and the
    overlay's objects come from the layers' allocator. *)
Class LayerMemory (F A : Type) `{LayerOps F} `{KernelAlloc A} `{Lens F A} := {
  unref_mem : forall v f f', vn_unref v f = Some f' -> lget f' = lget f;
  layer_kalloc : forall size alignment f, let r := fs_kalloc size alignment f in
    (r.1, lget r.2) = KAlloc.kalloc (lget f) size alignment;
  layer_kfree : forall p size f, lget (fs_kfree p size f) = KAlloc.kfree (lget f) p size;
}.

#[export] Instance ramfs_layer_memory {A} `{KMem A} `{KernelAlloc A} `{!OneAllocator A} : LayerMemory (ramfs A) A.
Proof.
  split.
  - intros v f f'. cbn. unfold Ramfs.vnode_unref. destruct (v =? 0); [by intros [= <-]|]. destruct (vnodes f !! v) as [n|]; cbn; [|done]. by destruct (0 <? ref_count n); intros [= <-].
  - intros size alignment f. cbn. unfold Ramfs.kalloc. rewrite one_kalloc. by destruct (KAlloc.kalloc _ _ _).
  - intros p size f. cbn. by rewrite one_kfree.
Qed.

#[export, refine] Instance overlay_memory {F A} `{Lens F A} : Lens (overlay F) A := {|
  lget s := lget (lower s);
  lput a s := Overlay (g_layers s) (g_initialized s) (ov_vnodes s) (ov_nodes s) (lput a (lower s));
|}.
Proof.
  - intros s a. apply lget_lput.
  - intros []. cbn. by rewrite lput_lget.
  - intros s a b. cbn. by rewrite lput_lput.
Defined.

Section Overlay.
Context {F A : Type} `{LayerOps F} `{KernelAlloc A} `{Lens F A} `{!LookupMemory F A} `{!LayerMemory F A}.
Implicit Types (s : overlay F) (f : F).

Lemma lookup_keeps v name f err r f' : op_lookup v name f = Some (err, r, f') -> keeps_objects (lget f) (lget f').
Proof. intros E live Hwf. by eapply lookup_mem. Qed.

Lemma whiteout_above_keeps above wh : forall f b f', whiteout_above above wh f = Some (b, f') -> keeps_objects (lget f) (lget f').
Proof.
  induction above as [|[root w] above IH]; intros f b f'; cbn [whiteout_above]; [by intros [= _ <-]|].
  destruct (negb w || (root =? 0)); [apply IH|].
  destruct (op_lookup root wh f) as [[[err v] f1]|] eqn:E; [|done]. cbn [mbind option_bind]. apply lookup_keeps in E.
  destruct (err =? 0); [|intros Hr; etrans; [exact E|by eapply IH]].
  destruct (vn_unref v f1) as [f2|] eqn:Eu; [|done]. cbn [mbind option_bind]. apply unref_mem in Eu. intros [= _ <-]. by rewrite Eu.
Qed.

Lemma lookup_layers_keeps name wh rest : forall above i found child f fd ch f',
  lookup_layers above rest i name wh found child f = Some (fd, ch, f') -> keeps_objects (lget f) (lget f').
Proof.
  induction rest as [|[root w] rest IH]; intros above i found child f fd ch f'; cbn [lookup_layers]; [by intros [= _ _ <-]|].
  destruct (root =? 0); [apply IH|].
  destruct (whiteout_above above wh f) as [[b f1]|] eqn:Ew; [|done]. cbn [mbind option_bind]. apply whiteout_above_keeps in Ew.
  destruct b; [by intros [= _ _ <-]|].
  destruct (op_lookup root name f1) as [[[err v] f2]|] eqn:E; [|done]. cbn [mbind option_bind]. apply lookup_keeps in E.
  assert (keeps_objects (lget f) (lget f2)) as K by (by etrans).
  destruct (err =? 0); [|intros Hr; etrans; [exact K|by eapply IH]].
  destruct (vn_type v f2) as [t|]; [|done]. cbn [mbind option_bind].
  case_bool_decide; [by intros [= _ _ <-]|]. case_bool_decide; [intros Hr; etrans; [exact K|by eapply IH]|].
  destruct (vn_unref v f2) as [f3|] eqn:Eu; [|done]. cbn [mbind option_bind]. apply unref_mem in Eu. intros [= _ _ <-]. by rewrite Eu.
Qed.

Lemma unref_all_mem roots : forall f f', unref_all roots f = Some f' -> lget f' = lget f.
Proof.
  induction roots as [|r roots IH]; intros f f'; cbn [unref_all]; [by intros [= <-]|].
  destruct (r =? 0); cbn [mbind option_bind]; [apply IH|]. destruct (vn_unref r f) as [f1|] eqn:Eu; [|done]. cbn [mbind option_bind].
  intros ->%IH. by eapply unref_mem.
Qed.

Lemma overlay_lookup_keeps dir name s err r s' :
  overlay_lookup dir name s = Some (err, r, s') -> keeps_objects (lget s) (lget s').
Proof.
  unfold overlay_lookup. destruct (ovn_of dir s) as [[q ovn]|]; [|done]. cbn [mbind option_bind].
  unfold alloc_overlay_vnode, Overlay.kalloc.
  pose proof (layer_kalloc sizeof_OverlayVnode 8 (lower s)) as E1. cbv zeta in E1.
  pose proof (kalloc_keeps (lget (lower s)) sizeof_OverlayVnode 8 eq_refl) as K1.
  pose proof (fun a' => kalloc_kfree_keeps (lget (lower s)) a' sizeof_OverlayVnode 8 eq_refl) as K2. cbv zeta in K2.
  rewrite <- E1 in K1, K2. destruct (fs_kalloc sizeof_OverlayVnode 8 (lower s)) as [child f1]. cbn [fst snd] in *. clear E1.
  destruct (Z.eqb_spec child 0) as [->|Hc]; cbn [snd]; [by intros [= _ _ <-]|]. replace (child =? 0) with false by lia.
  destruct (lookup_layers _ _ _ _ _ _ _ _) as [[[fd roots] f2]|] eqn:El; [|done]. cbn [mbind option_bind]. apply lookup_layers_keeps in El.
  cbn [lower set_ov_node set_lower] in El. destruct fd as [type|].
  2:{ intros [= _ _ <-]. cbn. rewrite layer_kfree. by apply K2. }
  unfold alloc_vnode, Overlay.kalloc. cbn [lower set_ov_node set_lower].
  pose proof (layer_kalloc sizeof_Vnode 8 f2) as E3. cbv zeta in E3.
  pose proof (kalloc_keeps (lget f2) sizeof_Vnode 8 eq_refl) as K3. rewrite <- E3 in K3.
  destruct (fs_kalloc sizeof_Vnode 8 f2) as [vn f3]. cbn [fst snd] in *.
  destruct (Z.eqb_spec vn 0) as [->|Hv].
  - change (0 =? 0) with true. cbn iota.
    destruct (unref_all _ _) as [f4|] eqn:Eu; [|done]. cbn [mbind option_bind]. apply unref_all_mem in Eu. intros [= _ _ <-].
    cbn [lower set_ov_node set_lower g_layers lget overlay_memory Overlay.kfree] in *. rewrite layer_kfree, Eu. apply K2; [done|]. by etrans.
  - replace (vn =? 0) with false by lia. intros [= _ _ <-]. cbn. etrans; [exact K1|]. by etrans.
Qed.

#[export] Instance overlay_lookup_memory : LookupMemory (overlay F) A.
Proof. split. intros v name f err r f' live Hwf Hl. exact (overlay_lookup_keeps _ _ _ _ _ _ Hl live Hwf). Qed.
End Overlay.

(** * A program started from an overlay *)

(** The memory filesystem of the other runs as the only layer of an overlay,
    which is mounted. *)
Definition o_mount : Z * overlay (ramfs (pool pmm)) :=
  match overlay_mount (Overlay.init [Build_Layer 0x1000 true] (Overlay [] false ∅ ∅ w_fs)).2 with
  | Some (_, root, s) => (root, s)
  | None => (0, Overlay [] false ∅ ∅ w_fs)
  end.

(** The path [/a] is at 0x400000, in an address space without other pages. *)
Definition o_phys : arr Z :=
  let m := aset (afill 0) (entry_addr 0x105000 0) 0x40001007 in
  let m := aset m (entry_addr 0x40001000 0) 0x40002007 in
  let m := aset m (entry_addr 0x40002000 2) 0x40003007 in
  let m := aset m (entry_addr 0x40003000 0) 0x40004007 in
  aset m 0x40004000 0x612f.

Definition o_start : kernel pmm (pool pmm) (overlay (ramfs (pool pmm))) :=
  Kernel (init_process_system empty_tab) (afill (Build_Thread 0 0 0 0 0 0)) (set_heap (lget o_mount.2) w_sched)
    (Vmm o_phys 0x105000 0 0 elf_pmm) (Vfs [] (afill []) o_mount.1 true o_mount.2).

Definition o_one : kernel pmm (pool pmm) (overlay (ramfs (pool pmm))) := (process_create 0x105000 0 o_start).2.
Definition o_init : Z := Eval vm_compute in (process_create 0x105000 0 o_start).1.

(** The thread of the first process runs. *)
Definition o_run_as (k : kernel pmm (pool pmm) (overlay (ramfs (pool pmm)))) : machine pmm (pool pmm) (overlay (ramfs (pool pmm))) :=
  Machine (set_sch (fun s => set_current (fun c => aset c 0 w_thread)
      (update_task w_thread (fun t => {| t_id := 1; t_name := []; t_state := Running; t_stack := t_stack t;
         t_context := 0; t_entry := 0; t_arg := 0; t_creation_time := 0; t_thread := w_thread; t_cr3 := 0x105000 |}) s))
      (set_thread w_thread (Build_Thread o_init 0 0 0 0 0) k))
    (Keyboard false false (afill 0) 0 0) (Terminal (afill 0) 0 false []) [].
Definition o_run := o_run_as o_one.

Lemma o_run_inv k ps K : proc_inv (tab k) ps K -> proc_inv (tab (kn (o_run_as k))) ps K.
Proof. done. Qed.
Lemma o_run_live k ps live : procs_live k ps live -> procs_live (kn (o_run_as k)) ps live.
Proof. by intros [? ?]. Qed.

Lemma o_start_live : procs_live o_start [] ∅.
Proof.
  split; [|by intros p ?%elem_of_nil]. split; [vm_compute; split; reflexivity|]. split; [by intros p size; rewrite lookup_empty|].
  assert (pool_pages (mem o_start) = elf_pmm) as -> by (vm_compute; reflexivity). exact elf_pmm_wf.
Qed.

Lemma o_one_ok : exists K, proc_inv (tab o_one) [o_init] K /\ procs_live o_one [o_init] {[o_init := sizeof_Process]}.
Proof.
  destruct (process_create_cases o_start [] ∅ ∅ 0x105000 0 w_start_inv o_start_live (or_introl eq_refl))
    as [(E & _)|(_ & _ & Hl & K & id & Hi & _)].
  - exfalso. revert E. vm_compute. discriminate.
  - assert ((process_create 0x105000 0 o_start).1 = o_init) as E by (vm_compute; reflexivity).
    rewrite E in *. rewrite insert_empty in Hl. by exists K.
Qed.

#[local] Opaque o_one.

(** The call [spawn("/a")]: the program is found through the overlay, and
    there is one process more. *)
Lemma syscalls_keep_tree_witness : exists m' ps K,
  handle_syscall w_env SYS_spawn (frame 0x400000 0 0) o_run = Some (Return 1, m')
  /\ proc_inv (tab (kn m')) ps K /\ exists p, p <> o_init /\ ps = [p; o_init].
Proof.
  destruct o_one_ok as (K & Hi & Hl).
  set (m' := after o_run (handle_syscall w_env SYS_spawn (frame 0x400000 0 0) o_run)).
  assert (handle_syscall w_env SYS_spawn (frame 0x400000 0 0) o_run = Some (Return 1, m')) as Er
    by (apply run_after; vm_compute; reflexivity).
  destruct (syscalls_keep_tree w_env SYS_spawn (frame 0x400000 0 0) o_run (Return 1) m' [o_init] K {[o_init := sizeof_Process]}
    (o_run_inv _ _ _ Hi) (o_run_live _ _ _ Hl)) as (ps & K' & Hi' & Hc).
  - right. split; [by apply list_elem_of_singleton|vm_compute; reflexivity].
  - exact Er.
  - exists m', ps, K'. split; [exact Er|]. split; [exact Hi'|].
    destruct Hc as [->|[(_ & p & Hp & ->)|(E & _)]]; [exfalso| |discriminate E].
    + pose proof (processes_eq _ _ _ Hi') as E. revert E. vm_compute. discriminate.
    + exists p. split; [|reflexivity]. intros ->. apply Hp. by apply list_elem_of_singleton.
Defined.
