(* ===== verification/OverlayDemo.v ===== *)
(** An overlay of two in-memory directories, and what goes wrong in it. *)

From S2P Require Import Prelude MemoryMap Pmm PageAlloc Bytes KMem VfsBase Ramfs Overlay OverlaySpec.

(** * The layers *)

Definition after {A} (r : option (Z * Z * A)) (d : A) : A := match r with Some (_, _, s) => s | None => d end.
Definition got {A} (r : option (Z * Z * A)) : Z := match r with Some (_, v, _) => v | None => 0 end.

(** Names: a, b, c. *)
Definition name_a : str := [97].
Definition name_b : str := [98].
Definition name_c : str := [99].

Definition layer0 : ramfs bump := after (ramfs_mount demo_empty) demo_empty.
Definition upper_root : Z := got (ramfs_mount demo_empty).
Definition layer1 : ramfs bump := after (ramfs_mount layer0) layer0.
Definition lower_root : Z := got (ramfs_mount layer0).

(** The lower layer has a and b, the upper one has b. *)
Definition layer2 : ramfs bump := after (ramfs_create lower_root name_a layer1) layer1.
Definition file_a : Z := got (ramfs_create lower_root name_a layer1).
Definition layer3 : ramfs bump := after (ramfs_create lower_root name_b layer2) layer2.
Definition layers_fs : ramfs bump := after (ramfs_create upper_root name_b layer3) layer3.

Definition demo_layers : list Layer := [Build_Layer upper_root true; Build_Layer lower_root false].
Definition ov_ready : overlay (ramfs bump) := snd (init demo_layers (Overlay [] false ∅ ∅ layers_fs)).
Definition ov_mounted : overlay (ramfs bump) := after (overlay_mount ov_ready) ov_ready.
Definition ov_root : Z := got (overlay_mount ov_ready).
Definition ov_node : OverlayVnode := Build_OverlayVnode ([upper_root; lower_root] ++ replicate 6 0) 0 [] false.

(** The error of an operation. *)
Definition err2 {A} (r : option (Z * A)) : option Z := fst <$> r.
Definition err3 {A} (r : option (Z * Z * A)) : option Z := (fun x => x.1.1) <$> r.
Definition rest2 {A} (r : option (Z * A)) (d : A) : A := match r with Some (_, s) => s | None => d end.

Lemma demo_ovn : exists p, ovn_of ov_root ov_mounted = Some (p, ov_node).
Proof. eexists. vm_compute. reflexivity. Qed.

Lemma demo_layers_of : layers_of ov_node ov_mounted = [(upper_root, true); (lower_root, false)].
Proof. vm_compute. reflexivity. Qed.

Lemma demo_dir root dv d : vnodes (lower ov_mounted) !! root = Some dv -> dirs (lower ov_mounted) !! private_data dv = Some d ->
  bool_decide (Forall (fun e => e_vnode e <> 0 /\ vnodes (lower ov_mounted) !! e_vnode e <> None /\ (length (e_name e) <= 255)%nat) (d_entries d)) = true ->
  layer_dir (lower ov_mounted) root.
Proof.
  intros E1 E2 Hb. exists dv, d. split; [exact E1|]. split; [exact E2|]. apply bool_decide_eq_true_1 in Hb. eapply Forall_impl; [exact Hb|].
  intros e (Q1 & Q2 & Q3). split; [exact Q1|]. split; [|exact Q3]. by apply not_eq_None_Some.
Qed.

Lemma demo_layers_ok : layers_ok (lower ov_mounted) [(upper_root, true); (lower_root, false)].
Proof.
  constructor; [right|constructor; [right|constructor]].
  - eapply demo_dir; [vm_compute; reflexivity|vm_compute; reflexivity|vm_compute; reflexivity].
  - eapply demo_dir; [vm_compute; reflexivity|vm_compute; reflexivity|vm_compute; reflexivity].
Qed.

#[local] Opaque ov_mounted ov_ready layers_fs ov_root.

Lemma overlay_lookup_spec_witness : exists v s', overlay_lookup ov_root name_a ov_mounted = Some (0, v, s') /\ v_type <$> ov_vnodes s' !! v = Some File.
Proof.
  destruct demo_ovn as [p Ep].
  destruct (overlay_lookup_spec ov_mounted ov_root p ov_node name_a Ep) as (err & v & s' & E & _ & Hc);
    [apply (bool_decide_unpack _); vm_compute; exact I|rewrite demo_layers_of; exact demo_layers_ok|].
  assert (visible_name (lower ov_mounted) (layers_of ov_node ov_mounted) name_a = Some File) as Ev by (vm_compute; reflexivity). rewrite Ev in Hc.
  assert (err3 (overlay_lookup ov_root name_a ov_mounted) = Some 0) as E0 by (vm_compute; reflexivity). rewrite E in E0. injection E0 as ->.
  exists v, s'. split; [exact E|]. destruct Hc as [Hx|(_ & _ & Ht & _)]; [discriminate Hx|exact Ht].
Defined.

Lemma overlay_listing_spec_witness : exists p s' o', build_merged_list p ov_node ov_mounted = Some s' /\ ovn_of ov_root s' = Some (p, o')
  /\ NoDup (dirent_name <$> merged_entries o') /\ (dirent_name <$> merged_entries o') = [name_b; name_a].
Proof.
  destruct demo_ovn as [p Ep].
  destruct (overlay_listing_spec ov_mounted ov_root p ov_node Ep eq_refl) as (s' & o' & E & Eo & _ & _ & _ & Hn & _);
    [rewrite demo_layers_of; exact demo_layers_ok|rewrite demo_layers_of; apply (bool_decide_unpack _); vm_compute; exact I|].
  exists p, s', o'. split; [exact E|]. split; [exact Eo|]. split; [exact Hn|].
  assert ((fun s => (fun x => dirent_name <$> merged_entries x.2) <$> ovn_of ov_root s) <$> build_merged_list p ov_node ov_mounted = Some (Some [name_b; name_a])) as Hv.
  { assert (p = (match ovn_of ov_root ov_mounted with Some (q, _) => q | None => 0 end)) as -> by (by rewrite Ep). vm_compute. reflexivity. }
  rewrite E in Hv. cbn [fmap option_fmap option_map] in Hv. rewrite Eo in Hv. cbn [fmap option_fmap option_map snd] in Hv. by injection Hv.
Defined.

(** * What goes wrong *)

(** Removing a file that is in the writable layer and in the layer below only
    removes the upper one: the call succeeds, and the name is still there, now
    showing the lower file. *)
Theorem overlay_unlink_resurfaces :
  let r := overlay_unlink ov_root name_b ov_mounted in
  err2 r = Some 0 /\ err3 (overlay_lookup ov_root name_b (rest2 r ov_mounted)) = Some 0.
Proof. vm_compute. split; reflexivity. Qed.

(** Removing a file of the read-only layer hides it; removing it once more
    reports that it exists instead of that it does not. *)
Theorem overlay_unlink_twice :
  let r := overlay_unlink ov_root name_a ov_mounted in
  err2 r = Some 0 /\ err3 (overlay_lookup ov_root name_a (rest2 r ov_mounted)) = Some E_NOT_FOUND
  /\ err2 (overlay_unlink ov_root name_a (rest2 r ov_mounted)) = Some E_EXISTS.
Proof. vm_compute. split_and!; reflexivity. Qed.

(** A directory that was listed once is listed the same way ever after: a file
    that is created then can be looked up but is not shown. *)
Theorem overlay_listing_stale :
  match overlay_readdir ov_root 0 ov_mounted with
  | Some (err, _, _, s1) =>
      err = 0 /\ let r := overlay_create ov_root name_c s1 in
      err3 r = Some 0 /\ err3 (overlay_lookup ov_root name_c (after r s1)) = Some 0
      /\ (fun x => x.1.1.1) <$> overlay_readdir ov_root 2 (after r s1) = Some E_NOT_FOUND
  | None => False
  end.
Proof. vm_compute. split_and!; reflexivity. Qed.

(** Writing to a file of the read-only layer changes that layer: the file is
    neither refused nor copied up. *)
Theorem overlay_writes_read_only :
  match overlay_lookup ov_root name_a ov_mounted with
  | Some (err, v, s1) =>
      err = 0 /\ (forall l, l ∈ g_layers s1 -> l_root l = lower_root -> writable l = false)
      /\ let r := overlay_write v 0 (aset (afill 0) 0 7) 1 s1 in
      err3 r = Some 0
      /\ (fun x => (x.1.1, stat_size x.1.2)) <$> ramfs_stat file_a (lower s1) = Some (0, 0)
      /\ (fun x => (x.1.1, stat_size x.1.2)) <$> ramfs_stat file_a (lower (after r s1)) = Some (0, 1)
  | None => False
  end.
Proof.
  destruct (overlay_lookup ov_root name_a ov_mounted) as [[[err v] s1]|] eqn:E; [|by vm_compute in E].
  assert ((fun x => (x.1.1, g_layers x.2, err3 (overlay_write x.1.2 0 (aset (afill 0) 0 7) 1 x.2),
      (fun x => (x.1.1, stat_size x.1.2)) <$> ramfs_stat file_a (lower x.2),
      (fun x => (x.1.1, stat_size x.1.2)) <$> ramfs_stat file_a (lower (after (overlay_write x.1.2 0 (aset (afill 0) 0 7) 1 x.2) x.2))))
    <$> overlay_lookup ov_root name_a ov_mounted = Some (0, demo_layers, Some 0, Some (0, 0), Some (0, 1))) as Hv by (vm_compute; reflexivity).
  rewrite E in Hv. cbn [fmap option_fmap option_map fst snd] in Hv. injection Hv as Q1 Q2 Q3 Q4 Q5.
  split; [exact Q1|]. split; [|split_and!; [exact Q3|exact Q4|exact Q5]]. rewrite Q2. unfold demo_layers. intros l. rewrite !elem_of_cons, elem_of_nil.
  intros [-> | [-> | []]]; cbn; [intros Hr; vm_compute in Hr; discriminate Hr|done].
Qed.
