(* ===== verification/Text.v ===== *)
(** Characters, C strings and numerals, shared by the demangler and the log.

    A C string is the list of its characters before the NUL.  [numeral b n] is
    the reference for printing a number in base [b]. *)
From S2P Require Import Prelude.
From Stdlib Require Export Ascii.

Definition NUL : ascii := Ascii.zero.

(** The characters of a string literal. *)
Definition txt (s : string) : list ascii := String.list_ascii_of_string s.

Notation "a =c b" := (Ascii.eqb a b%char) (at level 70, no associativity).

(** The value of a character. *)
Definition code (a : ascii) : Z := Z.of_N (N_of_ascii a).

(** The character of a value. *)
Definition chr (z : Z) : ascii := ascii_of_N (Z.to_N z).

(** [c >= '0' && c <= '9'] *)
Definition is_digit (a : ascii) : bool := (48 <=? code a) && (code a <=? 57).

(** ['0' + d] *)
Definition digit_char (d : Z) : ascii := chr (48 + d).

(** The characters of an array up to its first NUL. *)
Fixpoint c_str (l : list ascii) : list ascii :=
  match l with
  | [] => []
  | a :: l => if a =c NUL then [] else a :: c_str l
  end.

(** Text without NUL. *)
Definition clean_text (l : list ascii) : Prop := forallb (fun a => negb (a =c NUL)) l = true.

Lemma code_chr z : 0 <= z < 256 -> code (chr z) = z.
Proof. intros. unfold code, chr. rewrite N_ascii_embedding by lia. lia. Qed.

Lemma clean_text_suffix l l' : l' `suffix_of` l -> clean_text l -> clean_text l'.
Proof.
  intros [k ->]. unfold clean_text. rewrite forallb_app. intros H; bool_to_prop. done.
Qed.

Lemma clean_text_cons a l : clean_text (a :: l) <-> a <> NUL /\ clean_text l.
Proof.
  unfold clean_text; cbn. rewrite andb_true_iff, negb_true_iff, Ascii.eqb_neq. done.
Qed.

Lemma clean_text_app l l' : clean_text (l ++ l') <-> clean_text l /\ clean_text l'.
Proof. unfold clean_text. rewrite forallb_app, andb_true_iff. done. Qed.

Lemma clean_text_take n l : clean_text l -> clean_text (take n l).
Proof. intros Hl. rewrite <- (take_drop n l) in Hl. by apply clean_text_app in Hl as [? _]. Qed.

Lemma clean_text_elem l a : clean_text l -> a ∈ l -> a <> NUL.
Proof.
  unfold clean_text. rewrite forallb_forall. intros Hl Ha. rewrite list_elem_of_In in Ha.
  apply Hl in Ha. by apply negb_true_iff, Ascii.eqb_neq in Ha.
Qed.

Lemma c_str_clean l : clean_text (c_str l).
Proof.
  induction l as [|a l IH]; [done|]. cbn. destruct (a =c NUL) eqn:E; [done|].
  apply clean_text_cons. split; [by apply Ascii.eqb_neq | done].
Qed.

Lemma c_str_app t l : clean_text t -> c_str (t ++ NUL :: l) = t.
Proof.
  induction t as [|a t IH]; cbn; [done|]. intros [Ha Ht]%clean_text_cons.
  destruct (a =c NUL) eqn:E; [by apply Ascii.eqb_eq in E | by rewrite IH].
Qed.

Lemma code_digit_char d : 0 <= d < 10 -> code (digit_char d) = 48 + d.
Proof. intros. apply code_chr. lia. Qed.

Lemma is_digit_digit_char d : 0 <= d < 10 -> is_digit (digit_char d) = true.
Proof. intros. unfold is_digit, digit_char. rewrite code_chr by lia. lia. Qed.

Lemma digit_char_clean d l : 0 <= d < 10 -> clean_text l -> clean_text (digit_char d :: l).
Proof.
  intros Hd Hl. apply clean_text_cons. split; [|done]. intros E.
  assert (code (digit_char d) = 0) as C by by rewrite E.
  unfold digit_char in C. rewrite code_chr in C; lia.
Qed.

(** * Numerals *)

(** The digits of [n] in base [b], least significant first. *)
Fixpoint digits_le (fuel : nat) (b n : Z) : list Z :=
  match fuel with
  | O => []
  | S fuel => n `mod` b :: if n `div` b =? 0 then [] else digits_le fuel b (n `div` b)
  end.

(** The value of digits, most significant first, read after the value [v]. *)
Definition value_from (b v : Z) (ds : list Z) : Z := foldl (fun v d => v * b + d) v ds.

(** Most significant first, without leading zeros. *)
Definition numeral (b n : Z) : list Z := rev (digits_le (Z.to_nat (Z.log2 n + 1)) b n).

Definition decimal (n : Z) : list ascii := map digit_char (numeral 10 n).

Lemma value_from_app b v ds ds' :
  value_from b v (ds ++ ds') = value_from b (value_from b v ds) ds'.
Proof. apply foldl_app. Qed.

Lemma value_from_mono b v ds :
  1 <= b -> 0 <= v -> Forall (fun d => 0 <= d) ds -> v <= value_from b v ds.
Proof.
  intros Hb. revert v. induction ds as [|d ds IH]; intros v Hv Hd; cbn; [lia|].
  inversion_clear Hd. etrans; [|apply IH; [nia | done]]. nia.
Qed.

Lemma digits_le_value fuel b : forall n,
  2 <= b -> 0 <= n < b ^ Z.of_nat fuel -> value_from b 0 (rev (digits_le fuel b n)) = n.
Proof.
  induction fuel as [|fuel IH]; intros n Hb Hn; [cbn in *; lia|].
  cbn [digits_le rev]. rewrite value_from_app. cbn [value_from foldl].
  rewrite Nat2Z.inj_succ, Z.pow_succ_r in Hn by lia.
  pose proof (Z.div_mod n b ltac:(lia)) as D.
  destruct (n `div` b =? 0) eqn:E; bool_to_prop; cbn [rev value_from foldl]; [nia|].
  fold (value_from b 0 (rev (digits_le fuel b (n `div` b)))).
  rewrite IH; [lia | lia |]. split; [apply Z.div_pos; lia | apply Z.div_lt_upper_bound; lia].
Qed.

Lemma digits_le_range fuel b n :
  2 <= b -> Forall (fun d => 0 <= d < b) (digits_le fuel b n).
Proof.
  intros Hb. revert n. induction fuel as [|fuel IH]; intros n; cbn; [done|].
  constructor; [apply Z.mod_pos_bound; lia | case_match; [done | apply IH]].
Qed.

Lemma numeral_range b n : 2 <= b -> Forall (fun d => 0 <= d < b) (numeral b n).
Proof. intros. apply Forall_rev. by apply digits_le_range. Qed.

Lemma log2_fuel b n : 2 <= b -> 0 <= n -> 0 <= n < b ^ Z.of_nat (Z.to_nat (Z.log2 n + 1)).
Proof.
  intros Hb Hn. split; [done|]. pose proof (Z.log2_nonneg n).
  rewrite Z2Nat.id by lia. destruct (decide (n = 0)) as [-> | Hz].
  { apply Z.pow_pos_nonneg; lia. }
  apply Z.lt_le_trans with (2 ^ (Z.log2 n + 1)).
  - rewrite Z.add_1_r. apply Z.log2_spec. lia.
  - apply Z.pow_le_mono_l. lia.
Qed.

(** A numeral denotes its number. *)
Lemma numeral_value b n : 2 <= b -> 0 <= n -> value_from b 0 (numeral b n) = n.
Proof. intros. apply digits_le_value; [done | by apply log2_fuel]. Qed.

Lemma numeral_nonempty b n : exists d ds, numeral b n = d :: ds.
Proof.
  unfold numeral. pose proof (Z.log2_nonneg n).
  destruct (rev _) as [|d ds] eqn:E; [|by eauto].
  apply (f_equal length) in E. rewrite length_rev in E.
  destruct (Z.to_nat (Z.log2 n + 1)) eqn:F; [lia|]. done.
Qed.

(** More fuel than digits adds nothing. *)
Lemma digits_le_fuel b : forall fuel fuel' n,
  2 <= b -> 0 <= n < b ^ Z.of_nat fuel -> (0 < fuel <= fuel')%nat ->
  digits_le fuel' b n = digits_le fuel b n.
Proof.
  induction fuel as [|fuel IH]; intros fuel' n Hb Hn Hf; [lia|].
  destruct fuel' as [|fuel']; [lia|]. cbn [digits_le].
  destruct (n `div` b =? 0) eqn:E; [done|]. bool_to_prop. f_equal.
  rewrite Nat2Z.inj_succ, Z.pow_succ_r in Hn by lia.
  assert (0 <= n `div` b < b ^ Z.of_nat fuel) as Hd.
  { split; [apply Z.div_pos; lia | apply Z.div_lt_upper_bound; lia]. }
  destruct fuel as [|fuel]; [cbn in Hd; lia|]. apply IH; [done | done | lia].
Qed.

(** Any number of digits that is enough gives the numeral. *)
Lemma numeral_fuel b n fuel :
  2 <= b -> 0 <= n < b ^ Z.of_nat fuel -> (0 < fuel)%nat ->
  numeral b n = rev (digits_le fuel b n).
Proof.
  intros Hb Hn Hf. unfold numeral. f_equal. pose proof (Z.log2_nonneg n).
  destruct (Nat.le_ge_cases fuel (Z.to_nat (Z.log2 n + 1))).
  - by apply digits_le_fuel.
  - symmetry. apply digits_le_fuel; [done | apply log2_fuel; lia | lia].
Qed.
