(* ===== verification/Demangle.v ===== *)
(** The symbol demangler of the stack trace (arch/x86_64/demangle.cpp).

    The parser context keeps the rest of the NUL-terminated input, the
    caller's memory from [buf] on, the output position and its limit, and the
    table of substitutions.  The mutually recursive productions are functions
    of a parameter [rec], the parser for the recursive occurrences; [parse]
    ties the knot with fuel.  A production answers [Ok], [Reject] (the C++
    function returned [false]; the bytes already written stay in the buffer)
    or [OutOfFuel].  The fields [depth], [mark] and [has_*] of the source are
    written or declared but never read and are left out. *)
From S2P Require Import Prelude Text.

(** * The context *)

Definition MAX_SUBS : nat := 32.
Definition SUB_CHARS : nat := 127.

(** [inp] is the input before its NUL; [mem] the memory from [buf] on, [below]
    the byte at distance [1 + n] below [buf]; [out] and [out_end] are offsets
    from [buf]. *)
Record Ctx := mkCtx {
  inp : list ascii;
  mem : list ascii;
  below : nat -> ascii;
  out : nat;
  out_end : nat;
  subs : list (list ascii);
}.

Definition set_inp (c : Ctx) (l : list ascii) : Ctx :=
  {| inp := l; mem := mem c; below := below c; out := out c; out_end := out_end c;
     subs := subs c |}.

Definition peek (c : Ctx) : ascii := match inp c with [] => NUL | a :: _ => a end.

(** [c.in[1]], read only when [c.in[0]] is not NUL. *)
Definition peek1 (c : Ctx) : ascii := match inp c with _ :: b :: _ => b | _ => NUL end.

(** The input after one character: [adv] (whose value is [peek]) is called only
    where the character is known not to be the NUL. *)
Definition adv (c : Ctx) : Ctx := set_inp c (tail (inp c)).

Definition eof (c : Ctx) : bool := match inp c with [] => true | _ => false end.

Definition put (c : Ctx) (ch : ascii) : bool * Ctx :=
  if (out_end c <=? out c)%nat then (false, c)
  else (true, {| inp := inp c; mem := <[out c := ch]> (mem c); below := below c;
                 out := S (out c); out_end := out_end c; subs := subs c |}).

Fixpoint puts (c : Ctx) (s : list ascii) : bool * Ctx :=
  match s with
  | [] => (true, c)
  | a :: s => let (ok, c) := put c a in if ok then puts c s else (false, c)
  end.

(** [putn] on a span of the input that holds at least [n] characters. *)
Definition putn (c : Ctx) (s : list ascii) (n : nat) : bool * Ctx := puts c (take n s).

(** * Results *)

Inductive Res :=
| Ok (c : Ctx)
| Reject (c : Ctx)
| OutOfFuel.

Definition bind (r : Res) (k : Ctx -> Res) : Res :=
  match r with Ok c => k c | Reject c => Reject c | OutOfFuel => OutOfFuel end.

Notation "'let*' c ':=' r 'in' k" := (bind r (fun c => k))
  (at level 200, c name, r at level 100, k at level 200, right associativity).

(** [if (!put…) return false;] *)
Definition checked (r : bool * Ctx) : Res := if r.1 then Ok r.2 else Reject r.2.

(** The same output with its answer ignored. *)
Definition ignored (r : bool * Ctx) : Ctx := r.2.

(** [if (!match(c, ch)) return false;] *)
Definition match_char (c : Ctx) (ch : ascii) : Res :=
  if peek c =c ch then Ok (adv c) else Reject c.

(** * Lexical helpers *)

Definition UINT_MAX : Z := 2 ^ 32 - 1.

(** The loop of [read_number] on the digits at the front of the input. *)
Fixpoint read_digits (l : list ascii) (val : Z) : option Z * list ascii :=
  match l with
  | [] => (Some val, [])
  | a :: l' =>
      if is_digit a then
        if UINT_MAX `div` 10 <? val then (None, l')
        else read_digits l' (wrap 32 (val * 10 + (code a - 48)))
      else (Some val, l)
  end.

Definition read_number (c : Ctx) : option Z * Ctx :=
  if is_digit (peek c) then
    let (v, l) := read_digits (inp c) 0 in (v, set_inp c l)
  else (None, c).

(** The characters before the first [term], when there is one. *)
Fixpoint read_until (l : list ascii) (term : ascii) : option (list ascii) :=
  match l with
  | [] => None
  | a :: l => if Ascii.eqb a term then Some [] else (a ::.) <$> read_until l term
  end.

Definition skip_discriminator (c : Ctx) : Ctx :=
  if negb (peek c =c "_") then c
  else let (d, c') := read_number (adv c) in
       match d with None => c | Some _ => c' end.

(** * Substitutions *)

(** The byte at offset [i] from [buf]. *)
Definition mem_at (c : Ctx) (i : Z) : ascii :=
  if i <? 0 then below c (Z.to_nat (- 1 - i)) else default NUL (mem c !! Z.to_nat i).

(** [add_sub(c, buf + start, len)] *)
Definition add_sub (c : Ctx) (start : Z) (len : nat) : Ctx :=
  if (MAX_SUBS <=? length (subs c))%nat then c
  else
    let copy := Nat.min len SUB_CHARS in
    {| inp := inp c; mem := mem c; below := below c; out := out c; out_end := out_end c;
       subs := subs c ++ [map (fun i => mem_at c (start + Z.of_nat i)) (seq 0 copy)] |}.

(** [add_sub(c, saved, c.out - saved)] *)
Definition add_sub_from (c : Ctx) (saved : nat) : Ctx :=
  add_sub c (Z.of_nat saved) (out c - saved).

Definition is_substitutable_type (first : ascii) : bool :=
  negb (existsb (Ascii.eqb first) (txt "vwbcahstijlmxynofdeg")).

(** [puts(c, c.subs[idx].data)] or the mark for an unknown substitution; the
    index counts seven standard entries first. *)
Definition put_sub (c : Ctx) (seq_id : nat) : Ctx :=
  ignored (puts c (match subs c !! (7 + seq_id)%nat with
                   | Some data => c_str data
                   | None => txt "<?>"
                   end)).

(** * Names *)

(** The copy loop of [parse_source_name]: [len] characters, or failure at the
    end of the input or of the buffer. *)
Fixpoint copy_name (l : list ascii) (len : Z) (c : Ctx) : Res :=
  if len <=? 0 then Ok (set_inp c l)
  else match l with
       | [] => Reject (set_inp c [])
       | a :: l => let* c := checked (put (set_inp c l) a) in copy_name l (len - 1) c
       end.

Definition starts_with (l : list ascii) (p : list ascii) : bool :=
  bool_decide (take (length p) l = p).

Definition parse_source_name (c : Ctx) : Res :=
  match read_number c with
  | (None, c) => Reject c
  | (Some len, c) =>
      if (len =? 12) && starts_with (inp c) (txt "_GLOBAL__N_1") then
        checked (puts (set_inp c (drop 12 (inp c))) (txt "{anonymous}"))
      else if (len =? 3) && starts_with (inp c) (txt "__1") then
        Ok (set_inp c (drop 3 (inp c)))
      else if len =? 0 then Reject c
      else copy_name (inp c) len c
  end.

(** The text for the second character of [D0] … [D5], [Dt], [DT]. *)
Definition ctor_dtor (n : ascii) : option (list ascii) :=
  if (n =c "0") || (n =c "2") || (n =c "5") then Some (txt "(constructor)")
  else if (n =c "1") || (n =c "3") then Some (txt "(destructor)")
  else if n =c "4" then Some (txt "(deleting destructor)")
  else if (n =c "t") || (n =c "T") then Some (txt "(destructor)")
  else None.

Definition parse_unqualified_name (c : Ctx) : Res :=
  if peek c =c "L" then
    let* c := parse_source_name (adv c) in Ok (skip_discriminator c)
  else match (if peek c =c "D" then ctor_dtor (peek1 c) else None) with
       | Some t => Ok (ignored (puts (adv (adv c)) t))
       | None => if is_digit (peek c) then parse_source_name c else Reject c
       end.

(** [St], [Sa], … of a nested name: the text and the number of characters that
    the source enters in the table. *)
Definition nested_std (n1 : ascii) : option (list ascii * nat) :=
  if n1 =c "t" then Some (txt "std", 3%nat)
  else if n1 =c "a" then Some (txt "std::allocator", 15%nat)
  else if n1 =c "b" then Some (txt "std::basic_string", 17%nat)
  else if n1 =c "s" then Some (txt "std::string", 12%nat)
  else if n1 =c "i" then Some (txt "std::istream", 13%nat)
  else if n1 =c "o" then Some (txt "std::ostream", 13%nat)
  else if n1 =c "d" then Some (txt "std::iostream", 14%nat)
  else None.

(** [St], [Sa], … elsewhere. *)
Definition std_text (n : ascii) : option (list ascii) :=
  if n =c "t" then Some (txt "std")
  else if n =c "a" then Some (txt "std::allocator")
  else if n =c "b" then Some (txt "std::basic_string")
  else if n =c "s" then
    Some (txt "std::basic_string<char, std::char_traits<char>, std::allocator<char>>")
  else if n =c "i" then Some (txt "std::basic_istream<char, std::char_traits<char>>")
  else if n =c "o" then Some (txt "std::basic_ostream<char, std::char_traits<char>>")
  else if n =c "d" then Some (txt "std::basic_iostream<char, std::char_traits<char>>")
  else None.

(** [_] or [<digit>_] after the [S]. *)
Definition seq_id (c : Ctx) (k : Ctx -> nat -> Res) : Res :=
  if peek c =c "_" then k (adv c) 0%nat
  else
    let d := Z.to_nat (code (peek c) - 48) in
    let* c := match_char (adv c) "_" in k c d.

Definition parse_substitution (c : Ctx) : Res :=
  let* c := match_char c "S" in
  match std_text (peek c) with
  | Some t => Ok (ignored (puts (adv c) t))
  | None =>
      if (peek c =c "_") || is_digit (peek c) then
        seq_id c (fun c idx => Ok (put_sub c idx))
      else Reject c
  end.

Definition builtin_text (a : ascii) : option (list ascii) :=
  if a =c "v" then Some (txt "void")
  else if a =c "w" then Some (txt "wchar_t")
  else if a =c "b" then Some (txt "bool")
  else if a =c "c" then Some (txt "char")
  else if a =c "a" then Some (txt "signed char")
  else if a =c "h" then Some (txt "unsigned char")
  else if a =c "s" then Some (txt "short")
  else if a =c "t" then Some (txt "unsigned short")
  else if a =c "i" then Some (txt "int")
  else if a =c "j" then Some (txt "unsigned int")
  else if a =c "l" then Some (txt "long")
  else if a =c "m" then Some (txt "unsigned long")
  else if a =c "x" then Some (txt "long long")
  else if a =c "y" then Some (txt "unsigned long long")
  else if a =c "n" then Some (txt "__int128")
  else if a =c "o" then Some (txt "unsigned __int128")
  else if a =c "f" then Some (txt "float")
  else if a =c "d" then Some (txt "double")
  else if a =c "e" then Some (txt "long double")
  else if a =c "g" then Some (txt "__float128")
  else None.

Definition builtin_d_text (a : ascii) : option (list ascii) :=
  if a =c "i" then Some (txt "char32_t")
  else if a =c "s" then Some (txt "char16_t")
  else if a =c "h" then Some (txt "float16")
  else if a =c "a" then Some (txt "auto")
  else if a =c "c" then Some (txt "decltype(auto)")
  else if a =c "n" then Some (txt "std::nullptr_t")
  else if a =c "d" then Some (txt "decimal64")
  else if a =c "e" then Some (txt "decimal128")
  else if a =c "f" then Some (txt "decimal32")
  else None.

Definition parse_builtin_type (c : Ctx) : Res :=
  match builtin_text (peek c) with
  | Some t => Ok (ignored (puts (adv c) t))
  | None =>
      if peek c =c "D" then
        match builtin_d_text (peek1 c) with
        | Some t => Ok (ignored (puts (adv (adv c)) t))
        | None => Reject c
        end
      else Reject c
  end.

(** [if (peek(c) == q) { adv(c); puts(c, text); }] *)
Definition cv_step (q : ascii) (text : list ascii) (c : Ctx) : Ctx :=
  if peek c =c q then ignored (puts (adv c) text) else c.

Definition parse_cv_qualifiers (c : Ctx) : Res :=
  Ok (cv_step "K" (txt "const ") (cv_step "V" (txt "volatile ")
       (cv_step "r" (txt "restrict ") c))).

Definition cv_text (a : ascii) : option (list ascii) :=
  if a =c "r" then Some (txt "restrict ")
  else if a =c "V" then Some (txt "volatile ")
  else if a =c "K" then Some (txt "const ")
  else None.

(** The qualifier loop of [parse_type_sub], one qualifier at a time. *)
Fixpoint cv_loop (l : list ascii) (c : Ctx) : Res :=
  match l with
  | a :: l =>
      match cv_text a with
      | Some t => let* c := checked (puts (adv c) t) in cv_loop l c
      | None => Ok c
      end
  | [] => Ok c
  end.

(** The qualifiers of a member function, skipped by [parse_nested_name]. *)
Fixpoint skip_cv (l : list ascii) : list ascii :=
  match l with
  | a :: l' => if (a =c "r") || (a =c "V") || (a =c "K") then skip_cv l' else l
  | [] => []
  end.

(** * The recursive productions *)

(** The recursive occurrences: a type (with or without entering it in the
    table), a nested name and the rest of its components, template arguments
    and the rest of them, the rest of the parameter types. *)
Inductive Prod :=
| TypeSub (add_to_subs : bool)
| NestedName
| NestedLoop (first : bool)
| TemplateArgs
| TemplateLoop (first : bool)
| BareLoop (first : bool).

Section Grammar.
Variable rec : Prod -> Ctx -> Res.

(** [if (!first) if (!puts(c, sep)) return false;] *)
Definition separator (first : bool) (sep : list ascii) (c : Ctx) : Res :=
  if first then Ok c else checked (puts c sep).

Definition optional_template_args (c : Ctx) : Res :=
  if peek c =c "I" then rec TemplateArgs c else Ok c.

(** [parse_source_name] with its text entered in the table. *)
Definition source_name_sub (c : Ctx) : Res :=
  let saved := out c in
  let* c := parse_source_name c in Ok (add_sub_from c saved).

Definition parse_prefix (c : Ctx) : Res :=
  if is_digit (peek c) then
    let* c := source_name_sub c in
    if peek c =c "E" then Ok c else optional_template_args c
  else if peek c =c "L" then
    let* c := source_name_sub (adv c) in Ok (skip_discriminator c)
  else if peek c =c "S" then
    let saved := out c in
    let* c := parse_substitution c in
    optional_template_args (add_sub_from c saved)
  else Reject c.

(** The component of a nested name that starts with [S]. *)
Definition nested_substitution (c : Ctx) : Res :=
  let n1 := peek1 c in
  let* c :=
    match nested_std n1 with
    | Some (t, len) =>
        let c := ignored (puts (adv (adv c)) t) in
        Ok (add_sub c (Z.of_nat (out c) - Z.of_nat len) len)
    | None =>
        if (n1 =c "_") || is_digit n1 then
          seq_id (adv c) (fun c idx => Ok (put_sub c idx))
        else parse_source_name (adv c)
    end in
  optional_template_args c.

(** One iteration of the loop of [parse_nested_name]. *)
Definition nested_component (c : Ctx) : Res :=
  if peek c =c "S" then nested_substitution c
  else if is_digit (peek c) then
    let* c := source_name_sub c in optional_template_args c
  else if peek c =c "L" then
    let* c := source_name_sub (adv c) in optional_template_args (skip_discriminator c)
  else if peek c =c "D" then
    match ctor_dtor (peek1 c) with
    | Some t => Ok (ignored (puts (adv (adv c)) t))
    | None => Reject c
    end
  else Reject c.

Definition at_end (c : Ctx) : bool := (peek c =c "E") || eof c.

Definition nested_loop (first : bool) (c : Ctx) : Res :=
  if at_end c then Ok c
  else
    let* c := separator first (txt "::") c in
    let* c := nested_component c in
    rec (NestedLoop false) c.

Definition parse_nested_name (c : Ctx) : Res :=
  let* c := match_char c "N" in
  let c := set_inp c (skip_cv (inp c)) in
  let c := if (peek c =c "O") || (peek c =c "R") then adv c else c in
  let* c := rec (NestedLoop true) c in
  match_char c "E".

Definition is_builtin_start (c : Ctx) : bool :=
  negb (is_substitutable_type (peek c))
  || ((peek c =c "D") && negb (existsb (Ascii.eqb (peek1 c)) (txt "Tt012345"))).

(** [if (add_to_subs) add_sub(c, saved, c.out - saved); return true;] *)
Definition finish (add_to_subs : bool) (saved : nat) (c : Ctx) : Res :=
  Ok (if add_to_subs then add_sub_from c saved else c).

(** The decimal text that the source builds for an array bound: three digits at
    most. *)
Definition bound_text (n : Z) : list ascii :=
  (if 100 <=? n then [digit_char (n `div` 100 `mod` 10)] else [])
  ++ (if 10 <=? n then [digit_char (n `div` 10 `mod` 10)] else [])
  ++ [digit_char (n `mod` 10)].

(** The text after the [T] of the [idx]-th template parameter. *)
Definition param_text (idx : Z) : list ascii :=
  if 0 <? idx then
    (if 10 <=? idx then [digit_char (idx `div` 10)] else []) ++ [digit_char (idx `mod` 10)]
  else [].

(** A prefix operator: the operand, then [suffix]. *)
Definition type_suffix (add : bool) (suffix : list ascii) (saved : nat) (c : Ctx) : Res :=
  let* c := rec (TypeSub true) (adv c) in
  let* c := checked (puts c suffix) in
  finish add saved c.

Definition type_member (add : bool) (saved : nat) (c : Ctx) : Res :=
  let* c := rec (TypeSub true) (adv c) in
  let* c := checked (puts c (txt "::*")) in
  let* c := rec (TypeSub true) c in
  finish add saved c.

Definition type_nested (add : bool) (saved : nat) (c : Ctx) : Res :=
  let* c := rec NestedName c in
  if add then Ok (add_sub_from (add_sub_from c saved) saved) else Ok c.

Definition type_param (add : bool) (saved : nat) (c : Ctx) : Res :=
  let c := adv c in
  let idx := if is_digit (peek c) then code (peek c) - 48 + 1 else 0 in
  let c := if is_digit (peek c) then adv c else c in
  let* c := match_char c "_" in
  let* c := checked (put c "T") in
  let* c := checked (puts c (param_text idx)) in
  finish add saved c.

Definition type_function (add : bool) (saved : nat) (c : Ctx) : Res :=
  let* c := checked (put (adv c) "(") in
  let* c := rec (BareLoop true) c in
  let c := if peek c =c "E" then adv c else c in
  let* c := checked (put c ")") in
  finish add saved c.

Definition type_array (add : bool) (saved : nat) (c : Ctx) : Res :=
  let* c := checked (put (adv c) "[") in
  let* c :=
    (if is_digit (peek c) then
       match read_number c with
       | (None, c) => Reject c
       | (Some n, c) => checked (puts c (bound_text n))
       end
     else Ok c) in
  let* c := checked (put c "]") in
  let* c := rec (TypeSub true) c in
  finish add saved c.

Definition parse_type_sub (add : bool) (c : Ctx) : Res :=
  let saved := out c in
  let first := peek c in
  match cv_text first with
  | Some _ =>
      let* c := cv_loop (inp c) c in
      let* c := rec (TypeSub add) c in
      Ok (if add && is_substitutable_type first then add_sub_from c saved else c)
  | None =>
      if is_builtin_start c then parse_builtin_type c
      else if first =c "P" then type_suffix add (txt "*") saved c
      else if first =c "R" then type_suffix add (txt "&") saved c
      else if first =c "O" then type_suffix add (txt "&&") saved c
      else if first =c "M" then type_member add saved c
      else if first =c "N" then type_nested add saved c
      else if first =c "S" then
        let* c := parse_substitution c in finish add saved c
      else if first =c "T" then type_param add saved c
      else if first =c "F" then type_function add saved c
      else if first =c "A" then type_array add saved c
      else Reject c
  end.

Definition parse_type (c : Ctx) : Res := rec (TypeSub true) c.

Definition bare_loop (first : bool) (c : Ctx) : Res :=
  if at_end c then Ok c
  else
    let* c := separator first (txt ", ") c in
    let* c := parse_type c in
    rec (BareLoop false) c.

Definition parse_bare_function_type (c : Ctx) : Res := rec (BareLoop true) c.

(** A literal or expression argument: the characters up to the [E]. *)
Definition raw_template_arg (c : Ctx) : Res :=
  let c := adv c in
  match read_until (inp c) "E" with
  | None => Reject c
  | Some span =>
      let* c := checked (putn c span (length span)) in
      match_char (set_inp c (drop (length span) (inp c))) "E"
  end.

Definition parse_template_arg (c : Ctx) : Res :=
  if (peek c =c "L") || (peek c =c "X") then raw_template_arg c else parse_type c.

Definition template_loop (first : bool) (c : Ctx) : Res :=
  if at_end c then Ok c
  else
    let* c := separator first (txt ", ") c in
    let* c := parse_template_arg c in
    rec (TemplateLoop false) c.

Definition parse_template_args (c : Ctx) : Res :=
  let* c := match_char c "I" in
  let* c := checked (put c "<") in
  let* c := rec (TemplateLoop true) c in
  let* c := match_char c "E" in
  checked (put c ">").

Definition special_text (kind : ascii) : option (list ascii) :=
  if (kind =c "V") || (kind =c "W") then Some (txt "vtable for ")
  else if kind =c "T" then Some (txt "VTT for ")
  else if kind =c "I" then Some (txt "typeinfo for ")
  else if kind =c "S" then Some (txt "typeinfo name for ")
  else if kind =c "v" then Some (txt "vcall offset ")
  else if kind =c "c" then Some (txt "covariant return ")
  else if kind =c "C" then Some (txt "construction vtable for ")
  else if kind =c "F" then Some (txt "virtual function offset ")
  else if kind =c "G" then Some (txt "guard variable for ")
  else None.

Definition parse_special_name (c : Ctx) : Res :=
  let* c := match_char c "T" in
  if eof c then Reject c
  else match special_text (peek c) with
       | Some t => parse_type (ignored (puts (adv c) t))
       | None => Reject (adv c)
       end.

(** The parameter list of an encoding. *)
Definition parameters (c : Ctx) : Res :=
  let* c := checked (put c "(") in
  let* c := parse_bare_function_type c in
  checked (put c ")").

Definition parse_encoding (c : Ctx) : Res :=
  if (peek c =c "T") && negb (peek1 c =c "N") then parse_special_name c
  else if peek c =c "N" then
    let* c := rec NestedName c in
    if eof c then Ok c else if peek c =c "E" then Ok c else parameters c
  else if peek c =c "L" then
    let* c := parse_source_name (adv c) in parameters c
  else if is_digit (peek c) then
    let* c := parse_source_name c in
    if eof c then Ok c else if peek c =c "E" then Ok c else parameters c
  else Reject c.

(** One unfolding of the recursive productions. *)
Definition production (p : Prod) (c : Ctx) : Res :=
  match p with
  | TypeSub add => parse_type_sub add c
  | NestedName => parse_nested_name c
  | NestedLoop first => nested_loop first c
  | TemplateArgs => parse_template_args c
  | TemplateLoop first => template_loop first c
  | BareLoop first => bare_loop first c
  end.
End Grammar.

Fixpoint parse (fuel : nat) (p : Prod) (c : Ctx) : Res :=
  match fuel with
  | O => OutOfFuel
  | S fuel => production (parse fuel) p c
  end.

(** * Entry point *)

(** Enough for an input of [n] characters (see [parse_total]). *)
Definition fuel_for (n : nat) : nat := (4 * n + 4)%nat.

Definition demangle_internal (mangled : list ascii) (c : Ctx) : Res :=
  match mangled with
  | a :: b :: rest =>
      if (a =c "_") && (b =c "Z") then
        let* c := parse_encoding (parse (fuel_for (length rest))) (set_inp c rest) in
        Ok {| inp := inp c; mem := <[out c := NUL]> (mem c); below := below c; out := out c;
              out_end := out_end c; subs := subs c |}
      else Reject c
  | _ => Reject c
  end.

(** [buf[i] = mangled[i]] from [i] on, at most [room] characters, then NUL. *)
Fixpoint copy_original (l : list ascii) (i : nat) (room : nat) (m : list ascii) : list ascii :=
  match l, room with
  | a :: l, S room => copy_original l (S i) room (<[i := a]> m)
  | _, _ => <[i := NUL]> m
  end.

(** What a call returns: [mangled] itself, or [buf] with the memory from it on. *)
Inductive Demangled :=
| Unchanged
| InBuffer (m : list ascii)
| NoAnswer.

Definition demangle (mangled : option (list ascii)) (buf : option (list ascii)) (bufsz : nat)
    (below : nat -> ascii) : Demangled :=
  match mangled, buf with
  | Some s, Some m =>
      if (bufsz <? 2)%nat then Unchanged
      else
        let c := {| inp := s; mem := m; below := below; out := 0; out_end := bufsz - 1;
                    subs := [] |} in
        match demangle_internal s c with
        | Ok c => InBuffer (mem c)
        | Reject c => InBuffer (copy_original s 0 (bufsz - 1) (<[0%nat := NUL]> (mem c)))
        | OutOfFuel => NoAnswer
        end
  | _, _ => Unchanged
  end.
