(* ===== verification/DemangleParse.v ===== *)
(** The demangler's productions: what each of them preserves, the fuel that
    suffices, and that the answer is a string inside the buffer. *)
From S2P Require Import Prelude Text Demangle.

(** * What every production preserves *)

(** No NUL in the input nor in the output written so far. *)
Definition clean (c : Ctx) : Prop :=
  clean_text (inp c) /\ forall i, (i < out c)%nat -> mem c !! i <> Some NUL.

Definition subs_ok (c : Ctx) : Prop :=
  (length (subs c) <= MAX_SUBS)%nat /\ Forall (fun s => length s <= SUB_CHARS)%nat (subs c).

(** The context after some parsing: a suffix of the input is left, output was
    only appended, inside the limit, and table entries were only added. *)
Record extends (c c' : Ctx) : Prop := {
  ext_inp : inp c' `suffix_of` inp c;
  ext_end : out_end c' = out_end c;
  ext_out : (out c <= out c')%nat;
  ext_room : (out c <= out_end c)%nat -> (out c' <= out_end c)%nat;
  ext_len : length (mem c') = length (mem c);
  ext_mem : forall i, (i < out c \/ out_end c <= i)%nat -> mem c' !! i = mem c !! i;
  ext_below : below c' = below c;
  ext_subs : subs c `prefix_of` subs c';
  ext_subs_ok : subs_ok c -> subs_ok c';
  ext_clean : clean c -> clean c';
}.

#[export] Instance extends_preorder : PreOrder extends.
Proof.
  split.
  - intros c. split; auto.
  - intros a b c [] []. split; try congruence; try lia; eauto.
    + by etrans.
    + intros. etrans; [apply ext_mem1 | apply ext_mem0]; [|done].
      rewrite ext_end0. lia.
    + by etrans.
Qed.

Lemma extends_length c c' : extends c c' -> (length (inp c') <= length (inp c))%nat.
Proof. intros E. by apply suffix_length, ext_inp. Qed.

Create HintDb demangle.
#[export] Hint Extern 0 (clean_text _) => reflexivity : demangle.

Lemma extends_inp c l : l `suffix_of` inp c -> extends c (set_inp c l).
Proof.
  intros Hl. split; cbn; try done. intros [? ?]. split; [|done].
  by eapply clean_text_suffix.
Qed.

Lemma extends_adv c : extends c (adv c).
Proof. apply extends_inp. destruct (inp c); [done | by apply suffix_cons_r]. Qed.

Lemma extends_put c a : (clean_text (inp c) -> a <> NUL) -> extends c (put c a).2.
Proof.
  intros Ha. unfold put. destruct (out_end c <=? out c)%nat eqn:E; [done|].
  apply Nat.leb_gt in E. split; cbn; try done; try lia.
  - apply length_insert.
  - intros i Hi. rewrite list_lookup_insert_ne; [done | lia].
  - intros [Hi Hm]. split; [done|]. cbn. intros i Hlt.
    destruct (decide (i = out c)) as [-> | Hne].
    + destruct (decide (out c < length (mem c))%nat).
      * rewrite list_lookup_insert_eq by done. intros [= ->]. by apply Ha.
      * rewrite lookup_ge_None_2; [done|]. rewrite length_insert. lia.
    + rewrite list_lookup_insert_ne by done. apply Hm. lia.
Qed.

Lemma inp_put c a : inp (put c a).2 = inp c.
Proof. unfold put. by case_match. Qed.

Lemma inp_puts s : forall c, inp (puts c s).2 = inp c.
Proof.
  induction s as [|a s IH]; intros c; cbn; [done|].
  pose proof (inp_put c a). destruct (put c a) as [[] c']; cbn in *; by rewrite ?IH.
Qed.

Lemma extends_puts s : forall c,
  (clean_text (inp c) -> clean_text s) -> extends c (puts c s).2.
Proof.
  induction s as [|a s IH]; intros c Hs; cbn; [done|].
  assert (extends c (put c a).2) as E.
  { apply extends_put. intros Hc. by apply Hs, clean_text_cons in Hc as [? _]. }
  pose proof (inp_put c a). destruct (put c a) as [[] c'] eqn:Ep; cbn in *; [|done].
  etrans; [exact E | apply IH]. intros Hc. rewrite H in Hc.
  by apply Hs, clean_text_cons in Hc as [_ ?].
Qed.

Lemma extends_add_sub c start len : extends c (add_sub c start len).
Proof.
  unfold add_sub. case_match eqn:E; [done|]. apply Nat.leb_gt in E.
  split; cbn; try done.
  - by eexists.
  - intros [Hl Hf]. split; cbn; [rewrite length_app; cbn; lia|].
    apply Forall_app. split; [done|]. constructor; [|done].
    rewrite length_map, length_seq. lia.
Qed.

Lemma inp_add_sub c start len : inp (add_sub c start len) = inp c.
Proof. unfold add_sub. by case_match. Qed.

(** * Outcomes

    [good c k F r]: an outcome of a production that starts at [c], consumes at
    least [k] characters when it succeeds, and does not run out of fuel when
    [F] holds. *)
Definition good (c : Ctx) (k : nat) (F : Prop) (r : Res) : Prop :=
  match r with
  | Ok c' => extends c c' /\ (length (inp c') + k <= length (inp c))%nat
  | Reject c' => extends c c'
  | OutOfFuel => ~ F
  end.

Lemma good_bind c k k1 (F F1 : Prop) r f :
  good c k1 F1 r -> (F -> F1) ->
  (forall c', extends c c' -> (length (inp c') + k1 <= length (inp c))%nat ->
     good c' (k - k1) F (f c')) ->
  good c k F (bind r f).
Proof.
  intros Hr HF Hf. destruct r as [c'|c'|]; cbn in *; [|done|tauto].
  destruct Hr as [E L]. specialize (Hf c' E L).
  destruct (f c') as [c''|c''|]; cbn in *; [|by etrans | done].
  destruct Hf as [E' L']. split; [by etrans | lia].
Qed.

Lemma good_from c c1 k k1 (F F1 : Prop) r :
  good c1 k1 F1 r -> extends c c1 -> (length (inp c1) + k <= length (inp c) + k1)%nat ->
  (F -> F1) -> good c k F r.
Proof.
  intros Hr E L HF. destruct r as [c'|c'|]; cbn in *; [|by etrans|tauto].
  destruct Hr. split; [by etrans | lia].
Qed.

Lemma good_ok c c' k F :
  extends c c' -> (length (inp c') + k <= length (inp c))%nat -> good c k F (Ok c').
Proof. done. Qed.

Lemma good_reject c c' k F : extends c c' -> good c k F (Reject c').
Proof. done. Qed.

Lemma good_put c a F :
  (clean_text (inp c) -> a <> NUL) -> good c 0 F (checked (put c a)).
Proof.
  intros Ha. pose proof (extends_put c a Ha) as E. pose proof (inp_put c a) as I.
  unfold checked. destruct (put c a) as [[] c']; cbn in *; [|done].
  rewrite I. split; [done | lia].
Qed.

Lemma good_puts c s F :
  (clean_text (inp c) -> clean_text s) -> good c 0 F (checked (puts c s)).
Proof.
  intros Hs. pose proof (extends_puts s c Hs) as E. pose proof (inp_puts s c) as I.
  unfold checked. destruct (puts c s) as [[] c']; cbn in *; [|done].
  rewrite I. split; [done | lia].
Qed.

(** ** Characters *)

Lemma length_adv c : peek c <> NUL -> (length (inp (adv c)) + 1 = length (inp c))%nat.
Proof. unfold peek, adv. destruct (inp c); cbn; [done | lia]. Qed.

Lemma peek_char c a : (peek c =c a) = true -> a <> NUL -> peek c <> NUL.
Proof. intros E ?. apply Ascii.eqb_eq in E. congruence. Qed.

Lemma peek_digit c : is_digit (peek c) = true -> peek c <> NUL.
Proof. intros E H. by rewrite H in E. Qed.

Lemma good_match c a F : a <> NUL -> good c 1 F (match_char c a).
Proof.
  intros Ha. unfold match_char. destruct (peek c =c a) eqn:E; [|by apply good_reject].
  pose proof (length_adv c (peek_char _ _ E Ha)). apply good_ok; [apply extends_adv | lia].
Qed.

(** Closes the goals about a text chosen by a chain of character tests. *)
Ltac text_cases :=
  repeat match goal with
  | |- context [if ?b then _ else _] => destruct b
  end; intros; simplify_eq; reflexivity.

Lemma ctor_dtor_clean n t : ctor_dtor n = Some t -> clean_text t.
Proof. unfold ctor_dtor. text_cases. Qed.

Lemma nested_std_clean n t len : nested_std n = Some (t, len) -> clean_text t.
Proof. unfold nested_std. text_cases. Qed.

Lemma std_text_clean n t : std_text n = Some t -> clean_text t.
Proof. unfold std_text. text_cases. Qed.

Lemma builtin_text_clean n t : builtin_text n = Some t -> clean_text t.
Proof. unfold builtin_text. text_cases. Qed.

Lemma builtin_d_text_clean n t : builtin_d_text n = Some t -> clean_text t.
Proof. unfold builtin_d_text. text_cases. Qed.

Lemma cv_text_clean n t : cv_text n = Some t -> clean_text t.
Proof. unfold cv_text. text_cases. Qed.

Lemma special_text_clean n t : special_text n = Some t -> clean_text t.
Proof. unfold special_text. text_cases. Qed.

Lemma cv_text_not_nul a t : cv_text a = Some t -> a <> NUL.
Proof. intros H ->. discriminate. Qed.

Lemma builtin_not_nul a t : builtin_text a = Some t -> a <> NUL.
Proof. intros H ->. discriminate. Qed.

Lemma std_not_nul a t : std_text a = Some t -> a <> NUL.
Proof. intros H ->. discriminate. Qed.

Lemma special_not_nul a t : special_text a = Some t -> a <> NUL.
Proof. intros H ->. discriminate. Qed.

#[export] Hint Resolve ctor_dtor_clean nested_std_clean std_text_clean builtin_text_clean
  builtin_d_text_clean cv_text_clean special_text_clean c_str_clean : demangle.
#[export] Hint Resolve cv_text_not_nul builtin_not_nul std_not_nul special_not_nul
  peek_digit : demangle.
#[export] Hint Extern 1 (peek _ <> NUL) =>
  (eapply peek_char; [eassumption | discriminate]) : demangle.

(** Lengths after an [adv] whose character was tested. *)
Ltac adv_lengths :=
  repeat match goal with
  | |- context [adv ?c] =>
      lazymatch goal with
      | _ : (length (inp (adv c)) <= length (inp c))%nat |- _ => fail
      | _ => pose proof (extends_length _ _ (extends_adv c));
             try assert (length (inp (adv c)) + 1 = length (inp c))%nat
               by (apply length_adv; eauto with demangle)
      end
  end.

(** Contexts that [adv], [puts] and the table updates reach. *)
Lemma extends_adv_r c c' : extends c c' -> extends c (adv c').
Proof. intros. by etrans; [|apply extends_adv]. Qed.

Lemma extends_ignored c c' t : extends c c' -> clean_text t -> extends c (ignored (puts c' t)).
Proof. intros ? Ht. etrans; [done | by apply extends_puts]. Qed.

Lemma extends_add_sub_r c c' s n : extends c c' -> extends c (add_sub c' s n).
Proof. intros. by etrans; [|apply extends_add_sub]. Qed.

Lemma extends_add_sub_from c c' n : extends c c' -> extends c (add_sub_from c' n).
Proof. apply extends_add_sub_r. Qed.

Lemma inp_ignored c t : inp (ignored (puts c t)) = inp c.
Proof. apply inp_puts. Qed.

Lemma inp_add_sub_from c n : inp (add_sub_from c n) = inp c.
Proof. apply inp_add_sub. Qed.

#[export] Hint Resolve extends_adv extends_adv_r extends_ignored extends_add_sub_r
  extends_add_sub_from : demangle.
#[export] Hint Extern 0 (extends ?c ?c) => reflexivity : demangle.

Ltac inp_simpl :=
  repeat first [rewrite inp_ignored | rewrite inp_add_sub_from | rewrite inp_add_sub].

(** Ends a branch: [Ok] or [Reject] of a context built from known steps. *)
Ltac good_leaf :=
  lazymatch goal with
  | |- good _ _ _ (Reject _) => apply good_reject; eauto 6 with demangle
  | |- good _ _ _ (Ok _) =>
      apply good_ok; [eauto 6 with demangle | inp_simpl; adv_lengths; lia]
  end.

(** ** Helpers *)

Lemma read_digits_suffix l : forall v, (read_digits l v).2 `suffix_of` l.
Proof.
  induction l as [|a l IH]; intros v; cbn; [done|].
  destruct (is_digit a); [|done]. case_match; cbn; by apply suffix_cons_r.
Qed.

Lemma read_digits_progress a l v :
  is_digit a = true -> (length (read_digits (a :: l) v).2 <= length l)%nat.
Proof.
  intros Ha. cbn. rewrite Ha. case_match; cbn; [done|].
  apply suffix_length, read_digits_suffix.
Qed.

Lemma read_number_extends c : extends c (read_number c).2.
Proof.
  unfold read_number. case_match; [|done].
  pose proof (read_digits_suffix (inp c) 0). destruct (read_digits _ _). by apply extends_inp.
Qed.

Lemma read_number_progress c v c' :
  read_number c = (Some v, c') -> (length (inp c') + 1 <= length (inp c))%nat.
Proof.
  unfold read_number. destruct (is_digit (peek c)) eqn:Hd; [|done].
  unfold peek in Hd. destruct (inp c) as [|a l] eqn:Hi; [done|].
  pose proof (read_digits_progress a l 0 Hd) as P.
  destruct (read_digits (a :: l) 0). cbn in *. intros [= -> <-]. cbn. lia.
Qed.

Lemma skip_discriminator_extends c : extends c (skip_discriminator c).
Proof.
  unfold skip_discriminator. case_match; [done|].
  pose proof (read_number_extends (adv c)) as E.
  destruct (read_number (adv c)) as [[v|] c']; cbn in *; [|done].
  etrans; [apply extends_adv | done].
Qed.

Lemma extends_skip_discriminator c c' : extends c c' -> extends c (skip_discriminator c').
Proof. intros. by etrans; [|apply skip_discriminator_extends]. Qed.
#[export] Hint Resolve extends_skip_discriminator : demangle.

Lemma put_sub_extends c i : extends c (put_sub c i).
Proof.
  unfold put_sub. apply extends_ignored; [done|]. case_match; eauto with demangle.
Qed.

Lemma inp_put_sub c i : inp (put_sub c i) = inp c.
Proof. apply inp_ignored. Qed.

Lemma put_set_inp c l a :
  put (set_inp c l) a = ((put c a).1, set_inp (put c a).2 l).
Proof. unfold put. cbn. by case_match. Qed.

(** One character moved from the input to the output. *)
Lemma good_move c a l F :
  inp c = a :: l -> good c 1 F (checked (put (set_inp c l) a)).
Proof.
  intros Hi. assert (extends c (put c a).2) as E.
  { apply extends_put. rewrite Hi. intros Hc. by apply clean_text_cons in Hc as [? _]. }
  pose proof (inp_put c a) as I. rewrite put_set_inp. unfold checked; cbn.
  assert (extends c (set_inp (put c a).2 l)).
  { etrans; [done|]. apply extends_inp. rewrite I, Hi. by apply suffix_cons_r. }
  case_match; [apply good_ok | apply good_reject]; cbn; try done. rewrite Hi. cbn. lia.
Qed.

Lemma put_inp c a l c' : put (set_inp c l) a = (true, c') -> inp c' = l.
Proof. rewrite put_set_inp. by intros [= _ <-]. Qed.

Lemma copy_name_good l : forall len c F,
  l = inp c -> good c 0 F (copy_name l len c).
Proof.
  induction l as [|a l IH]; intros len c F Hl; cbn.
  - case_bool; [apply good_ok | apply good_reject]; try (apply extends_inp; by rewrite <- Hl).
    cbn. lia.
  - case_bool.
    { apply good_ok; [apply extends_inp; by rewrite <- Hl | cbn; rewrite <- Hl; cbn; lia]. }
    pose proof (good_move c a l F ltac:(done)) as G.
    pose proof (put_inp c a l) as I.
    destruct (put (set_inp c l) a) as [[] c']; cbn in *; [|exact G].
    destruct G as [E L]. eapply good_from with (k1 := 0%nat) (F1 := F);
      [apply IH; symmetry; by apply I | done | lia | done].
Qed.

Lemma parse_source_name_good c F : good c 1 F (parse_source_name c).
Proof.
  unfold parse_source_name. pose proof (read_number_extends c) as E.
  pose proof (read_number_progress c) as P.
  destruct (read_number c) as [[len|] c']; cbn [snd] in E; [|by apply good_reject].
  specialize (P _ _ eq_refl).
  assert (forall n, extends c' (set_inp c' (drop n (inp c')))) as D
    by (intros n; apply extends_inp, suffix_drop).
  eapply good_from with (c1 := c') (k1 := 0%nat) (F1 := F); [|done | lia | done].
  case_bool.
  { eapply good_from with (k1 := 0%nat) (F1 := F); [|apply (D 12%nat) | |done].
    - by apply good_puts.
    - cbn -[drop]. rewrite length_drop. lia. }
  case_bool; [apply good_ok; [done | cbn -[drop]; rewrite length_drop; lia]|].
  case_bool; [by apply good_reject | by apply copy_name_good].
Qed.

Lemma source_name_sub_good c F : good c 1 F (source_name_sub c).
Proof.
  unfold source_name_sub. eapply good_bind; [apply parse_source_name_good | done |].
  intros. good_leaf.
Qed.

Lemma seq_id_good c F :
  peek c <> NUL -> good c 1 F (seq_id c (fun c idx => Ok (put_sub c idx))).
Proof.
  intros Hp. unfold seq_id. case_match.
  - apply good_ok; [etrans; [apply extends_adv | apply put_sub_extends]|].
    rewrite inp_put_sub. adv_lengths. lia.
  - eapply good_from with (c1 := adv c) (k1 := 1%nat) (F1 := F);
      [|apply extends_adv | adv_lengths; lia | done].
    eapply good_bind; [by apply good_match | done |].
    intros. apply good_ok; [apply put_sub_extends | rewrite inp_put_sub; lia].
Qed.

Lemma parse_substitution_good c F : good c 1 F (parse_substitution c).
Proof.
  unfold parse_substitution. eapply good_bind; [by apply good_match | done |].
  intros c' _ _. destruct (std_text (peek c')) eqn:E; [good_leaf|].
  destruct (peek c' =c "_") eqn:E1; cbn [orb].
  { eapply good_from; [apply (seq_id_good c' F) | done | lia | done].
    eauto with demangle. }
  destruct (is_digit (peek c')) eqn:E2; [|good_leaf].
  eapply good_from; [apply (seq_id_good c' F) | done | lia | done].
  eauto with demangle.
Qed.

Lemma parse_builtin_type_good c F : good c 1 F (parse_builtin_type c).
Proof.
  unfold parse_builtin_type. destruct (builtin_text (peek c)) eqn:E; [good_leaf|].
  destruct (peek c =c "D") eqn:E1; [|good_leaf].
  destruct (builtin_d_text (peek1 c)) eqn:E2; good_leaf.
Qed.

(** The length of the input left by the qualifiers at its front. *)
Lemma cv_loop_good l : forall c F, l = inp c -> good c 0 F (cv_loop l c).
Proof.
  induction l as [|a l IH]; intros c F Hl; cbn [cv_loop]; [good_leaf|].
  destruct (cv_text a) eqn:E; [|good_leaf].
  pose proof (good_puts (adv c) l0 F) as G. pose proof (inp_puts l0 (adv c)) as I.
  assert (inp (adv c) = l) as Ia by (unfold adv; rewrite <- Hl; done).
  unfold checked in *. destruct (puts (adv c) l0) as [[] c']; cbn in *.
  - destruct G as [G1 G2]; [eauto with demangle|].
    eapply good_from with (k1 := 0%nat) (F1 := F);
      [apply IH; congruence | etrans; [apply extends_adv | done]
      | rewrite I, Ia, <- Hl; cbn; lia | done].
  - etrans; [apply extends_adv | apply G]. eauto with demangle.
Qed.

Lemma cv_loop_progress c t F :
  cv_text (peek c) = Some t -> good c 1 F (cv_loop (inp c) c).
Proof.
  intros Ht. pose proof Ht as Hn. apply cv_text_not_nul in Hn.
  unfold peek in *. destruct (inp c) as [|a l] eqn:Hi; [done|]. cbn [cv_loop]. rewrite Ht.
  pose proof (good_puts (adv c) t F) as G. pose proof (inp_puts t (adv c)) as I.
  assert (inp (adv c) = l) as Ia by (unfold adv; rewrite Hi; done).
  unfold checked in *. destruct (puts (adv c) t) as [[] c']; cbn in *.
  - destruct G as [G1 G2]; [eauto with demangle|].
    eapply good_from with (k1 := 0%nat) (F1 := F);
      [apply cv_loop_good; congruence | etrans; [apply extends_adv | done]
      | rewrite Hi, I, Ia; cbn; lia | done].
  - etrans; [apply extends_adv | apply G]. eauto with demangle.
Qed.

Lemma skip_cv_suffix l : skip_cv l `suffix_of` l.
Proof.
  induction l as [|a l IH]; cbn; [done|]. case_match; [by apply suffix_cons_r | done].
Qed.

Lemma read_until_prefix l a s : read_until l a = Some s -> s `prefix_of` l.
Proof.
  revert s. induction l as [|b l IH]; intros s; cbn; [done|].
  case_match; [intros [= <-]; apply prefix_nil|].
  destruct (read_until l a) as [s'|] eqn:E; [|done]. intros [= <-].
  apply prefix_cons, IH. done.
Qed.

Lemma raw_template_arg_good c F : peek c <> NUL -> good c 1 F (raw_template_arg c).
Proof.
  intros Hp. unfold raw_template_arg.
  eapply good_from with (c1 := adv c) (k1 := 0%nat) (F1 := F);
    [|apply extends_adv | adv_lengths; lia | done].
  destruct (read_until (inp (adv c)) "E") as [s|] eqn:E; [|good_leaf].
  apply read_until_prefix in E as [r Hr].
  eapply good_bind with (k1 := 0%nat) (F1 := F); [apply good_puts | done |].
  - rewrite Hr. unfold clean_text. rewrite forallb_app. intros H; bool_to_prop.
    by apply clean_text_take.
  - intros c' _ _.
    eapply good_from with (k1 := 1%nat) (F1 := F); [by apply good_match | | | done].
    + apply extends_inp, suffix_drop.
    + cbn. rewrite length_drop. lia.
Qed.

Lemma separator_good first sep c F : clean_text sep -> good c 0 F (separator first sep c).
Proof. intros. unfold separator. case_match; [good_leaf | by apply good_puts]. Qed.

(** * Termination measure *)

(** The fuel that suffices for a production on [n] characters of input. *)
Definition need (p : Prod) (n : nat) : nat :=
  match p with
  | TypeSub _ => 4 * n + 2
  | NestedName | NestedLoop _ | TemplateArgs => 4 * n + 1
  | TemplateLoop _ | BareLoop _ => 4 * n + 3
  end.

(** Productions that consume input when they succeed. *)
Definition strict (p : Prod) : nat :=
  match p with
  | TypeSub _ | NestedName | TemplateArgs => 1
  | NestedLoop _ | TemplateLoop _ | BareLoop _ => 0
  end.

Definition rec_good (f : nat) (rec : Prod -> Ctx -> Res) : Prop :=
  forall p c, good c (strict p) (need p (length (inp c)) <= f)%nat (rec p c).

Section Productions.
Context (rec : Prod -> Ctx -> Res) (f : nat) (Hrec : rec_good f rec).

Lemma rec_from p c1 c k (F : Prop) :
  extends c c1 -> (length (inp c1) + k <= length (inp c) + strict p)%nat ->
  (F -> need p (length (inp c1)) <= f)%nat -> good c k F (rec p c1).
Proof. intros. eapply good_from; [apply Hrec | done | done | done]. Qed.

(** Arithmetic under the fuel condition of the goal. *)
Ltac flia :=
  let X := fresh in
  intros X;
  repeat match goal with HF : _ -> _ |- _ => specialize (HF X) end;
  cbn [need strict] in *; lia.

(** Runs a recursive call and continues with the context it leaves. *)
Ltac rec_bind :=
  eapply good_bind; [apply Hrec | flia | intros; cbn [strict] in *].

Lemma finish_good add saved c c' k F :
  extends c c' -> (length (inp c') + k <= length (inp c))%nat ->
  good c k F (finish add saved c').
Proof. intros. unfold finish. destruct add; good_leaf. Qed.

Lemma optional_template_args_good c (F : Prop) :
  (F -> 4 * length (inp c) + 1 <= f)%nat -> good c 0 F (optional_template_args rec c).
Proof.
  intros. unfold optional_template_args. case_match; [|good_leaf].
  apply rec_from; cbn; [done | lia | done].
Qed.

Lemma parse_prefix_good c (F : Prop) :
  (F -> 4 * length (inp c) <= f)%nat -> good c 1 F (parse_prefix rec c).
Proof.
  intros HF. unfold parse_prefix.
  destruct (is_digit (peek c)) eqn:E1.
  { eapply good_bind; [apply source_name_sub_good | exact id | intros].
    destruct (peek c' =c "E"); [good_leaf | apply optional_template_args_good; flia]. }
  destruct (peek c =c "L") eqn:E2.
  { eapply good_from with (c1 := adv c) (k1 := 1%nat); [|good_leaf || apply extends_adv
      |adv_lengths; lia | exact id].
    eapply good_bind; [apply source_name_sub_good | exact id | intros].
    apply good_ok; [eauto with demangle|].
    pose proof (extends_length _ _ (skip_discriminator_extends c')). lia. }
  destruct (peek c =c "S") eqn:E3; [|good_leaf].
  eapply good_bind; [apply parse_substitution_good | exact id | intros].
  eapply good_from; [apply optional_template_args_good with (F := F) | eauto with demangle
    | inp_simpl; lia | exact id].
  inp_simpl. flia.
Qed.

Lemma nested_substitution_good c (F : Prop) :
  peek c <> NUL -> (F -> 4 * length (inp c) <= f)%nat ->
  good c 1 F (nested_substitution rec c).
Proof.
  intros Hp HF. unfold nested_substitution.
  eapply good_bind with (k1 := 1%nat) (F1 := F);
    [| exact id | intros; apply optional_template_args_good; flia].
  destruct (nested_std (peek1 c)) as [[t len]|] eqn:E.
  { apply good_ok; [eauto 6 with demangle|]. inp_simpl. adv_lengths. lia. }
  destruct (_ || _) eqn:E1.
  - eapply good_from with (c1 := adv c) (k1 := 0%nat) (F1 := F);
      [|apply extends_adv | adv_lengths; lia | exact id].
    assert (peek (adv c) = peek1 c) as Hq
      by (unfold peek, peek1, adv; by destruct (inp c) as [|? [|]]).
    eapply good_from; [apply (seq_id_good (adv c) F) | done | lia | exact id].
    rewrite Hq. intros N. by rewrite N in E1.
  - eapply good_from with (c1 := adv c) (k1 := 1%nat) (F1 := F);
      [apply parse_source_name_good |apply extends_adv | adv_lengths; lia | exact id].
Qed.

Lemma nested_component_good c (F : Prop) :
  (F -> 4 * length (inp c) <= f)%nat -> good c 1 F (nested_component rec c).
Proof.
  intros HF. unfold nested_component.
  destruct (peek c =c "S") eqn:E1; [apply nested_substitution_good; eauto with demangle|].
  destruct (is_digit (peek c)) eqn:E2.
  { eapply good_bind; [apply source_name_sub_good | exact id | intros].
    apply optional_template_args_good; flia. }
  destruct (peek c =c "L") eqn:E3.
  { eapply good_from with (c1 := adv c) (k1 := 1%nat); [|apply extends_adv
      |adv_lengths; lia | exact id].
    assert (length (inp (adv c)) <= length (inp c))%nat by apply extends_length, extends_adv.
    eapply good_bind; [apply source_name_sub_good | exact id | intros].
    pose proof (extends_length _ _ (skip_discriminator_extends c')).
    eapply good_from; [apply optional_template_args_good with (F := F)
      | apply skip_discriminator_extends | lia | exact id].
    flia. }
  destruct (peek c =c "D") eqn:E4; [|good_leaf].
  destruct (ctor_dtor (peek1 c)) eqn:E5; good_leaf.
Qed.

Lemma nested_loop_good first c :
  good c 0 (need (NestedLoop first) (length (inp c)) <= S f)%nat (nested_loop rec first c).
Proof.
  unfold nested_loop. destruct (at_end c); [good_leaf|].
  eapply good_bind; [by apply separator_good | exact id | intros].
  eapply good_bind; [apply nested_component_good | exact id | intros].
  - flia.
  - apply rec_from; [done | cbn; lia | flia].
Qed.

Lemma parse_nested_name_good c :
  good c 1 (need NestedName (length (inp c)) <= S f)%nat (parse_nested_name rec c).
Proof.
  unfold parse_nested_name.
  eapply good_bind; [by apply good_match | exact id | intros].
  set (c1 := set_inp c' (skip_cv (inp c'))).
  assert (extends c' c1) as X1 by apply extends_inp, skip_cv_suffix.
  set (c2 := if _ || _ then adv c1 else c1).
  assert (extends c' c2) as X2 by (subst c2; case_match; eauto with demangle).
  pose proof (extends_length _ _ X2).
  eapply good_bind; [eapply rec_from with (k := 0%nat); [exact X2 | cbn; lia |]
    | exact id | intros].
  - flia.
  - eapply good_from; [by apply good_match | done | lia | exact id].
Qed.

Lemma bare_loop_good first c :
  good c 0 (need (BareLoop first) (length (inp c)) <= S f)%nat (bare_loop rec first c).
Proof.
  unfold bare_loop. destruct (at_end c); [good_leaf|].
  eapply good_bind; [by apply separator_good | exact id | intros].
  rec_bind. apply rec_from; [done | cbn; lia | flia].
Qed.

Lemma parse_template_arg_good c (F : Prop) :
  (F -> 4 * length (inp c) + 2 <= f)%nat -> good c 1 F (parse_template_arg rec c).
Proof.
  intros. unfold parse_template_arg. destruct (peek c =c "L") eqn:E1; cbn [orb].
  { apply raw_template_arg_good. eauto with demangle. }
  destruct (peek c =c "X") eqn:E2.
  { apply raw_template_arg_good. eauto with demangle. }
  apply rec_from; [done | cbn; lia | flia].
Qed.

Lemma template_loop_good first c :
  good c 0 (need (TemplateLoop first) (length (inp c)) <= S f)%nat (template_loop rec first c).
Proof.
  unfold template_loop. destruct (at_end c); [good_leaf|].
  eapply good_bind; [by apply separator_good | exact id | intros].
  eapply good_bind; [apply parse_template_arg_good | exact id | intros]; [flia|].
  apply rec_from; [done | cbn; lia | flia].
Qed.

Lemma parse_template_args_good c :
  good c 1 (need TemplateArgs (length (inp c)) <= S f)%nat (parse_template_args rec c).
Proof.
  unfold parse_template_args.
  eapply good_bind; [by apply good_match | exact id | intros].
  eapply good_bind; [by apply good_put | exact id | intros].
  rec_bind.
  eapply good_bind; [by apply good_match | exact id | intros].
  eapply good_from; [by apply good_put | done | lia | exact id].
Qed.

Lemma bound_text_clean n : 0 <= n -> clean_text (bound_text n).
Proof.
  intros. unfold bound_text.
  repeat case_bool; cbn [app]; repeat apply digit_char_clean;
    (reflexivity || apply Z.mod_pos_bound; lia).
Qed.

Lemma param_text_clean n : 0 <= n <= 10 -> clean_text (param_text n).
Proof.
  intros. unfold param_text. repeat case_bool; cbn [app]; repeat apply digit_char_clean;
    try reflexivity; zlia.
Qed.

Lemma read_digits_nonneg l : forall v n, 0 <= v -> (read_digits l v).1 = Some n -> 0 <= n.
Proof.
  induction l as [|a l IH]; cbn; intros v n Hv; [by intros [= <-]|].
  case_match; [|by intros [= <-]]. case_match; [done|].
  apply IH. by apply wrap_range.
Qed.

Lemma read_number_nonneg c n : (read_number c).1 = Some n -> 0 <= n.
Proof.
  unfold read_number. case_match; [|done].
  pose proof (read_digits_nonneg (inp c) 0) as P. destruct (read_digits _ _). cbn in *.
  by apply P.
Qed.

(** The productions of a type, from a context whose first character is tested. *)
Lemma type_suffix_good add t c (F : Prop) :
  clean_text t -> peek c <> NUL -> (F -> 4 * length (inp c) + 2 <= S f)%nat ->
  good c 1 F (type_suffix rec add t (out c) c).
Proof.
  intros Ht Hp HF. unfold type_suffix.
  assert (length (inp (adv c)) + 1 = length (inp c))%nat by by apply length_adv.
  eapply good_from with (k1 := 0%nat) (F1 := F); [|apply extends_adv | lia | exact id].
  rec_bind.
  eapply good_bind; [by apply good_puts | exact id | intros].
  apply finish_good; [done | lia].
Qed.

Lemma type_member_good add c (F : Prop) :
  peek c <> NUL -> (F -> 4 * length (inp c) + 2 <= S f)%nat ->
  good c 1 F (type_member rec add (out c) c).
Proof.
  intros Hp HF. unfold type_member.
  assert (length (inp (adv c)) + 1 = length (inp c))%nat by by apply length_adv.
  eapply good_from with (k1 := 0%nat) (F1 := F); [|apply extends_adv | lia | exact id].
  rec_bind.
  eapply good_bind; [by apply good_puts | exact id | intros].
  rec_bind. apply finish_good; [done | lia].
Qed.

Lemma type_nested_good add c (F : Prop) :
  (F -> 4 * length (inp c) + 2 <= S f)%nat -> good c 1 F (type_nested rec add (out c) c).
Proof.
  intros HF. unfold type_nested. rec_bind. case_match; good_leaf.
Qed.

Lemma type_param_good add c (F : Prop) :
  peek c <> NUL -> good c 1 F (type_param add (out c) c).
Proof.
  intros Hp. unfold type_param.
  assert (length (inp (adv c)) + 1 = length (inp c))%nat by by apply length_adv.
  set (idx := if is_digit (peek (adv c)) then code (peek (adv c)) - 48 + 1 else 0).
  assert (0 <= idx <= 10) as Hi.
  { subst idx. destruct (is_digit _) eqn:E; [|lia]. unfold is_digit in E. bool_to_prop. lia. }
  set (c1 := if is_digit (peek (adv c)) then adv (adv c) else adv c).
  assert (extends c c1) as X by (subst c1; case_match; eauto with demangle).
  assert (length (inp c1) + 1 <= length (inp c))%nat.
  { subst c1. case_match; [|lia]. pose proof (extends_length _ _ (extends_adv (adv c))). lia. }
  eapply good_from with (c1 := c1) (k1 := 0%nat) (F1 := F); [|done | lia | exact id].
  eapply good_bind; [by apply good_match | exact id | intros].
  eapply good_bind; [by apply good_put | exact id | intros].
  eapply good_bind; [by apply good_puts; intros _; apply param_text_clean | exact id | intros].
  apply finish_good; [done | lia].
Qed.

Lemma type_function_good add c (F : Prop) :
  peek c <> NUL -> (F -> 4 * length (inp c) + 2 <= S f)%nat ->
  good c 1 F (type_function rec add (out c) c).
Proof.
  intros Hp HF. unfold type_function.
  assert (length (inp (adv c)) + 1 = length (inp c))%nat by by apply length_adv.
  eapply good_from with (k1 := 0%nat) (F1 := F); [|apply extends_adv | lia | exact id].
  eapply good_bind; [by apply good_put | exact id | intros].
  rec_bind.
  set (c1 := if peek c'0 =c "E" then adv c'0 else c'0).
  assert (extends c'0 c1) as X by (subst c1; case_match; eauto with demangle).
  pose proof (extends_length _ _ X).
  eapply good_from with (k1 := 0%nat) (F1 := F); [|exact X | lia | exact id].
  eapply good_bind; [by apply good_put | exact id | intros].
  apply finish_good; [done | lia].
Qed.

Lemma type_array_good add c (F : Prop) :
  peek c <> NUL -> (F -> 4 * length (inp c) + 2 <= S f)%nat ->
  good c 1 F (type_array rec add (out c) c).
Proof.
  intros Hp HF. unfold type_array.
  assert (length (inp (adv c)) + 1 = length (inp c))%nat by by apply length_adv.
  eapply good_from with (k1 := 0%nat) (F1 := F); [|apply extends_adv | lia | exact id].
  eapply good_bind; [by apply good_put | exact id | intros].
  eapply good_bind with (k1 := 0%nat) (F1 := F); [| exact id | intros].
  - case_match; [|good_leaf].
    pose proof (read_number_extends c') as E. pose proof (read_number_progress c') as P.
    pose proof (read_number_nonneg c') as N.
    destruct (read_number c') as [[n|] c1]; cbn [fst snd] in *; [|by apply good_reject].
    specialize (P _ _ eq_refl). specialize (N _ eq_refl).
    eapply good_from; [apply (good_puts c1) with (F := F) | done | lia | exact id].
    intros _. by apply bound_text_clean.
  - eapply good_bind; [by apply good_put | exact id | intros].
    rec_bind. apply finish_good; [done | lia].
Qed.

Lemma parse_type_sub_good add c :
  good c 1 (need (TypeSub add) (length (inp c)) <= S f)%nat (parse_type_sub rec add c).
Proof.
  unfold parse_type_sub. cbn [need].
  destruct (cv_text (peek c)) eqn:Ecv.
  { eapply good_bind; [by eapply cv_loop_progress | exact id | intros].
    rec_bind. case_match; good_leaf. }
  destruct (is_builtin_start c); [apply parse_builtin_type_good|].
  repeat match goal with
  | |- good _ _ _ (if peek c =c ?a then _ else _) => destruct (peek c =c a) eqn:?
  end;
  first [ apply type_suffix_good | apply type_member_good | apply type_nested_good
        | apply type_param_good | apply type_function_good | apply type_array_good | idtac ];
  eauto with demangle; try lia; [|good_leaf].
  eapply good_bind; [apply parse_substitution_good | exact id | intros].
  apply finish_good; [done | lia].
Qed.

Lemma production_good p c :
  good c (strict p) (need p (length (inp c)) <= S f)%nat (production rec p c).
Proof.
  destruct p; cbn [production strict].
  - apply parse_type_sub_good.
  - apply parse_nested_name_good.
  - apply nested_loop_good.
  - apply parse_template_args_good.
  - apply template_loop_good.
  - apply bare_loop_good.
Qed.

Lemma parameters_good c (F : Prop) :
  (F -> 4 * length (inp c) + 3 <= f)%nat -> good c 0 F (parameters rec c).
Proof.
  intros HF. unfold parameters, parse_bare_function_type.
  eapply good_bind; [by apply good_put | exact id | intros].
  rec_bind. eapply good_from; [by apply good_put | done | lia | exact id].
Qed.

Lemma parse_encoding_good c :
  good c 0 (4 * length (inp c) + 3 <= f)%nat (parse_encoding rec c).
Proof.
  unfold parse_encoding.
  destruct (_ && _).
  { unfold parse_special_name, parse_type.
    eapply good_bind; [by apply good_match | exact id | intros].
    destruct (eof c'); [good_leaf|].
    destruct (special_text (peek c')) eqn:E; [|good_leaf].
    pose proof (extends_length _ _ (extends_adv c')).
    apply rec_from; [eauto with demangle | inp_simpl; cbn [strict]; lia | inp_simpl; flia]. }
  destruct (peek c =c "N") eqn:E1.
  { rec_bind. repeat case_match; try good_leaf.
    eapply good_from; [apply parameters_good | done | lia | ]; [|exact id]. flia. }
  destruct (peek c =c "L") eqn:E2.
  { eapply good_from with (k1 := 0%nat); [|apply extends_adv
      | pose proof (extends_length _ _ (extends_adv c)); lia | exact id].
    assert (length (inp (adv c)) <= length (inp c))%nat by apply extends_length, extends_adv.
    eapply good_bind; [apply parse_source_name_good | exact id | intros].
    apply parameters_good. flia. }
  destruct (is_digit (peek c)); [|good_leaf].
  eapply good_bind; [apply parse_source_name_good | exact id | intros].
  repeat case_match; try good_leaf. apply parameters_good. flia.
Qed.
End Productions.

Lemma parse_good f : rec_good f (parse f).
Proof.
  induction f as [|f IH]; intros p c; cbn [parse].
  - cbn. destruct p; cbn; lia.
  - apply production_good. exact IH.
Qed.

(** Enough fuel for the rest of the input always gives an answer. *)
Lemma parse_total f p c : (need p (length (inp c)) <= f)%nat -> parse f p c <> OutOfFuel.
Proof. intros Hf E. pose proof (parse_good f p c) as G. rewrite E in G. by apply G. Qed.

(** * More fuel does not change an answer *)

(** [r2] is [r1], or [r1] has no answer yet. *)
Definition refines (r1 r2 : Res) : Prop := r1 = OutOfFuel \/ r1 = r2.

#[export] Instance refines_preorder : PreOrder refines.
Proof. split; unfold refines; [by right | intros ???; naive_solver]. Qed.

Lemma refines_bind r1 r2 k1 k2 :
  refines r1 r2 -> (forall c, refines (k1 c) (k2 c)) -> refines (bind r1 k1) (bind r2 k2).
Proof. intros [-> | ->] Hk; [by left|]. destruct r2; cbn; [apply Hk | by right | by left]. Qed.

Section Monotone.
Context (rec1 rec2 : Prod -> Ctx -> Res) (Hle : forall p c, refines (rec1 p c) (rec2 p c)).

Ltac mono :=
  repeat first
    [ reflexivity | apply Hle
    | apply refines_bind; [|intros ?]
    | match goal with
      | |- refines (if ?b then _ else _) _ => destruct b
      | |- refines (match ?b with Some _ => _ | None => _ end) _ => destruct b
      | |- refines (let (_, _) := ?b in _) _ => destruct b
      end ].

Lemma production_mono p c : refines (production rec1 p c) (production rec2 p c).
Proof.
  destruct p; cbn [production];
  unfold parse_type_sub, type_suffix, type_member, type_nested, type_function, type_array,
    parse_nested_name, nested_loop, nested_component, nested_substitution,
    optional_template_args, parse_template_args, template_loop, parse_template_arg,
    parse_type, bare_loop; mono.
Qed.

Lemma parse_encoding_mono c : refines (parse_encoding rec1 c) (parse_encoding rec2 c).
Proof.
  unfold parse_encoding, parse_special_name, parameters, parse_bare_function_type, parse_type.
  mono.
Qed.
End Monotone.

Lemma parse_mono f f' p c : (f <= f')%nat -> refines (parse f p c) (parse f' p c).
Proof.
  revert f' p c. induction f as [|f IH]; intros f' p c Hf; [by left|].
  destruct f' as [|f']; [lia|]. cbn [parse]. apply production_mono.
  intros. apply IH. lia.
Qed.

(** The parser with the fuel that its input needs. *)
Definition parse_all (p : Prod) (c : Ctx) : Res := parse (need p (length (inp c))) p c.

Lemma parse_all_total p c : parse_all p c <> OutOfFuel.
Proof. by apply parse_total. Qed.

Lemma parse_refines_all f p c : refines (parse f p c) (parse_all p c).
Proof.
  destruct (Nat.le_ge_cases f (need p (length (inp c)))).
  - by apply parse_mono.
  - destruct (parse_mono (need p (length (inp c))) f p c) as [E|E]; [done| |].
    + by apply parse_all_total in E.
    + right. by rewrite <- E.
Qed.

(** The equation of the recursive productions, free of fuel. *)
Lemma parse_all_unfold p c : parse_all p c = production parse_all p c.
Proof.
  pose proof (parse_all_total p c) as T. unfold parse_all at 1 in T. unfold parse_all at 1.
  destruct (need p (length (inp c))) as [|f]; [done|]. cbn [parse] in *.
  destruct (production_mono (parse f) parse_all (parse_refines_all f) p c); done.
Qed.

(** C35. Every production of the grammar, on every input, answers within a recursion
    depth of four times the remaining length plus three, whatever the buffer,
    and a larger bound on the depth gives the same answer. *)
Theorem productions_terminate p c f :
  (4 * length (inp c) + 3 <= f)%nat ->
  parse f p c <> OutOfFuel /\ forall f', (f <= f')%nat -> parse f' p c = parse f p c.
Proof.
  intros Hf. assert (need p (length (inp c)) <= f)%nat as Hn by (destruct p; cbn [need]; lia).
  pose proof (parse_total f p c Hn) as T. split; [done|]. intros f' Hf'.
  by destruct (parse_mono f f' p c Hf') as [E|E].
Qed.

Lemma encoding_all c f :
  (4 * length (inp c) + 3 <= f)%nat ->
  parse_encoding (parse f) c = parse_encoding parse_all c /\
  parse_encoding (parse f) c <> OutOfFuel.
Proof.
  intros Hf.
  assert (parse_encoding (parse f) c <> OutOfFuel) as T.
  { pose proof (parse_encoding_good (parse f) f (parse_good f) c) as G.
    intros E. by rewrite E in G. }
  split; [|done].
  destruct (parse_encoding_mono (parse f) parse_all (parse_refines_all f) c); done.
Qed.

(** * The answer is a string inside the buffer *)

(** [m'] holds a C string of fewer than [bufsz] characters and differs from [m]
    only inside the buffer. *)
Definition string_in_buffer (bufsz : nat) (m m' : list ascii) : Prop :=
  length m' = length m /\
  (forall i, (bufsz <= i)%nat -> m' !! i = m !! i) /\
  exists n, (n < bufsz)%nat /\ m' !! n = Some NUL /\
            forall i, (i < n)%nat -> m' !! i <> Some NUL.

Lemma copy_original_spec l : forall i room m,
  (i + room < length m)%nat ->
  copy_original l i room m = list_inserts i (take room l ++ [NUL]) m.
Proof.
  induction l as [|a l IH]; intros i room m Hl; cbn; [by rewrite take_nil|].
  destruct room as [|room]; cbn; [done|].
  rewrite IH by (rewrite length_insert; lia).
  symmetry. apply list_insert_inserts_lt. lia.
Qed.

Lemma list_inserts_string i t m :
  clean_text t -> (i + length t < length m)%nat ->
  list_inserts i (t ++ [NUL]) m !! (i + length t)%nat = Some NUL /\
  forall j, (i <= j < i + length t)%nat -> list_inserts i (t ++ [NUL]) m !! j <> Some NUL.
Proof.
  intros Ht Hl. split.
  - rewrite list_lookup_inserts by (rewrite ?length_app; cbn; lia).
    rewrite lookup_app_r by lia. by replace (i + length t - i - length t)%nat with 0%nat by lia.
  - intros j Hj. rewrite list_lookup_inserts by (rewrite ?length_app; cbn; lia).
    rewrite lookup_app_l by lia. intros E. apply list_elem_of_lookup_2 in E.
    unfold clean_text in Ht. rewrite forallb_forall in Ht.
    specialize (Ht NUL). rewrite <- list_elem_of_In in Ht. by apply Ht in E.
Qed.

Lemma demangle_internal_good s c :
  clean_text s ->
  match demangle_internal s c with
  | Ok c' => exists c1, extends (set_inp c (drop 2 s)) c1 /\ mem c' = <[out c1 := NUL]> (mem c1)
                        /\ (out c' = out c1)
  | Reject c' => extends (set_inp c (drop 2 s)) c' \/ c' = c
  | OutOfFuel => False
  end.
Proof.
  intros Hs. destruct s as [|a [|b rest]]; [by right..|].
  unfold demangle_internal. destruct (_ && _); [|by right].
  destruct (encoding_all (set_inp c rest) (fuel_for (length rest))) as [_ T].
  { unfold fuel_for. cbn [inp set_inp]. lia. }
  pose proof (parse_encoding_good _ _ (parse_good (fuel_for (length rest))) (set_inp c rest)) as G.
  destruct (parse_encoding _ _) as [c1|c1|]; cbn in *; [|by left | done].
  exists c1. by destruct G.
Qed.

(** C7. For every mangled name and every buffer of at least two bytes, [demangle]
    returns, and what it returns is a NUL-terminated string inside the buffer;
    nothing outside the buffer is written. *)
Theorem demangle_in_buffer s m bufsz below :
  clean_text s -> (2 <= bufsz <= length m)%nat ->
  exists m', demangle (Some s) (Some m) bufsz below = InBuffer m' /\
             string_in_buffer bufsz m m'.
Proof.
  intros Hs Hb. unfold demangle. destruct (bufsz <? 2)%nat eqn:E; [apply Nat.ltb_lt in E; lia|].
  set (c0 := {| inp := s |}). pose proof (demangle_internal_good s c0 Hs) as G.
  destruct (demangle_internal s c0) as [c'|c'|]; [| |done]; eexists; (split; [done|]).
  - destruct G as (c1 & X & Hm & Ho). rewrite Hm.
    pose proof (ext_room _ _ X ltac:(cbn; lia)) as R. cbn in R.
    pose proof (ext_len _ _ X) as L. cbn in L.
    assert (clean (set_inp c0 (drop 2 s))) as C.
    { split; [|cbn; lia]. cbn. eapply clean_text_suffix; [apply suffix_drop | done]. }
    destruct (ext_clean _ _ X C) as [_ C1].
    split; [by rewrite length_insert|]. split.
    + intros i Hi. rewrite list_lookup_insert_ne by lia.
      apply (ext_mem _ _ X). cbn. lia.
    + exists (out c1). split; [lia|]. split; [apply list_lookup_insert_eq; lia|].
      intros i Hi. rewrite list_lookup_insert_ne by lia. by apply C1.
  - assert (length (mem c') = length m /\ forall i, (bufsz <= i)%nat -> mem c' !! i = m !! i)
      as [L M].
    { destruct G as [X | ->]; [|done]. split; [apply (ext_len _ _ X)|].
      intros i Hi. apply (ext_mem _ _ X). cbn. lia. }
    rewrite copy_original_spec by (rewrite length_insert; lia).
    set (t := take (bufsz - 1) s).
    assert (length t < bufsz)%nat by (subst t; rewrite length_take; lia).
    destruct (list_inserts_string 0 t (<[0%nat := NUL]> (mem c'))) as [Q1 Q2];
      [by apply clean_text_take | rewrite length_insert; lia |].
    split; [by rewrite length_inserts, length_insert|]. split.
    + intros i Hi. rewrite list_lookup_inserts_ge by (rewrite length_app; cbn; lia).
      rewrite list_lookup_insert_ne by lia. by apply M.
    + exists (length t). split; [lia|]. split; [done|]. intros i Hi. apply Q2. lia.
Qed.
