(* ===== verification/DemangleSpec.v ===== *)
(** What the demangler prints.

    Names and types form a small syntax with a printer [show_*], and with the
    encoder [mangle] of the C++ ABI (Itanium): every scope, template and
    compound type is entered in a table, and one that is there already is
    written as a reference [S_], [S0_], ...  [demangle] of an encoding without
    references is the printed text; [spell_*] is the encoding without a table.
    The rest of the file runs the demangler on names outside that fragment,
    references among them, which it gets wrong. *)
From S2P Require Import Prelude Text Demangle DemangleParse.

(** * Names and types *)

Definition ident := list ascii.

Inductive ty :=
| Builtin (a : ascii)
| Pointer (t : ty)
| LvalueRef (t : ty)
| RvalueRef (t : ty)
| Const (t : ty)
| Class (n : name)
with name :=
| Last (i : ident) (a : args)
| Scope (i : ident) (a : args) (n : name)
with args :=
| NoArgs
| Args (t : ty) (a : args).

Definition is_nil (a : args) : bool := match a with NoArgs => true | _ => false end.

Definition spell_ident (i : ident) : list ascii := decimal (Z.of_nat (length i)) ++ i.

Fixpoint spell_ty (t : ty) : list ascii :=
  match t with
  | Builtin a => [a]
  | Pointer t => "P"%char :: spell_ty t
  | LvalueRef t => "R"%char :: spell_ty t
  | RvalueRef t => "O"%char :: spell_ty t
  | Const t => "K"%char :: spell_ty t
  | Class n => "N"%char :: spell_name n ++ ["E"%char]
  end
with spell_name (n : name) : list ascii :=
  match n with
  | Last i a => spell_ident i ++ (if is_nil a then [] else "I"%char :: spell_args a ++ ["E"%char])
  | Scope i a n =>
      spell_ident i ++ (if is_nil a then [] else "I"%char :: spell_args a ++ ["E"%char])
      ++ spell_name n
  end
with spell_args (a : args) : list ascii :=
  match a with
  | NoArgs => []
  | Args t a => spell_ty t ++ spell_args a
  end.

Definition comma (first : bool) : list ascii := if first then [] else txt ", ".

Fixpoint show_ty (t : ty) : list ascii :=
  match t with
  | Builtin a => default [] (builtin_text a)
  | Pointer t => show_ty t ++ txt "*"
  | LvalueRef t => show_ty t ++ txt "&"
  | RvalueRef t => show_ty t ++ txt "&&"
  | Const t => txt "const " ++ show_ty t
  | Class n => show_name n
  end
with show_name (n : name) : list ascii :=
  match n with
  | Last i a => i ++ (if is_nil a then [] else txt "<" ++ show_args true a ++ txt ">")
  | Scope i a n =>
      i ++ (if is_nil a then [] else txt "<" ++ show_args true a ++ txt ">")
      ++ txt "::" ++ show_name n
  end
with show_args (first : bool) (a : args) : list ascii :=
  match a with
  | NoArgs => []
  | Args t a => comma first ++ show_ty t ++ show_args false a
  end.

(** An identifier of at most 999999999 characters that does not start with a
    digit and is not one of the two names printed otherwise. *)
Definition ident_ok (i : ident) : bool :=
  match i with
  | [] => false
  | a :: _ => negb (is_digit a)
  end
  && forallb (fun a => negb (a =c NUL)) i
  && (Z.of_nat (length i) <=? 999999999)
  && negb (bool_decide (i = txt "_GLOBAL__N_1"))
  && negb (bool_decide (i = txt "__1")).

Fixpoint ty_ok (t : ty) : bool :=
  match t with
  | Builtin a => match builtin_text a with Some _ => true | None => false end
  | Pointer t | LvalueRef t | RvalueRef t | Const t => ty_ok t
  | Class n => name_ok n
  end
with name_ok (n : name) : bool :=
  match n with
  | Last i a => ident_ok i && args_ok a
  | Scope i a n => ident_ok i && args_ok a && name_ok n
  end
with args_ok (a : args) : bool :=
  match a with
  | NoArgs => true
  | Args t a => ty_ok t && args_ok a
  end.

Scheme ty_mut := Induction for ty Sort Prop
with name_mut := Induction for name Sort Prop
with args_mut := Induction for args Sort Prop.
Combined Scheme syntax_ind from ty_mut, name_mut, args_mut.

(** A function: its qualified name and its parameter types. *)
Definition spell (n : name) (ps : args) : list ascii :=
  txt "_ZN" ++ spell_name n ++ txt "E" ++ spell_args ps.

Definition show (n : name) (ps : args) : list ascii :=
  show_name n ++ txt "(" ++ show_args true ps ++ txt ")".

(** * Output steps *)

(** From [c] to [c'] the parser consumed the input up to [rest] and wrote [t]. *)
Record wrote (c : Ctx) (t rest : list ascii) (c' : Ctx) : Prop := {
  wr_inp : inp c' = rest;
  wr_out : out c' = (out c + length t)%nat;
  wr_end : out_end c' = out_end c;
  wr_mem : mem c' = list_inserts (out c) t (mem c);
}.

(** Room for [t]. *)
Definition room (c : Ctx) (t : list ascii) : Prop :=
  (out c + length t <= out_end c <= length (mem c))%nat.

Lemma wrote_trans c t rest c1 t' rest' c2 :
  wrote c t rest c1 -> wrote c1 t' rest' c2 -> wrote c (t ++ t') rest' c2.
Proof.
  intros [I1 O1 E1 M1] [I2 O2 E2 M2]. split; [done | | congruence |].
  - rewrite O2, O1, length_app. lia.
  - rewrite M2, M1, O1, list_inserts_app_l. f_equal. lia.
Qed.

Lemma wrote_room c t rest c1 t' :
  wrote c t rest c1 -> room c (t ++ t') -> room c1 t'.
Proof.
  intros [I1 O1 E1 M1]. unfold room. rewrite O1, E1, M1, length_inserts, length_app. lia.
Qed.

Lemma room_l c t t' : room c (t ++ t') -> room c t.
Proof. unfold room. rewrite length_app. lia. Qed.

Lemma wrote_nil c : wrote c [] (inp c) c.
Proof. split; [done | cbn; lia | done | done]. Qed.

Lemma wrote_adv c a l : inp c = a :: l -> wrote c [] l (adv c).
Proof. intros Hi. unfold adv. rewrite Hi. split; cbn; [done | lia | done | done]. Qed.

Lemma wrote_put c a :
  room c [a] -> exists c', put c a = (true, c') /\ wrote c [a] (inp c) c'.
Proof.
  unfold room. cbn. intros Hr. unfold put. destruct (_ <=? _)%nat eqn:E.
  { apply Nat.leb_le in E. lia. }
  eexists. split; [done|]. split; cbn; [done | lia | done | done].
Qed.

Lemma wrote_puts t : forall c,
  room c t -> exists c', puts c t = (true, c') /\ wrote c t (inp c) c'.
Proof.
  induction t as [|a t IH]; intros c Hr; cbn [puts].
  { exists c. split; [done | apply wrote_nil]. }
  destruct (wrote_put c a) as (c1 & -> & W1); [by apply (room_l c [a] t)|].
  destruct (IH c1) as (c2 & -> & W2); [by eapply (wrote_room c [a])|].
  exists c2. split; [done|]. rewrite (wr_inp _ _ _ _ W1) in W2. by eapply (wrote_trans c [a]).
Qed.

Lemma wrote_checked c t :
  room c t -> exists c', checked (puts c t) = Ok c' /\ wrote c t (inp c) c'.
Proof. intros Hr. destruct (wrote_puts t c Hr) as (c' & -> & W). eauto. Qed.

Lemma wrote_checked1 c a :
  room c [a] -> exists c', checked (put c a) = Ok c' /\ wrote c [a] (inp c) c'.
Proof. intros Hr. destruct (wrote_put c a Hr) as (c' & -> & W). eauto. Qed.

Lemma wrote_ignored c t : room c t -> wrote c t (inp c) (ignored (puts c t)).
Proof. intros Hr. by destruct (wrote_puts t c Hr) as (c' & -> & W). Qed.

Lemma wrote_add_sub c t rest c1 s n : wrote c t rest c1 -> wrote c t rest (add_sub c1 s n).
Proof. intros []. unfold add_sub. case_match; by split. Qed.

Lemma wrote_finish c t rest c1 add saved :
  wrote c t rest c1 -> exists c', finish add saved c1 = Ok c' /\ wrote c t rest c'.
Proof.
  intros W. eexists. split; [done|]. case_match; [by apply wrote_add_sub | done].
Qed.

(** * Identifiers *)

Lemma read_digits_value ds : forall v l,
  Forall (fun d => 0 <= d < 10) ds -> 0 <= v -> value_from 10 v ds < 2 ^ 32 ->
  match l with a :: _ => is_digit a = false | [] => True end ->
  read_digits (map digit_char ds ++ l) v = (Some (value_from 10 v ds), l).
Proof.
  induction ds as [|d ds IH]; intros v l Hds Hv Hlt Hl; cbn [map app].
  - destruct l; cbn; [done | by rewrite Hl].
  - inversion_clear Hds as [|? ? Hd Hds']. cbn [read_digits].
    rewrite is_digit_digit_char by done.
    assert (v * 10 + d <= value_from 10 (v * 10 + d) ds) as Hm.
    { apply value_from_mono; [lia | lia |]. eapply Forall_impl; [exact Hds'|]. cbn. lia. }
    cbn in Hlt. fold (value_from 10 (v * 10 + d) ds) in Hlt.
    destruct (UINT_MAX `div` 10 <? v) eqn:E.
    { apply Z.ltb_lt in E. unfold UINT_MAX in E. zlia. }
    rewrite code_digit_char by done.
    replace (48 + d - 48) with d by lia. rewrite wrap_small by lia.
    apply IH; [done | lia | done | done].
Qed.

Lemma decimal_first n : exists a l, decimal n = a :: l /\ is_digit a = true.
Proof.
  unfold decimal. destruct (numeral_nonempty 10 n) as (d & ds & E). rewrite E.
  pose proof (numeral_range 10 n ltac:(lia)) as R. rewrite E in R. inversion_clear R.
  eexists _, _. split; [done|]. by apply is_digit_digit_char.
Qed.

Lemma read_number_decimal c n a l :
  inp c = decimal n ++ a :: l -> 0 <= n < 2 ^ 32 -> is_digit a = false ->
  read_number c = (Some n, set_inp c (a :: l)).
Proof.
  intros Hi Hn Ha. unfold read_number, peek. rewrite Hi.
  destruct (decimal_first n) as (b & k & E & Hb). rewrite E. cbn [app]. rewrite Hb.
  change (b :: k ++ a :: l) with ((b :: k) ++ a :: l). rewrite <- E. unfold decimal.
  rewrite read_digits_value; rewrite ?numeral_value by lia; try done; try lia.
  by apply numeral_range.
Qed.

Lemma copy_name_spec i rest : forall c,
  inp c = i ++ rest -> room c i ->
  exists c', copy_name (i ++ rest) (Z.of_nat (length i)) c = Ok c' /\ wrote c i rest c'.
Proof.
  induction i as [|a i IH]; intros c Hi Hr.
  - exists (set_inp c rest). destruct rest; cbn; (split; [done|]; split; cbn; [done | lia | done | done]).
  - cbn [copy_name app]. destruct (Z.leb_spec (Z.of_nat (length (a :: i))) 0); [cbn in *; lia|].
    destruct (wrote_checked1 (set_inp c (i ++ rest)) a) as (c1 & E & W);
      [by apply (room_l c [a] i)|]. rewrite E. cbn [bind].
    assert (wrote c [a] (i ++ rest) c1) as W1 by (destruct W; by split).
    replace (Z.of_nat (length (a :: i)) - 1) with (Z.of_nat (length i)) by (cbn [length]; lia).
    destruct (IH c1) as (c2 & E2 & W2).
    + apply (wr_inp _ _ _ _ W1).
    + by eapply (wrote_room c [a]).
    + exists c2. split; [done|]. by eapply (wrote_trans c [a]).
Qed.

Lemma starts_with_ident i rest p :
  length p = length i -> i <> p -> starts_with (i ++ rest) p = false.
Proof.
  intros Hl Hne. unfold starts_with. apply bool_decide_eq_false. rewrite Hl.
  by rewrite take_app_length.
Qed.

Lemma source_name_spec i c rest :
  ident_ok i = true -> inp c = spell_ident i ++ rest -> room c i ->
  exists c', parse_source_name c = Ok c' /\ wrote c i rest c'.
Proof.
  unfold ident_ok, spell_ident. intros Hi Hc Hr.
  destruct i as [|a i]; [done|]. bool_to_prop.
  set (j := a :: i) in *. rewrite <- app_assoc in Hc.
  unfold parse_source_name.
  rewrite (read_number_decimal c (Z.of_nat (length j)) a (i ++ rest)) by (done || lia).
  cbn [inp set_inp]. change (a :: i ++ rest) with (j ++ rest).
  assert (forall k p, Z.of_nat (length p) = k -> bool_decide (j = p) = false ->
    (Z.of_nat (length j) =? k) && starts_with (j ++ rest) p = false) as S.
  { intros k p Hk Hp. apply bool_decide_eq_false in Hp.
    destruct (Z.of_nat (length j) =? k) eqn:E; [|done]. bool_to_prop.
    apply starts_with_ident; [lia | done]. }
  rewrite (S 12 (txt "_GLOBAL__N_1")), (S 3 (txt "__1")) by done.
  destruct (Z.of_nat (length j) =? 0) eqn:E; [apply Z.eqb_eq in E; subst j; cbn [length] in E; lia|].
  destruct (copy_name_spec j rest (set_inp c (j ++ rest))) as (c' & -> & W); [done | done |].
  exists c'. split; [done|]. destruct W; by split.
Qed.

Lemma source_name_sub_spec i c rest :
  ident_ok i = true -> inp c = spell_ident i ++ rest -> room c i ->
  exists c', source_name_sub c = Ok c' /\ wrote c i rest c'.
Proof.
  intros Hi Hc Hr. unfold source_name_sub.
  destruct (source_name_spec i c rest Hi Hc Hr) as (c1 & -> & W).
  eexists. split; [done|]. by apply wrote_add_sub.
Qed.

(** * Types, names and arguments *)

Definition sep (first : bool) (s : list ascii) : list ascii := if first then [] else s.

(** The three inductive statements. *)
Definition ty_spec (t : ty) : Prop := forall c rest add,
  ty_ok t = true -> inp c = spell_ty t ++ rest -> room c (show_ty t) ->
  exists c', parse_all (TypeSub add) c = Ok c' /\ wrote c (show_ty t) rest c'.

Definition name_spec (n : name) : Prop := forall c rest first,
  name_ok n = true -> inp c = spell_name n ++ "E"%char :: rest ->
  room c (sep first (txt "::") ++ show_name n) ->
  exists c', parse_all (NestedLoop first) c = Ok c' /\
             wrote c (sep first (txt "::") ++ show_name n) ("E"%char :: rest) c'.

Definition args_spec (a : args) : Prop := forall c rest first,
  args_ok a = true -> inp c = spell_args a ++ "E"%char :: rest ->
  room c (show_args first a) ->
  exists c', parse_all (TemplateLoop first) c = Ok c' /\
             wrote c (show_args first a) ("E"%char :: rest) c'.

Definition targs (a : args) : list ascii :=
  if is_nil a then [] else "I"%char :: spell_args a ++ ["E"%char].
Definition show_targs (a : args) : list ascii :=
  if is_nil a then [] else txt "<" ++ show_args true a ++ txt ">".

Lemma peek_cons c a l : inp c = a :: l -> peek c = a.
Proof. unfold peek. by intros ->. Qed.

Lemma match_char_spec c a l :
  inp c = a :: l -> exists c', match_char c a = Ok c' /\ wrote c [] l c'.
Proof.
  intros Hi. unfold match_char. rewrite (peek_cons _ _ _ Hi), Ascii.eqb_refl.
  eexists. split; [done | by eapply wrote_adv].
Qed.

Lemma separator_spec first s c :
  room c (sep first s) ->
  exists c', separator first s c = Ok c' /\ wrote c (sep first s) (inp c) c'.
Proof.
  intros Hr. unfold separator, sep in *. destruct first.
  - exists c. split; [done | apply wrote_nil].
  - by apply wrote_checked.
Qed.

(** Chains two output steps. *)
Lemma wrote_then c t rest c1 t' rest' (r : Res) :
  wrote c t rest c1 ->
  (exists c', r = Ok c' /\ wrote c1 t' rest' c') ->
  exists c', r = Ok c' /\ wrote c (t ++ t') rest' c'.
Proof. intros W (c' & -> & W'). exists c'. split; [done | by eapply wrote_trans]. Qed.

Lemma optional_args_spec a c b rest :
  args_spec a -> args_ok a = true -> b <> "I"%char ->
  inp c = targs a ++ b :: rest -> room c (show_targs a) ->
  exists c', optional_template_args parse_all c = Ok c' /\
             wrote c (show_targs a) (b :: rest) c'.
Proof.
  intros IH Hok Hb Hi Hr. unfold optional_template_args, targs, show_targs in *.
  destruct (is_nil a).
  - cbn in Hi. rewrite (peek_cons _ _ _ Hi).
    destruct (Ascii.eqb_spec b "I"); [done|]. exists c. split; [done|].
    rewrite <- Hi. apply wrote_nil.
  - cbn in Hi. rewrite (peek_cons _ _ _ Hi), Ascii.eqb_refl, parse_all_unfold.
    cbn [production]. unfold parse_template_args.
    rewrite <- app_assoc in Hi. cbn [app] in Hi.
    destruct (match_char_spec _ _ _ Hi) as (c1 & -> & W1). cbn [bind].
    pose proof (wrote_room c [] _ _ _ W1 Hr) as R1.
    destruct (wrote_checked1 c1 "<") as (c2 & -> & W2); [by eapply room_l|]. cbn [bind].
    rewrite (wr_inp _ _ _ _ W1) in W2. pose proof (wrote_room _ (txt "<") _ _ _ W2 R1) as R2.
    destruct (IH c2 (b :: rest) true) as (c3 & -> & W3);
      [done | apply (wr_inp _ _ _ _ W2) | by eapply room_l|]. cbn [bind].
    pose proof (wrote_room _ _ _ _ _ W3 R2) as R3.
    destruct (match_char_spec _ _ _ (wr_inp _ _ _ _ W3)) as (c4 & -> & W4). cbn [bind].
    destruct (wrote_checked1 c4 ">") as (c5 & -> & W5);
      [by eapply (wrote_room _ []); [exact W4|]|].
    rewrite (wr_inp _ _ _ _ W4) in W5. exists c5. split; [done|].
    eapply (wrote_trans c []); [exact W1|]. eapply (wrote_trans c1 (txt "<")); [exact W2|].
    eapply wrote_trans; [exact W3|]. by apply (wrote_trans c3 [] _ _ _ _ _ W4).
Qed.

(** The first character of an encoded component, name or type. *)
Lemma spell_ident_first i : exists a l, spell_ident i = a :: l /\ is_digit a = true.
Proof.
  unfold spell_ident. destruct (decimal_first (Z.of_nat (length i))) as (a & l & -> & Ha).
  exists a, (l ++ i). done.
Qed.

Lemma is_digit_not a b : is_digit a = true -> is_digit b = false -> (a =c b) = false.
Proof. intros Ha Hb. apply Ascii.eqb_neq. congruence. Qed.

Lemma spell_name_first n : exists a l, spell_name n = a :: l /\ is_digit a = true.
Proof.
  destruct n as [i a|i a n]; cbn [spell_name];
    destruct (spell_ident_first i) as (b & l & -> & Hb); cbn [app]; eauto.
Qed.

Lemma component_spec i a c b rest :
  args_spec a -> ident_ok i = true -> args_ok a = true -> b <> "I"%char ->
  inp c = spell_ident i ++ targs a ++ b :: rest -> room c (i ++ show_targs a) ->
  at_end c = false /\
  exists c', nested_component parse_all c = Ok c' /\
             wrote c (i ++ show_targs a) (b :: rest) c'.
Proof.
  intros IH Hi Ha Hb Hc Hr. destruct (spell_ident_first i) as (d & l & Hm & Hd).
  assert (peek c = d) as Hp by (eapply peek_cons; rewrite Hc, Hm; done).
  split.
  - unfold at_end. rewrite Hp, is_digit_not by done. unfold eof. by rewrite Hc, Hm.
  - unfold nested_component. rewrite Hp, (is_digit_not _ "S"), Hd by done.
    destruct (source_name_sub_spec i c _ Hi Hc) as (c1 & -> & W1); [by eapply room_l|].
    cbn [bind]. eapply wrote_then; [exact W1|].
    apply optional_args_spec; [done.. | apply (wr_inp _ _ _ _ W1) | by eapply wrote_room].
Qed.

Lemma name_last_spec i a : args_spec a -> name_spec (Last i a).
Proof.
  intros IH c rest first Hok Hc Hr. cbn [name_ok spell_name show_name] in *.
  fold (targs a) in Hc. fold (show_targs a) in *. bool_to_prop.
  rewrite <- app_assoc in Hc. rewrite parse_all_unfold. cbn [production]. unfold nested_loop.
  destruct (separator_spec first (txt "::") c) as (c1 & E1 & W1); [by eapply room_l|].
  destruct (component_spec i a c "E" rest) as (Hend & _); try done.
  { unfold room in *. rewrite length_app in Hr. lia. }
  rewrite Hend, E1. cbn [bind]. rewrite Hc in W1.
  destruct (component_spec i a c1 "E" rest) as (_ & c2 & -> & W2);
    [done.. | apply (wr_inp _ _ _ _ W1) | by eapply wrote_room |].
  cbn [bind]. exists c2. split; [|by eapply wrote_trans].
  rewrite parse_all_unfold. cbn [production]. unfold nested_loop, at_end.
  by rewrite (peek_cons _ _ _ (wr_inp _ _ _ _ W2)).
Qed.

Lemma name_scope_spec i a n : args_spec a -> name_spec n -> name_spec (Scope i a n).
Proof.
  intros IHa IHn c rest first Hok Hc Hr. cbn [name_ok spell_name show_name] in *.
  fold (targs a) in Hc. fold (show_targs a) in *. bool_to_prop.
  destruct (spell_name_first n) as (b & l & Hn & Hb).
  assert (b <> "I"%char) by congruence || (intros ->; done).
  rewrite <- !app_assoc, Hn in Hc. cbn [app] in Hc. rewrite !app_assoc in Hr.
  rewrite <- (app_assoc (sep _ _) i) in Hr.
  rewrite parse_all_unfold. cbn [production]. unfold nested_loop.
  destruct (separator_spec first (txt "::") c) as (c1 & E1 & W1);
    [by eapply room_l, room_l, room_l|].
  destruct (component_spec i a c b (l ++ "E"%char :: rest)) as (Hend & _); try done.
  { unfold room in *. rewrite !length_app in *. lia. }
  rewrite Hend, E1. cbn [bind]. rewrite Hc in W1.
  destruct (component_spec i a c1 b (l ++ "E"%char :: rest)) as (_ & c2 & -> & W2);
    [done.. | apply (wr_inp _ _ _ _ W1) | eapply wrote_room; [exact W1|]; by eapply room_l, room_l |].
  cbn [bind]. pose proof (wrote_trans _ _ _ _ _ _ _ W1 W2) as W.
  rewrite (app_assoc i), (app_assoc (sep _ _)), !app_assoc. rewrite <- (app_assoc _ (txt "::")).
  rewrite <- (app_assoc (sep _ _) i).
  eapply wrote_then; [exact W|]. apply (IHn c2 rest false); [done | |].
  - by rewrite (wr_inp _ _ _ _ W2), Hn.
  - eapply wrote_room; [exact W|]. by rewrite <- (app_assoc _ (txt "::")) in Hr.
Qed.

Lemma spell_ty_first t : ty_ok t = true ->
  exists a l, spell_ty t = a :: l /\ (a =c "E") = false /\ (a =c "L") = false /\
              (a =c "X") = false.
Proof.
  destruct t; cbn [spell_ty ty_ok]; intros Hok; [|by eexists _, _..].
  eexists _, _. split; [done|]. split_and!; apply Ascii.eqb_neq; intros ->; discriminate Hok.
Qed.

(** A comma-separated list of types, up to the [E] or the end of the input: the
    loops of the template arguments and of the parameters do the same. *)
Lemma args_cons_step t a first c rest :
  ty_spec t -> ty_ok t = true ->
  inp c = (spell_ty t ++ spell_args a) ++ rest -> room c (show_args first (Args t a)) ->
  at_end c = false /\
  exists c1 c2,
    separator first (txt ", ") c = Ok c1 /\ parse_template_arg parse_all c1 = Ok c2 /\
    parse_type parse_all c1 = Ok c2 /\
    wrote c (comma first ++ show_ty t) (spell_args a ++ rest) c2.
Proof.
  intros IH Hok Hc Hr. cbn [show_args] in Hr. rewrite app_assoc in Hr.
  destruct (spell_ty_first t Hok) as (d & l & Hm & HE & HL & HX).
  split. { unfold at_end, peek, eof. by rewrite Hc, Hm; cbn [app]; rewrite HE. }
  rewrite <- app_assoc in Hc.
  destruct (separator_spec first (txt ", ") c) as (c1 & E1 & W1); [by eapply room_l, room_l|].
  rewrite Hc in W1.
  destruct (IH c1 (spell_args a ++ rest) true) as (c2 & E2 & W2);
    [done | apply (wr_inp _ _ _ _ W1) | eapply wrote_room; [exact W1|]; by eapply room_l|].
  exists c1, c2. split_and!; [done | | done | by eapply wrote_trans].
  unfold parse_template_arg, peek. rewrite (wr_inp _ _ _ _ W1), Hm. cbn [app].
  rewrite HL, HX. exact E2.
Qed.

Lemma args_cons_spec t a : ty_spec t -> args_spec a -> args_spec (Args t a).
Proof.
  intros IHt IHa c rest first Hok Hc Hr. cbn [args_ok spell_args] in *. bool_to_prop.
  destruct (args_cons_step t a first c ("E"%char :: rest)) as (Hend & c1 & c2 & E1 & E2 & _ & W);
    [done..|].
  rewrite parse_all_unfold. cbn [production]. unfold template_loop.
  rewrite Hend, E1. cbn [bind]. rewrite E2. cbn [bind show_args]. rewrite app_assoc.
  eapply wrote_then; [exact W|].
  apply IHa; [done | apply (wr_inp _ _ _ _ W) | eapply wrote_room; [exact W|]].
  cbn [show_args] in Hr. by rewrite app_assoc in Hr.
Qed.

Lemma args_nil_spec : args_spec NoArgs.
Proof.
  intros c rest first _ Hc _. cbn in Hc. exists c. rewrite parse_all_unfold.
  cbn [production]. unfold template_loop, at_end. rewrite (peek_cons _ _ _ Hc).
  split; [done|]. rewrite <- Hc. apply wrote_nil.
Qed.

(** A type is parsed by its first character. *)
Lemma ty_builtin_spec a : ty_spec (Builtin a).
Proof.
  intros c rest add Hok Hc Hr. cbn [spell_ty ty_ok show_ty app] in *.
  destruct (builtin_text a) as [t|] eqn:Ht; [|done]. cbn [default] in *.
  rewrite parse_all_unfold. cbn [production]. unfold parse_type_sub, is_builtin_start.
  unfold parse_builtin_type. rewrite (peek_cons _ _ _ Hc), Ht.
  assert (cv_text a = None /\ is_substitutable_type a = false) as [Hcv Hs].
  { unfold builtin_text in Ht.
    repeat match type of Ht with
    | (if ?x =c ?y then _ else _) = _ =>
        destruct (Ascii.eqb_spec x y) as [-> | ?]; [split; reflexivity|]
    end. done. }
  rewrite Hcv, Hs. cbn [negb orb]. eexists. split; [done|].
  pose proof (wrote_adv _ _ _ Hc) as W.
  eapply (wrote_trans c []); [exact W|]. rewrite <- (wr_inp _ _ _ _ W) at 1.
  apply wrote_ignored. by eapply (wrote_room c []).
Qed.

(** [P], [R] and [O]. *)
Lemma type_suffix_spec t s c rest add a :
  ty_spec t -> ty_ok t = true -> inp c = a :: spell_ty t ++ rest -> room c (show_ty t ++ s) ->
  exists c', type_suffix parse_all add s (out c) c = Ok c' /\
             wrote c (show_ty t ++ s) rest c'.
Proof.
  intros IH Hok Hc Hr. pose proof (wrote_adv _ _ _ Hc) as W. unfold type_suffix.
  pose proof (wrote_room c [] _ _ _ W Hr) as R.
  destruct (IH (adv c) rest true) as (c1 & -> & W1);
    [done | apply (wr_inp _ _ _ _ W) | by eapply room_l|]. cbn [bind].
  destruct (wrote_checked c1 s) as (c2 & -> & W2); [by eapply wrote_room|]. cbn [bind].
  rewrite (wr_inp _ _ _ _ W1) in W2. apply wrote_finish.
  eapply (wrote_trans c []); [exact W|]. by eapply wrote_trans.
Qed.

Lemma ty_pointer_spec t : ty_spec t -> ty_spec (Pointer t).
Proof.
  intros IH c rest add Hok Hc Hr. rewrite parse_all_unfold. cbn [production].
  unfold parse_type_sub, is_builtin_start. rewrite (peek_cons _ _ _ Hc).
  exact (type_suffix_spec t (txt "*") c rest add "P"%char IH Hok Hc Hr).
Qed.

Lemma ty_lvalue_spec t : ty_spec t -> ty_spec (LvalueRef t).
Proof.
  intros IH c rest add Hok Hc Hr. rewrite parse_all_unfold. cbn [production].
  unfold parse_type_sub, is_builtin_start. rewrite (peek_cons _ _ _ Hc).
  exact (type_suffix_spec t (txt "&") c rest add "R"%char IH Hok Hc Hr).
Qed.

Lemma ty_rvalue_spec t : ty_spec t -> ty_spec (RvalueRef t).
Proof.
  intros IH c rest add Hok Hc Hr. rewrite parse_all_unfold. cbn [production].
  unfold parse_type_sub, is_builtin_start. rewrite (peek_cons _ _ _ Hc).
  exact (type_suffix_spec t (txt "&&") c rest add "O"%char IH Hok Hc Hr).
Qed.

(** The qualifiers at the front of a type, and the type below them. *)
Fixpoint strip (t : ty) : ty := match t with Const t => strip t | t => t end.
Fixpoint consts (t : ty) : list ascii :=
  match t with Const t => txt "const " ++ consts t | _ => [] end.

Lemma show_strip t : show_ty t = consts t ++ show_ty (strip t).
Proof. induction t; cbn; try done. by rewrite IHt. Qed.

Lemma strip_ok t : ty_ok (strip t) = ty_ok t.
Proof. induction t; by cbn. Qed.

Lemma cv_loop_spec t rest : forall c,
  ty_ok t = true -> inp c = spell_ty t ++ rest -> room c (consts t) ->
  exists c', cv_loop (spell_ty t ++ rest) c = Ok c' /\
             wrote c (consts t) (spell_ty (strip t) ++ rest) c'.
Proof.
  induction t as [a| | | |t IH|]; intros c Hok Hc Hr;
    try (exists c; split; [done|]; cbn [strip consts]; rewrite <- Hc; apply wrote_nil).
  - exists c. cbn [spell_ty app strip consts] in *. split; [|rewrite <- Hc; apply wrote_nil].
    cbn [cv_loop ty_ok] in *. destruct (cv_text a) eqn:E; [|done].
    unfold cv_text, builtin_text in *. exfalso.
    repeat match type of E with
    | (if ?x =c ?y then _ else _) = _ => destruct (Ascii.eqb_spec x y) as [-> | ?]; [done|]
    end. done.
  - cbn [spell_ty app strip consts ty_ok] in *. cbn [cv_loop].
    change (cv_text "K") with (Some (txt "const ")). cbv beta iota.
    pose proof (wrote_adv _ _ _ Hc) as W.
    destruct (wrote_checked (adv c) (txt "const ")) as (c1 & -> & W1).
    { eapply (wrote_room c []); [exact W|]. by eapply room_l. }
    cbn [bind]. rewrite (wr_inp _ _ _ _ W) in W1.
    pose proof (wrote_trans c [] _ _ _ _ _ W W1) as W2. cbn [app] in W2.
    eapply wrote_then; [exact W2|].
    apply IH; [done | apply (wr_inp _ _ _ _ W2) | by eapply wrote_room].
Qed.

Lemma ty_const_spec t : ty_spec (strip t) -> ty_spec (Const t).
Proof.
  intros IH c rest add Hok Hc Hr. rewrite parse_all_unfold. cbn [production].
  unfold parse_type_sub. rewrite (peek_cons _ _ _ Hc).
  change (cv_text "K") with (Some (txt "const ")). cbv beta iota. rewrite Hc.
  rewrite show_strip in *. cbn [strip] in *.
  destruct (cv_loop_spec (Const t) rest c) as (c1 & -> & W1); [done | done | by eapply room_l|].
  cbn [bind]. destruct (IH c1 rest add) as (c2 & -> & W2);
    [by rewrite strip_ok | apply (wr_inp _ _ _ _ W1) | by eapply wrote_room|].
  cbn [bind]. eexists. split; [done|].
  pose proof (wrote_trans _ _ _ _ _ _ _ W1 W2) as W. case_match; [by apply wrote_add_sub | done].
Qed.

Lemma nested_name_spec n c rest :
  name_spec n -> name_ok n = true -> inp c = "N"%char :: spell_name n ++ "E"%char :: rest ->
  room c (show_name n) ->
  exists c', parse_all NestedName c = Ok c' /\ wrote c (show_name n) rest c'.
Proof.
  intros IH Hok Hc Hr. rewrite parse_all_unfold. cbn [production]. unfold parse_nested_name.
  destruct (match_char_spec _ _ _ Hc) as (c1 & -> & W1). cbn [bind].
  destruct (spell_name_first n) as (d & l & Hn & Hd).
  assert (skip_cv (inp c1) = inp c1) as Hs.
  { rewrite (wr_inp _ _ _ _ W1), Hn. cbn [app skip_cv]. by rewrite !is_digit_not by done. }
  rewrite Hs. set (c2 := set_inp c1 (inp c1)).
  assert (inp c2 = spell_name n ++ "E"%char :: rest) as H2 by apply (wr_inp _ _ _ _ W1).
  assert (peek c2 = d) as -> by (eapply peek_cons; rewrite H2, Hn; done).
  rewrite !is_digit_not by done. cbn [orb].
  assert (wrote c [] (inp c2) c2) as W2 by (destruct W1; by split).
  pose proof (wrote_room c [] _ _ _ W2 Hr) as R2.
  destruct (IH c2 rest true) as (c3 & -> & W3); [done..|]. cbn [bind sep app] in *.
  destruct (match_char_spec _ _ _ (wr_inp _ _ _ _ W3)) as (c4 & -> & W4).
  exists c4. split; [done|]. pose proof (wrote_trans _ _ _ _ _ _ _ W3 W4) as W5.
  rewrite app_nil_r in W5. exact (wrote_trans c [] _ _ _ _ _ W2 W5).
Qed.

Lemma ty_class_spec n : name_spec n -> ty_spec (Class n).
Proof.
  intros IH c rest add Hok Hc Hr. cbn [spell_ty ty_ok show_ty] in *.
  cbn [app] in Hc. rewrite <- app_assoc in Hc. cbn [app] in Hc.
  rewrite parse_all_unfold. cbn [production].
  unfold parse_type_sub, is_builtin_start. rewrite (peek_cons _ _ _ Hc).
  cbn -[parse_all type_nested show_name]. unfold type_nested.
  destruct (nested_name_spec n c rest) as (c1 & -> & W); [done..|]. cbn [bind].
  case_match; eexists; (split; [done|]); [by do 2 apply wrote_add_sub | done].
Qed.

Lemma syntax_spec :
  (forall t, ty_spec t /\ ty_spec (strip t)) /\ (forall n, name_spec n) /\
  (forall a, args_spec a).
Proof.
  apply (syntax_ind (fun t => ty_spec t /\ ty_spec (strip t)) name_spec args_spec);
    cbn [strip]; intros; destruct_and?.
  - split; apply ty_builtin_spec.
  - split; by apply ty_pointer_spec.
  - split; by apply ty_lvalue_spec.
  - split; by apply ty_rvalue_spec.
  - split; [by apply ty_const_spec | done].
  - split; by apply ty_class_spec.
  - by apply name_last_spec.
  - by apply name_scope_spec.
  - apply args_nil_spec.
  - by apply args_cons_spec.
Qed.

(** * Functions *)

(** The parameters of an encoding run to the end of the input. *)
Lemma bare_spec a : forall c first,
  args_ok a = true -> inp c = spell_args a -> room c (show_args first a) ->
  exists c', parse_all (BareLoop first) c = Ok c' /\ wrote c (show_args first a) [] c'.
Proof.
  induction a as [|t a IH]; intros c first Hok Hc Hr.
  - exists c. rewrite parse_all_unfold. cbn [production]. unfold bare_loop, at_end, eof.
    cbn in Hc. rewrite Hc, orb_true_r. split; [done|]. rewrite <- Hc. apply wrote_nil.
  - cbn [args_ok spell_args] in *. bool_to_prop.
    destruct (args_cons_step t a first c []) as (Hend & c1 & c2 & E1 & _ & E2 & W);
      [apply syntax_spec | done | by rewrite app_nil_r | done |].
    rewrite parse_all_unfold. cbn [production]. unfold bare_loop.
    rewrite Hend, E1. cbn [bind]. rewrite E2. cbn [bind show_args] in *.
    rewrite app_assoc in *. eapply wrote_then; [exact W|].
    apply IH; [done | rewrite (wr_inp _ _ _ _ W); apply app_nil_r | by eapply wrote_room].
Qed.

Lemma encoding_spec n ps c :
  name_ok n = true -> args_ok ps = true -> is_nil ps = false ->
  inp c = drop 2 (spell n ps) -> room c (show n ps) ->
  exists c', parse_encoding parse_all c = Ok c' /\ wrote c (show n ps) [] c'.
Proof.
  intros Hn Hp Hnil Hc Hr. cbn in Hc. unfold show in *.
  unfold parse_encoding. rewrite (peek_cons _ _ _ Hc). cbn -[parse_all show_name parameters].
  destruct (nested_name_spec n c (spell_args ps)) as (c1 & -> & W1);
    [apply syntax_spec | done | done | by eapply room_l|]. cbn [bind].
  destruct ps as [|t ps]; [done|]. clear Hnil.
  destruct (spell_ty_first t) as (d & l & Hm & HE & _); [cbn in Hp; by bool_to_prop|].
  assert (inp c1 = d :: l ++ spell_args ps) as H1
    by (rewrite (wr_inp _ _ _ _ W1); cbn [spell_args]; by rewrite Hm).
  unfold eof. rewrite H1, (peek_cons _ _ _ H1), HE. unfold parameters.
  pose proof (wrote_room _ _ _ _ _ W1 Hr) as R1.
  destruct (wrote_checked1 c1 "(") as (c2 & -> & W2); [by eapply room_l|]. cbn [bind].
  rewrite (wr_inp _ _ _ _ W1) in W2.
  pose proof (wrote_room _ (txt "(") _ _ _ W2 R1) as R2.
  destruct (bare_spec (Args t ps) c2 true) as (c3 & E3 & W3);
    [done | apply (wr_inp _ _ _ _ W2) | by eapply room_l|].
  unfold parse_bare_function_type. rewrite E3. cbn [bind].
  destruct (wrote_checked1 c3 ")") as (c4 & -> & W4); [by eapply wrote_room|].
  rewrite (wr_inp _ _ _ _ W3) in W4. exists c4. split; [done|].
  eapply wrote_trans; [exact W1|]. eapply (wrote_trans _ (txt "(")); [exact W2|].
  eapply wrote_trans; [exact W3 | exact W4].
Qed.

Lemma demangle_spelled n ps m bufsz below :
  name_ok n = true -> args_ok ps = true -> is_nil ps = false ->
  (length (show n ps) < bufsz <= length m)%nat ->
  demangle (Some (spell n ps)) (Some m) bufsz below =
    InBuffer (list_inserts 0 (show n ps ++ [NUL]) m).
Proof.
  intros Hn Hp Hnil Hb. unfold demangle.
  assert (2 <= length (show n ps))%nat.
  { unfold show. rewrite !length_app. cbn. lia. }
  destruct (bufsz <? 2)%nat eqn:E; [apply Nat.ltb_lt in E; lia|].
  set (c := {| inp := spell n ps |}).
  set (rest := drop 2 (spell n ps)).
  assert (spell n ps = "_"%char :: "Z"%char :: rest) as -> by done.
  cbn [demangle_internal]. rewrite !Ascii.eqb_refl. cbn [andb].
  destruct (encoding_all (set_inp c rest) (fuel_for (length rest))) as [-> _].
  { unfold fuel_for. cbn [inp set_inp]. lia. }
  destruct (encoding_spec n ps (set_inp c rest)) as (c' & -> & W); [done..| |].
  { unfold room. cbn. lia. }
  cbn [bind mem]. f_equal. rewrite (wr_mem _ _ _ _ W), (wr_out _ _ _ _ W). cbn.
  by rewrite list_inserts_app_l, Nat.add_0_r.
Qed.

(** * The encoding of the C++ ABI *)

(** A function with an identifier for its name: its scopes from the outside in,
    each with its template arguments, its name and its parameter types.
    Constructors, destructors and operators have no identifier, and a function
    that is itself a template is encoded with its return type: these are not
    in the syntax. *)
Record decl := Decl { d_scope : list (ident * args); d_name : ident; d_params : args }.

(** The components that were entered, by their spelling, and the number of
    references. *)
Record enc := Enc { dict : list (list ascii); refs : nat }.

Fixpoint base36 (fuel : nat) (n : Z) : list ascii :=
  match fuel with
  | O => []
  | S fuel =>
      (if n <? 36 then [] else base36 fuel (n / 36))
      ++ [if n mod 36 <? 10 then digit_char (n mod 36) else ascii_of_nat (Z.to_nat (55 + n mod 36))]
  end.

(** [S_], [S0_], [S1_], ... *)
Definition reference (k : nat) : list ascii :=
  match k with O => txt "S_" | S k => txt "S" ++ base36 10 (Z.of_nat k) ++ txt "_" end.

Definition known (key : list ascii) (s : enc) : option nat := fst <$> list_find (fun k => k = key) (dict s).

(** A component that can be referred to: a reference when it was entered
    before; otherwise [body], and then it is entered. *)
Definition component (key : list ascii) (body : enc -> list ascii * enc) (s : enc) : list ascii * enc :=
  match known key s with
  | Some k => (reference k, Enc (dict s) (S (refs s)))
  | None => let (t, s) := body s in (t, Enc (dict s ++ [key]) (refs s))
  end.

(** A scope, or a class name, after the prefix [text] with the spelling [key];
    [ea] encodes the template arguments [a].  A template is entered before its
    arguments, its instance after them. *)
Definition enc_scope (key text : list ascii) (i : ident) (a : args) (ea : enc -> list ascii * enc) (s : enc)
    : list ascii * list ascii * enc :=
  let key1 := key ++ spell_ident i in
  let (text1, s) := component key1 (fun s => (text ++ spell_ident i, s)) s in
  if is_nil a then (key1, text1, s)
  else
    let key2 := key1 ++ targs a in
    let (text2, s) := component key2 (fun s => let (x, s) := ea s in (text1 ++ "I"%char :: x ++ ["E"%char], s)) s in
    (key2, text2, s).

Definition is_scoped (n : name) : bool := match n with Last _ _ => false | Scope _ _ _ => true end.

Fixpoint enc_ty (t : ty) (s : enc) : list ascii * enc :=
  match t with
  | Builtin a => ([a], s)
  | Pointer u => component (spell_ty t) (fun s => let (x, s) := enc_ty u s in ("P"%char :: x, s)) s
  | LvalueRef u => component (spell_ty t) (fun s => let (x, s) := enc_ty u s in ("R"%char :: x, s)) s
  | RvalueRef u => component (spell_ty t) (fun s => let (x, s) := enc_ty u s in ("O"%char :: x, s)) s
  | Const u => component (spell_ty t) (fun s => let (x, s) := enc_ty u s in ("K"%char :: x, s)) s
  | Class n =>
      match known (spell_name n) s with
      | Some k => (reference k, Enc (dict s) (S (refs s)))
      | None =>
          let (x, s) := enc_name [] [] n s in
          (if is_scoped n then "N"%char :: x ++ ["E"%char] else x, s)
      end
  end
with enc_name (key text : list ascii) (n : name) (s : enc) : list ascii * enc :=
  match n with
  | Last i a => let '(_, text, s) := enc_scope key text i a (enc_args a) s in (text, s)
  | Scope i a n => let '(key, text, s) := enc_scope key text i a (enc_args a) s in enc_name key text n s
  end
with enc_args (a : args) (s : enc) : list ascii * enc :=
  match a with
  | NoArgs => ([], s)
  | Args t a => let (x, s) := enc_ty t s in let (y, s) := enc_args a s in (x ++ y, s)
  end.

Fixpoint enc_scopes (key text : list ascii) (l : list (ident * args)) (s : enc) : list ascii * enc :=
  match l with
  | [] => (text, s)
  | (i, a) :: l => let '(key, text, s) := enc_scope key text i a (enc_args a) s in enc_scopes key text l s
  end.

(** No parameters are encoded as [void]. *)
Definition parameter_types (d : decl) : args :=
  if is_nil (d_params d) then Args (Builtin "v") NoArgs else d_params d.

Definition encode (d : decl) : list ascii * enc :=
  let (x, s) := enc_scopes [] [] (d_scope d) (Enc [] 0) in
  let (y, s) := enc_args (parameter_types d) s in
  (txt "_ZN" ++ x ++ spell_ident (d_name d) ++ txt "E" ++ y, s).

Definition mangle (d : decl) : list ascii := (encode d).1.

(** The encoding refers to nothing that was entered before. *)
Definition no_reference (d : decl) : bool := (refs (encode d).2 =? 0)%nat.

Fixpoint qualified (l : list (ident * args)) (i : ident) : name :=
  match l with [] => Last i NoArgs | (j, a) :: l => Scope j a (qualified l i) end.

(** The text of a declaration: [a::b<int>::f(char*, void)] without the return type. *)
Definition show_decl (d : decl) : list ascii := show (qualified (d_scope d) (d_name d)) (parameter_types d).

(** ** Declarations of C++ *)

Definition is_ref (t : ty) : bool := match t with LvalueRef _ | RvalueRef _ => true | _ => false end.
Definition is_void (t : ty) : bool := match t with Builtin a => a =c "v" | _ => false end.
Definition first_ident (n : name) : ident := match n with Last i _ | Scope i _ _ => i end.

(** Types that a program can write: references refer to objects, and pointers
    do not point to references.  [const] stands at a builtin type or a class:
    a constant pointer would be printed as a pointer to a constant.  Class
    names are qualified (the demangler rejects others) and not in [std], whose
    names are abbreviated. *)
Fixpoint cxx_ty (t : ty) : bool :=
  match t with
  | Builtin a => match builtin_text a with Some _ => true | None => false end
  | Pointer t => cxx_ty t && negb (is_ref t)
  | LvalueRef t | RvalueRef t => cxx_ty t && negb (is_ref t) && negb (is_void t)
  | Const t => cxx_ty t && match t with Builtin _ | Class _ => true | _ => false end
  | Class n => is_scoped n && negb (bool_decide (first_ident n = txt "std")) && cxx_name n
  end
with cxx_name (n : name) : bool :=
  match n with
  | Last i a => ident_ok i && cxx_args a
  | Scope i a n => ident_ok i && cxx_args a && cxx_name n
  end
with cxx_args (a : args) : bool :=
  match a with
  | NoArgs => true
  | Args t a => cxx_ty t && cxx_args a
  end.

(** A parameter is neither [void] nor [const] itself, which is not encoded. *)
Fixpoint cxx_params (a : args) : bool :=
  match a with
  | NoArgs => true
  | Args t a => cxx_ty t && negb (is_void t) && match t with Const _ => false | _ => true end && cxx_params a
  end.

(** A function in at least one scope, outside of [std]. *)
Definition cxx_decl (d : decl) : bool :=
  match d_scope d with [] => false | (i, _) :: _ => negb (bool_decide (i = txt "std")) end
  && forallb (fun c => ident_ok c.1 && cxx_args c.2) (d_scope d) && ident_ok (d_name d) && cxx_params (d_params d).

Lemma cxx_syntax :
  (forall t, cxx_ty t = true -> ty_ok t = true) /\ (forall n, cxx_name n = true -> name_ok n = true)
  /\ (forall a, cxx_args a = true -> args_ok a = true).
Proof. apply syntax_ind; cbn [cxx_ty cxx_name cxx_args ty_ok name_ok args_ok]; intros; rewrite ?andb_true_iff in *; naive_solver. Qed.

(** ** Encoding without references *)

(** [f] makes no reference less, and without one it writes [text]. *)
Definition plain (f : enc -> list ascii * enc) (text : list ascii) : Prop :=
  forall s, let (x, s') := f s in (refs s <= refs s')%nat /\ (refs s' = refs s -> x = text).

Lemma plain_component key body text : plain body text -> plain (component key body) text.
Proof.
  intros Hb s. unfold component. destruct (known key s); [cbn; split; lia|]. specialize (Hb s). by destruct (body s).
Qed.

Lemma plain_map f text (g : list ascii -> list ascii) : plain f text -> plain (fun s => let (x, s) := f s in (g x, s)) (g text).
Proof. intros Hf s. specialize (Hf s). destruct (f s) as [x s']. destruct Hf as [Hle E]. split; [done|]. intros ->%E. done. Qed.

(** The scopes of an encoding: the prefix grows by the spelling of a component. *)
Lemma plain_scope key text i a ea s :
  (is_nil a = false -> plain ea (spell_args a)) ->
  let '(_, text', s') := enc_scope key text i a ea s in
  (refs s <= refs s')%nat /\ (refs s' = refs s -> text' = text ++ spell_ident i ++ targs a).
Proof.
  intros Ha. unfold enc_scope.
  pose proof (plain_component (key ++ spell_ident i) (fun s => (text ++ spell_ident i, s)) (text ++ spell_ident i)) as H1.
  specialize (H1 ltac:(by intros s0; split) s). destruct (component _ _ s) as [text1 s1]. destruct H1 as [L1 E1].
  unfold targs. destruct (is_nil a); [split; [done|]; intros ->%E1; by rewrite app_nil_r|].
  pose proof (plain_component (key ++ spell_ident i ++ "I"%char :: spell_args a ++ ["E"%char])
    (fun s => let (x, s) := ea s in (text1 ++ "I"%char :: x ++ ["E"%char], s)) (text1 ++ "I"%char :: spell_args a ++ ["E"%char])) as H2.
  rewrite <- app_assoc. specialize (H2 (plain_map ea _ (fun x => text1 ++ "I"%char :: x ++ ["E"%char]) (Ha eq_refl)) s1).
  destruct (component _ _ s1) as [text2 s2]. destruct H2 as [L2 E2]. split; [lia|]. intros E.
  rewrite E2, E1 by lia. by rewrite <- app_assoc.
Qed.

Lemma plain_syntax :
  (forall t, cxx_ty t = true -> plain (enc_ty t) (spell_ty t))
  /\ (forall n, cxx_name n = true -> forall key text, plain (enc_name key text n) (text ++ spell_name n))
  /\ (forall a, cxx_args a = true -> plain (enc_args a) (spell_args a)).
Proof.
  apply syntax_ind; cbn [cxx_ty cxx_name cxx_args].
  - intros a _ s. by split.
  - intros t IH [Ht _]%andb_true_iff. apply plain_component, (plain_map _ _ (cons "P"%char)), IH, Ht.
  - intros t IH [[Ht _]%andb_true_iff _]%andb_true_iff. apply plain_component, (plain_map _ _ (cons "R"%char)), IH, Ht.
  - intros t IH [[Ht _]%andb_true_iff _]%andb_true_iff. apply plain_component, (plain_map _ _ (cons "O"%char)), IH, Ht.
  - intros t IH [Ht _]%andb_true_iff. apply plain_component, (plain_map _ _ (cons "K"%char)), IH, Ht.
  - intros n IH [[Hs _]%andb_true_iff Hn]%andb_true_iff s. cbn [enc_ty spell_ty].
    destruct (known _ s); [cbn; split; lia|]. specialize (IH Hn [] [] s). destruct (enc_name [] [] n s) as [x s']. rewrite Hs.
    destruct IH as [Hle E]. split; [done|]. by intros ->%E.
  - intros i a IH [_ Ha]%andb_true_iff key text s. cbn [enc_name spell_name].
    pose proof (plain_scope key text i a (enc_args a) s (fun _ => IH Ha)) as H. by destruct (enc_scope _ _ _ _ _ _) as [[? ?] ?].
  - intros i a IHa n IHn [[_ Ha]%andb_true_iff Hn]%andb_true_iff key text s. cbn [enc_name spell_name].
    pose proof (plain_scope key text i a (enc_args a) s (fun _ => IHa Ha)) as H.
    destruct (enc_scope _ _ _ _ _ _) as [[key1 text1] s1]. destruct H as [L1 E1]. specialize (IHn Hn key1 text1 s1).
    destruct (enc_name key1 text1 n s1) as [x s2]. destruct IHn as [L2 E2]. split; [lia|]. intros E. rewrite E2, E1 by lia. unfold targs. by rewrite <- !app_assoc.
  - intros _ s. by split.
  - intros t IHt a IHa [Ht Ha]%andb_true_iff s. cbn [enc_args spell_args]. specialize (IHt Ht s). destruct (enc_ty t s) as [x s1].
    specialize (IHa Ha s1). destruct (enc_args a s1) as [y s2]. destruct IHt as [L1 E1], IHa as [L2 E2]. split; [lia|]. intros E.
    rewrite E1, E2 by lia. done.
Qed.

Lemma plain_scopes i l : forall key text,
  forallb (fun c => ident_ok c.1 && cxx_args c.2) l = true ->
  plain (fun s => let (x, s) := enc_scopes key text l s in (x ++ spell_ident i, s)) (text ++ spell_name (qualified l i)).
Proof.
  induction l as [|[j a] l IH]; intros key text Hl s; cbn [enc_scopes qualified spell_name].
  - cbn. split; [done|]. by rewrite app_nil_r.
  - cbn [forallb fst snd] in Hl. apply andb_true_iff in Hl as [[_ Ha]%andb_true_iff Hl].
    pose proof (plain_scope key text j a (enc_args a) s (fun _ => proj2 (proj2 plain_syntax) a Ha)) as H.
    destruct (enc_scope _ _ _ _ _ _) as [[key1 text1] s1]. destruct H as [L1 E1]. specialize (IH key1 text1 Hl s1). cbn beta in IH.
    destruct (enc_scopes key1 text1 l s1) as [x s2]. destruct IH as [L2 E2]. split; [lia|]. intros E. rewrite E2, E1 by lia. unfold targs. by rewrite <- !app_assoc.
Qed.

Lemma cxx_params_args a : cxx_params a = true -> cxx_args a = true.
Proof. induction a as [|t a IH]; cbn; [done|]. rewrite !andb_true_iff. naive_solver. Qed.

Lemma parameter_types_ok d : cxx_params (d_params d) = true -> cxx_args (parameter_types d) = true /\ is_nil (parameter_types d) = false.
Proof. unfold parameter_types. destruct (is_nil (d_params d)) eqn:E; [done|]. intros H%cxx_params_args. by rewrite E. Qed.

Lemma mangle_spelled d :
  cxx_decl d = true -> no_reference d = true -> mangle d = spell (qualified (d_scope d) (d_name d)) (parameter_types d).
Proof.
  unfold cxx_decl, no_reference, mangle, encode. rewrite !andb_true_iff. intros [[[_ Hl] _] [Hp _]%parameter_types_ok].
  pose proof (plain_scopes (d_name d) (d_scope d) [] [] Hl (Enc [] 0)) as H1. cbn beta in H1.
  destruct (enc_scopes _ _ _ _) as [x s1]. destruct H1 as [L1 E1].
  pose proof (proj2 (proj2 plain_syntax) (parameter_types d) Hp s1) as H2. destruct (enc_args _ s1) as [y s2]. destruct H2 as [L2 E2].
  cbn [fst snd refs] in *. intros E%Nat.eqb_eq. rewrite E2 by lia. unfold spell. cbn [app] in E1. rewrite <- E1 by lia.
  by rewrite <- !app_assoc.
Qed.

Lemma cxx_decl_ok d : cxx_decl d = true -> name_ok (qualified (d_scope d) (d_name d)) = true /\ args_ok (parameter_types d) = true
  /\ is_nil (parameter_types d) = false.
Proof.
  unfold cxx_decl. rewrite !andb_true_iff. intros [[[_ Hl] Hi] [Hp Hn]%parameter_types_ok]. split_and!; [|by apply cxx_syntax|done].
  induction (d_scope d) as [|[j a] l IH]; cbn [qualified name_ok]; [by rewrite Hi|].
  cbn [forallb fst snd] in Hl. apply andb_true_iff in Hl as [[Hj Ha]%andb_true_iff Hl]. rewrite Hj, (proj2 (proj2 cxx_syntax) a Ha). by apply IH.
Qed.


(** A name that the parser rejects is shown as it is: the buffer holds its
    characters, cut to the room that the buffer has, and a NUL. *)
Theorem demangle_rejected s m bufsz below c' :
  (2 <= bufsz <= length m)%nat ->
  demangle_internal s {| inp := s; mem := m; below := below; out := 0;
                         out_end := bufsz - 1; subs := [] |} = Reject c' ->
  clean_text s ->
  exists m', demangle (Some s) (Some m) bufsz below = InBuffer m' /\
             c_str m' = take (bufsz - 1) s.
Proof.
  intros Hb Hr Hs. unfold demangle. destruct (bufsz <? 2)%nat eqn:E;
    [apply Nat.ltb_lt in E; lia|]. rewrite Hr. eexists. split; [done|].
  epose proof (demangle_internal_good s _ Hs) as G. rewrite Hr in G.
  assert (length (mem c') = length m) as L by (by destruct G as [X | ->]; [apply (ext_len _ _ X)|]).
  rewrite copy_original_spec by (rewrite length_insert; lia).
  set (t := take (bufsz - 1) s). set (m1 := <[0%nat:=NUL]> (mem c')).
  assert (length t < length m1)%nat
    by (subst t m1; rewrite length_take, length_insert; lia).
  rewrite <- (take_drop (length (t ++ [NUL])) m1), list_inserts_0_r.
  - rewrite <- app_assoc. apply c_str_app. by apply clean_text_take.
  - rewrite length_take, length_app. cbn. lia.
Qed.

(** * Names as the kernel sees them *)

(** The text left in a buffer of 128 bytes. *)
Definition demangled (s : string) : string :=
  match demangle (Some (txt s)) (Some (replicate 128 "#"%char)) 128 (fun _ => "@"%char) with
  | InBuffer m => String.string_of_list_ascii (c_str m)
  | _ => EmptyString
  end.

Lemma demangle_in_buffer_witness :
  exists m', demangle (Some (txt "_Z3fooiPKc")) (Some (replicate 16 "#"%char)) 8
               (fun _ => NUL) = InBuffer m' /\
             string_in_buffer 8 (replicate 16 "#"%char) m'.
Proof. apply demangle_in_buffer; [reflexivity | cbn; lia]. Defined.

Lemma productions_terminate_witness :
  let c := {| inp := txt "PKN1aIiE1bE"; mem := replicate 64 NUL; below := fun _ => NUL;
              out := 0; out_end := 63; subs := [] |} in
  parse 47 (TypeSub true) c <> OutOfFuel /\
  forall f', (47 <= f')%nat -> parse f' (TypeSub true) c = parse 47 (TypeSub true) c.
Proof. apply productions_terminate. cbn. lia. Defined.

(** [tori::List<unsigned char>::copy(const char*, log::Ring&)]: a class of the
    namespace [tori] as a parameter would be a reference. *)
Definition demo_decl : decl :=
  Decl [(txt "tori", NoArgs); (txt "List", Args (Builtin "h") NoArgs)] (txt "copy")
    (Args (Pointer (Const (Builtin "c"))) (Args (LvalueRef (Class (Scope (txt "log") NoArgs (Last (txt "Ring") NoArgs)))) NoArgs)).


Lemma demangle_rejected_witness :
  exists m', demangle (Some (txt "panic_entry")) (Some (replicate 8 "#"%char)) 6
               (fun _ => NUL) = InBuffer m' /\ c_str m' = txt "panic".
Proof.
  apply (demangle_rejected (txt "panic_entry") (replicate 8 "#"%char) 6 (fun _ => NUL)
    {| inp := txt "panic_entry"; mem := replicate 8 "#"%char; below := fun _ => NUL;
       out := 0; out_end := 5; subs := [] |});
    [cbn; lia | reflexivity | reflexivity].
Defined.

(** ** Outside the fragment *)

(** A template argument list, an anonymous namespace and a vtable. *)
Example demangle_common :
  demangled "_ZN4tori12_GLOBAL__N_14pickIiPKcLi5EEEvRKN1a1bE" =
    "tori::{anonymous}::pick<int, const char*, i5>(void, const a::b&)" /\
  demangled "_ZTVN4tori3vfs4NodeE" = "vtable for tori::vfs::Node".
Proof. vm_compute. done. Qed.

(** The bound of an array is followed by an underscore, which is not consumed:
    every function with an array parameter keeps its mangled name.  Without the
    underscore a bound is printed modulo 1000. *)
Example demangle_array :
  demangled "_Z1fRA10_i" = "_Z1fRA10_i" /\ demangled "_Z1fA1234i" = "f([234]int)".
Proof. vm_compute. done. Qed.

(** A class without a namespace is not accepted as a type, and constructors are
    not accepted at all. *)
Example demangle_unscoped_class :
  demangled "_Z4openP4File" = "_Z4openP4File" /\ demangled "_ZN4FileC1Ev" = "_ZN4FileC1Ev".
Proof. vm_compute. done. Qed.

(** The base-object destructor [D2] is printed as a constructor. *)
Example demangle_destructor : demangled "_ZN4FileD2Ev" = "File::(constructor)(void)".
Proof. vm_compute. done. Qed.

(** The encoder on declarations with references: names as compilers write them. *)
Example mangle_references :
  let a_c := Class (Scope (txt "a") NoArgs (Last (txt "c") NoArgs)) in
  mangle (Decl [(txt "a", NoArgs)] (txt "b") (Args a_c NoArgs)) = txt "_ZN1a1bENS_1cE"
  /\ mangle (Decl [(txt "a", NoArgs); (txt "c", NoArgs)] (txt "b") (Args a_c (Args (Pointer a_c) (Args (Pointer a_c) NoArgs))))
     = txt "_ZN1a1c1bES0_PS0_S1_"
  /\ mangle (Decl [(txt "a", NoArgs); (txt "v", Args a_c NoArgs)] (txt "b") (Args (LvalueRef (Const a_c)) NoArgs))
     = txt "_ZN1a1vINS_1cEE1bERKS1_"
  /\ (let l a := Class (Scope (txt "tori") NoArgs (Last (txt "List") (Args a NoArgs))) in
      let li := l (Builtin "i") in
      mangle (Decl [(txt "tori", NoArgs)] (txt "q") (Args (LvalueRef (Const (l li))) (Args (Pointer li) (Args (Pointer (l li)) NoArgs)))))
     = txt "_ZN4tori1qERKNS_4ListINS0_IiEEEEPS1_PS2_"
  /\ mangle (Decl [(txt "a", NoArgs)] (txt "b") NoArgs) = txt "_ZN1a1bEv".
Proof. vm_compute. split_and!; reflexivity. Qed.

(** A constant pointer is printed as a pointer to a constant. *)
Example demangle_const_pointer : demangled "_ZN1a1bERKPc" = "a::b(const char*&)" /\ demangled "_ZN1a1bERPKc" = "a::b(const char*&)".
Proof. vm_compute. done. Qed.

(** A back reference looks seven entries too far: here [S_] is [a]. *)
Example demangle_back_reference : demangled "_ZN1a1bENS_1cE" = "a::b(<?>::c)".
Proof. vm_compute. done. Qed.

(** [S_] and [S0_] name the same entry. *)
Example demangle_back_reference_same :
  demangled "_ZN1a1b1c1d1e1f1g1h1iES_S0_" = "a::b::c::d::e::f::g::h::i(h, h)".
Proof. vm_compute. done. Qed.

(** The entry for [std::allocator] starts one character early. *)
Example demangle_allocator_entry :
  demangled "_ZN1a1b1c1d1e1f1gSaES_" = "a::b::c::d::e::f::g::std::allocator(:std::allocator)".
Proof. vm_compute. done. Qed.

(** The overflow test of [read_number] does not see the last digit: a length of
    4294967299 is read as 3. *)
Example demangle_length_wraps : demangled "_Z4294967299abcv" = "abc(void)".
Proof. vm_compute. done. Qed.
