(* ===== verification/Stacktrace.v ===== *)
(** The stack unwinder (arch/x86_64/stacktrace.cpp): variable-length numbers and
    encoded pointers, the call-frame records of [.eh_frame], the interpreter of
    their instructions, the two searches for a record, one unwinding step, the
    symbol table and the public entry points.

    All of it reads the kernel's memory, a [bmem]; a pointer is its address.
    An operation answers [Val], [No] (the C++ function returned [false] or
    [nullptr]) or [Undefined] (a number of more than ten bytes, whose shift the
    language leaves undefined, or a search without end in damaged tables). *)
From S2P Require Import Prelude Bytes Text Demangle.

(** * Outcomes *)

Inductive outcome (A : Type) :=
| Val (a : A)
| No
| Undefined.
Arguments Val {A} a.
Arguments No {A}.
Arguments Undefined {A}.

Definition obind {A B} (r : outcome A) (k : A -> outcome B) : outcome B :=
  match r with Val a => k a | No => No | Undefined => Undefined end.

Notation "'let!' x ':=' r 'in' k" := (obind r (fun x => k))
  (at level 200, x name, r at level 100, k at level 200, right associativity).
Notation "'let!' ' x ':=' r 'in' k" := (obind r (fun x => k))
  (at level 200, x strict pattern, r at level 100, k at level 200, right associativity).

(** [if (!c) return false;] *)
Definition guard (b : bool) : outcome unit := if b then Val tt else No.

(** * Constants *)

Definition DW_CFA_advance_loc := 0x40.
Definition DW_CFA_offset := 0x80.
Definition DW_CFA_restore := 0xC0.
Definition DW_CFA_nop := 0x00.
Definition DW_CFA_set_loc := 0x01.
Definition DW_CFA_advance_loc1 := 0x02.
Definition DW_CFA_advance_loc2 := 0x03.
Definition DW_CFA_advance_loc4 := 0x04.
Definition DW_CFA_offset_extended := 0x05.
Definition DW_CFA_restore_extended := 0x06.
Definition DW_CFA_undefine := 0x07.
Definition DW_CFA_same_value := 0x08.
Definition DW_CFA_register := 0x09.
Definition DW_CFA_remember_state := 0x0A.
Definition DW_CFA_restore_state := 0x0B.
Definition DW_CFA_def_cfa := 0x0C.
Definition DW_CFA_def_cfa_register := 0x0D.
Definition DW_CFA_def_cfa_offset := 0x0E.
Definition DW_CFA_def_cfa_expression := 0x0F.
Definition DW_CFA_expression := 0x10.
Definition DW_CFA_offset_extended_sf := 0x11.
Definition DW_CFA_def_cfa_sf := 0x12.
Definition DW_CFA_def_cfa_offset_sf := 0x13.
Definition DW_CFA_val_offset := 0x14.
Definition DW_CFA_val_offset_sf := 0x15.
Definition DW_CFA_val_expression := 0x16.
Definition DW_CFA_GNU_args_size := 0x2E.
Definition DW_CFA_GNU_negative_offset_extended := 0x2F.

Definition DW_EH_PE_absptr := 0x00.
Definition DW_EH_PE_uleb128 := 0x01.
Definition DW_EH_PE_udata2 := 0x02.
Definition DW_EH_PE_udata4 := 0x03.
Definition DW_EH_PE_udata8 := 0x04.
Definition DW_EH_PE_sleb128 := 0x09.
Definition DW_EH_PE_sdata2 := 0x0A.
Definition DW_EH_PE_sdata4 := 0x0B.
Definition DW_EH_PE_sdata8 := 0x0C.
Definition DW_EH_PE_pcrel := 0x10.
Definition DW_EH_PE_datarel := 0x30.
Definition DW_EH_PE_omit := 0xFF.

Definition DW_REG_RBP := 6.
Definition DW_REG_RSP := 7.
Definition DW_REG_RA := 16.

(** A [w]-bit pattern read as a signed number. *)
Definition signed (w x : Z) : Z :=
  let u := wrap w x in if u <? 2 ^ (w - 1) then u else u - 2 ^ w.

(** * The linker's symbols *)

(** The addresses of the two sections, the symbol table (address and name) and
    the kernel's memory. *)
Record Image := {
  mem_ : bmem;
  eh_frame_start : Z;
  eh_frame_end : Z;
  eh_frame_hdr_start : Z;
  eh_frame_hdr_end : Z;
  symtab : list (Z * list ascii);
}.

Section Unwinder.
Variable img : Image.

Definition byte (p : Z) : Z := aget (mem_ img) p.
Definition load (n : nat) (p : Z) : Z := ld n (mem_ img) p.

(** * Numbers *)

(** The loop of [read_uleb] and [read_sleb] from the shift [s]: the pattern, the
    last byte, the shift after it and the address after it. *)
Fixpoint leb_loop (k : nat) (p v s : Z) : outcome (Z * Z * Z * Z) :=
  match k with
  | O => Undefined
  | S k =>
      let b := byte p in
      let v := Z.lor v (wrap 64 (Z.shiftl (Z.land b 0x7F) s)) in
      if Z.land b 0x80 =? 0 then Val (v, b, s + 7, p + 1)
      else leb_loop k (p + 1) v (s + 7)
  end.

(** Ten bytes: the eleventh would be shifted by 70. *)
Definition LEB_BYTES : nat := 10.

Definition read_uleb (p : Z) : outcome (Z * Z) :=
  let! '(v, _, _, p) := leb_loop LEB_BYTES p 0 0 in Val (v, p).

Definition read_sleb (p : Z) : outcome (Z * Z) :=
  let! '(v, b, s, p) := leb_loop LEB_BYTES p 0 0 in
  let v := if (s <? 64) && negb (Z.land b 0x40 =? 0)
           then Z.lor v (wrap 64 (- Z.shiftl 1 s)) else v in
  Val (signed 64 v, p).

(** The value of an encoded pointer before its base is added. *)
Definition read_enc_value (p enc : Z) : outcome (option (Z * Z)) :=
  let f := Z.land enc 0x0F in
  if f =? DW_EH_PE_absptr then Val (Some (load 8 p, p + 8))
  else if f =? DW_EH_PE_uleb128 then let! r := read_uleb p in Val (Some r)
  else if f =? DW_EH_PE_udata2 then Val (Some (load 2 p, p + 2))
  else if f =? DW_EH_PE_udata4 then Val (Some (load 4 p, p + 4))
  else if f =? DW_EH_PE_udata8 then Val (Some (load 8 p, p + 8))
  else if f =? DW_EH_PE_sleb128 then
    let! '(v, p) := read_sleb p in Val (Some (wrap 64 v, p))
  else if f =? DW_EH_PE_sdata2 then Val (Some (wrap 64 (signed 16 (load 2 p)), p + 2))
  else if f =? DW_EH_PE_sdata4 then Val (Some (wrap 64 (signed 32 (load 4 p)), p + 4))
  else if f =? DW_EH_PE_sdata8 then Val (Some (load 8 p, p + 8))
  else Val None.

Definition read_enc (p enc db : Z) : outcome (Z * Z) :=
  if enc =? DW_EH_PE_omit then Val (0, p)
  else
    let! r := read_enc_value p enc in
    match r with
    | None => Val (0, p)
    | Some (v, p') =>
        if Z.land enc 0xF0 =? DW_EH_PE_pcrel then Val (v +64 p, p')
        else if Z.land enc 0xF0 =? DW_EH_PE_datarel then Val (v +64 db, p')
        else Val (v, p')
    end.

(** * Common information entries *)

Record Cie := {
  code_align : Z;
  data_align : Z;
  ra_reg : Z;
  fde_enc : Z;
  inst : Z;
  inst_end : Z;
  datarel_base : Z;
  has_z : bool;
}.

(** The augmentation string at [p] and the address after its NUL; memory holds
    finitely many bytes that differ from its default. *)
Fixpoint aug_string (fuel : nat) (p : Z) : outcome (list ascii * Z) :=
  match fuel with
  | O => Undefined
  | S fuel =>
      if byte p =? 0 then Val ([], p + 1)
      else let! '(l, p') := aug_string fuel (p + 1) in Val (chr (byte p) :: l, p')
  end.

Definition aug_fuel : nat := S (size (over (mem_ img))).

(** [*a == …] for some character of the string, and the check that all of them
    are known. *)
Definition aug_has (a : ascii) (aug : list ascii) : bool := existsb (Ascii.eqb a) aug.
Definition aug_known (aug : list ascii) : bool :=
  forallb (fun a => existsb (Ascii.eqb a) (txt "zRLP")) aug.

(** The augmentation data from [p]: the encoding of the pointers of the
    descriptions. *)
Definition aug_data (p : Z) (aug : list ascii) (base : Z) : outcome Z :=
  let p := if aug_has "L" aug then p + 1 else p in
  let! p := (if aug_has "P" aug
             then let! '(_, p) := read_enc (p + 1) (byte p) base in Val p
             else Val p) in
  let re := if aug_has "R" aug then byte p else 0 in
  Val (if re =? 0 then DW_EH_PE_absptr else re).

Definition parse_cie (body len : Z) (is64 : bool) : outcome Cie :=
  let n := if is64 then 8%nat else 4%nat in
  let! _ := guard (load n body =? 0) in
  let p := body + Z.of_nat n in
  let ver := byte p in
  let! _ := guard ((ver =? 1) || (ver =? 3) || (ver =? 4)) in
  let! '(aug, p) := aug_string aug_fuel (p + 1) in
  let! _ := guard (aug_known aug) in
  let p := if 4 <=? ver then p + 2 else p in
  let! '(ca, p) := read_uleb p in
  let! '(da, p) := read_sleb p in
  let! '(ra, p) := read_uleb p in
  let z := aug_has "z" aug in
  let! '(enc, p) :=
    (if z then
       let! '(alen, p) := read_uleb p in
       let! enc := aug_data p aug body in Val (enc, p + alen)
     else Val (DW_EH_PE_absptr, p)) in
  Val {| code_align := ca; data_align := da; ra_reg := wrap 8 ra; fde_enc := enc;
         inst := p; inst_end := body + len; datarel_base := body; has_z := z |}.

(** * Frame description entries *)

Record Fde := {
  start_pc : Z;
  end_pc : Z;
  fde_cie : Cie;
  fde_inst : Z;
  fde_inst_end : Z;
}.

(** The body of the entry at [p], its length and its format. *)
Definition entry_body (p : Z) : outcome (Z * Z * bool) :=
  let h := load 4 p in
  if h =? 0xFFFFFFFF then Val (p + 12, load 8 (p + 4), true)
  else if h =? 0 then No
  else Val (p + 4, h, false).

Definition parse_fde (p body len : Z) (is64 : bool) : outcome Fde :=
  let n := if is64 then 8%nat else 4%nat in
  let cie_off := load n body in
  let cie_start := body - cie_off in
  let! '(cie_body, cie_len, cie_is64) := entry_body cie_start in
  let! c := parse_cie cie_body cie_len cie_is64 in
  let! '(start, q) := read_enc (body + Z.of_nat n) (fde_enc c) p in
  let! '(range, q) := read_enc q (Z.land (fde_enc c) 0x0F) p in
  let! q := (if has_z c then let! '(al, q) := read_uleb q in Val (q + al) else Val q) in
  Val {| start_pc := start; end_pc := start +64 range; fde_cie := c;
         fde_inst := q; fde_inst_end := body + len |}.

(** * Call-frame instructions *)

Inductive RuleK := RU_UNDEF | RU_SAME | RU_OFFSET | RU_VALOFF | RU_REG.

Record RRule := { k : RuleK; reg : Z; off : Z }.

Record State := {
  loc : Z;
  cfa_reg : Z;
  cfa_off : Z;
  ra : RRule;
  rbp : RRule;
}.

Definition STK_MAX : nat := 8.

Definition set_loc (st : State) (l : Z) : State :=
  {| loc := l; cfa_reg := cfa_reg st; cfa_off := cfa_off st; ra := ra st; rbp := rbp st |}.
Definition set_cfa (st : State) (r o : Z) : State :=
  {| loc := loc st; cfa_reg := r; cfa_off := o; ra := ra st; rbp := rbp st |}.
Definition set_ra (st : State) (r : RRule) : State :=
  {| loc := loc st; cfa_reg := cfa_reg st; cfa_off := cfa_off st; ra := r; rbp := rbp st |}.
Definition set_rbp (st : State) (r : RRule) : State :=
  {| loc := loc st; cfa_reg := cfa_reg st; cfa_off := cfa_off st; ra := ra st; rbp := r |}.

Definition with_k (x : RuleK) (r : RRule) : RRule := {| k := x; reg := reg r; off := off r |}.
Definition with_off (x : RuleK) (o : Z) (r : RRule) : RRule := {| k := x; reg := reg r; off := o |}.
Definition with_reg (x : RuleK) (v : Z) (r : RRule) : RRule := {| k := x; reg := v; off := off r |}.

(** [if (r == DW_REG_RA) …ra…; else if (r == DW_REG_RBP) …rbp…;] *)
Definition on_rule (r : Z) (f : RRule -> RRule) (st : State) : State :=
  if r =? DW_REG_RA then set_ra st (f (ra st))
  else if r =? DW_REG_RBP then set_rbp st (f (rbp st))
  else st.

(** The same for the rules that only [rbp] can have. *)
Definition on_rbp (r : Z) (f : RRule -> RRule) (st : State) : State :=
  if r =? DW_REG_RBP then set_rbp st (f (rbp st)) else st.

(** One instruction: the loop goes on, or [exec_cfi] returns. *)
Inductive flow :=
| Next (st : State) (p : Z) (saved : list State)
| Return (st : State).

Section Interpreter.
Variables (ca da fenc dbase target : Z).

(** The location moves to [l]; past the target the rules are complete. *)
Definition advance (st : State) (l p : Z) (saved : list State) : flow :=
  let st := set_loc st l in if target <? l then Return st else Next st p saved.

(** [int64_t o = (int64_t)read_uleb(p) * da] *)
Definition scaled (v : Z) : Z := signed 64 (signed 64 v * da).

Definition exec_op (op : Z) (st : State) (p : Z) (saved : list State) : outcome flow :=
  let next st p := Val (Next st p saved) in
  if op =? DW_CFA_nop then next st p
  else if Z.land op 0xC0 =? DW_CFA_advance_loc then
    Val (advance st (loc st +64 Z.land op 0x3F * ca) p saved)
  else if Z.land op 0xC0 =? DW_CFA_offset then
    let! '(v, p) := read_uleb p in
    next (on_rule (Z.land op 0x3F) (with_off RU_OFFSET (scaled v)) st) p
  else if Z.land op 0xC0 =? DW_CFA_restore then
    next (on_rule (Z.land op 0x3F) (with_k RU_UNDEF) st) p
  else if op =? DW_CFA_set_loc then
    let! '(l, p) := read_enc p fenc dbase in Val (advance st l p saved)
  else if op =? DW_CFA_advance_loc1 then
    Val (advance st (loc st +64 byte p * ca) (p + 1) saved)
  else if op =? DW_CFA_advance_loc2 then
    Val (advance st (loc st +64 load 2 p * ca) (p + 2) saved)
  else if op =? DW_CFA_advance_loc4 then
    Val (advance st (loc st +64 load 4 p * ca) (p + 4) saved)
  else if op =? DW_CFA_offset_extended then
    let! '(r, p) := read_uleb p in let! '(v, p) := read_uleb p in
    next (on_rule (wrap 8 r) (with_off RU_OFFSET (scaled v)) st) p
  else if (op =? DW_CFA_restore_extended) || (op =? DW_CFA_undefine) then
    let! '(r, p) := read_uleb p in next (on_rule (wrap 8 r) (with_k RU_UNDEF) st) p
  else if op =? DW_CFA_same_value then
    let! '(r, p) := read_uleb p in next (on_rule (wrap 8 r) (with_k RU_SAME) st) p
  else if op =? DW_CFA_register then
    let! '(r, p) := read_uleb p in let! '(vr, p) := read_uleb p in
    next (on_rule (wrap 8 r) (with_reg RU_REG (wrap 8 vr)) st) p
  else if op =? DW_CFA_remember_state then
    Val (Next st p (if (length saved <? STK_MAX)%nat then st :: saved else saved))
  else if op =? DW_CFA_restore_state then
    match saved with
    | [] => next st p
    | st' :: saved => Val (Next st' p saved)
    end
  else if op =? DW_CFA_def_cfa then
    let! '(r, p) := read_uleb p in let! '(v, p) := read_uleb p in
    next (set_cfa st (wrap 8 r) (signed 64 v)) p
  else if op =? DW_CFA_def_cfa_register then
    let! '(r, p) := read_uleb p in next (set_cfa st (wrap 8 r) (cfa_off st)) p
  else if op =? DW_CFA_def_cfa_offset then
    let! '(v, p) := read_uleb p in next (set_cfa st (cfa_reg st) (signed 64 v)) p
  else if op =? DW_CFA_def_cfa_sf then
    let! '(r, p) := read_uleb p in let! '(v, p) := read_sleb p in
    next (set_cfa st (wrap 8 r) (signed 64 (v * da))) p
  else if op =? DW_CFA_def_cfa_offset_sf then
    let! '(v, p) := read_sleb p in next (set_cfa st (cfa_reg st) (signed 64 (v * da))) p
  else if op =? DW_CFA_offset_extended_sf then
    let! '(r, p) := read_uleb p in let! '(v, p) := read_sleb p in
    next (on_rule (wrap 8 r) (with_off RU_OFFSET (signed 64 (v * da))) st) p
  else if op =? DW_CFA_val_offset then
    let! '(r, p) := read_uleb p in let! '(v, p) := read_uleb p in
    next (on_rbp (wrap 8 r) (with_off RU_VALOFF (scaled v)) st) p
  else if op =? DW_CFA_val_offset_sf then
    let! '(r, p) := read_uleb p in let! '(v, p) := read_sleb p in
    next (on_rbp (wrap 8 r) (with_off RU_VALOFF (signed 64 (v * da))) st) p
  else if (op =? DW_CFA_def_cfa_expression) || (op =? DW_CFA_expression)
          || (op =? DW_CFA_val_expression) then
    let! '(el, p) := read_uleb p in next st (p + el)
  else if op =? DW_CFA_GNU_args_size then
    let! '(_, p) := read_uleb p in next st p
  else if op =? DW_CFA_GNU_negative_offset_extended then
    let! '(r, p) := read_uleb p in let! '(v, p) := read_uleb p in
    next (on_rule (wrap 8 r) (with_off RU_OFFSET (signed 64 (- signed 64 v * da))) st) p
  else Val (Return st).

Fixpoint exec_loop (fuel : nat) (st : State) (p end_ : Z) (saved : list State) : outcome State :=
  if end_ <=? p then Val st
  else match fuel with
       | O => Undefined
       | S fuel =>
           let! fl := exec_op (byte p) st (p + 1) saved in
           match fl with
           | Next st p saved => exec_loop fuel st p end_ saved
           | Return st => Val st
           end
       end.
End Interpreter.

(** Every iteration moves [p] on. *)
Definition exec_cfi (st : State) (p end_ ca da fenc dbase start target : Z) : outcome State :=
  exec_loop ca da fenc dbase target (Z.to_nat (end_ - p)) (set_loc st start) p end_ [].

(** * Searching a table sorted by address *)

(** The last of [cnt] entries whose address is at most [a]. *)
Fixpoint bsearch (fuel : nat) (key : Z -> Z) (cnt a lo hi : Z) : option Z :=
  match fuel with
  | O => None
  | S fuel =>
      if hi <? lo then None
      else
        let mid := lo + (hi - lo) / 2 in
        if a <? key mid then bsearch fuel key cnt a lo (mid - 1)
        else if (mid =? cnt - 1) || (a <? key (mid + 1)) then Some mid
        else bsearch fuel key cnt a (mid + 1) hi
  end.

Definition search (key : Z -> Z) (cnt a : Z) : option Z :=
  bsearch (Z.to_nat cnt + 1) key cnt a 0 (cnt - 1).

(** * Finding a frame description *)

(** The size of a table entry of the format. *)
Definition stride (fmt : Z) : option Z :=
  if fmt =? DW_EH_PE_absptr then Some 16
  else if (fmt =? DW_EH_PE_udata4) || (fmt =? DW_EH_PE_sdata4) then Some 8
  else if (fmt =? DW_EH_PE_udata8) || (fmt =? DW_EH_PE_sdata8) then Some 16
  else if (fmt =? DW_EH_PE_udata2) || (fmt =? DW_EH_PE_sdata2) then Some 4
  else None.

(** A field of an entry, with the base for relative ones. *)
Definition table_field (tbl_enc dbase tp : Z) : Z :=
  let fmt := Z.land tbl_enc 0x0F in
  let v :=
    if fmt =? DW_EH_PE_udata4 then load 4 tp
    else if fmt =? DW_EH_PE_sdata4 then wrap 64 (signed 32 (load 4 tp))
    else if fmt =? DW_EH_PE_udata2 then load 2 tp
    else if fmt =? DW_EH_PE_sdata2 then wrap 64 (signed 16 (load 2 tp))
    else load 8 tp in
  if Z.land tbl_enc 0xF0 =? DW_EH_PE_datarel then v +64 dbase else v.

Definition find_fde_hdr (pc : Z) : outcome Z :=
  let h := eh_frame_hdr_start img in
  let! _ := guard (h <? eh_frame_hdr_end img) in
  let! _ := guard (byte h =? 1) in
  let eptr_enc := byte (h + 1) in
  let fcnt_enc := byte (h + 2) in
  let tbl_enc := byte (h + 3) in
  let! '(_, p) := read_enc (h + 4) eptr_enc h in
  let! '(cnt, p) := read_enc p fcnt_enc h in
  let! _ := guard (negb ((cnt =? 0) || (100000 <? cnt))) in
  match stride (Z.land tbl_enc 0x0F) with
  | None => No
  | Some n =>
      match search (fun i => table_field tbl_enc h (p + i * n)) cnt pc with
      | Some mid => let a := table_field tbl_enc h (p + mid * n + n / 2) in
                    if a =? 0 then No else Val a
      | None => No
      end
  end.

(** The entries one after the other. *)
Fixpoint linear_loop (fuel : nat) (p pc : Z) : outcome Z :=
  if eh_frame_end img <=? p then No
  else match fuel with
       | O => Undefined
       | S fuel =>
           match entry_body p with
           | Val (body, len, is64) =>
               if len =? 0 then No
               else
                 let is_cie := load (if is64 then 8 else 4)%nat body =? 0 in
                 let next := linear_loop fuel (body + len) pc in
                 if is_cie then next
                 else match parse_fde p body len is64 with
                      | Val f => if (start_pc f <=? pc) && (pc <? end_pc f) then Val p else next
                      | No => next
                      | Undefined => Undefined
                      end
           | No => No
           | Undefined => Undefined
           end
       end.

Definition find_fde_linear (pc : Z) : outcome Z :=
  linear_loop (Z.to_nat (eh_frame_end img - eh_frame_start img)) (eh_frame_start img) pc.

(** * One step up the stack *)

Record Regs := { rip_ : Z; rsp_ : Z; rbp_ : Z }.

Definition initial_state : State :=
  {| loc := 0; cfa_reg := DW_REG_RSP; cfa_off := 0;
     ra := {| k := RU_UNDEF; reg := 0; off := 0 |};
     rbp := {| k := RU_UNDEF; reg := 0; off := 0 |} |}.

(** [0xFFFFFFFF80000000ULL + 0x100000000ULL] *)
Definition CFA_LIMIT : Z := 0xFFFFFFFF80000000 +64 0x100000000.

Definition find_fde (pc : Z) : outcome Z :=
  match find_fde_hdr pc with No => find_fde_linear pc | r => r end.

(** The rules that hold at the instruction pointer. *)
Definition frame_rules (rip : Z) : outcome State :=
  let! fe := find_fde rip in
  let! '(body, len, is64) := entry_body fe in
  let! f := parse_fde fe body len is64 in
  let! _ := guard ((start_pc f <=? rip) && (rip <? end_pc f)) in
  let c := fde_cie f in
  let! st := exec_cfi initial_state (inst c) (inst_end c) (code_align c) (data_align c)
               (fde_enc c) (datarel_base c) (start_pc f) rip in
  exec_cfi st (fde_inst f) (fde_inst_end f) (code_align c) (data_align c)
    (fde_enc c) fe (start_pc f) rip.

(** The caller's frame by the rules. *)
Definition apply_rules (st : State) (r : Regs) : outcome Regs :=
  let! cfa := (if cfa_reg st =? DW_REG_RSP then Val (rsp_ r +64 cfa_off st)
               else if cfa_reg st =? DW_REG_RBP then Val (rbp_ r +64 cfa_off st)
               else No) in
  let! _ := guard (negb ((cfa <=? rsp_ r) || (CFA_LIMIT <=? cfa))) in
  let! nrip := match k (ra st) with
               | RU_OFFSET => Val (load 8 (cfa +64 off (ra st)))
               | RU_SAME => Val (rip_ r)
               | _ => No
               end in
  let nrbp := match k (rbp st) with
              | RU_OFFSET => load 8 (cfa +64 off (rbp st))
              | RU_VALOFF => cfa +64 off (rbp st)
              | RU_SAME => rbp_ r
              | RU_REG => if reg (rbp st) =? DW_REG_RBP then rbp_ r
                          else if reg (rbp st) =? DW_REG_RSP then rsp_ r else 0
              | RU_UNDEF => 0
              end in
  Val {| rip_ := nrip; rsp_ := cfa; rbp_ := nrbp |}.

Definition step (r : Regs) : outcome Regs :=
  let! st := frame_rules (rip_ r) in apply_rules st r.

(** * Symbols *)

Definition sym_addr (i : Z) : Z := default 0 (fst <$> symtab img !! Z.to_nat i).

(** The name of the symbol that holds [addr] and the offset in it. *)
Definition lookup (addr : Z) : option (list ascii * Z) :=
  let cnt := Z.of_nat (length (symtab img)) in
  if cnt =? 0 then None
  else match search sym_addr cnt addr with
       | Some mid =>
           (fun e => (e.2, addr -64 e.1)) <$> symtab img !! Z.to_nat mid
       | None => None
       end.

(** * Public interface *)

(** The frames from [r] on, [n] of them at most. *)
Fixpoint collect (n : nat) (r : Regs) : outcome (list Z) :=
  match n with
  | O => Val []
  | S n =>
      match step r with
      | Val r' => if rip_ r' =? 0 then Val [rip_ r]
                  else let! l := collect n r' in Val (rip_ r :: l)
      | No => Val [rip_ r]
      | Undefined => Undefined
      end
  end.

(** The demangled name, the static buffer [buf] after the call and the offset. *)
Definition resolve (buf : list ascii) (below : nat -> ascii) (addr : Z) :
    option (list ascii * list ascii * Z) :=
  match lookup addr with
  | None => None
  | Some (raw, offset) =>
      match demangle (Some raw) (Some buf) 256 below with
      | InBuffer m => Some (c_str m, m, offset)
      | _ => Some (raw, buf, offset)
      end
  end.
End Unwinder.
