(* ===== verification/StackSpec.v ===== *)
(** Theorems about the stack unwinder: numbers are read back from their
    encoding, the searches find the last entry at or below an address, a step
    moves up the stack, and what the limit on the frame address does to stacks
    of the kernel. *)
From S2P Require Import Prelude Bytes Text Demangle Stacktrace.

(** * Variable-length numbers *)

(** The [n] bytes that encode [x], least significant first; all but the last
    have the continuation bit. *)
Fixpoint leb_bytes (n : nat) (x : Z) : list Z :=
  match n with
  | O => []
  | S O => [x `mod` 128]
  | S n => (x `mod` 128 + 128) :: leb_bytes n (x `div` 128)
  end.

(** The bytes stored at [p]. *)
Definition stored (img : Image) (p : Z) (l : list Z) : Prop :=
  forall i b, l !! i = Some b -> byte img (p + Z.of_nat i) = b.

Lemma stored_cons img p b l : stored img p (b :: l) -> byte img p = b /\ stored img (p + 1) l.
Proof.
  intros Hs. split; [rewrite <- (Z.add_0_r p); by apply (Hs 0%nat)|].
  intros i c Hi. replace (p + 1 + Z.of_nat i) with (p + Z.of_nat (S i)) by lia. by apply Hs.
Qed.

Lemma leb_byte_facts d :
  0 <= d < 128 ->
  Z.land d 0x80 = 0 /\ Z.land d 0x7F = d /\
  Z.land (d + 128) 0x80 = 0x80 /\ Z.land (d + 128) 0x7F = d /\
  (Z.land d 0x40 =? 0) = (d <? 64).
Proof.
  intros Hd.
  assert (forallb (fun n => let d := Z.of_nat n in
    bool_decide (Z.land d 0x80 = 0 /\ Z.land d 0x7F = d /\
      Z.land (d + 128) 0x80 = 0x80 /\ Z.land (d + 128) 0x7F = d /\
      (Z.land d 0x40 =? 0) = (d <? 64))) (seq 0 128) = true) as H by (vm_compute; reflexivity).
  rewrite forallb_forall in H. specialize (H (Z.to_nat d)).
  rewrite in_seq in H. specialize (H ltac:(lia)). cbv beta zeta in H.
  rewrite Z2Nat.id in H by lia. by apply bool_decide_eq_true in H.
Qed.

(** Or-ing in a digit above the bits written so far adds it. *)
Lemma lor_shift v d s :
  0 <= s < 64 -> 0 <= v < 2 ^ s -> 0 <= d ->
  Z.lor v (wrap 64 (Z.shiftl d s)) = wrap 64 (v + d * 2 ^ s).
Proof.
  intros Hs Hv Hd. rewrite Z.shiftl_mul_pow2 by lia. unfold wrap.
  assert (v < 2 ^ 64) by (apply Z.lt_le_trans with (2 ^ s); [lia | apply Z.pow_le_mono_r; lia]).
  assert (Z.land v (d * 2 ^ s) = 0) as Hl.
  { apply Z.bits_inj'. intros i Hi. rewrite Z.land_spec, Z.bits_0.
    destruct (decide (i < s)) as [Hlt|Hge].
    - rewrite (Z.mul_pow2_bits_low d s i) by lia. apply andb_false_r.
    - destruct (decide (v = 0)) as [-> | Hz]; [by rewrite Z.bits_0|].
      rewrite (Z.bits_above_log2 v i); [done | lia |].
      apply Z.lt_le_trans with s; [apply Z.log2_lt_pow2; lia | lia]. }
  rewrite (Z.add_nocarry_lxor v (d * 2 ^ s)), (Z.lxor_lor v (d * 2 ^ s)) by done.
  apply Z.bits_inj'. intros i Hi.
  destruct (decide (i < 64)).
  - rewrite Z.lor_spec, !Z.mod_pow2_bits_low, Z.lor_spec by lia. done.
  - rewrite Z.lor_spec, !Z.mod_pow2_bits_high by lia. rewrite orb_false_r.
    rewrite <- (Z.mod_small v (2 ^ 64)) by lia. apply Z.mod_pow2_bits_high. lia.
Qed.

Lemma leb_loop_bytes img n : forall k p v s x,
  (S n <= k)%nat -> stored img p (leb_bytes (S n) x) ->
  0 <= s -> s + 7 * Z.of_nat n < 64 -> 0 <= v < 2 ^ s ->
  exists b, leb_loop img k p v s =
    Val (wrap 64 (v + x `mod` 2 ^ (7 * Z.of_nat (S n)) * 2 ^ s), b,
         s + 7 * Z.of_nat (S n), p + Z.of_nat (S n)) /\
    (Z.land b 0x40 =? 0) = (x `div` 2 ^ (7 * Z.of_nat n) `mod` 128 <? 64).
Proof.
  induction n as [|n IH]; intros k p v s x Hk Hst Hs Hlt Hv.
  - destruct k as [|k]; [lia|]. cbn [leb_loop leb_bytes] in *.
    apply stored_cons in Hst as [-> _].
    pose proof (leb_byte_facts (x `mod` 128) ltac:(apply Z.mod_pos_bound; lia))
      as (F1 & F2 & _ & _ & F5).
    rewrite F1, F2, lor_shift by (try apply Z.mod_pos_bound; lia). cbn [Z.eqb].
    eexists. split; [|change (7 * Z.of_nat 0) with 0; rewrite Z.div_1_r; exact F5].
    change (7 * Z.of_nat 1) with 7. change (2 ^ 7) with 128. done.
  - destruct k as [|k]; [lia|]. cbn [leb_loop].
    change (leb_bytes (S (S n)) x) with ((x `mod` 128 + 128) :: leb_bytes (S n) (x `div` 128)) in Hst.
    apply stored_cons in Hst as [-> Hst].
    set (d := x `mod` 128) in *.
    assert (0 <= d < 128) as Hd by (apply Z.mod_pos_bound; lia).
    pose proof (leb_byte_facts d Hd) as (_ & _ & F3 & F4 & _).
    rewrite F3, F4. change (0x80 =? 0) with false. cbv iota.
    assert (2 ^ (s + 7) = 2 ^ s * 128) as Hp by (rewrite Z.pow_add_r by lia; done).
    assert (2 ^ (s + 7) <= 2 ^ 63) by (apply Z.pow_le_mono_r; lia).
    assert (0 <= v + d * 2 ^ s < 2 ^ (s + 7)) as Hv' by (rewrite Hp; nia).
    rewrite lor_shift, (wrap_small 64 (v + d * 2 ^ s)) by lia.
    destruct (IH k (p + 1) (v + d * 2 ^ s) (s + 7) (x `div` 128)) as (b & E & Hb);
      [lia | done | lia | lia | done |].
    exists b. rewrite E. split.
    + f_equal. f_equal; [|lia]. f_equal; [|lia]. f_equal. f_equal.
      replace (7 * Z.of_nat (S (S n))) with (7 + 7 * Z.of_nat (S n)) by lia.
      rewrite (Z.pow_add_r 2 7) by lia. change (2 ^ 7) with 128.
      rewrite Z.rem_mul_r by lia. fold d. rewrite Hp. lia.
    + rewrite Hb. f_equal. f_equal.
      replace (7 * Z.of_nat (S n)) with (7 + 7 * Z.of_nat n) by lia.
      rewrite (Z.pow_add_r 2 7), <- Z.div_div by lia. done.
Qed.

(** An unsigned number that was encoded in one to ten bytes is read back
    with the address after them, also when the encoding is longer than needed. *)
Theorem read_uleb_bytes img p n x :
  (1 <= n <= 10)%nat -> 0 <= x < 2 ^ 64 -> x < 2 ^ (7 * Z.of_nat n) ->
  stored img p (leb_bytes n x) ->
  read_uleb img p = Val (x, p + Z.of_nat n).
Proof.
  intros Hn Hx Hlt Hst. destruct n as [|n]; [lia|]. unfold read_uleb.
  destruct (leb_loop_bytes img n LEB_BYTES p 0 0 x) as (b & -> & _);
    [unfold LEB_BYTES; lia | done | lia | lia | lia |]. cbn [obind].
  rewrite Z.mod_small by lia. rewrite Z.add_0_l, Z.mul_1_r, wrap_small by lia. done.
Qed.

Lemma signed_small x : - 2 ^ 63 <= x < 2 ^ 63 -> signed 64 x = x.
Proof.
  intros Hx. unfold signed, wrap. change (64 - 1) with 63.
  destruct (decide (0 <= x)).
  - rewrite Z.mod_small by lia. case_bool; lia.
  - replace (x mod 2 ^ 64) with (x + 2 ^ 64)
      by (apply (Z.mod_unique_pos _ _ (-1)); lia). case_bool; lia.
Qed.

Lemma signed_wrap x y : wrap 64 x = wrap 64 y -> signed 64 x = signed 64 y.
Proof. unfold signed. by intros ->. Qed.

(** The sign extension from [s] bits. *)
Lemma sign_extend v s :
  0 < s < 64 -> 0 <= v < 2 ^ s ->
  Z.lor v (wrap 64 (- Z.shiftl 1 s)) = v + (2 ^ 64 - 2 ^ s).
Proof.
  intros Hs Hv. rewrite Z.shiftl_1_l.
  assert (0 < 2 ^ s < 2 ^ 64) by (split; [apply Z.pow_pos_nonneg | apply Z.pow_lt_mono_r]; lia).
  assert (wrap 64 (- 2 ^ s) = wrap 64 (Z.shiftl (2 ^ (64 - s) - 1) s)) as ->.
  { rewrite Z.shiftl_mul_pow2, Z.mul_sub_distr_r, <- Z.pow_add_r by lia.
    replace (64 - s + s) with 64 by lia. unfold wrap.
    replace (2 ^ 64 - 1 * 2 ^ s) with (- 2 ^ s + 1 * 2 ^ 64) by lia. by rewrite Z.mod_add by lia. }
  assert (0 < 2 ^ (64 - s)) by (apply Z.pow_pos_nonneg; lia).
  rewrite lor_shift by lia.
  rewrite Z.mul_sub_distr_r, <- Z.pow_add_r by lia. replace (64 - s + s) with 64 by lia.
  rewrite wrap_small; lia.
Qed.

(** A signed number that was encoded in one to ten bytes is read back with its
    sign. *)
Theorem read_sleb_bytes img p n x :
  (1 <= n <= 10)%nat -> - 2 ^ 63 <= x < 2 ^ 63 ->
  - 2 ^ (7 * Z.of_nat n - 1) <= x < 2 ^ (7 * Z.of_nat n - 1) ->
  stored img p (leb_bytes n x) ->
  read_sleb img p = Val (x, p + Z.of_nat n).
Proof.
  intros Hn Hx Hr Hst. destruct n as [|n]; [lia|]. unfold read_sleb.
  destruct (leb_loop_bytes img n LEB_BYTES p 0 0 x) as (b & -> & Hb);
    [unfold LEB_BYTES; lia | done | lia | lia | lia |]. cbn [obind].
  set (s := 7 * Z.of_nat (S n)) in *.
  assert (2 ^ s = 2 * 2 ^ (s - 1)) as Hp by (rewrite <- Z.pow_succ_r by lia; f_equal; lia).
  assert (2 ^ s = 2 ^ (7 * Z.of_nat n) * 128) as Hp7
    by (change 128 with (2 ^ 7); rewrite <- Z.pow_add_r by lia; f_equal; lia).
  assert (0 < 2 ^ (7 * Z.of_nat n)) by (apply Z.pow_pos_nonneg; lia).
  rewrite Z.add_0_l, Z.mul_1_r, Z.add_0_l. do 2 f_equal.
  destruct (s <? 64) eqn:Es; bool_to_prop; cbn [andb].
  2: { etrans; [|by apply signed_small]. apply signed_wrap.
       assert (s = 70) as -> by lia. unfold wrap. rewrite Zmod_mod. symmetry.
       apply Znumtheory.Zmod_div_mod; [lia | lia | exists (2 ^ 6); reflexivity]. }
  assert (2 ^ s <= 2 ^ 63) by (apply Z.pow_le_mono_r; lia).
  assert (0 <= x mod 2 ^ s < 2 ^ s) by (apply Z.mod_pos_bound; lia).
  rewrite (wrap_small 64 (x mod 2 ^ s)), Hb by lia.
  set (q := x `div` 2 ^ (7 * Z.of_nat n)).
  assert (x = 2 ^ (7 * Z.of_nat n) * q + x mod 2 ^ (7 * Z.of_nat n)) as Hq
    by (apply Z.div_mod; lia).
  pose proof (Z.mod_pos_bound x (2 ^ (7 * Z.of_nat n)) ltac:(lia)).
  destruct (decide (0 <= x)).
  - assert (0 <= q < 64) by nia. rewrite (Z.mod_small q) by lia.
    replace (q <? 64) with true by lia. cbn [negb]. rewrite Z.mod_small by lia.
    by apply signed_small.
  - assert (- (64) <= q < 0) by nia.
    replace (q mod 128) with (q + 128) by (apply (Z.mod_unique_pos _ _ (-1)); lia).
    replace (q + 128 <? 64) with false by lia. cbn [negb].
    rewrite sign_extend by lia.
    replace (x mod 2 ^ s) with (x + 2 ^ s) by (apply (Z.mod_unique_pos _ _ (-1)); lia).
    etrans; [|by apply signed_small]. apply signed_wrap. unfold wrap.
    replace (x + 2 ^ s + (2 ^ 64 - 2 ^ s)) with (x + 1 * 2 ^ 64) by lia.
    by rewrite Z.mod_add by lia.
Qed.

(** * Searching *)

(** Addresses that do not decrease. *)
Definition ascending (key : Z -> Z) (cnt : Z) : Prop :=
  forall i j, 0 <= i <= j -> j < cnt -> key i <= key j.

(** The last of the [cnt] entries at or below [a] is [i]. *)
Definition last_at_or_below (key : Z -> Z) (cnt a i : Z) : Prop :=
  0 <= i < cnt /\ key i <= a /\ forall j, i < j < cnt -> a < key j.

Lemma bsearch_spec fuel key cnt a : forall lo hi,
  ascending key cnt -> 0 <= lo <= hi + 1 -> hi < cnt -> hi - lo + 1 < Z.of_nat fuel ->
  (forall i, hi < i < cnt -> a < key i) -> (lo = 0 \/ lo < cnt /\ key lo <= a) ->
  match bsearch fuel key cnt a lo hi with
  | Some i => last_at_or_below key cnt a i
  | None => forall i, 0 <= i < cnt -> a < key i
  end.
Proof.
  induction fuel as [|fuel IH]; intros lo hi Hk Hlo Hhi Hf Habove Hz; [lia|].
  cbn [bsearch]. case_bool.
  { destruct Hz as [-> | [Hl Ha]]; [intros i Hi; apply Habove; lia|].
    specialize (Habove lo ltac:(lia)). lia. }
  set (mid := lo + (hi - lo) / 2).
  assert (lo <= mid <= hi) as Hm by (subst mid; zlia).
  destruct (a <? key mid) eqn:E1; bool_to_prop.
  - apply IH; try done; try lia.
    intros i Hi. destruct (decide (hi < i)); [apply Habove; lia|].
    apply Z.lt_le_trans with (key mid); [done|]. apply Hk; lia.
  - destruct (mid =? cnt - 1) eqn:E2; bool_to_prop; cbn [orb].
    { split; [lia|]. split; [done|]. lia. }
    destruct (a <? key (mid + 1)) eqn:E3; bool_to_prop.
    + split; [lia|]. split; [done|]. intros j Hj.
      apply Z.lt_le_trans with (key (mid + 1)); [done|]. apply Hk; lia.
    + apply IH; try done; try lia.
Qed.

Lemma search_spec key cnt a :
  0 <= cnt -> ascending key cnt ->
  match search key cnt a with
  | Some i => last_at_or_below key cnt a i
  | None => forall i, 0 <= i < cnt -> a < key i
  end.
Proof. intros Hc Hk. apply bsearch_spec; try done; lia. Qed.

Lemma last_unique key cnt a i j :
  last_at_or_below key cnt a i -> last_at_or_below key cnt a j -> i = j.
Proof.
  intros (Hi & Hia & Hi') (Hj & Hja & Hj').
  destruct (Z.lt_trichotomy i j) as [H|[H|H]]; [|done|].
  - specialize (Hi' j ltac:(lia)). lia.
  - specialize (Hj' i ltac:(lia)). lia.
Qed.

(** The reference: the last entry of the table at or below the address. *)
Definition last_symbol (addr : Z) (l : list (Z * list ascii)) : option (Z * list ascii) :=
  last (filter (fun e => e.1 <= addr) l).

Lemma last_filter_lookup {A} (P : A -> Prop) `{!forall x, Decision (P x)} (l : list A) i x :
  l !! i = Some x -> P x -> (forall j y, (i < j)%nat -> l !! j = Some y -> ~ P y) ->
  last (filter P l) = Some x.
Proof.
  intros Hi HP Hn. rewrite <- (take_drop_middle l i x Hi), filter_app, filter_cons_True by done.
  rewrite (filter_none P (drop (S i) l)); [by rewrite last_snoc|].
  intros y [j Hj]%list_elem_of_lookup. rewrite lookup_drop in Hj. eapply Hn; [|exact Hj]. lia.
Qed.

(** The symbols of the table, sorted by address. *)
Definition sorted_symbols (l : list (Z * list ascii)) : Prop :=
  forall i j a b, (i <= j)%nat -> l !! i = Some a -> l !! j = Some b -> a.1 <= b.1.

Lemma sym_addr_lookup img i e :
  symtab img !! i = Some e -> sym_addr img (Z.of_nat i) = e.1.
Proof. intros Hi. unfold sym_addr. by rewrite Nat2Z.id, Hi. Qed.

Lemma sym_addr_ascending img :
  sorted_symbols (symtab img) -> ascending (sym_addr img) (Z.of_nat (length (symtab img))).
Proof.
  intros Hs i j Hij Hj. unfold sym_addr.
  destruct (lookup_lt_is_Some_2 (symtab img) (Z.to_nat i)) as [a Ha]; [lia|].
  destruct (lookup_lt_is_Some_2 (symtab img) (Z.to_nat j)) as [b Hb]; [lia|].
  rewrite Ha, Hb. cbn. eapply Hs; [|exact Ha | exact Hb]. lia.
Qed.

(** C33. In a symbol table sorted by address, the binary search finds exactly the
    last symbol at or below the address, and the offset of the address in it. *)
Theorem symbol_lookup_spec img addr :
  sorted_symbols (symtab img) ->
  lookup img addr =
    (fun e => (e.2, addr -64 e.1)) <$> last_symbol addr (symtab img).
Proof.
  intros Hs. unfold lookup, last_symbol. set (l := symtab img) in *.
  assert (forall i e, l !! i = Some e -> sym_addr img (Z.of_nat i) = e.1) as Hk
    by (intros; by apply sym_addr_lookup).
  pose proof (search_spec (sym_addr img) (Z.of_nat (length l)) addr ltac:(lia)
    (sym_addr_ascending img Hs)) as S.
  destruct (Z.of_nat (length l) =? 0) eqn:E; bool_to_prop.
  { destruct l; [done | cbn [length] in E; lia]. }
  destruct (search _ _ _) as [mid|].
  - destruct S as (Hm & Ha & Hn).
    destruct (lookup_lt_is_Some_2 l (Z.to_nat mid)) as [e He]; [lia|].
    rewrite He. symmetry. rewrite (last_filter_lookup _ l (Z.to_nat mid) e); [done | done | |].
    + rewrite <- (Hk _ _ He), Z2Nat.id by lia. done.
    + intros j y Hj Hy. rewrite <- (Hk _ _ Hy).
      pose proof (lookup_lt_Some _ _ _ Hy). specialize (Hn (Z.of_nat j) ltac:(lia)). lia.
  - rewrite filter_none; [done|]. intros y [j Hy]%list_elem_of_lookup. rewrite <- (Hk _ _ Hy).
    pose proof (lookup_lt_Some _ _ _ Hy). specialize (S (Z.of_nat j) ltac:(lia)). lia.
Qed.

(** * Steps *)

Lemma apply_rules_moves_up img st r r' :
  apply_rules img st r = Val r' -> rsp_ r < rsp_ r' < CFA_LIMIT.
Proof.
  unfold apply_rules. destruct (if cfa_reg st =? DW_REG_RSP then _ else _) as [cfa| |];
    cbn [obind]; [|done..].
  destruct (_ || _) eqn:E; [done|]. cbn [negb guard obind]. bool_to_prop.
  destruct (match k (ra st) with RU_OFFSET => _ | _ => _ end); cbn [obind]; [|done..].
  intros [= <-]. cbn. lia.
Qed.

Lemma step_moves_up img r r' : step img r = Val r' -> rsp_ r < rsp_ r' < CFA_LIMIT.
Proof.
  unfold step. destruct (frame_rules img (rip_ r)); cbn [obind]; [|done..].
  apply apply_rules_moves_up.
Qed.

Lemma collect_length img n r l : collect img n r = Val l -> (length l <= n)%nat.
Proof.
  revert r l. induction n as [|n IH]; intros r l; cbn [collect]; [by intros [= <-]|].
  destruct (step img r) as [r'| |]; [|intros [= <-]; cbn; lia | done].
  case_match; [intros [= <-]; cbn; lia|].
  destruct (collect img n r') as [l'| |] eqn:E; cbn [obind]; [|done..].
  intros [= <-]. cbn. apply IH in E. lia.
Qed.

(** The frames below the limit: [l] are the instruction pointers of a chain of
    steps, each with a higher stack pointer. *)
Inductive chain (img : Image) : Regs -> list Z -> Prop :=
| chain_one r : chain img r [rip_ r]
| chain_step r r' l :
    step img r = Val r' -> rsp_ r < rsp_ r' -> rip_ r' <> 0 -> chain img r' l ->
    chain img r (rip_ r :: l).

(** The frames that are collected are at most as many as asked for, start with
    the given instruction pointer, and each further one is found by a step that
    moves the stack pointer up. *)
Theorem collect_spec img n r l :
  collect img n r = Val l -> (1 <= n)%nat ->
  (length l <= n)%nat /\ chain img r l.
Proof.
  intros Hc Hn. split; [by eapply collect_length|].
  revert r l Hc. induction n as [|n IH]; intros r l; [lia|]. cbn [collect].
  destruct (step img r) as [r'| |] eqn:Es; [|intros [= <-]; constructor | done].
  destruct (rip_ r' =? 0) eqn:E0; [intros [= <-]; constructor|]. bool_to_prop.
  destruct (collect img n r') as [l'| |] eqn:E; cbn [obind]; [|done..].
  intros [= <-]. destruct n as [|n].
  - cbn in E. injection E as <-. constructor.
  - econstructor; [done | by apply step_moves_up in Es as [? _] | done | apply IH; [lia | done]].
Qed.

(** C32. The limit on the frame address wraps to 0x80000000: with a stack above
    it, as all of the kernel's are, no step succeeds, and the trace, however
    long it may be, has exactly the frame it starts with.  The first step
    must not have undefined behaviour, which only damaged unwind tables give. *)
Theorem kernel_stack_one_frame img n r :
  0x80000000 <= rsp_ r -> step img r <> Undefined -> collect img (S n) r = Val [rip_ r].
Proof.
  intros Hr Hu. cbn [collect]. destruct (step img r) as [r'| |] eqn:E; [|done..].
  apply step_moves_up in E. assert (CFA_LIMIT = 0x80000000) as L by reflexivity. lia.
Qed.

(** A frame without a rule for [rbp] keeps it; the step loses it. *)
Lemma rbp_lost img st r r' :
  k (rbp st) = RU_UNDEF -> apply_rules img st r = Val r' -> rbp_ r' = 0.
Proof.
  intros Hk. unfold apply_rules. rewrite Hk.
  destruct (if cfa_reg st =? DW_REG_RSP then _ else _) as [cfa| |]; cbn [obind]; [|done..].
  destruct (guard _); cbn [obind]; [|done..].
  destruct (match k (ra st) with RU_OFFSET => _ | _ => _ end); cbn [obind]; [|done..].
  by intros [= <-].
Qed.

(** * Every instruction moves on *)

Lemma leb_loop_moves img k : forall p v s r,
  0 <= v -> leb_loop img k p v s = Val r -> 0 <= r.1.1.1 /\ p < r.2.
Proof.
  induction k as [|k IH]; intros p v s r Hv; cbn [leb_loop]; [done|].
  assert (0 <= Z.lor v (wrap 64 (Z.shiftl (Z.land (byte img p) 127) s))) as Hv'.
  { apply Z.lor_nonneg. split; [done | by apply wrap_range]. }
  case_bool; [intros [= <-]; cbn; lia|].
  intros Hr. apply IH in Hr; [|done]. lia.
Qed.

Lemma read_uleb_moves img p r : read_uleb img p = Val r -> 0 <= r.1 /\ p < r.2.
Proof.
  unfold read_uleb. destruct (leb_loop _ _ _ _ _) as [[[[v b] s] q]| |] eqn:E; [|done..].
  apply leb_loop_moves in E; [|done]. intros [= <-]. exact E.
Qed.

Lemma read_sleb_moves img p r : read_sleb img p = Val r -> p < r.2.
Proof.
  unfold read_sleb. destruct (leb_loop _ _ _ _ _) as [[[[v b] s] q]| |] eqn:E; [|done..].
  apply leb_loop_moves in E; [|done]. intros [= <-]. cbn in *. lia.
Qed.

Lemma read_enc_moves img p enc db r : read_enc img p enc db = Val r -> p <= r.2.
Proof.
  unfold read_enc. case_bool; [intros [= <-]; cbn; lia|].
  destruct (read_enc_value img p enc) as [[[v q]|]| |] eqn:E; cbn [obind]; [| |done..].
  2: { intros [= <-]. cbn. lia. }
  assert (p <= q) as Hq.
  { revert E. unfold read_enc_value.
    repeat match goal with |- context [if ?b then _ else _] => destruct b end;
      try (intros [= <- <-]; lia); try done.
    - destruct (read_uleb img p) as [r'| |] eqn:E; cbn; [|done..]. intros [= ->].
      apply read_uleb_moves in E. cbn in E. lia.
    - destruct (read_sleb img p) as [[v' q']| |] eqn:E; cbn; [|done..]. intros [= <- <-].
      apply read_sleb_moves in E. cbn in E. lia. }
  repeat case_bool; intros [= <-]; done.
Qed.

(** Runs through the numbers that an instruction reads. *)
Ltac op_numbers :=
  repeat match goal with
  | |- context [read_uleb ?i ?p] =>
      let E := fresh "E" in
      destruct (read_uleb i p) as [[? ?]| |] eqn:E; cbn [obind]; [|done..];
      apply read_uleb_moves in E; cbn [fst snd] in E
  | |- context [read_sleb ?i ?p] =>
      let E := fresh "E" in
      destruct (read_sleb i p) as [[? ?]| |] eqn:E; cbn [obind]; [|done..];
      apply read_sleb_moves in E; cbn [fst snd] in E
  | |- context [read_enc ?i ?p ?e ?d] =>
      let E := fresh "E" in
      destruct (read_enc i p e d) as [[? ?]| |] eqn:E; cbn [obind]; [|done..];
      apply read_enc_moves in E; cbn [fst snd] in E
  end.

Lemma exec_op_moves img ca da fenc dbase target op st p saved st' p' saved' :
  exec_op img ca da fenc dbase target op st p saved = Val (Next st' p' saved') -> p <= p'.
Proof.
  unfold exec_op.
  repeat match goal with |- (if ?b then _ else _) = _ -> _ => destruct b end;
    op_numbers; unfold advance; repeat case_match; intros; simplify_eq; lia.
Qed.

(** The interpreter of call-frame instructions ends on every program: each
    instruction moves on by at least its own byte, so the bytes of the program
    bound the number of iterations and a larger bound changes nothing. *)
Theorem exec_loop_terminates img ca da fenc dbase target fuel st p end_ saved :
  (Z.to_nat (end_ - p) <= fuel)%nat ->
  exec_loop img ca da fenc dbase target fuel st p end_ saved =
  exec_loop img ca da fenc dbase target (Z.to_nat (end_ - p)) st p end_ saved.
Proof.
  assert (forall f1 f2 st p saved, (Z.to_nat (end_ - p) <= f1)%nat ->
    (Z.to_nat (end_ - p) <= f2)%nat ->
    exec_loop img ca da fenc dbase target f1 st p end_ saved =
    exec_loop img ca da fenc dbase target f2 st p end_ saved) as G; [|auto].
  clear. induction f1 as [|f1 IH]; intros f2 st p saved H1 H2.
  - destruct f2; cbn [exec_loop]; replace (end_ <=? p) with true by lia; done.
  - destruct f2 as [|f2]; cbn [exec_loop].
    { by replace (end_ <=? p) with true by lia. }
    destruct (end_ <=? p) eqn:E; [done|]. bool_to_prop.
    destruct (exec_op _ _ _ _ _ _ _ _ _ _) as [[st' p' saved'|st']| |] eqn:Eo; cbn [obind]; try done.
    apply exec_op_moves in Eo. apply IH; lia.
Qed.

(** * An image

    One function at 0x1000 of 0x40 bytes that pushes and sets [rbp], described
    with and without the search table, and two nested calls of it. *)

Definition write_bytes (p : Z) (l : list Z) (m : bmem) : bmem :=
  foldr (fun ib m => aset m (p + ib.1) ib.2) m (imap (fun i b => (Z.of_nat i, b)) l).

(** A common entry ([zR], factors 1 and -8, the return address at cfa-8) and a
    description: [push rbp] at 1, [mov rbp, rsp] at 4. *)
Definition demo_eh_frame : list Z :=
  [0x14; 0; 0; 0;  0; 0; 0; 0;  1; 0x7a; 0x52; 0;  1; 0x78; 0x10; 1; 0x1b;
   0x0c; 7; 8; 0x90; 1; 0; 0;
   0x18; 0; 0; 0;  0x1c; 0; 0; 0;  0xe0; 0xef; 0xff; 0xff;  0x40; 0; 0; 0;  0;
   0x41; 0x0e; 0x10; 0x86; 2; 0x43; 0x0d; 6; 0; 0; 0].

(** One entry, both fields relative to the header at 0x3000. *)
Definition demo_hdr : list Z :=
  [1; 0x1b; 0x03; 0x3b;  0xfc; 0xef; 0xff; 0xff;  1; 0; 0; 0;
   0x00; 0xe0; 0xff; 0xff;  0x18; 0xf0; 0xff; 0xff].

Definition demo_stack : bmem :=
  st64 (st64 (st64 (st64 (afill 0) 0x7000 0x7100) 0x7008 0x1020) 0x7100 0) 0x7108 0.

Definition demo_image (hdr_end : Z) : Image :=
  {| mem_ := write_bytes 0x2000 demo_eh_frame (write_bytes 0x3000 demo_hdr demo_stack);
     eh_frame_start := 0x2000; eh_frame_end := 0x2034;
     eh_frame_hdr_start := 0x3000; eh_frame_hdr_end := hdr_end;
     symtab := [(0x1000, txt "_ZN4tori4loopEv"); (0x1040, txt "end")] |}.

Definition demo_regs : Regs := {| rip_ := 0x1010; rsp_ := 0x6f00; rbp_ := 0x7000 |}.

Example demo_step :
  step (demo_image 0x3014) demo_regs =
    Val {| rip_ := 0x1020; rsp_ := 0x7010; rbp_ := 0x7100 |} /\
  step (demo_image 0x3000) demo_regs = step (demo_image 0x3014) demo_regs.
Proof. vm_compute. done. Qed.

(** Before the [push], the frame is at [rsp] and [rbp] is not saved yet. *)
Example demo_step_entry :
  step (demo_image 0x3014) {| rip_ := 0x1000; rsp_ := 0x7008; rbp_ := 0x7100 |} =
    Val {| rip_ := 0x1020; rsp_ := 0x7010; rbp_ := 0 |}.
Proof. vm_compute. done. Qed.

Definition demo_frames : list Z := [0x1010; 0x1020].

Lemma collect_spec_witness :
  (length demo_frames <= 8)%nat /\ chain (demo_image 0x3014) demo_regs demo_frames.
Proof.
  apply (collect_spec (demo_image 0x3014) 8 demo_regs); [vm_compute; reflexivity | lia].
Defined.

(** The stack pointer of a kernel stack, in a function with unwind rules that
    lead to two frames on a stack below the limit. *)
Lemma kernel_stack_one_frame_witness :
  collect (demo_image 0x3014) 8 {| rip_ := 0x1010; rsp_ := 0xffffffff90006f00; rbp_ := 0xffffffff90007000 |}
  = Val [0x1010].
Proof.
  apply (kernel_stack_one_frame (demo_image 0x3014) 7
    {| rip_ := 0x1010; rsp_ := 0xffffffff90006f00; rbp_ := 0xffffffff90007000 |});
    [cbn; lia | vm_compute; discriminate].
Defined.

Lemma symbol_lookup_spec_witness :
  lookup (demo_image 0x3014) 0x1020 = Some (txt "_ZN4tori4loopEv", 0x20).
Proof.
  etrans; [apply (symbol_lookup_spec (demo_image 0x3014) 0x1020) | vm_compute; reflexivity].
  intros i j a b Hij Ha Hb. destruct i as [|[|]], j as [|[|]]; cbn in *; simplify_eq; cbn; lia.
Defined.

Lemma read_uleb_bytes_witness : read_uleb (demo_image 0x3014) 0x2012 = Val (7, 0x2013).
Proof.
  apply (read_uleb_bytes (demo_image 0x3014) 0x2012 1 7); [lia | lia | cbn; lia |].
  intros [|i] b; cbn; intros [= <-]. vm_compute. reflexivity.
Defined.

(** The factor -8 of the common entry. *)
Lemma read_sleb_bytes_witness : read_sleb (demo_image 0x3014) 0x200d = Val (- 8, 0x200e).
Proof.
  apply (read_sleb_bytes (demo_image 0x3014) 0x200d 1 (- 8)); [lia | lia | cbn; lia |].
  intros [|i] b; cbn; intros [= <-]. vm_compute. reflexivity.
Defined.

Lemma exec_loop_terminates_witness :
  exec_loop (demo_image 0x3014) 1 (- 8) 0x1b 0x2018 0x1010 100
    (set_loc initial_state 0x1000) 0x2029 0x2034 [] =
  exec_loop (demo_image 0x3014) 1 (- 8) 0x1b 0x2018 0x1010 (Z.to_nat (0x2034 - 0x2029))
    (set_loc initial_state 0x1000) 0x2029 0x2034 [].
Proof. apply exec_loop_terminates. vm_compute. lia. Defined.

(** The augmentation data of [zPLR]: a personality pointer with its encoding, the
    encoding of the language data, the encoding 0x1b of the descriptions.  They
    are read in another order and the encoding found is a byte of the pointer. *)
Example aug_data_order :
  let img := {| mem_ := write_bytes 0x4000 [0x03; 0x11; 0x22; 0x33; 0x44; 0x1b; 0x1b] (afill 0);
                eh_frame_start := 0; eh_frame_end := 0; eh_frame_hdr_start := 0;
                eh_frame_hdr_end := 0; symtab := [] |} in
  aug_data img 0x4000 (txt "zPLR") 0x4000 = Val 0x33.
Proof. vm_compute. reflexivity. Qed.
