(* ===== verification/Log.v ===== *)
(** The kernel log (log/log.cpp): the boot buffer and the ring of every CPU, the
    formatting of entries for the two sinks, the flushes and the panic.

    What the serial port and the framebuffer console receive is a list of [Sink]
    events in order.  [log_lock] is a flag; an operation that would spin on it
    answers [None], as it never returns while the holder is the same CPU. *)
From S2P Require Import Prelude Bytes Text Demangle Stacktrace Task.

Definition CONFIG_LOG_RING_ENTRIES : Z := 256.
Definition CONFIG_LOG_FLUSH_BATCH : nat := 4.
Definition CONFIG_LOG_BOOT_ENTRIES : Z := 64.

(** * Entries *)

Inductive Level := Trace | Debug | Info | Warn | Error | Panic.

(** The values of the enumeration. *)
Definition level_value (l : Level) : Z :=
  match l with Trace => 0 | Debug => 1 | Info => 2 | Warn => 3 | Error => 4 | Panic => 5 end.

(** The tagged union of an entry; [None] is a null pointer. *)
Inductive Payload :=
| Message (msg : option (list ascii))
| Value (label : option (list ascii)) (value : Z)
| TextValue (label value : option (list ascii)).

Record LogEntry := {
  timestamp : Z;
  level : Level;
  category : option (list ascii);
  file : option (list ascii);
  line : Z;
  payload : Payload;
}.

Definition no_entry : LogEntry :=
  {| timestamp := 0; level := Trace; category := None; file := None; line := 0;
     payload := Message None |}.

Definition level_name (l : Level) : list ascii :=
  match l with
  | Trace => txt "TRACE" | Debug => txt "DEBUG" | Info => txt "INFO"
  | Warn => txt "WARN" | Error => txt "ERROR" | Panic => txt "PANIC"
  end.

Definition color_trace : Z := 0x00888888.
Definition color_debug : Z := 0x00aaaaaa.
Definition color_info : Z := 0x00ffffff.
Definition color_warn : Z := 0x00ffff00.
Definition color_error : Z := 0x00ff5555.
Definition color_panic : Z := 0x00ff00ff.

Definition level_color (l : Level) : Z :=
  match l with
  | Trace => color_trace | Debug => color_debug | Info => color_info
  | Warn => color_warn | Error => color_error | Panic => color_panic
  end.

(** * Sinks *)

Inductive Sink :=
| SerialLock
| SerialUnlock
| Serial (text : list ascii)
| Framebuffer (text : list ascii) (color : Z).

(** [write_sink] *)
Definition write_sink (text : list ascii) (color : Z) : list Sink :=
  [Serial text; Framebuffer text color].

(** The digit loop of [write_dec] on [buffer[cursor..20)]. *)
Fixpoint dec_loop (cursor : nat) (value : Z) (buffer : list ascii) : list ascii :=
  match cursor with
  | O => buffer
  | S cursor =>
      if value =? 0 then buffer
      else dec_loop cursor (value `div` 10) (chr (48 + value `mod` 10) :: buffer)
  end.

Definition dec_text (value : Z) : list ascii :=
  if value =? 0 then txt "0" else dec_loop 20 value [].

Definition hex_digits : list ascii := txt "0123456789abcdef".

(** [0x] and sixteen digits. *)
Definition hex_text (value : Z) : list ascii :=
  txt "0x" ++
  map (fun index => default NUL (hex_digits !!
         Z.to_nat (Z.land (Z.shiftr value ((15 - Z.of_nat index) * 4)) 0xf))) (seq 0 16).

Definition write_dec (value color : Z) : list Sink := write_sink (dec_text value) color.
Definition write_hex (value color : Z) : list Sink := write_sink (hex_text value) color.

Definition write_prefix (l : Level) (cat : option (list ascii)) (color : Z) : list Sink :=
  write_sink (txt "[") color ++ write_sink (level_name l) color ++ write_sink (txt "]") color
  ++ write_sink (txt "[") color ++ write_sink (default (txt "kernel") cat) color
  ++ write_sink (txt "] ") color.

(** * Formatting *)

(** The texts of an entry, one per call of [write_to_active_sinks]. *)
Definition entry_texts (e : LogEntry) : list (list ascii) :=
  [txt "["; level_name (level e); txt "]"; txt "["; default (txt "kernel") (category e);
   txt "] "] ++
  match payload e with
  | Message msg => [default (txt "(null)") msg]
  | Value label value =>
      [default (txt "value") label; txt " = "; hex_text value; txt " ("; dec_text value;
       txt ")"]
  | TextValue label value =>
      [default (txt "value") label; txt " = "; default (txt "(null)") value]
  end ++ [[chr 10]].

Definition format_entry (e : LogEntry) : list Sink :=
  let color := level_color (level e) in
  let to_serial := level_value Trace <=? level_value (level e) in
  let to_fb := level_value Info <=? level_value (level e) in
  let write t := (if to_serial then [Serial t] else []) ++
                 (if to_fb then [Framebuffer t color] else []) in
  if negb to_serial && negb to_fb then []
  else (if to_serial then [SerialLock] else [])
       ++ flat_map write (entry_texts e)
       ++ (if to_serial then [SerialUnlock] else []).

(** * Rings *)

(** [BootBuffer] and [PerCpuBuffer]. *)
Record Ring := {
  entries : arr LogEntry;
  write_idx : Z;
  read_idx : Z;
}.

Definition empty_ring : Ring := {| entries := afill no_entry; write_idx := 0; read_idx := 0 |}.

(** The entry goes to the write index unless the ring is full. *)
Definition ring_push (cap : Z) (e : LogEntry) (r : Ring) : Ring :=
  let next := (write_idx r +32 1) mod cap in
  if next =? read_idx r then r
  else {| entries := aset (entries r) (write_idx r) e; write_idx := next;
          read_idx := read_idx r |}.

(** The draining loop, [n] entries at most. *)
Fixpoint drain (n : nat) (cap : Z) (r : Ring) : list Sink * Ring :=
  match n with
  | O => ([], r)
  | S n =>
      if read_idx r =? write_idx r then ([], r)
      else
        let out := format_entry (aget (entries r) (read_idx r)) in
        let (rest, r) := drain n cap {| entries := entries r; write_idx := write_idx r;
                                        read_idx := (read_idx r +32 1) mod cap |} in
        (out ++ rest, r)
  end.

(** The loop without a limit: the ring has fewer than [cap] entries. *)
Definition drain_all (cap : Z) (r : Ring) : list Sink * Ring := drain (Z.to_nat cap) cap r.

(** * The log *)

Record log := {
  boot_buffer : Ring;
  per_cpu_buffers : arr Ring;
  cpu_initialized : arr bool;
  any_cpu_initialized : bool;
  log_lock : bool;
  sinks : list Sink;
  irq_enabled : bool;
  demangle_buf : list ascii;
}.

Definition initial : log :=
  {| boot_buffer := empty_ring; per_cpu_buffers := afill empty_ring;
     cpu_initialized := afill false; any_cpu_initialized := false; log_lock := false;
     sinks := []; irq_enabled := true; demangle_buf := replicate 256 NUL |}.

Definition set_lock (b : bool) (s : log) : log :=
  {| boot_buffer := boot_buffer s; per_cpu_buffers := per_cpu_buffers s;
     cpu_initialized := cpu_initialized s; any_cpu_initialized := any_cpu_initialized s;
     log_lock := b; sinks := sinks s; irq_enabled := irq_enabled s;
     demangle_buf := demangle_buf s |}.

Definition set_irq (b : bool) (s : log) : log :=
  {| boot_buffer := boot_buffer s; per_cpu_buffers := per_cpu_buffers s;
     cpu_initialized := cpu_initialized s; any_cpu_initialized := any_cpu_initialized s;
     log_lock := log_lock s; sinks := sinks s; irq_enabled := b;
     demangle_buf := demangle_buf s |}.

Definition set_boot (r : Ring) (s : log) : log :=
  {| boot_buffer := r; per_cpu_buffers := per_cpu_buffers s;
     cpu_initialized := cpu_initialized s; any_cpu_initialized := any_cpu_initialized s;
     log_lock := log_lock s; sinks := sinks s; irq_enabled := irq_enabled s;
     demangle_buf := demangle_buf s |}.

Definition set_cpu (cpu : Z) (r : Ring) (s : log) : log :=
  {| boot_buffer := boot_buffer s; per_cpu_buffers := aset (per_cpu_buffers s) cpu r;
     cpu_initialized := cpu_initialized s; any_cpu_initialized := any_cpu_initialized s;
     log_lock := log_lock s; sinks := sinks s; irq_enabled := irq_enabled s;
     demangle_buf := demangle_buf s |}.

Definition emit (out : list Sink) (s : log) : log :=
  {| boot_buffer := boot_buffer s; per_cpu_buffers := per_cpu_buffers s;
     cpu_initialized := cpu_initialized s; any_cpu_initialized := any_cpu_initialized s;
     log_lock := log_lock s; sinks := sinks s ++ out; irq_enabled := irq_enabled s;
     demangle_buf := demangle_buf s |}.

Definition set_demangle_buf (b : list ascii) (s : log) : log :=
  {| boot_buffer := boot_buffer s; per_cpu_buffers := per_cpu_buffers s;
     cpu_initialized := cpu_initialized s; any_cpu_initialized := any_cpu_initialized s;
     log_lock := log_lock s; sinks := sinks s; irq_enabled := irq_enabled s;
     demangle_buf := b |}.

(** The boot buffer drained to the sinks. *)
Definition drain_boot (s : log) : log :=
  let (out, r) := drain_all CONFIG_LOG_BOOT_ENTRIES (boot_buffer s) in
  emit out (set_boot r s).

(** [n] entries of the ring of a CPU. *)
Definition drain_cpu (n : nat) (cpu : Z) (s : log) : log :=
  let (out, r) := drain n CONFIG_LOG_RING_ENTRIES (aget (per_cpu_buffers s) cpu) in
  emit out (set_cpu cpu r s).

(** The calling CPU has a ring of its own; [cpu] is [lapic::id()]. *)
Definition has_ring (cpu : Z) (s : log) : bool :=
  any_cpu_initialized s && ((cpu <? CONFIG_MAX_CPUS) && aget (cpu_initialized s) cpu).

Definition flush (cpu : Z) (s : log) : log :=
  if log_lock s then s
  else
    let s := drain_boot (set_lock true s) in
    let s := if has_ring cpu s then drain_cpu CONFIG_LOG_FLUSH_BATCH cpu s else s in
    set_lock false s.

Definition flush_all (cpu : Z) (s : log) : log :=
  if log_lock s then s
  else
    let s := set_lock false (drain_boot (set_lock true s)) in
    if has_ring cpu s then drain_cpu (Z.to_nat CONFIG_LOG_RING_ENTRIES) cpu s else s.

(** The number of entries of a ring as [push_entry] computes it. *)
Definition used (r : Ring) : Z :=
  if read_idx r <=? write_idx r then write_idx r - read_idx r
  else CONFIG_LOG_RING_ENTRIES - (read_idx r - write_idx r).

Definition push_entry (cpu : Z) (e : LogEntry) (s : log) : option log :=
  let saved := irq_enabled s in
  let s := set_irq false s in
  s ← (if has_ring cpu s then
         let s := if (CONFIG_LOG_RING_ENTRIES * 3) `div` 4 <? used (aget (per_cpu_buffers s) cpu)
                  then flush cpu s else s in
         Some (set_cpu cpu (ring_push CONFIG_LOG_RING_ENTRIES e (aget (per_cpu_buffers s) cpu)) s)
       else if log_lock s then None
       else Some (set_boot (ring_push CONFIG_LOG_BOOT_ENTRIES e (boot_buffer s)) s));
  Some (if saved then set_irq true s else s).

(** [now] is the uptime in milliseconds; the line is kept in 16 bits. *)
Definition write (now cpu : Z) (l : Level) (cat f : option (list ascii)) (ln : Z)
    (message : option (list ascii)) (s : log) : option log :=
  push_entry cpu {| timestamp := now; level := l; category := cat; file := f;
                    line := signed 16 ln; payload := Message message |} s.

Definition write_value (now cpu : Z) (l : Level) (cat f : option (list ascii)) (ln : Z)
    (label : option (list ascii)) (value : Z) (s : log) : option log :=
  push_entry cpu {| timestamp := now; level := l; category := cat; file := f;
                    line := signed 16 ln; payload := Value label value |} s.

Definition write_text_value (now cpu : Z) (l : Level) (cat f : option (list ascii)) (ln : Z)
    (label value : option (list ascii)) (s : log) : option log :=
  push_entry cpu {| timestamp := now; level := l; category := cat; file := f;
                    line := signed 16 ln; payload := TextValue label value |} s.

Definition init_per_cpu (lapic_id : Z) (s : log) : option log :=
  if CONFIG_MAX_CPUS <=? lapic_id then Some s
  else if log_lock s then None
  else
    let s := set_lock false (drain_boot (set_lock true s)) in
    Some {| boot_buffer := boot_buffer s; per_cpu_buffers := per_cpu_buffers s;
            cpu_initialized := aset (cpu_initialized s) lapic_id true;
            any_cpu_initialized := true; log_lock := log_lock s; sinks := sinks s;
            irq_enabled := irq_enabled s; demangle_buf := demangle_buf s |}.

(** * Panic *)

Section Panic.
Variables (img : Image) (below : nat -> ascii).

(** One line of the trace. *)
Definition print_frame (i : Z) (frame : Z) (s : log) : log :=
  let s := emit (write_sink (txt "  #") color_panic ++ write_dec i color_panic
                 ++ write_sink (txt " [") color_panic) s in
  let s :=
    match resolve img (demangle_buf s) below frame with
    | Some (name, buf, offset) =>
        emit (write_sink name color_panic ++
              (if 0 <? offset
               then write_sink (txt "+") color_panic ++ write_hex offset color_panic
               else []))
          (set_demangle_buf buf s)
    | None => emit (write_hex frame color_panic) s
    end in
  emit (write_sink (txt "]" ++ [chr 10]) color_panic) s.

Fixpoint print_frames (i : Z) (frames : list Z) (s : log) : log :=
  match frames with
  | [] => s
  | f :: frames => print_frames (i + 1) frames (print_frame i f s)
  end.

(** [None]: the unwinder met undefined behaviour. *)
Definition print_stack_trace_from (r : Regs) (s : log) : option log :=
  match collect img 32 r with
  | Val [] => Some s
  | Val frames =>
      Some (print_frames 0 frames
              (emit (write_sink ([chr 10] ++ txt "Stack trace:" ++ [chr 10]) color_panic) s))
  | _ => None
  end.

(** The rings of all CPUs, one after the other. *)
Definition drain_cpus (s : log) : log :=
  for_z 0 CONFIG_MAX_CPUS (fun cpu s =>
    if aget (cpu_initialized s) cpu
    then drain_cpu (Z.to_nat CONFIG_LOG_RING_ENTRIES) cpu s else s) s.

(** The message itself. *)
Definition panic_message (cat : option (list ascii)) (f : list ascii) (ln : Z)
    (message : option (list ascii)) : list Sink :=
  write_prefix Panic cat color_panic
  ++ write_sink (default (txt "(panic)") message) color_panic
  ++ write_sink [chr 10] color_panic ++ write_sink (txt "Location: ") color_panic
  ++ write_sink f color_panic ++ write_sink (txt ":") color_panic
  ++ write_dec (wrap 64 ln) color_panic ++ write_sink [chr 10] color_panic.

(** The state in which the CPU halts for good, the lock still held; [caller] are
    the registers of the caller's frame. *)
Definition panic (cat : option (list ascii)) (f : list ascii) (ln : Z)
    (message : option (list ascii)) (caller : Regs) (s : log) : option log :=
  if log_lock s then None
  else
    let s := drain_cpus (drain_boot (set_lock true s)) in
    print_stack_trace_from caller (emit (panic_message cat f ln message) s).
End Panic.
