(* ===== verification/LogSpec.v ===== *)
(** Theorems about the kernel log: rings are bounded queues, entries come out in
    the order in which they went in and exactly once, numbers are printed in
    full, and a panic prints everything that is pending. *)
From S2P Require Import Prelude Bytes Text Demangle Stacktrace Task Log.

(** * Rings as queues *)

Record ring_ok (cap : Z) (r : Ring) : Prop := {
  ok_write : 0 <= write_idx r < cap;
  ok_read : 0 <= read_idx r < cap;
}.

(** The number of entries and the entries, oldest first. *)
Definition count (cap : Z) (r : Ring) : nat := Z.to_nat ((write_idx r - read_idx r) mod cap).

Definition pending (cap : Z) (r : Ring) : list LogEntry :=
  map (fun j => aget (entries r) ((read_idx r + Z.of_nat j) mod cap)) (seq 0 (count cap r)).

Lemma length_pending cap r : length (pending cap r) = count cap r.
Proof. unfold pending. by rewrite length_map, length_seq. Qed.

Lemma count_lt cap r : 0 < cap -> Z.of_nat (count cap r) < cap.
Proof.
  intros Hc. unfold count. pose proof (Z.mod_pos_bound (write_idx r - read_idx r) cap Hc). lia.
Qed.

Lemma sub_mod_zero cap a b :
  0 <= a < cap -> 0 <= b < cap -> (a - b) mod cap = 0 -> a = b.
Proof.
  intros Ha Hb M. apply Z.mod_divide in M as [q Hq]; [|lia].
  assert (q = 0 \/ 1 <= q \/ q <= -1) as [-> | [Hp | Hn]] by lia; nia.
Qed.

Lemma succ_mod cap x : 0 < cap < 2 ^ 32 -> 0 <= x < cap -> (x +32 1) mod cap = (x + 1) mod cap.
Proof. intros. rewrite wrap_small by lia. done. Qed.

Lemma succ_mod_range cap x : 0 < cap -> 0 <= (x +32 1) mod cap < cap.
Proof. intros. by apply Z.mod_pos_bound. Qed.

Lemma count_zero cap r : ring_ok cap r -> count cap r = O <-> read_idx r = write_idx r.
Proof.
  intros [Hw Hr]. unfold count. split; intros E.
  - pose proof (Z.mod_pos_bound (write_idx r - read_idx r) cap ltac:(lia)).
    assert ((write_idx r - read_idx r) mod cap = 0) as M by lia.
    symmetry. by apply (sub_mod_zero cap).
  - by rewrite E, Z.sub_diag, Z.mod_0_l by lia.
Qed.

(** Taking the oldest entry. *)
Lemma pending_step cap r :
  0 < cap < 2 ^ 32 -> ring_ok cap r -> read_idx r <> write_idx r ->
  let r' := {| entries := entries r; write_idx := write_idx r;
               read_idx := (read_idx r +32 1) mod cap |} in
  ring_ok cap r' /\ pending cap r = aget (entries r) (read_idx r) :: pending cap r'.
Proof.
  intros Hc Hok Hne r'. destruct Hok as [Hw Hr].
  split; [split; cbn; [done | apply succ_mod_range; lia]|].
  assert (count cap r = S (count cap r')) as Hcnt.
  { unfold count; cbn. rewrite succ_mod by done.
    pose proof (Z.mod_pos_bound (write_idx r - read_idx r) cap ltac:(lia)).
    assert ((write_idx r - read_idx r) mod cap <> 0).
    { intros M. apply sub_mod_zero in M; [by subst|done..]. }
    rewrite Zminus_mod_idemp_r.
    replace (write_idx r - (read_idx r + 1)) with (write_idx r - read_idx r - 1) by lia.
    rewrite <- (Zminus_mod_idemp_l (write_idx r - read_idx r) 1).
    rewrite (Z.mod_small (_ - 1)) by lia. lia. }
  unfold pending. rewrite Hcnt. cbn [seq map]. f_equal.
  - f_equal. rewrite Z.add_0_r. by rewrite Z.mod_small.
  - rewrite <- seq_shift, map_map. apply map_ext. intros j. cbn. f_equal.
    rewrite succ_mod, Z.add_mod_idemp_l by lia. f_equal. lia.
Qed.

(** The texts of entries, in order. *)
Definition formatted (l : list LogEntry) : list Sink := flat_map format_entry l.

Lemma drain_spec cap n : forall r,
  0 < cap < 2 ^ 32 -> ring_ok cap r ->
  let (out, r') := drain n cap r in
  out = formatted (take n (pending cap r)) /\ ring_ok cap r' /\
  pending cap r' = drop n (pending cap r).
Proof.
  induction n as [|n IH]; intros r Hc Hok; cbn [drain]; [done|].
  destruct (read_idx r =? write_idx r) eqn:E; bool_to_prop.
  { assert (pending cap r = []) as ->.
    { apply nil_length_inv. rewrite length_pending. by apply count_zero. }
    done. }
  destruct (pending_step cap r Hc Hok E) as [Hok' ->].
  set (r1 := {| entries := entries r |}) in *.
  specialize (IH r1 Hc Hok'). destruct (drain n cap r1) as [out r'].
  destruct IH as (-> & Hok'' & Hd). done.
Qed.

Lemma drain_all_spec cap r :
  0 < cap < 2 ^ 32 -> ring_ok cap r ->
  let (out, r') := drain_all cap r in
  out = formatted (pending cap r) /\ ring_ok cap r' /\ pending cap r' = [].
Proof.
  intros Hc Hok. unfold drain_all. pose proof (drain_spec cap (Z.to_nat cap) r Hc Hok) as D.
  destruct (drain _ _ _) as [out r']. destruct D as (-> & Hok' & ->).
  pose proof (count_lt cap r ltac:(lia)).
  rewrite take_ge, drop_ge by (rewrite length_pending; lia). done.
Qed.

(** A push appends, or does nothing on a full ring. *)
Lemma ring_push_spec cap e r :
  1 < cap < 2 ^ 32 -> ring_ok cap r ->
  ring_ok cap (ring_push cap e r) /\
  pending cap (ring_push cap e r) =
    if Z.of_nat (length (pending cap r)) =? cap - 1 then pending cap r
    else pending cap r ++ [e].
Proof.
  intros Hc Hok. rewrite length_pending. unfold ring_push.
  pose proof (count_lt cap r ltac:(lia)) as Hlt. destruct Hok as [Hw Hr].
  assert (Z.of_nat (count cap r) = (write_idx r - read_idx r) mod cap) as Hcnt.
  { unfold count. rewrite Z2Nat.id; [done|]. apply Z.mod_pos_bound. lia. }
  assert ((write_idx r + 1 - read_idx r) mod cap = (Z.of_nat (count cap r) + 1) mod cap) as Hn.
  { rewrite Hcnt, Z.add_mod_idemp_l by lia. f_equal. lia. }
  rewrite succ_mod by lia.
  destruct ((write_idx r + 1) mod cap =? read_idx r) eqn:E; bool_to_prop.
  - split; [by split|]. replace (Z.of_nat (count cap r) =? cap - 1) with true; [done|].
    symmetry. apply Z.eqb_eq. rewrite <- Zminus_mod_idemp_l, E, Z.sub_diag, Z.mod_0_l in Hn by lia.
    destruct (decide (Z.of_nat (count cap r) + 1 < cap)); [|lia].
    rewrite Z.mod_small in Hn by lia. lia.
  - assert (Z.of_nat (count cap r) + 1 < cap) as Hroom.
    { destruct (decide (Z.of_nat (count cap r) + 1 = cap)) as [X|]; [|lia].
      rewrite X, Z.mod_same in Hn by lia. apply Z.mod_divide in Hn as [q Hq]; [|lia].
      destruct E. symmetry. apply (Z.mod_unique_pos _ cap q); lia. }
    replace (Z.of_nat (count cap r) =? cap - 1) with false by lia.
    set (r' := {| entries := _ |}).
    assert (count cap r' = (count cap r + 1)%nat) as Hc'.
    { unfold count at 1. cbn. rewrite Zminus_mod_idemp_l, Hn, Z.mod_small by lia. lia. }
    split; [split; cbn; [apply Z.mod_pos_bound; lia | done]|].
    unfold pending. rewrite Hc', seq_app, map_app. cbn [seq map Nat.add]. f_equal.
    + apply map_ext_in. intros j [_ Hj]%in_seq. cbn [entries read_idx r'].
      rewrite aget_aset_ne; [done|]. intros X.
      assert ((write_idx r - read_idx r) mod cap = Z.of_nat j) as Y; [|lia].
      rewrite X, Zminus_mod_idemp_l. replace (read_idx r + Z.of_nat j - read_idx r) with (Z.of_nat j) by lia.
      apply Z.mod_small. lia.
    + cbn [entries read_idx r']. f_equal.
      replace ((read_idx r + Z.of_nat (count cap r)) mod cap) with (write_idx r); [apply aget_aset_eq|].
      rewrite Hcnt, Z.add_mod_idemp_r by lia.
      replace (read_idx r + (write_idx r - read_idx r)) with (write_idx r) by lia.
      by rewrite Z.mod_small.
Qed.

(** * Numbers *)

Lemma dec_loop_digits cursor : forall value buffer,
  0 < value -> dec_loop cursor value buffer =
    map digit_char (rev (digits_le cursor 10 value)) ++ buffer.
Proof.
  induction cursor as [|cursor IH]; intros value buffer Hv; cbn [dec_loop digits_le]; [done|].
  replace (value =? 0) with false by lia. cbn [rev]. rewrite map_app, <- app_assoc. cbn [map app].
  destruct (value `div` 10 =? 0) eqn:E; bool_to_prop.
  - rewrite E. destruct cursor; cbn [dec_loop]; done.
  - rewrite IH; [done|]. pose proof (Z.div_pos value 10). lia.
Qed.

(** The twenty characters of the buffer are enough for every 64-bit number. *)
Lemma dec_text_decimal value : 0 <= value < 2 ^ 64 -> dec_text value = decimal value.
Proof.
  intros Hv. unfold dec_text, decimal. case_bool; [by subst|].
  rewrite dec_loop_digits, app_nil_r by lia. f_equal. symmetry. apply numeral_fuel; lia.
Qed.

(** The [n] hexadecimal digits that the loop takes, the most significant first. *)
Definition nibbles (n : nat) (value : Z) : list Z :=
  map (fun i => Z.land (Z.shiftr value ((Z.of_nat n - 1 - Z.of_nat i) * 4)) 0xf) (seq 0 n).

Lemma nibbles_snoc n value :
  nibbles (S n) value = nibbles n (Z.shiftr value 4) ++ [Z.land value 0xf].
Proof.
  unfold nibbles. rewrite seq_S, map_app. cbn [map]. f_equal.
  - apply map_ext_in. intros i [_ Hi]%in_seq. rewrite Z.shiftr_shiftr by lia. do 2 f_equal. lia.
  - f_equal. replace ((Z.of_nat (S n) - 1 - Z.of_nat (0 + n)) * 4) with 0 by lia. done.
Qed.

Lemma land_nibble x : Z.land x 0xf = x mod 16.
Proof. apply (Z.land_ones x 4). lia. Qed.

Lemma nibbles_value n : forall value,
  0 <= value < 16 ^ Z.of_nat n -> value_from 16 0 (nibbles n value) = value.
Proof.
  induction n as [|n IH]; intros value Hv; [cbn in *; lia|].
  rewrite nibbles_snoc, value_from_app. rewrite Z.shiftr_div_pow2 by lia. change (2 ^ 4) with 16.
  rewrite Nat2Z.inj_succ, Z.pow_succ_r in Hv by lia.
  rewrite IH by (split; [apply Z.div_pos; lia | apply Z.div_lt_upper_bound; lia]).
  cbn [value_from foldl]. rewrite land_nibble. pose proof (Z.div_mod value 16). lia.
Qed.

Lemma nibbles_range n value : Forall (fun d => 0 <= d < 16) (nibbles n value).
Proof.
  apply Forall_map, Forall_forall. intros i _. cbn. rewrite land_nibble. apply Z.mod_pos_bound. lia.
Qed.

Definition hex_char (d : Z) : ascii := default NUL (hex_digits !! Z.to_nat d).

Lemma hex_text_nibbles value : hex_text value = txt "0x" ++ map hex_char (nibbles 16 value).
Proof. reflexivity. Qed.

(** Numbers are printed without loss: the decimal text of a 64-bit number is its
    numeral without leading zeros, and the hexadecimal text has the sixteen
    digits of its value. *)
Theorem log_numbers value :
  0 <= value < 2 ^ 64 ->
  dec_text value = decimal value /\
  exists ds, hex_text value = txt "0x" ++ map hex_char ds /\ length ds = 16%nat /\
             Forall (fun d => 0 <= d < 16) ds /\ value_from 16 0 ds = value.
Proof.
  intros Hv. split; [by apply dec_text_decimal|]. exists (nibbles 16 value).
  split; [apply hex_text_nibbles|]. split; [done|].
  split; [apply nibbles_range | by apply nibbles_value].
Qed.

Lemma log_numbers_witness :
  dec_text 18446744073709551615 = decimal 18446744073709551615 /\
  exists ds, hex_text 18446744073709551615 = txt "0x" ++ map hex_char ds /\ length ds = 16%nat /\
             Forall (fun d => 0 <= d < 16) ds /\ value_from 16 0 ds = 18446744073709551615.
Proof. apply log_numbers. lia. Defined.

(** * Lines *)

Definition newline : ascii := chr 10.

(** The line of an entry. *)
Definition line_text (e : LogEntry) : list ascii :=
  txt "[" ++ level_name (level e) ++ txt "][" ++ default (txt "kernel") (category e) ++ txt "] " ++
  match payload e with
  | Message m => default (txt "(null)") m
  | Value l v => default (txt "value") l ++ txt " = 0x" ++ map hex_char (nibbles 16 v)
                 ++ txt " (" ++ decimal v ++ txt ")"
  | TextValue l v => default (txt "value") l ++ txt " = " ++ default (txt "(null)") v
  end ++ [newline].

(** What a sink receives, and whether the serial port is locked around it. *)
Definition serial_text (l : list Sink) : list ascii :=
  flat_map (fun k => match k with Serial t => t | _ => [] end) l.
Definition framebuffer_text (l : list Sink) : list ascii :=
  flat_map (fun k => match k with Framebuffer t _ => t | _ => [] end) l.

Lemma entry_texts_line e :
  match payload e with Value _ v => 0 <= v < 2 ^ 64 | _ => True end ->
  concat (entry_texts e) = line_text e.
Proof.
  intros Hv. unfold entry_texts, line_text.
  destruct (payload e) as [m|l v|l v]; cbn [app concat];
    rewrite ?app_nil_r, ?hex_text_nibbles, ?dec_text_decimal by done;
    try generalize (decimal v) (map hex_char (nibbles 16 v)); intros;
    rewrite <- ?app_assoc; reflexivity.
Qed.

Lemma serial_writes fb color l :
  serial_text (flat_map (fun t => [Serial t] ++ (if fb : bool then [Framebuffer t color] else [])) l)
  = concat l.
Proof. unfold serial_text. induction l as [|t l IH]; [done|]. destruct fb; cbn in *; by rewrite IH. Qed.

Lemma framebuffer_writes (fb : bool) color l :
  framebuffer_text
    (flat_map (fun t => [Serial t] ++ (if fb then [Framebuffer t color] else [])) l)
  = if fb then concat l else [].
Proof.
  unfold framebuffer_text. induction l as [|t l IH]; [by destruct fb|].
  destruct fb; cbn in *; by rewrite IH.
Qed.

Lemma sink_text_app l l' :
  serial_text (l ++ l') = serial_text l ++ serial_text l' /\
  framebuffer_text (l ++ l') = framebuffer_text l ++ framebuffer_text l'.
Proof. split; apply flat_map_app. Qed.

(** An entry is one line: the serial port receives it under its lock, and the
    framebuffer receives the same line exactly for levels from Info on. *)
Theorem format_entry_line e :
  match payload e with Value _ v => 0 <= v < 2 ^ 64 | _ => True end ->
  (exists body, format_entry e = [SerialLock] ++ body ++ [SerialUnlock]) /\
  serial_text (format_entry e) = line_text e /\
  framebuffer_text (format_entry e) =
    if level_value Info <=? level_value (level e) then line_text e else [].
Proof.
  intros Hv. unfold format_entry.
  replace (level_value Trace <=? level_value (level e)) with true by (by destruct (level e)).
  cbn [negb andb]. rewrite <- (entry_texts_line e Hv).
  split; [by eexists|].
  rewrite !(proj1 (sink_text_app _ _)), !(proj2 (sink_text_app _ _)), serial_writes,
    framebuffer_writes. cbn [serial_text framebuffer_text flat_map app].
  rewrite !app_nil_r. done.
Qed.

(** * The log *)

Notation boot_cap := CONFIG_LOG_BOOT_ENTRIES.
Notation ring_cap := CONFIG_LOG_RING_ENTRIES.

Lemma boot_cap_range : 1 < boot_cap < 2 ^ 32.
Proof. unfold CONFIG_LOG_BOOT_ENTRIES. lia. Qed.
Lemma ring_cap_range : 1 < ring_cap < 2 ^ 32.
Proof. unfold CONFIG_LOG_RING_ENTRIES. lia. Qed.

Record log_ok (s : log) : Prop := {
  ok_boot : ring_ok boot_cap (boot_buffer s);
  ok_cpu : forall cpu, ring_ok ring_cap (aget (per_cpu_buffers s) cpu);
}.

Definition boot_pending (s : log) : list LogEntry := pending boot_cap (boot_buffer s).
Definition cpu_pending (s : log) (cpu : Z) : list LogEntry :=
  pending ring_cap (aget (per_cpu_buffers s) cpu).

(** What a CPU has to print, oldest first. *)
Definition backlog (cpu : Z) (s : log) : list LogEntry := boot_pending s ++ cpu_pending s cpu.

Lemma log_ok_initial : log_ok initial.
Proof. split; [by split | intros cpu; by split]. Qed.

Lemma log_ok_set_cpu cpu r s : log_ok s -> ring_ok ring_cap r -> log_ok (set_cpu cpu r s).
Proof.
  intros [Hb Hc] Hr. split; [done|]. intros c. cbn. destruct (decide (c = cpu)) as [-> | ].
  - by rewrite aget_aset_eq.
  - by rewrite aget_aset_ne.
Qed.

Lemma drain_boot_spec s :
  log_ok s ->
  let s' := drain_boot s in
  log_ok s' /\ sinks s' = sinks s ++ formatted (boot_pending s) /\ boot_pending s' = [] /\
  per_cpu_buffers s' = per_cpu_buffers s /\ cpu_initialized s' = cpu_initialized s /\
  any_cpu_initialized s' = any_cpu_initialized s /\ log_lock s' = log_lock s /\
  irq_enabled s' = irq_enabled s.
Proof.
  intros [Hb Hc]. unfold drain_boot. pose proof (drain_all_spec boot_cap (boot_buffer s)) as D.
  destruct (drain_all _ _) as [out r]. pose proof boot_cap_range.
  destruct D as (-> & Hr & Hp); [lia | done |].
  split; [by split|]. done.
Qed.

Lemma drain_cpu_spec n cpu s :
  log_ok s ->
  let s' := drain_cpu n cpu s in
  log_ok s' /\ sinks s' = sinks s ++ formatted (take n (cpu_pending s cpu)) /\
  cpu_pending s' cpu = drop n (cpu_pending s cpu) /\
  (forall c, c <> cpu -> aget (per_cpu_buffers s') c = aget (per_cpu_buffers s) c) /\
  boot_buffer s' = boot_buffer s /\ cpu_initialized s' = cpu_initialized s /\
  any_cpu_initialized s' = any_cpu_initialized s /\ log_lock s' = log_lock s /\
  irq_enabled s' = irq_enabled s.
Proof.
  intros Hok. unfold drain_cpu. pose proof ring_cap_range.
  pose proof (drain_spec ring_cap n (aget (per_cpu_buffers s) cpu) ltac:(lia) (ok_cpu s Hok cpu)) as D.
  destruct (drain _ _ _) as [out r]. destruct D as (-> & Hr & Hp).
  pose proof (log_ok_set_cpu cpu r s Hok Hr) as [Hb' Hc'].
  split; [by split|]. unfold cpu_pending; cbn. rewrite aget_aset_eq.
  do 2 (split; [done|]). split; [intros c Hne; by rewrite aget_aset_ne | done].
Qed.

#[local] Opaque drain drain_all drain_boot drain_cpu.

Lemma formatted_app l l' : formatted (l ++ l') = formatted l ++ formatted l'.
Proof. apply flat_map_app. Qed.

Lemma log_ok_lock b s : log_ok s -> log_ok (set_lock b s).
Proof. intros [Hb Hc]. split; [exact Hb | exact Hc]. Qed.

Lemma log_ok_irq b s : log_ok s -> log_ok (set_irq b s).
Proof. intros [Hb Hc]. split; [exact Hb | exact Hc]. Qed.

Lemma boot_pending_lock b s : boot_pending (set_lock b s) = boot_pending s.
Proof. reflexivity. Qed.
Lemma cpu_pending_lock b s cpu : cpu_pending (set_lock b s) cpu = cpu_pending s cpu.
Proof. reflexivity. Qed.

Lemma has_ring_eq cpu s s' :
  cpu_initialized s' = cpu_initialized s -> any_cpu_initialized s' = any_cpu_initialized s ->
  has_ring cpu s' = has_ring cpu s.
Proof. intros E1 E2. unfold has_ring. by rewrite E1, E2. Qed.

(** A flush by a CPU with a ring prints the boot buffer and the oldest entries of
    the ring. *)
Lemma flush_spec cpu s s' :
  log_ok s -> log_lock s = false -> has_ring cpu s = true -> s' = flush cpu s ->
  log_ok s' /\ log_lock s' = false /\ has_ring cpu s' = true /\ irq_enabled s' = irq_enabled s /\
  sinks s' = sinks s ++ formatted (boot_pending s ++ take CONFIG_LOG_FLUSH_BATCH (cpu_pending s cpu)) /\
  boot_pending s' = [] /\ cpu_pending s' cpu = drop CONFIG_LOG_FLUSH_BATCH (cpu_pending s cpu).
Proof.
  intros Hok Hl Hr. unfold flush. rewrite Hl. cbv zeta.
  pose proof (drain_boot_spec (set_lock true s) (log_ok_lock true s Hok)) as D. cbv zeta in D.
  rewrite boot_pending_lock in D. generalize dependent (drain_boot (set_lock true s)).
  intros s1 (O1 & S1 & B1 & C1 & I1 & A1 & _ & Q1).
  rewrite (has_ring_eq cpu (set_lock true s) s1 I1 A1).
  change (has_ring cpu (set_lock true s)) with (has_ring cpu s). rewrite Hr.
  pose proof (drain_cpu_spec CONFIG_LOG_FLUSH_BATCH cpu s1 O1) as D. cbv zeta in D.
  generalize dependent (drain_cpu CONFIG_LOG_FLUSH_BATCH cpu s1).
  intros s2 (O2 & S2 & P2 & _ & B2 & I2 & A2 & _ & Q2) ->.
  assert (cpu_pending s1 cpu = cpu_pending s cpu) as C
    by (unfold cpu_pending; rewrite C1; reflexivity).
  split; [by apply log_ok_lock|]. split; [reflexivity|].
  split; [by rewrite (has_ring_eq cpu s1 (set_lock false s2) I2 A2), (has_ring_eq cpu s s1 I1 A1)|].
  split; [cbn [irq_enabled set_lock] in *; congruence|].
  rewrite boot_pending_lock, cpu_pending_lock. cbn [sinks set_lock] in *.
  rewrite S2, S1, P2, C, formatted_app, app_assoc. split; [reflexivity|]. split; [|reflexivity].
  unfold boot_pending in *. by rewrite B2.
Qed.

(** A full flush prints the whole backlog. *)
Lemma flush_all_spec cpu s s' :
  log_ok s -> log_lock s = false -> has_ring cpu s = true -> s' = flush_all cpu s ->
  sinks s' = sinks s ++ formatted (backlog cpu s) /\ backlog cpu s' = [].
Proof.
  intros Hok Hl Hr. unfold flush_all. rewrite Hl. cbv zeta.
  pose proof (drain_boot_spec (set_lock true s) (log_ok_lock true s Hok)) as D. cbv zeta in D.
  rewrite boot_pending_lock in D. generalize dependent (drain_boot (set_lock true s)).
  intros s1 (O1 & S1 & B1 & C1 & I1 & A1 & _ & Q1).
  change (has_ring cpu (set_lock false s1)) with (has_ring cpu s1).
  rewrite (has_ring_eq cpu (set_lock true s) s1 I1 A1).
  change (has_ring cpu (set_lock true s)) with (has_ring cpu s). rewrite Hr.
  pose proof (drain_cpu_spec (Z.to_nat ring_cap) cpu (set_lock false s1) (log_ok_lock false s1 O1)) as D.
  cbv zeta in D. rewrite cpu_pending_lock in D.
  generalize dependent (drain_cpu (Z.to_nat ring_cap) cpu (set_lock false s1)).
  intros s2 (O2 & S2 & P2 & _ & B2 & _) ->.
  assert (cpu_pending s1 cpu = cpu_pending s cpu) as C
    by (unfold cpu_pending; rewrite C1; reflexivity).
  assert (length (cpu_pending s cpu) <= Z.to_nat ring_cap)%nat as Hlen.
  { unfold cpu_pending. rewrite length_pending.
    pose proof (count_lt ring_cap (aget (per_cpu_buffers s) cpu)). pose proof ring_cap_range. lia. }
  rewrite C in *. rewrite take_ge in S2 by done. rewrite drop_ge in P2 by done.
  cbn [sinks set_lock boot_buffer] in *. unfold backlog.
  rewrite S2, S1, P2, formatted_app, app_assoc. split; [reflexivity|].
  unfold boot_pending in *. by rewrite B2, B1.
Qed.

Lemma used_count r : ring_ok ring_cap r -> used r = Z.of_nat (count ring_cap r).
Proof.
  intros [Hw Hr]. pose proof ring_cap_range. unfold used, count.
  rewrite Z2Nat.id by (apply Z.mod_pos_bound; lia).
  case_bool.
  - by rewrite Z.mod_small by lia.
  - apply (Z.mod_unique_pos _ _ (-1)); lia.
Qed.

(** One entry: nothing is lost. *)
Lemma push_entry_cases cpu e s :
  log_ok s -> log_lock s = false -> has_ring cpu s = true ->
  exists n s',
    push_entry cpu e s = Some s' /\ log_ok s' /\ log_lock s' = false /\
    has_ring cpu s' = true /\ irq_enabled s' = irq_enabled s /\
    sinks s' = sinks s ++ formatted (take n (backlog cpu s)) /\
    backlog cpu s' = drop n (backlog cpu s) ++ [e].
Proof.
  intros Hok Hl Hr. unfold push_entry. pose proof ring_cap_range.
  set (s0 := set_irq false s).
  assert (has_ring cpu s0 = true) as Hr0 by done. rewrite Hr0.
  assert (log_ok s0) as Hok0 by (destruct Hok; by split).
  change (aget (per_cpu_buffers s0) cpu) with (aget (per_cpu_buffers s) cpu).
  rewrite used_count by apply Hok. rewrite <- length_pending. fold (cpu_pending s cpu).
  change ((ring_cap * 3) `div` 4) with 192.
  (* the state after the optional flush *)
  assert (exists n s1, s1 = (if 192 <? Z.of_nat (length (cpu_pending s cpu)) then flush cpu s0 else s0) /\
    log_ok s1 /\ log_lock s1 = false /\ has_ring cpu s1 = true /\ irq_enabled s1 = false /\
    sinks s1 = sinks s ++ formatted (take n (backlog cpu s)) /\
    backlog cpu s1 = drop n (backlog cpu s) /\
    Z.of_nat (length (cpu_pending s1 cpu)) < 255) as (n & s1 & <- & O1 & L1 & R1 & Q1 & S1 & B1 & N1).
  { pose proof (count_lt ring_cap (aget (per_cpu_buffers s) cpu) ltac:(lia)) as Hcnt.
    rewrite <- length_pending in Hcnt. fold (cpu_pending s cpu) in Hcnt.
    case_bool.
    - destruct (flush_spec cpu s0 (flush cpu s0)) as (O1 & L1 & R1 & Q1 & S1 & B1 & C1); [done..|].
      exists (length (boot_pending s) + CONFIG_LOG_FLUSH_BATCH)%nat, (flush cpu s0).
      do 5 (split; [done|]).
      unfold backlog. rewrite take_app_add, drop_app_add, B1. split; [done|]. split; [done|].
      rewrite C1, length_drop.
      change (length (cpu_pending s0 cpu)) with (length (cpu_pending s cpu)).
      unfold CONFIG_LOG_FLUSH_BATCH, CONFIG_LOG_RING_ENTRIES in *. lia.
    - exists 0%nat, s0. do 5 (split; [done|]).
      rewrite take_0, drop_0, app_nil_r. split; [done|]. split; [done|].
      change (length (cpu_pending s0 cpu)) with (length (cpu_pending s cpu)). lia. }
  destruct (ring_push_spec ring_cap e (aget (per_cpu_buffers s1) cpu)) as [Hro Hp];
    [lia | apply O1 |].
  fold (cpu_pending s1 cpu) in Hp.
  replace (Z.of_nat (length (cpu_pending s1 cpu)) =? ring_cap - 1) with false in Hp
    by (unfold CONFIG_LOG_RING_ENTRIES; lia).
  exists n. eexists. split; [reflexivity|].
  assert (log_ok (set_cpu cpu (ring_push ring_cap e (aget (per_cpu_buffers s1) cpu)) s1)) as O2
    by (by apply log_ok_set_cpu).
  assert (backlog cpu (set_cpu cpu (ring_push ring_cap e (aget (per_cpu_buffers s1) cpu)) s1)
          = drop n (backlog cpu s) ++ [e]) as B2.
  { rewrite <- B1. unfold backlog, cpu_pending, boot_pending in *. cbn [per_cpu_buffers boot_buffer set_cpu].
    rewrite aget_aset_eq, Hp. by rewrite app_assoc. }
  destruct (irq_enabled s) eqn:Ei.
  - split; [by apply log_ok_irq|]. split; [exact L1|]. split; [exact R1|]. split; [reflexivity|].
    split; [exact S1 | exact B2].
  - split; [exact O2|]. split; [exact L1|]. split; [exact R1|]. split; [exact Q1|].
    split; [exact S1 | exact B2].
Qed.

(** Entries pushed one after the other by a CPU. *)
Fixpoint push_all (cpu : Z) (es : list LogEntry) (s : log) : option log :=
  match es with
  | [] => Some s
  | e :: es => s ← push_entry cpu e s; push_all cpu es s
  end.

Lemma push_all_cases cpu es : forall s,
  log_ok s -> log_lock s = false -> has_ring cpu s = true ->
  exists n s',
    push_all cpu es s = Some s' /\ log_ok s' /\ log_lock s' = false /\ has_ring cpu s' = true /\
    sinks s' = sinks s ++ formatted (take n (backlog cpu s ++ es)) /\
    backlog cpu s' = drop n (backlog cpu s ++ es).
Proof.
  induction es as [|e es IH]; intros s Hok Hl Hr.
  - exists 0%nat, s. rewrite take_0, drop_0, !app_nil_r. done.
  - destruct (push_entry_cases cpu e s Hok Hl Hr)
      as (n1 & s1 & E1 & O1 & L1 & R1 & _ & S1 & B1).
    destruct (IH s1 O1 L1 R1) as (n2 & s2 & E2 & O2 & L2 & R2 & S2 & B2).
    set (k := Nat.min n1 (length (backlog cpu s))).
    assert (take n1 (backlog cpu s) = take k (backlog cpu s)) as T1.
    { subst k. destruct (Nat.le_ge_cases n1 (length (backlog cpu s))).
      - by rewrite Nat.min_l by done.
      - by rewrite Nat.min_r, !take_ge by done. }
    assert (drop n1 (backlog cpu s) = drop k (backlog cpu s)) as D1.
    { subst k. destruct (Nat.le_ge_cases n1 (length (backlog cpu s))).
      - by rewrite Nat.min_l by done.
      - by rewrite Nat.min_r, !drop_ge by done. }
    assert (k <= length (backlog cpu s))%nat as Hk by (subst k; lia).
    exists (k + n2)%nat, s2. cbn [push_all]. rewrite E1. cbn [mbind option_bind].
    do 4 (split; [done|]).
    rewrite B1, D1, <- app_assoc in S2, B2. cbn [app] in S2, B2.
    rewrite <- (drop_app_le (backlog cpu s) (e :: es) k) in S2, B2 by done.
    split.
    + rewrite S2, S1, T1, <- app_assoc, <- formatted_app. do 2 f_equal.
      rewrite <- (take_take_drop (backlog cpu s ++ e :: es) k n2). f_equal.
      by rewrite take_app_le.
    + by rewrite B2, drop_drop.
Qed.

(** C6. No entry of a CPU is lost, repeated or reordered: whatever a CPU with a
    ring logs, while no other holds the lock, the sinks have received a prefix of
    its backlog followed by the new entries, the rest is pending, and a final
    [flush_all] prints all of it, in order. *)
Theorem log_fifo cpu es s :
  log_ok s -> log_lock s = false -> has_ring cpu s = true ->
  exists n s',
    push_all cpu es s = Some s' /\
    sinks s' = sinks s ++ formatted (take n (backlog cpu s ++ es)) /\
    backlog cpu s' = drop n (backlog cpu s ++ es) /\
    sinks (flush_all cpu s') = sinks s ++ formatted (backlog cpu s ++ es) /\
    backlog cpu (flush_all cpu s') = [].
Proof.
  intros Hok Hl Hr. destruct (push_all_cases cpu es s Hok Hl Hr)
    as (n & s' & E & O & L & R & S & B).
  exists n, s'. split; [done|]. split; [done|]. split; [done|].
  destruct (flush_all_spec cpu s' (flush_all cpu s')) as (S' & B'); [done..|].
  rewrite S', S, B, <- app_assoc, <- formatted_app, take_drop. done.
Qed.

(** * The boot buffer *)

(** Before a CPU has a ring its entries go to the boot buffer, which keeps the
    first 63 and silently drops the rest. *)
Theorem boot_buffer_drops cpu es s :
  log_ok s -> log_lock s = false -> has_ring cpu s = false ->
  exists s', push_all cpu es s = Some s' /\
    boot_pending s' = boot_pending s ++ take (63 - length (boot_pending s)) es /\
    sinks s' = sinks s.
Proof.
  revert s. induction es as [|e es IH]; intros s Hok Hl Hr.
  { exists s. rewrite take_nil, app_nil_r. done. }
  destruct (ring_push_spec boot_cap e (boot_buffer s) boot_cap_range (ok_boot s Hok)) as [Hro Hp].
  fold (boot_pending s) in Hp. change (boot_cap - 1) with 63 in Hp.
  set (s1 := set_boot (ring_push boot_cap e (boot_buffer s)) s).
  assert (push_entry cpu e s = Some (if irq_enabled s then set_irq true (set_irq false s1)
                                     else set_irq false s1)) as E.
  { unfold push_entry. change (has_ring cpu (set_irq false s)) with (has_ring cpu s). rewrite Hr.
    change (log_lock (set_irq false s)) with (log_lock s). rewrite Hl. reflexivity. }
  set (s2 := if irq_enabled s then _ else _) in E.
  assert (log_ok s2 /\ log_lock s2 = false /\ has_ring cpu s2 = false /\ sinks s2 = sinks s /\
          boot_pending s2 = boot_pending s1) as (O2 & L2 & R2 & S2 & B2).
  { assert (log_ok s1) as O1 by (split; [exact Hro | apply Hok]).
    subst s2. destruct (irq_enabled s); (split; [repeat apply log_ok_irq; exact O1 | done]). }
  clearbody s2. destruct (IH s2 O2 L2 R2) as (s' & E' & B' & S').
  exists s'. cbn [push_all]. rewrite E. cbn [mbind option_bind]. split; [done|].
  split; [|congruence]. rewrite B', B2. unfold boot_pending at 1 2, s1. cbn [boot_buffer set_boot].
  rewrite Hp. pose proof (count_lt boot_cap (boot_buffer s) ltac:(done)) as Hc.
  rewrite <- length_pending in Hc. fold (boot_pending s) in Hc.
  change boot_cap with 64 in Hc. case_bool.
  - by replace (63 - length (boot_pending s))%nat with 0%nat by lia.
  - rewrite length_app. cbn [length].
    replace (63 - length (boot_pending s))%nat
      with (S (63 - (length (boot_pending s) + 1)))%nat by lia.
    cbn [take]. by rewrite <- app_assoc.
Qed.

(** While another CPU holds the lock a full ring is not flushed and the entry is
    dropped. *)
Lemma push_drops_when_locked cpu e s :
  log_ok s -> log_lock s = true -> has_ring cpu s = true -> length (cpu_pending s cpu) = 255%nat ->
  exists s', push_entry cpu e s = Some s' /\ cpu_pending s' cpu = cpu_pending s cpu /\
             sinks s' = sinks s.
Proof.
  intros Hok Hl Hr Hn. unfold push_entry.
  change (has_ring cpu (set_irq false s)) with (has_ring cpu s). rewrite Hr.
  assert (flush cpu (set_irq false s) = set_irq false s) as ->.
  { unfold flush. change (log_lock (set_irq false s)) with (log_lock s). by rewrite Hl. }
  rewrite (match _ <? _ as b return (if b then set_irq false s else set_irq false s) = set_irq false s
           with true => eq_refl | false => eq_refl end).
  change (aget (per_cpu_buffers (set_irq false s)) cpu) with (aget (per_cpu_buffers s) cpu).
  destruct (ring_push_spec ring_cap e _ ring_cap_range (ok_cpu s Hok cpu)) as [_ Hp].
  fold (cpu_pending s cpu) in Hp. rewrite Hn in Hp. cbn match in Hp.
  cbn [mbind option_bind]. eexists. split; [reflexivity|].
  destruct (irq_enabled s); (split; [|reflexivity]); unfold cpu_pending at 1;
    cbn [per_cpu_buffers set_cpu set_irq]; rewrite aget_aset_eq; exact Hp.
Qed.

(** * Panic *)

(** The pending entries of all CPUs, in the order of their numbers. *)
Definition all_pending (s : log) (cpus : list Z) : list LogEntry :=
  flat_map (fun c => if aget (cpu_initialized s) c then cpu_pending s c else []) cpus.

(** The state of the loop over the CPUs before number [k]. *)
Record drained (s : log) (k : Z) (s' : log) : Prop := {
  dr_ok : log_ok s';
  dr_sinks : sinks s' = sinks s ++ formatted (all_pending s (seqZ 0 k));
  dr_boot : boot_buffer s' = boot_buffer s;
  dr_init : cpu_initialized s' = cpu_initialized s;
  dr_lock : log_lock s' = log_lock s;
  dr_done : forall c, 0 <= c < k -> aget (cpu_initialized s) c = true -> cpu_pending s' c = [];
  dr_rest : forall c, k <= c -> cpu_pending s' c = cpu_pending s c;
}.

Lemma all_pending_snoc s k :
  0 <= k -> all_pending s (seqZ 0 (k + 1)) =
    all_pending s (seqZ 0 k) ++ (if aget (cpu_initialized s) k then cpu_pending s k else []).
Proof.
  intros Hk. rewrite seqZ_app by lia. unfold all_pending. rewrite flat_map_app. f_equal.
  change (seqZ (0 + k) 1) with [k]. cbn [flat_map]. by rewrite app_nil_r.
Qed.

Lemma drained_step s k s1 :
  0 <= k -> drained s k s1 ->
  drained s (k + 1) (if aget (cpu_initialized s1) k
                     then drain_cpu (Z.to_nat ring_cap) k s1 else s1).
Proof.
  intros Hk [O S B I L D R]. rewrite I.
  destruct (aget (cpu_initialized s) k) eqn:Ek.
  - pose proof (drain_cpu_spec (Z.to_nat ring_cap) k s1 O) as Q. cbv zeta in Q.
    generalize dependent (drain_cpu (Z.to_nat ring_cap) k s1).
    intros s2 (O2 & S2 & P2 & C2 & B2 & I2 & _ & L2 & _).
    assert (length (cpu_pending s1 k) <= Z.to_nat ring_cap)%nat as Hlen.
    { unfold cpu_pending. rewrite length_pending.
      pose proof (count_lt ring_cap (aget (per_cpu_buffers s1) k)). pose proof ring_cap_range. lia. }
    rewrite take_ge in S2 by done. rewrite drop_ge in P2 by done.
    split; [done | | congruence | congruence | congruence | |].
    + rewrite S2, S, all_pending_snoc, Ek, R, formatted_app, app_assoc by lia. done.
    + intros c Hc Hi. destruct (decide (c = k)) as [-> | Hne]; [done|].
      unfold cpu_pending. rewrite C2 by done. apply D; [lia | done].
    + intros c Hc. unfold cpu_pending at 1. rewrite C2 by lia. apply R. lia.
  - split; [done | | done | done | done | |].
    + rewrite all_pending_snoc, Ek, app_nil_r by done. exact S.
    + intros c Hc Hi. destruct (decide (c = k)) as [-> | Hne]; [congruence|]. apply D; [lia | done].
    + intros c Hc. apply R. lia.
Qed.

Lemma drain_cpus_spec s : log_ok s -> drained s CONFIG_MAX_CPUS (drain_cpus s).
Proof.
  intros Hok. unfold drain_cpus.
  apply (for_z_inv (fun k s' => drained s k s')); [unfold CONFIG_MAX_CPUS; lia | |].
  - split; try done; [cbn; by rewrite app_nil_r | lia].
  - intros k s1 Hk Hd. apply drained_step; [lia | exact Hd].
Qed.

(** Printing only appends to the sinks. *)
Definition appends (s s' : log) : Prop :=
  (exists out, sinks s' = sinks s ++ out) /\
  boot_buffer s' = boot_buffer s /\ per_cpu_buffers s' = per_cpu_buffers s /\
  log_lock s' = log_lock s /\ cpu_initialized s' = cpu_initialized s /\
  any_cpu_initialized s' = any_cpu_initialized s.

Lemma appends_refl s : appends s s.
Proof. split; [exists []; by rewrite app_nil_r | done]. Qed.

Lemma appends_trans s1 s2 s3 : appends s1 s2 -> appends s2 s3 -> appends s1 s3.
Proof.
  intros ([o1 E1] & B1 & C1 & L1 & I1 & A1) ([o2 E2] & B2 & C2 & L2 & I2 & A2).
  split; [exists (o1 ++ o2); by rewrite E2, E1, app_assoc | split_and!; congruence].
Qed.

Lemma appends_emit out s : appends s (emit out s).
Proof. split; [by exists out | done]. Qed.

Lemma print_frame_appends img below i f s : appends s (print_frame img below i f s).
Proof.
  unfold print_frame. eapply appends_trans; [apply appends_emit|].
  eapply appends_trans; [|apply appends_emit].
  destruct (resolve _ _ _ _) as [[[name buf] offset]|]; [|apply appends_emit].
  eapply appends_trans; [|apply appends_emit]. split; [exists []; by rewrite app_nil_r | done].
Qed.

Lemma print_frames_appends img below frames : forall i s,
  appends s (print_frames img below i frames s).
Proof.
  induction frames as [|f frames IH]; intros i s; cbn [print_frames]; [apply appends_refl|].
  eapply appends_trans; [apply print_frame_appends | apply IH].
Qed.

Lemma print_stack_trace_appends img below r s s' :
  print_stack_trace_from img below r s = Some s' -> appends s s'.
Proof.
  unfold print_stack_trace_from. destruct (collect img 32 r) as [[|f fs]| |]; [| |done..].
  - intros [= <-]. apply appends_refl.
  - intros E. apply (inj Some) in E as <-.
    eapply appends_trans; [apply appends_emit | apply print_frames_appends].
Qed.

Lemma panic_cases img below cat f ln message caller s s' :
  log_ok s -> log_lock s = false ->
  panic img below cat f ln message caller s = Some s' ->
  (exists trace, sinks s' = sinks s
     ++ formatted (boot_pending s ++ all_pending s (seqZ 0 CONFIG_MAX_CPUS))
     ++ panic_message cat f ln message ++ trace) /\
  boot_pending s' = [] /\
  (forall c, 0 <= c < CONFIG_MAX_CPUS -> aget (cpu_initialized s) c = true -> cpu_pending s' c = []) /\
  log_lock s' = true.
Proof.
  intros Hok Hl. unfold panic. rewrite Hl. cbv zeta.
  pose proof (drain_boot_spec (set_lock true s) (log_ok_lock true s Hok)) as D. cbv zeta in D.
  rewrite boot_pending_lock in D. generalize dependent (drain_boot (set_lock true s)).
  intros s1 (O1 & S1 & B1 & C1 & I1 & _ & L1 & _).
  pose proof (drain_cpus_spec s1 O1) as D. generalize dependent (drain_cpus s1).
  intros s2 [O2 S2 B2 I2 L2 D2 _] Hp.
  apply print_stack_trace_appends in Hp as ([out E] & B3 & C3 & L3 & _).
  assert (all_pending s1 = all_pending s) as A.
  { unfold all_pending, cpu_pending. by rewrite C1, I1. }
  cbn [sinks emit set_lock boot_buffer per_cpu_buffers log_lock cpu_initialized] in *.
  split; [|split; [|split]].
  - exists out. rewrite E, S2, S1, A, formatted_app, <- !app_assoc. done.
  - unfold boot_pending in *. by rewrite B3, B2.
  - intros c Hc Hi. unfold cpu_pending in *. rewrite C3. apply D2; [done | by rewrite I1].
  - by rewrite L3, L2.
Qed.

(** A panic with the lock free prints every pending entry, those of the boot
    buffer first and then those of each CPU in turn, and the message after them;
    nothing stays pending, and the lock is kept. *)
Theorem panic_prints_everything img below cat f ln message caller s s' :
  log_ok s -> log_lock s = false ->
  panic img below cat f ln message caller s = Some s' ->
  (exists trace, sinks s' = sinks s
     ++ formatted (boot_pending s ++ all_pending s (seqZ 0 CONFIG_MAX_CPUS))
     ++ panic_message cat f ln message ++ trace) /\
  boot_pending s' = [] /\
  (forall c, 0 <= c < CONFIG_MAX_CPUS -> aget (cpu_initialized s) c = true -> cpu_pending s' c = []) /\
  log_lock s' = true.
Proof. exact (panic_cases img below cat f ln message caller s s'). Qed.

(** A panic while the lock is held, for instance in the middle of a flush on the
    same CPU, prints nothing. *)
Lemma panic_locked img below cat f ln message caller s :
  log_lock s = true -> panic img below cat f ln message caller s = None.
Proof. intros Hl. unfold panic. by rewrite Hl. Qed.

(** * Examples *)

Definition entry (l : Level) (t : string) : LogEntry :=
  {| timestamp := 0; level := l; category := Some (txt "test"); file := None; line := 1;
     payload := Message (Some (txt t)) |}.

(** The BSP with its ring. *)
Definition started : log := default initial (init_per_cpu 0 initial).

Lemma started_ok : log_ok started.
Proof. split; [by split | intros cpu; by split]. Qed.

Lemma log_fifo_witness :
  exists n s',
    push_all 0 (replicate 300 (entry Info "x")) started = Some s' /\
    sinks s' = sinks started ++ formatted (take n (backlog 0 started ++ replicate 300 (entry Info "x"))) /\
    backlog 0 s' = drop n (backlog 0 started ++ replicate 300 (entry Info "x")) /\
    sinks (flush_all 0 s') =
      sinks started ++ formatted (backlog 0 started ++ replicate 300 (entry Info "x")) /\
    backlog 0 (flush_all 0 s') = [].
Proof. apply log_fifo; [apply started_ok | reflexivity | reflexivity]. Defined.

Lemma boot_buffer_drops_witness :
  exists s', push_all 0 (replicate 70 (entry Info "x")) initial = Some s' /\
    boot_pending s' = boot_pending initial ++
      take (63 - length (boot_pending initial)) (replicate 70 (entry Info "x")) /\
    sinks s' = sinks initial.
Proof. apply boot_buffer_drops; [apply log_ok_initial | reflexivity | reflexivity]. Defined.

Lemma format_entry_line_witness :
  (exists body, format_entry (entry Warn "low memory") = [SerialLock] ++ body ++ [SerialUnlock]) /\
  serial_text (format_entry (entry Warn "low memory")) = line_text (entry Warn "low memory") /\
  framebuffer_text (format_entry (entry Warn "low memory")) =
    if level_value Info <=? level_value (level (entry Warn "low memory"))
    then line_text (entry Warn "low memory") else [].
Proof. apply format_entry_line. exact I. Defined.

Example line_example :
  line_text (entry Warn "low memory") = txt "[WARN][test] low memory" ++ [newline].
Proof. reflexivity. Qed.

(** An image without tables: the trace has one frame. *)
Definition bare_image : Image :=
  {| mem_ := afill 0; eh_frame_start := 0; eh_frame_end := 0; eh_frame_hdr_start := 0;
     eh_frame_hdr_end := 0; symtab := [] |}.

Definition stopped (s : log) : option log :=
  panic bare_image (fun _ => NUL) (Some (txt "mm")) (txt "pmm.cpp") 42 (Some (txt "out of memory"))
    {| rip_ := 0x1000; rsp_ := 0x2000; rbp_ := 0x2000 |} s.

(** One entry of the boot buffer and one of the ring are pending. *)
Definition two_pending : log :=
  default initial (s ← push_entry 1 (entry Info "first") started;
                   push_entry 0 (entry Info "second") s).

Lemma two_pending_ok : log_ok two_pending.
Proof.
  split; [by split|]. intros cpu. change (per_cpu_buffers two_pending)
    with (aset (afill empty_ring) 0 (ring_push ring_cap (entry Info "second") empty_ring)).
  destruct (decide (cpu = 0)) as [-> | ].
  - rewrite aget_aset_eq. by split.
  - rewrite aget_aset_ne by done. by split.
Qed.

Lemma panic_prints_everything_witness :
  exists s', stopped two_pending = Some s' /\
    ((exists trace, sinks s' = sinks two_pending
       ++ formatted (boot_pending two_pending ++ all_pending two_pending (seqZ 0 CONFIG_MAX_CPUS))
       ++ panic_message (Some (txt "mm")) (txt "pmm.cpp") 42 (Some (txt "out of memory")) ++ trace) /\
     boot_pending s' = [] /\
     (forall c, 0 <= c < CONFIG_MAX_CPUS -> aget (cpu_initialized two_pending) c = true ->
        cpu_pending s' c = []) /\
     log_lock s' = true).
Proof.
  destruct (stopped two_pending) as [s'|] eqn:E; [|vm_compute in E; discriminate].
  exists s'. split; [reflexivity|].
  exact (panic_prints_everything bare_image (fun _ => NUL) (Some (txt "mm")) (txt "pmm.cpp") 42
    (Some (txt "out of memory")) {| rip_ := 0x1000; rsp_ := 0x2000; rbp_ := 0x2000 |}
    two_pending s' two_pending_ok eq_refl E).
Defined.

(** What the serial port shows. *)
Example panic_text :
  option_map (fun s => serial_text (sinks s)) (stopped two_pending) =
  Some (concat (map (fun t => txt t ++ [newline])
    ["[INFO][test] first"; "[INFO][test] second"; "[PANIC][mm] out of memory";
     "Location: pmm.cpp:42"; EmptyString; "Stack trace:"; "  #0 [0x0000000000001000]"])).
Proof. vm_compute. reflexivity. Qed.
