(* ===== verification/Console.v ===== *)
(** The framebuffer console (log/framebuffer_console.cpp): glyphs, pixels, the
    cursor and text.

    The frame buffer is an array of 32-bit pixels indexed from [pixels]; the
    console's geometry comes from the boot information. *)
From S2P Require Import Prelude Text.

(** * State *)

Record ConsoleState := {
  pixels : arr Z;
  width : Z;
  height : Z;
  pitch_pixels : Z;
  cursor_x : Z;
  cursor_y : Z;
  available : bool;
}.

Definition glyph_width : Z := 8.
Definition glyph_height : Z := 8.
Definition columns_margin : Z := 1.

Definition set_pixels (f : arr Z -> arr Z) (s : ConsoleState) : ConsoleState :=
  {| pixels := f (pixels s); width := width s; height := height s;
     pitch_pixels := pitch_pixels s; cursor_x := cursor_x s; cursor_y := cursor_y s;
     available := available s |}.

Definition set_cursor (x y : Z) (s : ConsoleState) : ConsoleState :=
  {| pixels := pixels s; width := width s; height := height s;
     pitch_pixels := pitch_pixels s; cursor_x := x; cursor_y := y; available := available s |}.

(** * Glyphs *)

Definition glyphs : list (ascii * list Z) :=
  [("A"%char, [0x0e; 0x11; 0x11; 0x1f; 0x11; 0x11; 0x11]);
   ("B"%char, [0x1e; 0x11; 0x11; 0x1e; 0x11; 0x11; 0x1e]);
   ("C"%char, [0x0e; 0x11; 0x10; 0x10; 0x10; 0x11; 0x0e]);
   ("D"%char, [0x1e; 0x11; 0x11; 0x11; 0x11; 0x11; 0x1e]);
   ("E"%char, [0x1f; 0x10; 0x10; 0x1e; 0x10; 0x10; 0x1f]);
   ("F"%char, [0x1f; 0x10; 0x10; 0x1e; 0x10; 0x10; 0x10]);
   ("G"%char, [0x0e; 0x11; 0x10; 0x17; 0x11; 0x11; 0x0f]);
   ("H"%char, [0x11; 0x11; 0x11; 0x1f; 0x11; 0x11; 0x11]);
   ("I"%char, [0x0e; 0x04; 0x04; 0x04; 0x04; 0x04; 0x0e]);
   ("J"%char, [0x07; 0x02; 0x02; 0x02; 0x12; 0x12; 0x0c]);
   ("K"%char, [0x11; 0x12; 0x14; 0x18; 0x14; 0x12; 0x11]);
   ("L"%char, [0x10; 0x10; 0x10; 0x10; 0x10; 0x10; 0x1f]);
   ("M"%char, [0x11; 0x1b; 0x15; 0x15; 0x11; 0x11; 0x11]);
   ("N"%char, [0x11; 0x19; 0x15; 0x13; 0x11; 0x11; 0x11]);
   ("O"%char, [0x0e; 0x11; 0x11; 0x11; 0x11; 0x11; 0x0e]);
   ("P"%char, [0x1e; 0x11; 0x11; 0x1e; 0x10; 0x10; 0x10]);
   ("Q"%char, [0x0e; 0x11; 0x11; 0x11; 0x15; 0x12; 0x0d]);
   ("R"%char, [0x1e; 0x11; 0x11; 0x1e; 0x14; 0x12; 0x11]);
   ("S"%char, [0x0f; 0x10; 0x10; 0x0e; 0x01; 0x01; 0x1e]);
   ("T"%char, [0x1f; 0x04; 0x04; 0x04; 0x04; 0x04; 0x04]);
   ("U"%char, [0x11; 0x11; 0x11; 0x11; 0x11; 0x11; 0x0e]);
   ("V"%char, [0x11; 0x11; 0x11; 0x11; 0x11; 0x0a; 0x04]);
   ("W"%char, [0x11; 0x11; 0x11; 0x15; 0x15; 0x15; 0x0a]);
   ("X"%char, [0x11; 0x11; 0x0a; 0x04; 0x0a; 0x11; 0x11]);
   ("Y"%char, [0x11; 0x11; 0x0a; 0x04; 0x04; 0x04; 0x04]);
   ("Z"%char, [0x1f; 0x01; 0x02; 0x04; 0x08; 0x10; 0x1f]);
   ("0"%char, [0x0e; 0x11; 0x13; 0x15; 0x19; 0x11; 0x0e]);
   ("1"%char, [0x04; 0x0c; 0x04; 0x04; 0x04; 0x04; 0x0e]);
   ("2"%char, [0x0e; 0x11; 0x01; 0x02; 0x04; 0x08; 0x1f]);
   ("3"%char, [0x1e; 0x01; 0x01; 0x0e; 0x01; 0x01; 0x1e]);
   ("4"%char, [0x02; 0x06; 0x0a; 0x12; 0x1f; 0x02; 0x02]);
   ("5"%char, [0x1f; 0x10; 0x10; 0x1e; 0x01; 0x01; 0x1e]);
   ("6"%char, [0x0e; 0x10; 0x10; 0x1e; 0x11; 0x11; 0x0e]);
   ("7"%char, [0x1f; 0x01; 0x02; 0x04; 0x08; 0x08; 0x08]);
   ("8"%char, [0x0e; 0x11; 0x11; 0x0e; 0x11; 0x11; 0x0e]);
   ("9"%char, [0x0e; 0x11; 0x11; 0x0f; 0x01; 0x01; 0x0e]);
   ("["%char, [0x0e; 0x08; 0x08; 0x08; 0x08; 0x08; 0x0e]);
   ("]"%char, [0x0e; 0x02; 0x02; 0x02; 0x02; 0x02; 0x0e]);
   ("("%char, [0x02; 0x04; 0x08; 0x08; 0x08; 0x04; 0x02]);
   (")"%char, [0x08; 0x04; 0x02; 0x02; 0x02; 0x04; 0x08]);
   (":"%char, [0x00; 0x04; 0x04; 0x00; 0x04; 0x04; 0x00]);
   ("/"%char, [0x01; 0x01; 0x02; 0x04; 0x08; 0x10; 0x10]);
   ("-"%char, [0x00; 0x00; 0x00; 0x1f; 0x00; 0x00; 0x00]);
   ("="%char, [0x00; 0x00; 0x1f; 0x00; 0x1f; 0x00; 0x00]);
   ("."%char, [0x00; 0x00; 0x00; 0x00; 0x00; 0x0c; 0x0c]);
   (","%char, [0x00; 0x00; 0x00; 0x00; 0x0c; 0x04; 0x08]);
   (";"%char, [0x00; 0x04; 0x04; 0x00; 0x04; 0x04; 0x08]);
   ("_"%char, [0x00; 0x00; 0x00; 0x00; 0x00; 0x00; 0x1f])].

Definition unknown_glyph : list Z := [0x1f; 0x11; 0x02; 0x04; 0x04; 0x00; 0x04].

Fixpoint find_glyph (c : ascii) (l : list (ascii * list Z)) : list Z :=
  match l with
  | [] => unknown_glyph
  | (a, p) :: l => if Ascii.eqb c a then p else find_glyph c l
  end.

(** Lower case is drawn as upper case. *)
Definition upcase (c : ascii) : ascii :=
  if (97 <=? code c) && (code c <=? 122) then chr (code c - 97 + 65) else c.

Definition glyph_pattern (c : ascii) (row : Z) : Z :=
  if 7 <=? row then 0
  else
    let c := upcase c in
    if Ascii.eqb c " " then 0 else default 0 (find_glyph c glyphs !! Z.to_nat row).

Definition glyph_row (c : ascii) (row : Z) : Z := wrap 8 (Z.shiftl (glyph_pattern c row) 2).

Definition pack_color (color : Z) : Z := wrap 32 color.

(** * Drawing *)

Definition put_pixel (x y color : Z) (s : ConsoleState) : ConsoleState :=
  if negb (available s) || (width s <=? x) || (height s <=? y) then s
  else set_pixels (fun p => aset p (y *64 pitch_pixels s +64 x) color) s.

Definition newline (s : ConsoleState) : ConsoleState :=
  let y := cursor_y s +64 1 in
  let max_rows := height s / glyph_height in
  set_cursor 0 (if max_rows <=? y then 0 else y) s.

(** The bit of column [x] of a row of a glyph. *)
Definition glyph_bit (c : ascii) (x y : Z) : bool :=
  negb (Z.land (glyph_row c y) (Z.shiftr 0x80 x) =? 0).

Definition draw_char (c : ascii) (fg bg : Z) (s : ConsoleState) : ConsoleState :=
  let x0 := cursor_x s *64 glyph_width in
  let y0 := cursor_y s *64 glyph_height in
  for_z 0 glyph_height (fun y s =>
    for_z 0 glyph_width (fun x s =>
      put_pixel (x0 +64 x) (y0 +64 y) (if glyph_bit c x y then fg else bg) s) s) s.

(** * Text *)

(** The framebuffer of the boot information. *)
Record Framebuffer := {
  fb_address : option (arr Z);
  fb_width : Z;
  fb_height : Z;
  fb_pitch : Z;
  bits_per_pixel : Z;
}.

Definition init (fb : Framebuffer) (s : ConsoleState) : ConsoleState :=
  match fb_address fb with
  | Some p =>
      if bits_per_pixel fb =? 32 then
        {| pixels := p; width := fb_width fb; height := fb_height fb;
           pitch_pixels := fb_pitch fb / 4; cursor_x := 0; cursor_y := 0; available := true |}
      else {| pixels := pixels s; width := width s; height := height s;
              pitch_pixels := pitch_pixels s; cursor_x := cursor_x s; cursor_y := cursor_y s;
              available := false |}
  | None => {| pixels := pixels s; width := width s; height := height s;
               pitch_pixels := pitch_pixels s; cursor_x := cursor_x s; cursor_y := cursor_y s;
               available := false |}
  end.

Definition is_available (s : ConsoleState) : bool := available s.

Definition write_char (c : ascii) (color : Z) (s : ConsoleState) : ConsoleState :=
  if negb (available s) then s
  else if Ascii.eqb c (chr 10) then newline s
  else if Ascii.eqb c (chr 13) then set_cursor 0 (cursor_y s) s
  else
    let s := draw_char c (pack_color color) 0x00000000 s in
    let s := set_cursor (cursor_x s +64 1) (cursor_y s) s in
    let max_columns := width s / glyph_width in
    if max_columns <=? cursor_x s +64 columns_margin then newline s else s.

(** The characters of a C string; [None] is a null pointer. *)
Definition write_string (text : option (list ascii)) (color : Z) (s : ConsoleState) : ConsoleState :=
  match text with
  | None => s
  | Some t => foldl (fun s c => write_char c color s) s t
  end.
