(* ===== verification/ConsoleSpec.v ===== *)
(** Theorems about the framebuffer console: the cursor stays on the screen, only
    pixels of the frame are written, and text appears as its glyphs. *)
From S2P Require Import Prelude Text Console.

(** * Geometry *)

Definition columns (s : ConsoleState) : Z := width s / glyph_width.
Definition rows (s : ConsoleState) : Z := height s / glyph_height.

(** A frame whose rows fit in the pitch and whose pixels can be addressed, and a
    cursor on the screen; the last column is never written. *)
Record console_ok (s : ConsoleState) : Prop := {
  ok_width : 0 <= width s <= pitch_pixels s;
  ok_height : 0 <= height s;
  ok_size : (height s + 8) * (pitch_pixels s + 8) < 2 ^ 60;
  ok_x : cursor_x s = 0 \/ 0 <= cursor_x s /\ cursor_x s + 1 < columns s;
  ok_y : cursor_y s = 0 \/ 0 <= cursor_y s < rows s;
}.

(** The pixel at column [x] of line [y]. *)
Definition pixel (s : ConsoleState) (x y : Z) : Z := aget (pixels s) (y * pitch_pixels s + x).

Definition in_frame (s : ConsoleState) (x y : Z) : Prop := 0 <= x < width s /\ 0 <= y < height s.

(** Two states that differ in their pixels only. *)
Record same_but_pixels (s s' : ConsoleState) : Prop := {
  sp_width : width s' = width s;
  sp_height : height s' = height s;
  sp_pitch : pitch_pixels s' = pitch_pixels s;
  sp_x : cursor_x s' = cursor_x s;
  sp_y : cursor_y s' = cursor_y s;
  sp_available : available s' = available s;
}.

#[export] Instance same_but_pixels_preorder : PreOrder same_but_pixels.
Proof. split; [by intros s | intros ??? [] []; split; congruence]. Qed.

(** Only pixels of the frame differ. *)
Definition only_frame (s s' : ConsoleState) : Prop :=
  forall i, aget (pixels s') i <> aget (pixels s) i ->
    exists x y, in_frame s x y /\ i = y * pitch_pixels s + x.

Lemma size_bounds s x y :
  console_ok s -> 0 <= x < pitch_pixels s + 8 -> 0 <= y < height s + 8 ->
  0 <= y * pitch_pixels s + x < 2 ^ 60 /\ x < 2 ^ 60 /\ y < 2 ^ 60.
Proof. intros [] Hx Hy. nia. Qed.

(** From [s] to [s'] the pixels for which [f] has a colour were painted. *)
Record painted (s : ConsoleState) (f : Z -> Z -> option Z) (s' : ConsoleState) : Prop := {
  pt_same : same_but_pixels s s';
  pt_only : only_frame s s';
  pt_pixel : available s = true -> forall x y, in_frame s x y ->
    pixel s' x y = default (pixel s x y) (f x y);
}.

Lemma only_frame_trans s s1 s2 :
  same_but_pixels s s1 -> only_frame s s1 -> only_frame s1 s2 -> only_frame s s2.
Proof.
  intros [W H P _ _ _] H1 H2 i Hi.
  destruct (decide (aget (pixels s2) i = aget (pixels s1) i)) as [E|E].
  - apply H1. by rewrite <- E.
  - destruct (H2 i E) as (x & y & [Hx Hy] & ->). exists x, y. rewrite W, H in *.
    rewrite P. done.
Qed.

Lemma painted_trans s f s1 g s2 :
  painted s f s1 -> painted s1 g s2 ->
  painted s (fun x y => match g x y with Some c => Some c | None => f x y end) s2.
Proof.
  intros [S1 O1 P1] [S2 O2 P2]. split; [by etrans | by eapply only_frame_trans|].
  intros Ha x y Hf. rewrite P2; [|by rewrite (sp_available _ _ S1)|].
  - rewrite (P1 Ha x y Hf). by destruct (g x y).
  - destruct Hf. split; [by rewrite (sp_width _ _ S1) | by rewrite (sp_height _ _ S1)].
Qed.

Lemma painted_ext s f g s' :
  (forall x y, f x y = g x y) -> painted s f s' -> painted s g s'.
Proof. intros E [S O P]. split; [done | done|]. intros. rewrite <- E. by apply P. Qed.

Lemma painted_none s : painted s (fun _ _ => None) s.
Proof. by split; [|intros i Hi|]. Qed.

Lemma console_ok_same s s' : same_but_pixels s s' -> console_ok s -> console_ok s'.
Proof.
  intros [W H P X Y A] [O1 O2 O3 O4 O5]. unfold columns, rows in *.
  split; unfold columns, rows; rewrite ?W, ?H, ?P, ?X, ?Y; done.
Qed.

Lemma put_pixel_painted s x y color :
  console_ok s -> 0 <= x -> 0 <= y ->
  painted s (fun px py => if (px =? x) && (py =? y) then Some color else None)
    (put_pixel x y color s).
Proof.
  intros Hok Hx Hy. unfold put_pixel. destruct (available s) eqn:Ha; cbn [negb orb].
  2: { split; [done | by intros i Hi | congruence]. }
  destruct ((width s <=? x) || (height s <=? y)) eqn:E.
  { split; [done | by intros i Hi|]. intros _ px py [Hpx Hpy].
    apply orb_true_iff in E. destruct (_ && _) eqn:E1; [|done]. bool_to_prop.
    destruct E; bool_to_prop; lia. }
  bool_to_prop.
  destruct (size_bounds s x y Hok) as (Hb & Hbx & Hby); [destruct Hok; lia..|].
  assert (y *64 pitch_pixels s +64 x = y * pitch_pixels s + x) as ->.
  { rewrite (wrap_small 64 (y * _)) by (destruct Hok; nia). rewrite wrap_small; lia. }
  split; [done | |].
  - intros i Hi. cbn in Hi. exists x, y. split; [split; lia|].
    destruct (decide (i = y * pitch_pixels s + x)); [done|]. by rewrite aget_aset_ne in Hi.
  - intros _ px py [Hpx Hpy]. unfold pixel. cbn.
    destruct (_ && _) eqn:E1; bool_to_prop.
    + subst. apply aget_aset_eq.
    + apply aget_aset_ne. intros Heq.
      assert (py = y) by (destruct Hok; nia). subst py.
      apply andb_false_iff in E1 as [E1|E1]; bool_to_prop; lia.
Qed.

(** The pixels of the first [k] columns of line [y] of a cell at ([x0], [y0]). *)
Lemma line_painted s c fg bg x0 y0 y k :
  console_ok s -> 0 <= x0 < 2 ^ 61 -> 0 <= y0 < 2 ^ 61 -> 0 <= y < 8 -> 0 <= k <= 8 ->
  painted s (fun px py => if (y0 + y =? py) && (x0 <=? px) && (px <? x0 + k)
                          then Some (if glyph_bit c (px - x0) y then fg else bg) else None)
    (for_z 0 k (fun x s =>
       put_pixel (x0 +64 x) (y0 +64 y) (if glyph_bit c x y then fg else bg) s) s).
Proof.
  intros Hok Hx Hy Hy8 Hk. apply (for_z_inv (fun k s' =>
    painted s (fun px py => if (y0 + y =? py) && (x0 <=? px) && (px <? x0 + k)
                            then Some (if glyph_bit c (px - x0) y then fg else bg) else None) s')).
  - lia.
  - eapply painted_ext; [|apply painted_none]. intros px py. cbv beta.
    destruct (_ && _) eqn:E; [|done]. bool_to_prop. lia.
  - intros i t Hi Ht. rewrite !wrap_small by lia.
    eapply painted_ext; [|eapply painted_trans; [exact Ht | apply put_pixel_painted; [|lia..]]].
    + intros px py. cbv beta.
      destruct ((px =? x0 + i) && (py =? y0 + y)) eqn:E1; bool_to_prop.
      * subst. rewrite Z.eqb_refl. replace (x0 <=? x0 + i) with true by lia.
        replace (x0 + i <? x0 + (i + 1)) with true by lia. cbn [andb].
        replace (x0 + i - x0) with i by lia. done.
      * destruct (y0 + y =? py) eqn:E2, (x0 <=? px) eqn:E3; cbn [andb]; try done. bool_to_prop.
        apply andb_false_iff in E1 as [E1|E1]; bool_to_prop; [|lia].
        by replace (px <? x0 + (i + 1)) with (px <? x0 + i) by lia.
    + eapply console_ok_same; [apply (pt_same _ _ _ Ht) | done].
Qed.

(** The cell of a character: eight by eight pixels. *)
Definition in_cell (col row x y : Z) : bool :=
  (8 * col <=? x) && (x <? 8 * col + 8) && (8 * row <=? y) && (y <? 8 * row + 8).

Lemma draw_char_painted s c fg bg :
  console_ok s ->
  painted s (fun x y => if in_cell (cursor_x s) (cursor_y s) x y
                        then Some (if glyph_bit c (x - 8 * cursor_x s) (y - 8 * cursor_y s)
                                   then fg else bg) else None)
    (draw_char c fg bg s).
Proof.
  intros Hok. unfold draw_char, glyph_width, glyph_height.
  assert (0 <= 8 * cursor_x s < 2 ^ 61 /\ 0 <= 8 * cursor_y s < 2 ^ 61) as [Hx Hy].
  { destruct Hok as [W H Z X Y]. unfold columns, rows, glyph_width, glyph_height in *.
    assert (8 * (width s / 8) <= width s) by (apply Z.mul_div_le; lia).
    assert (8 * (height s / 8) <= height s) by (apply Z.mul_div_le; lia). nia. }
  rewrite (Z.mul_comm (cursor_x s)), (Z.mul_comm (cursor_y s)), !wrap_small by lia.
  set (x0 := 8 * cursor_x s) in *. set (y0 := 8 * cursor_y s) in *.
  apply painted_ext with (f := fun px py =>
    if (y0 <=? py) && (py <? y0 + 8) && (x0 <=? px) && (px <? x0 + 8)
    then Some (if glyph_bit c (px - x0) (py - y0) then fg else bg) else None).
  { intros px py. unfold in_cell. fold x0 y0.
    by destruct (y0 <=? py), (py <? y0 + 8), (x0 <=? px), (px <? x0 + 8). }
  apply (for_z_inv (fun k s' => painted s (fun px py =>
    if (y0 <=? py) && (py <? y0 + k) && (x0 <=? px) && (px <? x0 + 8)
    then Some (if glyph_bit c (px - x0) (py - y0) then fg else bg) else None) s')); [lia | |].
  - eapply painted_ext; [|apply painted_none]. intros px py. cbv beta.
    destruct (_ && _) eqn:E; [|done]. bool_to_prop. lia.
  - intros i t Hi Ht.
    eapply painted_ext; [|eapply painted_trans; [exact Ht | apply line_painted; [|lia..]]].
    + intros px py. cbv beta.
      destruct ((y0 + i =? py) && (x0 <=? px) && (px <? x0 + 8)) eqn:E1; bool_to_prop.
      * subst py. replace (y0 <=? y0 + i) with true by lia.
        replace (y0 + i <? y0 + (i + 1)) with true by lia.
        replace (x0 <=? px) with true by lia. replace (px <? x0 + 8) with true by lia.
        cbn [andb]. by replace (y0 + i - y0) with i by lia.
      * destruct (x0 <=? px) eqn:E2, (px <? x0 + 8) eqn:E3; rewrite ?andb_false_r; try done.
        rewrite !andb_true_r in *. bool_to_prop.
        by replace (py <? y0 + (i + 1)) with (py <? y0 + i) by lia.
    + eapply console_ok_same; [apply (pt_same _ _ _ Ht) | done].
Qed.

#[local] Opaque draw_char.

(** * The cursor *)

Lemma cell_bounds s : console_ok s -> 0 <= cursor_x s < 2 ^ 60 /\ 0 <= cursor_y s < 2 ^ 60.
Proof.
  intros [W H Z X Y]. unfold columns, rows, glyph_width, glyph_height in *.
  assert (8 * (width s / 8) <= width s) by (apply Z.mul_div_le; lia).
  assert (8 * (height s / 8) <= height s) by (apply Z.mul_div_le; lia). nia.
Qed.

Lemma newline_ok s : console_ok s -> console_ok (newline s).
Proof.
  intros Hok. pose proof (cell_bounds s Hok) as [_ Hy]. destruct Hok as [W H Z X Y].
  split; cbn; [done | done | done | by left|].
  change (height s / glyph_height) with (rows s). rewrite wrap_small by lia.
  case_bool; [by left | right]. unfold rows in *; cbn. lia.
Qed.

Lemma write_char_ok c color s :
  console_ok s ->
  console_ok (write_char c color s) /\ only_frame s (write_char c color s) /\
  width (write_char c color s) = width s /\ height (write_char c color s) = height s /\
  pitch_pixels (write_char c color s) = pitch_pixels s.
Proof.
  intros Hok. unfold write_char. destruct (negb (available s)).
  { split; [done|]. by split; [intros i Hi|]. }
  destruct (Ascii.eqb c (chr 10)).
  { split; [by apply newline_ok|]. by split; [intros i Hi|]. }
  destruct (Ascii.eqb c (chr 13)).
  { split; [destruct Hok; split; cbn; auto|]. by split; [intros i Hi|]. }
  pose proof (draw_char_painted s c (pack_color color) 0 Hok) as D. cbv zeta.
  generalize dependent (draw_char c (pack_color color) 0 s). intros s1 [S O _].
  pose proof (console_ok_same _ _ S Hok) as Hok1.
  pose proof (cell_bounds s1 Hok1) as [Hx _].
  assert (only_frame s (set_cursor (cursor_x s1 +64 1) (cursor_y s1) s1)) as O' by exact O.
  rewrite (wrap_small 64 (cursor_x s1 + 1)) in * by lia. cbn [cursor_x set_cursor width].
  unfold columns_margin. rewrite (wrap_small 64 (cursor_x s1 + 1 + 1)) by lia.
  change (width s1 / glyph_width) with (columns s1).
  destruct S as [Sw Sh Sp Sx Sy Sa].
  destruct (columns s1 <=? cursor_x s1 + 1 + 1) eqn:E; bool_to_prop.
  - split; [|by split].
    change (newline (set_cursor (cursor_x s1 + 1) (cursor_y s1) s1)) with (newline s1).
    by apply newline_ok.
  - split; [|by split]. destruct Hok1 as [W H Z X Y].
    split; cbn; try done. right. unfold columns in *; cbn. lia.
Qed.

(** Whatever text is written, the cursor stays on the screen, the geometry
    stays, and no byte outside the visible frame is written. *)
Theorem console_in_frame text color s :
  console_ok s ->
  console_ok (write_string text color s) /\ only_frame s (write_string text color s).
Proof.
  intros Hok. destruct text as [t|]; cbn [write_string]; [|by split; [|intros i Hi]].
  revert s Hok. induction t as [|c t IH]; intros s Hok; cbn [foldl]; [by split; [|intros i Hi]|].
  destruct (write_char_ok c color s Hok) as (O1 & F1 & W & H & P).
  destruct (IH _ O1) as [O2 F2]. split; [done|].
  intros i Hi. destruct (decide (aget (pixels (write_char c color s)) i = aget (pixels s) i)) as [E|E].
  - rewrite <- E in Hi. destruct (F2 i Hi) as (x & y & [Hx Hy] & ->).
    exists x, y. rewrite W, H, P in *. done.
  - by apply F1.
Qed.

(** * Text on the screen *)

(** The cell shows the glyph of [c] in the colour, on black. *)
Definition shows (s : ConsoleState) (col row : Z) (c : ascii) (color : Z) : Prop :=
  forall x y, 0 <= x < 8 -> 0 <= y < 8 ->
    pixel s (8 * col + x) (8 * row + y) = if glyph_bit c x y then color else 0.

(** A character that is drawn. *)
Definition printable (c : ascii) : Prop := c <> chr 10 /\ c <> chr 13.

Lemma cell_in_frame s col row x y :
  0 <= col < columns s -> 0 <= row < rows s -> 0 <= x < 8 -> 0 <= y < 8 ->
  in_frame s (8 * col + x) (8 * row + y).
Proof.
  unfold columns, rows, glyph_width, glyph_height, in_frame. intros.
  pose proof (Z.mul_div_le (width s) 8). pose proof (Z.mul_div_le (height s) 8). lia.
Qed.

(** One character that does not end its line. *)
Lemma write_char_shows c color s :
  console_ok s -> available s = true -> printable c -> 0 <= color < 2 ^ 32 ->
  0 <= cursor_x s -> cursor_x s + 2 < columns s -> 0 <= cursor_y s < rows s ->
  let s' := write_char c color s in
  shows s' (cursor_x s) (cursor_y s) c color /\
  same_but_pixels (set_cursor (cursor_x s + 1) (cursor_y s) s) s' /\
  forall x y, in_frame s x y -> in_cell (cursor_x s) (cursor_y s) x y = false ->
    pixel s' x y = pixel s x y.
Proof.
  intros Hok Ha [Hn Hr] Hc Hx0 Hx Hy. cbv zeta. unfold write_char. rewrite Ha. cbn [negb].
  destruct (Ascii.eqb_spec c (chr 10)); [done|]. destruct (Ascii.eqb_spec c (chr 13)); [done|].
  unfold pack_color. rewrite (wrap_small 32 color) by lia.
  pose proof (draw_char_painted s c color 0 Hok) as D. cbv zeta.
  generalize dependent (draw_char c color 0 s). intros s1 [S O P]. specialize (P Ha).
  pose proof (cell_bounds s Hok) as [Hbx _]. destruct S as [Sw Sh Sp Sx Sy Sa].
  rewrite Sx, Sy. rewrite (wrap_small 64 (cursor_x s + 1)) by lia. cbn [cursor_x set_cursor width].
  unfold columns_margin. rewrite (wrap_small 64 (cursor_x s + 1 + 1)) by lia.
  rewrite Sw. change (width s / glyph_width) with (columns s).
  replace (columns s <=? cursor_x s + 1 + 1) with false by lia.
  split; [|split].
  - intros x y Hx' Hy'. change (pixel s1 (8 * cursor_x s + x) (8 * cursor_y s + y) =
      if glyph_bit c x y then color else 0).
    rewrite P by (apply cell_in_frame; lia). unfold in_cell.
    replace (8 * cursor_x s <=? 8 * cursor_x s + x) with true by lia.
    replace (8 * cursor_x s + x <? 8 * cursor_x s + 8) with true by lia.
    replace (8 * cursor_y s <=? 8 * cursor_y s + y) with true by lia.
    replace (8 * cursor_y s + y <? 8 * cursor_y s + 8) with true by lia. cbn [andb default].
    replace (8 * cursor_x s + x - 8 * cursor_x s) with x by lia.
    by replace (8 * cursor_y s + y - 8 * cursor_y s) with y by lia.
  - by split.
  - intros x y Hf Hcell. change (pixel s1 x y = pixel s x y). rewrite P by done. by rewrite Hcell.
Qed.

(** The cells of a text. *)
Definition in_text (col row : Z) (n : nat) (x y : Z) : bool :=
  (8 * col <=? x) && (x <? 8 * (col + Z.of_nat n)) && (8 * row <=? y) && (y <? 8 * row + 8).

(** A text without line breaks that fits on the line appears in the cells from
    the cursor on, each character as its glyph in the colour of the text; the
    cursor is after it and every other pixel is as before. *)
Theorem console_shows_text t color s :
  console_ok s -> available s = true -> Forall printable t -> 0 <= color < 2 ^ 32 ->
  0 <= cursor_x s -> cursor_x s + Z.of_nat (length t) + 1 < columns s -> 0 <= cursor_y s < rows s ->
  let s' := write_string (Some t) color s in
  (forall i c, t !! i = Some c -> shows s' (cursor_x s + Z.of_nat i) (cursor_y s) c color) /\
  cursor_x s' = cursor_x s + Z.of_nat (length t) /\ cursor_y s' = cursor_y s /\
  forall x y, in_frame s x y -> in_text (cursor_x s) (cursor_y s) (length t) x y = false ->
    pixel s' x y = pixel s x y.
Proof.
  cbn [write_string]. revert s.
  induction t as [|c t IH]; intros s Hok Ha Hp Hc Hx0 Hx Hy; cbn [foldl length] in *.
  { split; [done|]. split; [lia|]. done. }
  inversion_clear Hp as [|? ? Hpc Hpt].
  destruct (write_char_shows c color s) as (Sh & [Sw Sh' Sp Sx Sy Sa] & Out); [done..|lia | lia |].
  cbn in Sw, Sh', Sp, Sx, Sy, Sa.
  destruct (write_char_ok c color s Hok) as (O1 & _).
  assert (columns (write_char c color s) = columns s) as Ec by (unfold columns; by rewrite Sw).
  assert (rows (write_char c color s) = rows s) as Er by (unfold rows; by rewrite Sh').
  destruct (IH (write_char c color s)) as (Shows & Cx & Cy & Out');
    [done | congruence | done | done | lia | rewrite Ec; lia | rewrite Sy, Er; lia |].
  rewrite Sx, Sy in *. clear IH.
  split; [|split; [lia | split; [done|]]].
  - intros [|i] d Hi; cbn in Hi.
    + injection Hi as <-. rewrite Z.add_0_r. intros x y Hx' Hy'. rewrite Out'; [by apply Sh| |].
      * unfold in_frame. rewrite Sw, Sh'. apply cell_in_frame; lia.
      * unfold in_text. replace (8 * (cursor_x s + 1) <=? 8 * cursor_x s + x) with false by lia. done.
    + replace (cursor_x s + Z.of_nat (S i)) with (cursor_x s + 1 + Z.of_nat i) by lia. by apply Shows.
  - intros x y Hf Ht. unfold in_text in Ht. rewrite Out'; [apply Out; [done|]| |].
    + unfold in_cell. destruct (8 * cursor_x s <=? x) eqn:E1, (8 * cursor_y s <=? y) eqn:E2,
        (y <? 8 * cursor_y s + 8) eqn:E3; rewrite ?andb_false_r, ?andb_true_r; try done.
      cbn [andb] in *. rewrite ?andb_true_r in Ht. bool_to_prop. lia.
    + unfold in_frame in *. by rewrite Sw, Sh'.
    + unfold in_text. destruct (8 * cursor_y s <=? y) eqn:E2,
        (y <? 8 * cursor_y s + 8) eqn:E3; rewrite ?andb_false_r, ?andb_true_r in *; try done.
      destruct (8 * (cursor_x s + 1) <=? x) eqn:E1; [|done]. bool_to_prop.
      replace (8 * cursor_x s <=? x) with true in Ht by lia. cbn [andb] in *.
      replace (8 * (cursor_x s + 1 + Z.of_nat (length t)))
        with (8 * (cursor_x s + Z.of_nat (S (length t)))) by lia. done.
Qed.

(** * A small screen: five columns and two rows *)

Definition demo_screen : ConsoleState :=
  init {| fb_address := Some (afill 0); fb_width := 40; fb_height := 16; fb_pitch := 256;
          bits_per_pixel := 32 |}
    {| pixels := afill 0; width := 0; height := 0; pitch_pixels := 0; cursor_x := 0;
       cursor_y := 0; available := false |}.

Lemma demo_screen_ok : console_ok demo_screen.
Proof. split; vm_compute; intuition discriminate. Qed.

Lemma console_in_frame_witness :
  console_ok (write_string (Some (txt "hello, world")) 0xffffff demo_screen) /\
  only_frame demo_screen (write_string (Some (txt "hello, world")) 0xffffff demo_screen).
Proof. apply console_in_frame. apply demo_screen_ok. Defined.

Lemma console_shows_text_witness :
  let s' := write_string (Some (txt "oom")) 0xffffff demo_screen in
  (forall i c, txt "oom" !! i = Some c ->
     shows s' (cursor_x demo_screen + Z.of_nat i) (cursor_y demo_screen) c 0xffffff) /\
  cursor_x s' = cursor_x demo_screen + Z.of_nat (length (txt "oom")) /\
  cursor_y s' = cursor_y demo_screen /\
  forall x y, in_frame demo_screen x y ->
    in_text (cursor_x demo_screen) (cursor_y demo_screen) (length (txt "oom")) x y = false ->
    pixel s' x y = pixel demo_screen x y.
Proof.
  apply (console_shows_text (txt "oom") 0xffffff demo_screen);
    [apply demo_screen_ok | reflexivity | repeat constructor; discriminate | lia
    | vm_compute; discriminate | reflexivity | split; [vm_compute; discriminate | reflexivity]].
Defined.

(** After the last line the cursor goes back to the first, which is not cleared:
    of the old text [AAA] the part behind the new [B] stays. *)
Example console_stale_text :
  let s := write_string (Some (txt "AAA" ++ [chr 10; chr 10] ++ txt "B")) 0xffffff demo_screen in
  cursor_x s = 1 /\ cursor_y s = 0 /\
  pixel s 11 0 = 0xffffff /\ glyph_bit "A" 3 0 = true.
Proof. vm_compute. done. Qed.

(** The characters of a stack trace that the font does not have look alike. *)
Example console_missing_glyphs :
  forallb (fun c => bool_decide (find_glyph c glyphs = unknown_glyph)) (txt "#+<>{}*&~?") = true.
Proof. vm_compute. done. Qed.
