(* ===== verification/RuntimeMem.v ===== *)
(** The memory functions that the compiler calls (runtime/memory.cpp). *)
From S2P Require Import Prelude Bytes.

(** * Loops

    Counting up and counting down over [count] bytes. *)

Definition copy_up (dst src count : Z) (m : bmem) : bmem :=
  for_z 0 count (fun index m => aset m (dst + index) (aget m (src + index))) m.

(** [for (index = count; index > 0; --index) dst[index - 1] = src[index - 1];] *)
Fixpoint copy_down (dst src : Z) (count : nat) (m : bmem) : bmem :=
  match count with
  | O => m
  | S index =>
      copy_down dst src index (aset m (dst + Z.of_nat index) (aget m (src + Z.of_nat index)))
  end.

Definition memcpy (dst src count : Z) (m : bmem) : bmem := copy_up dst src count m.

Definition memset (dst value count : Z) (m : bmem) : bmem :=
  for_z 0 count (fun index m => aset m (dst + index) (wrap 8 value)) m.

Definition memmove (dst src count : Z) (m : bmem) : bmem :=
  if dst <? src then copy_up dst src count m
  else if src <? dst then copy_down dst src (Z.to_nat count) m
  else m.

(** * Specifications *)

(** [m'] is [m] with the [count] bytes that were at [src] in [m] at [dst]. *)
Definition copied (dst src count : Z) (m m' : bmem) : Prop :=
  forall a, aget m' a = if (dst <=? a) && (a <? dst + count) then aget m (src + (a - dst))
                        else aget m a.

Lemma in_range lo a hi : (lo <=? a) && (a <? hi) = bool_decide (lo <= a < hi).
Proof. symmetry. destruct (bool_decide _) eqn:E.
  - apply bool_decide_eq_true in E. symmetry. apply andb_true_iff. lia.
  - apply bool_decide_eq_false in E. symmetry. apply andb_false_iff. lia.
Qed.

(** Bytes that a loop reads later must not have been overwritten. *)
Lemma copy_up_spec dst src count m :
  0 <= count -> dst <= src \/ src + count <= dst -> copied dst src count m (copy_up dst src count m).
Proof.
  intros Hc Hd. unfold copy_up.
  apply (for_z_inv (fun k m' => copied dst src k m m')); [done | |].
  - intros a. destruct (_ && _) eqn:E; [|done]. bool_to_prop. lia.
  - intros i t Hi Ht a. destruct (decide (a = dst + i)) as [-> | Hne].
    + rewrite aget_aset_eq, Ht.
      replace ((dst <=? dst + i) && (dst + i <? dst + (i + 1))) with true by lia.
      destruct (_ && _) eqn:E; bool_to_prop; [lia|]. f_equal. lia.
    + rewrite aget_aset_ne, Ht by done.
      by replace ((dst <=? a) && (a <? dst + (i + 1))) with ((dst <=? a) && (a <? dst + i)) by lia.
Qed.

Lemma copy_down_spec dst src n : forall m,
  src <= dst -> copied dst src (Z.of_nat n) m (copy_down dst src n m).
Proof.
  induction n as [|n IH]; intros m Hd a; cbn [copy_down]; rewrite in_range.
  { rewrite bool_decide_eq_false_2; [done | lia]. }
  rewrite (IH _ Hd a), in_range. destruct (decide (a = dst + Z.of_nat n)) as [-> | Hne].
  - rewrite bool_decide_eq_false_2, bool_decide_eq_true_2, aget_aset_eq by lia. f_equal. lia.
  - rewrite (bool_decide_ext (dst <= a < dst + Z.of_nat n) (dst <= a < dst + Z.of_nat (S n))) by lia.
    case_bool_decide; rewrite aget_aset_ne; [done | lia | done | done].
Qed.

(** [memmove] copies the bytes that were at the source before the call, for all
    sources and destinations, overlapping or not, and changes nothing else. *)
Theorem memmove_spec dst src count m :
  0 <= count -> copied dst src count m (memmove dst src count m).
Proof.
  intros Hc. unfold memmove. destruct (dst <? src) eqn:E1; bool_to_prop.
  - apply copy_up_spec; lia.
  - destruct (src <? dst) eqn:E2; bool_to_prop.
    + rewrite <- (Z2Nat.id count) at 1 by lia. apply copy_down_spec. lia.
    + intros a. assert (src = dst) as -> by lia. case_match; [|done]. f_equal. lia.
Qed.

(** [memcpy] does the same when the regions do not overlap, and [memset] fills
    exactly its bytes with the low byte of its value. *)
Theorem memcpy_memset_spec dst src count value m :
  0 <= count -> src + count <= dst \/ dst + count <= src ->
  copied dst src count m (memcpy dst src count m) /\
  forall a, aget (memset dst value count m) a =
    if (dst <=? a) && (a <? dst + count) then wrap 8 value else aget m a.
Proof.
  intros Hc Hd. split; [apply copy_up_spec; lia|].
  apply (for_z_inv (fun k m' => forall a, aget m' a =
    if (dst <=? a) && (a <? dst + k) then wrap 8 value else aget m a)); [done | |].
  - intros a. destruct (_ && _) eqn:E; [|done]. bool_to_prop. lia.
  - intros i t Hi Ht a. destruct (decide (a = dst + i)) as [-> | Hne].
    + rewrite aget_aset_eq.
      by replace ((dst <=? dst + i) && (dst + i <? dst + (i + 1))) with true by lia.
    + rewrite aget_aset_ne, Ht by done.
      by replace ((dst <=? a) && (a <? dst + (i + 1))) with ((dst <=? a) && (a <? dst + i)) by lia.
Qed.

Definition demo_memory : bmem := aset (aset (aset (afill 0) 0 1) 1 2) 2 3.

Lemma memmove_spec_witness : copied 1 0 3 demo_memory (memmove 1 0 3 demo_memory).
Proof. apply memmove_spec. lia. Defined.

Lemma memcpy_memset_spec_witness :
  copied 8 0 3 demo_memory (memcpy 8 0 3 demo_memory) /\
  forall a, aget (memset 8 255 3 demo_memory) a =
    if (8 <=? a) && (a <? 8 + 3) then wrap 8 255 else aget demo_memory a.
Proof. apply memcpy_memset_spec; lia. Defined.

(** On overlapping regions with the destination above, [memcpy] repeats the first
    bytes where [memmove] keeps them. *)
Example memcpy_overlap :
  map (aget (memcpy 1 0 3 demo_memory)) [0; 1; 2; 3] = [1; 1; 1; 1] /\
  map (aget (memmove 1 0 3 demo_memory)) [0; 1; 2; 3] = [1; 1; 2; 3].
Proof. vm_compute. done. Qed.
