(* ===== verification/Acpi.v ===== *)
(** The ACPI tables (platform/uefi_pc/acpi.cpp and madt.cpp): checksums, the search
    for a table, the enumeration, and the records of the interrupt controllers.

    The tables are read in place from a byte memory; [hhdm] is the offset of the
    direct map. *)
From S2P Require Import Prelude Bytes Text Task.

(** * Layout *)

Definition rsdp_v1_length : Z := 20.
Definition RSDP_SIGNATURE : list Z := map code (txt "RSD PTR ").
Definition Revision_V2 : Z := 2.
Definition sizeof_SDTHeader : Z := 36.

Section Tables.
Variables (m : bmem) (hhdm : Z).

Definition rsdp_revision (p : Z) : Z := aget m (p + 15).
Definition rsdp_rsdt_address (p : Z) : Z := ld 4 m (p + 16).
Definition rsdp_length (p : Z) : Z := ld 4 m (p + 20).
Definition rsdp_xsdt_address (p : Z) : Z := ld 8 m (p + 24).

Definition sdt_length (p : Z) : Z := ld 4 m (p + 4).

(** * Checks *)

(** The bytes from [p] are those of the signature. *)
Fixpoint bytes_match (p : Z) (sig : list Z) : bool :=
  match sig with
  | [] => true
  | b :: sig => (aget m p =? b) && bytes_match (p + 1) sig
  end.

Definition signature_matches (p : Z) (expected : list Z) : bool := bytes_match p expected.

Definition rsdp_sig_valid (p : Z) : bool := bytes_match p RSDP_SIGNATURE.

Definition sum_bytes (data length : Z) : Z :=
  for_z 0 length (fun i sum => wrap 8 (sum + aget m (data + i))) 0.

Definition validate_rsdp_checksum (p : Z) : bool :=
  if negb (rsdp_sig_valid p) then false
  else if negb (sum_bytes p rsdp_v1_length =? 0) then false
  else if Revision_V2 <=? rsdp_revision p then sum_bytes p (rsdp_length p) =? 0
  else true.

Definition validate_sdt_checksum (p : Z) : bool := sum_bytes p (sdt_length p) =? 0.

Definition phys_to_virt (physical : Z) : Z := physical +64 hhdm.

(** * Finding a table *)

Definition XSDT : list Z := map code (txt "XSDT").
Definition RSDT : list Z := map code (txt "RSDT").
Definition APIC : list Z := map code (txt "APIC").
Definition FACP : list Z := map code (txt "FACP").
Definition HPET : list Z := map code (txt "HPET").

(** [(table->length - sizeof(SDTHeader)) / n], stored in 32 bits. *)
Definition entry_count (table n : Z) : Z := wrap 32 ((sdt_length table -64 sizeof_SDTHeader) / n).

(** The [i]-th entry, of [n] bytes. *)
Definition table_entry (table n i : Z) : Z :=
  ld (Z.to_nat n) m (table + sizeof_SDTHeader + n * i).

(** The loop from entry [i] over [fuel] entries. *)
Fixpoint find_entry (fuel : nat) (table n i : Z) (sig : list Z) : option Z :=
  match fuel with
  | O => None
  | S fuel =>
      let table_phys := table_entry table n i in
      if table_phys =? 0 then find_entry fuel table n (i + 1) sig
      else
        let t := phys_to_virt table_phys in
        if signature_matches t sig then Some t else find_entry fuel table n (i + 1) sig
  end.

(** A root table with entries of [n] bytes; its physical address is not zero. *)
Definition find_in_root (phys : Z) (root_sig : list Z) (n : Z) (sig : list Z) : option Z :=
  let root := phys_to_virt phys in
  if signature_matches root root_sig && validate_sdt_checksum root
  then find_entry (Z.to_nat (entry_count root n)) root n 0 sig
  else None.

Definition find_table (rsdp : option Z) (sig : list Z) : option Z :=
  match rsdp with
  | None => None
  | Some p =>
      if negb (rsdp_sig_valid p) then None
      else
        match (if negb (rsdp_xsdt_address p =? 0) && (Revision_V2 <=? rsdp_revision p)
               then find_in_root (rsdp_xsdt_address p) XSDT 8 sig else None) with
        | Some t => Some t
        | None =>
            if negb (rsdp_rsdt_address p =? 0)
            then find_in_root (rsdp_rsdt_address p) RSDT 4 sig else None
        end
  end.

(** * Enumeration *)

Record Info := {
  rsdp_found : bool;
  rsdp_checksum_valid : bool;
  xsdt_found : bool;
  xsdt_entry_count : Z;
  madt_found : bool;
  fadt_found : bool;
  hpet_found : bool;
}.

Definition no_info : Info :=
  {| rsdp_found := false; rsdp_checksum_valid := false; xsdt_found := false;
     xsdt_entry_count := 0; madt_found := false; fadt_found := false; hpet_found := false |}.

(** One entry of a root table. *)
Definition see_table (table_phys : Z) (info : Info) : Info :=
  if table_phys =? 0 then info
  else
    let t := phys_to_virt table_phys in
    if negb (validate_sdt_checksum t) then info
    else
      let apic := signature_matches t APIC in
      let facp := negb apic && signature_matches t FACP in
      let hpet := negb apic && negb (signature_matches t FACP) && signature_matches t HPET in
      {| rsdp_found := rsdp_found info; rsdp_checksum_valid := rsdp_checksum_valid info;
         xsdt_found := xsdt_found info; xsdt_entry_count := xsdt_entry_count info;
         madt_found := madt_found info || apic; fadt_found := fadt_found info || facp;
         hpet_found := hpet_found info || hpet |}.

Definition see_entries (root n : Z) (info : Info) : Info :=
  for_z 0 (entry_count root n) (fun i info => see_table (table_entry root n i) info) info.

Definition enumerate (rsdp : option Z) : Info :=
  match rsdp with
  | None => no_info
  | Some p =>
      let info := {| rsdp_found := true; rsdp_checksum_valid := false; xsdt_found := false;
                     xsdt_entry_count := 0; madt_found := false; fadt_found := false;
                     hpet_found := false |} in
      if negb (rsdp_sig_valid p) then info
      else if negb (validate_rsdp_checksum p) then info
      else
        let info := {| rsdp_found := true; rsdp_checksum_valid := true; xsdt_found := false;
                       xsdt_entry_count := 0; madt_found := false; fadt_found := false;
                       hpet_found := false |} in
        let xsdt := phys_to_virt (rsdp_xsdt_address p) in
        if negb (rsdp_xsdt_address p =? 0) && (Revision_V2 <=? rsdp_revision p)
           && (signature_matches xsdt XSDT && validate_sdt_checksum xsdt) then
          see_entries xsdt 8
            {| rsdp_found := true; rsdp_checksum_valid := true; xsdt_found := true;
               xsdt_entry_count := entry_count xsdt 8; madt_found := false;
               fadt_found := false; hpet_found := false |}
        else
          let rsdt := phys_to_virt (rsdp_rsdt_address p) in
          if negb (rsdp_rsdt_address p =? 0)
             && (signature_matches rsdt RSDT && validate_sdt_checksum rsdt)
          then see_entries rsdt 4 info
          else info
  end.

(** * Interrupt controllers *)

Record LocalApic := { processor_id : Z; apic_id : Z; lapic_flags : Z; usable : bool }.
Record IoApic := { io_id : Z; io_address : Z; gsi_base : Z }.
Record InterruptOverride := { bus : Z; source : Z; gsi : Z; override_flags : Z }.

Definition max_io_apics : nat := 8.
Definition max_interrupt_overrides : nat := 16.

(** The arrays with their counts are lists. *)
Record MadtInfo := {
  local_apic_address : Z;
  local_apics : list LocalApic;
  io_apics : list IoApic;
  interrupt_overrides : list InterruptOverride;
}.

Definition sizeof_MADTHeader : Z := 44.

(** One record at [ptr]: the structures are packed. *)
Definition parse_record (ptr : Z) (info : MadtInfo) : MadtInfo :=
  let type := aget m ptr in
  if type =? 0 then
    if (length (local_apics info) <? Z.to_nat CONFIG_MAX_CPUS)%nat then
      let flags := ld 4 m (ptr + 4) in
      {| local_apic_address := local_apic_address info;
         local_apics := local_apics info ++
           [{| processor_id := aget m (ptr + 2); apic_id := aget m (ptr + 3);
               lapic_flags := flags;
               usable := negb (Z.land flags 1 =? 0) || negb (Z.land flags 2 =? 0) |}];
         io_apics := io_apics info; interrupt_overrides := interrupt_overrides info |}
    else info
  else if type =? 1 then
    if (length (io_apics info) <? max_io_apics)%nat then
      {| local_apic_address := local_apic_address info; local_apics := local_apics info;
         io_apics := io_apics info ++
           [{| io_id := aget m (ptr + 2); io_address := ld 4 m (ptr + 4);
               gsi_base := ld 4 m (ptr + 8) |}];
         interrupt_overrides := interrupt_overrides info |}
    else info
  else if type =? 2 then
    if (length (interrupt_overrides info) <? max_interrupt_overrides)%nat then
      {| local_apic_address := local_apic_address info; local_apics := local_apics info;
         io_apics := io_apics info;
         interrupt_overrides := interrupt_overrides info ++
           [{| bus := aget m (ptr + 2); source := aget m (ptr + 3); gsi := ld 4 m (ptr + 4);
               override_flags := ld 2 m (ptr + 8) |}] |}
    else info
  else if type =? 5 then
    {| local_apic_address := ld 8 m (ptr + 4); local_apics := local_apics info;
       io_apics := io_apics info; interrupt_overrides := interrupt_overrides info |}
  else info.

(** The loop over the records; every iteration moves on by two bytes at least. *)
Fixpoint parse_loop (fuel : nat) (ptr end_ : Z) (info : MadtInfo) : MadtInfo :=
  match fuel with
  | O => info
  | S fuel =>
      if ptr <? end_ then
        let len := aget m (ptr + 1) in
        if (end_ <? ptr + len) || (len <? 2) then info
        else parse_loop fuel (ptr + len) end_ (parse_record ptr info)
      else info
  end.

Definition parse (header : option Z) : MadtInfo :=
  match header with
  | None => {| local_apic_address := 0; local_apics := []; io_apics := [];
               interrupt_overrides := [] |}
  | Some h =>
      parse_loop (S (Z.to_nat (sdt_length h))) (h + sizeof_MADTHeader) (h + sdt_length h)
        {| local_apic_address := ld 4 m (h + 36); local_apics := []; io_apics := [];
           interrupt_overrides := [] |}
  end.
End Tables.
