(* ===== verification/AcpiSpec.v ===== *)
(** Theorems about the ACPI tables: what the checksum detects, which table a
    search finds, and that the interrupt-controller records are read back. *)
From S2P Require Import Prelude Bytes Text Task Acpi.

(** * Checksums *)

Fixpoint byte_sum (m : bmem) (p : Z) (n : nat) : Z :=
  match n with O => 0 | S n => byte_sum m p n + aget m (p + Z.of_nat n) end.

Lemma sum_bytes_mod m p n : 0 <= n -> sum_bytes m p n = byte_sum m p (Z.to_nat n) mod 256.
Proof.
  intros Hn. unfold sum_bytes.
  apply (for_z_inv (fun k s => s = byte_sum m p (Z.to_nat k) mod 256)); [done | done|].
  intros i s Hi ->. unfold wrap. change (2 ^ 8) with 256.
  rewrite Z.add_mod_idemp_l by lia.
  replace (Z.to_nat (i + 1)) with (S (Z.to_nat i)) by lia. cbn [byte_sum].
  by rewrite Z2Nat.id by lia.
Qed.

Lemma byte_sum_other m p a v n :
  ~ p <= a < p + Z.of_nat n -> byte_sum (aset m a v) p n = byte_sum m p n.
Proof.
  induction n as [|n IH]; intros Ha; cbn [byte_sum]; [done|].
  rewrite IH, aget_aset_ne by lia. done.
Qed.

Lemma byte_sum_change m p a v n :
  p <= a < p + Z.of_nat n ->
  byte_sum (aset m a v) p n = byte_sum m p n - aget m a + v.
Proof.
  induction n as [|n IH]; intros Ha; cbn [byte_sum]; [lia|].
  destruct (decide (a = p + Z.of_nat n)) as [-> | Hne].
  - rewrite byte_sum_other, aget_aset_eq by lia. lia.
  - rewrite IH, aget_aset_ne by lia. lia.
Qed.

(** The checksum of a table detects every change of a single byte of it, the
    length field apart. *)
Theorem checksum_detects_change m p a v :
  validate_sdt_checksum m p = true ->
  p <= a < p + sdt_length m p -> ~ p + 4 <= a < p + 8 ->
  0 <= aget m a < 256 -> 0 <= v < 256 -> v <> aget m a ->
  validate_sdt_checksum (aset m a v) p = false.
Proof.
  intros Hv Ha Hl Hb Hv' Hne. unfold validate_sdt_checksum in *.
  assert (sdt_length (aset m a v) p = sdt_length m p) as ->.
  { unfold sdt_length. apply ld_frame. intros x Hx. unfold span in Hx.
    rewrite aget_aset_ne; [done | lia]. }
  apply Z.eqb_eq in Hv. apply Z.eqb_neq.
  rewrite sum_bytes_mod in * by lia. rewrite byte_sum_change by lia.
  intros Hs. apply Z.mod_divide in Hv as [q Hq]; [|lia]. apply Z.mod_divide in Hs as [q' Hq']; [|lia].
  assert (v - aget m a = 256 * (q' - q)) by lia. lia.
Qed.

(** * Searches *)

(** The addresses of the tables that a root table lists. *)
Definition listed (m : bmem) (hhdm root n : Z) (cnt : nat) : list Z :=
  omap (fun i => let e := table_entry m root n (Z.of_nat i) in
                 if e =? 0 then None else Some (phys_to_virt hhdm e)) (seq 0 cnt).

Definition listed_by (m : bmem) (hhdm phys : Z) (sig : list Z) (n : Z) : list Z :=
  let root := phys_to_virt hhdm phys in
  if signature_matches m root sig && validate_sdt_checksum m root
  then listed m hhdm root n (Z.to_nat (entry_count m root n)) else [].

(** All tables: those of the extended root table, then those of the old one. *)
Definition all_tables (m : bmem) (hhdm p : Z) : list Z :=
  (if negb (rsdp_xsdt_address m p =? 0) && (Revision_V2 <=? rsdp_revision m p)
   then listed_by m hhdm (rsdp_xsdt_address m p) XSDT 8 else [])
  ++ (if negb (rsdp_rsdt_address m p =? 0)
      then listed_by m hhdm (rsdp_rsdt_address m p) RSDT 4 else []).

Lemma find_entry_listed m hhdm root n sig cnt : forall i,
  find_entry m hhdm cnt root n (Z.of_nat i) sig =
  List.find (fun t => signature_matches m t sig)
    (omap (fun i => let e := table_entry m root n (Z.of_nat i) in
                    if e =? 0 then None else Some (phys_to_virt hhdm e)) (seq i cnt)).
Proof.
  induction cnt as [|cnt IH]; intros i; cbn [find_entry seq]; [done|].
  replace (Z.of_nat i + 1) with (Z.of_nat (S i)) by lia. rewrite IH. cbn [omap list_omap].
  destruct (table_entry m root n (Z.of_nat i) =? 0); [done|]. cbn [List.find].
  by destruct (signature_matches _ _ _).
Qed.

Lemma find_app {A} (f : A -> bool) l l' :
  List.find f (l ++ l') = match List.find f l with Some x => Some x | None => List.find f l' end.
Proof. induction l as [|x l IH]; cbn; [done|]. by destruct (f x). Qed.

Lemma find_in_root_listed m hhdm phys rsig n sig :
  find_in_root m hhdm phys rsig n sig =
  List.find (fun t => signature_matches m t sig) (listed_by m hhdm phys rsig n).
Proof.
  unfold find_in_root, listed_by. destruct (_ && _); [|done]. apply (find_entry_listed _ _ _ _ _ _ 0).
Qed.

(** A search returns the first table with the signature among those that the
    checked root tables list, the extended one first; without a valid root
    pointer it returns none. *)
Theorem find_table_first m hhdm p sig :
  find_table m hhdm (Some p) sig =
  if rsdp_sig_valid m p
  then List.find (fun t => signature_matches m t sig) (all_tables m hhdm p)
  else None.
Proof.
  unfold find_table, all_tables. destruct (rsdp_sig_valid m p); cbn [negb]; [|done].
  rewrite find_app.
  destruct (negb (rsdp_xsdt_address m p =? 0) && _); cbn [List.find]; rewrite ?find_in_root_listed;
    destruct (negb (rsdp_rsdt_address m p =? 0)); rewrite ?find_in_root_listed; done.
Qed.

(** * Interrupt controllers *)

Inductive record :=
| RLocalApic (processor apic flags : Z)
| RIoApic (id address gsi_base : Z)
| ROverride (bus source gsi flags : Z)
| RAddress (address : Z)
| ROther (type len : Z).

Definition record_size (r : record) : Z :=
  match r with
  | RLocalApic _ _ _ => 8
  | RIoApic _ _ _ => 12
  | ROverride _ _ _ _ => 10
  | RAddress _ => 12
  | ROther _ len => len
  end.

(** The record is stored at [p]. *)
Definition holds (m : bmem) (p : Z) (r : record) : Prop :=
  aget m (p + 1) = record_size r /\
  match r with
  | RLocalApic i a f => aget m p = 0 /\ aget m (p + 2) = i /\ aget m (p + 3) = a /\ ld 4 m (p + 4) = f
  | RIoApic i a g => aget m p = 1 /\ aget m (p + 2) = i /\ ld 4 m (p + 4) = a /\ ld 4 m (p + 8) = g
  | ROverride b s g f =>
      aget m p = 2 /\ aget m (p + 2) = b /\ aget m (p + 3) = s /\ ld 4 m (p + 4) = g /\
      ld 2 m (p + 8) = f
  | RAddress a => aget m p = 5 /\ ld 8 m (p + 4) = a
  | ROther t len => aget m p = t /\ 2 <= len /\ t <> 0 /\ t <> 1 /\ t <> 2 /\ t <> 5
  end.

Fixpoint holds_all (m : bmem) (p : Z) (rs : list record) : Prop :=
  match rs with
  | [] => True
  | r :: rs => holds m p r /\ holds_all m (p + record_size r) rs
  end.

Fixpoint records_size (rs : list record) : Z :=
  match rs with [] => 0 | r :: rs => record_size r + records_size rs end.

(** The controllers in the records. *)
Definition record_lapic (r : record) : option LocalApic :=
  match r with
  | RLocalApic i a f => Some {| processor_id := i; apic_id := a; lapic_flags := f;
                                usable := negb (Z.land f 1 =? 0) || negb (Z.land f 2 =? 0) |}
  | _ => None
  end.
Definition record_io (r : record) : option IoApic :=
  match r with RIoApic i a g => Some {| io_id := i; io_address := a; gsi_base := g |} | _ => None end.
Definition record_override (r : record) : option InterruptOverride :=
  match r with
  | ROverride b s g f => Some {| bus := b; source := s; gsi := g; override_flags := f |}
  | _ => None
  end.
Definition record_address (a : Z) (r : record) : Z := match r with RAddress b => b | _ => a end.

(** What the loop knows after the records [rs] from the state [info]. *)
Definition after (rs : list record) (info : MadtInfo) : MadtInfo :=
  {| local_apic_address := foldl record_address (local_apic_address info) rs;
     local_apics := take (Z.to_nat CONFIG_MAX_CPUS) (local_apics info ++ omap record_lapic rs);
     io_apics := take max_io_apics (io_apics info ++ omap record_io rs);
     interrupt_overrides :=
       take max_interrupt_overrides (interrupt_overrides info ++ omap record_override rs) |}.

Record info_ok (info : MadtInfo) : Prop := {
  ok_lapics : (length (local_apics info) <= Z.to_nat CONFIG_MAX_CPUS)%nat;
  ok_ios : (length (io_apics info) <= max_io_apics)%nat;
  ok_overrides : (length (interrupt_overrides info) <= max_interrupt_overrides)%nat;
}.

Lemma take_full {A} n (l r r' : list A) :
  (length l <? n)%nat = false -> take n (l ++ r) = take n (l ++ r').
Proof. intros E%Nat.ltb_ge. by rewrite !take_app_le by lia. Qed.

Lemma length_snoc_le {A} n (l : list A) x :
  (length l <? n)%nat = true -> (length (l ++ [x]) <= n)%nat.
Proof. intros E%Nat.ltb_lt. rewrite length_app. cbn. lia. Qed.

Lemma parse_record_step m p r info :
  holds m p r -> info_ok info ->
  info_ok (parse_record m p info) /\
  forall rs, after rs (parse_record m p info) = after (r :: rs) info.
Proof.
  intros [_ Hr] Hok. unfold parse_record, after.
  destruct r as [i a f|i a g|b s g f|a|t len]; destruct_and? Hr;
    repeat match goal with E : aget _ _ = _ |- _ => rewrite E; clear E end;
    repeat match goal with E : ld _ _ _ = _ |- _ => rewrite E; clear E end;
    cbn [Z.eqb Pos.eqb omap list_omap record_lapic record_io record_override foldl record_address].
  - destruct (length (local_apics info) <? _)%nat eqn:E; (split; [|intros rs]).
    + destruct Hok. split; cbn; [by apply length_snoc_le | done | done].
    + cbn. by rewrite <- app_assoc.
    + done.
    + f_equal. by apply take_full.
  - destruct (length (io_apics info) <? _)%nat eqn:E; (split; [|intros rs]).
    + destruct Hok. split; cbn; [done | by apply length_snoc_le | done].
    + cbn [io_apics local_apics interrupt_overrides local_apic_address]. by rewrite <- app_assoc.
    + done.
    + f_equal. by apply take_full.
  - destruct (length (interrupt_overrides info) <? _)%nat eqn:E; (split; [|intros rs]).
    + destruct Hok. split; cbn; [done | done | by apply length_snoc_le].
    + cbn [io_apics local_apics interrupt_overrides local_apic_address]. by rewrite <- app_assoc.
    + done.
    + f_equal. by apply take_full.
  - split; [destruct Hok; by split | done].
  - replace (t =? 0) with false by lia. replace (t =? 1) with false by lia.
    replace (t =? 2) with false by lia. by replace (t =? 5) with false by lia.
Qed.

Lemma record_size_min m p r : holds m p r -> 2 <= record_size r.
Proof. destruct r; cbn; intros [_ Hr]; lia. Qed.

Lemma records_size_nonneg m rs : forall p, holds_all m p rs -> 0 <= records_size rs.
Proof.
  induction rs as [|r rs IH]; intros p; cbn; [lia|]. intros [Hr Hrs].
  apply record_size_min in Hr. apply IH in Hrs. lia.
Qed.

Lemma parse_loop_records m rs : forall fuel p info,
  holds_all m p rs -> info_ok info -> records_size rs < Z.of_nat fuel ->
  parse_loop m fuel p (p + records_size rs) info = after rs info.
Proof.
  induction rs as [|r rs IH]; intros fuel p info Hrs Hok Hf.
  - destruct fuel as [|fuel]; [cbn in Hf; lia|]. cbn [parse_loop records_size].
    replace (p <? p + 0) with false by lia. unfold after. cbn. rewrite !app_nil_r.
    destruct Hok. rewrite !take_ge by done. by destruct info.
  - cbn [holds_all records_size] in *. destruct Hrs as [Hr Hrs].
    pose proof (record_size_min _ _ _ Hr). pose proof (records_size_nonneg _ _ _ Hrs).
    destruct fuel as [|fuel]; [lia|]. cbn [parse_loop].
    replace (p <? p + (record_size r + records_size rs)) with true by lia.
    destruct (Hr) as [-> _].
    replace (p + (record_size r + records_size rs) <? p + record_size r) with false by lia.
    replace (record_size r <? 2) with false by lia. cbn [orb].
    destruct (parse_record_step m p r info Hr Hok) as [Hok' <-].
    rewrite Z.add_assoc. apply IH; [done | done | lia].
Qed.

(** C34. The records of the interrupt controllers are read back: of a table that
    holds a sequence of records, [parse] returns the processors, the I/O
    controllers and the overrides in order, up to the 128, 8 and 16 that the
    arrays hold, and the last address of the local controller. *)
Theorem madt_roundtrip m h rs :
  holds_all m (h + sizeof_MADTHeader) rs ->
  sdt_length m h = sizeof_MADTHeader + records_size rs ->
  parse m (Some h) =
    {| local_apic_address := foldl record_address (ld 4 m (h + 36)) rs;
       local_apics := take (Z.to_nat CONFIG_MAX_CPUS) (omap record_lapic rs);
       io_apics := take max_io_apics (omap record_io rs);
       interrupt_overrides := take max_interrupt_overrides (omap record_override rs) |}.
Proof.
  intros Hrs Hl. unfold parse. rewrite Hl, Z.add_assoc.
  pose proof (records_size_nonneg _ _ _ Hrs).
  rewrite parse_loop_records; [done | done | split; cbn; lia |].
  unfold sizeof_MADTHeader. lia.
Qed.

(** Whatever bytes the table holds, the loop ends within its length and the
    arrays do not overflow. *)
Theorem madt_bounds m h :
  info_ok (parse m h) /\
  forall h' fuel, h = Some h' -> 0 <= sdt_length m h' -> (Z.to_nat (sdt_length m h') < fuel)%nat ->
    parse_loop m fuel (h' + sizeof_MADTHeader) (h' + sdt_length m h')
      {| local_apic_address := ld 4 m (h' + 36); local_apics := []; io_apics := [];
         interrupt_overrides := [] |} = parse m h.
Proof.
  assert (forall fuel ptr end_ info, info_ok info -> info_ok (parse_loop m fuel ptr end_ info)) as G.
  { induction fuel as [|fuel IH]; intros ptr end_ info Hok; cbn [parse_loop]; [done|].
    repeat case_match; try done. apply IH. destruct Hok as [L I O]. unfold parse_record.
    repeat case_match; split; cbn; try done; by apply length_snoc_le. }
  split; [destruct h; [apply G|]; split; cbn; lia|].
  intros h' fuel -> Hl Hf. unfold parse.
  assert (forall f1 f2 ptr end_ info, (Z.to_nat (end_ - ptr) < f1)%nat -> (Z.to_nat (end_ - ptr) < f2)%nat ->
    parse_loop m f1 ptr end_ info = parse_loop m f2 ptr end_ info) as F.
  { induction f1 as [|f1 IH]; intros f2 ptr end_ info H1 H2; [lia|].
    destruct f2 as [|f2]; [lia|]. cbn [parse_loop].
    destruct (ptr <? end_) eqn:E1; [|done]. destruct (_ || _) eqn:E2; [done|].
    bool_to_prop. apply IH; lia. }
  apply F; unfold sizeof_MADTHeader; lia.
Qed.

(** * Tables in memory *)

Definition put_bytes (p : Z) (l : list Z) (m : bmem) : bmem :=
  foldr (fun ib m => aset m (p + ib.1) ib.2) m (imap (fun i b => (Z.of_nat i, b)) l).

(** A header with the signature, the length and a checksum byte. *)
Definition put_header (p : Z) (sig : list Z) (len checksum : Z) (m : bmem) : bmem :=
  put_bytes (p + 9) [checksum] (st 4 (put_bytes p sig m) (p + 4) len).

(** A table with a processor, an I/O controller, an unknown record and an
    override. *)
Definition demo_madt : bmem :=
  put_bytes (0x100 + 44)
    [0; 8; 1; 7; 1; 0; 0; 0;   1; 12; 2; 0; 0; 0; 0xc0; 0xfe; 0; 0; 0; 0;   4; 6; 255; 0; 0; 1;
     2; 10; 0; 9; 9; 0; 0; 0; 0x0d; 0]
    (put_bytes (0x100 + 36) [0; 0; 0xe0; 0xfe] (put_header 0x100 APIC 80 0 (afill 0))).

Definition demo_records : list record :=
  [RLocalApic 1 7 1; RIoApic 2 0xfec00000 0; ROther 4 6; ROverride 0 9 9 13].

Lemma madt_roundtrip_witness :
  parse demo_madt (Some 0x100) =
    {| local_apic_address := 0xfee00000;
       local_apics := [{| processor_id := 1; apic_id := 7; lapic_flags := 1; usable := true |}];
       io_apics := [{| io_id := 2; io_address := 0xfec00000; gsi_base := 0 |}];
       interrupt_overrides := [{| bus := 0; source := 9; gsi := 9; override_flags := 13 |}] |}.
Proof.
  etrans; [apply (madt_roundtrip demo_madt 0x100 demo_records)|].
  - cbn [holds_all demo_records record_size]. repeat split; try (vm_compute; reflexivity); lia.
  - vm_compute. reflexivity.
  - vm_compute. reflexivity.
Defined.

Lemma madt_bounds_witness :
  info_ok (parse demo_madt (Some 0x100)) /\
  parse_loop demo_madt 100 (0x100 + sizeof_MADTHeader) (0x100 + sdt_length demo_madt 0x100)
    {| local_apic_address := ld 4 demo_madt (0x100 + 36); local_apics := []; io_apics := [];
       interrupt_overrides := [] |} = parse demo_madt (Some 0x100).
Proof.
  split; [apply (madt_bounds demo_madt (Some 0x100))|].
  apply (proj2 (madt_bounds demo_madt (Some 0x100)) 0x100 100%nat);
    [reflexivity | vm_compute; discriminate | vm_compute; lia].
Defined.

(** A header alone: its bytes sum to zero. *)
Definition demo_table : bmem := put_header 0 HPET 36 171 (afill 0).

Lemma checksum_detects_change_witness :
  validate_sdt_checksum (aset demo_table 20 1) 0 = false.
Proof.
  apply (checksum_detects_change demo_table 0 20 1);
    [vm_compute; reflexivity | vm_compute; split; [discriminate | reflexivity] | lia
    | vm_compute; split; [discriminate | reflexivity] | lia | vm_compute; discriminate].
Defined.

(** A root table whose length is less than its header has a wrapped number of
    entries. *)
Example entry_count_wraps :
  entry_count (put_header 0 XSDT 20 0 (afill 0)) 0 8 = 4294967294.
Proof. vm_compute. reflexivity. Qed.

(** A root pointer at 0x1000, an old root table at 0x2000 that lists one damaged
    table at 0x3000: the search returns it, the enumeration does not see it. *)
Definition demo_acpi : bmem :=
  put_header 0x3000 APIC 44 1
    (put_bytes 0x2024 [0; 0x30; 0; 0] (put_header 0x2000 RSDT 40 107
      (put_bytes 0x1010 [0; 0x20; 0; 0] (put_bytes 0x1008 [193] (put_bytes 0x1000 RSDP_SIGNATURE (afill 0)))))).

Example find_table_unchecked :
  validate_rsdp_checksum demo_acpi 0x1000 = true /\
  find_table demo_acpi 0 (Some 0x1000) APIC = Some 0x3000 /\
  validate_sdt_checksum demo_acpi 0x3000 = false /\
  madt_found (enumerate demo_acpi 0 (Some 0x1000)) = false.
Proof. vm_compute. done. Qed.

(** A record of two bytes at the end of the table: the processor is read from the
    bytes behind it. *)
Definition demo_short : bmem := put_bytes (0x100 + 44) [0; 2; 3; 4; 1] (put_header 0x100 APIC 46 0 (afill 0)).

Example record_read_past_end :
  local_apics (parse demo_short (Some 0x100)) =
    [{| processor_id := 3; apic_id := 4; lapic_flags := 1; usable := true |}].
Proof. vm_compute. reflexivity. Qed.
