(* ===== verification/Gdt.v ===== *)
(** Segment descriptors, task state segments and per-CPU blocks
    ([arch/x86_64/gdt.cpp], [gdt.hpp]) on raw memory.

    The descriptor table and the per-CPU blocks are bytes at two addresses.
    What the processor reads from them (the fields of a descriptor, the stack
    pointers and the I/O permission bits of a task state segment) is defined
    beside the code that writes them.  Below, the byte-level
    [set_kernel_entry_stack] is shown to implement the one that the scheduler
    is verified with. *)
From S2P Require Import Prelude Bytes Task.

(** enum GDTIndex *)
Definition GDT_NULL : Z := 0.
Definition GDT_KERNEL_CODE : Z := 1.
Definition GDT_KERNEL_DATA : Z := 2.
Definition GDT_USER_DATA_32 : Z := 3.
Definition GDT_USER_DATA : Z := 4.
Definition GDT_USER_CODE : Z := 5.
Definition GDT_TSS_FIRST : Z := 6.

Definition gdt_selector (idx : Z) : Z := wrap 16 (idx * 8).

Definition gdt_total_entries : Z := 6 + 2 * CONFIG_MAX_CPUS.

Definition CONFIG_DOUBLE_FAULT_STACK_SIZE : Z := 4096.

(** The packed structure: [reserved0] at 0, [rsp] at 4, [reserved1] at 28,
    [ist] at 36, [reserved2] at 92, [reserved3] at 100, [iopb_offset] at 102. *)
Definition TSS_rsp : Z := 4.
Definition TSS_ist : Z := 36.
Definition TSS_iopb_offset : Z := 102.
Definition sizeof_TSS : Z := 104.

(** struct PerCPU: [syscall_rsp], [user_rsp_save], [tss], [stack], [df_stack] *)
Definition PerCPU_tss : Z := 16.
Definition PerCPU_stack : Z := PerCPU_tss + sizeof_TSS.
Definition PerCPU_df_stack : Z := PerCPU_stack + CONFIG_KERNEL_STACK_SIZE.
Definition sizeof_PerCPU : Z := PerCPU_df_stack + CONFIG_DOUBLE_FAULT_STACK_SIZE.

Record GDTEntry := {
  limit_low : Z; base_low : Z; base_mid : Z; access : Z; flags_limit_high : Z; base_high : Z;
}.

Definition make_gdt_entry (base limit access flags : Z) : GDTEntry := {|
  limit_low := Z.land limit 0xFFFF;
  base_low := Z.land base 0xFFFF;
  base_mid := Z.land (Z.shiftr base 16) 0xFF;
  access := access;
  flags_limit_high :=
    Z.lor (Z.shiftl (Z.land flags 0xF) 4) (Z.land (Z.shiftr limit 16) 0xF);
  base_high := Z.land (Z.shiftr base 24) 0xFF |}.

(** Assignment of the six fields of the entry at [a]. *)
Definition store_entry (a : Z) (e : GDTEntry) (m : bmem) : bmem :=
  let m := st 2 m a (limit_low e) in
  let m := st 2 m (a + 2) (base_low e) in
  let m := st 1 m (a + 4) (base_mid e) in
  let m := st 1 m (a + 5) (access e) in
  let m := st 1 m (a + 6) (flags_limit_high e) in
  st 1 m (a + 7) (base_high e).

(** The registers that the code loads.  [data_selector] stands for ds, es, fs,
    gs and ss, which all get one value. *)
Record Cpu := {
  gdtr_limit : Z; gdtr_base : Z;
  cs : Z; data_selector : Z; tr : Z;
  gs_base : Z; kernel_gs_base : Z;
}.

Record gdt_state := { gdt_mem : bmem; gdt_initialized : bool }.

Section Gdt.

(** The addresses of the arrays [gdt] and [percpu]. *)
Context (gdt percpu : Z).

Definition gdt_at (i : Z) : Z := gdt + 8 * i.
Definition percpu_at (cpu : Z) : Z := percpu + sizeof_PerCPU * cpu.
Definition tss_at (cpu : Z) : Z := percpu_at cpu + PerCPU_tss.
Definition stack_top_of (cpu : Z) : Z := percpu_at cpu + PerCPU_stack + CONFIG_KERNEL_STACK_SIZE.
Definition df_stack_top (cpu : Z) : Z :=
  percpu_at cpu + PerCPU_df_stack + CONFIG_DOUBLE_FAULT_STACK_SIZE.

Definition write_tss_descriptor (gdt_index tss_base : Z) (m : bmem) : bmem :=
  let m := store_entry (gdt_at gdt_index)
    {| limit_low := sizeof_TSS - 1;
       base_low := Z.land tss_base 0xFFFF;
       base_mid := Z.land (Z.shiftr tss_base 16) 0xFF;
       access := 0x89;
       flags_limit_high := 0;
       base_high := Z.land (Z.shiftr tss_base 24) 0xFF |} m in
  let high := gdt_at (gdt_index + 1) in
  let m := st 4 m high (wrap 32 (Z.shiftr tss_base 32)) in
  st 4 m (high + 4) 0.

Definition init_tss (cpu_index : Z) (m : bmem) : bmem :=
  let tss := tss_at cpu_index in
  let m := for_z 0 (sizeof_TSS / 8) (fun i m => st64 m (tss + 8 * i) 0) m in
  let m := st64 m (tss + TSS_rsp) (stack_top_of cpu_index) in
  let m := st64 m (tss + TSS_ist) (df_stack_top cpu_index) in
  write_tss_descriptor (GDT_TSS_FIRST + cpu_index * 2) tss m.

Definition setup_percpu (cpu_index : Z) (m : bmem) : bmem :=
  st64 m (percpu_at cpu_index) (stack_top_of cpu_index).

(** Both MSRs get the low and the high half of the block's address. *)
Definition load_percpu_gs_base (cpu_index : Z) (c : Cpu) : Cpu :=
  let base := percpu_at cpu_index in
  let lo := wrap 32 base in
  let hi := wrap 32 (Z.shiftr base 32) in
  let v := Z.lor (Z.shiftl hi 32) lo in
  {| gdtr_limit := gdtr_limit c; gdtr_base := gdtr_base c; cs := cs c;
     data_selector := data_selector c; tr := tr c; gs_base := v; kernel_gs_base := v |}.

Definition fixed_entries (m : bmem) : bmem :=
  let m := store_entry (gdt_at GDT_KERNEL_CODE) (make_gdt_entry 0 0 0x9A 0x2) m in
  let m := store_entry (gdt_at GDT_KERNEL_DATA) (make_gdt_entry 0 0 0x92 0x0) m in
  let m := store_entry (gdt_at GDT_USER_DATA_32) (make_gdt_entry 0 0 0xF2 0x0) m in
  let m := store_entry (gdt_at GDT_USER_DATA) (make_gdt_entry 0 0 0xF2 0x0) m in
  store_entry (gdt_at GDT_USER_CODE) (make_gdt_entry 0 0 0xFA 0x2) m.

Definition init_tables (m : bmem) : bmem :=
  let m := for_z 0 gdt_total_entries (fun i m => st64 m (gdt_at i) 0) m in
  let m := fixed_entries m in
  for_z 0 CONFIG_MAX_CPUS (fun cpu m => init_tss cpu (setup_percpu cpu m)) m.

Definition init_gdt (c : Cpu) (s : gdt_state) : Cpu * gdt_state :=
  let s := if gdt_initialized s then s
           else {| gdt_mem := init_tables (gdt_mem s); gdt_initialized := true |} in
  ({| gdtr_limit := wrap 16 (gdt_total_entries * 8 - 1); gdtr_base := gdt;
      cs := gdt_selector GDT_KERNEL_CODE; data_selector := gdt_selector GDT_KERNEL_DATA;
      tr := tr c; gs_base := gs_base c; kernel_gs_base := kernel_gs_base c |}, s).

Definition load_tss (cpu_index : Z) (c : Cpu) : Cpu :=
  if CONFIG_MAX_CPUS <=? cpu_index then c
  else
    let tss_gdt_idx := GDT_TSS_FIRST + cpu_index * 2 in
    load_percpu_gs_base cpu_index
      {| gdtr_limit := gdtr_limit c; gdtr_base := gdtr_base c; cs := cs c;
         data_selector := data_selector c; tr := wrap 16 (tss_gdt_idx * 8);
         gs_base := gs_base c; kernel_gs_base := kernel_gs_base c |}.

(** The scheduler's view of the same function is [Task.set_kernel_entry_stack]. *)
Definition set_entry_stack (cpu_index stack_top : Z) (m : bmem) : bmem :=
  if CONFIG_MAX_CPUS <=? cpu_index then m
  else
    let stack_top := if stack_top =? 0 then stack_top_of cpu_index else stack_top in
    let m := st64 m (percpu_at cpu_index) stack_top in
    st64 m (tss_at cpu_index + TSS_rsp) stack_top.

(** * What the processor reads *)

Definition desc_limit (m : bmem) (a : Z) : Z := ld 2 m a + 2 ^ 16 * (ld 1 m (a + 6) mod 16).
Definition desc_base32 (m : bmem) (a : Z) : Z :=
  ld 2 m (a + 2) + 2 ^ 16 * ld 1 m (a + 4) + 2 ^ 24 * ld 1 m (a + 7).
(** A system descriptor has the upper half of its base in the next entry. *)
Definition desc_base64 (m : bmem) (a : Z) : Z := desc_base32 m a + 2 ^ 32 * ld 4 m (a + 8).
Definition desc_access (m : bmem) (a : Z) : Z := ld 1 m (a + 5).

(** The descriptor that a selector names. *)
Definition selected (c : Cpu) (selector : Z) : Z := gdtr_base c + selector.

(** The check of an I/O instruction outside ring 0 that accesses the byte
    [port]: the bit of the port in the map at [iopb_offset] is clear.  The two
    bytes the processor reads have to be within the limit of the segment. *)
Definition io_permitted (m : bmem) (tss limit port : Z) : bool :=
  let a := ld 2 m (tss + TSS_iopb_offset) + port / 8 in
  (a + 1 <=? limit) && negb (Z.testbit (aget m (tss + a)) (port mod 8)).

(** * Stores *)

#[local] Transparent st.
Lemma st_zero n x : forall m a, span a (Z.of_nat n) x -> aget (st n m a 0) x = 0.
Proof.
  unfold span. induction n as [|n IH]; intros m a Hx; [lia|].
  cbn [st]. change (0 mod 256) with 0. change (0 / 256) with 0.
  destruct (decide (x = a)) as [-> | Hne]; [|apply IH; lia].
  rewrite (st_only n) by (unfold span; lia). by rewrite aget_aset_eq.
Qed.
#[local] Opaque st.

Lemma split_base b :
  0 <= b < 2 ^ 64 ->
  Z.land b 0xFFFF + 2 ^ 16 * Z.land (Z.shiftr b 16) 0xFF
  + 2 ^ 24 * Z.land (Z.shiftr b 24) 0xFF + 2 ^ 32 * wrap 32 (Z.shiftr b 32) = b.
Proof.
  intros Hb. change 0xFFFF with (Z.ones 16). change 0xFF with (Z.ones 8).
  rewrite !Z.land_ones, !Z.shiftr_div_pow2 by lia. unfold wrap. zlia.
Qed.

Definition entry_ok (e : GDTEntry) : Prop :=
  0 <= limit_low e < 2 ^ 16 /\ 0 <= base_low e < 2 ^ 16 /\ 0 <= base_mid e < 256
  /\ 0 <= access e < 256 /\ 0 <= flags_limit_high e < 256 /\ 0 <= base_high e < 256.

Definition entry_at (m : bmem) (a : Z) (e : GDTEntry) : Prop :=
  ld 2 m a = limit_low e /\ ld 2 m (a + 2) = base_low e /\ ld 1 m (a + 4) = base_mid e
  /\ ld 1 m (a + 5) = access e /\ ld 1 m (a + 6) = flags_limit_high e
  /\ ld 1 m (a + 7) = base_high e.

Lemma store_entry_at a e m : entry_ok e -> entry_at (store_entry a e m) a e.
Proof.
  intros (? & ? & ? & ? & ? & ?). unfold entry_at, store_entry. cbv zeta.
  split_and!; repeat (rewrite ld_st_ne by lia); apply ld_st_eq; cbn; lia.
Qed.

Lemma store_entry_only a e m : only (span a 8) m (store_entry a e m).
Proof.
  intros x Hx. unfold store_entry, span in *. cbv zeta.
  by rewrite !st_only by (unfold span; lia).
Qed.

Lemma entry_frame P m m' a e :
  only P m m' -> (forall x, span a 8 x -> ~ P x) -> entry_at m a e -> entry_at m' a e.
Proof.
  unfold entry_at, span. intros Ho Hd.
  by rewrite 6!(ld_only _ _ _ _ _ Ho) by (unfold span; intros x Hx; apply Hd; lia).
Qed.

(** * One processor *)

(** What [setup_percpu] and [init_tss] leave for processor [cpu]. *)
Definition cpu_ready (cpu : Z) (m : bmem) : Prop :=
  ld64 m (percpu_at cpu) = stack_top_of cpu
  /\ ld64 m (tss_at cpu + TSS_rsp) = stack_top_of cpu
  /\ ld64 m (tss_at cpu + TSS_ist) = df_stack_top cpu
  /\ (forall i, 0 <= i < sizeof_TSS -> ~ span TSS_rsp 8 i -> ~ span TSS_ist 8 i ->
      aget m (tss_at cpu + i) = 0)
  /\ desc_base64 m (gdt_at (GDT_TSS_FIRST + cpu * 2)) = tss_at cpu
  /\ desc_limit m (gdt_at (GDT_TSS_FIRST + cpu * 2)) = sizeof_TSS - 1
  /\ desc_access m (gdt_at (GDT_TSS_FIRST + cpu * 2)) = 0x89.

(** The bytes of its block before the stacks, and its two descriptors. *)
Definition cpu_bytes (cpu x : Z) : Prop :=
  span (percpu_at cpu) PerCPU_stack x \/ span (gdt_at (GDT_TSS_FIRST + cpu * 2)) 16 x.

(** The two arrays fit into the address space and do not overlap. *)
Definition tables_apart : Prop :=
  0 <= gdt /\ 0 <= percpu /\ percpu + sizeof_PerCPU * CONFIG_MAX_CPUS < 2 ^ 64
  /\ (gdt + 8 * gdt_total_entries <= percpu
      \/ percpu + sizeof_PerCPU * CONFIG_MAX_CPUS <= gdt).

Ltac places := unfold cpu_bytes, span, stack_top_of, df_stack_top, tss_at, percpu_at, gdt_at,
  tables_apart, PerCPU_df_stack, sizeof_PerCPU, PerCPU_df_stack, PerCPU_stack, PerCPU_tss,
  sizeof_TSS, TSS_rsp, TSS_ist, TSS_iopb_offset, gdt_total_entries, GDT_TSS_FIRST,
  CONFIG_KERNEL_STACK_SIZE, CONFIG_DOUBLE_FAULT_STACK_SIZE, CONFIG_MAX_CPUS in *.

Lemma tss_descriptor_spec i tss m :
  0 <= tss < 2 ^ 64 ->
  let m' := write_tss_descriptor i tss m in
  only (span (gdt_at i) 16) m m' /\ desc_base64 m' (gdt_at i) = tss
  /\ desc_limit m' (gdt_at i) = sizeof_TSS - 1 /\ desc_access m' (gdt_at i) = 0x89.
Proof.
  intros Ht m'. unfold m', write_tss_descriptor. cbv zeta.
  set (e := {| limit_low := _ |}). set (a := gdt_at i).
  replace (gdt_at (i + 1)) with (a + 8) by (unfold a, gdt_at; lia).
  assert (entry_ok e) as He.
  { unfold entry_ok, e; cbn [limit_low base_low base_mid access flags_limit_high base_high].
    change 0xFFFF with (Z.ones 16). change 0xFF with (Z.ones 8).
    rewrite !Z.land_ones by lia. unfold sizeof_TSS. split_and!; zlia. }
  assert (entry_at (st 4 (st 4 (store_entry a e m) (a + 8) (wrap 32 (Z.shiftr tss 32))) (a + 8 + 4) 0) a e)
    as (E1 & E2 & E3 & E4 & E5 & E6).
  { eapply (entry_frame (span (a + 8) 8)); [|unfold span; lia|by apply store_entry_at].
    intros x Hx. unfold span in Hx. by rewrite !st_only by (unfold span; lia). }
  split_and!.
  - intros x Hx. unfold span in Hx. rewrite !st_only by (unfold span; lia).
    apply store_entry_only. unfold span. lia.
  - unfold desc_base64, desc_base32. rewrite E2, E3, E6.
    rewrite (ld_st_ne 4 4) by lia. rewrite ld_st_eq by (apply (wrap_range 32); lia).
    by apply split_base.
  - unfold desc_limit. by rewrite E1, E5.
  - unfold desc_access. by rewrite E4.
Qed.

(** [n] words from [a] are zero, the bytes elsewhere are kept. *)
Lemma zero_words_spec n a m :
  0 <= n ->
  let m' := for_z 0 n (fun i m => st64 m (a + 8 * i) 0) m in
  only (span a (8 * n)) m m' /\ forall x, span a (8 * n) x -> aget m' x = 0.
Proof.
  intros Hn m'. unfold m'.
  apply (for_z_inv (fun k m' => only (span a (8 * k)) m m' /\ forall x, span a (8 * k) x -> aget m' x = 0));
    [done| |].
  - split; [done|]. unfold span. lia.
  - intros i t Hi [Ho Hz]. split.
    + intros x Hx. rewrite st_only by (unfold span in *; lia). apply Ho. unfold span in *. lia.
    + intros x Hx. destruct (decide (span (a + 8 * i) 8 x)) as [Hy|Hy]; [by apply st_zero|].
      rewrite st_only by done. apply Hz. unfold span in *. lia.
Qed.

Lemma cpu_frame P cpu m m' :
  only P m m' -> (forall x, cpu_bytes cpu x -> ~ P x) -> cpu_ready cpu m -> cpu_ready cpu m'.
Proof.
  intros Ho Hd (E1 & E2 & E3 & E4 & E5 & E6 & E7).
  assert (forall n a, (forall x, span a (Z.of_nat n) x -> cpu_bytes cpu x) -> ld n m' a = ld n m a) as L.
  { intros n a Ha. eapply ld_only; [exact Ho|]. auto. }
  unfold cpu_ready, desc_base64, desc_base32, desc_limit, desc_access in *.
  rewrite !L by (places; lia). split_and!; try done.
  intros i Hi H1 H2. rewrite Ho; [auto|]. apply Hd. places. lia.
Qed.

Lemma init_cpu_spec cpu m :
  tables_apart -> 0 <= cpu < CONFIG_MAX_CPUS ->
  let m' := init_tss cpu (setup_percpu cpu m) in
  only (cpu_bytes cpu) m m' /\ cpu_ready cpu m'.
Proof.
  intros Ha Hc m'. unfold m', init_tss, setup_percpu. cbv zeta.
  set (m1 := st64 m _ _).
  change (sizeof_TSS / 8) with 13. destruct (zero_words_spec 13 (tss_at cpu) m1) as [O2 Z2]; [done|]. set (m2 := for_z _ _ _ _) in *.
  set (m3 := st64 m2 _ _). set (m4 := st64 m3 _ _).
  destruct (tss_descriptor_spec (GDT_TSS_FIRST + cpu * 2) (tss_at cpu) m4) as (O5 & B & L & A).
  { places. lia. }
  set (m5 := write_tss_descriptor _ _ _) in *.
  assert (forall n a, span (percpu_at cpu) (PerCPU_stack - Z.of_nat n + 1) a -> ld n m5 a = ld n m4 a) as F5.
  { intros n a Hn. eapply ld_only; [exact O5|]. places. lia. }
  assert (0 <= stack_top_of cpu < 2 ^ 64 /\ 0 <= df_stack_top cpu < 2 ^ 64) as [Hs Hdf] by (places; lia).
  split; [|split_and!; try done].
  - intros x Hx. rewrite O5 by (places; lia). unfold m4. rewrite st_only by (places; lia).
    unfold m3. rewrite st_only by (places; lia). rewrite O2 by (places; lia).
    unfold m1. apply st_only. places. lia.
  - rewrite F5 by (places; lia). unfold m4, m3. rewrite !ld_st_ne by (places; lia).
    rewrite (ld_only 8 _ _ _ _ O2) by (places; lia). by apply ld64_st64.
  - rewrite F5 by (places; lia). unfold m4, m3. rewrite ld_st_ne by (places; lia). by apply ld64_st64.
  - rewrite F5 by (places; lia). apply ld64_st64. places. lia.
  - intros i Hi H1 H2. rewrite O5 by (places; lia). unfold m4. rewrite st_only by (places; lia).
    unfold m3. rewrite st_only by (places; lia). apply Z2. places. lia.
Qed.

(** * The tables *)

Definition table_bytes (x : Z) : Prop :=
  span gdt (8 * gdt_total_entries) x
  \/ exists cpu, 0 <= cpu < CONFIG_MAX_CPUS /\ span (percpu_at cpu) PerCPU_stack x.

(** The descriptors that all processors share. *)
Definition fixed_ready (m : bmem) : Prop :=
  ld64 m (gdt_at GDT_NULL) = 0
  /\ entry_at m (gdt_at GDT_KERNEL_CODE) (make_gdt_entry 0 0 0x9A 0x2)
  /\ entry_at m (gdt_at GDT_KERNEL_DATA) (make_gdt_entry 0 0 0x92 0x0)
  /\ entry_at m (gdt_at GDT_USER_DATA_32) (make_gdt_entry 0 0 0xF2 0x0)
  /\ entry_at m (gdt_at GDT_USER_DATA) (make_gdt_entry 0 0 0xF2 0x0)
  /\ entry_at m (gdt_at GDT_USER_CODE) (make_gdt_entry 0 0 0xFA 0x2).

Lemma fixed_frame P m m' :
  only P m m' -> (forall x, span gdt 48 x -> ~ P x) -> fixed_ready m -> fixed_ready m'.
Proof.
  intros Ho Hd (E0 & E1 & E2 & E3 & E4 & E5). unfold fixed_ready.
  split_and!; try (eapply entry_frame; [exact Ho| |eassumption]);
    [rewrite <- E0; eapply ld_only; [exact Ho|]|..]; intros x Hx; apply Hd; revert Hx;
    unfold GDT_NULL, GDT_KERNEL_CODE, GDT_KERNEL_DATA, GDT_USER_DATA_32, GDT_USER_DATA, GDT_USER_CODE;
    places; lia.
Qed.

Lemma fixed_entries_spec m :
  ld64 m gdt = 0 -> only (span gdt 48) m (fixed_entries m) /\ fixed_ready (fixed_entries m).
Proof.
  intros H0.
  assert (forall i e m j e', i <> j -> entry_at m (gdt_at j) e' ->
    entry_at (store_entry (gdt_at i) e m) (gdt_at j) e') as F.
  { intros i e m' j e' Hij. eapply entry_frame; [apply store_entry_only|]. places. lia. }
  unfold fixed_entries. cbv zeta. split.
  - intros x Hx. rewrite !store_entry_only; [done|..]; revert Hx;
      unfold GDT_KERNEL_CODE, GDT_KERNEL_DATA, GDT_USER_DATA_32, GDT_USER_DATA, GDT_USER_CODE;
      places; lia.
  - split_and!;
      [|repeat (apply F; [done|]); apply store_entry_at; vm_compute; split_and!; congruence..].
    rewrite <- H0. replace (gdt_at GDT_NULL) with gdt by (unfold gdt_at, GDT_NULL; lia).
    rewrite !(ld_only 8 _ _ _ _ (store_entry_only _ _ _)); [done|..];
      unfold GDT_KERNEL_CODE, GDT_KERNEL_DATA, GDT_USER_DATA_32, GDT_USER_DATA, GDT_USER_CODE;
      places; lia.
Qed.

Lemma init_tables_spec m :
  tables_apart ->
  only table_bytes m (init_tables m) /\ fixed_ready (init_tables m)
  /\ forall cpu, 0 <= cpu < CONFIG_MAX_CPUS -> cpu_ready cpu (init_tables m).
Proof.
  intros Ha. unfold init_tables. cbv zeta.
  destruct (zero_words_spec gdt_total_entries gdt m) as [O1 Z1]; [done|].
  change (for_z 0 gdt_total_entries (fun i m => st64 m (gdt_at i) 0) m)
    with (for_z 0 gdt_total_entries (fun i m => st64 m (gdt + 8 * i) 0) m).
  set (m1 := for_z 0 _ _ m) in *.
  destruct (fixed_entries_spec m1) as [O2 R2].
  { rewrite (ld_frame 8 (afill 0) m1); [reflexivity|]. intros x Hx. rewrite Z1; [by rewrite aget_afill|].
    places. lia. }
  set (m2 := fixed_entries m1) in *.
  apply (for_z_inv (fun k m' => only table_bytes m m' /\ fixed_ready m'
    /\ forall cpu, 0 <= cpu < k -> cpu_ready cpu m')); [done| |].
  - split_and!; [|done|lia]. intros x Hx. unfold table_bytes in Hx.
    rewrite O2, O1; [done|..]; contradict Hx; left; places; lia.
  - intros k t Hk (Ot & Rt & Ct). destruct (init_cpu_spec k t Ha Hk) as [Oc Rc]. split_and!.
    + intros x Hx. rewrite Oc; [by apply Ot|]. contradict Hx. destruct Hx as [Hx|Hx].
      * right. by exists k.
      * left. places. lia.
    + eapply fixed_frame; [exact Oc| |done]. places. lia.
    + intros cpu Hcpu. destruct (decide (cpu = k)) as [->|Hne]; [done|].
      eapply cpu_frame; [exact Oc| |apply Ct; lia]. places. lia.
Qed.

Lemma init_gdt_cases c s cpu :
  tables_apart -> gdt_initialized s = false -> 0 <= cpu < CONFIG_MAX_CPUS ->
  let c' := load_tss cpu (init_gdt c s).1 in
  let m := gdt_mem (init_gdt c s).2 in
  selected c' (tr c') = gdt_at (GDT_TSS_FIRST + cpu * 2) /\ cpu_ready cpu m
  /\ tr c' + 15 <= gdtr_limit c'
  /\ gs_base c' = percpu_at cpu /\ kernel_gs_base c' = percpu_at cpu
  /\ fixed_ready m
  /\ selected c' (cs c') = gdt_at GDT_KERNEL_CODE
  /\ selected c' (data_selector c') = gdt_at GDT_KERNEL_DATA
  /\ only table_bytes (gdt_mem s) m.
Proof.
  intros Ha Hi Hc c' m. destruct (init_tables_spec (gdt_mem s) Ha) as (O & R & C).
  assert (m = init_tables (gdt_mem s)) as ->.
  { unfold m, init_gdt. cbv zeta. by rewrite Hi. }
  assert (Z.lor (Z.shiftl (wrap 32 (Z.shiftr (percpu_at cpu) 32)) 32) (wrap 32 (percpu_at cpu))
          = percpu_at cpu) as G.
  { assert (0 <= percpu_at cpu < 2 ^ 64) as Hp by (places; lia).
    unfold wrap. rewrite <- !Z.land_ones by lia.
    apply Z.bits_inj'. intros n Hn. rewrite Z.lor_spec, Z.land_spec.
    destruct (decide (n < 32)).
    - rewrite Z.shiftl_spec_low, Z.ones_spec_low by lia. by rewrite andb_true_r.
    - rewrite Z.shiftl_spec, Z.land_spec, Z.shiftr_spec, (Z.ones_spec_high 32 n) by lia.
      replace (n - 32 + 32) with n by lia. rewrite andb_false_r, orb_false_r.
      destruct (decide (n - 32 < 32)); [by rewrite Z.ones_spec_low, andb_true_r by lia|].
      rewrite testbit_high by lia. done. }
  assert (CONFIG_MAX_CPUS <=? cpu = false) as Hb by lia.
  assert (wrap 16 ((GDT_TSS_FIRST + cpu * 2) * 8) = (GDT_TSS_FIRST + cpu * 2) * 8) as Ht.
  { apply wrap_small. places. lia. }
  unfold c', load_tss, init_gdt, selected. rewrite Hb. cbn [fst tr gdtr_base gdtr_limit gs_base
    kernel_gs_base cs data_selector load_percpu_gs_base]. rewrite Ht, G.
  split_and!; [unfold gdt_at; lia|by apply C| |reflexivity|reflexivity|exact R|reflexivity|reflexivity|exact O].
  change (wrap 16 _) with 2095. places. lia.
Qed.

(** The parts that interrupts depend on. *)
Lemma init_gdt_facts c s cpu :
  tables_apart -> gdt_initialized s = false -> 0 <= cpu < CONFIG_MAX_CPUS ->
  let c' := load_tss cpu (init_gdt c s).1 in
  let m := gdt_mem (init_gdt c s).2 in
  selected c' (tr c') = gdt_at (GDT_TSS_FIRST + cpu * 2) /\ cpu_ready cpu m /\ fixed_ready m
  /\ gdtr_base c' = gdt.
Proof.
  intros Ha Hi Hc c' m. destruct (init_gdt_cases c s cpu Ha Hi Hc) as (Tr & R & _ & _ & _ & Fx & _).
  split; [exact Tr|]. split; [exact R|]. split; [exact Fx|].
  unfold c', load_tss. by destruct (CONFIG_MAX_CPUS <=? cpu).
Qed.

(** C28. The first [init_gdt] and [load_tss] of processor [cpu] leave the
    processor with selectors inside the table, the task register on a
    descriptor whose base, put together from its four fields, is the
    processor's own task state segment, entry stacks in its own block, the gs
    base registers on that block, and the segment descriptors of the kernel and
    of user programs in place.  No byte outside the tables is written. *)
Theorem init_gdt_spec c s cpu :
  tables_apart -> gdt_initialized s = false -> 0 <= cpu < CONFIG_MAX_CPUS ->
  let c' := load_tss cpu (init_gdt c s).1 in
  let m := gdt_mem (init_gdt c s).2 in
  selected c' (tr c') = gdt_at (GDT_TSS_FIRST + cpu * 2) /\ cpu_ready cpu m
  /\ tr c' + 15 <= gdtr_limit c'
  /\ gs_base c' = percpu_at cpu /\ kernel_gs_base c' = percpu_at cpu
  /\ fixed_ready m
  /\ selected c' (cs c') = gdt_at GDT_KERNEL_CODE
  /\ selected c' (data_selector c') = gdt_at GDT_KERNEL_DATA
  /\ only table_bytes (gdt_mem s) m.
Proof. exact (init_gdt_cases c s cpu). Qed.

(** A later [init_gdt], as every further processor calls it, changes no
    byte. *)
Lemma init_gdt_again c s : gdt_initialized s = true -> (init_gdt c s).2 = s.
Proof. intros Hi. unfold init_gdt. by rewrite Hi. Qed.

(** * The entry stack *)

(** The scheduler's per-CPU records describe the bytes of the blocks. *)
Definition percpu_view {A} (m : bmem) (s : sched A) : Prop :=
  forall cpu, 0 <= cpu < CONFIG_MAX_CPUS ->
  aget (Task.percpu s) cpu =
    {| cpu_stack := percpu_at cpu + PerCPU_stack; syscall_rsp := ld64 m (percpu_at cpu);
       tss_rsp0 := ld64 m (tss_at cpu + TSS_rsp) |}.

(** Setting the entry stack in the per-CPU bytes implements the operation
    that the scheduler uses on its records, for every processor number and
    stack. *)
Theorem entry_stack_refines {A} cpu top m (s : sched A) :
  tables_apart -> 0 <= cpu -> 0 <= top < 2 ^ 64 -> percpu_view m s ->
  percpu_view (set_entry_stack cpu top m) (set_kernel_entry_stack cpu top s).
Proof.
  intros Ha Hc Ht Hv. unfold set_entry_stack, set_kernel_entry_stack.
  destruct (CONFIG_MAX_CPUS <=? cpu) eqn:E; [done|]. apply Z.leb_gt in E.
  rewrite (Hv cpu) by lia. cbn [cpu_stack]. cbv zeta.
  assert (percpu_at cpu + PerCPU_stack +64 CONFIG_KERNEL_STACK_SIZE = stack_top_of cpu) as ->.
  { unfold stack_top_of. apply wrap_small. places. lia. }
  set (v := if top =? 0 then _ else top).
  assert (0 <= v < 2 ^ 64) by (unfold v; case_match; [places; lia|done]).
  intros i Hi. cbn [Task.percpu set_percpu]. destruct (decide (i = cpu)) as [->|Hne].
  - rewrite aget_aset_eq. f_equal; [|by rewrite ld64_st64].
    rewrite ld_st_ne by (places; lia). by rewrite ld64_st64.
  - rewrite aget_aset_ne by done. rewrite (Hv i) by done.
    f_equal; rewrite !ld_st_ne by (places; lia); done.
Qed.

(** Whatever entry stacks are set later, the I/O permission map of a
    processor is the start of its task state segment: the offset of the map is
    0, below the limit, so the unused stack pointers at bytes 12 to 35 grant
    user programs the ports 96 to 287, the keyboard controller among them. *)
Theorem user_port_access c s cpu calls port :
  tables_apart -> gdt_initialized s = false -> 0 <= cpu < CONFIG_MAX_CPUS ->
  Forall (fun x => 0 <= x.1) calls -> 96 <= port < 288 ->
  let m := foldl (fun m x => set_entry_stack x.1 x.2 m) (gdt_mem (init_gdt c s).2) calls in
  io_permitted m (tss_at cpu) (desc_limit m (gdt_at (GDT_TSS_FIRST + cpu * 2))) port = true.
Proof.
  intros Ha Hi Hc Hcalls Hp m.
  assert (exists P, only P (init_tables (gdt_mem s)) m
    /\ forall x, P x -> exists i, 0 <= i < CONFIG_MAX_CPUS
         /\ (span (percpu_at i) 8 x \/ span (tss_at i + TSS_rsp) 8 x)) as (P & HP & HPx).
  { unfold m, init_gdt. cbv zeta. rewrite Hi. cbn [snd gdt_mem].
    generalize (init_tables (gdt_mem s)). clear m Hp. induction Hcalls as [|[i v] l H0 _ IH]; intros m.
    { exists (fun _ => False). split; [done|]. done. }
    cbn [foldl fst snd]. destruct (IH (set_entry_stack i v m)) as (P & HP & HPx).
    unfold set_entry_stack in HP. unfold set_entry_stack.
    destruct (CONFIG_MAX_CPUS <=? i) eqn:E; [by exists P|].
    exists (fun x => P x \/ span (percpu_at i) 8 x \/ span (tss_at i + TSS_rsp) 8 x). split.
    - intros x Hx. rewrite HP, !st_only by tauto. done.
    - intros x [Hx|Hx]; [by apply HPx|]. exists i. split; [cbn in H0; lia|done]. }
  destruct (init_tables_spec (gdt_mem s) Ha) as (_ & _ & C).
  destruct (C cpu Hc) as (_ & _ & _ & Z & _ & L & _). clear C. clearbody m.
  generalize dependent (init_tables (gdt_mem s)). intros m0 HP Z L.
  unfold io_permitted.
  assert (forall i, 0 <= i < sizeof_TSS -> ~ span TSS_rsp 8 i -> ~ span TSS_ist 8 i -> aget m (tss_at cpu + i) = 0) as Zm.
  { intros i Hi' H1 H2. rewrite HP; [by apply Z|]. intros (j & Hj & Hx)%HPx. revert Hx. places. lia. }
  assert (ld 2 m (tss_at cpu + TSS_iopb_offset) = 0) as ->.
  { rewrite (ld_frame 2 (afill 0) m); [reflexivity|]. intros x Hx. rewrite aget_afill.
    replace x with (tss_at cpu + (x - tss_at cpu)) by lia. apply Zm; places; lia. }
  unfold desc_limit in *. rewrite (ld_only 2 _ _ _ _ HP), (ld_only 1 _ _ _ _ HP), L.
  - assert (12 <= port / 8 < 36) as Hd by zlia. rewrite Z.add_0_l, Zm by (places; lia).
    rewrite Z.bits_0. cbn [negb]. rewrite andb_true_r. apply Z.leb_le. unfold sizeof_TSS. lia.
  - intros x Hx (j & Hj & Hy)%HPx. revert Hx Hy. places. lia.
  - intros x Hx (j & Hj & Hy)%HPx. revert Hx Hy. places. lia.
Qed.

End Gdt.

(** * A machine *)

Definition demo_gdt : Z := 0xffffffff80100000.
Definition demo_percpu : Z := 0xffffffff80200000.
Definition demo_cpu : Cpu := Build_Cpu 0 0 0 0 0 0 0.
Definition demo_gdt_state : gdt_state := {| gdt_mem := afill 0xCC; gdt_initialized := false |}.

Lemma demo_apart : tables_apart demo_gdt demo_percpu.
Proof. vm_compute. intuition congruence. Qed.

(** Processor 3. *)
Lemma init_gdt_spec_witness :
  let c' := load_tss demo_percpu 3 (init_gdt demo_gdt demo_percpu demo_cpu demo_gdt_state).1 in
  tr c' = 96 /\ gs_base c' = percpu_at demo_percpu 3.
Proof.
  assert (0 <= 3 < CONFIG_MAX_CPUS) as H3 by (unfold CONFIG_MAX_CPUS; lia).
  pose proof (init_gdt_spec demo_gdt demo_percpu demo_cpu demo_gdt_state 3 demo_apart eq_refl H3)
    as (_ & _ & _ & G & _).
  split; [reflexivity|exact G].
Defined.

(** Scheduler records for the blocks before any entry stack is set. *)
Definition demo_blocks : sched Z :=
  set_percpu (fun _ => for_z 0 CONFIG_MAX_CPUS (fun cpu p => aset p cpu
    {| cpu_stack := percpu_at demo_percpu cpu + PerCPU_stack; syscall_rsp := 0; tss_rsp0 := 0 |})
    (afill (Build_PerCPU 0 0 0))) boot_sched.

Lemma demo_blocks_view : percpu_view demo_percpu (afill 0) demo_blocks.
Proof.
  assert (forall a, ld64 (afill 0) a = 0) as L by (intros a; reflexivity).
  intros cpu Hc. rewrite !L. unfold demo_blocks. cbn [Task.percpu set_percpu]. revert cpu Hc.
  apply (for_z_inv (fun k p => forall cpu, 0 <= cpu < k -> aget p cpu =
    {| cpu_stack := percpu_at demo_percpu cpu + PerCPU_stack; syscall_rsp := 0; tss_rsp0 := 0 |}));
    [done|lia|].
  intros i p Hi Hp cpu Hc. destruct (decide (cpu = i)) as [->|Hne]; [by rewrite aget_aset_eq|].
  rewrite aget_aset_ne by done. apply Hp. lia.
Qed.

Lemma entry_stack_refines_witness :
  percpu_view demo_percpu (set_entry_stack demo_percpu 5 0x7000 (afill 0))
    (set_kernel_entry_stack 5 0x7000 demo_blocks).
Proof.
  apply (entry_stack_refines demo_gdt); [exact demo_apart|lia|lia|exact demo_blocks_view].
Defined.

Lemma user_port_access_witness :
  let m := foldl (fun m x => set_entry_stack demo_percpu x.1 x.2 m)
             (gdt_mem (init_gdt demo_gdt demo_percpu demo_cpu demo_gdt_state).2) [(2, 0x7000)] in
  io_permitted m (tss_at demo_percpu 2) (desc_limit m (gdt_at demo_gdt 10)) 0x60 = true.
Proof.
  apply (user_port_access demo_gdt demo_percpu demo_cpu demo_gdt_state 2 [(2, 0x7000)] 0x60);
    [exact demo_apart|reflexivity|unfold CONFIG_MAX_CPUS; lia| |lia].
  repeat constructor. cbn. lia.
Defined.
