(* ===== verification/Devices.v ===== *)
(** The devices on the board: the serial port ([arch/x86_64/serial.cpp]), the
    local APIC and the interval timer it is calibrated against ([lapic.cpp],
    [lapic.hpp]) and the interrupt controller and timer set up by [idt.cpp].

    What a device answers is not the kernel's code.  The operations take the
    devices as a parameter; the theorems are about the board [traced], which
    answers every read as any function of everything done before, and about
    devices that behave as their data sheets say.  Loops that wait for a device
    have fuel: [None] means that the device was not ready within it. *)
From S2P Require Import Prelude Bytes Text Keyboard.

(** I/O ports, the registers of the local APIC by offset, and the
    model-specific registers. *)
Record Board (D : Type) := Build_Board { ports : Device D; lapic : Device D; msrs : Device D }.
Arguments ports {D}.
Arguments lapic {D}.
Arguments msrs {D}.

(** * Serial port *)

Definition com1 : Z := 0x3f8.

Section Serial.
Context {D : Type} (b : Board D).

Definition is_transmit_empty (d : D) : bool * D :=
  let '(v, d) := inb (ports b) (com1 + 5) d in (negb (Z.land v 0x20 =? 0), d).

(** [while (!is_transmit_empty());] *)
Fixpoint wait_transmit (fuel : nat) (d : D) : option D :=
  match fuel with
  | O => None
  | S fuel => let '(ok, d) := is_transmit_empty d in if ok then Some d else wait_transmit fuel d
  end.

Definition write_char_locked (fuel : nat) (c : ascii) (d : D) : option D :=
  d ← wait_transmit fuel d; Some (outb (ports b) com1 (code c) d).

Definition serial_init (d : D) : D :=
  let d := outb (ports b) (com1 + 1) 0x00 d in
  let d := outb (ports b) (com1 + 3) 0x80 d in
  let d := outb (ports b) (com1 + 0) 0x03 d in
  let d := outb (ports b) (com1 + 1) 0x00 d in
  let d := outb (ports b) (com1 + 3) 0x03 d in
  let d := outb (ports b) (com1 + 2) 0xc7 d in
  outb (ports b) (com1 + 4) 0x0b d.

(** The string ends at the first NUL. *)
Fixpoint write_string_locked (fuel : nat) (text : list ascii) (d : D) : option D :=
  match text with
  | [] => Some d
  | c :: text =>
      if c =c NUL then Some d
      else
        d ← (if c =c chr 10 then write_char_locked fuel (chr 13) d else Some d);
        d ← write_char_locked fuel c d;
        write_string_locked fuel text d
  end.

(** [write_char] and [write_string] hold the serial lock around the call. *)
Definition write_char (fuel : nat) (c : ascii) (d : D) : option D := write_char_locked fuel c d.

Definition write_string (fuel : nat) (text : option (list ascii)) (d : D) : option D :=
  match text with None => Some d | Some text => write_string_locked fuel text d end.
End Serial.

(** * Interval timer *)

Section Pit.
Context {D : Type} (b : Board D).

Definition init_pit (d : D) : D :=
  let divisor := 1193 in
  let d := outb (ports b) 0x43 0x36 d in
  let d := outb (ports b) 0x40 (Z.land divisor 0xFF) d in
  outb (ports b) 0x40 (Z.shiftr divisor 8) d.

Definition pit_prepare_sleep (ticks : Z) (d : D) : D :=
  let d := outb (ports b) 0x43 0x34 d in
  let d := outb (ports b) 0x40 (Z.land ticks 0xFF) d in
  outb (ports b) 0x40 (Z.shiftr ticks 8) d.

(** One round of the loop: the latched count and the time it adds. *)
Definition pit_round (ticks last_count elapsed : Z) (d : D) : Z * Z * D :=
  let d := outb (ports b) 0x43 0x00 d in
  let '(lo, d) := inb (ports b) 0x40 d in
  let '(hi, d) := inb (ports b) 0x40 d in
  let current_count := wrap 16 (Z.lor lo (Z.shiftl hi 8)) in
  let elapsed :=
    if current_count <? last_count then elapsed +32 (last_count - current_count)
    else if last_count <? current_count then elapsed +32 (last_count + (ticks - current_count))
    else elapsed in
  (current_count, elapsed, d).

Fixpoint pit_loop (fuel : nat) (ticks last_count elapsed : Z) (d : D) : option D :=
  match fuel with
  | O => None
  | S fuel =>
      if elapsed <? ticks then
        let '(current_count, elapsed, d) := pit_round ticks last_count elapsed d in
        pit_loop fuel ticks current_count elapsed d
      else Some d
  end.

Definition pit_sleep_ticks (fuel : nat) (ticks : Z) (d : D) : option D :=
  pit_loop fuel ticks ticks 0 (pit_prepare_sleep ticks d).

(** The delay that is not used: it waits for bit 7 of the status. *)
Fixpoint pit_wait_loop (fuel : nat) (d : D) : option D :=
  match fuel with
  | O => None
  | S fuel =>
      let d := outb (ports b) 0x43 0xE2 d in
      let '(status, d) := inb (ports b) 0x40 d in
      if negb (Z.land status 0x80 =? 0) then Some d else pit_wait_loop fuel d
  end.

Definition pit_wait_10ms (fuel : nat) (d : D) : option D :=
  let count := 11931 in
  let d := outb (ports b) 0x43 0x30 d in
  let d := outb (ports b) 0x40 (Z.land count 0xFF) d in
  let d := outb (ports b) 0x40 (Z.shiftr count 8) d in
  pit_wait_loop fuel d.
End Pit.

(** * Legacy interrupt controller *)

Section Pic.
Context {D : Type} (b : Board D).

Definition io_delay (d : D) : D := (inb (ports b) 0x80 d).2.

Definition out_delayed (port v : Z) (d : D) : D := io_delay (outb (ports b) port v d).

Definition init_pic (d : D) : D :=
  let d := out_delayed 0x20 0x11 d in
  let d := out_delayed 0xA0 0x11 d in
  let d := out_delayed 0x21 0x20 d in
  let d := out_delayed 0xA1 0x28 d in
  let d := out_delayed 0x21 0x04 d in
  let d := out_delayed 0xA1 0x02 d in
  let d := out_delayed 0x21 0x01 d in
  let d := out_delayed 0xA1 0x01 d in
  let d := out_delayed 0x21 0xFF d in
  out_delayed 0xA1 0xFF d.

Definition unmask_keyboard_irq (d : D) : D :=
  let '(mask, d) := inb (ports b) 0x21 d in
  out_delayed 0x21 (wrap 8 (Z.land mask (Z.lnot 0x02))) d.
End Pic.

(** * Local APIC *)

Definition reg_id : Z := 0x020.
Definition reg_version : Z := 0x030.
Definition reg_eoi : Z := 0x0B0.
Definition reg_svr : Z := 0x0F0.
Definition reg_lvt_timer : Z := 0x320.
Definition reg_lvt_lint0 : Z := 0x350.
Definition reg_timer_initial : Z := 0x380.
Definition reg_timer_current : Z := 0x390.
Definition reg_timer_divider : Z := 0x3E0.

Section Lapic.
Context {D : Type} (b : Board D).

Definition write_reg (offset value : Z) (d : D) : D := outb (lapic b) offset value d.
Definition read_reg (offset : Z) (d : D) : Z * D := inb (lapic b) offset d.

Definition eoi (d : D) : D := write_reg reg_eoi 0 d.

Definition id (d : D) : Z * D := let '(v, d) := read_reg reg_id d in (Z.shiftr v 24, d).

Definition version (d : D) : Z * D := let '(v, d) := read_reg reg_version d in (Z.land v 0xFF, d).

(** The part of [init] after the page of the registers is mapped: the global
    enable bit of IA32_APIC_BASE and the spurious vector. *)
Definition lapic_enable (d : D) : D :=
  let '(v, d) := inb (msrs b) 0x1B d in
  let lo := Z.lor (wrap 32 v) (Z.shiftl 1 11) in
  let hi := wrap 32 (Z.shiftr v 32) in
  let d := outb (msrs b) 0x1B (Z.lor (Z.shiftl hi 32) lo) d in
  let '(svr, d) := read_reg reg_svr d in
  write_reg reg_svr (Z.lor svr 0x1FF) d.

(** The count that the last step programs. *)
Definition ticks_per_period (ticks_per_10ms frequency_hz : Z) : Z :=
  (ticks_per_10ms *32 100) / frequency_hz.

Definition lapic_init_timer (fuel : nat) (frequency_hz : Z) (d : D) : option D :=
  if frequency_hz =? 0 then Some d
  else
    let d := write_reg reg_timer_divider 0x3 d in
    let d := write_reg reg_timer_initial 0xFFFFFFFF d in
    d ← pit_sleep_ticks b fuel 11932 d;
    let '(current, d) := read_reg reg_timer_current d in
    let ticks_per_10ms := 0xFFFFFFFF -32 current in
    let d := write_reg reg_timer_initial 0 d in
    let d := write_reg reg_lvt_timer (Z.lor 32 (Z.shiftl 1 17)) d in
    let d := write_reg reg_timer_divider 0x3 d in
    Some (write_reg reg_timer_initial (ticks_per_period ticks_per_10ms frequency_hz) d).

Definition init_extint (d : D) : D :=
  let '(lint0, d) := read_reg reg_lvt_lint0 d in
  let lint0 := wrap 32 (Z.land lint0 (Z.lnot (Z.shiftl 1 16))) in
  let lint0 := wrap 32 (Z.land lint0 (Z.lnot 0x700)) in
  write_reg reg_lvt_lint0 (Z.lor lint0 0x700) d.
End Lapic.

(** * The board that records what is done *)

Inductive Act :=
| Out (port value : Z)
| In (port : Z)
| Store (reg value : Z)
| Load (reg : Z)
| WrMsr (msr value : Z)
| RdMsr (msr : Z).

(** Actions, the newest first; [env h a] is what the read [a] answers after
    the actions [h]. *)
Notation history := (list Act).

Definition traced (env : history -> Act -> Z) : Board history := {|
  ports := {| inb := fun p h => (env h (In p), In p :: h); outb := fun p v h => Out p v :: h |};
  lapic := {| inb := fun r h => (env h (Load r), Load r :: h); outb := fun r v h => Store r v :: h |};
  msrs := {| inb := fun r h => (env h (RdMsr r), RdMsr r :: h); outb := fun r v h => WrMsr r v :: h |} |}.

(** * Sending text *)

Section Sending.
Context (env : history -> Act -> Z).

(** The line status register says after [h] that a byte may be written. *)
Definition transmit_ready (h : history) : bool :=
  negb (Z.land (env h (In (com1 + 5))) 0x20 =? 0).

(** The bytes given to the serial port, in order. *)
Fixpoint sent (h : history) : list Z :=
  match h with
  | [] => []
  | Out p v :: h => if p =? com1 then sent h ++ [v] else sent h
  | _ :: h => sent h
  end.

(** Every byte was written right after the port had said that it was ready. *)
Fixpoint paced (h : history) : Prop :=
  match h with
  | [] => True
  | Out p v :: h =>
      (p = com1 -> match h with In q :: h => q = com1 + 5 /\ transmit_ready h = true | _ => False end)
      /\ paced h
  | _ :: h => paced h
  end.

(** A line feed is sent as carriage return and line feed. *)
Definition crlf (text : list ascii) : list ascii :=
  text ≫= (fun c => if c =c chr 10 then [chr 13; c] else [c]).

(** The port is ready after fewer than [n] reads of its status. *)
Definition ready_within (n : nat) (h : history) : Prop :=
  exists k, (k < n)%nat /\ transmit_ready (repeat (In (com1 + 5)) k ++ h) = true.

Lemma repeat_snoc {A} (x : A) n l : repeat x n ++ x :: l = repeat x (S n) ++ l.
Proof. induction n as [|n IH]; [done|]. cbn. by rewrite IH. Qed.

Lemma wait_transmit_spec n : forall h,
  ready_within n h ->
  exists h', wait_transmit (traced env) n h = Some (In (com1 + 5) :: h') /\ transmit_ready h' = true
             /\ sent h' = sent h /\ (paced h -> paced h').
Proof.
  induction n as [|n IH]; intros h (k & Hk & Hr); [lia|].
  cbn [wait_transmit is_transmit_empty traced ports inb].
  change (negb (Z.land (env h (In (com1 + 5))) 0x20 =? 0)) with (transmit_ready h).
  destruct (transmit_ready h) eqn:E; [by exists h|].
  destruct k as [|k]; [cbn [repeat app] in Hr; congruence|].
  destruct (IH (In (com1 + 5) :: h)) as (h' & E1 & E2 & E3 & E4).
  { exists k. split; [lia|]. by rewrite repeat_snoc. }
  exists h'. done.
Qed.

Lemma write_char_spec n c h :
  ready_within n h ->
  exists h', write_char_locked (traced env) n c h = Some h' /\ sent h' = sent h ++ [code c]
             /\ (paced h -> paced h').
Proof.
  intros Hr. destruct (wait_transmit_spec n h Hr) as (h' & E & Ht & Es & Hp).
  unfold write_char_locked. rewrite E. cbn [mbind option_bind traced ports outb].
  eexists. split; [done|]. cbn [sent paced]. rewrite Z.eqb_refl, Es. auto.
Qed.

(** When the port becomes ready within a bounded number of polls,
    [write_string_locked] returns, the bytes sent are those of the text with a
    carriage return before each line feed, in order, and each byte is written
    only after the port has said that its transmitter is empty. *)
Theorem serial_sends n text h :
  (forall h, ready_within n h) ->
  exists h', write_string_locked (traced env) n text h = Some h'
             /\ sent h' = sent h ++ map code (crlf (c_str text)) /\ (paced h -> paced h').
Proof.
  intros Hr. revert h. induction text as [|c text IH]; intros h.
  { exists h. split; [done|]. split; [by rewrite app_nil_r|done]. }
  cbn [write_string_locked c_str]. destruct (c =c NUL) eqn:E0.
  { exists h. split; [done|]. split; [by rewrite app_nil_r|done]. }
  assert (exists h1, (if c =c chr 10 then write_char_locked (traced env) n (chr 13) h else Some h) = Some h1
    /\ sent h1 = sent h ++ (if c =c chr 10 then [code (chr 13)] else []) /\ (paced h -> paced h1))
    as (h1 & E1 & S1 & P1).
  { destruct (c =c chr 10); [by apply write_char_spec|]. exists h. by rewrite app_nil_r. }
  destruct (write_char_spec n c h1 (Hr h1)) as (h2 & E2 & S2 & P2).
  destruct (IH h2) as (h3 & E3 & S3 & P3).
  rewrite E1. cbn [mbind option_bind]. rewrite E2. cbn [mbind option_bind]. exists h3.
  split; [done|]. split; [|auto]. rewrite S3, S2, S1. unfold crlf. cbn [mbind list_bind].
  destruct (c =c chr 10); cbn [map app]; by rewrite <- !app_assoc.
Qed.
End Sending.

(** * Sleeping

    Channel 0 in mode 2 with the reload value [ticks] holds
    [ticks - t mod ticks] at its [t]-th tick.  The latch command copies it, the
    two reads that follow give the low and the high byte. *)

Section Sleeping.
Context (env : history -> Act -> Z) (ticks : Z) (T : nat -> Z).

(** The number of latch commands. *)
Fixpoint latches (h : history) : nat :=
  match h with
  | Out 0x43 0 :: h => S (latches h)
  | _ :: h => latches h
  | [] => O
  end.

Definition pit_count (t : Z) : Z := ticks - t mod ticks.

(** The [i]-th latch command is given at tick [T i]. *)
Definition pit_answers : Prop := forall h,
  let h' := Out 0x43 0 :: h in
  env h' (In 0x40) = Z.land (pit_count (T (latches h))) 0xFF
  /\ env (In 0x40 :: h') (In 0x40) = Z.shiftr (pit_count (T (latches h))) 8.

Lemma count_bytes c : 0 <= c < 2 ^ 16 -> wrap 16 (Z.lor (Z.land c 0xFF) (Z.shiftl (Z.shiftr c 8) 8)) = c.
Proof.
  intros Hc. rewrite <- (wrap_small 16 c) at 3 by lia. f_equal.
  change 0xFF with (Z.ones 8). apply Z.bits_inj'. intros n Hn.
  rewrite Z.lor_spec, Z.land_spec. destruct (decide (n < 8)).
  - rewrite Z.shiftl_spec_low, Z.ones_spec_low by lia. by rewrite andb_true_r, orb_false_r.
  - rewrite Z.shiftl_spec, Z.shiftr_spec, Z.ones_spec_high by lia. rewrite andb_false_r. cbn [orb]. f_equal. lia.
Qed.

(** One round adds exactly the time since the last count, when that is less
    than a period. *)
Lemma pit_round_spec t h :
  0 < ticks < 2 ^ 16 -> pit_answers -> 0 <= t < ticks -> t <= T (latches h) < t + ticks ->
  pit_round (traced env) ticks (ticks - t) t h
  = (pit_count (T (latches h)), T (latches h), In 0x40 :: In 0x40 :: Out 0x43 0 :: h).
Proof.
  intros HN Hp Ht HT. destruct (Hp h) as [E1 E2].
  unfold pit_round. cbn [traced ports inb outb]. rewrite E1, E2.
  assert (pit_count (T (latches h))
    = if T (latches h) <? ticks then ticks - T (latches h) else 2 * ticks - T (latches h)) as Ec.
  { unfold pit_count. destruct (Z.ltb_spec (T (latches h)) ticks); [by rewrite Z.mod_small by lia|].
    replace (T (latches h) mod ticks) with (T (latches h) - ticks); [lia|].
    symmetry. rewrite <- (Z.mod_add _ (-1)) by lia. rewrite Z.mod_small; lia. }
  rewrite count_bytes by (rewrite Ec; case_match; lia).
  cbv zeta. f_equal. f_equal. rewrite Ec.
  destruct (Z.ltb_spec (T (latches h)) ticks).
  - destruct (Z.ltb_spec (ticks - T (latches h)) (ticks - t)); [rewrite wrap_small; lia|].
    destruct (Z.ltb_spec (ticks - t) (ticks - T (latches h))); lia.
  - destruct (Z.ltb_spec (2 * ticks - T (latches h)) (ticks - t)); [lia|].
    destruct (Z.ltb_spec (ticks - t) (2 * ticks - T (latches h))); [rewrite wrap_small|]; lia.
Qed.

Lemma pit_loop_stops fuel t last h :
  ticks <= t -> pit_loop (traced env) (S fuel) ticks last t h = Some h.
Proof. intros Ht. cbn [pit_loop]. destruct (Z.ltb_spec t ticks); [lia|done]. Qed.

(** The loop from tick [t], the one of the last latch command: it stops at the
    first latch command at or after [ticks]. *)
Lemma pit_loop_spec fuel : forall t h,
  0 < ticks < 2 ^ 16 -> pit_answers ->
  (forall i, (latches h <= i)%nat -> T i < T (S i) < T i + ticks) ->
  0 <= t < ticks -> t <= T (latches h) < t + ticks -> ticks - T (latches h) + 1 < Z.of_nat fuel ->
  (1 < fuel)%nat ->
  exists h' m, pit_loop (traced env) fuel ticks (ticks - t) t h = Some h'
    /\ latches h' = (latches h + S m)%nat /\ ticks <= T (latches h + m)
    /\ forall i, (i < m)%nat -> T (latches h + i) < ticks.
Proof.
  induction fuel as [|fuel IH]; intros t h HN Hp Hgap Ht HT Hf Hf1; [lia|].
  cbn [pit_loop]. replace (t <? ticks) with true by lia. rewrite pit_round_spec by done.
  set (h1 := In 0x40 :: In 0x40 :: Out 0x43 0 :: h).
  assert (latches h1 = S (latches h)) as E1 by done.
  pose proof (Hgap (latches h) (le_n _)) as Hg.
  destruct (decide (T (latches h) < ticks)) as [Hd|Hd].
  - unfold pit_count. rewrite Z.mod_small by lia.
    destruct (IH (T (latches h)) h1) as (h' & m & E & Hl & Hm & Hb); rewrite ?E1; try done; try lia.
    { intros i Hi. apply Hgap. lia. }
    rewrite E1 in *. exists h', (S m). split; [done|]. split; [lia|]. split.
    + by replace (latches h + S m)%nat with (S (latches h) + m)%nat by lia.
    + intros [|i] Hi; [by rewrite Nat.add_0_r|].
      replace (latches h + S i)%nat with (S (latches h) + i)%nat by lia. apply Hb. lia.
  - destruct fuel as [|fuel]; [lia|]. rewrite pit_loop_stops by lia. exists h1, 0%nat.
    rewrite Nat.add_0_r. split; [done|]. split; [lia|]. split; [lia|lia].
Qed.

(** C36. The sleep measures exactly.  When successive polls are less than one
    period of the counter apart, the loop ends, with the first poll at which at
    least [ticks] ticks have passed since the counter was loaded, however often
    the counter was reloaded in between. *)
Theorem pit_sleep_exact h :
  0 < ticks < 2 ^ 16 -> pit_answers -> 0 <= T (latches h) < ticks ->
  (forall i, (latches h <= i)%nat -> T i < T (S i) < T i + ticks) ->
  exists h' m, pit_sleep_ticks (traced env) (Z.to_nat ticks + 2) ticks h = Some h'
    /\ latches h' = (latches h + S m)%nat /\ ticks <= T (latches h + m)
    /\ forall i, (i < m)%nat -> T (latches h + i) < ticks.
Proof.
  intros HN Hp H0 Hgap. unfold pit_sleep_ticks, pit_prepare_sleep. cbn [traced ports outb].
  set (h1 := Out 0x40 _ :: _).
  assert (latches h1 = latches h) as E1 by done.
  pose proof (pit_loop_spec (Z.to_nat ticks + 2) 0 h1) as L. rewrite E1, Z.sub_0_r in L.
  apply L; done || lia.
Qed.
End Sleeping.

(** * The timer of the local APIC *)

(** [init_timer] returns and starts the timer in periodic mode on vector
    32, divided by 16.  When the timer counted [n] ticks while the interval
    timer counted at least 11932, the period is [n * 100 / frequency_hz] ticks
    without overflow, rounded down. *)
Theorem lapic_timer_spec env (T : nat -> Z) h n frequency_hz :
  pit_answers env 11932 T -> 0 <= T (latches h) < 11932 ->
  (forall i, (latches h <= i)%nat -> T i < T (S i) < T i + 11932) ->
  (forall h, env h (Load reg_timer_current) = 0xFFFFFFFF - n) ->
  0 <= n -> n * 100 < 2 ^ 32 -> 0 < frequency_hz < 2 ^ 32 ->
  exists h' m p,
    lapic_init_timer (traced env) (Z.to_nat 11934) frequency_hz h
    = Some (Store reg_timer_initial p :: Store reg_timer_divider 3
            :: Store reg_lvt_timer 0x20020 :: Store reg_timer_initial 0
            :: Load reg_timer_current :: h')
    /\ latches h' = (latches h + S m)%nat /\ 11932 <= T (latches h + m)%nat
    /\ p * frequency_hz <= n * 100 < (p + 1) * frequency_hz.
Proof.
  intros Hp H0 Hg Hn Hn0 Hn1 Hf. unfold lapic_init_timer, write_reg, read_reg.
  replace (frequency_hz =? 0) with false by lia. cbn [traced lapic outb inb].
  set (h1 := Store reg_timer_initial 0xFFFFFFFF :: Store reg_timer_divider 0x3 :: h).
  assert (latches h1 = latches h) as E1 by done.
  pose proof (pit_loop_spec env 11932 T (Z.to_nat 11934) 0 (pit_prepare_sleep (traced env) 11932 h1)) as L.
  change (latches (pit_prepare_sleep (traced env) 11932 h1)) with (latches h) in L.
  destruct L as (h' & m & E & Hl & HT & _); try done; try lia.
  unfold pit_sleep_ticks. change (11932 - 0) with 11932 in E. rewrite E. cbn [mbind option_bind].
  rewrite Hn. replace (0xFFFFFFFF -32 (0xFFFFFFFF - n)) with n by (symmetry; rewrite wrap_small; lia).
  unfold ticks_per_period. rewrite wrap_small by lia.
  exists h', m, (n * 100 / frequency_hz). split; [reflexivity|]. split; [done|]. split; [done|].
  pose proof (Z.div_mod (n * 100) frequency_hz). pose proof (Z.mod_pos_bound (n * 100) frequency_hz). nia.
Qed.

(** The local APIC lets external interrupts of the legacy controller pass:
    LINT0 is not masked and its delivery mode is ExtINT. *)
Lemma extint_passes env h :
  exists v, init_extint (traced env) h = Store reg_lvt_lint0 v :: Load reg_lvt_lint0 :: h
    /\ Z.testbit v 16 = false /\ Z.land (Z.shiftr v 8) 7 = 7.
Proof.
  eexists. split; [reflexivity|]. set (x := env h _). unfold wrap. rewrite <- !Z.land_ones by lia. split.
  - rewrite Z.lor_spec, !Z.land_spec, (Z.lnot_spec (Z.shiftl 1 16)) by lia.
    change (Z.testbit (Z.shiftl 1 16) 16) with true. change (Z.testbit 0x700 16) with false.
    by rewrite andb_false_r.
  - rewrite Z.shiftr_lor, Z.land_lor_distr_l. change (Z.shiftr 0x700 8) with 7. change (Z.land 7 7) with 7.
    apply Z.bits_inj'. intros i Hi. rewrite Z.lor_spec, Z.land_spec.
    destruct (Z.testbit 7 i); [apply orb_true_r|by rewrite andb_false_r].
Qed.

(** * The legacy interrupt controllers

    The 8259 as its data sheet has it: a command with bit 4 starts the
    initialisation, whose words come through the data port; later writes to the
    data port set the mask. *)

Record pic := Pic { pic_step : nat; pic_offset : Z; pic_mask : Z }.

Definition pic_command (v : Z) (p : pic) : pic :=
  if Z.testbit v 4 then Pic 1 (pic_offset p) 0 else p.

Definition pic_data (v : Z) (p : pic) : pic :=
  match pic_step p with
  | 1%nat => Pic 2 (Z.land v 0xF8) (pic_mask p)
  | 2%nat => Pic 3 (pic_offset p) (pic_mask p)
  | 3%nat => Pic 0 (pic_offset p) (pic_mask p)
  | _ => Pic 0 (pic_offset p) v
  end.

(** Master and slave behind their ports. *)
Definition pics : Device (pic * pic) := {|
  inb := fun port d => ((if port =? 0x21 then pic_mask d.1 else if port =? 0xA1 then pic_mask d.2 else 0), d);
  outb := fun port v d =>
    if port =? 0x20 then (pic_command v d.1, d.2)
    else if port =? 0x21 then (pic_data v d.1, d.2)
    else if port =? 0xA0 then (d.1, pic_command v d.2)
    else if port =? 0xA1 then (d.1, pic_data v d.2)
    else d |}.

Definition pic_board : Board (pic * pic) :=
  {| ports := pics; lapic := Build_Device _ (fun _ d => (0, d)) (fun _ _ d => d);
     msrs := Build_Device _ (fun _ d => (0, d)) (fun _ _ d => d) |}.

(** The vector that a request on line [irq] raises, if any. *)
Definition pic_vector (p : pic) (irq : Z) : option Z :=
  if Z.testbit (pic_mask p) irq then None else Some (pic_offset p + irq).

(** Whatever the controllers were doing, after [init_pic] no line raises an
    interrupt, and after [unmask_keyboard_irq] exactly line 1 of the master
    does, on vector 33. *)
Theorem pic_routes_keyboard d irq :
  0 <= irq < 8 ->
  let s := init_pic pic_board d in
  let s' := unmask_keyboard_irq pic_board s in
  (pic_vector s.1 irq = None /\ pic_vector s.2 irq = None)
  /\ pic_vector s'.1 irq = (if irq =? 1 then Some 33 else None) /\ pic_vector s'.2 irq = None.
Proof.
  intros Hi s s'. destruct d as [p q].
  assert (s = (Pic 0 32 0xFF, Pic 0 40 0xFF)) as Es by reflexivity.
  assert (s' = (Pic 0 32 0xFD, Pic 0 40 0xFF)) as Es' by reflexivity.
  rewrite Es', Es. clear Es Es' s s'.
  assert (irq = 0 \/ irq = 1 \/ irq = 2 \/ irq = 3 \/ irq = 4 \/ irq = 5 \/ irq = 6 \/ irq = 7) as Hirq by lia.
  repeat (destruct Hirq as [->|Hirq]; [by vm_compute|]). by subst irq.
Qed.

(** * A board *)

(** The serial port is ready on every second poll, the interval timer ticks 40
    times between two latch commands, and the local APIC's timer has counted
    625000 ticks. *)
Definition demo_tick (i : nat) : Z := 40 * Z.of_nat i.

Definition demo_board (h : history) (a : Act) : Z :=
  match a with
  | In p =>
      if p =? com1 + 5 then if Nat.even (length h) then 0x20 else 0
      else match h with
           | Out 0x43 0 :: h => Z.land (pit_count 11932 (demo_tick (latches h))) 0xFF
           | In 0x40 :: Out 0x43 0 :: h => Z.shiftr (pit_count 11932 (demo_tick (latches h))) 8
           | _ => 0
           end
  | Load _ => 0xFFFFFFFF - 625000
  | _ => 0
  end.

Lemma demo_ready h : ready_within demo_board 2 h.
Proof.
  destruct (Nat.even (length h)) eqn:E.
  - exists 0%nat. split; [lia|]. unfold transmit_ready. cbn. by rewrite E.
  - exists 1%nat. split; [lia|]. unfold transmit_ready, demo_board. cbn -[Nat.even].
    rewrite Nat.even_succ, <- Nat.negb_even, E. done.
Qed.

Lemma demo_pit : pit_answers demo_board 11932 demo_tick.
Proof. intros h. split; reflexivity. Qed.

Lemma serial_sends_witness :
  exists h', write_string_locked (traced demo_board) 2 [chr 72; chr 10] [] = Some h'
             /\ sent h' = [72; 13; 10] /\ (paced demo_board [] -> paced demo_board h').
Proof. apply (serial_sends demo_board 2 [chr 72; chr 10] []). exact demo_ready. Defined.

Lemma pit_sleep_exact_witness :
  exists h' m, pit_sleep_ticks (traced demo_board) (Z.to_nat 11932 + 2) 11932 [] = Some h'
    /\ latches h' = S m /\ 11932 <= demo_tick m /\ forall i, (i < m)%nat -> demo_tick i < 11932.
Proof.
  apply (pit_sleep_exact demo_board 11932 demo_tick []);
    [lia|exact demo_pit|unfold demo_tick; cbn [latches]; lia|unfold demo_tick; lia].
Defined.

Lemma lapic_timer_spec_witness :
  exists h' m p,
    lapic_init_timer (traced demo_board) (Z.to_nat 11934) 1000 []
    = Some (Store reg_timer_initial p :: Store reg_timer_divider 3
            :: Store reg_lvt_timer 0x20020 :: Store reg_timer_initial 0
            :: Load reg_timer_current :: h')
    /\ latches h' = S m /\ 11932 <= demo_tick m /\ p * 1000 <= 625000 * 100 < (p + 1) * 1000.
Proof.
  apply (lapic_timer_spec demo_board demo_tick [] 625000 1000);
    [exact demo_pit|unfold demo_tick; cbn [latches]; lia|unfold demo_tick; lia|reflexivity|lia|lia|lia].
Defined.

Lemma pic_routes_keyboard_witness :
  let s' := unmask_keyboard_irq pic_board (init_pic pic_board (Pic 2 8 0, Pic 0 0x70 3)) in
  pic_vector s'.1 1 = Some 33.
Proof. apply (pic_routes_keyboard (Pic 2 8 0, Pic 0 0x70 3) 1). lia. Defined.
