(* ===== verification/Idt.v ===== *)
(** The interrupt table and the handler of every interrupt
    ([arch/x86_64/idt.cpp], [idt.hpp]) and the path around the handler
    ([interrupts_asm.S]).

    The handler is where the clock, the scheduler, the timer wheel, the
    keyboard, page faults and the log meet: the state is the machine of
    [Syscall] with these parts beside it.  [lapic::id()] is the scheduler's
    input [lapic_id]. *)
From S2P Require Import Prelude MemoryMap Pmm PageAlloc Bytes KAlloc KMem Task IList Timer Vmm VfsBase Vfs Keyboard ProcTable Process Syscall Text Demangle Stacktrace Log Devices Gdt.

(** * The table *)

Record IDTEntry := {
  offset_low : Z; selector : Z; ist : Z; type_attr : Z; offset_mid : Z; offset_high : Z; zero : Z;
}.

Definition idt_entry (addr : Z) : IDTEntry := {|
  offset_low := Z.land addr 0xFFFF;
  selector := gdt_selector GDT_KERNEL_CODE;
  ist := 0;
  type_attr := 0x8E;
  offset_mid := Z.land (Z.shiftr addr 16) 0xFFFF;
  offset_high := Z.land (Z.shiftr addr 32) 0xFFFFFFFF;
  zero := 0 |}.

Definition set_ist (v : Z) (e : IDTEntry) : IDTEntry :=
  {| offset_low := offset_low e; selector := selector e; ist := v; type_attr := type_attr e;
     offset_mid := offset_mid e; offset_high := offset_high e; zero := zero e |}.

Record IDTR := { idtr_limit : Z; idtr_base : Z }.

(** [isr_stub_table]: the addresses of the 256 stubs; [base]: that of [idt]. *)
Definition init_idt (isr_stub_table : Z -> Z) (base : Z) (idt : arr IDTEntry) : IDTR * arr IDTEntry :=
  let idt := for_z 0 256 (fun i t => aset t i (idt_entry (isr_stub_table i))) idt in
  let idt := aset idt 8 (set_ist 1 (aget idt 8)) in
  ({| idtr_limit := 256 * 16 - 1; idtr_base := base |}, idt).

(** * Exceptions *)

Definition exception_names : list string :=
  ["divide-by-zero"; "debug"; "non-maskable-interrupt"; "breakpoint"; "overflow"; "bound-range";
   "invalid-opcode"; "device-not-available"; "double-fault"; "coprocessor-segment-overrun";
   "invalid-tss"; "segment-not-present"; "stack-segment-fault"; "general-protection-fault";
   "page-fault"; "reserved-15"; "x87-fpu-error"; "alignment-check"; "machine-check";
   "simd-fp-exception"; "virtualization-exception"; "control-protection"; "reserved-22";
   "reserved-23"; "reserved-24"; "reserved-25"; "reserved-26"; "reserved-27"; "reserved-28";
   "reserved-29"; "security-exception"; "reserved-31"]%string.

Definition exception_name (vec : Z) : option string :=
  if vec <? 32 then exception_names !! Z.to_nat vec else None.

Record InterruptFrame := {
  f_r15 : Z; f_r14 : Z; f_r13 : Z; f_r12 : Z; f_r11 : Z; f_r10 : Z; f_r9 : Z; f_r8 : Z;
  f_rdi : Z; f_rsi : Z; f_rbp : Z; f_rbx : Z; f_rdx : Z; f_rcx : Z; f_rax : Z;
  f_vector : Z; f_error_code : Z; f_rip : Z; f_cs : Z; f_rflags : Z;
}.

Definition sizeof_InterruptFrame : Z := 160.

(** A log statement of the handler: its label and the value or the text. *)
Definition note : Type := (string * (Z + string)).

Definition frame_notes (f : InterruptFrame) : list note :=
  [("vector", inl (f_vector f))]
  ++ (if f_vector f <? 32
      then [("exception", inr (default EmptyString (exception_names !! Z.to_nat (f_vector f))))] else [])
  ++ [("error_code", inl (f_error_code f)); ("rip", inl (f_rip f)); ("cs", inl (f_cs f));
      ("rflags", inl (f_rflags f)); ("rax", inl (f_rax f)); ("rbx", inl (f_rbx f));
      ("rcx", inl (f_rcx f)); ("rdx", inl (f_rdx f)); ("rsi", inl (f_rsi f));
      ("rdi", inl (f_rdi f)); ("rbp", inl (f_rbp f)); ("r8", inl (f_r8 f)); ("r9", inl (f_r9 f));
      ("r10", inl (f_r10 f)); ("r11", inl (f_r11 f)); ("r12", inl (f_r12 f)); ("r13", inl (f_r13 f));
      ("r14", inl (f_r14 f)); ("r15", inl (f_r15 f))]%string.

Definition fault_notes (cr2 error_code : Z) : list note :=
  [("cr2", inl cr2);
   ("page_fault_type",
    inr (if negb (Z.land error_code 1 =? 0)%Z then "protection-violation" else "non-present"));
   ("access", inr (if negb (Z.land error_code 2 =? 0)%Z then "write" else "read"))]%string.

(** * The handler *)

Record interrupts (S A F D : Type) := Interrupts {
  mach : machine S A F;
  clock : Uptime.clock;
  wheel : timer;
  klog : log;
  device : D;
}.
Arguments Interrupts {S A F D}.
Arguments mach {S A F D}.
Arguments clock {S A F D}.
Arguments wheel {S A F D}.
Arguments klog {S A F D}.
Arguments device {S A F D}.

(** The handler returns; it halts after a panic, with what the log printed; or
    it waits for ever (a lock that is held, a timer wheel that does not end). *)
Inductive handled (X : Type) :=
| Done (x : X)
| Panicked (l : log)
| Stuck.
Arguments Done {X}.
Arguments Panicked {X}.
Arguments Stuck {X}.

Section Handlers.
Context {S A F D : Type} `{PageRefs S} `{KernelAlloc A} `{VnodeFs F} `{Lens A S} `{Lens F A}.
Implicit Types (s : interrupts S A F D).

(** The devices; the kernel image for stack traces and the bytes below the
    demangler's buffer; [__FILE__] and the lines of the log statements. *)
Context (b : Board D) (img : Image) (below : nat -> ascii) (file : list ascii) (lines : string -> Z).

Definition set_device (f : D -> D) s : interrupts S A F D :=
  Interrupts (mach s) (clock s) (wheel s) (klog s) (f (device s)).
Definition set_kn (f : kernel S A F -> kernel S A F) s : interrupts S A F D :=
  Interrupts (with_kn (f (kn (mach s))) (mach s)) (clock s) (wheel s) (klog s) (device s).
Definition set_kb (f : keyboard -> keyboard) s : interrupts S A F D :=
  Interrupts (Machine (kn (mach s)) (f (kb (mach s))) (term (mach s)) (serial (mach s)))
    (clock s) (wheel s) (klog s) (device s).
Definition set_clock (f : Uptime.clock -> Uptime.clock) s : interrupts S A F D :=
  Interrupts (mach s) (f (clock s)) (wheel s) (klog s) (device s).
Definition set_wheel (w : timer) s : interrupts S A F D :=
  Interrupts (mach s) (clock s) w (klog s) (device s).

(** TORI_LOG_VALUE and TORI_LOG_TEXT_VALUE at level Panic, category "isr". *)
Definition log_note (now cpu : Z) (n : note) (l : log) : option log :=
  let '(label, v) := n in
  match v with
  | inl v => write_value now cpu Panic (Some (txt "isr")) (Some file) (lines label) (Some (txt label)) v l
  | inr t => write_text_value now cpu Panic (Some (txt "isr")) (Some file) (lines label)
               (Some (txt label)) (Some (txt t)) l
  end.

Fixpoint log_notes (now cpu : Z) (ns : list note) (l : log) : option log :=
  match ns with
  | [] => Some l
  | n :: ns => l ← log_note now cpu n l; log_notes now cpu ns l
  end.

Definition dump_frame (now cpu : Z) (f : InterruptFrame) (l : log) : option log :=
  log_notes now cpu (frame_notes f) l.

(** The part of [handle_exception] that does not return: [frame] is the
    address of the frame, [caller] the registers in the handler itself. *)
Definition die (frame : Z) (f : InterruptFrame) (extra : list note) (now cpu : Z) (caller : Regs)
    (l : log) : option log :=
  l ← dump_frame now cpu f l;
  let rsp_at_fault := frame +64 sizeof_InterruptFrame in
  l ← print_stack_trace_from img below {| rip_ := f_rip f; rsp_ := rsp_at_fault; rbp_ := f_rbp f |} l;
  l ← log_notes now cpu extra l;
  panic img below (Some (txt "isr")) file (lines "unhandled exception")
    (Some (txt "unhandled exception")) caller l.

Definition outcome_of_panic (r : option log) : handled (interrupts S A F D) :=
  match r with Some l => Panicked l | None => Stuck end.

Definition handle_exception (e : SysEnv) (frame : Z) (f : InterruptFrame) (cr2 : Z) (caller : Regs) s
    : handled (interrupts S A F D) :=
  let now := Uptime.uptime_ms (clock s) in
  let cpu := lapic_id (env e) in
  if f_vector f =? 14 then
    match page_fault e cr2 (f_error_code f) (kn (mach s)) with
    | Some k => Done (set_kn (fun _ => k) s)
    | None =>
        outcome_of_panic (die frame f (fault_notes cr2 (f_error_code f)) now cpu caller (klog s))
    end
  else outcome_of_panic (die frame f [] now cpu caller (klog s)).

Definition handle_interrupt (fuel : nat) (e : SysEnv) (frame : Z) (f : InterruptFrame) (cr2 : Z)
    (caller : Regs) s : handled (interrupts S A F D) :=
  let vec := wrap 8 (f_vector f) in
  if vec =? 32 then
    let s := set_clock (Uptime.tick (lapic_id (env e))) s in
    let s := set_kn (set_sch (flag_preempt (env e))) s in
    match Timer.tick fuel (lapic_id (env e)) (wheel s) with
    | Ret (_, w) => Done (set_device (eoi b) (set_wheel w s))
    | _ => Stuck
    end
  else if vec =? 33 then
    let '(sc, d) := inb (ports b) 0x60 (device s) in
    let s := set_device (fun _ => d) (set_kb (handle_irq sc) s) in
    Done (set_device (fun d => eoi b (outb (ports b) 0x20 0x20 d)) s)
  else if 32 <=? vec then Done (set_device (eoi b) s)
  else handle_exception e frame f cr2 caller s.

(** The rest of [isr_common_handler]: reschedule when asked to, then flush the
    log.  When another task is switched to, the flush runs once this one is
    resumed. *)
Definition isr_common_handler (fuel : nat) (e : SysEnv) (frame : Z) (f : InterruptFrame) (cr2 : Z)
    (caller : Regs) s : handled (Switch * interrupts S A F D) :=
  match handle_interrupt fuel e frame f cr2 caller s with
  | Done s =>
      let k := kn (mach s) in
      let '(sw, s) :=
        if sched_needs_preempt (env e) (sch k)
        then let '(sw, q) := sched_do_preempt (env e) (sch k) in
             (sw, set_kn (set_sch (fun _ => q)) s)
        else (Returns, s) in
      match sw with
      | Returns => Done (Returns, Interrupts (mach s) (clock s) (wheel s)
                                    (flush (lapic_id (env e)) (klog s)) (device s))
      | _ => Done (sw, s)
      end
  | Panicked l => Panicked l
  | Stuck => Stuck
  end.

(** [lapic::init]: the page of the registers is mapped in the kernel's address
    space, uncached; [None] when mapping panics.  The result is the address that
    [write_reg] and [read_reg] add offsets to. *)
Definition lapic_init (hhdm physical_base : Z) (v : vmm S) (d : D) : option (Z * vmm S * D) :=
  let lapic_base_virt := physical_to_virtual hhdm physical_base in
  v ← map_page lapic_base_virt physical_base
        (Z.lor (Z.lor (Z.lor Flags.Present Flags.Writable) Flags.CacheDisable) Flags.WriteThrough) 0 v;
  Some (lapic_base_virt, v, lapic_enable b d).
End Handlers.

Definition timer_tick_count (c : Uptime.clock) : Z := Uptime.uptime_ms c.
