(* ===== verification/IdtSpec.v ===== *)
(** What interrupts do: the gates lead to their stubs on the right stack, device
    interrupts are acknowledged once, a timer interrupt is a scheduling point,
    and an exception either resolves a copy-on-write fault or is reported in
    full. *)
From S2P Require Import Prelude MemoryMap Pmm PageAlloc Bytes KAlloc KMem Task IList Timer Vmm VfsBase Vfs Keyboard ProcTable Process Syscall Text Demangle Stacktrace Log LogSpec Devices Gdt Idt.

(** * Gates *)

(** The address that the processor jumps to, put together from the gate. *)
Definition gate_offset (e : IDTEntry) : Z := offset_low e + 2 ^ 16 * offset_mid e + 2 ^ 32 * offset_high e.

(** The stack it uses inside the kernel: the current one, or that of the
    interrupt stack table of the task state segment. *)
Definition gate_stack (m : bmem) (tss rsp : Z) (e : IDTEntry) : Z :=
  if ist e =? 0 then rsp else ld64 m (tss + TSS_ist + 8 * (ist e - 1)).

Lemma split_offset a :
  0 <= a < 2 ^ 64 -> gate_offset (idt_entry a) = a.
Proof.
  intros Ha. unfold gate_offset, idt_entry. cbn [offset_low offset_mid offset_high].
  change 0xFFFF with (Z.ones 16). change 0xFFFFFFFF with (Z.ones 32).
  rewrite !Z.land_ones, !Z.shiftr_div_pow2 by lia. zlia.
Qed.

Lemma init_idt_entry stubs base idt v :
  0 <= v < 256 ->
  aget (init_idt stubs base idt).2 v
  = if v =? 8 then set_ist 1 (idt_entry (stubs 8)) else idt_entry (stubs v).
Proof.
  intros Hv. unfold init_idt. cbv zeta. cbn [snd].
  set (t := for_z 0 256 _ idt).
  assert (forall i, 0 <= i < 256 -> aget t i = idt_entry (stubs i)) as Ht.
  { apply (for_z_inv (fun k t => forall i, 0 <= i < k -> aget t i = idt_entry (stubs i))); [lia|lia|].
    intros i t' Hi Hp j Hj. destruct (decide (j = i)) as [->|]; [by rewrite aget_aset_eq|].
    rewrite aget_aset_ne by done. apply Hp. lia. }
  destruct (Z.eqb_spec v 8) as [->|Hne].
  - by rewrite aget_aset_eq, Ht by lia.
  - by rewrite aget_aset_ne, Ht by lia.
Qed.

(** After [init_gdt], [load_tss] and [init_idt] on processor [cpu], every
    vector leads through a present ring-0 interrupt gate in the kernel code
    segment to its own stub, and the double fault alone runs on the
    processor's double-fault stack. *)
Theorem interrupt_gates gdt percpu stubs base idt c s cpu v rsp :
  tables_apart gdt percpu -> gdt_initialized s = false -> 0 <= cpu < CONFIG_MAX_CPUS ->
  0 <= v < 256 -> 0 <= stubs v < 2 ^ 64 ->
  let c' := load_tss percpu cpu (init_gdt gdt percpu c s).1 in
  let m := gdt_mem (init_gdt gdt percpu c s).2 in
  let (idtr, t) := init_idt stubs base idt in
  let e := aget t v in
  gate_offset e = stubs v /\ type_attr e = 0x8E /\ 16 * v + 15 <= idtr_limit idtr
  /\ entry_at m (selected c' (selector e)) (make_gdt_entry 0 0 0x9A 0x2)
  /\ gate_stack m (desc_base64 m (selected c' (tr c'))) rsp e
     = if v =? 8 then df_stack_top percpu cpu else rsp.
Proof.
  intros Ha Hi Hc Hv Hs c' m.
  destruct (init_idt stubs base idt) as [idtr t] eqn:E. intros e.
  assert (e = if v =? 8 then set_ist 1 (idt_entry (stubs 8)) else idt_entry (stubs v)) as Ee.
  { unfold e. rewrite <- (init_idt_entry stubs base idt v Hv). by rewrite E. }
  assert (idtr_limit idtr = 4095) as ->.
  { change idtr with (idtr, t).1. rewrite <- E. reflexivity. }
  destruct (init_gdt_facts gdt percpu c s cpu Ha Hi Hc) as (Tr & (_ & _ & Ist & _ & B & _) & Fx & Gb).
  fold c' m in Tr, Ist, B, Fx, Gb.
  rewrite Tr, B. unfold selected. rewrite Gb. split_and!.
  - rewrite Ee. destruct (Z.eqb_spec v 8) as [->|]; by apply split_offset.
  - rewrite Ee. by destruct (v =? 8).
  - lia.
  - replace (gdt + selector e) with (gdt_at gdt GDT_KERNEL_CODE); [apply Fx|].
    rewrite Ee. by destruct (v =? 8).
  - rewrite Ee. destruct (v =? 8); [|done]. unfold gate_stack. cbn [ist set_ist Z.eqb].
    change (8 * (1 - 1)) with 0. by rewrite Z.add_0_r.
Qed.

(** * Device interrupts *)

Section Interrupts.
Context {S A F : Type} `{PageRefs S} `{KernelAlloc A} `{VnodeFs F} `{Lens A S} `{Lens F A}.
Context (answers : history -> Act -> Z) (img : Image) (below : nat -> ascii) (file : list ascii)
  (lines : string -> Z).
Implicit Types (s : interrupts S A F history).

Notation handler := (handle_interrupt (traced answers) img below file lines).
Notation isr := (isr_common_handler (traced answers) img below file lines).

(** The parts of the kernel that no device interrupt touches. *)
Definition same_kernel s s' : Prop :=
  tab (kn (mach s')) = tab (kn (mach s)) /\ threads (kn (mach s')) = threads (kn (mach s))
  /\ vm (kn (mach s')) = vm (kn (mach s)) /\ fs (kn (mach s')) = fs (kn (mach s))
  /\ klog s' = klog s.

(** When the handler of a device interrupt returns, its last action was one
    write to the end-of-interrupt register, the only one; the legacy controller
    was acknowledged exactly for the keyboard, after its scan code was read;
    and processes, memory, files and the log are as before. *)
Theorem irq_acknowledged fuel e frame f cr2 caller s s' :
  32 <= wrap 8 (f_vector f) -> handler fuel e frame f cr2 caller s = Done s' ->
  device s' = Store reg_eoi 0 ::
    (if wrap 8 (f_vector f) =? 33 then [Out 0x20 0x20; In 0x60] else []) ++ device s
  /\ same_kernel s s'
  /\ kb (mach s') = (if wrap 8 (f_vector f) =? 33
                     then handle_irq (answers (device s) (In 0x60)) (kb (mach s)) else kb (mach s)).
Proof.
  intros Hv. unfold handle_interrupt. cbv zeta. destruct (Z.eqb_spec (wrap 8 (f_vector f)) 32) as [E|E].
  - rewrite E. destruct (Timer.tick _ _ _) as [[[] w]| |]; [|done..]. by intros [= <-].
  - destruct (Z.eqb_spec (wrap 8 (f_vector f)) 33) as [E'|E'].
    + cbn [traced ports inb]. by intros [= <-].
    + replace (32 <=? wrap 8 (f_vector f)) with true by lia. by intros [= <-].
Qed.

(** Asking for a reschedule and rescheduling is the scheduler's tick. *)
Lemma preempt_flagged (e : Env) (q : sched A) :
  lapic_id e < CONFIG_MAX_CPUS ->
  sched_needs_preempt e (flag_preempt e q) = true
  /\ sched_do_preempt e (flag_preempt e q) = sched_do_preempt e q.
Proof.
  intros Hl. unfold flag_preempt, sched_needs_preempt.
  replace (lapic_id e <? CONFIG_MAX_CPUS) with true by lia. split.
  - cbn. by rewrite aget_aset_eq.
  - unfold sched_do_preempt. replace (CONFIG_MAX_CPUS <=? lapic_id e) with false by lia. cbv zeta.
    replace (set_need (fun n => aset n (lapic_id e) false)
              (set_need (fun n => aset n (lapic_id e) true) q))
      with (set_need (fun n => aset n (lapic_id e) false) q); [done|].
    unfold set_need. cbn. by rewrite aset_aset.
Qed.

(** C12. A timer interrupt on the boot processor returns from the handler while
    the wheel has only near timers, and is then exactly one scheduling point: it
    leaves the scheduler in the state of [Task.tick], with the interrupt
    acknowledged before the switch, the wheel advanced by one tick and the
    clock by one. *)
Theorem timer_interrupt_ticks fuel e frame f cr2 caller s L l :
  wrap 8 (f_vector f) = 32 -> lapic_id (env e) < CONFIG_MAX_CPUS ->
  lapic_id (env e) = bsp_lapic_id (wheel s) ->
  near_wf (wheel s) L -> L !! level0 (cursor (wheel s)) = Some l ->
  tick_count (wheel s) + 1 + kBucketCount < 2 ^ 64 -> (65 <= fuel)%nat ->
  exists s', isr fuel e frame f cr2 caller s
             = Done ((sched_do_preempt (env e) (sch (kn (mach s)))).1, s')
    /\ sch (kn (mach s')) = Task.tick (env e) false (sch (kn (mach s)))
    /\ clock s' = Uptime.tick (lapic_id (env e)) (clock s)
    /\ tick_count (wheel s') = tick_count (wheel s) + 1
    /\ device s' = Store reg_eoi 0 :: device s.
Proof.
  intros Hv Hl Hb Hw HL Ht Hf.
  destruct (tick_cases fuel (wheel s) L l Hw HL Ht Hf) as (w & E & _ & Tc & _).
  unfold isr_common_handler, handle_interrupt. rewrite Hv, Z.eqb_refl. cbv zeta.
  cbn [wheel set_kn set_clock]. rewrite Hb, E. rewrite <- Hb.
  destruct (preempt_flagged (env e) (sch (kn (mach s))) Hl) as [P1 P2].
  cbn [mach set_device set_wheel set_kn set_clock kn with_kn sch set_sch]. rewrite P1, P2.
  unfold Task.tick. destruct (sched_do_preempt (env e) (sch (kn (mach s)))) as [sw q].
  cbn [fst snd]. destruct sw; eexists; (split; [reflexivity|]); done.
Qed.

(** * Exceptions *)

(** An exception returns to the interrupted program only as a page fault
    that was a user write to a page shared for copying; then only the memory of
    the kernel has changed. *)
Theorem exception_returns_for_cow fuel e frame f cr2 caller s s' :
  wrap 8 (f_vector f) < 32 -> handler fuel e frame f cr2 caller s = Done s' ->
  f_vector f = 14
  /\ exists v, handle_cow_fault cr2 (f_error_code f) (current_user_pml4 e (kn (mach s)))
                 (vm_view (kn (mach s))) = (true, v)
     /\ Z.land (f_error_code f) 7 = 7 /\ s' = set_kn (put_vm v) s.
Proof.
  intros Hv. unfold handle_interrupt. cbv zeta.
  replace (wrap 8 (f_vector f) =? 32) with false by lia.
  replace (wrap 8 (f_vector f) =? 33) with false by lia.
  replace (32 <=? wrap 8 (f_vector f)) with false by lia.
  unfold handle_exception, outcome_of_panic. cbv zeta.
  destruct (Z.eqb_spec (f_vector f) 14) as [->|Hne]; [|by destruct (die _ _ _ _ _ _ _ _ _ _ _)].
  unfold page_fault. destruct (handle_cow_fault _ _ _ _) as [[] v] eqn:E;
    [|by destruct (die _ _ _ _ _ _ _ _ _ _ _)].
  intros [= <-]. split; [done|]. exists v. split; [done|]. split; [|done].
  unfold handle_cow_fault in E. destruct (Z.eqb_spec (Z.land (f_error_code f) 7) 7) as [E7|]; [done|].
  cbn [negb orb] in E. done.
Qed.

(** The log entry of a statement of the handler. *)
Definition note_entry (now : Z) (n : note) : LogEntry :=
  let '(label, v) := n in
  {| timestamp := now; level := Panic; category := Some (txt "isr"); Log.file := Some file;
     line := signed 16 (lines label);
     payload := match v with
                | inl v => Value (Some (txt label)) v
                | inr t => TextValue (Some (txt label)) (Some (txt t))
                end |}.

Lemma log_notes_push now cpu ns : forall l,
  log_notes file lines now cpu ns l = push_all cpu (map (note_entry now) ns) l.
Proof.
  induction ns as [|n ns IH]; intros l; [done|]. cbn [log_notes map push_all].
  assert (log_note file lines now cpu n l = push_entry cpu (note_entry now n) l) as ->
    by (by destruct n as [label [v|t]]).
  destruct (push_entry _ _ _); cbn [mbind option_bind]; auto.
Qed.

(** [x] was written to the sinks without a break. *)
Definition printed (x : list Sink) (l : log) : Prop := exists p q, sinks l = p ++ x ++ q.

Lemma formatted_elem e es : e ∈ es -> exists p q, formatted es = p ++ format_entry e ++ q.
Proof.
  intros (l1 & l2 & ->)%list_elem_of_split. unfold formatted. rewrite flat_map_app. cbn [flat_map].
  by eexists _, _.
Qed.

(** What is printed or pending stays so, and is printed by a panic. *)
Definition kept (cpu : Z) (e : LogEntry) (l : log) : Prop :=
  printed (format_entry e) l \/ e ∈ backlog cpu l.

Lemma push_all_keeps cpu es l l' :
  log_ok l -> log_lock l = false -> has_ring cpu l = true -> push_all cpu es l = Some l' ->
  log_ok l' /\ log_lock l' = false /\ has_ring cpu l' = true
  /\ forall e, kept cpu e l \/ e ∈ es -> kept cpu e l'.
Proof.
  intros Hok Hl Hr Hp. destruct (push_all_cases cpu es l Hok Hl Hr) as (n & l1 & E & O & L & R & S1 & B).
  rewrite Hp in E. apply (inj Some) in E as <-. split; [done|]. split; [done|]. split; [done|].
  intros e He.
  assert (printed (format_entry e) l \/ e ∈ backlog cpu l ++ es) as [(p & q & Hq)|He'].
  { destruct He as [[|]|]; [by left|right; set_solver..]. }
  - left. exists p, (q ++ formatted (take n (backlog cpu l ++ es))). rewrite S1, Hq. by rewrite <- !app_assoc.
  - rewrite <- (take_drop n (backlog cpu l ++ es)) in He'. apply elem_of_app in He' as [He'|He'].
    + left. destruct (formatted_elem _ _ He') as (p & q & Hq). exists (sinks l ++ p), q.
      rewrite S1, Hq. by rewrite <- !app_assoc.
    + right. by rewrite B.
Qed.

Lemma appends_keeps cpu l l' :
  appends l l' -> log_ok l -> log_lock l = false -> has_ring cpu l = true ->
  log_ok l' /\ log_lock l' = false /\ has_ring cpu l' = true /\ forall e, kept cpu e l -> kept cpu e l'.
Proof.
  intros ([out E] & B & C & L & I & An) [Ob Oc] Hl Hr. split.
  { split; [by rewrite B|]. intros c. rewrite C. apply Oc. }
  split; [congruence|]. split; [unfold has_ring in *; by rewrite I, An|].
  intros e [(p & q & Hq)|He].
  - left. exists p, (q ++ out). rewrite E, Hq. by rewrite <- !app_assoc.
  - right. unfold backlog, boot_pending, cpu_pending in *. by rewrite B, C.
Qed.

Lemma panic_prints_kept cat fl ln message caller cpu l l' e :
  0 <= cpu -> log_ok l -> log_lock l = false -> has_ring cpu l = true -> kept cpu e l ->
  panic img below cat fl ln message caller l = Some l' -> printed (format_entry e) l'.
Proof.
  intros Hc Hok Hl Hr He Hp.
  destruct (panic_cases _ _ _ _ _ _ _ _ _ Hok Hl Hp) as ((trace & E) & _).
  destruct He as [(p & q & Hq)|He].
  - eexists p, _. rewrite E, Hq. by rewrite <- !app_assoc.
  - assert (e ∈ boot_pending l ++ all_pending l (seqZ 0 CONFIG_MAX_CPUS)) as Hin.
    { unfold backlog in He. apply elem_of_app in He as [He|He]; apply elem_of_app; [by left|right].
      unfold has_ring in Hr. apply andb_true_iff in Hr as [_ [Hc1 Hi]%andb_true_iff].
      unfold all_pending. apply list_elem_of_In, in_flat_map. exists cpu. split.
      - apply list_elem_of_In, elem_of_seqZ. lia.
      - rewrite Hi. by apply list_elem_of_In. }
    destruct (formatted_elem _ _ Hin) as (p & q & Hq). eexists (sinks l ++ p), _. rewrite E, Hq.
    by rewrite <- !app_assoc.
Qed.

(** The statements that the handler makes. *)
Definition exception_notes (f : InterruptFrame) (cr2 : Z) : list note :=
  frame_notes f ++ (if f_vector f =? 14 then fault_notes cr2 (f_error_code f) else []).

Lemma exception_notes_printed fuel e frame f cr2 caller s l n :
  wrap 8 (f_vector f) < 32 -> 0 <= lapic_id (env e) ->
  log_ok (klog s) -> log_lock (klog s) = false -> has_ring (lapic_id (env e)) (klog s) = true ->
  handler fuel e frame f cr2 caller s = Panicked l -> n ∈ exception_notes f cr2 ->
  printed (format_entry (note_entry (Uptime.uptime_ms (clock s)) n)) l.
Proof.
  intros Hv Hc Hok Hl Hr. unfold handle_interrupt. cbv zeta.
  replace (wrap 8 (f_vector f) =? 32) with false by lia.
  replace (wrap 8 (f_vector f) =? 33) with false by lia.
  replace (32 <=? wrap 8 (f_vector f)) with false by lia.
  intros Hh Hn. set (cpu := lapic_id (env e)) in *. set (now := Uptime.uptime_ms (clock s)) in *.
  set (extra := if f_vector f =? 14 then fault_notes cr2 (f_error_code f) else []).
  assert (die img below file lines frame f extra now cpu caller (klog s) = Some l) as Hd.
  { unfold handle_exception, outcome_of_panic in Hh. cbv zeta in Hh. fold cpu now in Hh. unfold extra.
    destruct (f_vector f =? 14); [destruct (page_fault _ _ _ _); [done|]|];
      destruct (die _ _ _ _ _ _ _ _ _ _ _); congruence. }
  unfold die, dump_frame in Hd. cbv zeta in Hd. rewrite log_notes_push in Hd.
  destruct (push_all cpu (map (note_entry now) (frame_notes f)) (klog s)) as [l1|] eqn:E1; [|done].
  cbn [mbind option_bind] in Hd.
  destruct (print_stack_trace_from _ _ _ l1) as [l2|] eqn:E2; [|done]. cbn [mbind option_bind] in Hd.
  rewrite log_notes_push in Hd. destruct (push_all cpu (map (note_entry now) extra) l2) as [l3|] eqn:E3; [|done].
  cbn [mbind option_bind] in Hd.
  destruct (push_all_keeps _ _ _ _ Hok Hl Hr E1) as (O1 & L1 & R1 & K1).
  destruct (appends_keeps cpu _ _ (print_stack_trace_appends _ _ _ _ _ E2) O1 L1 R1) as (O2 & L2 & R2 & K2).
  destruct (push_all_keeps _ _ _ _ O2 L2 R2 E3) as (O3 & L3 & R3 & K3).
  eapply panic_prints_kept; [exact Hc|exact O3|exact L3|exact R3| |exact Hd].
  apply K3. unfold exception_notes in Hn. fold extra in Hn. apply elem_of_app in Hn as [Hn|Hn].
  - left. apply K2, K1. right. by apply list_elem_of_fmap_2.
  - right. by apply list_elem_of_fmap_2.
Qed.

(** The frame in memory, word by word from its lowest address, as
    [struct InterruptFrame] declares it, and the register that each word is
    the value of. *)
Definition frame_labels : list string :=
  ["r15"; "r14"; "r13"; "r12"; "r11"; "r10"; "r9"; "r8"; "rdi"; "rsi"; "rbp"; "rbx"; "rdx"; "rcx"; "rax";
   "vector"; "error_code"; "rip"; "cs"; "rflags"]%string.
Definition frame_words (f : InterruptFrame) : list Z :=
  [f_r15 f; f_r14 f; f_r13 f; f_r12 f; f_r11 f; f_r10 f; f_r9 f; f_r8 f; f_rdi f; f_rsi f; f_rbp f; f_rbx f;
   f_rdx f; f_rcx f; f_rax f; f_vector f; f_error_code f; f_rip f; f_cs f; f_rflags f].

(** A line of the panic report: a label with a number or a text. *)
Definition line_printed (now : Z) (label : string) (v : Z + string) (l : log) : Prop :=
  printed (format_entry
    {| timestamp := now; level := Panic; category := Some (txt "isr"); Log.file := Some file;
       line := signed 16 (lines label);
       payload := match v with
                  | inl v => Value (Some (txt label)) v
                  | inr t => TextValue (Some (txt label)) (Some (txt t))
                  end |}) l.

(** Every word of the frame has its statement in [dump_frame]. *)
Lemma frame_word_noted f i label w :
  frame_labels !! i = Some label -> frame_words f !! i = Some w -> (label, inl w) ∈ frame_notes f.
Proof.
  intros Hl Hw. unfold frame_notes.
  do 20 (destruct i as [|i];
    [injection Hl as <-; injection Hw as <-; destruct (f_vector f <? 32); cbn [app];
     repeat (apply list_elem_of_here || apply list_elem_of_further)|]).
  done.
Qed.

(** C29. An exception that is not resolved is reported in full: when the handler
    has panicked, every word of the interrupt frame (the fifteen general
    registers, the vector, the error code, [rip], [cs] and [rflags]) has been
    printed with the name of its register, the vector has been named, and a
    page fault has been printed with its address, whether the page was present
    and whether the access was a write. *)
Theorem exception_reported fuel e frame f cr2 caller s l :
  wrap 8 (f_vector f) < 32 -> 0 <= lapic_id (env e) ->
  log_ok (klog s) -> log_lock (klog s) = false -> has_ring (lapic_id (env e)) (klog s) = true ->
  handler fuel e frame f cr2 caller s = Panicked l ->
  let shown := line_printed (Uptime.uptime_ms (clock s)) in
  (forall i label w, frame_labels !! i = Some label -> frame_words f !! i = Some w -> shown label (inl w) l)
  /\ (forall name, exception_name (f_vector f) = Some name -> shown "exception"%string (inr name) l)
  /\ (f_vector f = 14 ->
      shown "cr2"%string (inl cr2) l
      /\ shown "page_fault_type"%string
           (inr (if Z.testbit (f_error_code f) 0 then "protection-violation" else "non-present")%string) l
      /\ shown "access"%string (inr (if Z.testbit (f_error_code f) 1 then "write" else "read")%string) l).
Proof.
  intros Hv Hc Hok Hl Hr Hh shown.
  assert (forall label v, (label, v) ∈ exception_notes f cr2 -> shown label v l) as Hn.
  { intros label v Hin. exact (exception_notes_printed _ _ _ _ _ _ _ _ (label, v) Hv Hc Hok Hl Hr Hh Hin). }
  split_and!.
  - intros i label w Hi Hw. apply Hn, elem_of_app. left. by eapply frame_word_noted.
  - intros name He. apply Hn, elem_of_app. left. unfold frame_notes, exception_name in *.
    destruct (f_vector f <? 32); [|done]. rewrite He. cbn [default app]. apply list_elem_of_further, list_elem_of_here.
  - intros H14.
    assert (forall label v, (label, v) ∈ fault_notes cr2 (f_error_code f) -> shown label v l) as Hf.
    { intros label v Hin. apply Hn, elem_of_app. right. by rewrite H14. }
    unfold fault_notes in Hf. change 1 with (bit64 0) in Hf. change 2 with (bit64 1) in Hf.
    rewrite !land_bit64_nonzero in Hf by lia.
    split_and!; apply Hf; repeat (apply list_elem_of_here || apply list_elem_of_further).
Qed.
End Interrupts.
