(* ===== verification/IdtDemo.v ===== *)
(** Interrupts on concrete machines: the theorems of [IdtSpec] applied, and a
    user program's own fault. *)
From S2P Require Import Prelude MemoryMap Pmm PageAlloc Slice KAlloc DList Task IList Timer Vmm AddressSpace Bytes KMem VfsBase Ramfs Vfs Keyboard ProcTable ProcTree Process Elf Syscall SysTree SysSpec Pool Scenario Text Demangle Stacktrace Log LogSpec Devices Gdt Idt IdtSpec.

Notation imachine := (interrupts pmm (pool pmm) (ramfs (pool pmm)) history).

(** The first process runs on the boot processor, the timer wheel is set up and
    the processor has its ring of log entries. *)
Definition i_machine (k : world) : imachine :=
  Interrupts (run_as w_init k) (Uptime.init 0 1000) demo_timer started [].

Definition i_frame (vector error_code : Z) : InterruptFrame :=
  Build_InterruptFrame 15 14 13 12 11 10 9 8 7 6 5 3 2 1 0 vector error_code 0x401000 0x2b 0x202.

(** The keyboard reports the key A. *)
Definition i_answers (h : history) (a : Act) : Z := match a with In 0x60 => 0x1E | _ => 0 end.

Definition i_regs : Regs := {| rip_ := 0x1000; rsp_ := 0x2000; rbp_ := 0x2000 |}.

Notation i_handle vector code s :=
  (handle_interrupt (traced i_answers) bare_image (fun _ => NUL) (txt "idt.cpp") (fun _ => 100)
     65 w_env 0x8000 (i_frame vector code) 0x400123 i_regs s).

Definition is_done {X} (r : handled X) : bool := match r with Done _ => true | _ => false end.
Definition panic_log {X} (r : handled X) : option log := match r with Panicked l => Some l | _ => None end.

Lemma interrupt_gates_witness :
  let stubs v := 0xffffffff80010000 + 16 * v in
  let c' := load_tss demo_percpu 3 (init_gdt demo_gdt demo_percpu demo_cpu demo_gdt_state).1 in
  let m := gdt_mem (init_gdt demo_gdt demo_percpu demo_cpu demo_gdt_state).2 in
  let (idtr, t) := init_idt stubs 0xffffffff80300000 (afill (idt_entry 0)) in
  let e := aget t 8 in
  gate_offset e = stubs 8 /\ type_attr e = 0x8E /\ 16 * 8 + 15 <= idtr_limit idtr
  /\ entry_at m (selected c' (selector e)) (make_gdt_entry 0 0 0x9A 0x2)
  /\ gate_stack m (desc_base64 m (selected c' (tr c'))) 0x7000 e = df_stack_top demo_percpu 3.
Proof.
  apply (interrupt_gates demo_gdt demo_percpu (fun v => 0xffffffff80010000 + 16 * v) 0xffffffff80300000
    (afill (idt_entry 0)) demo_cpu demo_gdt_state 3 8 0x7000);
    [exact demo_apart|reflexivity|unfold CONFIG_MAX_CPUS; lia|lia|lia].
Defined.

Lemma irq_acknowledged_witness :
  exists s', i_handle 33 0 (i_machine w_one) = Done s'
    /\ device s' = [Store reg_eoi 0; Out 0x20 0x20; In 0x60]
    /\ kb (mach s') = handle_irq 0x1E (Keyboard false false (afill 0) 0 0).
Proof.
  destruct (i_handle 33 0 (i_machine w_one)) as [s'|l|] eqn:E;
    [|unfold handle_interrupt in E; discriminate E..].
  exists s'. split; [reflexivity|].
  destruct (irq_acknowledged i_answers bare_image (fun _ => NUL) (txt "idt.cpp") (fun _ => 100) 65 w_env
    0x8000 (i_frame 33 0) 0x400123 i_regs (i_machine w_one) s') as (D & _ & K);
    [vm_compute; congruence|exact E|]. exact (conj D K).
Defined.

Lemma timer_interrupt_ticks_witness :
  exists s', isr_common_handler (traced i_answers) bare_image (fun _ => NUL) (txt "idt.cpp") (fun _ => 100)
      65 w_env 0x8000 (i_frame 32 0) 0 i_regs (i_machine w_one)
    = Done ((sched_do_preempt (env w_env) (sch (kn (mach (i_machine w_one))))).1, s')
    /\ sch (kn (mach s')) = Task.tick (env w_env) false (sch (kn (mach (i_machine w_one)))).
Proof.
  destruct demo_near as (Hwf & Ht & Hb).
  destruct (n_level0 _ _ Hwf (cursor demo_timer) (n_cursor _ _ Hwf)) as [l Hl].
  destruct (timer_interrupt_ticks i_answers bare_image (fun _ => NUL) (txt "idt.cpp") (fun _ => 100) 65 w_env
    0x8000 (i_frame 32 0) 0 i_regs (i_machine w_one) (<[free_entries := Timer.pool 0 :: free_tail]> lists0) l) as (s' & E & T & _).
  - reflexivity.
  - reflexivity.
  - symmetry. exact Hb.
  - exact Hwf.
  - exact Hl.
  - change (wheel (i_machine w_one)) with demo_timer. rewrite Ht. unfold kBucketCount. lia.
  - lia.
  - exists s'. exact (conj E T).
Defined.

Lemma exception_returns_for_cow_witness :
  exists s' v, i_handle 14 7 (i_machine w_shared) = Done s'
    /\ handle_cow_fault 0x400123 7 (current_user_pml4 w_env (kn (run_as w_init w_shared)))
         (vm_view (kn (run_as w_init w_shared))) = (true, v)
    /\ s' = set_kn (put_vm v) (i_machine w_shared).
Proof.
  destruct (i_handle 14 7 (i_machine w_shared)) as [s'|l|] eqn:E; [|exfalso..].
  - destruct (exception_returns_for_cow i_answers bare_image (fun _ => NUL) (txt "idt.cpp") (fun _ => 100) 65
      w_env 0x8000 (i_frame 14 7) 0x400123 i_regs (i_machine w_shared) s')
      as (_ & v & Hv & _ & Hs); [reflexivity|exact E|].
    exists s', v. exact (conj eq_refl (conj Hv Hs)).
  - assert (is_done (i_handle 14 7 (i_machine w_shared)) = true) as C by (vm_compute; reflexivity).
    rewrite E in C. discriminate C.
  - assert (is_done (i_handle 14 7 (i_machine w_shared)) = true) as C by (vm_compute; reflexivity).
    rewrite E in C. discriminate C.
Defined.

Lemma exception_reported_witness :
  exists l, i_handle 14 4 (i_machine w_one) = Panicked l
    /\ line_printed (txt "idt.cpp") (fun _ => 100) 0 "rip" (inl 0x401000) l
    /\ line_printed (txt "idt.cpp") (fun _ => 100) 0 "exception" (inr "page-fault"%string) l
    /\ line_printed (txt "idt.cpp") (fun _ => 100) 0 "cr2" (inl 0x400123) l.
Proof.
  destruct (i_handle 14 4 (i_machine w_one)) as [s'|l|] eqn:E.
  - exfalso. assert (is_done (i_handle 14 4 (i_machine w_one)) = false) as C by (vm_compute; reflexivity).
    rewrite E in C. discriminate C.
  - exists l. split; [reflexivity|].
    destruct (exception_reported i_answers bare_image (fun _ => NUL) (txt "idt.cpp") (fun _ => 100) 65 w_env
      0x8000 (i_frame 14 4) 0x400123 i_regs (i_machine w_one) l) as (Hw & Hx & Hf).
    + reflexivity.
    + cbn. lia.
    + exact started_ok.
    + reflexivity.
    + reflexivity.
    + exact E.
    + split_and!; [apply (Hw 17%nat); reflexivity|apply Hx; reflexivity|apply Hf; reflexivity].
  - exfalso. assert (is_Some (panic_log (i_handle 14 4 (i_machine w_one)))) as C
      by (vm_compute; eexists; reflexivity).
    rewrite E in C. by destruct C.
Defined.

(** A program that divides by zero in ring 3 stops the kernel: the handler does
    not look at the ring the exception came from. *)
Example user_fault_stops_kernel :
  Z.land (f_cs (i_frame 0 0)) 3 = 3
  /\ (fun l => serial_text (sinks l)) <$> panic_log (i_handle 0 0 (i_machine w_one)) <> None.
Proof. split; [reflexivity|]. vm_compute. discriminate. Qed.

(** A spurious interrupt of the local APIC (vector 255) is acknowledged like a
    real one. *)
Example spurious_acknowledged :
  match i_handle 255 0 (i_machine w_one) with Done s => device s = [Store reg_eoi 0] | _ => False end.
Proof. vm_compute. reflexivity. Qed.
