(* ===== verification/Boot.v ===== *)
(** The boot adapter [boot/limine/entry.cpp] with the data of [boot_info.hpp].

    The structures and constants of the boot protocol are not part of the
    kernel: the answers of the bootloader are values with the fields that the
    code reads, a null pointer is [None], and the constants are parameters. *)
From S2P Require Import Prelude MemoryMap Bytes Text Task.

(** * The kernel's boot information *)

Inductive BootSource := SourceUnknown | Limine.
Inductive PixelFormat := FormatUnknown | Rgb.

Record BootFramebuffer := {
  bf_address : Z; bf_width : Z; bf_height : Z; bf_pitch : Z; bf_bits_per_pixel : Z;
  bf_red : Z * Z; bf_green : Z * Z; bf_blue : Z * Z; bf_format : PixelFormat;
}.

Record CpuInfo := { processor_id : Z; cpu_lapic_id : Z; internal_handle : Z }.

Definition path_size : nat := 256.
Record BootModule := { mod_address : Z; mod_size : Z; mod_path : list ascii }.

Record SmpInfo := { bsp_lapic_id : Z; cpu_count : Z; smp_cpus : arr CpuInfo }.

Record FullBootInfo := {
  source : BootSource;
  bootloader_name : option (list ascii);
  bootloader_version : option (list ascii);
  command_line : option (list ascii);
  boot : BootInfo;
  boot_framebuffer : BootFramebuffer;
  boot_rsdp : Z;
  module_count : Z;
  modules : option (arr BootModule);
  smp : SmpInfo;
  has_framebuffer : bool; has_hhdm : bool; has_rsdp : bool; has_smp : bool;
}.

(** * The answers of the bootloader *)

(** The memory types in the order of the cases of the switch. *)
Record LimineTypes := {
  LIMINE_MEMMAP_USABLE : Z; LIMINE_MEMMAP_RESERVED : Z; LIMINE_MEMMAP_ACPI_RECLAIMABLE : Z;
  LIMINE_MEMMAP_ACPI_NVS : Z; LIMINE_MEMMAP_BAD_MEMORY : Z; LIMINE_MEMMAP_BOOTLOADER_RECLAIMABLE : Z;
  LIMINE_MEMMAP_EXECUTABLE_AND_MODULES : Z; LIMINE_MEMMAP_FRAMEBUFFER : Z; LIMINE_MEMMAP_RESERVED_MAPPED : Z;
  LIMINE_FRAMEBUFFER_RGB : Z;
}.

Record memmap_entry := { me_base : Z; me_length : Z; me_type : Z }.
Record memmap_response := { entry_count : Z; entries : option (Z -> option memmap_entry) }.
Record limine_framebuffer := { lf : BootFramebuffer; memory_model : Z }.
Record framebuffer_response := { framebuffer_count : Z; framebuffers : option (Z -> option limine_framebuffer) }.
(** [mp_info]: the address of the processor's structure and two of its fields. *)
Record mp_info := { mp_handle : Z; mp_processor_id : Z; mp_lapic_id : Z }.
Record mp_response := { mp_bsp_lapic_id : Z; mp_cpu_count : Z; mp_cpus : Z -> mp_info }.
Record limine_file := { file_address : Z; file_size : Z; file_path : option (list ascii) }.
Record module_response := { limine_module_count : Z; limine_modules : Z -> option limine_file }.

Record answers := {
  bootloader_response : option (option (list ascii) * option (list ascii));
  cmdline_response : option (option (list ascii));
  hhdm_response : option Z;
  framebuffer_request : option framebuffer_response;
  memmap_request : option memmap_response;
  executable_address_response : option KernelAddress;
  rsdp_response : option Z;
  module_request : option module_response;
  mp_request : option mp_response;
}.

Definition CONFIG_MAX_BOOT_MODULES : Z := 16.

(** * Collecting *)

Section Adapter.
Context (L : LimineTypes).

Definition convert_memory_kind (type : Z) : MemoryKind :=
  if type =? LIMINE_MEMMAP_USABLE L then Usable
  else if type =? LIMINE_MEMMAP_RESERVED L then Reserved
  else if type =? LIMINE_MEMMAP_ACPI_RECLAIMABLE L then AcpiReclaimable
  else if type =? LIMINE_MEMMAP_ACPI_NVS L then AcpiNvs
  else if type =? LIMINE_MEMMAP_BAD_MEMORY L then BadMemory
  else if type =? LIMINE_MEMMAP_BOOTLOADER_RECLAIMABLE L then BootloaderReclaimable
  else if type =? LIMINE_MEMMAP_EXECUTABLE_AND_MODULES L then KernelAndModules
  else if type =? LIMINE_MEMMAP_FRAMEBUFFER L then Framebuffer
  else if type =? LIMINE_MEMMAP_RESERVED_MAPPED L then ReservedMapped
  else Unknown.

Definition limine_memory_region_at (response : option memmap_response) (index : Z) : MemoryRegion :=
  match response with
  | None => zero_region
  | Some r =>
      match entries r with
      | None => zero_region
      | Some es =>
          if entry_count r <=? index then zero_region
          else match es index with
               | None => Region 0 0 Unknown
               | Some e => Region (me_base e) (me_length e) (convert_memory_kind (me_type e))
               end
      end
  end.

Definition no_map : MemoryMap :=
  {| regions := None; region_count := 0; source_region_at := None |}.

Definition collect_memory_map (response : option memmap_response) : MemoryMap :=
  match response with
  | None => no_map
  | Some r =>
      match entries r with
      | None => no_map
      | Some _ => {| regions := None; region_count := entry_count r;
                     source_region_at := Some (limine_memory_region_at response) |}
      end
  end.

(** The zero-initialised structure that [return {}] yields. *)
Definition no_framebuffer : BootFramebuffer :=
  Build_BootFramebuffer 0 0 0 0 0 (0, 0) (0, 0) (0, 0) FormatUnknown.

Definition collect_framebuffer (response : option framebuffer_response) : bool * BootFramebuffer :=
  match response with
  | None => (false, no_framebuffer)
  | Some r =>
      match framebuffers r with
      | Some fbs =>
          if framebuffer_count r =? 0 then (false, no_framebuffer)
          else match fbs 0 with
               | None => (false, no_framebuffer)
               | Some f =>
                   (true, {| bf_address := bf_address (lf f); bf_width := bf_width (lf f);
                             bf_height := bf_height (lf f); bf_pitch := bf_pitch (lf f);
                             bf_bits_per_pixel := bf_bits_per_pixel (lf f);
                             bf_red := bf_red (lf f); bf_green := bf_green (lf f);
                             bf_blue := bf_blue (lf f);
                             bf_format := if memory_model f =? LIMINE_FRAMEBUFFER_RGB L
                                          then Rgb else FormatUnknown |})
               end
      | None => (false, no_framebuffer)
      end
  end.

(** [generic_cpus] is the static array before the call. *)
Definition collect_smp_info (response : option mp_response) (generic_cpus : arr CpuInfo)
    : bool * SmpInfo * arr CpuInfo :=
  match response with
  | None => (false, {| bsp_lapic_id := 0; cpu_count := 0; smp_cpus := generic_cpus |}, generic_cpus)
  | Some r =>
      let count := if CONFIG_MAX_CPUS <? mp_cpu_count r then CONFIG_MAX_CPUS else mp_cpu_count r in
      let cpus := for_z 0 count (fun i a =>
        let info := mp_cpus r i in
        aset a i {| processor_id := mp_processor_id info; cpu_lapic_id := mp_lapic_id info;
                    internal_handle := mp_handle info |}) generic_cpus in
      (true, {| bsp_lapic_id := mp_bsp_lapic_id r; cpu_count := count; smp_cpus := cpus |}, cpus)
  end.

(** [while (j < 255 && file->path[j]) path[j] = file->path[j];] then the NUL;
    [n] is the room that is left before the last byte. *)
Fixpoint copy_path (n j : nat) (src : list ascii) (path : list ascii) : list ascii :=
  match n, src with
  | S n, c :: src => if c =c NUL then <[j := NUL]> path else copy_path n (S j) src (<[j := c]> path)
  | _, _ => <[j := NUL]> path
  end.

Definition copy_module (file : limine_file) (m : BootModule) : BootModule :=
  {| mod_address := file_address file; mod_size := file_size file;
     mod_path := match file_path file with
                 | Some src => copy_path (path_size - 1) 0 src (mod_path m)
                 | None => <[O := NUL]> (mod_path m)
                 end |}.

Definition collect_modules (response : option module_response) (generic_modules : arr BootModule)
    : Z * arr BootModule :=
  match response with
  | None => (0, generic_modules)
  | Some r =>
      let count := if CONFIG_MAX_BOOT_MODULES <? limine_module_count r then CONFIG_MAX_BOOT_MODULES
                   else limine_module_count r in
      (count, for_z 0 count (fun i a =>
        match limine_modules r i with
        | None => a
        | Some file => aset a i (copy_module file (aget a i))
        end) generic_modules)
  end.

Definition collect_boot_info (a : answers) (generic_cpus : arr CpuInfo) (generic_modules : arr BootModule)
    : FullBootInfo :=
  let '(has_fb, fb) := collect_framebuffer (framebuffer_request a) in
  let '(has_mp, smp, cpus) := collect_smp_info (mp_request a) generic_cpus in
  let '(count, mods) := collect_modules (module_request a) generic_modules in
  {| source := Limine;
     bootloader_name := match bootloader_response a with Some r => r.1 | None => None end;
     bootloader_version := match bootloader_response a with Some r => r.2 | None => None end;
     command_line := match cmdline_response a with Some c => c | None => None end;
     boot := {| kernel_address := default {| physical_base := 0; virtual_base := 0 |} (executable_address_response a);
                MemoryMap.hhdm_offset := default 0 (hhdm_response a);
                memory_map := collect_memory_map (memmap_request a) |};
     boot_framebuffer := fb;
     boot_rsdp := default 0 (rsdp_response a);
     module_count := count;
     modules := if 0 <? count then Some mods else None;
     smp := smp;
     has_framebuffer := has_fb;
     has_hhdm := bool_decide (is_Some (hhdm_response a));
     has_rsdp := bool_decide (is_Some (rsdp_response a)) && negb (default 0 (rsdp_response a) =? 0);
     has_smp := has_mp |}.
End Adapter.

(** * Waking processors *)

(** [start_data]: entry and argument by processor id.  [goto]: for the handle of
    a processor that was told to start, the slot of [start_data] that its
    [extra_argument] points to. *)
Record wakeups := { start_data : arr (Z * Z); goto : gmap Z Z }.

Definition limine_wake_up_ap (cpu : CpuInfo) (entry arg : Z) (w : wakeups) : wakeups :=
  let id := processor_id cpu in
  if CONFIG_MAX_CPUS <=? id then w
  else {| start_data := aset (start_data w) id (entry, arg);
          goto := <[internal_handle cpu := id]> (goto w) |}.

(** What a processor calls once it has been told to start. *)
Definition limine_ap_trampoline (handle : Z) (w : wakeups) : option (Z * Z) :=
  slot ← goto w !! handle; Some (aget (start_data w) slot).

(** * Correctness *)

(** The constants of the switch are distinct, as its cases have to be. *)
Definition distinct_types (L : LimineTypes) : Prop :=
  NoDup [LIMINE_MEMMAP_USABLE L; LIMINE_MEMMAP_RESERVED L; LIMINE_MEMMAP_ACPI_RECLAIMABLE L;
         LIMINE_MEMMAP_ACPI_NVS L; LIMINE_MEMMAP_BAD_MEMORY L; LIMINE_MEMMAP_BOOTLOADER_RECLAIMABLE L;
         LIMINE_MEMMAP_EXECUTABLE_AND_MODULES L; LIMINE_MEMMAP_FRAMEBUFFER L; LIMINE_MEMMAP_RESERVED_MAPPED L].

(** The type that stands for a kind. *)
Definition limine_type (L : LimineTypes) (k : MemoryKind) : option Z :=
  match k with
  | Usable => Some (LIMINE_MEMMAP_USABLE L)
  | Reserved => Some (LIMINE_MEMMAP_RESERVED L)
  | AcpiReclaimable => Some (LIMINE_MEMMAP_ACPI_RECLAIMABLE L)
  | AcpiNvs => Some (LIMINE_MEMMAP_ACPI_NVS L)
  | BadMemory => Some (LIMINE_MEMMAP_BAD_MEMORY L)
  | BootloaderReclaimable => Some (LIMINE_MEMMAP_BOOTLOADER_RECLAIMABLE L)
  | KernelAndModules => Some (LIMINE_MEMMAP_EXECUTABLE_AND_MODULES L)
  | Framebuffer => Some (LIMINE_MEMMAP_FRAMEBUFFER L)
  | ReservedMapped => Some (LIMINE_MEMMAP_RESERVED_MAPPED L)
  | Unknown => None
  end.

Lemma convert_limine_type L k t :
  distinct_types L -> limine_type L k = Some t -> convert_memory_kind L t = k.
Proof.
  intros Hd Hk. unfold distinct_types in Hd. repeat rewrite NoDup_cons in Hd.
  unfold convert_memory_kind.
  destruct k; cbn [limine_type] in Hk; [injection Hk as <-..|done];
    repeat match goal with |- context [?a =? ?b] => destruct (Z.eqb_spec a b); [set_solver|] end;
    done || set_solver.
Qed.

Lemma convert_other_type L t :
  (forall k, limine_type L k <> Some t) -> convert_memory_kind L t = Unknown.
Proof.
  intros Hk. unfold convert_memory_kind.
  repeat match goal with
  | |- context [t =? ?b] => destruct (Z.eqb_spec t b) as [E|_]; [exfalso; revert E|]
  end; [..|done]; intros E.
  - by apply (Hk Usable); rewrite E.
  - by apply (Hk Reserved); rewrite E.
  - by apply (Hk AcpiReclaimable); rewrite E.
  - by apply (Hk AcpiNvs); rewrite E.
  - by apply (Hk BadMemory); rewrite E.
  - by apply (Hk BootloaderReclaimable); rewrite E.
  - by apply (Hk KernelAndModules); rewrite E.
  - by apply (Hk Framebuffer); rewrite E.
  - by apply (Hk ReservedMapped); rewrite E.
Qed.

Lemma copy_path_spec n : forall j src path,
  (j + n < length path)%nat ->
  copy_path n j src path
  = take j path ++ take n (c_str src) ++ NUL :: drop (S (j + length (take n (c_str src)))) path.
Proof.
  assert (forall j (path : list ascii), (j < length path)%nat ->
    <[j := NUL]> path = take j path ++ NUL :: drop (S j) path) as I.
  { intros j path Hj. by rewrite insert_take_drop. }
  induction n as [|n IH]; intros j src path Hj.
  - cbn [copy_path take]. rewrite I by lia. by rewrite Nat.add_0_r.
  - destruct src as [|c src]; cbn [copy_path c_str take].
    { rewrite I by lia. cbn [app length]. by rewrite Nat.add_0_r. }
    destruct (c =c NUL); cbn [take app length].
    { rewrite I by lia. by rewrite Nat.add_0_r. }
    rewrite IH by (rewrite length_insert; lia).
    assert (take (S j) (<[j := c]> path) = take j path ++ [c]) as ->.
    { rewrite insert_take_drop by lia. rewrite take_app_ge by (rewrite length_take; lia).
      rewrite length_take. by replace (S j - j `min` length path)%nat with 1%nat by lia. }
    rewrite drop_insert_lt by lia. rewrite <- app_assoc. cbn [app].
    by replace (S (S j + length (take n (c_str src)))) with (S (j + S (length (take n (c_str src))))) by lia.
Qed.

Lemma copy_path_start src path :
  length path = path_size ->
  c_str (copy_path (path_size - 1) 0 src path) = take (path_size - 1) (c_str src)
  /\ length (copy_path (path_size - 1) 0 src path) = path_size.
Proof.
  intros Hl. rewrite copy_path_spec by (rewrite Hl; unfold path_size; lia).
  rewrite take_0. cbn [app]. split.
  - apply c_str_app. apply clean_text_take, c_str_clean.
  - assert (length (take (path_size - 1) (c_str src)) <= path_size - 1)%nat by (rewrite length_take; lia).
    rewrite length_app, length_cons, length_drop, Hl. unfold path_size in *. lia.
Qed.

(** Every entry of the bootloader's memory map reaches the kernel with its
    base, its length and the kind that its type stands for; a type without a
    kind becomes Unknown, and an index past the end a region of length 0.
    Without an answer the map is empty. *)
Theorem boot_map_faithful L a cpus0 mods0 r es :
  distinct_types L -> memmap_request a = Some r -> entries r = Some es ->
  let m := memory_map (boot (collect_boot_info L a cpus0 mods0)) in
  region_count m = entry_count r
  /\ (forall i e k, i < entry_count r -> es i = Some e -> limine_type L k = Some (me_type e) ->
      memory_region_at m i = Region (me_base e) (me_length e) k)
  /\ (forall i e, i < entry_count r -> es i = Some e -> (forall k, limine_type L k <> Some (me_type e)) ->
      memory_region_at m i = Region (me_base e) (me_length e) Unknown)
  /\ (forall i, entry_count r <= i -> region_length (memory_region_at m i) = 0).
Proof.
  intros Hd Hr He m.
  assert (m = {| regions := None; region_count := entry_count r;
                 source_region_at := Some (limine_memory_region_at L (Some r)) |}) as ->.
  { unfold m, collect_boot_info. destruct (collect_framebuffer _ _) as [hf fb].
    destruct (collect_smp_info _ _) as [[hs sm] cp]. destruct (collect_modules _ _) as [n ms].
    cbn [boot memory_map]. rewrite Hr. unfold collect_memory_map. by rewrite He. }
  split; [done|]. cbn [memory_region_at regions source_region_at]. unfold limine_memory_region_at.
  rewrite He. split_and!.
  - intros i e k Hi Hes Hk. replace (entry_count r <=? i) with false by lia. rewrite Hes. f_equal.
    by apply convert_limine_type.
  - intros i e Hi Hes Hk. replace (entry_count r <=? i) with false by lia. rewrite Hes. f_equal.
    by apply convert_other_type.
  - intros i Hi. by replace (entry_count r <=? i) with true by lia.
Qed.

Lemma for_z_aset_get {X} n (f : Z -> X) (a0 : arr X) i :
  0 <= i < n -> aget (for_z 0 n (fun i a => aset a i (f i)) a0) i = f i.
Proof.
  intros Hi. revert i Hi. destruct (decide (0 <= n)) as [Hn|]; [|lia].
  apply (for_z_inv (fun k a => forall i, 0 <= i < k -> aget a i = f i)); [done|lia|].
  intros k a Hk Ha i Hi. destruct (decide (i = k)) as [->|Hne]; [by rewrite aget_aset_eq|].
  rewrite aget_aset_ne by done. apply Ha. lia.
Qed.

(** C38. Processors and modules beyond the kernel's arrays are dropped; all
    others arrive: each processor with its ids and handle, each module with its
    address, its size and its path, cut to 255 characters and terminated inside
    its 256 bytes. *)
Theorem boot_tables_bounded L a cpus0 mods0 pr mr :
  mp_request a = Some pr -> module_request a = Some mr ->
  0 <= mp_cpu_count pr -> 0 <= limine_module_count mr ->
  (forall i, length (mod_path (aget mods0 i)) = path_size) ->
  let b := collect_boot_info L a cpus0 mods0 in
  cpu_count (smp b) = Z.min (mp_cpu_count pr) CONFIG_MAX_CPUS
  /\ (forall i, 0 <= i < cpu_count (smp b) ->
      aget (smp_cpus (smp b)) i = {| processor_id := mp_processor_id (mp_cpus pr i);
        cpu_lapic_id := mp_lapic_id (mp_cpus pr i); internal_handle := mp_handle (mp_cpus pr i) |})
  /\ module_count b = Z.min (limine_module_count mr) CONFIG_MAX_BOOT_MODULES
  /\ forall i file, 0 <= i < module_count b -> limine_modules mr i = Some file ->
      exists mods, modules b = Some mods
      /\ mod_address (aget mods i) = file_address file /\ mod_size (aget mods i) = file_size file
      /\ c_str (mod_path (aget mods i)) = take 255 (c_str (default [] (file_path file)))
      /\ length (mod_path (aget mods i)) = path_size.
Proof.
  intros Hp Hm Hpc Hmc Hlen b.
  set (nc := if CONFIG_MAX_CPUS <? mp_cpu_count pr then CONFIG_MAX_CPUS else mp_cpu_count pr).
  set (nm := if CONFIG_MAX_BOOT_MODULES <? limine_module_count mr then CONFIG_MAX_BOOT_MODULES
             else limine_module_count mr).
  assert (nc = Z.min (mp_cpu_count pr) CONFIG_MAX_CPUS /\ 0 <= nc) as [Enc Hnc].
  { unfold nc, CONFIG_MAX_CPUS. case_match; bool_to_prop; lia. }
  assert (nm = Z.min (limine_module_count mr) CONFIG_MAX_BOOT_MODULES /\ 0 <= nm) as [Enm Hnm].
  { unfold nm, CONFIG_MAX_BOOT_MODULES. case_match; bool_to_prop; lia. }
  set (step i m := match limine_modules mr i with None => m | Some file => copy_module file m end).
  assert (exists mods, module_count b = nm /\ modules b = (if 0 <? nm then Some mods else None)
    /\ forall i, 0 <= i < nm -> aget mods i = step i (aget mods0 i)) as (mods & E1 & E2 & E3).
  { unfold b, collect_boot_info. destruct (collect_framebuffer _ _) as [hf fb].
    destruct (collect_smp_info _ _) as [[hs sm] cp]. unfold collect_modules. rewrite Hm. fold nm.
    eexists. split; [reflexivity|]. split; [reflexivity|]. intros i Hi.
    revert i Hi. apply (for_z_inv (fun k a => (forall i, 0 <= i < k -> aget a i = step i (aget mods0 i))
      /\ forall i, k <= i -> aget a i = aget mods0 i) 0 nm) with (s := mods0); [done|split; [lia|done]|].
    intros k t Hk [H1 H2]. unfold step. split.
    - intros i Hi. destruct (limine_modules mr k) as [file|] eqn:Ef.
      + destruct (decide (i = k)) as [->|Hne]; [by rewrite aget_aset_eq, Ef, H2 by lia|].
        rewrite aget_aset_ne by done. apply H1. lia.
      + destruct (decide (i = k)) as [->|Hne]; [by rewrite Ef, H2 by lia|]. apply H1. lia.
    - intros i Hi. destruct (limine_modules mr k); [rewrite aget_aset_ne by lia|]; apply H2; lia. }
  assert (cpu_count (smp b) = nc /\ forall i, 0 <= i < nc -> aget (smp_cpus (smp b)) i =
    {| processor_id := mp_processor_id (mp_cpus pr i); cpu_lapic_id := mp_lapic_id (mp_cpus pr i);
       internal_handle := mp_handle (mp_cpus pr i) |}) as [C1 C2].
  { unfold b, collect_boot_info. destruct (collect_framebuffer _ _) as [hf fb].
    unfold collect_smp_info. rewrite Hp. fold nc. destruct (collect_modules _ _) as [n ms].
    split; [reflexivity|]. intros i Hi. cbn [smp smp_cpus].
    by apply (for_z_aset_get nc (fun i => {| processor_id := mp_processor_id (mp_cpus pr i);
      cpu_lapic_id := mp_lapic_id (mp_cpus pr i); internal_handle := mp_handle (mp_cpus pr i) |})). }
  rewrite C1, E1. split; [done|]. split; [done|]. split; [done|].
  intros i file Hi Hf. exists mods. rewrite E2. split; [by replace (0 <? nm) with true by lia|].
  rewrite E3 by done. unfold step. rewrite Hf. cbn [copy_module mod_address mod_size mod_path].
  split; [done|]. split; [done|]. destruct (file_path file) as [src|]; cbn [default].
  - apply copy_path_start, Hlen.
  - split; [|by rewrite length_insert].
    pose proof (Hlen i) as Hl. destruct (mod_path (aget mods0 i)) as [|x p]; [done|]. reflexivity.
Qed.
