(* ===== verification/KernelMain.v ===== *)
(** The start-up code of [kernel/main.cpp] that computes something of its own:
    the kernel's copy of the memory map, the top of the direct map, the boot
    processor, starting the others and waiting for them, the root filesystem,
    and filling it from the boot volume.  The initialisers it calls in between
    are verified with their components. *)
From S2P Require Import Prelude MemoryMap Pmm PageAlloc Bytes KAlloc KMem Task VfsBase Ramfs Vfs Text Boot Block Fat FatSpec FatDir FatFs Overlay.

(** * Memory map *)

Definition sizeof_MemoryRegion : Z := 24.
Definition alignof_MemoryRegion : Z := 8.

(** [None]: the panic when there is no memory for the copy.  The array at the
    allocated address is the list of its elements. *)
Definition copy_memory_map {A} `{KernelAlloc A} (source : MemoryMap) (a : A) : option (MemoryMap * A) :=
  let bytes := region_count source *64 sizeof_MemoryRegion in
  let '(p, a) := KAlloc.kalloc a bytes alignof_MemoryRegion in
  if p =? 0 then None
  else Some ({| regions := Some (memory_region_at source <$> seqZ 0 (region_count source));
                region_count := region_count source; source_region_at := None |}, a).

(** [for (i ...) { end = base + length; if (end > max_phys) max_phys = end; }] *)
Definition max_phys (m : MemoryMap) : Z :=
  for_z 0 (region_count m) (fun i acc =>
    let region := memory_region_at m i in
    let end_ := region_base region +64 region_length region in
    if acc <? end_ then end_ else acc) 0.

Definition hhdm_top (b : BootInfo) : Z := MemoryMap.hhdm_offset b +64 max_phys (memory_map b).

(** The check before anything else is set up; false is a panic. *)
Definition has_memory_map (m : MemoryMap) : bool :=
  negb ((region_count m =? 0)
        || (bool_decide (regions m = None) && match source_region_at m with None => true | Some _ => false end)).

(** * Processors *)

(** The index of the first processor with the boot processor's id, else 0. *)
Definition bsp_index (b : FullBootInfo) : Z :=
  if has_smp b then
    default 0 (first_z (Z.to_nat (cpu_count (smp b))) 0
      (fun i => cpu_lapic_id (aget (smp_cpus (smp b)) i) =? bsp_lapic_id (smp b)))
  else 0.

Record ApData := { cpu_index : Z; lapic_base : Z }.

(** [ap_data], the wake-ups given, and [g_expected_aps]. *)
Record aps := { ap_data : arr ApData; woken : wakeups; g_expected_aps : Z }.

(** [ap_main]: the address of the function; the argument of processor [i] is
    the address of [ap_data[i]], which [i] stands for. *)
Definition start_ap (ap_main lapic_base bsp : Z) (b : FullBootInfo) (i : Z) (s : aps) : aps :=
  if i =? bsp then s
  else
    {| ap_data := aset (ap_data s) i {| cpu_index := i; lapic_base := lapic_base |};
       woken := limine_wake_up_ap (aget (smp_cpus (smp b)) i) ap_main i (woken s);
       g_expected_aps := g_expected_aps s + 1 |}.

Definition start_aps (ap_main lapic_base bsp : Z) (b : FullBootInfo) (s : aps) : aps :=
  if has_smp b then for_z 0 (cpu_count (smp b)) (start_ap ap_main lapic_base bsp b) s else s.

(** What a processor that was started does first: it reads its own [ApData]. *)
Definition ap_entry (ap_main handle : Z) (s : aps) : option ApData :=
  '(entry, arg) ← limine_ap_trampoline handle (woken s);
  if entry =? ap_main then Some (aget (ap_data s) arg) else None.

(** [while (g_aps_ready < g_expected_aps) pause;]: [ready i] is what the [i]-th
    load sees.  The result is the number of rounds. *)
Fixpoint wait_for_aps (fuel i : nat) (expected : Z) (ready : nat -> Z) : option nat :=
  match fuel with
  | O => None
  | S fuel => if ready i <? expected then wait_for_aps fuel (S i) expected ready else Some i
  end.

(** * Root filesystem *)

(** The file name of a module: after leading slashes, what follows the last
    slash. *)
Fixpoint skip_slash (p : list ascii) : list ascii :=
  match p with c :: p' => if c =c "/" then skip_slash p' else p | [] => [] end.

Fixpoint after_slash (s fname : list ascii) : list ascii :=
  match s with
  | [] => fname
  | c :: s => after_slash s (if c =c "/" then s else fname)
  end.

Definition module_name (path : list ascii) : list ascii :=
  let modpath := skip_slash (c_str path) in after_slash modpath modpath.

Definition is_rootfs (m : BootModule) : bool :=
  negb (mod_size m =? 0) && bool_decide (module_name (mod_path m) = txt "rootfs.fat").

Section Root.
Context {F : Type} `{LayerOps F}.

(** Both mounts, the overlay over them and the new root; [None] stands for a
    panic.  [fill] is what happens to the files of the first root in between. *)
Definition mount_root (ramfs_ops : FilesystemOps F) (fill : Z -> vfs F -> option (vfs F))
    (v : vfs F) (o : overlay F) : option (Z * vfs F * overlay F) :=
  '(err, lower_root, v) ← Vfs.mount (Some ramfs_ops) 0 v;
  if err <? 0 then None
  else
    v ← fill lower_root v;
    '(err, upper_root, v) ← Vfs.mount (Some ramfs_ops) 0 v;
    if (err <? 0) && negb (err =? E_EXISTS) then None
    else
      let layers := [Build_Layer lower_root false; Build_Layer upper_root true] in
      let '(err, o) := Overlay.init layers (set_lower (node_fs v) o) in
      if err <? 0 then None
      else
        '(err, overlay_root, o) ← overlay_mount o;
        if (err <? 0) || (overlay_root =? 0) then None
        else
          let '(err, v) := set_root overlay_root (set_fs (lower o) v) in
          if err <? 0 then None else Some (overlay_root, v, o).
End Root.

(** * Filling the root from the boot volume *)

Section Populate.
(** [G]: the volume; [F]: the filesystem behind the root. *)
Context {G F : Type} `{VnodeFs G} `{VnodeFs F}.

(** The descriptor table that the kernel uses, and the bytes a fresh buffer
    holds. *)
Context (cur : Z) (garbage : bmem).

(** The do-while loop that copies one file. *)
Fixpoint copy_file (fuel : nat) (child fd file_off : Z) (g : G) (v : vfs F) : option (G * vfs F) :=
  match fuel with
  | O => None
  | S fuel =>
      '(err, got, buf, g) ← op_read child file_off garbage 4096 g;
      if (err =? 0) && (0 <? got) then
        '(_, _, v) ← Vfs.write cur fd buf got v;
        copy_file fuel child fd (file_off +64 got) g v
      else if 0 <? got then copy_file fuel child fd file_off g v
      else Some (g, v)
  end.

Definition O_CREAT_WRONLY : Z := Z.lor O_CREAT O_WRONLY.

(** One entry of the directory; [rec] is the recursive call. *)
Definition populate_entry (fuel : nat) (rec : Z -> Z -> G -> vfs F -> option (G * vfs F))
    (fat_dir ramfs_dir : Z) (entry : Dirent) (g : G) (v : vfs F) : option (G * vfs F) :=
  match dirent_name entry with
  | [] => Some (g, v)
  | name =>
      '(err, fat_child, g) ← op_lookup fat_dir name g;
      if err <? 0 then Some (g, v)
      else
        '(g, v) ←
          (if is_directory (dirent_type entry) then
             '(_, v) ← Vfs.mkdir ramfs_dir (Some name) v;
             '(_, ramfs_child, f) ← op_lookup ramfs_dir name (node_fs v);
             let v := set_fs f v in
             if negb (ramfs_child =? 0) then
               '(g, v) ← rec fat_child ramfs_child g v;
               f ← vn_unref ramfs_child (node_fs v); Some (g, set_fs f v)
             else Some (g, v)
           else
             '(err, fd, v) ← Vfs.open cur ramfs_dir (Some name) O_CREAT_WRONLY v;
             if err =? 0 then
               '(g, v) ← copy_file fuel fat_child fd 0 g v;
               '(_, v) ← Vfs.close cur fd v; Some (g, v)
             else Some (g, v));
        g ← vn_unref fat_child g; Some (g, v)
  end.

Fixpoint populate_loop (fuel : nat) (rec : Z -> Z -> G -> vfs F -> option (G * vfs F))
    (fat_dir ramfs_dir offset : Z) (g : G) (v : vfs F) : option (G * vfs F) :=
  match fuel with
  | O => None
  | S n =>
      '(err, entry, offset, g) ← op_readdir fat_dir offset g;
      if err =? 0 then
        '(g, v) ← populate_entry fuel rec fat_dir ramfs_dir entry g v;
        populate_loop n rec fat_dir ramfs_dir offset g v
      else Some (g, v)
  end.

(** [depth] bounds the nesting of directories, [fuel] the entries of one and
    the chunks of a file. *)
Fixpoint populate_ramfs_from_fat (depth fuel : nat) (fat_dir ramfs_dir : Z) (g : G) (v : vfs F)
    : option (G * vfs F) :=
  match depth with
  | O => None
  | S depth => populate_loop fuel (populate_ramfs_from_fat depth fuel) fat_dir ramfs_dir 0 g v
  end.
End Populate.

(** * The modules of the bootloader *)

Section Modules.
Context {D A F : Type} `{BlockDev D} `{KMem A} `{LayerOps F}.

(** [device]: the block device over the bytes of a module, [None] when
    [memblock_create] has no memory. *)
Context (cur : Z) (garbage : bmem) (depth fuel : nat) (device : BootModule -> option D).

(** One round of the loop: a step that fails is logged and the module skipped. *)
Definition load_module (lower_root : Z) (m : BootModule) (g : fat D A) (v : vfs F)
    : option (fat D A * vfs F) :=
  if negb (is_rootfs m) then Some (g, v)
  else
    match device m with
    | None => Some (g, v)
    | Some membdev =>
        '(err, g) ← Fat.init membdev g;
        if err <? 0 then Some (g, v)
        else
          '(err, fat_root, g) ← fat_mount g;
          if (err <? 0) || (fat_root =? 0) then Some (g, v)
          else
            '(g, v) ← populate_ramfs_from_fat cur garbage depth fuel fat_root lower_root g v;
            '(_, g) ← fat_unmount fat_root g; Some (g, v)
    end.

Fixpoint load_modules (n : nat) (i : Z) (mods : arr BootModule) (lower_root : Z) (g : fat D A) (v : vfs F)
    : option (fat D A * vfs F) :=
  match n with
  | O => Some (g, v)
  | Datatypes.S n =>
      '(g, v) ← load_module lower_root (aget mods i) g v;
      load_modules n (i + 1) mods lower_root g v
  end.

(** The root filesystem as [kernel_main] sets it up. *)
Definition boot_root (ramfs_ops : FilesystemOps F) (b : FullBootInfo) (g : fat D A) (v : vfs F) (o : overlay F)
    : option (Z * vfs F * overlay F) :=
  mount_root ramfs_ops (fun lower_root v =>
    '(_, v) ← match modules b with
              | Some mods => load_modules (Z.to_nat (module_count b)) 0 mods lower_root g v
              | None => Some (g, v)
              end;
    Some v) v o.
End Modules.
