(* ===== verification/KernelMainSpec.v ===== *)
(** What the start-up code does: the kernel's copy of the memory map is the
    bootloader's, every processor that is started gets its own number, files of
    the boot volume are copied byte by byte; and two things that it does not do:
    wait only for processors that it started, and mount a writable root. *)
From S2P Require Import Prelude MemoryMap Pmm PageAlloc Bytes KAlloc KMem Task VfsBase Ramfs Vfs Text Boot Block Fat FatSpec FatDir FatFs Overlay KernelMain.

(** * Memory map *)

Lemma copy_memory_map_at {A} `{KernelAlloc A} source (a a' : A) m i :
  copy_memory_map source a = Some (m, a') -> 0 <= i < region_count source ->
  region_count m = region_count source /\ memory_region_at m i = memory_region_at source i.
Proof.
  unfold copy_memory_map. destruct (KAlloc.kalloc a _ _) as [p a1]. destruct (p =? 0); [done|].
  intros [= <- <-] Hi. split; [done|]. cbn [memory_region_at regions].
  rewrite nth_lookup, list_lookup_fmap, lookup_seqZ_lt by lia. cbn [fmap option_fmap option_map default].
  by replace (0 + Z.of_nat (Z.to_nat i)) with i by lia.
Qed.

Lemma max_phys_bounds m :
  0 <= region_count m ->
  (forall i, 0 <= i < region_count m ->
     region_base (memory_region_at m i) +64 region_length (memory_region_at m i) <= max_phys m)
  /\ (max_phys m = 0 \/ exists i, 0 <= i < region_count m
      /\ max_phys m = region_base (memory_region_at m i) +64 region_length (memory_region_at m i)).
Proof.
  intros Hn. unfold max_phys.
  apply (for_z_inv (fun k acc => (forall i, 0 <= i < k ->
      region_base (memory_region_at m i) +64 region_length (memory_region_at m i) <= acc)
    /\ (acc = 0 \/ exists i, 0 <= i < k
        /\ acc = region_base (memory_region_at m i) +64 region_length (memory_region_at m i)))); [done| |].
  - split; [lia|by left].
  - intros k acc Hk [Hle Hex]. cbv zeta.
    set (e := fun i => region_base (memory_region_at m i) +64 region_length (memory_region_at m i)) in *.
    change (region_base (memory_region_at m k) +64 region_length (memory_region_at m k)) with (e k).
    destruct (Z.ltb_spec acc (e k)) as [Hlt|Hge]; split.
    + intros i Hi. destruct (decide (i = k)) as [->|]; [unfold e in *; lia|]. specialize (Hle i ltac:(lia)). unfold e in *. lia.
    + right. exists k. split; [lia|done].
    + intros i Hi. destruct (decide (i = k)) as [->|]; [unfold e in *; lia|]. apply Hle. lia.
    + destruct Hex as [->|(i & Hi & Hx)]; [by left|]. right. exists i. split; [lia|done].
Qed.

(** The kernel's own copy of the memory map has the bootloader's regions, and
    the virtual ranges that the kernel hands out later start above the direct
    map of every one of them. *)
Theorem memory_map_copied {A} `{KernelAlloc A} (b : BootInfo) (a a' : A) m :
  let source := memory_map b in
  let b' := {| kernel_address := kernel_address b; MemoryMap.hhdm_offset := MemoryMap.hhdm_offset b; memory_map := m |} in
  0 <= region_count source -> 0 <= MemoryMap.hhdm_offset b ->
  (forall i, 0 <= i < region_count source ->
     let r := memory_region_at source i in
     0 <= region_base r /\ 0 <= region_length r
     /\ MemoryMap.hhdm_offset b + region_base r + region_length r < 2 ^ 64) ->
  copy_memory_map source a = Some (m, a') ->
  region_count m = region_count source
  /\ forall i, 0 <= i < region_count source ->
     let r := memory_region_at source i in
     memory_region_at m i = r
     /\ MemoryMap.hhdm_offset b + (region_base r + region_length r) <= hhdm_top b'.
Proof.
  intros source b' Hn Hh Hr Hc.
  assert (region_count m = region_count source) as En.
  { unfold copy_memory_map in Hc. destruct (KAlloc.kalloc a _ _) as [p a1]. destruct (p =? 0); [done|].
    by injection Hc as <- <-. }
  split; [done|]. intros i Hi. cbv zeta.
  assert (forall j, 0 <= j < region_count source -> memory_region_at m j = memory_region_at source j) as Em.
  { intros j Hj. by destruct (copy_memory_map_at source a a' m j Hc Hj). }
  split; [by apply Em|]. destruct (max_phys_bounds m ltac:(lia)) as [Hle Hex].
  unfold hhdm_top. cbn [MemoryMap.hhdm_offset memory_map b'].
  assert (forall j, 0 <= j < region_count source -> region_base (memory_region_at m j) +64 region_length (memory_region_at m j)
    = region_base (memory_region_at source j) + region_length (memory_region_at source j)) as Ew.
  { intros j Hj. rewrite Em by done. apply wrap_small. destruct (Hr j Hj) as (? & ? & ?). lia. }
  rewrite En in *. rewrite wrap_small.
  - specialize (Hle i Hi). rewrite Ew in Hle by done. lia.
  - destruct Hex as [->|(j & Hj & ->)].
    + destruct (Hr i Hi) as (? & ? & ?). lia.
    + rewrite Ew by done. destruct (Hr j Hj) as (? & ? & ?). lia.
Qed.

(** * Processors *)

(** The processors that are told to start. *)
Definition is_ap (bsp : Z) (b : FullBootInfo) (i : Z) : Prop := 0 <= i < cpu_count (smp b) /\ i <> bsp.

Definition cpu_at (b : FullBootInfo) (i : Z) : CpuInfo := aget (smp_cpus (smp b)) i.

(** Processor ids that fit into [start_data]. *)
Definition small_ids (b : FullBootInfo) : Prop :=
  forall i, 0 <= i < cpu_count (smp b) -> 0 <= processor_id (cpu_at b i) < CONFIG_MAX_CPUS.

(** No two processors share an id or a structure of the bootloader. *)
Definition distinct_cpus (b : FullBootInfo) : Prop :=
  forall i j, 0 <= i < cpu_count (smp b) -> 0 <= j < cpu_count (smp b) ->
  processor_id (cpu_at b i) = processor_id (cpu_at b j)
  \/ internal_handle (cpu_at b i) = internal_handle (cpu_at b j) -> i = j.

Definition no_aps : aps :=
  {| ap_data := afill (Build_ApData 0 0); woken := {| start_data := afill (0, 0); goto := ∅ |}; g_expected_aps := 0 |}.

(** The state of the loop before processor [k]. *)
Definition starting (ap_main lapic_base bsp : Z) (b : FullBootInfo) (k : Z) (s : aps) : Prop :=
  (forall i, 0 <= i < k -> i <> bsp ->
     goto (woken s) !! internal_handle (cpu_at b i) = Some (processor_id (cpu_at b i))
     /\ aget (start_data (woken s)) (processor_id (cpu_at b i)) = (ap_main, i)
     /\ aget (ap_data s) i = {| cpu_index := i; KernelMain.lapic_base := lapic_base |})
  /\ goto (woken s) !! internal_handle (cpu_at b bsp) = None
  /\ g_expected_aps s = k - (if bsp <? k then 1 else 0).

(** C30. With processor ids below the limit, every processor but the boot
    processor is told to start, and finds the number of its own entry in the
    list, whatever the order in which they wake up; the boot processor is not
    started, and the number of processors to wait for is the number started. *)
Theorem aps_started ap_main lapic_base bsp b :
  has_smp b = true -> 0 <= cpu_count (smp b) -> small_ids b -> distinct_cpus b -> 0 <= bsp < cpu_count (smp b) ->
  let s := start_aps ap_main lapic_base bsp b no_aps in
  (forall i, is_ap bsp b i ->
     ap_entry ap_main (internal_handle (cpu_at b i)) s = Some {| cpu_index := i; KernelMain.lapic_base := lapic_base |})
  /\ ap_entry ap_main (internal_handle (cpu_at b bsp)) s = None
  /\ g_expected_aps s = cpu_count (smp b) - 1.
Proof.
  intros Hs Hn Hid Hd Hb s.
  assert (starting ap_main lapic_base bsp b (cpu_count (smp b)) s) as (H1 & H2 & H3).
  2: { split_and!.
    - intros i [Hi Hne]. destruct (H1 i Hi Hne) as (E1 & E2 & E3). unfold ap_entry, limine_ap_trampoline.
      rewrite E1. cbn [mbind option_bind]. rewrite E2, Z.eqb_refl. by f_equal.
    - unfold ap_entry, limine_ap_trampoline. by rewrite H2.
    - rewrite H3. by replace (bsp <? cpu_count (smp b)) with true by lia. }
  unfold s, start_aps. rewrite Hs. apply for_z_inv; [done| |].
  - split_and!; [lia|done|]. cbn [no_aps g_expected_aps]. by replace (bsp <? 0) with false by lia.
  - intros k t Hk (H1 & H2 & H3). unfold start_ap. destruct (Z.eqb_spec k bsp) as [->|Hne].
    { split_and!; [|done|].
      - intros i Hi Hi'. apply H1; [lia|done].
      - rewrite H3. replace (bsp <? bsp) with false by lia. replace (bsp <? bsp + 1) with true by lia. lia. }
    unfold limine_wake_up_ap. fold (cpu_at b k). pose proof (Hid k Hk) as Hik.
    replace (CONFIG_MAX_CPUS <=? processor_id (cpu_at b k)) with false by lia.
    unfold starting. cbn [ap_data woken g_expected_aps goto start_data]. split_and!.
    + intros i Hi Hi'. destruct (decide (i = k)) as [->|Hik'].
      * by rewrite lookup_insert_eq, !aget_aset_eq.
      * assert (processor_id (cpu_at b i) <> processor_id (cpu_at b k)
          /\ internal_handle (cpu_at b i) <> internal_handle (cpu_at b k)) as [N1 N2].
        { split; intros E; apply Hik', (Hd i k); (lia || by auto). }
        rewrite lookup_insert_ne by done. rewrite !aget_aset_ne by done. apply H1; [lia|done].
    + rewrite lookup_insert_ne; [done|]. intros E. apply Hne, (Hd k bsp); [done|done|by right].
    + rewrite H3. destruct (Z.ltb_spec bsp k), (Z.ltb_spec bsp (k + 1)); lia.
Qed.

Lemma map_size_insert_le {V} (m : gmap Z V) k v : (size (<[k := v]> m) <= S (size m))%nat.
Proof. rewrite map_size_insert. destruct (m !! k); cbn; unfold Datatypes.id; lia. Qed.

Lemma wait_never fuel : forall i expected ready,
  (forall k, ready k < expected) -> wait_for_aps fuel i expected ready = None.
Proof.
  induction fuel as [|fuel IH]; intros i expected ready Hr; cbn [wait_for_aps]; [done|].
  specialize (Hr i) as Hri. replace (ready i <? expected) with true by lia. by apply IH.
Qed.

(** A processor whose id does not fit into [start_data] is not told to
    start, but is waited for: the count to wait for is larger than the number of
    processors started, and the first task never gets past its loop, so no
    program is run. *)
Theorem ap_wait_hangs ap_main lapic_base bsp b j :
  has_smp b = true -> 0 <= cpu_count (smp b) -> is_ap bsp b j ->
  CONFIG_MAX_CPUS <= processor_id (cpu_at b j) ->
  let s := start_aps ap_main lapic_base bsp b no_aps in
  let started := Z.of_nat (size (goto (woken s))) in
  started < g_expected_aps s
  /\ forall fuel i ready, (forall k, ready k <= started) ->
     wait_for_aps fuel i (g_expected_aps s) ready = None.
Proof.
  intros Hs Hn [Hj Hjb] Hid s started.
  assert (started < g_expected_aps s) as Hlt.
  2: { split; [done|]. intros fuel i ready Hr. apply wait_never. intros k. specialize (Hr k). lia. }
  assert (Z.of_nat (size (goto (woken s))) + (if j <? cpu_count (smp b) then 1 else 0) <= g_expected_aps s) as Hle.
  2: { unfold started. replace (j <? cpu_count (smp b)) with true in Hle by lia. lia. }
  unfold s, start_aps. rewrite Hs.
  apply (for_z_inv (fun k s => Z.of_nat (size (goto (woken s))) + (if j <? k then 1 else 0) <= g_expected_aps s));
    [done| |].
  - replace (j <? 0) with false by lia. cbn. done.
  - intros k t Hk Ht. unfold start_ap. destruct (Z.eqb_spec k bsp) as [->|Hne].
    { by replace (j <? bsp + 1) with (j <? bsp) by (destruct (Z.ltb_spec j bsp), (Z.ltb_spec j (bsp + 1)); lia || done). }
    unfold limine_wake_up_ap. cbv zeta. fold (cpu_at b k).
    destruct (Z.leb_spec CONFIG_MAX_CPUS (processor_id (cpu_at b k))) as [Hb|Hb];
      cbn [woken goto g_expected_aps].
    + destruct (Z.ltb_spec j k), (Z.ltb_spec j (k + 1)); lia.
    + pose proof (map_size_insert_le (goto (woken t)) (internal_handle (cpu_at b k)) (processor_id (cpu_at b k))).
      destruct (Z.ltb_spec j k), (Z.ltb_spec j (k + 1)); try lia.
      assert (j = k) as -> by lia. lia.
Qed.

(** * Root filesystem *)

(** The name of a module is what follows the last slash of its path. *)
Lemma after_slash_none s : forall fname,
  forallb (fun c => negb (c =c "/")) s = true -> after_slash s fname = fname.
Proof.
  induction s as [|c s IH]; intros fname Hs; [done|]. cbn [forallb after_slash] in *.
  apply andb_true_iff in Hs as [Hc Hs]. destruct (c =c "/"); [done|]. by apply IH.
Qed.

Lemma after_slash_last d name : forall fname,
  forallb (fun c => negb (c =c "/")) name = true ->
  after_slash (d ++ "/"%char :: name) fname = name.
Proof.
  induction d as [|c d IH]; intros fname Hn; cbn [app after_slash].
  - by apply after_slash_none.
  - by apply IH.
Qed.

Lemma module_name_last d name rest :
  clean_text (d ++ "/"%char :: name) -> name <> [] -> forallb (fun c => negb (c =c "/")) name = true ->
  module_name (d ++ "/"%char :: name ++ NUL :: rest) = name.
Proof.
  intros Hc Hne Hn. unfold module_name.
  replace (d ++ "/"%char :: name ++ NUL :: rest) with ((d ++ "/"%char :: name) ++ NUL :: rest)
    by (by rewrite <- app_assoc).
  rewrite c_str_app by done. clear Hc rest. induction d as [|c d IH]; cbn [app skip_slash].
  - change ("/"%char =c "/") with true. cbn iota. destruct name as [|c name]; [done|].
    cbn [forallb] in Hn. cbn [skip_slash]. apply andb_true_iff in Hn as [Hc Hn].
    destruct (c =c "/") eqn:E; [done|]. apply after_slash_none. cbn [forallb]. by rewrite E.
  - destruct (c =c "/") eqn:E; [exact IH|]. change (c :: d ++ "/"%char :: name) with ((c :: d) ++ "/"%char :: name).
    by apply after_slash_last.
Qed.

Section Root.
Context {F : Type} `{LayerOps F}.

(** Once there is a root, mounting at the root gives nothing back. *)
Lemma mount_root_exists ops (v v' : vfs F) err root :
  root_vnode v <> 0 -> Vfs.mount (Some ops) 0 v = Some (err, root, v') -> root = 0.
Proof.
  intros Hr. unfold Vfs.mount. destruct (negb (initialized v)); [by intros [= _ <- _]|].
  destruct (fs_mount ops (node_fs v)) as [[[e r] f]|]; [|done]. cbn [mbind option_bind].
  destruct (e <? 0); [by intros [= _ <- _]|]. destruct (r =? 0); [by intros [= _ <- _]|].
  change (0 =? 0) with true. cbn iota.
  change (root_vnode (set_fs f v)) with (root_vnode v). replace (root_vnode v =? 0) with false by lia. cbn [negb].
  destruct (fs_unmount ops r _) as [[e' f']|]; [|done]. cbn [mbind option_bind]. by intros [= _ <- _].
Qed.

Lemma mount_root_first ops (v v' : vfs F) err root :
  root_vnode v = 0 -> Vfs.mount (Some ops) 0 v = Some (err, root, v') -> 0 <= err ->
  root <> 0 /\ root_vnode v' = root.
Proof.
  intros Hr. unfold Vfs.mount. destruct (negb (initialized v)); [by intros [= <- _ _] ?|].
  destruct (fs_mount ops (node_fs v)) as [[[e r] f]|]; [|done]. cbn [mbind option_bind].
  destruct (e <? 0) eqn:E; [intros [= <- _ _] ?; bool_to_prop; lia|].
  destruct (r =? 0) eqn:E0; [by intros [= <- _ _] ?|].
  change (0 =? 0) with true. cbn iota.
  change (root_vnode (set_fs f v)) with (root_vnode v). rewrite Hr. change (0 =? 0) with true. cbn [negb].
  intros [= _ <- <-] _. split; [bool_to_prop; lia|done].
Qed.

(** The overlay over a root that exists already. *)
Lemma mount_root_read_only ops fill (v v' : vfs F) (o o' : overlay F) root name :
  root_vnode v = 0 ->
  (forall r w w', fill r w = Some w' -> root_vnode w' = root_vnode w) ->
  mount_root ops fill v o = Some (root, v', o') ->
  root_vnode v' = root
  /\ overlay_create root name o' = Some (E_IO, 0, o') /\ overlay_mkdir root name o' = Some (E_IO, o').
Proof.
  intros Hr Hfill. unfold mount_root.
  destruct (Vfs.mount (Some ops) 0 v) as [[[e1 lower_root] v1]|] eqn:E1; [|done]. cbn [mbind option_bind].
  destruct (Z.ltb_spec e1 0) as [|He1]; [done|].
  destruct (mount_root_first _ _ _ _ _ Hr E1 He1) as [Hl Hv1].
  destruct (fill lower_root v1) as [v2|] eqn:E2; [|done]. cbn [mbind option_bind].
  destruct (Vfs.mount (Some ops) 0 v2) as [[[e3 upper_root] v3]|] eqn:E3; [|done]. cbn [mbind option_bind].
  apply mount_root_exists in E3 as ->; [|rewrite (Hfill _ _ _ E2), Hv1; done].
  destruct ((e3 <? 0) && negb (e3 =? E_EXISTS)); [done|]. cbv zeta.
  unfold Overlay.init. cbn [length Nat.eqb Nat.ltb Nat.leb MAX_LAYERS orb]. change (0 <? 0) with false. cbn iota.
  unfold overlay_mount. cbn [g_initialized g_layers negb orb length Nat.eqb].
  set (o1 := Overlay _ _ _ _ _). destruct (alloc_overlay_vnode o1) as [p o2] eqn:Ea.
  assert (g_layers o2 = g_layers o1) as Hg2.
  { unfold alloc_overlay_vnode, Overlay.kalloc in Ea. destruct (fs_kalloc _ _ _) as [q f]. by destruct (q =? 0); injection Ea as <- <-. }
  destruct (p =? 0) eqn:Ep; [cbn [mbind option_bind]; by destruct (E_NO_SPACE <? 0)|]. rewrite Hg2.
  cbn [o1 g_layers fmap list_fmap l_root app length drop].
  destruct (ref_all [lower_root; 0] (lower o2)) as [f|]; [|done]. cbn [mbind option_bind].
  set (ovn := Build_OverlayVnode _ 0 [] false). set (o3 := set_ov_node p ovn _).
  destruct (alloc_vnode Directory p o3) as [r o4] eqn:Ev.
  destruct (r =? 0) eqn:Er.
  { destruct (unref_each _ _); [|done]. cbn [mbind option_bind]. by destruct (E_NO_SPACE <? 0). }
  cbn [mbind option_bind]. change (0 <? 0) with false. cbn [orb]. rewrite Er.
  destruct (set_root r _) as [e5 v5] eqn:E5. destruct (Z.ltb_spec e5 0) as [|He5]; [done|].
  intros [= <- <- <-].
  assert (ov_vnodes o4 !! r = Some (Build_Vnode Directory overlay_vnode_ops p 0 0)
    /\ ov_nodes o4 !! p = Some ovn /\ g_layers o4 = g_layers o1) as (V1 & V2 & V3).
  { unfold alloc_vnode, Overlay.kalloc in Ev. destruct (fs_kalloc _ _ _) as [q g]. destruct (q =? 0); [by injection Ev as <- <-; rewrite Z.eqb_refl in Er|].
    injection Ev as <- <-. cbn. split; [by rewrite lookup_insert_eq|]. split; [by rewrite lookup_insert_eq|done]. }
  assert (ovn_of r o4 = Some (p, ovn)) as Ho.
  { unfold ovn_of. rewrite V1. cbn [mbind option_bind private_data]. by rewrite V2. }
  assert (top_writable (layers_of ovn o4) 0 = None) as Ht.
  { unfold layers_of. rewrite V3. reflexivity. }
  split.
  - unfold set_root in E5. destruct (negb (initialized _) || (r =? 0)) eqn:Ei; injection E5 as <- <-; [|done].
    exfalso. unfold E_INVALID in He5. lia.
  - unfold overlay_create, overlay_mkdir. rewrite Ho. cbn [mbind option_bind]. by rewrite Ht.
Qed.
End Root.

(** * Filling the root *)

(** The allocator in a state in which it has just refused a page or an object. *)
Definition refused {A} `{KMem A} (a' : A) : Prop :=
  (exists a, km_alloc_page a = (invalid_physical_address, a'))
  \/ (exists size alignment a, 0 < size /\ km_kalloc size alignment a = (0, a')).

(** A write to the memory filesystem fails only when memory is refused. *)
Section Refused.
Context {A : Type} `{KMem A}.
Implicit Types (s : ramfs A).

Lemma write_loop_refused fuel fp offset size buf : forall pos s err s',
  write_loop fuel fp offset size pos buf s = Some (err, s') -> err = 0 \/ err < 0 /\ refused (kmem s').
Proof.
  induction fuel as [|fuel IH]; intros pos s err s'; cbn [write_loop]; [done|].
  destruct (pos <? size); [|intros [= <- _]; by left]. cbv zeta.
  destruct (files s !! fp) as [f|]; [|done]. cbn [mbind option_bind].
  destruct (f_pages f !! _) as [p|]; [|done]. cbn [mbind option_bind].
  destruct (p =? 0); [|apply IH]. destruct (km_alloc_page (kmem s)) as [phys a] eqn:Ea.
  destruct (phys =? invalid_physical_address) eqn:Ep; [|apply IH].
  intros [= <- <-]. right. split; [done|]. left. exists (kmem s). cbn. bool_to_prop. by subst.
Qed.

Lemma grow_pages_refused fp needed s err s' :
  grow_pages fp needed s = Some (err, s') -> 0 <= needed < 2 ^ 60 -> err = 0 \/ err < 0 /\ refused (kmem s').
Proof.
  unfold grow_pages. intros E Hn. destruct (files s !! fp) as [f|]; [|done]. cbn [mbind option_bind] in E.
  destruct (Z.ltb_spec (page_count f) needed) as [Hlt|]; [|injection E as <- _; by left].
  assert (0 <= page_count f) by (unfold page_count; lia). unfold Ramfs.kalloc in E.
  rewrite (wrap_small 64 (needed * 8)) in E by lia.
  destruct (km_kalloc (needed * 8) 8 (kmem s)) as [q a] eqn:Ea. destruct (q =? 0) eqn:Eq; injection E as <- <-; [|by left].
  right. split; [done|]. right. exists (needed * 8), 8, (kmem s). split; [lia|]. bool_to_prop. by subst.
Qed.

Lemma ramfs_write_refused node offset buf size s err n s' :
  0 <= offset -> 0 <= size -> offset + size + 4095 < 2 ^ 64 ->
  ramfs_write node offset buf size s = Some (err, n, s') -> err <> 0 -> refused (kmem s').
Proof.
  intros Ho Hs Hov. unfold ramfs_write, kPageSize. destruct (ramdir_of node s) as [fp|]; [|done]. cbn [mbind option_bind].
  rewrite (wrap_small 64 (offset + size)), (wrap_small 64 (offset + size + 4096 - 1)) by lia.
  destruct (grow_pages _ _ _) as [[e1 s1]|] eqn:E1; [|done]. cbn [mbind option_bind].
  destruct (grow_pages_refused _ _ _ _ _ E1) as [->|[Hlt Hr]]; [zlia|change (0 <? 0) with false; cbn iota|].
  2:{ replace (e1 <? 0) with true by lia. by intros [= _ _ <-]. }
  destruct (write_loop _ _ _ _ _ _ _) as [[e2 s2]|] eqn:E2; [|done]. cbn [mbind option_bind].
  destruct (write_loop_refused _ _ _ _ _ _ _ _ _ E2) as [->|[Hlt Hr]].
  - change (0 <? 0) with false. cbn iota. destruct (files s2 !! fp); [|done]. cbn [mbind option_bind]. by intros [= <- _ _].
  - replace (e2 <? 0) with true by lia. by intros [= _ _ <-].
Qed.
End Refused.

Section Populate.
Context {D A B : Type} `{BlockDev D} `{KMem A} `{KMem B}.
Implicit Types (g : fat D A) (v : vfs (ramfs B)).

(** A descriptor whose file holds [n] bytes, at its end. *)
Record at_end (cur fd : Z) v (vnode : Z) (vn : Vnode) (n : Z) (f : RamfsFile) : Prop := {
  ae_fd : exists d, get_fd cur fd v = Some d /\ fd_vnode d = vnode /\ fd_offset d = n;
  ae_vnode : vnodes (node_fs v) !! vnode = Some vn;
  ae_type : v_type vn = File;
  ae_file : exists live frames, file_ok (node_fs v) live frames (private_data vn) f /\ 0 ∈ frames;
  ae_size : f_size f = n;
}.

(** A write at the end appends all bytes, or none when memory was refused. *)
Lemma append_cases cur fd v vnode vn n f buf size :
  at_end cur fd v vnode vn n f -> 0 <= n -> 0 <= size -> n + size + 4095 < 2 ^ 64 ->
  exists err k v' f', Vfs.write cur fd buf size v = Some (err, k, v')
    /\ (forall x b, 0 <= x < n -> file_byte f (fmem (node_fs v)) x = Some b ->
          file_byte f' (fmem (node_fs v')) x = Some b)
    /\ ((err = 0 /\ k = size /\ at_end cur fd v' vnode vn (n + size) f'
         /\ forall x, 0 <= x < size -> file_byte f' (fmem (node_fs v')) (n + x) = Some (aget buf x))
        \/ (err = E_NO_SPACE /\ k = 0 /\ refused (kmem (node_fs v')) /\ at_end cur fd v' vnode vn n f')).
Proof.
  intros [(d & Hg & Hdv & Hdo) Hv Hty (live & frames & Hok & Hz0) Hsz] Hn Hs Hov.
  destruct (ramfs_write_cases (node_fs v) live frames vnode vn (private_data vn) f n size buf Hv eq_refl Hok Hz0 Hn Hs Hov)
    as (err & k & fs' & live' & frames' & f' & Ew & Hok' & Hof & Hold & Hres).
  unfold Vfs.write. rewrite Hg, Hdv, Hdo. cbn [vn_type op_write has_write ramfs_vnode_fs].
  rewrite Hv. cbn [fmap option_fmap option_map mbind option_bind]. rewrite Hty. cbn [is_directory negb].
  rewrite Ew. cbn [mbind option_bind].
  assert (0 ∈ frames') as Hz0' by (apply (of_frames _ _ _ _ _ _ _ _ _ Hof); done).
  assert (vnodes fs' !! vnode = Some vn) as Hv' by (by rewrite (of_vnodes _ _ _ _ _ _ _ _ _ Hof)).
  destruct Hres as [(-> & -> & Esz & Hnew)|(-> & -> & Esz)].
  - change (0 =? 0) with true. cbn iota. rewrite wrap_small by lia.
    eexists _, _, _, f'. split; [reflexivity|]. split; [intros x b Hx; apply Hold; lia|]. left. split_and!; [done|done| |exact Hnew].
    split; [|exact Hv'|done|by exists live', frames'|lia].
    eexists. split; [apply (get_set_offset cur fd (n + size) d); by rewrite get_fd_set_fs|done].
  - eexists _, _, _, f'. split; [reflexivity|]. split; [intros x b Hx; apply Hold; lia|]. right.
    split_and!; [done|done|by eapply (ramfs_write_refused (A := B)); [| | |exact Ew|]|].
    split; [|exact Hv'|done|by exists live', frames'|lia]. by exists d.
Qed.

(** How the chunks of 4 KiB of a file of [size] bytes from [o] on were written:
    each in order, its bytes in the buffer; the write took it whole, or took
    nothing because memory was refused. *)
Inductive copying (byte : Z -> Z) (cur fd size : Z) : Z -> vfs (ramfs B) -> list bool -> vfs (ramfs B) -> Prop :=
  | copying_end o v : size <= o -> copying byte cur fd size o v [] v
  | copying_taken o v buf v1 oks v' : o < size ->
      let len := Z.min 4096 (size - o) in
      (forall x, 0 <= x < len -> aget buf x = byte (o + x)) ->
      Vfs.write cur fd buf len v = Some (0, len, v1) ->
      copying byte cur fd size (o + 4096) v1 oks v' -> copying byte cur fd size o v (true :: oks) v'
  | copying_refused o v buf v1 oks v' : o < size ->
      let len := Z.min 4096 (size - o) in
      (forall x, 0 <= x < len -> aget buf x = byte (o + x)) ->
      Vfs.write cur fd buf len v = Some (E_NO_SPACE, 0, v1) -> refused (kmem (node_fs v1)) ->
      copying byte cur fd size (o + 4096) v1 oks v' -> copying byte cur fd size o v (false :: oks) v'.

(** The offsets in the source of the bytes that were taken, in order. *)
Fixpoint taken (size o : Z) (oks : list bool) : list Z :=
  match oks with
  | [] => []
  | ok :: oks => (if ok then seqZ o (Z.min 4096 (size - o)) else []) ++ taken size (o + 4096) oks
  end.

(** When every chunk was taken, so was every byte. *)
Lemma taken_all byte cur fd size o v oks v' :
  copying byte cur fd size o v oks v' -> 0 <= o -> false ∉ oks -> taken size o oks = seqZ o (size - o).
Proof.
  induction 1 as [o v Ho|o v buf v1 oks v' Ho len _ _ _ IH|o v buf v1 oks v' Ho len _ _ _ _ IH]; intros Hp Hall; cbn [taken].
  - by rewrite seqZ_nil by lia.
  - rewrite IH by (lia || set_solver). destruct (Z.le_gt_cases 4096 (size - o)).
    + rewrite Z.min_l by lia. rewrite <- seqZ_app by lia. f_equal. lia.
    + rewrite Z.min_r by lia. rewrite (seqZ_nil _ (size - (o + 4096))) by lia. apply app_nil_r.
  - set_solver.
Qed.

(** The file holds the bytes at the offsets [l] of the source. *)
Definition file_holds (byte : Z -> Z) (cur fd : Z) v (vnode : Z) (vn : Vnode) (l : list Z) f : Prop :=
  at_end cur fd v vnode vn (Z.of_nat (length l)) f
  /\ forall i y, l !! i = Some y -> file_byte f (fmem (node_fs v)) (Z.of_nat i) = Some (byte y).

Lemma copy_file_cases cur garbage fuel : forall child fd o g v fn fs cs vnode vn l f,
  fat_file g child fn fs cs -> 0 <= o -> o <= file_size fn + 4095 -> Z.of_nat (length l) <= o ->
  file_holds (chain_byte fs cs) cur fd v vnode vn l f ->
  (file_size fn - o + 4095) / 4096 < Z.of_nat fuel ->
  exists v' oks f', copy_file cur garbage fuel child fd (Z.min o (file_size fn)) g v = Some (g, v')
    /\ copying (chain_byte fs cs) cur fd (file_size fn) o v oks v'
    /\ file_holds (chain_byte fs cs) cur fd v' vnode vn (l ++ taken (file_size fn) o oks) f'.
Proof.
  induction fuel as [|fuel IH]; intros child fd o g v fn fs cs vnode vn l f Hf Ho Hhi Hlen Hh Hfuel; [zlia|].
  pose proof (ff_size _ _ _ _ _ Hf) as [Hsz Hsz32].
  destruct (fat_read_cases g child fn fs cs (Z.min o (file_size fn)) garbage 4096 Hf) as (buf & Er & Hb); [lia..|].
  set (len := Z.min 4096 (file_size fn - o)).
  cbn [copy_file op_read fat_vnode_fs]. rewrite Er. cbn [mbind option_bind]. change (0 =? 0) with true. cbn [andb].
  destruct (Z.le_gt_cases (file_size fn) o) as [Hend|Hlt].
  { match goal with |- context [0 <? ?x] => replace (0 <? x) with false by lia end.
    exists v, [], f. split_and!; [done|by apply copying_end|]. cbn [taken]. by rewrite app_nil_r. }
  rewrite (Z.min_l o) in * by lia. replace (Z.max 0 (file_size fn - o)) with (file_size fn - o) in * by lia.
  fold len in Er, Hb |- *.
  replace (0 <? len) with true by lia.
  destruct Hh as [Hat Hbytes].
  destruct (append_cases cur fd v vnode vn _ f buf len Hat) as (err & k & v1 & f1 & Ew & Hold & Hres); [lia..|].
  rewrite Ew. cbn [mbind option_bind]. rewrite wrap_small by lia. replace (o + len) with (Z.min (o + 4096) (file_size fn)) by lia.
  assert (forall x, 0 <= x < len -> aget buf x = chain_byte fs cs (o + x)) as Hbuf.
  { intros x Hx. rewrite Hb. replace ((0 <=? x) && (x <? 0 + len)) with true by lia. f_equal. lia. }
  assert ((file_size fn - (o + 4096) + 4095) / 4096 < Z.of_nat fuel) as Hfuel' by zlia.
  destruct Hres as [(-> & -> & Hat1 & Hnew)|(-> & -> & Hr & Hat1)].
  - destruct (IH child fd (o + 4096) g v1 fn fs cs vnode vn (l ++ seqZ o len) f1 Hf) as (v' & oks & f' & E & Hc & Hh'); [lia|lia| | |done|].
    + rewrite length_app, length_seqZ. lia.
    + split; [by rewrite length_app, length_seqZ, Nat2Z.inj_add, Z2Nat.id by lia|].
      intros i y Hi. apply lookup_app_Some in Hi as [Hi|[Hge Hi]].
      * apply Hold; [pose proof (lookup_lt_Some _ _ _ Hi); lia|by apply Hbytes].
      * apply lookup_seqZ in Hi as [-> Hi]. replace (Z.of_nat i) with (Z.of_nat (length l) + Z.of_nat (i - length l)) by lia.
        rewrite Hnew by lia. f_equal. by apply Hbuf; lia.
    + exists v', (true :: oks), f'. split_and!; [exact E|by eapply copying_taken; [..|exact Hc]|]. cbn [taken]. by rewrite app_assoc.
  - destruct (IH child fd (o + 4096) g v1 fn fs cs vnode vn l f1 Hf) as (v' & oks & f' & E & Hc & Hh'); [lia|lia|lia| |done|].
    + split; [done|]. intros i y Hi. apply Hold; [pose proof (lookup_lt_Some _ _ _ Hi); lia|by apply Hbytes].
    + exists v', (false :: oks), f'. split_and!; [exact E|by eapply copying_refused; [..|exact Hc]|done].
Qed.

(** C13. Copying a file of the boot volume to a new file of the root ends, and
    every chunk of 4 KiB is written in its turn; a write takes its chunk whole,
    or nothing, and that only when memory was refused.  The file at the end
    holds the bytes of the chunks that were taken, in order; when no write was
    refused, it has the size of the source and every byte is the one that the
    clusters of the source hold. *)
Theorem fat_file_copied cur garbage fuel child fd g v fn fs cs vnode vn f :
  fat_file g child fn fs cs -> at_end cur fd v vnode vn 0 f ->
  (file_size fn + 4095) / 4096 < Z.of_nat fuel ->
  exists v' oks f', copy_file cur garbage fuel child fd 0 g v = Some (g, v')
    /\ copying (chain_byte fs cs) cur fd (file_size fn) 0 v oks v'
    /\ file_holds (chain_byte fs cs) cur fd v' vnode vn (taken (file_size fn) 0 oks) f'
    /\ (false ∉ oks -> at_end cur fd v' vnode vn (file_size fn) f'
         /\ forall x, 0 <= x < file_size fn -> file_byte f' (fmem (node_fs v')) x = Some (chain_byte fs cs x)).
Proof.
  intros Hf He Hfuel. pose proof (ff_size _ _ _ _ _ Hf) as [Hsz _].
  destruct (copy_file_cases cur garbage fuel child fd 0 g v fn fs cs vnode vn [] f Hf) as (v' & oks & f' & E & Hc & Hh);
    [lia|lia|done|by split|by rewrite Z.sub_0_r|].
  rewrite Z.min_l in E by lia. exists v', oks, f'. split_and!; [done|done|done|]. intros Hall. destruct Hh as [Hat Hb]. cbn [app] in *.
  rewrite (taken_all _ _ _ _ _ _ _ _ Hc) in Hat, Hb by done. rewrite Z.sub_0_r in Hat, Hb.
  rewrite length_seqZ in Hat. replace (Z.of_nat (Z.to_nat (file_size fn))) with (file_size fn) in Hat by lia. split; [done|]. intros x Hx.
  rewrite <- (Z2Nat.id x) at 1 by lia. apply Hb. rewrite lookup_seqZ. lia.
Qed.
End Populate.

(** * The root of the kernel *)

(** Filling the root does not replace it. *)
Section Kept.
Context {F : Type} `{VnodeFs F}.
Implicit Types (s : vfs F).

Lemma split_loop_root fuel : forall current p s r s',
  split_loop fuel current p s = Some (r, s') -> root_vnode s' = root_vnode s.
Proof.
  induction fuel as [|fuel IH]; intros current p s r s'; cbn [split_loop]; [done|].
  destruct p as [|c p]; [by intros [= _ <-]|]. destruct (skip_slashes (c :: p)) as [|c' p']; [by intros [= _ <-]|].
  destruct (take_component (c' :: p')) as [comp rest]. destruct (255 <? _); [by intros [= _ <-]|].
  destruct (vn_type _ _); [|done]. cbn [mbind option_bind]. destruct (negb _); [by intros [= _ <-]|].
  destruct (op_lookup _ _ _) as [[[err next] f]|]; [|done]. cbn [mbind option_bind].
  destruct (err <? 0); [by intros [= _ <-]|]. intros Hs. by apply IH in Hs.
Qed.

Lemma resolve_root base path s r s' :
  resolve base path s = Some (r, s') -> root_vnode s' = root_vnode s.
Proof.
  unfold resolve, split_and_resolve. destruct (negb _); [by intros [= _ <-]|].
  destruct path as [[|c p]|]; [by intros [= _ <-]| |by intros [= _ <-]].
  destruct (c =? slash); [|by apply split_loop_root].
  destruct (root_vnode s =? 0); [by intros [= _ <-]|].
  destruct (skip_slashes (c :: p)); [by intros [= _ <-]|]. by apply split_loop_root.
Qed.

Lemma mkdir_at_root start path s err s' :
  mkdir_at start path s = Some (err, s') -> root_vnode s' = root_vnode s.
Proof.
  unfold mkdir_at. destruct (match last_slash _ _ _ with Some _ => _ | None => _ end) as [[[[e p] name] s1]|] eqn:E; [|done].
  assert (root_vnode s1 = root_vnode s) as <-.
  { destruct (last_slash path 0 None); [|by injection E as _ _ _ <-].
    destruct (bool_decide _); [by injection E as _ _ _ <-|].
    destruct (resolve _ _ _) as [[[e' q] s2]|] eqn:R; [|done]. injection E as _ _ _ <-. by eapply resolve_root. }
  cbn [mbind option_bind]. destruct (e <? 0); [by intros [= _ <-]|].
  destruct (vn_type _ _); [|done]. cbn [mbind option_bind]. destruct (negb _); [by intros [= _ <-]|].
  destruct (negb _); [by intros [= _ <-]|]. destruct (op_mkdir _ _ _) as [[e' f]|]; [|done]. by intros [= _ <-].
Qed.

Lemma mkdir_root base path s err s' :
  Vfs.mkdir base path s = Some (err, s') -> root_vnode s' = root_vnode s.
Proof.
  unfold Vfs.mkdir. destruct path as [path|]; [|by intros [= _ <-]]. destruct (negb _ || _); [by intros [= _ <-]|].
  destruct path as [|c p]; [by apply mkdir_at_root|]. destruct (c =? slash); [|by apply mkdir_at_root].
  destruct (root_vnode s =? 0); [by intros [= _ <-]|]. destruct (skip_slashes (c :: p)); [by intros [= _ <-]|].
  by apply mkdir_at_root.
Qed.

Lemma open_fd_root cur vnode flags s r s' :
  open_fd cur vnode flags s = Some (r, s') -> root_vnode s' = root_vnode s.
Proof.
  unfold open_fd. destruct (find_free_fd cur s); [|by intros [= _ <-]].
  destruct (vn_ref _ _); [|done]. by intros [= _ <-].
Qed.

Lemma open_root cur base path flags s r s' :
  Vfs.open cur base path flags s = Some (r, s') -> root_vnode s' = root_vnode s.
Proof.
  unfold Vfs.open. destruct (negb _); [by intros [= _ <-]|]. destruct path as [path|]; [|by intros [= _ <-]].
  destruct (resolve base (Some path) s) as [[[e vn] s1]|] eqn:R; [|done]. apply resolve_root in R as <-.
  cbn [mbind option_bind]. destruct (e <? 0); [|by apply open_fd_root].
  destruct (_ && _); [|by intros [= _ <-]].
  destruct (match last_slash _ _ _ with Some _ => _ | None => _ end) as [[[[e' p] name] s2]|] eqn:E; [|done].
  assert (root_vnode s2 = root_vnode s1) as <-.
  { destruct (last_slash path 0 None); [|by injection E as _ _ _ <-].
    destruct (bool_decide _); [done|]. destruct (resolve _ _ _) as [[[e2 q] s3]|] eqn:R; [|done].
    injection E as _ _ _ <-. by eapply resolve_root. }
  cbn [mbind option_bind]. destruct (e' <? 0); [by intros [= _ <-]|].
  destruct (op_create _ _ _) as [[[e3 v] f]|]; [|done]. cbn [mbind option_bind].
  destruct (e3 <? 0); [by intros [= _ <-]|]. intros Ho. by apply open_fd_root in Ho.
Qed.

Lemma write_root cur fd buf size s r s' :
  Vfs.write cur fd buf size s = Some (r, s') -> root_vnode s' = root_vnode s.
Proof.
  unfold Vfs.write. destruct (get_fd _ _ _); [|by intros [= _ <-]]. destruct (vn_type _ _); [|done].
  cbn [mbind option_bind]. destruct (is_directory _); [by intros [= _ <-]|]. destruct (negb _); [by intros [= _ <-]|].
  destruct (op_write _ _ _ _ _) as [[[e n] f1]|]; [|done]. cbn [mbind option_bind]. intros [= _ <-].
  by destruct (e =? 0).
Qed.

Lemma close_root cur fd s err s' : Vfs.close cur fd s = Some (err, s') -> root_vnode s' = root_vnode s.
Proof.
  unfold Vfs.close. destruct (get_fd _ _ _); [|by intros [= _ <-]]. destruct (vn_unref _ _); [|done].
  by intros [= _ <-].
Qed.
End Kept.

Section BootRoot.
Context {G F : Type} `{VnodeFs G} `{VnodeFs F}.
Context (cur : Z) (garbage : bmem).
Implicit Types (g : G) (v : vfs F).

Lemma copy_file_root fuel : forall child fd off g v g' v',
  copy_file cur garbage fuel child fd off g v = Some (g', v') -> root_vnode v' = root_vnode v.
Proof.
  induction fuel as [|fuel IH]; intros child fd off g v g' v'; cbn [copy_file]; [done|].
  destruct (op_read _ _ _ _ _) as [[[[err got] buf] g1]|]; [|done]. cbn [mbind option_bind].
  destruct (_ && _).
  - destruct (Vfs.write _ _ _ _ _) as [[r v1]|] eqn:E; [|done]. apply write_root in E as <-.
    destruct r. cbn [mbind option_bind]. apply IH.
  - destruct (0 <? got); [apply IH|]. by intros [= _ <-].
Qed.

Definition rec_keeps (rec : Z -> Z -> G -> vfs F -> option (G * vfs F)) : Prop :=
  forall a b g v g' v', rec a b g v = Some (g', v') -> root_vnode v' = root_vnode v.

Lemma populate_entry_root fuel rec fat_dir ramfs_dir entry g v g' v' :
  rec_keeps rec -> populate_entry cur garbage fuel rec fat_dir ramfs_dir entry g v = Some (g', v') ->
  root_vnode v' = root_vnode v.
Proof.
  intros Hrec. unfold populate_entry. destruct (dirent_name entry) as [|c name]; [by intros [= _ <-]|].
  destruct (op_lookup fat_dir _ g) as [[[err child] g1]|]; [|done]. cbn [mbind option_bind].
  destruct (err <? 0); [by intros [= _ <-]|].
  destruct (if is_directory _ then _ else _) as [[g2 v2]|] eqn:E; [|done]. cbn [mbind option_bind].
  destruct (vn_unref child g2) as [g3|]; [|done]. intros [= _ <-].
  destruct (is_directory (dirent_type entry)).
  - destruct (Vfs.mkdir _ _ _) as [[e1 v1]|] eqn:M; [|done]. apply mkdir_root in M as <-. cbn [mbind option_bind] in E.
    destruct (op_lookup ramfs_dir _ _) as [[[e2 rc] f1]|]; [|done]. cbn [mbind option_bind] in E.
    destruct (negb (rc =? 0)); [|by injection E as _ <-].
    destruct (rec child rc g1 (set_fs f1 v1)) as [[g4 v4]|] eqn:R; [|done]. apply Hrec in R. cbn [mbind option_bind] in E.
    destruct (vn_unref rc _); [|done]. injection E as _ <-. exact R.
  - destruct (Vfs.open _ _ _ _ _) as [[r v1]|] eqn:O; [|done]. apply open_root in O as <-. destruct r as [e1 fd].
    cbn [mbind option_bind] in E. destruct (e1 =? 0); [|by injection E as _ <-].
    destruct (copy_file _ _ _ _ _ _ _ _) as [[g4 v4]|] eqn:C; [|done]. apply copy_file_root in C as <-.
    cbn [mbind option_bind] in E. destruct (Vfs.close _ _ _) as [[e3 v5]|] eqn:K; [|done]. apply close_root in K.
    by injection E as _ <-.
Qed.

Lemma populate_loop_root fuel : forall rec fat_dir ramfs_dir off g v g' v',
  rec_keeps rec -> populate_loop cur garbage fuel rec fat_dir ramfs_dir off g v = Some (g', v') ->
  root_vnode v' = root_vnode v.
Proof.
  induction fuel as [|fuel IH]; intros rec fat_dir ramfs_dir off g v g' v' Hrec; cbn [populate_loop]; [done|].
  destruct (op_readdir _ _ _) as [[[[err entry] off'] g1]|]; [|done]. cbn [mbind option_bind].
  destruct (err =? 0); [|by intros [= _ <-]].
  destruct (populate_entry _ _ _ _ _ _ _ _ _) as [[g2 v2]|] eqn:E; [|done].
  apply populate_entry_root in E as <-; [|done]. cbn [mbind option_bind]. by apply IH.
Qed.

Lemma populate_root depth fuel :
  rec_keeps (populate_ramfs_from_fat cur garbage depth fuel).
Proof.
  induction depth as [|depth IH]; intros a b g v g' v'; cbn [populate_ramfs_from_fat]; [done|].
  by apply populate_loop_root.
Qed.
End BootRoot.

Section Start.
Context {D A F : Type} `{BlockDev D} `{KMem A} `{LayerOps F}.
Context (cur : Z) (garbage : bmem) (depth fuel : nat) (device : BootModule -> option D).

Lemma load_modules_root n : forall i mods root (g : fat D A) (v : vfs F) g' v',
  load_modules cur garbage depth fuel device n i mods root g v = Some (g', v') -> root_vnode v' = root_vnode v.
Proof.
  induction n as [|n IH]; intros i mods root g v g' v'; cbn [load_modules]; [by intros [= _ <-]|].
  destruct (load_module _ _ _ _ _ _ _ _ _) as [[g1 v1]|] eqn:E; [|done]. cbn [mbind option_bind].
  assert (root_vnode v1 = root_vnode v) as <-; [|by apply IH].
  unfold load_module in E. destruct (negb _); [by injection E as _ <-|].
  destruct (device _) as [d|]; [|by injection E as _ <-].
  destruct (Fat.init d g) as [[e1 g2]|]; [|done]. cbn [mbind option_bind] in E.
  destruct (e1 <? 0); [by injection E as _ <-|].
  destruct (fat_mount g2) as [[[e2 fr] g3]|]; [|done]. cbn [mbind option_bind] in E.
  destruct (_ || _); [by injection E as _ <-|].
  destruct (populate_ramfs_from_fat _ _ _ _ _ _ _ _) as [[g4 v4]|] eqn:P; [|done]. apply populate_root in P as <-.
  cbn [mbind option_bind] in E. destruct (fat_unmount _ _) as [[e3 g5]|]; [|done]. by injection E as _ <-.
Qed.

(** C37. The root filesystem that the kernel starts with takes no new names,
    whatever modules the bootloader has loaded: the second mount at the root is
    refused, so that the writable layer of the overlay is the null vnode, and
    creating a file or a directory in the root fails with E_IO. *)
Theorem boot_root_read_only ops b (g : fat D A) (v v' : vfs F) (o o' : overlay F) root name :
  root_vnode v = 0 ->
  boot_root cur garbage depth fuel device ops b g v o = Some (root, v', o') ->
  root_vnode v' = root
  /\ overlay_create root name o' = Some (E_IO, 0, o') /\ overlay_mkdir root name o' = Some (E_IO, o').
Proof.
  intros Hr Hb. eapply mount_root_read_only; [exact Hr| |exact Hb].
  intros r w w' Hw. cbv beta in Hw. destruct (modules b) as [mods|]; [|by injection Hw as <-].
  destruct (load_modules _ _ _ _ _ _ _ _ _ _ _) as [[g1 w1]|] eqn:E; [|done]. injection Hw as <-.
  by eapply load_modules_root.
Qed.
End Start.
