(* ===== verification/MainDemo.v ===== *)
(** The start-up code on concrete machines: the theorems of [Boot] and
    [KernelMainSpec] applied, and a boot volume copied to the root. *)
From S2P Require Import Prelude MemoryMap Pmm PageAlloc Slice KAlloc DList Task Vmm AddressSpace Bytes KMem VfsBase Ramfs Vfs ProcTable Process Elf Pool Text Boot Block Fat FatSpec FatDir FatFs FatDemo Overlay OverlaySpec OverlayDemo KernelMain KernelMainSpec.

(** * What the bootloader says *)

Definition l_types : LimineTypes := Build_LimineTypes 0 1 2 3 4 5 6 7 8 1.

Lemma l_types_distinct : distinct_types l_types.
Proof. unfold distinct_types. cbn. repeat (apply NoDup_cons; split; [set_solver|]). by apply NoDup_nil. Qed.

Definition l_memmap : memmap_response :=
  {| entry_count := 3;
     entries := Some (fun i => if i =? 0 then Some (Build_memmap_entry 0 0x9f000 0)
                               else if i =? 1 then Some (Build_memmap_entry 0x100000 0x7f00000 5)
                               else Some (Build_memmap_entry 0xfd000000 0x300000 99)) |}.

(** Three processors; the third has the id 200. *)
Definition l_mp (third : Z) : mp_response :=
  {| mp_bsp_lapic_id := 0; mp_cpu_count := 3;
     mp_cpus := fun i => Build_mp_info (0x7000 + 0x100 * i) (if i =? 2 then third else i) (2 * i) |}.

Definition l_module : module_response :=
  {| limine_module_count := 1;
     limine_modules := fun _ => Some (Build_limine_file 0x2000000 0x200000 (Some (txt "/boot/rootfs.fat"))) |}.

Definition l_answers (third : Z) : answers := {|
  bootloader_response := None; cmdline_response := None; hhdm_response := Some 0xffff800000000000;
  framebuffer_request := None; memmap_request := Some l_memmap; executable_address_response := None;
  rsdp_response := Some 0xe0000; module_request := Some l_module; mp_request := Some (l_mp third) |}.

Definition no_cpus : arr CpuInfo := afill (Build_CpuInfo 0 0 0).
Definition no_modules : arr BootModule := afill (Build_BootModule 0 0 (replicate path_size NUL)).

Definition l_info (third : Z) : FullBootInfo := collect_boot_info l_types (l_answers third) no_cpus no_modules.

Lemma boot_map_faithful_witness :
  region_count (memory_map (boot (l_info 2))) = 3
  /\ memory_region_at (memory_map (boot (l_info 2))) 1 = Region 0x100000 0x7f00000 BootloaderReclaimable
  /\ memory_region_at (memory_map (boot (l_info 2))) 2 = Region 0xfd000000 0x300000 Unknown.
Proof.
  destruct (boot_map_faithful l_types (l_answers 2) no_cpus no_modules l_memmap _ l_types_distinct eq_refl eq_refl)
    as (E & K & U & _).
  split; [exact E|]. split.
  - apply (K 1 (Build_memmap_entry 0x100000 0x7f00000 5) BootloaderReclaimable); reflexivity.
  - apply (U 2 (Build_memmap_entry 0xfd000000 0x300000 99)); [reflexivity|reflexivity|]. by intros [].
Defined.

Lemma boot_tables_bounded_witness :
  cpu_count (smp (l_info 2)) = 3 /\ module_count (l_info 2) = 1
  /\ exists mods, modules (l_info 2) = Some mods /\ c_str (mod_path (aget mods 0)) = txt "/boot/rootfs.fat".
Proof.
  destruct (boot_tables_bounded l_types (l_answers 2) no_cpus no_modules (l_mp 2) l_module eq_refl eq_refl)
    as (C & _ & M & P); [cbn; lia|cbn; lia|reflexivity|].
  split; [exact C|]. split; [exact M|].
  destruct (P 0 (Build_limine_file 0x2000000 0x200000 (Some (txt "/boot/rootfs.fat")))) as (mods & E & _ & _ & Hp & _);
    [vm_compute; intuition congruence|reflexivity|]. exists mods. split; [exact E|exact Hp].
Defined.

(** The module is the root volume. *)
Example rootfs_found :
  (fun m => is_rootfs (aget m 0)) <$> modules (l_info 2) = Some true.
Proof. vm_compute. reflexivity. Qed.

(** * Memory map and processors *)

Definition m_heap : pool pmm := Pool 0x900000 elf_pmm.

Lemma memory_map_copied_witness :
  exists m a', copy_memory_map (memory_map (boot (l_info 2))) m_heap = Some (m, a')
    /\ region_count m = 3 /\ memory_region_at m 1 = Region 0x100000 0x7f00000 BootloaderReclaimable.
Proof.
  destruct (copy_memory_map (memory_map (boot (l_info 2))) m_heap) as [[m a']|] eqn:E; [|vm_compute in E; discriminate].
  exists m, a'. split; [reflexivity|].
  destruct (memory_map_copied (boot (l_info 2)) m_heap a' m) as [En Er].
  - vm_compute. discriminate.
  - vm_compute. discriminate.
  - intros i Hi. assert (i = 0 \/ i = 1 \/ i = 2) as [->|[->| ->]] by (change (0 <= i < 3) in Hi; lia);
      vm_compute; intuition congruence.
  - exact E.
  - split; [exact En|]. destruct (Er 1) as [Em _]; [change (0 <= 1 < 3); lia|]. exact Em.
Defined.

Lemma aps_started_witness :
  let s := start_aps 0x1234 0xfee00000 0 (l_info 2) no_aps in
  ap_entry 0x1234 0x7200 s = Some {| cpu_index := 2; KernelMain.lapic_base := 0xfee00000 |}
  /\ g_expected_aps s = 2.
Proof.
  destruct (aps_started 0x1234 0xfee00000 0 (l_info 2)) as (S1 & _ & S3).
  - reflexivity.
  - vm_compute. discriminate.
  - intros i Hi. assert (i = 0 \/ i = 1 \/ i = 2) as [->|[->| ->]] by (change (0 <= i < 3) in Hi; lia);
      vm_compute; intuition congruence.
  - intros i j Hi Hj Hij. assert (i = 0 \/ i = 1 \/ i = 2) as Ei by (change (0 <= i < 3) in Hi; lia).
    assert (j = 0 \/ j = 1 \/ j = 2) as Ej by (change (0 <= j < 3) in Hj; lia).
    destruct Ei as [->|[->| ->]], Ej as [->|[->| ->]]; try reflexivity; vm_compute in Hij; destruct Hij; discriminate.
  - vm_compute. intuition congruence.
  - split; [|exact S3]. apply (S1 2). split; [vm_compute; intuition congruence|lia].
Defined.

Lemma ap_wait_hangs_witness :
  let s := start_aps 0x1234 0xfee00000 0 (l_info 200) no_aps in
  Z.of_nat (size (goto (woken s))) < g_expected_aps s
  /\ wait_for_aps 1000 0 (g_expected_aps s) (fun _ => 1) = None.
Proof.
  destruct (ap_wait_hangs 0x1234 0xfee00000 0 (l_info 200) 2) as [S1 S2].
  - reflexivity.
  - vm_compute. discriminate.
  - split; [vm_compute; intuition congruence|lia].
  - vm_compute. discriminate.
  - split; [exact S1|]. apply S2. intros _. vm_compute. discriminate.
Defined.

(** * Root filesystem *)

Definition ram_ops : FilesystemOps (ramfs bump) := ramfs_ops.

Definition bare_vfs : vfs (ramfs bump) :=
  Vfs (replicate CONFIG_VFS_MAX_MOUNTS (Build_MountEntry 0 0 false)) (afill (replicate 256 no_fd)) 0 true demo_empty.

Definition no_overlay : overlay (ramfs bump) := Overlay [] false ∅ ∅ demo_empty.

(** Without memory for a block device over the module. *)
Definition boot_demo : option (Z * vfs (ramfs bump) * overlay (ramfs bump)) :=
  boot_root 0 (afill 0) 4 40 (fun _ => None) ram_ops (l_info 2) fat_empty bare_vfs no_overlay.

Lemma boot_root_read_only_witness :
  exists root v o, boot_demo = Some (root, v, o) /\ overlay_create root name_a o = Some (E_IO, 0, o).
Proof.
  destruct boot_demo as [[[root v] o]|] eqn:E; [|vm_compute in E; discriminate].
  exists root, v, o. split; [reflexivity|].
  apply (boot_root_read_only 0 (afill 0) 4 40 (fun _ => None) ram_ops (l_info 2) fat_empty bare_vfs v no_overlay o root name_a).
  - reflexivity.
  - exact E.
Defined.

(** * Filling the root *)

(** The descriptor 0 of process 1 is open on an empty file. *)
Lemma demo_at_end :
  at_end 1 0 demo_vfs 0x1040 (Build_Vnode File 1 0x1068 2 0) 0 (Build_RamfsFile 0 [] 0).
Proof.
  split; [by eexists|vm_compute; reflexivity|reflexivity| |reflexivity].
  exists demo_live, {[0]}. split; [apply demo_file_ok|set_solver].
Qed.

Lemma fat_file_copied_witness :
  exists v' f', copy_file 1 (afill 0) 3 hello_v 0 0 fat_opened demo_vfs = Some (fat_opened, v')
    /\ at_end 1 0 v' 0x1040 (Build_Vnode File 1 0x1068 2 0) 700 f'
    /\ forall x, 0 <= x < 700 -> file_byte f' (fmem (node_fs v')) x = Some (chain_byte vol [3; 4] x).
Proof.
  destruct (fat_file_copied 1 (afill 0) 3 hello_v 0 fat_opened demo_vfs hello_node vol [3; 4] 0x1040
    (Build_Vnode File 1 0x1068 2 0) (Build_RamfsFile 0 [] 0) hello_file demo_at_end)
    as (v' & oks & f' & E & Hc & [He _] & Hb); [vm_compute; reflexivity|].
  assert ((fun r => fd_offset <$> get_fd 1 0 r.2) <$> copy_file 1 (afill 0) 3 hello_v 0 0 fat_opened demo_vfs
    = Some (Some 700)) as E7 by (vm_compute; reflexivity).
  rewrite E in E7. cbn in E7. injection E7 as E7.
  destruct (ae_fd _ _ _ _ _ _ _ He) as (d & Hd & _ & Ho). rewrite Hd in E7. cbn in E7. injection E7 as E7.
  exists v', f'. split; [exact E|]. apply Hb. intros Hin.
  assert (length oks = 1%nat) as Hl.
  { inversion Hc as [? ? Hx|? ? ? ? ? ? _ ? _ _ Hc'|? ? ? ? ? ? _ ? _ _ _ Hc']; subst; [cbn in Hx; lia|..];
      (inversion Hc' as [? ? Hx|? ? ? ? ? ? Hx|? ? ? ? ? ? Hx]; [reflexivity|cbn in Hx; lia|cbn in Hx; lia]). }
  destruct oks as [|[|] [|]]; cbn in Hl; try discriminate Hl; [by apply list_elem_of_singleton in Hin|].
  cbn [taken app length] in Ho. rewrite Ho in E7. discriminate E7.
Defined.

(** The first entry of the boot volume copied to a root of its own: the file is
    found there under its name, with its 700 bytes. *)
Example entry_populated :
  let HELLO := [72; 69; 76; 76; 79; 46; 84; 88; 84] in
  let filled :=
    '(_, root, v) ← Vfs.mount (Some ram_ops) 0 bare_vfs;
    '(_, entry, _, g) ← fat_readdir root_v 0 fat_rooted;
    '(_, v) ← populate_entry 0 (afill 0) 3 (fun _ _ g v => Some (g, v)) root_v root entry g v;
    '(err, node, f) ← op_lookup root HELLO (node_fs v);
    '(err', st, _) ← op_stat node f;
    Some (err, err', stat_size st) in
  filled = Some (0, 0, 700).
Proof. vm_compute. reflexivity. Qed.
